(* ===== verification/_CoqProject ===== *)
-Q . S2P
Prelude.v
Ring.v
Text.v
Preempt.v
Trace.v
Capability.v
AuditTrail.v
Message.v
Machine.v
Frames.v
Task.v
Scheduler.v
Kernel.v
Switch.v
Scheduling.v
Spawn.v
Contexts.v
Entry.v
Timer.v
Ipc.v
Rendezvous.v
Messaging.v
Atomicity.v
Authority.v
Propagation.v
Delegation.v
Paging.v
AddressSpace.v
UserMemory.v
Userspace.v
Syscall.v
Requests.v
InitSpawn.v
Safety.v
UserCode.v
UserRun.v
InitBoot.v
Services.v
Snapshot.v
Dist.v
Keyboard.v
PipelineSim.v
CacheSim.v
Service.v
KvService.v
LogService.v
FsService.v
SyncService.v
SyncDemo.v
Spinlock.v
Serial.v
Console.v
CommandLine.v
DevService.v
Clients.v
Toctou.v
Descriptors.v
Apic.v
Boot.v
Reports.v
Commands.v
Grants.v
Replies.v
Listings.v
Demos.v
Dispatch.v
BootTasks.v
Startup.v
