(* ===== verification/Prelude.v ===== *)
(** * RunixOS verification library

    A shallow embedding of the RunixOS kernel (the Rust sources under
    [src/kernel/]) with proofs of the properties its design relies on.  This file
    is the root: it documents the whole development and holds the vocabulary that
    every other file shares.

    ** The program

    RunixOS is a capability microkernel for x86-64; tasks run on one processor, the
    others only answer inter-processor interrupts.  A fixed table of 132 tasks is
    scheduled round-robin, by voluntary yields and, when armed, by a timer.  Tasks own capability tables; messages, serial output, task creation
    and delegation are authorised by the capabilities in them.  Messages are
    exchanged by rendezvous or through bounded queues.  User tasks run in ring 3
    in their own address spaces and reach the kernel through [int 0x80].  Kernel
    services (key-value store, log, file system, synchronisation, devices) are
    tasks that answer messages of the console, and the boot image contains
    demonstrations: revocation, checkpointing, migration, a watchdog, and a race
    between validating and using a capability.

    ** How code is modelled

    - A fallible computation returns [outcome]: [Ret], [Panic] (index out of range,
      [unwrap] of nothing, arithmetic overflow: the kernel is built with the dev
      profile), [Hang] (spinning on a lock this core holds) or [OutOfFuel].
    - What the console prints is a list of reports: level, format string and
      arguments ([Reports.v]).  What it observes of the world (keys, timer ticks in a
      spinning loop, other processors) is an argument, a function of the state.
    - Machine integers are [N]; [add64], [sub64] and their like panic on overflow
      and the [wadd64] family wraps, as the atomics do.  Arrays are lists read with
      [arr_get] and written with [arr_set], which panic out of range.
    - Kernel code is written in the state monad [K] over the record [Kernel]
      ([Kernel.v]): the scheduler and its lock, the ambient state that every
      operation may touch (trace ring, preemption state, next capability identity),
      the audit log, counters, processor and memory, frame allocator, the bytes
      written to the console, and user memory.
    - Code that can give up the processor is written in the monad [R]: it is
      [Done] or [Paused] with the continuation that runs when the task is switched
      back to.  Other tasks may do anything in between.
    - A Rust method [Type::method] is [Type_method]; other names are the source's.

    ** Files and sources

    Foundations.  [Ring]: the bounded-queue interface [Fifo] with its laws and ring
    arithmetic.  [Text]: UTF-8 and string tests of [core::str].

    Kernel state.  [Preempt] and [Timer]: [preempt/mod.rs] and [timer_isr].
    [Trace]: the trace ring of [shell/mod.rs].  [Capability]:
    [process/capability.rs].  [AuditTrail]: [process/audit.rs].  [Message]: the data
    of [process/ipc.rs].  [Machine] and [Frames]: registers, memory words, the
    assembly of [switch_context] and of the trampolines ([process/mod.rs]).  [Task],
    [Scheduler], [Kernel]: control blocks, table and the kernel record.

    Tasks.  [Switch] and [Scheduling]: [scheduler/mod.rs].  [Spawn]: [Task::new] and
    [Task::new_user].  [Contexts]: the results on switching.  [Entry]: the assembly
    stubs of [interrupts/mod.rs] and [syscall/mod.rs].  [Descriptors] and [Apic]:
    the tables and controllers of [arch/x86_64/] and [interrupts/mod.rs].

    Messages.  [Ipc]: the operations of [process/ipc.rs].  [Rendezvous]: their
    specification.  [Messaging]: the results.  [Atomicity]: the region of a send as a
    program that timer interrupts may cut between any two of its operations.

    Authority.  [Authority], [Propagation], [Delegation]: grant, revoke and the
    propagation of revocations in [syscall/mod.rs].

    Memory and user tasks.  [Paging] and [AddressSpace]: [memory/mod.rs].
    [UserMemory] and [Userspace]: user bytes and [userspace/mod.rs].  [Syscall],
    [Requests], [InitSpawn]: the dispatcher of [syscall/mod.rs], the decoding of
    requests, and task creation by init.  [Safety]: soundness of the kernel state
    under system calls.  [UserCode]: the user programs of [userspace/mod.rs] as
    instructions, and their execution.  [UserRun], [InitBoot], [Services]: their
    runs.

    Persistence and distribution.  [Snapshot]: [process/snapshot.rs].  [Dist]:
    [process/dist.rs].

    Drivers and console.  [Keyboard]: [drivers/keyboard.rs].  [Spinlock] and
    [Serial]: [drivers/serial.rs].  [Console]: history and line editor of [shell/mod.rs].
    [CommandLine]: splitting and numbers.  [PipelineSim] and [CacheSim]:
    [arch_sim/mod.rs].

    Services.  [Service]: the loop all services share and the [Handler] contract.
    [KvService], [LogService], [FsService], [SyncService], [DevService]: one service
    of [shell/mod.rs] each.  [Clients]: the console's capabilities and requests.
    [SyncDemo]: the two tasks of the synchronisation demonstration, interleaved.

    Commands, all in [shell/mod.rs].  [Reports]: the print macros, formatting, the
    trace listing and the comparison of [watch].  [Commands]: the arms of [dispatch]
    that change the system or call a service.  [Grants]: their authority.
    [Replies]: what they encode and show.  [Listings]: the arms that only report.
    [Demos]: benchmarks, demonstrations and the tasks they start.  [Dispatch]:
    [dispatch] itself.

    Boot, all in [boot/main.rs].  [Toctou]: the validate-and-use experiment.
    [Boot]: the loaders, the demonstration tasks and the watchdog.  [BootTasks]: the
    drivers of the demonstrations, and the loops of the console's tasks.  [Startup]:
    [_start] from power-on, and the other processors.

    ** What the theorems show

    - Authority ([Delegation]): a revocation removes exactly the capability and its
      descendants; every capability goes back, grant by grant, to one held at the start
      that has all its rights; identities stay unique and
      derivation stays acyclic; grants install exactly the attenuated capability;
      refused requests change nothing.
    - Isolation ([AddressSpace], [Userspace], [Requests], [Descriptors]): mapping a
      page changes one translation in one address space; range validation accepts
      what the processor would; new spaces are empty; a user program sees its own
      pages only; requests are decoded and answered within the caller's memory; the
      system call is the only gate open to ring 3.
    - System calls ([Safety]): from every sound state a system call panics if it
      passes a validated slice at address zero; every other call, while the audit
      counter has room and a task creation finds its frames, neither panics nor
      deadlocks, ends unless it has to wait for another task, and leaves the state
      sound, across suspensions.
    - User programs ([InitBoot], [Services]): init creates the services and hands
      out exactly the capabilities it means to; the services print every message
      they are sent; the faulty program is refused and stopped.
    - Messages ([Atomicity], [Messaging], [Clients]): validation and use are one step
      wherever timer interrupts fall; blocked senders revalidate; rendezvous and queues deliver what was sent, in order; a
      call to any service that meets its contract is answered.
    - Scheduling ([Contexts], [Timer], [Toctou], [Entry], [Boot]): switches and
      interrupt stubs are transparent; waiting is bounded; faults are contained;
      non-preemptible regions are not preempted and remove the race the experiment
      shows; the watchdog restarts its service at most twice, and ends by the third
      time it finds it dead or settled.
    - Boot ([Startup]): from power-on the kernel sets up memory, tables, processors
      and timer, prints its messages and enters the console, however the processors
      interleave.
    - Locks ([Spinlock], [SyncDemo]): the spin lock excludes under every interleaving
      and interruption; the mutex of the synchronisation service makes the shared
      counter of the demonstration exact, and every run ends.
    - State ([AuditTrail], [Snapshot], [Dist]): the audit ring is exact; restoring
      undoes what happened since the capture, and succeeds exactly on a valid snapshot
      whose checksum matches, which one altered word prevents; a message sent to a
      service reaches it through migration and failover.
    - Services and console: the key-value, log and file-system services refine simple
      abstract objects, the latter but for a listing with an empty path, which panics;
      permits of the synchronisation service are conserved; the line editor equals its
      list-level specification on every input; the effect of the grants of the console
      is exact; lines other than the commands that act change nothing; what is stored
      is what is shown; the simulators compute their definitions.

    Lemmas named in the manifest's findings prove that the code departs from what
    its comments promise or from what it means to do, for example
    [Messaging.accepted_message_lost] and [SyncService.permit_lost_with_waiter].

    ** Bounds and fuel

    Loops bounded by the code (over tables, payloads, digits) are structural.  The
    retry loops of blocking operations take fuel, and their theorems hold for every
    fuel of at least one round per wake-up they describe.  The propagation of a
    revocation, the pipeline simulation and the wait for the local APIC take fuel
    with a proof that the given amount is enough.  [dispatch] takes fuel for its
    polling loops and a depth for the commands that run another command.  Services,
    which never end, are described one round at a time.

    ** Interfaces

    The addresses of the image ([Layout], [BootImage]), the bytes of the user programs
    ([Blobs], given by [assembled] for an [Assembler]), the encoding of instructions
    ([Assembler]), the entry points of the console's tasks ([ConsoleImage]), what the
    console observes ([World]), the answers of the bootloader ([Bootloader]) and the
    devices ([PortDevice] with [Uart16550Laws] and [OtherPorts], [LapicDevice] with
    [Lapic] and [LapicIdent]) are parameters; the laws state documented behaviour of
    the hardware and have instances.  [Handler] is what a service promises its clients.

    ** Not modelled

    Diagnostic text printed outside the console and the boot sequence: by system
    calls, fault handlers, snapshots, migration and the demonstration tasks; output
    that needs a capability is modelled.  Taking and releasing the locks that one
    function holds for a few instructions: [Spinlock] shows what the lock gives, and
    of its uses only the scheduler lock is in the kernel state.  Memory ordering: an
    atomic operation is one step.  The end-of-interrupt writes to the PIC, and the
    descriptor-table registers; the tables and the selectors loaded from them are
    modelled.  The handlers that only report and halt, among them the double-fault
    handler.  What other processors do after [ap_entry] beyond answering
    inter-processor interrupts; [ap_entry] itself is interleaved with the boot.  In
    [SyncDemo] the exchange of messages with the synchronisation service is not: a
    request, its handling and the reply to it are one step.  Module roots, which only declare modules. *)

From stdpp Require Export prelude list option numbers gmap strings.
From Stdlib Require Export Lia.

#[global] Set Default Goal Selector "!".
Local Open Scope N_scope.

(** ** Outcomes

    The kernel is built with the dev profile ([cargo build] in
    [build_disk.sh]), so an out-of-range index, an [unwrap] of [None] and an
    arithmetic overflow all panic and halt the machine.  [Panic] is that halt;
    [Hang] is an acquisition of a spinlock that the (single) core already holds;
    [OutOfFuel] is produced only by a loop that has exhausted its bound. *)

Inductive outcome (A : Type) : Type :=
| Ret (a : A)
| Panic
| Hang
| OutOfFuel.
Arguments Ret {A} _.
Arguments Panic {A}.
Arguments Hang {A}.
Arguments OutOfFuel {A}.

Definition obind {A B} (c : outcome A) (f : A -> outcome B) : outcome B :=
  match c with
  | Ret a => f a
  | Panic => Panic
  | Hang => Hang
  | OutOfFuel => OutOfFuel
  end.

Definition ofmap {A B} (f : A -> B) (c : outcome A) : outcome B :=
  obind c (fun a => Ret (f a)).

Declare Scope kernel_scope.
Delimit Scope kernel_scope with kernel.
Notation "'let!' x ':=' c 'in' k" := (obind c (fun x => k))
  (at level 10, x pattern, c at level 100, k at level 200) : kernel_scope.
#[global] Open Scope kernel_scope.

(** [Result<T, E>]. *)
Inductive result (E A : Type) : Type :=
| Ok (a : A)
| Err (e : E).
Arguments Ok {E A} _.
Arguments Err {E A} _.

Definition is_ok {E A} (r : result E A) : bool :=
  match r with Ok _ => true | Err _ => false end.

(** ** Machine integers

    [u8], [u16], [u64] and [usize] (64-bit target) are [N]; the width is
    written out where the code can reach it. *)

Definition u64_limit : N := 2 ^ 64.
Definition usize_max : N := u64_limit - 1.

(** [a + b] on [usize]/[u64]: overflow panics. *)
Definition add64 (a b : N) : outcome N :=
  if a + b <? u64_limit then Ret (a + b) else Panic.

(** [a - b] on [usize]/[u64]: underflow panics. *)
Definition sub64 (a b : N) : outcome N :=
  if b <=? a then Ret (a - b) else Panic.

(** [AtomicU64::fetch_add], [wrapping_add], [wrapping_mul], [wrapping_sub]. *)
Definition wrap64 (a : N) : N := a mod u64_limit.
Definition wadd64 (a b : N) : N := wrap64 (a + b).
Definition wmul64 (a b : N) : N := wrap64 (a * b).
Definition wsub64 (a b : N) : N := wrap64 (a + u64_limit - wrap64 b).

Definition checked_add (a b : N) : option N :=
  if a + b <? u64_limit then Some (a + b) else None.
Definition checked_mul (a b : N) : option N :=
  if a * b <? u64_limit then Some (a * b) else None.

(** ** Arrays

    A Rust array is a list of fixed length; an index outside it panics. *)

Definition lenN {A} (l : list A) : N := N.of_nat (length l).

Definition idx {A} (l : list A) (i : N) : option A :=
  if i <? lenN l then l !! N.to_nat i else None.

Definition arr_get {A} (l : list A) (i : N) : outcome A :=
  match idx l i with Some x => Ret x | None => Panic end.

Definition upd {A} (l : list A) (i : N) (x : A) : list A :=
  if i <? lenN l then <[N.to_nat i := x]> l else l.

Definition arr_set {A} (l : list A) (i : N) (x : A) : outcome (list A) :=
  if i <? lenN l then Ret (upd l i x) else Panic.

Definition is_some {A} (o : option A) : bool :=
  match o with Some _ => true | None => false end.
Definition is_none {A} (o : option A) : bool := negb (is_some o).

(** [&l[a..b]]. *)
Definition slice {A} (l : list A) (a b : N) : outcome (list A) :=
  if (a <=? b) && (b <=? lenN l)
  then Ret (take (N.to_nat (b - a)) (drop (N.to_nat a) l)) else Panic.

(** [l[a..a + src.len()].copy_from_slice(src)]. *)
Definition copy_at {A} (l : list A) (a : N) (src : list A) : outcome (list A) :=
  if a + lenN src <=? lenN l
  then Ret (take (N.to_nat a) l ++ src ++ drop (N.to_nat (a + lenN src)) l) else Panic.

(** [a..a+n] as a list of indices, the domain of a [for] loop. *)
Definition rangeN (a : N) (n : nat) : list N := (fun k => a + N.of_nat k) <$> seq 0 n.

(** [for i in l { body }] with the mutable locals of the loop as state. *)
Fixpoint for_each {I S} (l : list I) (body : I -> S -> outcome S) (s : S) : outcome S :=
  match l with
  | [] => Ret s
  | i :: l' => let! s' := body i s in for_each l' body s'
  end.

(** A [for] loop that only looks for the first index satisfying a test and
    [break]s there. *)
Fixpoint find_first {I} (p : I -> bool) (l : list I) : option I :=
  match l with
  | [] => None
  | i :: l' => if p i then Some i else find_first p l'
  end.

(** [iter().enumerate()] with a [return]/[break] at the first element
    satisfying a test: the index of that element. *)
Fixpoint position_from {A} (p : A -> bool) (l : list A) (i : N) : option N :=
  match l with
  | [] => None
  | x :: l' => if p x then Some i else position_from p l' (i + 1)
  end.
Definition position {A} (p : A -> bool) (l : list A) : option N := position_from p l 0.

(** ** Automation *)

Create HintDb kernel.

(** Case analysis on every [match]/[if] of the goal and the context, closing
    the contradictory branches. *)
Ltac crush_match :=
  repeat (simplify_eq/=; case_match); simplify_eq/=.

(** [split_if] turns the boolean comparisons of the context into arithmetic. *)
Ltac bool_to_prop :=
  repeat match goal with
  | H : (_ && _)%bool = true |- _ => apply andb_prop in H as [? ?]
  | H : (_ <? _) = true |- _ => apply N.ltb_lt in H
  | H : (_ <? _) = false |- _ => apply N.ltb_ge in H
  | H : (_ <=? _) = true |- _ => apply N.leb_le in H
  | H : (_ <=? _) = false |- _ => apply N.leb_gt in H
  | H : (_ =? _) = true |- _ => apply N.eqb_eq in H
  | H : (_ =? _) = false |- _ => apply N.eqb_neq in H
  | H : negb _ = true |- _ => apply negb_true_iff in H
  | H : negb _ = false |- _ => apply negb_false_iff in H
  end.

Lemma obind_Ret {A B} (c : outcome A) (f : A -> outcome B) b :
  obind c f = Ret b <-> exists a, c = Ret a /\ f a = Ret b.
Proof. destruct c; simpl; naive_solver. Qed.

Lemma ofmap_Ret {A B} (f : A -> B) (c : outcome A) b :
  ofmap f c = Ret b <-> exists a, c = Ret a /\ b = f a.
Proof. unfold ofmap. rewrite obind_Ret. naive_solver. Qed.

(** Destructs the successful binds of a hypothesis [H : let! x := c in k = Ret r]. *)
Ltac run_binds :=
  repeat match goal with
  | H : obind _ _ = Ret _ |- _ =>
      let a := fresh "r" in let E := fresh "Hrun" in
      apply obind_Ret in H as (a & E & H); cbv beta in H
  | H : ofmap _ _ = Ret _ |- _ =>
      let a := fresh "r" in let E := fresh "Hrun" in
      apply ofmap_Ret in H as (a & E & H)
  | H : Ret _ = Ret _ |- _ => injection H as H; simplify_eq
  end.

(** Names the quotient [q] and remainder [r] of [x] by the positive constant [b]
    everywhere, with the equation and bound that define them. *)
Ltac divmod x b q r :=
  let E := fresh "Hdiv" in let L := fresh "Hmod" in
  pose proof (N.div_mod x b ltac:(done)) as E; pose proof (N.mod_lt x b ltac:(done)) as L;
  set (q := x / b) in *; set (r := x mod b) in *; clearbody q r.

(** ** Checked arithmetic *)

Lemma add64_ok a b : a + b < u64_limit -> add64 a b = Ret (a + b).
Proof. intros H. unfold add64. by rewrite (proj2 (N.ltb_lt _ _) H). Qed.

Lemma add64_Ret a b c : add64 a b = Ret c -> c = a + b /\ a + b < u64_limit.
Proof. unfold add64. intros. case_match; simplify_eq. bool_to_prop. done. Qed.

Lemma sub64_ok a b : b <= a -> sub64 a b = Ret (a - b).
Proof. intros H. unfold sub64. by rewrite (proj2 (N.leb_le _ _) H). Qed.

Lemma wrap64_lt a : wrap64 a < u64_limit.
Proof. apply N.mod_lt. done. Qed.

Lemma wrap64_small a : a < u64_limit -> wrap64 a = a.
Proof. apply N.mod_small. Qed.

Lemma wadd64_small a b : a + b < u64_limit -> wadd64 a b = a + b.
Proof. apply wrap64_small. Qed.

Lemma wsub64_small a b : b <= a -> a < u64_limit -> wsub64 a b = a - b.
Proof.
  intros. unfold wsub64, wrap64. rewrite (N.mod_small b) by lia.
  replace (a + u64_limit - b) with (a - b + 1 * u64_limit) by lia.
  rewrite N.Div0.mod_add. apply N.mod_small. lia.
Qed.

#[export] Hint Resolve wrap64_lt : kernel.

(** ** Array lemmas *)

Section arrays.
Context {A : Type}.
Implicit Types (l : list A) (i j : N) (x y : A).

Lemma idx_lookup l i : idx l i = l !! N.to_nat i.
Proof.
  unfold idx, lenN. case_match; [done|]. bool_to_prop.
  symmetry. apply lookup_ge_None. lia.
Qed.

Lemma idx_lt l i x : idx l i = Some x -> i < lenN l.
Proof. unfold idx. case_match; [|done]. by bool_to_prop. Qed.

Lemma idx_is_Some l i : i < lenN l -> exists x, idx l i = Some x.
Proof.
  intros Hi. rewrite idx_lookup. apply lookup_lt_is_Some. unfold lenN in Hi. lia.
Qed.

Lemma idx_ge l i : lenN l <= i -> idx l i = None.
Proof. intros. unfold idx. by rewrite (proj2 (N.ltb_ge _ _)). Qed.

Lemma lenN_upd l i x : lenN (upd l i x) = lenN l.
Proof. unfold upd, lenN. case_match; [|done]. by rewrite length_insert. Qed.

Lemma idx_upd_eq l i x : i < lenN l -> idx (upd l i x) i = Some x.
Proof.
  intros Hi. rewrite idx_lookup. unfold upd. rewrite (proj2 (N.ltb_lt _ _) Hi).
  apply list_lookup_insert_eq. unfold lenN in Hi. lia.
Qed.

Lemma idx_upd_ne l i j x : i <> j -> idx (upd l i x) j = idx l j.
Proof.
  intros Hij. rewrite !idx_lookup. unfold upd. case_match; [|done].
  apply list_lookup_insert_ne. lia.
Qed.

Lemma idx_upd l i j x :
  idx (upd l i x) j = if decide (i = j /\ i < lenN l) then Some x else idx l j.
Proof.
  case_decide as Hd.
  - destruct Hd as [<- Hlt]. by apply idx_upd_eq.
  - destruct (decide (i = j)) as [<-|]; [|by apply idx_upd_ne].
    unfold upd. assert (lenN l <= i) by lia. by rewrite (proj2 (N.ltb_ge _ _)).
Qed.

Lemma arr_get_ok l i : i < lenN l -> exists x, idx l i = Some x /\ arr_get l i = Ret x.
Proof. intros [x Hx]%idx_is_Some. exists x. unfold arr_get. by rewrite Hx. Qed.

Lemma arr_get_Ret l i x : arr_get l i = Ret x <-> idx l i = Some x.
Proof. unfold arr_get. case_match; naive_solver. Qed.

Lemma arr_set_ok l i x : i < lenN l -> arr_set l i x = Ret (upd l i x).
Proof. intros. unfold arr_set. by rewrite (proj2 (N.ltb_lt _ _)). Qed.

Lemma arr_set_Ret l i x l' : arr_set l i x = Ret l' <-> i < lenN l /\ l' = upd l i x.
Proof.
  unfold arr_set. split.
  - intros. case_match; simplify_eq. by bool_to_prop.
  - intros [? ->]. by rewrite (proj2 (N.ltb_lt _ _)).
Qed.

Lemma list_eq_idx l1 l2 :
  lenN l1 = lenN l2 -> (forall i, i < lenN l1 -> idx l1 i = idx l2 i) -> l1 = l2.
Proof.
  intros Hlen Hidx. apply list_eq. intros n.
  destruct (decide (n < length l1)%nat) as [Hn|Hn].
  - specialize (Hidx (N.of_nat n)). rewrite !idx_lookup, Nat2N.id in Hidx.
    apply Hidx. unfold lenN. lia.
  - rewrite !lookup_ge_None_2; unfold lenN in *; try lia. done.
Qed.

Lemma idx_elem_of l i x : idx l i = Some x -> x ∈ l.
Proof. rewrite idx_lookup. intros. apply list_elem_of_lookup. eauto. Qed.

Lemma elem_of_idx l x : x ∈ l -> exists i, idx l i = Some x.
Proof.
  intros [n Hn]%list_elem_of_lookup. exists (N.of_nat n).
  by rewrite idx_lookup, Nat2N.id.
Qed.

Lemma idx_replicate n x i : i < N.of_nat n -> idx (replicate n x) i = Some x.
Proof. intros. rewrite idx_lookup. apply lookup_replicate. split; [done|lia]. Qed.

Lemma lenN_replicate n x : lenN (replicate n x) = N.of_nat n.
Proof. unfold lenN. by rewrite length_replicate. Qed.

Lemma upd_upd_eq l i x y : upd (upd l i x) i y = upd l i y.
Proof.
  apply list_eq_idx; rewrite !lenN_upd; [done|]. intros j Hj.
  rewrite !idx_upd, lenN_upd. repeat case_decide; naive_solver.
Qed.

Lemma upd_id l i x : idx l i = Some x -> upd l i x = l.
Proof.
  intros Hx. apply list_eq_idx; rewrite !lenN_upd; [done|]. intros j Hj.
  rewrite idx_upd. case_decide; naive_solver.
Qed.
End arrays.

(** Writing at the start of the padding of a buffer. *)
Lemma upd_pad {A} (pre : list A) n d x :
  upd (pre ++ replicate (S n) d) (lenN pre) x = (pre ++ [x]) ++ replicate n d.
Proof.
  unfold upd, lenN. rewrite length_app, length_replicate, (proj2 (N.ltb_lt _ _)) by lia.
  rewrite Nat2N.id, insert_app_r_alt, Nat.sub_diag by lia. by rewrite <- app_assoc.
Qed.

Section slices.
Context {A : Type}.
Implicit Types (l src : list A).

Lemma slice_ok l a b :
  a <= b -> b <= lenN l -> slice l a b = Ret (take (N.to_nat (b - a)) (drop (N.to_nat a) l)).
Proof.
  intros. unfold slice. rewrite (proj2 (N.leb_le _ _)), (proj2 (N.leb_le _ _)); done.
Qed.

Lemma copy_at_ok l a src :
  a + lenN src <= lenN l ->
  copy_at l a src = Ret (take (N.to_nat a) l ++ src ++ drop (N.to_nat (a + lenN src)) l).
Proof. intros. unfold copy_at. by rewrite (proj2 (N.leb_le _ _)). Qed.

Lemma copy_at_Ret l a src l' :
  copy_at l a src = Ret l' ->
  a + lenN src <= lenN l /\
  l' = take (N.to_nat a) l ++ src ++ drop (N.to_nat (a + lenN src)) l.
Proof. unfold copy_at. intros. case_match; simplify_eq. by bool_to_prop. Qed.

Lemma copy_at_lenN l a src l' : copy_at l a src = Ret l' -> lenN l' = lenN l.
Proof.
  intros [Hle ->]%copy_at_Ret. unfold lenN in *.
  rewrite !length_app, length_take, length_drop. lia.
Qed.

(** Reading back the bytes just copied. *)
Lemma slice_copy_at l a src l' :
  copy_at l a src = Ret l' -> slice l' a (a + lenN src) = Ret src.
Proof.
  intros Hc. pose proof (copy_at_lenN _ _ _ _ Hc) as Hlen.
  apply copy_at_Ret in Hc as [Hle ->]. rewrite slice_ok by lia. f_equal.
  replace (a + lenN src - a) with (lenN src) by lia. unfold lenN in *. rewrite Nat2N.id.
  rewrite drop_app_ge by (rewrite length_take; lia).
  rewrite length_take, Nat.min_l by lia. rewrite Nat.sub_diag, drop_0.
  apply take_app_length.
Qed.
End slices.

(** ** Loops *)

Lemma elem_of_rangeN a n i : i ∈ rangeN a n <-> a <= i < a + N.of_nat n.
Proof.
  unfold rangeN. rewrite list_elem_of_fmap. split.
  - intros (k & -> & Hk). apply elem_of_seq in Hk. lia.
  - intros Hi. exists (N.to_nat (i - a)). split; [lia|]. apply elem_of_seq. lia.
Qed.

Lemma rangeN_lookup a n k i :
  rangeN a n !! k = Some i <-> i = a + N.of_nat k /\ (k < n)%nat.
Proof.
  unfold rangeN. rewrite list_lookup_fmap. split.
  - destruct (seq 0 n !! k) as [x|] eqn:Hx; [|done]. apply lookup_seq in Hx as [-> Hk].
    cbn [fmap option_fmap option_map Nat.add]. intros. by simplify_eq.
  - intros [-> Hk]. by rewrite lookup_seq_lt by done.
Qed.

Lemma rangeN_S a n : rangeN a (S n) = a :: rangeN (a + 1) n.
Proof.
  unfold rangeN. simpl. f_equal; [lia|]. rewrite <- (fmap_S_seq 0 n), <- list_fmap_compose.
  apply list_fmap_ext. intros k x _. simpl. lia.
Qed.

Lemma find_first_Some {I} (p : I -> bool) l i :
  find_first p l = Some i ->
  exists l1 l2, l = l1 ++ i :: l2 /\ p i = true /\ Forall (fun x => p x = false) l1.
Proof.
  induction l as [|x l IH]; simpl; [done|]. case_match; intros; simplify_eq.
  - by exists [], l.
  - destruct IH as (l1 & l2 & -> & ? & ?); [done|]. exists (x :: l1), l2. auto.
Qed.

Lemma find_first_true {I} (p : I -> bool) l i :
  find_first p l = Some i -> i ∈ l /\ p i = true.
Proof. intros (l1 & l2 & -> & ? & _)%find_first_Some. set_solver. Qed.

Lemma find_first_None {I} (p : I -> bool) l :
  find_first p l = None <-> forall x, x ∈ l -> p x = false.
Proof.
  induction l as [|x l IH]; simpl.
  { split; [|done]. intros _ y Hy. inversion Hy. }
  destruct (p x) eqn:Hp.
  - split; [done|]. intros H. rewrite H in Hp; [done|]. left.
  - rewrite IH. split.
    + intros H y [->|Hy]%elem_of_cons; auto.
    + intros H y Hy. apply H. by right.
Qed.

Lemma for_each_app {I S} (l1 l2 : list I) (body : I -> S -> outcome S) s :
  for_each (l1 ++ l2) body s = let! s' := for_each l1 body s in for_each l2 body s'.
Proof.
  revert s. induction l1 as [|i l1 IH]; intros s; simpl; [done|].
  destruct (body i s); simpl; auto.
Qed.

(** Invariant rule for [for_each]: [Inv done s] holds before the element after
    the prefix [done]. *)
Lemma for_each_inv {I S} (Inv : list I -> S -> Prop) (body : I -> S -> outcome S) l s :
  (forall pre i post s, l = pre ++ i :: post -> Inv pre s ->
     exists s', body i s = Ret s' /\ Inv (pre ++ [i]) s') ->
  Inv [] s ->
  exists s', for_each l body s = Ret s' /\ Inv l s'.
Proof.
  intros Hstep.
  cut (forall post pre s, l = pre ++ post -> Inv pre s ->
         exists s', for_each post body s = Ret s' /\ Inv l s').
  { intros H Hs. by apply (H l []). }
  induction post as [|i post IH]; intros pre s0 Hl Hinv; simpl.
  - rewrite app_nil_r in Hl. subst. eauto.
  - destruct (Hstep pre i post s0 Hl Hinv) as (s1 & -> & Hinv1). simpl.
    apply (IH (pre ++ [i])); [|done]. by rewrite <- app_assoc.
Qed.

Section positions.
Context {A : Type} (p : A -> bool).
Implicit Types (l : list A).

Lemma position_from_Some l a i :
  position_from p l a = Some i ->
  exists x, a <= i /\ idx l (i - a) = Some x /\ p x = true /\
    forall j y, j < i - a -> idx l j = Some y -> p y = false.
Proof.
  revert a. induction l as [|x l IH]; intros a; simpl; [done|].
  destruct (p x) eqn:Hx; intros H; simplify_eq.
  - exists x. rewrite idx_lookup. replace (N.to_nat (i - i)) with 0%nat by lia.
    repeat split; [lia|done|]. intros; lia.
  - apply IH in H as (y & Hle & Hy & Hp & Hmin). exists y. rewrite idx_lookup in *.
    replace (N.to_nat (i - a)) with (S (N.to_nat (i - (a + 1)))) by lia.
    repeat split; [lia|done|done|]. intros j z Hj Hz. rewrite idx_lookup in Hz.
    destruct (N.to_nat j) as [|j'] eqn:Hj'; simpl in Hz; [naive_solver|].
    apply (Hmin (N.of_nat j')); [lia|]. by rewrite idx_lookup, Nat2N.id.
Qed.

Lemma position_from_None l a :
  position_from p l a = None <-> forall x, x ∈ l -> p x = false.
Proof.
  revert a. induction l as [|x l IH]; intros a; simpl.
  { split; [|done]. intros _ y Hy. inversion Hy. }
  destruct (p x) eqn:Hp.
  - split; [done|]. intros H. rewrite H in Hp; [done|]. left.
  - rewrite IH. split.
    + intros H y [->|Hy]%elem_of_cons; auto.
    + intros H y Hy. apply H. by right.
Qed.

(** [position] finds the least index whose element passes the test. *)
Lemma position_Some l i :
  position p l = Some i ->
  exists x, idx l i = Some x /\ p x = true /\
    forall j y, j < i -> idx l j = Some y -> p y = false.
Proof.
  intros (x & _ & Hx & Hp & Hmin)%position_from_Some.
  rewrite N.sub_0_r in *. eauto.
Qed.

Lemma position_None l :
  position p l = None <-> forall i x, idx l i = Some x -> p x = false.
Proof.
  unfold position. rewrite position_from_None. split.
  - intros H i x Hx%idx_elem_of. auto.
  - intros H x [i Hi]%elem_of_idx. eauto.
Qed.

Lemma position_least l i x :
  idx l i = Some x -> p x = true ->
  (forall j y, j < i -> idx l j = Some y -> p y = false) ->
  position p l = Some i.
Proof.
  intros Hx Hp Hmin. destruct (position p l) as [k|] eqn:Hk.
  - apply position_Some in Hk as (y & Hy & Hpy & Hk). f_equal.
    destruct (N.lt_trichotomy k i) as [?|[?|?]]; [|done|]; exfalso.
    + rewrite (Hmin k y) in Hpy; done.
    + rewrite (Hk i x) in Hp; done.
  - rewrite position_None in Hk. rewrite (Hk i x) in Hp; done.
Qed.
End positions.
