(* ===== verification/Ring.v ===== *)
(** * Ring buffers

    Two disciplines recur in the kernel.  Bounded FIFOs that refuse when full
    ([MessageQueue], [KbdBuffer], the wait queue of [SyncObject]) keep a head,
    a tail and a count; their contract is the class [Fifo] with its laws, which
    clients use and each implementation discharges.  Logs that overwrite the
    oldest entry (the capability audit log, the trace buffer, the event log)
    write at position [total mod capacity]; [holds_last] is their contract. *)

From S2P Require Import Prelude.
Local Open Scope N_scope.

(** ** Modular index arithmetic *)

Lemma mod_succ_lt a n : 0 < n -> (a + 1) mod n < n.
Proof. intros. apply N.mod_lt. lia. Qed.

Lemma mod_shift a k n : 0 < n -> ((a + 1) mod n + k) mod n = (a + (k + 1)) mod n.
Proof. intros. rewrite N.Div0.add_mod_idemp_l. f_equal. lia. Qed.

Lemma mod_add_neq a k n : a < n -> 0 < k < n -> (a + k) mod n <> a.
Proof.
  intros Ha Hk. destruct (decide (a + k < n)) as [Hlt|Hge].
  - rewrite N.mod_small by done. lia.
  - replace (a + k) with ((a + k - n) + 1 * n) by lia.
    rewrite N.Div0.mod_add, N.mod_small; lia.
Qed.

#[export] Hint Resolve mod_succ_lt : kernel.

(** ** The live segment of a ring *)

Section ring_view.
Context {A : Type}.
Implicit Types (buf : list A) (h : N) (n : nat).

(** The [n] elements starting at index [h], going round. *)
Fixpoint ring_view buf h n : list A :=
  match n with
  | O => []
  | S n' =>
      match idx buf h with
      | Some x => x :: ring_view buf ((h + 1) mod lenN buf) n'
      | None => []
      end
  end.

Lemma ring_view_length buf h n : h < lenN buf -> length (ring_view buf h n) = n.
Proof.
  revert h. induction n as [|n IH]; intros h Hh; simpl; [done|].
  destruct (idx_is_Some buf h Hh) as [x ->]. simpl. rewrite IH; [done|].
  apply mod_succ_lt. lia.
Qed.

(** Writing just behind the segment appends to it. *)
Lemma ring_view_push buf h n x :
  h < lenN buf -> N.of_nat n < lenN buf ->
  ring_view (upd buf ((h + N.of_nat n) mod lenN buf) x) h (S n) = ring_view buf h n ++ [x].
Proof.
  revert h. induction n as [|n IH]; intros h Hh Hn; cbn [ring_view].
  - rewrite N.add_0_r, N.mod_small, idx_upd_eq by done. done.
  - rewrite idx_upd_ne by (apply mod_add_neq; lia).
    destruct (idx_is_Some buf h Hh) as [y ->]. cbn [app]. f_equal.
    rewrite lenN_upd. specialize (IH ((h + 1) mod lenN buf)).
    rewrite <- IH by first [lia | apply mod_succ_lt; lia].
    rewrite (mod_shift h (N.of_nat n)) by lia.
    replace (N.of_nat n + 1) with (N.of_nat (S n)) by lia.
    cbn [ring_view]. by rewrite !lenN_upd.
Qed.

(** A write outside the segment does not change it. *)
Lemma ring_view_upd_out buf h n i x :
  h < lenN buf -> (forall k, k < N.of_nat n -> (h + k) mod lenN buf <> i) ->
  ring_view (upd buf i x) h n = ring_view buf h n.
Proof.
  revert h. induction n as [|n IH]; intros h Hh Hout; simpl; [done|].
  rewrite idx_upd_ne.
  2: { intros ->. apply (Hout 0); [lia|]. rewrite N.add_0_r. by apply N.mod_small. }
  destruct (idx_is_Some buf h Hh) as [y ->]. f_equal. rewrite lenN_upd. apply IH.
  - apply mod_succ_lt. lia.
  - intros k Hk. rewrite mod_shift by lia. apply Hout. lia.
Qed.

(** Clearing the slot just popped does not change what remains. *)
Lemma ring_view_clear_head buf h n x :
  h < lenN buf -> N.of_nat (S n) <= lenN buf ->
  ring_view (upd buf h x) ((h + 1) mod lenN buf) n = ring_view buf ((h + 1) mod lenN buf) n.
Proof.
  intros Hh Hn. apply ring_view_upd_out; [apply mod_succ_lt; lia|].
  intros k Hk. rewrite mod_shift by lia. apply mod_add_neq; lia.
Qed.
End ring_view.

(** ** Rings that keep their popped elements

    [KbdBuffer] and [SyncObject] store plain values and only move the indices when
    an element is taken. *)

Section plain_ring.
Context {A : Type}.

Record ring_ok (cap : N) (buf : list A) (h t c : N) : Prop := {
  ring_len : lenN buf = cap;
  ring_head : h < cap;
  ring_count : c <= cap;
  ring_tail : t = (h + c) mod cap
}.

Definition ring_contents (buf : list A) (h c : N) : list A := ring_view buf h (N.to_nat c).

Lemma ring_contents_len cap buf h t c : ring_ok cap buf h t c -> lenN (ring_contents buf h c) = c.
Proof. intros []. unfold ring_contents, lenN in *. rewrite ring_view_length by (unfold lenN; lia). lia. Qed.

Lemma ring_tail_lt cap buf h t c : ring_ok cap buf h t c -> t < cap.
Proof. intros []. subst t. apply N.mod_lt. lia. Qed.

Lemma ring_push cap buf h t c x :
  ring_ok cap buf h t c -> c < cap ->
  ring_ok cap (upd buf t x) h ((t + 1) mod cap) (c + 1) /\
  ring_contents (upd buf t x) h (c + 1) = ring_contents buf h c ++ [x].
Proof.
  intros [Hlen Hh Hc Ht] Hlt. split.
  - split; [by rewrite lenN_upd|done|lia|]. rewrite Ht, N.Div0.add_mod_idemp_l. f_equal. lia.
  - unfold ring_contents. replace (N.to_nat (c + 1)) with (S (N.to_nat c)) by lia. subst t cap.
    replace (h + c) with (h + N.of_nat (N.to_nat c)) by lia. apply ring_view_push; lia.
Qed.

Lemma ring_pop cap buf h t c x l :
  ring_ok cap buf h t c -> ring_contents buf h c = x :: l ->
  0 < c /\ idx buf h = Some x /\ ring_ok cap buf ((h + 1) mod cap) t (c - 1) /\ ring_contents buf ((h + 1) mod cap) (c - 1) = l.
Proof.
  intros [Hlen Hh Hc Ht] Hcont. unfold ring_contents in Hcont. destruct (N.to_nat c) as [|n] eqn:Hn; [done|].
  simpl in Hcont. destruct (idx buf h) as [y|] eqn:Hy; [|done]. injection Hcont as -> Hl.
  split; [lia|]. split; [done|]. split.
  - split; [done|apply N.mod_lt; lia|lia|]. rewrite Ht, N.Div0.add_mod_idemp_l. f_equal. lia.
  - unfold ring_contents. replace (N.to_nat (c - 1)) with n by lia. by rewrite <- Hlen.
Qed.
End plain_ring.

(** ** Bounded FIFO queues *)

Class Fifo (Q A : Type) : Type := {
  fifo_capacity : N;
  fifo_inv : Q -> Prop;
  fifo_contents : Q -> list A;
  fifo_enqueue : Q -> A -> outcome (bool * Q);
  fifo_dequeue : Q -> outcome (option A * Q)
}.

Class FifoLaws (Q A : Type) {F : Fifo Q A} : Prop := {
  fifo_bounded : forall q, fifo_inv q -> lenN (fifo_contents q) <= fifo_capacity;
  fifo_enqueue_accepts : forall q a,
    fifo_inv q -> lenN (fifo_contents q) < fifo_capacity ->
    exists q', fifo_enqueue q a = Ret (true, q') /\ fifo_inv q' /\
      fifo_contents q' = fifo_contents q ++ [a];
  fifo_enqueue_refuses : forall q a,
    fifo_inv q -> lenN (fifo_contents q) = fifo_capacity ->
    fifo_enqueue q a = Ret (false, q);
  fifo_dequeue_nil : forall q,
    fifo_inv q -> fifo_contents q = [] -> fifo_dequeue q = Ret (None, q);
  fifo_dequeue_cons : forall q a l,
    fifo_inv q -> fifo_contents q = a :: l ->
    exists q', fifo_dequeue q = Ret (Some a, q') /\ fifo_inv q' /\ fifo_contents q' = l
}.

(** A client's sequence of operations and what it observes. *)
Inductive fifo_op (A : Type) : Type :=
| Enq (a : A)
| Deq.
Arguments Enq {A} _.
Arguments Deq {A}.

Definition fifo_obs (A : Type) : Type := bool + option A.

(** The abstract queue: a list bounded by a capacity. *)
Fixpoint fifo_spec {A} (cap : N) (l : list A) (ops : list (fifo_op A)) : list (fifo_obs A) * list A :=
  match ops with
  | [] => ([], l)
  | Enq a :: ops' =>
      if lenN l <? cap
      then let '(os, l') := fifo_spec cap (l ++ [a]) ops' in (inl true :: os, l')
      else let '(os, l') := fifo_spec cap l ops' in (inl false :: os, l')
  | Deq :: ops' =>
      match l with
      | [] => let '(os, l') := fifo_spec cap [] ops' in (inr None :: os, l')
      | a :: l0 => let '(os, l') := fifo_spec cap l0 ops' in (inr (Some a) :: os, l')
      end
  end.

Section fifo.
Context {Q A : Type} `{FL : FifoLaws Q A}.

Fixpoint fifo_run (q : Q) (ops : list (fifo_op A)) : outcome (list (fifo_obs A) * Q) :=
  match ops with
  | [] => Ret ([], q)
  | Enq a :: ops' =>
      let! (b, q1) := fifo_enqueue q a in
      let! (os, q2) := fifo_run q1 ops' in Ret (inl b :: os, q2)
  | Deq :: ops' =>
      let! (o, q1) := fifo_dequeue q in
      let! (os, q2) := fifo_run q1 ops' in Ret (inr o :: os, q2)
  end.

(** Every implementation of the interface runs any client program without
    panicking and is observably the abstract queue. *)
Lemma fifo_refines q ops :
  fifo_inv q ->
  exists q', fifo_run q ops = Ret ((fifo_spec fifo_capacity (fifo_contents q) ops).1, q') /\
    fifo_inv q' /\ fifo_contents q' = (fifo_spec fifo_capacity (fifo_contents q) ops).2.
Proof.
  revert q. induction ops as [|[a|] ops IH]; intros q Hq; simpl.
  - eauto.
  - pose proof (fifo_bounded q Hq) as Hb.
    destruct (lenN (fifo_contents q) <? fifo_capacity) eqn:Hlt; bool_to_prop.
    + destruct (fifo_enqueue_accepts q a Hq Hlt) as (q1 & -> & Hq1 & Hc). simpl.
      destruct (IH q1 Hq1) as (q2 & -> & Hq2 & Hc2). rewrite Hc in *.
      destruct (fifo_spec _ _ ops). simpl in *. eauto.
    + rewrite (fifo_enqueue_refuses q a Hq) by lia. simpl.
      destruct (IH q Hq) as (q2 & -> & Hq2 & Hc2).
      destruct (fifo_spec _ _ ops). simpl in *. eauto.
  - destruct (fifo_contents q) as [|a l] eqn:Hc.
    + rewrite (fifo_dequeue_nil q Hq Hc). simpl.
      destruct (IH q Hq) as (q2 & -> & Hq2 & Hc2). rewrite Hc in *.
      destruct (fifo_spec _ _ ops). simpl in *. eauto.
    + destruct (fifo_dequeue_cons q a l Hq Hc) as (q1 & -> & Hq1 & Hc1). simpl.
      destruct (IH q1 Hq1) as (q2 & -> & Hq2 & Hc2). rewrite Hc1 in *.
      destruct (fifo_spec _ _ ops). simpl in *. eauto.
Qed.
End fifo.

(** ** Overwriting rings *)

Section overwriting.
Context {A : Type}.

(** [buf] holds, at [j mod capacity], every one of the last [capacity] entries
    [j] of the history [h]. *)
Definition holds_last (buf h : list A) : Prop :=
  forall j, j < lenN h -> lenN h <= j + lenN buf -> idx buf (j mod lenN buf) = idx h j.

Lemma lenN_cons (x : A) l : lenN (x :: l) = 1 + lenN l.
Proof. unfold lenN. simpl. lia. Qed.

Lemma lenN_app (l1 l2 : list A) : lenN (l1 ++ l2) = lenN l1 + lenN l2.
Proof. unfold lenN. rewrite length_app. lia. Qed.

Lemma idx_app_l (l1 l2 : list A) j : j < lenN l1 -> idx (l1 ++ l2) j = idx l1 j.
Proof. intros. rewrite !idx_lookup. apply lookup_app_l. unfold lenN in *. lia. Qed.

Lemma idx_snoc (l : list A) x : idx (l ++ [x]) (lenN l) = Some x.
Proof.
  rewrite idx_lookup. apply list_lookup_middle. unfold lenN. lia.
Qed.

(** Appending at [total mod capacity] keeps the last [capacity] entries. *)
Lemma holds_last_push buf h x :
  0 < lenN buf -> holds_last buf h ->
  holds_last (upd buf (lenN h mod lenN buf) x) (h ++ [x]).
Proof.
  intros Hpos Hh j Hj Hlast. rewrite lenN_app in Hj, Hlast. rewrite lenN_upd in *.
  change (lenN [x]) with 1 in *.
  destruct (decide (j = lenN h)) as [->|Hne].
  - rewrite idx_upd_eq by (apply N.mod_lt; lia). by rewrite idx_snoc.
  - rewrite idx_app_l by lia. rewrite idx_upd_ne; [apply Hh; lia|].
    pose proof (N.div_mod j (lenN buf) ltac:(lia)).
    pose proof (N.div_mod (lenN h) (lenN buf) ltac:(lia)).
    pose proof (N.mod_lt j (lenN buf) ltac:(lia)).
    pose proof (N.mod_lt (lenN h) (lenN buf) ltac:(lia)). intros Heq.
    assert (j / lenN buf < lenN h / lenN buf) by nia. nia.
Qed.

(** Where the walk of such a ring starts: at the oldest entry, which is the
    next to be overwritten once the ring has wrapped. *)
Definition ring_start (cap total : N) : N := if cap <? total then total mod cap else 0.

Lemma ring_walk_slot buf h i :
  0 < lenN buf -> holds_last buf h -> i < N.min (lenN h) (lenN buf) ->
  idx buf ((ring_start (lenN buf) (lenN h) + i) mod lenN buf) = idx h (lenN h - lenN buf + i).
Proof.
  intros Hpos Hh Hi. rewrite <- Hh by lia. f_equal. unfold ring_start.
  case_match; bool_to_prop.
  - rewrite N.Div0.add_mod_idemp_l.
    replace (lenN h + i) with (lenN h - lenN buf + i + 1 * lenN buf) by lia.
    by rewrite N.Div0.mod_add.
  - f_equal. lia.
Qed.

(** Walking the ring collects the last [capacity] entries, oldest first. *)
Lemma ring_walk buf h :
  0 < lenN buf -> holds_last buf h ->
  for_each (rangeN 0 (N.to_nat (N.min (lenN h) (lenN buf))))
    (fun i acc =>
       let! x := arr_get buf ((ring_start (lenN buf) (lenN h) + i) mod lenN buf) in
       Ret (acc ++ [x])) [] = Ret (drop (N.to_nat (lenN h - lenN buf)) h).
Proof.
  intros Hpos Hh.
  destruct (for_each_inv (fun pre acc => acc = take (length pre)
    (drop (N.to_nat (lenN h - lenN buf)) h))
    (fun i acc => let! x := arr_get buf ((ring_start (lenN buf) (lenN h) + i) mod lenN buf) in
       Ret (acc ++ [x])) (rangeN 0 (N.to_nat (N.min (lenN h) (lenN buf)))) []) as (s & Hs & Heq).
  - intros pre i post acc Hl ->.
    assert (i = lenN pre) as ->.
    { assert (rangeN 0 (N.to_nat (N.min (lenN h) (lenN buf))) !! length pre = Some i) as Hk
        by (rewrite Hl; by apply list_lookup_middle).
      unfold rangeN in Hk. rewrite list_lookup_fmap in Hk.
      destruct (seq _ _ !! _) eqn:Hseq; simplify_eq/=. apply lookup_seq in Hseq as [-> _].
      unfold lenN. lia. }
    assert (lenN pre < N.min (lenN h) (lenN buf)) as Hlt.
    { apply (f_equal length) in Hl. unfold rangeN in Hl.
      rewrite length_fmap, length_seq, length_app in Hl. simpl in Hl. unfold lenN in *. lia. }
    pose proof (ring_walk_slot buf h (lenN pre) Hpos Hh Hlt) as Hslot.
    destruct (idx_is_Some h (lenN h - lenN buf + lenN pre) ltac:(lia)) as [x Hx].
    rewrite Hx in Hslot. rewrite (proj2 (arr_get_Ret _ _ _) Hslot). cbn [obind].
    eexists. split; [done|]. rewrite length_app. simpl.
    rewrite Nat.add_1_r. symmetry. apply take_S_r. rewrite lookup_drop.
    rewrite idx_lookup in Hx. rewrite <- Hx. f_equal. unfold lenN. lia.
  - done.
  - rewrite Hs. f_equal. rewrite Heq. apply take_ge. unfold rangeN.
    rewrite length_fmap, length_seq, length_drop. unfold lenN. lia.
Qed.
End overwriting.
