(* ===== verification/Text.v ===== *)
(** * Byte strings

    What the kernel uses of [core::str]: validation of UTF-8, the bytes of a
    string literal, prefix and substring tests. *)

From S2P Require Import Prelude.
Local Open Scope N_scope.

Definition in_range (lo hi b : N) : bool := (lo <=? b) && (b <=? hi).
Definition is_cont (b : N) : bool := in_range 0x80 0xBF b.

(** [core::str::from_utf8(..).is_ok()]: well-formed UTF-8. *)
Fixpoint utf8_valid (l : list N) : bool :=
  match l with
  | [] => true
  | b0 :: l0 =>
      if b0 <? 0x80 then utf8_valid l0
      else match l0 with
      | [] => false
      | b1 :: l1 =>
          if in_range 0xC2 0xDF b0 then is_cont b1 && utf8_valid l1
          else match l1 with
          | [] => false
          | b2 :: l2 =>
              if b0 =? 0xE0 then in_range 0xA0 0xBF b1 && is_cont b2 && utf8_valid l2
              else if b0 =? 0xED then in_range 0x80 0x9F b1 && is_cont b2 && utf8_valid l2
              else if in_range 0xE1 0xEF b0 then is_cont b1 && is_cont b2 && utf8_valid l2
              else match l2 with
              | [] => false
              | b3 :: l3 =>
                  if b0 =? 0xF0 then in_range 0x90 0xBF b1 && is_cont b2 && is_cont b3 && utf8_valid l3
                  else if in_range 0xF1 0xF3 b0 then is_cont b1 && is_cont b2 && is_cont b3 && utf8_valid l3
                  else if b0 =? 0xF4 then in_range 0x80 0x8F b1 && is_cont b2 && is_cont b3 && utf8_valid l3
                  else false
              end
          end
      end
  end.

(** [core::str::from_utf8], with the empty string for invalid bytes. *)
Definition from_utf8_or_empty (bytes : list N) : list N := if utf8_valid bytes then bytes else [].

(** [str::as_bytes]. *)
Definition as_bytes (s : string) : list N := Ascii.N_of_ascii <$> String.list_ascii_of_string s.

(** [str::starts_with] and [str::contains] on the bytes of the strings. *)
Definition starts_with (s pat : list N) : bool := bool_decide (take (length pat) s = pat).
Fixpoint contains (s pat : list N) : bool :=
  starts_with s pat || match s with [] => false | _ :: s' => contains s' pat end.
