(* ===== verification/Preempt.v ===== *)
(** * Preemption state

    Models the policy state of [kernel/preempt/mod.rs]: the tick counters, the
    nesting depth of non-preemptible regions, the validate-and-use window marker
    and the armed adversary.  The two functions that touch the scheduler
    ([on_tick_should_switch] through [maybe_fire_adversary]) are in [Timer]. *)

From S2P Require Import Prelude.
Local Open Scope N_scope.

(** The statics of the module; the atomics wrap. *)
Record PreemptState : Type := mkPreempt {
  ps_ticks : N;
  ps_preemptions : N;
  ps_deferred : N;
  ps_preempt_count : N;
  ps_armed : bool;
  ps_in_ipc_window : bool;
  ps_window_ticks : N;
  ps_pending_revoke : N;
  ps_pending_revoke_task : N;
  ps_revoke_fired : bool
}.

Definition set_ps_ticks (v : N) (s : PreemptState) : PreemptState :=
  mkPreempt v (ps_preemptions s) (ps_deferred s) (ps_preempt_count s) (ps_armed s)
    (ps_in_ipc_window s) (ps_window_ticks s) (ps_pending_revoke s) (ps_pending_revoke_task s)
    (ps_revoke_fired s).
Definition set_ps_preemptions (v : N) (s : PreemptState) : PreemptState :=
  mkPreempt (ps_ticks s) v (ps_deferred s) (ps_preempt_count s) (ps_armed s)
    (ps_in_ipc_window s) (ps_window_ticks s) (ps_pending_revoke s) (ps_pending_revoke_task s)
    (ps_revoke_fired s).
Definition set_ps_deferred (v : N) (s : PreemptState) : PreemptState :=
  mkPreempt (ps_ticks s) (ps_preemptions s) v (ps_preempt_count s) (ps_armed s)
    (ps_in_ipc_window s) (ps_window_ticks s) (ps_pending_revoke s) (ps_pending_revoke_task s)
    (ps_revoke_fired s).
Definition set_ps_preempt_count (v : N) (s : PreemptState) : PreemptState :=
  mkPreempt (ps_ticks s) (ps_preemptions s) (ps_deferred s) v (ps_armed s) (ps_in_ipc_window s)
    (ps_window_ticks s) (ps_pending_revoke s) (ps_pending_revoke_task s) (ps_revoke_fired s).
Definition set_ps_armed (v : bool) (s : PreemptState) : PreemptState :=
  mkPreempt (ps_ticks s) (ps_preemptions s) (ps_deferred s) (ps_preempt_count s) v
    (ps_in_ipc_window s) (ps_window_ticks s) (ps_pending_revoke s) (ps_pending_revoke_task s)
    (ps_revoke_fired s).
Definition set_ps_in_ipc_window (v : bool) (s : PreemptState) : PreemptState :=
  mkPreempt (ps_ticks s) (ps_preemptions s) (ps_deferred s) (ps_preempt_count s) (ps_armed s) v
    (ps_window_ticks s) (ps_pending_revoke s) (ps_pending_revoke_task s) (ps_revoke_fired s).
Definition set_ps_window_ticks (v : N) (s : PreemptState) : PreemptState :=
  mkPreempt (ps_ticks s) (ps_preemptions s) (ps_deferred s) (ps_preempt_count s) (ps_armed s)
    (ps_in_ipc_window s) v (ps_pending_revoke s) (ps_pending_revoke_task s) (ps_revoke_fired s).
Definition set_ps_pending_revoke (v : N) (s : PreemptState) : PreemptState :=
  mkPreempt (ps_ticks s) (ps_preemptions s) (ps_deferred s) (ps_preempt_count s) (ps_armed s)
    (ps_in_ipc_window s) (ps_window_ticks s) v (ps_pending_revoke_task s) (ps_revoke_fired s).
Definition set_ps_pending_revoke_task (v : N) (s : PreemptState) : PreemptState :=
  mkPreempt (ps_ticks s) (ps_preemptions s) (ps_deferred s) (ps_preempt_count s) (ps_armed s)
    (ps_in_ipc_window s) (ps_window_ticks s) (ps_pending_revoke s) v (ps_revoke_fired s).
Definition set_ps_revoke_fired (v : bool) (s : PreemptState) : PreemptState :=
  mkPreempt (ps_ticks s) (ps_preemptions s) (ps_deferred s) (ps_preempt_count s) (ps_armed s)
    (ps_in_ipc_window s) (ps_window_ticks s) (ps_pending_revoke s) (ps_pending_revoke_task s) v.

Definition NO_REVOKE : N := usize_max.

Definition PreemptState_init : PreemptState :=
  mkPreempt 0 0 0 0 false false 0 NO_REVOKE 0 false.

Definition set_armed (on : bool) (s : PreemptState) : PreemptState := set_ps_armed on s.
Definition is_armed (s : PreemptState) : bool := ps_armed s.

Definition enter_critical (s : PreemptState) : PreemptState :=
  set_ps_preempt_count (wadd64 (ps_preempt_count s) 1) s.

Definition exit_critical (s : PreemptState) : PreemptState :=
  set_ps_preempt_count (wsub64 (ps_preempt_count s) 1) s.

Definition in_critical (s : PreemptState) : bool := negb (ps_preempt_count s =? 0).

Definition enter_ipc_window (s : PreemptState) : PreemptState := set_ps_in_ipc_window true s.
Definition exit_ipc_window (s : PreemptState) : PreemptState := set_ps_in_ipc_window false s.

(** The scope guard: [CriticalWindow::enter] and its [Drop]. *)
Definition CriticalWindow_enter (s : PreemptState) : PreemptState :=
  enter_ipc_window (enter_critical s).
Definition CriticalWindow_drop (s : PreemptState) : PreemptState :=
  exit_critical (exit_ipc_window s).

Definition note_preemption (s : PreemptState) : PreemptState :=
  set_ps_preemptions (wadd64 (ps_preemptions s) 1) s.
Definition note_deferred_locked (s : PreemptState) : PreemptState :=
  set_ps_deferred (wadd64 (ps_deferred s) 1) s.

Definition arm_adversary (task slot : N) (s : PreemptState) : PreemptState :=
  set_ps_pending_revoke slot (set_ps_pending_revoke_task task (set_ps_revoke_fired false s)).
Definition disarm_adversary (s : PreemptState) : PreemptState := set_ps_pending_revoke NO_REVOKE s.
Definition adversary_fired_in_window (s : PreemptState) : bool := ps_revoke_fired s.

Record Stats : Type := mkStats {
  st_ticks : N;
  st_preemptions : N;
  st_deferred : N;
  st_window_ticks : N
}.

Definition stats (s : PreemptState) : Stats :=
  mkStats (ps_ticks s) (ps_preemptions s) (ps_deferred s) (ps_window_ticks s).

Definition reset_window_ticks (s : PreemptState) : PreemptState := set_ps_window_ticks 0 s.

(** ** Balance of the scope guard *)

Lemma exit_enter_critical s :
  ps_preempt_count s < u64_limit -> exit_critical (enter_critical s) = s.
Proof.
  intros Hc. destruct s as [? ? ? c]. unfold exit_critical, enter_critical, set_ps_preempt_count.
  simpl in *. f_equal. unfold wsub64, wadd64, wrap64. rewrite (N.mod_small 1) by done.
  destruct (decide (c + 1 = u64_limit)) as [He|Hne].
  - rewrite He, N.Div0.mod_same, N.add_0_l. rewrite N.mod_small by done. lia.
  - rewrite (N.mod_small (c + 1)) by lia.
    replace (c + 1 + u64_limit - 1) with (c + 1 * u64_limit) by lia.
    rewrite N.Div0.mod_add. by apply N.mod_small.
Qed.

(** Dropping the guard restores the depth and leaves the window closed. *)
Lemma CriticalWindow_balanced s :
  ps_preempt_count s < u64_limit ->
  CriticalWindow_drop (CriticalWindow_enter s) = set_ps_in_ipc_window false s.
Proof.
  intros Hc. unfold CriticalWindow_drop, CriticalWindow_enter.
  transitivity (set_ps_in_ipc_window false (exit_critical (enter_critical s))); [by destruct s|].
  by rewrite exit_enter_critical.
Qed.
