(* ===== verification/Trace.v ===== *)
(** * Event tracing and the ambient statics

    Models the trace ring of [kernel/shell/mod.rs] ([log_trace],
    [print_trace_summary], the [trace start]/[trace stop] commands), and bundles
    the statics that every subsystem touches, trace ring, preemption counters
    and the capability-identity source, as [Ambient]. *)

From S2P Require Import Prelude Ring Preempt.
Local Open Scope N_scope.

Definition TRACE_BUFFER_SIZE : N := 128.

Record TraceEvent : Type := mkTraceEvent {
  te_tick : N;
  te_msg : string;
  te_param1 : N;
  te_param2 : N
}.

#[export] Instance TraceEvent_eq_dec : EqDecision TraceEvent.
Proof. solve_decision. Defined.

(** [TRACE_BUFFER], [NEXT_IDX], [TRACING_ACTIVE], [TRACE_OVERFLOW]. *)
Record TraceRing : Type := mkTraceRing {
  tr_buffer : list TraceEvent;
  tr_next_idx : N;
  tr_active : bool;
  tr_overflow : bool
}.

Definition set_tr_buffer (v : list TraceEvent) (s : TraceRing) : TraceRing :=
  mkTraceRing v (tr_next_idx s) (tr_active s) (tr_overflow s).
Definition set_tr_next_idx (v : N) (s : TraceRing) : TraceRing :=
  mkTraceRing (tr_buffer s) v (tr_active s) (tr_overflow s).
Definition set_tr_active (v : bool) (s : TraceRing) : TraceRing :=
  mkTraceRing (tr_buffer s) (tr_next_idx s) v (tr_overflow s).
Definition set_tr_overflow (v : bool) (s : TraceRing) : TraceRing :=
  mkTraceRing (tr_buffer s) (tr_next_idx s) (tr_active s) v.

Definition TraceRing_init : TraceRing :=
  mkTraceRing (replicate 128 (mkTraceEvent 0 "" 0 0)) 0 false false.

(** The statics reached from every subsystem. *)
Record Ambient : Type := mkAmbient {
  am_preempt : PreemptState;
  am_trace : TraceRing;
  am_next_cap_id : N
}.

Definition set_am_preempt (v : PreemptState) (s : Ambient) : Ambient :=
  mkAmbient v (am_trace s) (am_next_cap_id s).
Definition set_am_trace (v : TraceRing) (s : Ambient) : Ambient :=
  mkAmbient (am_preempt s) v (am_next_cap_id s).
Definition set_am_next_cap_id (v : N) (s : Ambient) : Ambient :=
  mkAmbient (am_preempt s) (am_trace s) v.

Definition Ambient_init : Ambient := mkAmbient PreemptState_init TraceRing_init 1.

Definition log_trace (msg : string) (param1 param2 : N) (a : Ambient) : Ambient :=
  let tr := am_trace a in
  if tr_active tr then
    let i := tr_next_idx tr in
    let target_idx := i mod TRACE_BUFFER_SIZE in
    let ev := mkTraceEvent (st_ticks (stats (am_preempt a))) msg param1 param2 in
    set_am_trace (mkTraceRing (upd (tr_buffer tr) target_idx ev) (wadd64 i 1)
                    (tr_active tr) (tr_overflow tr)) a
  else a.

(** [trace start] and [trace stop] of the shell. *)
Definition trace_start (tr : TraceRing) : TraceRing :=
  set_tr_active true (set_tr_overflow false (set_tr_next_idx 0 tr)).
Definition trace_stop (tr : TraceRing) : TraceRing := set_tr_active false tr.

(** [print_trace_summary]: the number of events announced, the events listed
    oldest first, and whether the overflow warning is printed. *)
Definition trace_summary (tr : TraceRing) : outcome (N * list TraceEvent * bool) :=
  let total := tr_next_idx tr in
  let count := N.min total TRACE_BUFFER_SIZE in
  let start := if TRACE_BUFFER_SIZE <? total then total mod TRACE_BUFFER_SIZE else 0 in
  let! evs := for_each (rangeN 0 (N.to_nat count))
    (fun i acc =>
       let idx := (start + i) mod TRACE_BUFFER_SIZE in
       let! event := arr_get (tr_buffer tr) idx in
       Ret (acc ++ [event])) [] in
  Ret (total, evs, TRACE_BUFFER_SIZE <? total).

(** ** What the ring holds *)

(** [tr] has recorded the events [h] since [trace start]. *)
Record trace_repr (tr : TraceRing) (h : list TraceEvent) : Prop := {
  trace_repr_len : lenN (tr_buffer tr) = TRACE_BUFFER_SIZE;
  trace_repr_next : tr_next_idx tr = lenN h;
  trace_repr_last : holds_last (tr_buffer tr) h
}.

Definition ambient_event (a : Ambient) (msg : string) (p1 p2 : N) : TraceEvent :=
  mkTraceEvent (st_ticks (stats (am_preempt a))) msg p1 p2.

Lemma trace_start_repr tr :
  lenN (tr_buffer tr) = TRACE_BUFFER_SIZE -> trace_repr (trace_start tr) [].
Proof. intros. split; [done..|]. intros j Hj. unfold lenN in Hj. simpl in Hj. lia. Qed.

Lemma log_trace_repr a h msg p1 p2 :
  tr_active (am_trace a) = true -> trace_repr (am_trace a) h -> lenN h + 1 < u64_limit ->
  trace_repr (am_trace (log_trace msg p1 p2 a)) (h ++ [ambient_event a msg p1 p2]).
Proof.
  intros Hact [Hlen Hnext Hlast] Hroom. unfold log_trace. rewrite Hact. split; simpl.
  - by rewrite lenN_upd.
  - rewrite lenN_app, Hnext. unfold wadd64. by rewrite wrap64_small.
  - rewrite Hnext, <- Hlen. apply holds_last_push; [by rewrite Hlen|done].
Qed.

(** Only the ring of the ambient state is ever touched. *)
Lemma log_trace_preempt msg p1 p2 a : am_preempt (log_trace msg p1 p2 a) = am_preempt a.
Proof. unfold log_trace. by case_match. Qed.
Lemma log_trace_next_cap_id msg p1 p2 a :
  am_next_cap_id (log_trace msg p1 p2 a) = am_next_cap_id a.
Proof. unfold log_trace. by case_match. Qed.
Lemma log_trace_active msg p1 p2 a :
  tr_active (am_trace (log_trace msg p1 p2 a)) = tr_active (am_trace a).
Proof. unfold log_trace. by case_match. Qed.

Create Rewrite HintDb ambient.
#[export] Hint Rewrite log_trace_preempt log_trace_next_cap_id log_trace_active : ambient.

(** Events logged one after the other. *)
Definition log_trace_all (evs : list (string * N * N)) (a : Ambient) : Ambient :=
  fold_left (fun a '(m, p1, p2) => log_trace m p1 p2 a) evs a.

Lemma ambient_event_log m p1 p2 a m' q1 q2 :
  ambient_event (log_trace m p1 p2 a) m' q1 q2 = ambient_event a m' q1 q2.
Proof. unfold ambient_event. by rewrite log_trace_preempt. Qed.

Lemma log_trace_all_repr evs a h :
  tr_active (am_trace a) = true -> trace_repr (am_trace a) h ->
  lenN h + lenN evs < u64_limit ->
  trace_repr (am_trace (log_trace_all evs a))
    (h ++ ((fun '(m, p1, p2) => ambient_event a m p1 p2) <$> evs)).
Proof.
  revert a h. induction evs as [|[[m p1] p2] evs IH]; intros a h Hact Hr Hroom.
  - by rewrite app_nil_r.
  - assert (lenN ((m, p1, p2) :: evs) = 1 + lenN evs) as Hlen by (unfold lenN; simpl; lia).
    csimpl. rewrite (cons_middle _ h), app_assoc.
    assert (forall l, ((fun '(m, p1, p2) => ambient_event a m p1 p2) <$> l) =
      ((fun '(m', q1, q2) => ambient_event (log_trace m p1 p2 a) m' q1 q2) <$> l)) as ->.
    { intros l. apply list_fmap_ext. intros _ [[m' q1] q2] _. by rewrite ambient_event_log. }
    apply IH.
    + by rewrite log_trace_active.
    + apply log_trace_repr; [done..|lia].
    + rewrite lenN_app. change (lenN [_]) with 1. lia.
Qed.

(** The summary lists the last 128 events, oldest first. *)
Lemma trace_summary_repr tr h :
  trace_repr tr h ->
  trace_summary tr =
    Ret (lenN h, drop (N.to_nat (lenN h - TRACE_BUFFER_SIZE)) h, TRACE_BUFFER_SIZE <? lenN h).
Proof.
  intros [Hlen Hnext Hlast]. unfold trace_summary. rewrite Hnext.
  pose proof (ring_walk (tr_buffer tr) h) as Hw. rewrite Hlen in Hw.
  unfold ring_start in Hw. rewrite Hw; done.
Qed.

(** Tracing loses nothing it can hold: after [trace start], any sequence of
    fewer than 2^64 logged events is reported as its length and its last 128
    events in order, and the overflow warning appears exactly when some event
    was overwritten. *)
Lemma trace_session tr a evs :
  lenN (tr_buffer tr) = TRACE_BUFFER_SIZE -> am_trace a = trace_start tr ->
  lenN evs < u64_limit ->
  let h := (fun '(m, p1, p2) => ambient_event a m p1 p2) <$> evs in
  trace_summary (am_trace (log_trace_all evs a)) =
    Ret (lenN evs, drop (N.to_nat (lenN evs - TRACE_BUFFER_SIZE)) h, TRACE_BUFFER_SIZE <? lenN evs).
Proof.
  intros Hlen Ha Hn h. erewrite (trace_summary_repr _ h).
  - unfold h. unfold lenN. by rewrite !length_fmap.
  - apply (log_trace_all_repr evs a []).
    + by rewrite Ha.
    + rewrite Ha. by apply trace_start_repr.
    + done.
Qed.
