(* ===== verification/Capability.v ===== *)
(** * Capabilities and capability tables

    Models [kernel/process/capability.rs]: the [Resource] and [Capability]
    types, rights attenuation, and the per-task [CapTable] with its insertion,
    lookup, holder removal and kernel revocation, each with the trace events it
    emits and, for insertion, the identity it draws. *)

From S2P Require Import Prelude Ring Preempt Trace.
Local Open Scope N_scope.

(** ** Data *)

(** [TaskId(usize)]. *)
Abbreviation TaskId := N.

Inductive Resource : Type :=
| Serial
| IpcChannel (target_task : TaskId)
| MemoryMapping (start_vaddr size : N) (writeable : bool)
| Service (id : N)
| KVEntry (slot : N) (readable writable : bool)
| LogChannel (kind : N) (readable writable : bool)
| FsNode (mount : N) (readable writable : bool)
| Device (id : N) (readable writable : bool)
| SyncObj (id : N).

#[export] Instance Resource_eq_dec : EqDecision Resource.
Proof. solve_decision. Defined.

Record Capability : Type := mkCap {
  cap_resource : Resource;
  cap_read : bool;
  cap_write : bool;
  cap_grant : bool;
  cap_sealed : bool;
  cap_id : N;
  cap_origin : option N
}.

#[export] Instance Capability_eq_dec : EqDecision Capability.
Proof. solve_decision. Defined.

Record RightsMask : Type := mkRights {
  rm_read : bool;
  rm_write : bool;
  rm_grant : bool
}.

Definition with_sealed (c : Capability) (b : bool) : Capability :=
  mkCap (cap_resource c) (cap_read c) (cap_write c) (cap_grant c) b (cap_id c) (cap_origin c).
Definition with_id (c : Capability) (i : N) : Capability :=
  mkCap (cap_resource c) (cap_read c) (cap_write c) (cap_grant c) (cap_sealed c) i (cap_origin c).
Definition with_origin (c : Capability) (o : option N) : Capability :=
  mkCap (cap_resource c) (cap_read c) (cap_write c) (cap_grant c) (cap_sealed c) (cap_id c) o.

(** ** Attenuation *)

Definition attenuate (self : Capability) (requested : RightsMask) : result unit Capability :=
  if negb (cap_grant self) then Err tt
  else Ok {|
    cap_resource := cap_resource self;
    cap_read := cap_read self && rm_read requested;
    cap_write := cap_write self && rm_write requested;
    cap_grant := cap_grant self && rm_grant requested;
    cap_sealed := false;
    cap_id := 0;
    cap_origin := None
  |}.

(** ** Capability tables *)

Definition MAX_CAPS : N := 32.

Record CapTable : Type := mkCapTable { slots : list (option Capability) }.

Definition CapTable_new : CapTable := mkCapTable (replicate 32 None).

(** [next_cap_id]: [NEXT_CAP_ID.fetch_add(1)], which wraps. *)
Definition next_cap_id (a : Ambient) : N * Ambient :=
  (am_next_cap_id a, set_am_next_cap_id (wadd64 (am_next_cap_id a) 1) a).

(** [CapTable::insert].  The identity is drawn before the search for a free
    slot, so a full table still consumes one. *)
Definition CapTable_insert (self : CapTable) (cap : Capability) (a : Ambient)
  : result unit N * CapTable * Ambient :=
  let '(fresh, a1) := next_cap_id a in
  let cap' := with_id cap fresh in
  match position is_none (slots self) with
  | Some i =>
      (Ok i, mkCapTable (upd (slots self) i (Some cap')),
       log_trace "cap_insert" (cap_id cap') i a1)
  | None => (Err tt, self, a1)
  end.

Definition CapTable_insert_sealed (self : CapTable) (cap : Capability) (a : Ambient)
  : result unit N * CapTable * Ambient :=
  CapTable_insert self (with_sealed cap true) a.

(** The capability in a slot, without the trace event of [get]. *)
Definition cap_at (self : CapTable) (i : N) : option Capability :=
  if i <? MAX_CAPS then mjoin (idx (slots self) i) else None.

Definition CapTable_get (self : CapTable) (i : N) (a : Ambient) : option Capability * Ambient :=
  if i <? MAX_CAPS then
    match mjoin (idx (slots self) i) with
    | Some cap => (Some cap, log_trace "cap_lookup" i (cap_id cap) a)
    | None => (None, a)
    end
  else (None, a).

(** [CapTable::remove], the holder's removal: refused on a sealed slot. *)
Definition CapTable_remove (self : CapTable) (i : N) (a : Ambient)
  : result unit (option Capability) * CapTable * Ambient :=
  if MAX_CAPS <=? i then (Ok None, self, a)
  else match mjoin (idx (slots self) i) with
       | Some cap =>
           if cap_sealed cap then (Err tt, self, a)
           else (Ok (Some cap), mkCapTable (upd (slots self) i None),
                 log_trace "cap_revoke" i (cap_id cap) a)
       | None => (Ok None, self, a)
       end.

(** [CapTable::kernel_revoke], which ignores the seal. *)
Definition CapTable_kernel_revoke (self : CapTable) (i : N) (a : Ambient)
  : option Capability * CapTable * Ambient :=
  if i <? MAX_CAPS then
    match mjoin (idx (slots self) i) with
    | Some cap => (Some cap, mkCapTable (upd (slots self) i None),
                   log_trace "cap_revoke" i (cap_id cap) a)
    | None => (None, self, a)
    end
  else (None, self, a).

(** ** Well-formed tables *)

(** The type [[Option<Capability>; MAX_CAPS]]. *)
Definition CapTable_wf (t : CapTable) : Prop := lenN (slots t) = MAX_CAPS.

(** Rights inclusion on one resource. *)
Definition cap_le (c d : Capability) : Prop :=
  cap_resource c = cap_resource d /\
  (cap_read c -> cap_read d) /\ (cap_write c -> cap_write d) /\ (cap_grant c -> cap_grant d).

#[export] Instance cap_le_preorder : PreOrder cap_le.
Proof. split; unfold cap_le; [naive_solver|]. intros c d e. intuition congruence. Qed.

(** ** Lemmas *)

Lemma attenuate_le self r d : attenuate self r = Ok d -> cap_le d self.
Proof.
  unfold attenuate, cap_le. case_match; intros; simplify_eq/=.
  destruct (cap_read self), (cap_write self), (cap_grant self); naive_solver.
Qed.

Lemma CapTable_new_wf : CapTable_wf CapTable_new.
Proof. reflexivity. Qed.

Lemma cap_at_Some t i c : cap_at t i = Some c -> i < MAX_CAPS /\ idx (slots t) i = Some (Some c).
Proof.
  unfold cap_at. case_match; [|done]. bool_to_prop.
  destruct (idx (slots t) i) as [[?|]|]; simpl; naive_solver.
Qed.

Lemma cap_at_idx t i c :
  CapTable_wf t -> cap_at t i = Some c <-> idx (slots t) i = Some (Some c).
Proof.
  intros Hwf. split; [by intros [_ ?]%cap_at_Some|].
  intros Hi. pose proof (idx_lt _ _ _ Hi) as Hlt. rewrite Hwf in Hlt.
  unfold cap_at. rewrite (proj2 (N.ltb_lt _ _) Hlt), Hi. done.
Qed.

Lemma cap_at_upd t i j o :
  CapTable_wf t -> i < MAX_CAPS ->
  cap_at (mkCapTable (upd (slots t) i o)) j = if decide (i = j) then o else cap_at t j.
Proof.
  intros Hwf Hi. unfold cap_at. simpl. rewrite idx_upd, Hwf.
  repeat case_decide; repeat case_match; bool_to_prop; try naive_solver lia.
Qed.

Lemma cap_at_None t i : MAX_CAPS <= i -> cap_at t i = None.
Proof. intros. unfold cap_at. by rewrite (proj2 (N.ltb_ge _ _)). Qed.

(** Two well-formed tables are equal when they hold the same capabilities. *)
Lemma CapTable_ext t1 t2 :
  CapTable_wf t1 -> CapTable_wf t2 -> (forall i, cap_at t1 i = cap_at t2 i) -> t1 = t2.
Proof.
  intros H1 H2 Heq. destruct t1 as [l1], t2 as [l2]. f_equal. unfold CapTable_wf in *. simpl in *.
  apply list_eq_idx; [congruence|]. intros i Hi. specialize (Heq i). unfold cap_at in Heq. simpl in Heq.
  rewrite (proj2 (N.ltb_lt _ _)) in Heq by lia.
  destruct (idx_is_Some l1 i Hi) as [x Hx], (idx_is_Some l2 i ltac:(lia)) as [y Hy].
  rewrite Hx, Hy in *. simpl in Heq. by subst.
Qed.

Lemma CapTable_upd_wf t i o : CapTable_wf t -> CapTable_wf (mkCapTable (upd (slots t) i o)).
Proof. unfold CapTable_wf. simpl. by rewrite lenN_upd. Qed.

#[export] Hint Resolve CapTable_new_wf CapTable_upd_wf : kernel.

(** *** The operations' effect, up to trace events *)

(** The ambient states an operation may leave: only trace events were added. *)
Definition traced (a a' : Ambient) : Prop :=
  am_preempt a' = am_preempt a /\ am_next_cap_id a' = am_next_cap_id a /\
  tr_active (am_trace a') = tr_active (am_trace a).

#[export] Instance traced_preorder : PreOrder traced.
Proof. split; unfold traced; [done|]. intros ???. intuition congruence. Qed.

Lemma log_trace_traced m p q a : traced a (log_trace m p q a).
Proof. unfold traced. autorewrite with ambient. done. Qed.

#[export] Hint Resolve log_trace_traced : kernel.
#[export] Hint Extern 0 (traced ?a ?a) => reflexivity : kernel.

Lemma CapTable_get_spec t i a :
  exists a', CapTable_get t i a = (cap_at t i, a') /\ traced a a'.
Proof.
  unfold CapTable_get, cap_at. destruct (_ <? _); [|eauto with kernel].
  destruct (mjoin _); eauto with kernel.
Qed.

(** A free slot exists iff insertion succeeds; it then fills the first one. *)
Lemma CapTable_insert_spec t cap a :
  CapTable_wf t ->
  exists r t' a', CapTable_insert t cap a = (r, t', a') /\ CapTable_wf t' /\
    traced (set_am_next_cap_id (wadd64 (am_next_cap_id a) 1) a) a' /\
    match r with
    | Ok i => position is_none (slots t) = Some i /\ i < MAX_CAPS /\ cap_at t i = None /\
        (forall j, j < i -> is_Some (cap_at t j)) /\
        forall j, cap_at t' j = if decide (i = j) then Some (with_id cap (am_next_cap_id a))
                                else cap_at t j
    | Err _ => position is_none (slots t) = None /\ t' = t /\
        forall i, i < MAX_CAPS -> is_Some (cap_at t i)
    end.
Proof.
  intros Hwf. unfold CapTable_insert, next_cap_id.
  destruct (position is_none (slots t)) as [i|] eqn:Hpos.
  - pose proof Hpos as (x & Hx & Hp & Hmin)%position_Some. destruct x; [done|].
    pose proof (idx_lt _ _ _ Hx) as Hlt. rewrite Hwf in Hlt.
    eexists _, _, _. split; [done|]. split; [auto with kernel|]. split; [auto with kernel|].
    split; [done|]. split; [done|]. split.
    { unfold cap_at. by rewrite Hx, (proj2 (N.ltb_lt _ _) Hlt). }
    split; [|intros j; by rewrite cap_at_upd].
    intros j Hj. destruct (idx_is_Some (slots t) j) as [y Hy]; [rewrite Hwf; lia|].
    specialize (Hmin j y Hj Hy). destruct y as [c|]; [|done].
    exists c. by apply cap_at_idx.
  - eexists _, _, _. split; [done|]. split; [done|]. split; [reflexivity|]. split; [done|].
    split; [done|]. rewrite position_None in Hpos. intros i Hi.
    destruct (idx_is_Some (slots t) i) as [y Hy]; [by rewrite Hwf|].
    specialize (Hpos i y Hy). destruct y as [c|]; [|done]. exists c. by apply cap_at_idx.
Qed.

Lemma CapTable_kernel_revoke_spec t i a :
  CapTable_wf t ->
  exists t' a', CapTable_kernel_revoke t i a = (cap_at t i, t', a') /\ CapTable_wf t' /\
    traced a a' /\ forall j, cap_at t' j = if decide (i = j) then None else cap_at t j.
Proof.
  intros Hwf. unfold CapTable_kernel_revoke.
  destruct (i <? MAX_CAPS) eqn:Hi; bool_to_prop.
  - destruct (mjoin _) as [c|] eqn:Hc.
    + eexists _, _. split; [by unfold cap_at; rewrite (proj2 (N.ltb_lt _ _) Hi), Hc|].
      split; [auto with kernel|]. split; [auto with kernel|]. intros j. by apply cap_at_upd.
    + assert (cap_at t i = None) as Hg by (unfold cap_at; by rewrite (proj2 (N.ltb_lt _ _) Hi)).
      rewrite Hg. eexists _, _. split; [done|]. split; [done|]. split; [reflexivity|].
      intros j. case_decide; by subst.
  - rewrite cap_at_None by done. eexists _, _. split; [done|]. split; [done|]. split; [reflexivity|].
    intros j. case_decide; [|done]. subst. by apply cap_at_None.
Qed.

Lemma CapTable_kernel_revoke_empty t i a :
  cap_at t i = None -> CapTable_kernel_revoke t i a = (None, t, a).
Proof.
  unfold cap_at, CapTable_kernel_revoke. destruct (i <? MAX_CAPS); [|done]. by intros ->.
Qed.

(** The holder's removal is [kernel_revoke] on unsealed slots and refused,
    without effect, on sealed ones. *)
Lemma CapTable_remove_spec t i a :
  CapTable_wf t ->
  exists r t' a', CapTable_remove t i a = (r, t', a') /\ CapTable_wf t' /\ traced a a' /\
    match cap_at t i with
    | Some c => if cap_sealed c then r = Err tt /\ t' = t
                else r = Ok (Some c) /\
                  forall j, cap_at t' j = if decide (i = j) then None else cap_at t j
    | None => r = Ok None /\ t' = t
    end.
Proof.
  intros Hwf. unfold CapTable_remove. destruct (MAX_CAPS <=? i) eqn:Hi; bool_to_prop.
  { rewrite cap_at_None by done. eauto 10 with kernel. }
  unfold cap_at at 1. rewrite (proj2 (N.ltb_lt _ _) Hi).
  destruct (mjoin _) as [c|]; [|eauto 10 with kernel].
  destruct (cap_sealed c); [eauto 10 with kernel|].
  eexists _, _, _. split; [done|]. split; [auto with kernel|]. split; [auto with kernel|].
  split; [done|]. intros j. by apply cap_at_upd.
Qed.
