(* ===== verification/AuditTrail.v ===== *)
(** * The capability audit log

    Models [kernel/process/audit.rs]: the fixed ring of 64 capability
    lifecycle events, [record], and the oldest-to-newest walk of [dump].  The
    main result is that the ring is the tail of the full event history. *)

From S2P Require Import Prelude Ring Capability.
Local Open Scope N_scope.

Inductive AuditKind : Type :=
| Grant
| Revoke
| RevokePropagated.

Record AuditEvent : Type := mkAuditEvent {
  ev_kind : AuditKind;
  ev_actor : TaskId;
  ev_target : TaskId;
  ev_resource : Resource;
  ev_slot : N
}.

Definition AUDIT_CAPACITY : N := 64.

Record AuditLog : Type := mkAuditLog {
  al_buffer : list (option AuditEvent);
  al_next : N;
  al_total : N;
  al_dropped : N
}.

Definition AuditLog_new : AuditLog := mkAuditLog (replicate 64 None) 0 0 0.

Definition AuditLog_push (self : AuditLog) (ev : AuditEvent) : outcome AuditLog :=
  let! old := arr_get (al_buffer self) (al_next self) in
  let! dropped := (if is_some old then add64 (al_dropped self) 1 else Ret (al_dropped self)) in
  let! buffer := arr_set (al_buffer self) (al_next self) (Some ev) in
  let! next := add64 (al_next self) 1 in
  let! total := add64 (al_total self) 1 in
  Ret (mkAuditLog buffer (next mod AUDIT_CAPACITY) total dropped).

(** [KERNEL_ACTOR]: the sentinel actor of kernel-internal actions. *)
Definition KERNEL_ACTOR : TaskId := usize_max.

(** [record] on the global log. *)
Definition record (log : AuditLog) (kind : AuditKind) (actor target : TaskId)
    (resource : Resource) (slot : N) : outcome AuditLog :=
  AuditLog_push log (mkAuditEvent kind actor target resource slot).

(** What [dump] prints: the two counters and, oldest first, the numbered
    events. *)
Record AuditDump : Type := mkAuditDump {
  ad_total : N;
  ad_dropped : N;
  ad_lines : list (N * AuditEvent)
}.

Definition audit_dump (log : AuditLog) : outcome AuditDump :=
  let wrapped := AUDIT_CAPACITY <? al_total log in
  let count := if wrapped then AUDIT_CAPACITY else al_total log in
  let start := if wrapped then al_next log else 0 in
  let! lines :=
    for_each (rangeN 0 (N.to_nat count))
      (fun i acc =>
         let! o := arr_get (al_buffer log) ((start + i) mod AUDIT_CAPACITY) in
         Ret match o with Some ev => acc ++ [(i, ev)] | None => acc end) [] in
  Ret (mkAuditDump (al_total log) (al_dropped log) lines).

(** Recording a whole history. *)
Fixpoint record_all (log : AuditLog) (h : list AuditEvent) : outcome AuditLog :=
  match h with
  | [] => Ret log
  | ev :: h' => let! log' := AuditLog_push log ev in record_all log' h'
  end.

(** ** Invariant *)

(** The log [log] stands for the event history [h]. *)
Record audit_repr (log : AuditLog) (h : list AuditEvent) : Prop := {
  ar_len : lenN (al_buffer log) = AUDIT_CAPACITY;
  ar_total : al_total log = lenN h;
  ar_next : al_next log = lenN h mod AUDIT_CAPACITY;
  ar_dropped : al_dropped log = lenN h - AUDIT_CAPACITY;
  ar_last : holds_last (al_buffer log) (Some <$> h);
  ar_free : forall j, lenN h <= j -> j < AUDIT_CAPACITY -> idx (al_buffer log) j = Some None
}.

Lemma lenN_fmap {A B} (f : A -> B) l : lenN (f <$> l) = lenN l.
Proof. unfold lenN. by rewrite length_fmap. Qed.

Lemma audit_repr_new : audit_repr AuditLog_new [].
Proof.
  split; try done.
  - intros j Hj. change (lenN _) with 0 in Hj. lia.
  - intros j _ Hj. by apply (idx_replicate 64).
Qed.

(** Whether the slot about to be written is occupied. *)
Lemma audit_repr_slot log h :
  audit_repr log h ->
  exists o, idx (al_buffer log) (al_next log) = Some o /\ is_some o = (AUDIT_CAPACITY <=? lenN h).
Proof.
  intros [Hlen Htot Hnext Hdrop Hlast Hfree].
  destruct (AUDIT_CAPACITY <=? lenN h) eqn:Hc; bool_to_prop.
  - pose proof (Hlast (lenN h - AUDIT_CAPACITY)) as Hl. rewrite lenN_fmap, Hlen in Hl.
    assert ((lenN h - AUDIT_CAPACITY) mod AUDIT_CAPACITY = al_next log) as Hm.
    { rewrite Hnext. replace (lenN h) with (lenN h - AUDIT_CAPACITY + 1 * AUDIT_CAPACITY) at 2 by lia.
      by rewrite N.Div0.mod_add. }
    rewrite Hm in Hl. unfold AUDIT_CAPACITY in *. rewrite Hl by lia.
    rewrite idx_lookup, list_lookup_fmap.
    destruct (lookup_lt_is_Some_2 h (N.to_nat (lenN h - 64))) as [ev ->]; [unfold lenN in *; lia|].
    simpl. eauto.
  - exists None. split; [|done]. rewrite Hnext, N.mod_small by done. by apply Hfree.
Qed.

Lemma AuditLog_push_repr log h ev :
  audit_repr log h -> lenN h + 1 < u64_limit ->
  exists log', AuditLog_push log ev = Ret log' /\ audit_repr log' (h ++ [ev]).
Proof.
  intros Hr Hsmall. pose proof (audit_repr_slot log h Hr) as (o & Ho & Hsome).
  destruct Hr as [Hlen Htot Hnext Hdrop Hlast Hfree].
  assert (al_next log < AUDIT_CAPACITY) as Hn by (rewrite Hnext; by apply N.mod_lt).
  assert (AUDIT_CAPACITY + 1 < u64_limit) by done.
  unfold AuditLog_push. rewrite (proj2 (arr_get_Ret _ _ _) Ho). cbn [obind]. rewrite Hsome.
  assert ((if AUDIT_CAPACITY <=? lenN h then add64 (al_dropped log) 1 else Ret (al_dropped log))
          = Ret (lenN (h ++ [ev]) - AUDIT_CAPACITY)) as ->.
  { rewrite lenN_app. change (lenN [ev]) with 1. rewrite Hdrop.
    case_match; bool_to_prop; [rewrite add64_ok by lia|]; f_equal; lia. }
  cbn [obind]. rewrite arr_set_ok by lia. cbn [obind]. rewrite !add64_ok by lia. cbn [obind].
  eexists. split; [done|]. split; simpl.
  - by rewrite lenN_upd.
  - rewrite lenN_app, Htot. done.
  - rewrite lenN_app, Hnext, N.Div0.add_mod_idemp_l. done.
  - done.
  - rewrite fmap_app. simpl. rewrite Hnext, <- Hlen, <- (lenN_fmap Some h).
    apply holds_last_push; [rewrite Hlen; done|done].
  - intros j Hj Hj'. rewrite lenN_app in Hj. change (lenN [ev]) with 1 in Hj.
    rewrite idx_upd_ne; [apply Hfree; lia|]. rewrite Hnext, N.mod_small; lia.
Qed.

Lemma record_all_repr log h hs :
  audit_repr log h -> lenN h + lenN hs < u64_limit ->
  exists log', record_all log hs = Ret log' /\ audit_repr log' (h ++ hs).
Proof.
  revert log h. induction hs as [|ev hs IH]; intros log h Hr Hs; simpl.
  - rewrite app_nil_r. eauto.
  - assert (lenN (ev :: hs) = 1 + lenN hs) as He by (unfold lenN; simpl; lia).
    destruct (AuditLog_push_repr log h ev Hr) as (log1 & -> & Hr1); [lia|]. cbn [obind].
    destruct (IH log1 (h ++ [ev]) Hr1) as (log2 & Hlog2 & Hr2).
    { rewrite lenN_app. change (lenN [ev]) with 1. lia. }
    exists log2. by rewrite <- app_assoc in Hr2.
Qed.

(** The last [n] entries of a history, numbered from 0. *)
Definition numbered_tail (n : N) (h : list AuditEvent) : list (N * AuditEvent) :=
  imap (fun i ev => (N.of_nat i, ev)) (drop (N.to_nat (lenN h - n)) h).

Lemma audit_dump_repr log h :
  audit_repr log h ->
  audit_dump log = Ret (mkAuditDump (lenN h) (lenN h - AUDIT_CAPACITY)
                          (numbered_tail AUDIT_CAPACITY h)).
Proof.
  intros [Hlen Htot Hnext Hdrop Hlast Hfree].
  set (start := if AUDIT_CAPACITY <? al_total log then al_next log else 0).
  set (count := if AUDIT_CAPACITY <? al_total log then AUDIT_CAPACITY else al_total log).
  set (tl := drop (N.to_nat (lenN h - AUDIT_CAPACITY)) h).
  assert (count = lenN tl) as Hcount.
  { unfold count, tl, lenN. rewrite length_drop. rewrite Htot. unfold lenN.
    case_match; bool_to_prop; lia. }
  assert (forall i ev, tl !! i = Some ev ->
    idx (al_buffer log) ((start + N.of_nat i) mod AUDIT_CAPACITY) = Some (Some ev)) as Hget.
  { intros i ev Hi. unfold tl in Hi. rewrite lookup_drop in Hi.
    pose proof (lookup_lt_Some _ _ _ Hi) as Hlt.
    set (j := lenN h - AUDIT_CAPACITY + N.of_nat i).
    assert (idx (Some <$> h) j = Some (Some ev)) as <-.
    { rewrite idx_lookup, list_lookup_fmap. unfold j, lenN in *.
      replace (N.to_nat (_ + _)) with (N.to_nat (N.of_nat (length h) - AUDIT_CAPACITY) + i)%nat by lia.
      by rewrite Hi. }
    rewrite <- (Hlast j); [|rewrite lenN_fmap, ?Hlen; unfold j, lenN in *; lia..].
    rewrite Hlen. f_equal. unfold start, j. rewrite Htot.
    case_match; bool_to_prop; [|f_equal; lia].
    rewrite Hnext, N.Div0.add_mod_idemp_l.
    replace (lenN h + N.of_nat i) with
      (lenN h - AUDIT_CAPACITY + N.of_nat i + 1 * AUDIT_CAPACITY) by lia.
    by rewrite N.Div0.mod_add. }
  unfold audit_dump. fold start. fold count.
  match goal with |- context [for_each ?l ?b []] => assert (for_each l b [] =
    Ret (imap (fun i ev => (N.of_nat i, ev)) tl)) as -> end.
  2: { simpl. rewrite Htot, Hdrop. done. }
  rewrite Hcount. unfold lenN. rewrite Nat2N.id.
  clearbody start tl. clear -Hget. unfold rangeN.
  revert Hget. induction tl as [|ev tl IH] using rev_ind; intros Hget; [done|].
  rewrite length_app, seq_app, fmap_app, for_each_app. rewrite IH.
  - cbn [obind seq fmap list_fmap for_each length Nat.add]. rewrite N.add_0_l.
    rewrite (proj2 (arr_get_Ret _ _ _)
      (Hget (length tl) ev ltac:(by apply list_lookup_middle))). cbn [obind].
    rewrite imap_app. simpl. by rewrite Nat.add_0_r.
  - intros i ev' Hi. apply Hget. by apply lookup_app_l_Some.
Qed.

(** ** The audit trail *)

(** C26: The audit log is exact: starting from the empty log, recording any
    sequence of fewer than 2^64 capability events never panics, and the dump
    then announces exactly how many events were recorded and how many were
    overwritten, and lists the last 64 of them, oldest first, none altered. *)
Theorem audit_trail_exact (evs : list AuditEvent) :
  lenN evs < u64_limit ->
  exists log, record_all AuditLog_new evs = Ret log /\
    audit_dump log = Ret (mkAuditDump (lenN evs) (lenN evs - AUDIT_CAPACITY)
                            (numbered_tail AUDIT_CAPACITY evs)).
Proof.
  intros Hn. destruct (record_all_repr AuditLog_new [] evs) as (log & Hrun & Hr).
  - apply audit_repr_new.
  - done.
  - exists log. split; [done|]. by apply audit_dump_repr.
Qed.

Lemma audit_trail_exact_witness :
  exists log, record_all AuditLog_new (replicate 70 (mkAuditEvent Grant 1 2 Serial 3)) = Ret log /\
    audit_dump log = Ret (mkAuditDump 70 6
                            (numbered_tail 64 (replicate 70 (mkAuditEvent Grant 1 2 Serial 3)))).
Proof. apply (audit_trail_exact (replicate 70 (mkAuditEvent Grant 1 2 Serial 3))). reflexivity. Defined.
