(* ===== verification/Message.v ===== *)
(** * IPC messages and message queues

    Models the data half of [kernel/process/ipc.rs]: message tags and their
    wire discriminants, the message envelope, the error codes, and the bounded
    [MessageQueue], shown to be a FIFO. *)

From S2P Require Import Prelude Ring Capability.
Local Open Scope N_scope.

Inductive IpcTag : Type :=
| Raw | Log | Sensor | Ping | KVGet | KVSet | LogPublish | LogRead | LogAck
| FsOp | FsReply | DevOp | DevReply | SyncOp | SyncReply.

#[export] Instance IpcTag_eq_dec : EqDecision IpcTag.
Proof. solve_decision. Defined.

(** [tag as u16], the [repr(u16)] discriminant. *)
Definition IpcTag_as_u16 (t : IpcTag) : N :=
  match t with
  | Raw => 0 | Log => 1 | Sensor => 2 | Ping => 3 | KVGet => 4 | KVSet => 5
  | LogPublish => 6 | LogRead => 7 | LogAck => 8 | FsOp => 9 | FsReply => 10
  | DevOp => 11 | DevReply => 12 | SyncOp => 13 | SyncReply => 14
  end.

Definition from_u16 (v : N) : option IpcTag :=
  match v with
  | 0 => Some Raw
  | 1 => Some Log
  | 2 => Some Sensor
  | 3 => Some Ping
  | 4 => Some KVGet
  | 5 => Some KVSet
  | 6 => Some LogPublish
  | 7 => Some LogRead
  | 8 => Some LogAck
  | 9 => Some FsOp
  | 10 => Some FsReply
  | 11 => Some DevOp
  | 12 => Some DevReply
  | 13 => Some SyncOp
  | 14 => Some SyncReply
  | _ => None
  end.

Record Message : Type := mkMessage {
  msg_sender : TaskId;
  msg_tag : IpcTag;
  msg_version : N;
  msg_payload : list N;
  msg_len : N
}.

#[export] Instance Message_eq_dec : EqDecision Message.
Proof. solve_decision. Defined.

Inductive IpcError : Type :=
| NoCapability
| TargetGone
| PayloadTooLarge
| InvalidTag
| BadVersion
| NoContext
| QueueFull
| NoMessage.

#[export] Instance IpcError_eq_dec : EqDecision IpcError.
Proof. solve_decision. Defined.

(** The envelope built by the send paths: a zeroed 128-byte payload with the
    caller's bytes at the front. *)
Definition build_message (sender : TaskId) (tag : IpcTag) (version : N) (payload : list N)
  : outcome Message :=
  let! msg_payload := copy_at (replicate 128 0) 0 payload in
  Ret (mkMessage sender tag version msg_payload (lenN payload)).

(** ** The bounded queue *)

Definition MSG_QUEUE_CAPACITY : N := 8.

Record MessageQueue : Type := mkMessageQueue {
  mq_buffer : list (option Message);
  mq_head : N;
  mq_tail : N;
  mq_count : N
}.

Definition MessageQueue_new : MessageQueue := mkMessageQueue (replicate 8 None) 0 0 0.

Definition MessageQueue_is_empty (self : MessageQueue) : bool := mq_count self =? 0.
Definition MessageQueue_is_full (self : MessageQueue) : bool := mq_count self =? MSG_QUEUE_CAPACITY.

Definition MessageQueue_enqueue (self : MessageQueue) (msg : Message)
  : outcome (result unit unit * MessageQueue) :=
  if MessageQueue_is_full self then Ret (Err tt, self)
  else
    let! buffer := arr_set (mq_buffer self) (mq_tail self) (Some msg) in
    let! t1 := add64 (mq_tail self) 1 in
    let! count := add64 (mq_count self) 1 in
    Ret (Ok tt, mkMessageQueue buffer (mq_head self) (t1 mod MSG_QUEUE_CAPACITY) count).

Definition MessageQueue_dequeue (self : MessageQueue) : outcome (option Message * MessageQueue) :=
  if MessageQueue_is_empty self then Ret (None, self)
  else
    let! msg := arr_get (mq_buffer self) (mq_head self) in
    let! buffer := arr_set (mq_buffer self) (mq_head self) None in
    let! h1 := add64 (mq_head self) 1 in
    let! count := sub64 (mq_count self) 1 in
    Ret (msg, mkMessageQueue buffer (h1 mod MSG_QUEUE_CAPACITY) (mq_tail self) count).

(** ** The queue as a FIFO *)

Definition mq_live (q : MessageQueue) : list (option Message) :=
  ring_view (mq_buffer q) (mq_head q) (N.to_nat (mq_count q)).

Definition mq_contents (q : MessageQueue) : list Message := omap (fun o => o) (mq_live q).

Record mq_wf (q : MessageQueue) : Prop := {
  mq_wf_len : lenN (mq_buffer q) = MSG_QUEUE_CAPACITY;
  mq_wf_head : mq_head q < MSG_QUEUE_CAPACITY;
  mq_wf_count : mq_count q <= MSG_QUEUE_CAPACITY;
  mq_wf_tail : mq_tail q = (mq_head q + mq_count q) mod MSG_QUEUE_CAPACITY;
  mq_wf_live : Forall is_Some (mq_live q)
}.

#[export] Instance MessageQueue_Fifo : Fifo MessageQueue Message := {
  fifo_capacity := MSG_QUEUE_CAPACITY;
  fifo_inv := mq_wf;
  fifo_contents := mq_contents;
  fifo_enqueue := fun q m => ofmap (fun '(r, q') => (is_ok r, q')) (MessageQueue_enqueue q m);
  fifo_dequeue := MessageQueue_dequeue
}.

Lemma omap_id_Some {A} (l : list (option A)) :
  Forall is_Some l -> l = Some <$> omap (fun o => o) l.
Proof. induction 1 as [|o l [x ->] _ IH]; csimpl; [done|]. by f_equal. Qed.

Lemma mq_live_contents q : mq_wf q -> mq_live q = Some <$> mq_contents q.
Proof. intros []. by apply omap_id_Some. Qed.

Lemma mq_contents_len q : mq_wf q -> lenN (mq_contents q) = mq_count q.
Proof.
  intros Hq. pose proof (mq_live_contents q Hq) as Hl. destruct Hq as [Hlen Hh _ _ _].
  apply (f_equal length) in Hl. rewrite length_fmap in Hl.
  unfold mq_live in Hl. rewrite ring_view_length in Hl by lia. unfold lenN. lia.
Qed.

Lemma MessageQueue_new_wf : mq_wf MessageQueue_new.
Proof. by split. Qed.

#[export] Hint Resolve MessageQueue_new_wf : kernel.

Lemma mq_enqueue_ok q m :
  mq_wf q -> mq_count q < MSG_QUEUE_CAPACITY ->
  exists q', MessageQueue_enqueue q m = Ret (Ok tt, q') /\ mq_wf q' /\
    mq_contents q' = mq_contents q ++ [m].
Proof.
  intros Hq Hlt. pose proof (mq_live_contents q Hq) as Hl.
  destruct Hq as [Hlen Hh Hc Ht Hs]. assert (MSG_QUEUE_CAPACITY + 1 < u64_limit) by done.
  assert (mq_tail q < MSG_QUEUE_CAPACITY) by (rewrite Ht; by apply N.mod_lt).
  unfold MessageQueue_enqueue, MessageQueue_is_full. rewrite (proj2 (N.eqb_neq _ _)) by lia.
  rewrite arr_set_ok by lia. cbn [obind]. rewrite !add64_ok by lia. cbn [obind].
  eexists. split; [done|].
  match goal with |- mq_wf ?q1 /\ _ => assert (mq_live q1 = mq_live q ++ [Some m]) as Hlive end.
  { unfold mq_live; simpl. rewrite Ht, <- Hlen.
    replace (N.to_nat (mq_count q + 1)) with (S (N.to_nat (mq_count q))) by lia.
    replace (mq_head q + mq_count q) with (mq_head q + N.of_nat (N.to_nat (mq_count q))) by lia.
    apply ring_view_push; rewrite Hlen; [done|lia]. }
  split; [split; simpl|].
  - by rewrite lenN_upd.
  - done.
  - lia.
  - rewrite Ht, N.Div0.add_mod_idemp_l. f_equal. lia.
  - rewrite Hlive. apply Forall_app. split; [done|]. constructor; eauto.
  - unfold mq_contents. rewrite Hlive, omap_app. done.
Qed.

Lemma mq_dequeue_cons q m l :
  mq_wf q -> mq_contents q = m :: l ->
  exists q', MessageQueue_dequeue q = Ret (Some m, q') /\ mq_wf q' /\ mq_contents q' = l.
Proof.
  intros Hq Hc. pose proof (mq_live_contents q Hq) as Hl.
  pose proof (mq_contents_len q Hq) as Hn. rewrite Hc in Hl, Hn.
  destruct Hq as [Hlen Hh Hcnt Ht Hs]. assert (MSG_QUEUE_CAPACITY + 1 < u64_limit) by done.
  unfold lenN in Hn. simpl in Hn.
  unfold MessageQueue_dequeue, MessageQueue_is_empty. rewrite (proj2 (N.eqb_neq _ _)) by lia.
  destruct (N.to_nat (mq_count q)) as [|n] eqn:Hcount; [lia|].
  unfold mq_live in Hl. rewrite Hcount in Hl. simpl in Hl.
  destruct (idx (mq_buffer q) (mq_head q)) as [o|] eqn:Ho; simplify_eq.
  rewrite (proj2 (arr_get_Ret _ _ _) Ho). cbn [obind]. rewrite arr_set_ok by lia. cbn [obind].
  rewrite add64_ok, sub64_ok by lia. cbn [obind].
  eexists. split; [done|].
  match goal with |- mq_wf ?q1 /\ _ => assert (mq_live q1 = Some <$> l) as Hlive end.
  { unfold mq_live; simpl. replace (N.to_nat (mq_count q - 1)) with n by lia.
    rewrite <- Hlen, ring_view_clear_head; [done|lia..]. }
  split; [split; simpl|].
  - by rewrite lenN_upd.
  - by apply N.mod_lt.
  - lia.
  - rewrite Ht, N.Div0.add_mod_idemp_l. f_equal. lia.
  - rewrite Hlive. apply Forall_fmap, Forall_true. simpl. eauto.
  - unfold mq_contents. rewrite Hlive. clear. induction l; csimpl; congruence.
Qed.

Lemma mq_dequeue_nil q :
  mq_wf q -> mq_contents q = [] -> MessageQueue_dequeue q = Ret (None, q).
Proof.
  intros Hq Hc. pose proof (mq_contents_len q Hq) as Hn. rewrite Hc in Hn.
  unfold MessageQueue_dequeue, MessageQueue_is_empty. by rewrite <- Hn.
Qed.

Lemma mq_enqueue_full q m :
  mq_wf q -> mq_count q = MSG_QUEUE_CAPACITY -> MessageQueue_enqueue q m = Ret (Err tt, q).
Proof. intros Hq Hc. unfold MessageQueue_enqueue, MessageQueue_is_full. by rewrite Hc. Qed.

#[export] Instance MessageQueue_FifoLaws : FifoLaws MessageQueue Message.
Proof.
  split; simpl.
  - intros q Hq. rewrite mq_contents_len by done. apply Hq.
  - intros q m Hq Hlt. rewrite mq_contents_len in Hlt by done.
    destruct (mq_enqueue_ok q m Hq Hlt) as (q' & -> & ? & ?). simpl. eauto.
  - intros q m Hq Hc. rewrite mq_contents_len in Hc by done. by rewrite mq_enqueue_full.
  - apply mq_dequeue_nil.
  - intros q a l. apply mq_dequeue_cons.
Qed.

(** ** Wire discriminants *)

Lemma from_u16_as_u16 t : from_u16 (IpcTag_as_u16 t) = Some t.
Proof. by destruct t. Qed.

Lemma from_u16_Some v t : from_u16 v = Some t -> v = IpcTag_as_u16 t.
Proof.
  unfold from_u16. intros H. repeat (case_match; simplify_eq; try done).
Qed.

Lemma from_u16_None v : from_u16 v = None <-> 14 < v.
Proof.
  split.
  - intros H. destruct (decide (14 < v)) as [|Hle]; [done|].
    assert (v = 0 \/ v = 1 \/ v = 2 \/ v = 3 \/ v = 4 \/ v = 5 \/ v = 6 \/ v = 7 \/ v = 8 \/
            v = 9 \/ v = 10 \/ v = 11 \/ v = 12 \/ v = 13 \/ v = 14) as Hv by lia.
    repeat (destruct Hv as [->|Hv]; [done|]). by subst.
  - intros Hv. destruct (from_u16 v) as [t|] eqn:Ht; [|done].
    apply from_u16_Some in Ht. destruct t; simpl in Ht; lia.
Qed.

(** ** The envelope *)

Lemma build_message_ok sender tag version payload :
  lenN payload <= 128 ->
  exists m, build_message sender tag version payload = Ret m /\
    msg_sender m = sender /\ msg_tag m = tag /\ msg_version m = version /\
    msg_len m = lenN payload /\ lenN (msg_payload m) = 128 /\
    slice (msg_payload m) 0 (msg_len m) = Ret payload.
Proof.
  intros Hlen. unfold build_message.
  destruct (copy_at (replicate 128 0) 0 payload) as [p| | |] eqn:Hc.
  - cbn [obind]. eexists. split; [done|]. simpl. split_and!; [done..| |].
    + by rewrite (copy_at_lenN _ _ _ _ Hc).
    + by rewrite <- (N.add_0_l (lenN payload)), (slice_copy_at _ _ _ _ Hc).
  - unfold copy_at in Hc. case_match; [done|]. bool_to_prop. change (lenN (replicate _ _)) with 128 in *. lia.
  - unfold copy_at in Hc. by case_match.
  - unfold copy_at in Hc. by case_match.
Qed.
