(* ===== verification/Machine.v ===== *)
(** * The machine under the kernel

    The parts of the x86_64 state that the kernel's context switch handles: the
    callee-saved registers, flags, stack and instruction pointers, segment
    selectors, CR3 and [TSS.rsp0], and the kernel half of memory as 64-bit
    words.  Models the assembly of [kernel/process/mod.rs]: [switch_context],
    [kernel_task_trampoline] and [iret_to_user]. *)

From S2P Require Import Prelude.
Local Open Scope N_scope.

(** ** Memory

    Kernel-half memory by virtual address: the static task stacks, and physical
    frames through the direct map.  Every access of the modelled code is an
    aligned 64-bit word. *)

Abbreviation Mem := (gmap N N).

Definition mem_rd (m : Mem) (a : N) : N := default 0 (m !! a).
Definition mem_wr (m : Mem) (a v : N) : Mem := <[a := v]> m.

Lemma mem_rd_wr_eq m a v : mem_rd (mem_wr m a v) a = v.
Proof. unfold mem_rd, mem_wr. by rewrite lookup_insert_eq. Qed.

Lemma mem_rd_wr_ne m a b v : a <> b -> mem_rd (mem_wr m a v) b = mem_rd m b.
Proof. intros. unfold mem_rd, mem_wr. by rewrite lookup_insert_ne. Qed.

(** ** Link-time and boot-time environment

    Addresses fixed by the linker, and the boot loader's direct-map response. *)

Class Layout : Type := {
  task_stacks : N;              (* &TASK_STACKS *)
  kernel_task_trampoline : N;
  iret_to_user : N;
  yield_resume : N;             (* return address of the call in yield_cpu *)
  preempt_resume : N;           (* ... in preempt_reschedule *)
  terminate_resume : N;         (* ... in terminate_current_task, never used *)
  hhdm_response : option N      (* HHDM_REQUEST.response().offset *)
}.

(** ** Registers *)

Record Cpu : Type := mkCpu {
  r_rsp : N;
  r_rbp : N;
  r_rbx : N;
  r_r12 : N;
  r_r13 : N;
  r_r14 : N;
  r_r15 : N;
  r_rflags : N;
  r_rip : N;
  r_cs : N;
  r_ss : N;
  r_cr3 : N;
  tss_rsp0 : N
}.

Definition set_r_rsp (v : N) (s : Cpu) : Cpu :=
  mkCpu v (r_rbp s) (r_rbx s) (r_r12 s) (r_r13 s) (r_r14 s) (r_r15 s) (r_rflags s) (r_rip s)
    (r_cs s) (r_ss s) (r_cr3 s) (tss_rsp0 s).
Definition set_r_rbp (v : N) (s : Cpu) : Cpu :=
  mkCpu (r_rsp s) v (r_rbx s) (r_r12 s) (r_r13 s) (r_r14 s) (r_r15 s) (r_rflags s) (r_rip s)
    (r_cs s) (r_ss s) (r_cr3 s) (tss_rsp0 s).
Definition set_r_rbx (v : N) (s : Cpu) : Cpu :=
  mkCpu (r_rsp s) (r_rbp s) v (r_r12 s) (r_r13 s) (r_r14 s) (r_r15 s) (r_rflags s) (r_rip s)
    (r_cs s) (r_ss s) (r_cr3 s) (tss_rsp0 s).
Definition set_r_r12 (v : N) (s : Cpu) : Cpu :=
  mkCpu (r_rsp s) (r_rbp s) (r_rbx s) v (r_r13 s) (r_r14 s) (r_r15 s) (r_rflags s) (r_rip s)
    (r_cs s) (r_ss s) (r_cr3 s) (tss_rsp0 s).
Definition set_r_r13 (v : N) (s : Cpu) : Cpu :=
  mkCpu (r_rsp s) (r_rbp s) (r_rbx s) (r_r12 s) v (r_r14 s) (r_r15 s) (r_rflags s) (r_rip s)
    (r_cs s) (r_ss s) (r_cr3 s) (tss_rsp0 s).
Definition set_r_r14 (v : N) (s : Cpu) : Cpu :=
  mkCpu (r_rsp s) (r_rbp s) (r_rbx s) (r_r12 s) (r_r13 s) v (r_r15 s) (r_rflags s) (r_rip s)
    (r_cs s) (r_ss s) (r_cr3 s) (tss_rsp0 s).
Definition set_r_r15 (v : N) (s : Cpu) : Cpu :=
  mkCpu (r_rsp s) (r_rbp s) (r_rbx s) (r_r12 s) (r_r13 s) (r_r14 s) v (r_rflags s) (r_rip s)
    (r_cs s) (r_ss s) (r_cr3 s) (tss_rsp0 s).
Definition set_r_rflags (v : N) (s : Cpu) : Cpu :=
  mkCpu (r_rsp s) (r_rbp s) (r_rbx s) (r_r12 s) (r_r13 s) (r_r14 s) (r_r15 s) v (r_rip s)
    (r_cs s) (r_ss s) (r_cr3 s) (tss_rsp0 s).
Definition set_r_rip (v : N) (s : Cpu) : Cpu :=
  mkCpu (r_rsp s) (r_rbp s) (r_rbx s) (r_r12 s) (r_r13 s) (r_r14 s) (r_r15 s) (r_rflags s) v
    (r_cs s) (r_ss s) (r_cr3 s) (tss_rsp0 s).
Definition set_r_cs (v : N) (s : Cpu) : Cpu :=
  mkCpu (r_rsp s) (r_rbp s) (r_rbx s) (r_r12 s) (r_r13 s) (r_r14 s) (r_r15 s) (r_rflags s)
    (r_rip s) v (r_ss s) (r_cr3 s) (tss_rsp0 s).
Definition set_r_ss (v : N) (s : Cpu) : Cpu :=
  mkCpu (r_rsp s) (r_rbp s) (r_rbx s) (r_r12 s) (r_r13 s) (r_r14 s) (r_r15 s) (r_rflags s)
    (r_rip s) (r_cs s) v (r_cr3 s) (tss_rsp0 s).
Definition set_r_cr3 (v : N) (s : Cpu) : Cpu :=
  mkCpu (r_rsp s) (r_rbp s) (r_rbx s) (r_r12 s) (r_r13 s) (r_r14 s) (r_r15 s) (r_rflags s)
    (r_rip s) (r_cs s) (r_ss s) v (tss_rsp0 s).
Definition set_tss_rsp0 (v : N) (s : Cpu) : Cpu :=
  mkCpu (r_rsp s) (r_rbp s) (r_rbx s) (r_r12 s) (r_r13 s) (r_r14 s) (r_r15 s) (r_rflags s)
    (r_rip s) (r_cs s) (r_ss s) (r_cr3 s) v.

Record Machine : Type := mkMachine {
  mc_cpu : Cpu;
  mc_mem : Mem
}.

Definition set_mc_cpu (v : Cpu) (s : Machine) : Machine :=
  mkMachine v (mc_mem s).
Definition set_mc_mem (v : Mem) (s : Machine) : Machine :=
  mkMachine (mc_cpu s) v.

Definition on_cpu (f : Cpu -> Cpu) (mc : Machine) : Machine := set_mc_cpu (f (mc_cpu mc)) mc.

(** RFLAGS.IF. *)
Definition IF_FLAG : N := 0x200.
Definition sti (c : Cpu) : Cpu := set_r_rflags (N.lor (r_rflags c) IF_FLAG) c.
Definition cli (c : Cpu) : Cpu := set_r_rflags (N.ldiff (r_rflags c) IF_FLAG) c.
Definition interrupts_enabled (c : Cpu) : bool := negb (N.land (r_rflags c) IF_FLAG =? 0).

(** [memory::current_pml4_paddr]. *)
Definition PADDR_MASK : N := 0x000ffffffffff000.
Definition current_pml4_paddr (c : Cpu) : N := N.land (r_cr3 c) PADDR_MASK.

(** [memory::switch_address_space]. *)
Definition switch_address_space (pml4_paddr : N) (c : Cpu) : Cpu :=
  if pml4_paddr =? current_pml4_paddr c then c else set_r_cr3 pml4_paddr c.

(** [gdt::set_kernel_stack]. *)
Definition set_kernel_stack (rsp : N) (c : Cpu) : Cpu := set_tss_rsp0 rsp c.

(** ** Instructions *)

Definition push (v : N) (mc : Machine) : Machine :=
  let sp := wsub64 (r_rsp (mc_cpu mc)) 8 in
  mkMachine (set_r_rsp sp (mc_cpu mc)) (mem_wr (mc_mem mc) sp v).

Definition pop (mc : Machine) : N * Machine :=
  let sp := r_rsp (mc_cpu mc) in
  (mem_rd (mc_mem mc) sp, mkMachine (set_r_rsp (wadd64 sp 8) (mc_cpu mc)) (mc_mem mc)).

(** [pop reg]. *)
Definition pop_to (set : N -> Cpu -> Cpu) (mc : Machine) : Machine :=
  let '(v, mc') := pop mc in on_cpu (set v) mc'.

(** [switch_context(old_rsp, new_rsp)], entered with the return address on the
    stack.  Returns the stack pointer stored through [old_rsp] and the machine
    after the final [ret]. *)
Definition switch_context (new_rsp : N) (mc : Machine) : N * Machine :=
  let c := mc_cpu mc in
  let mc1 :=
    push (r_r15 c) (push (r_r14 c) (push (r_r13 c) (push (r_r12 c)
      (push (r_rbx c) (push (r_rbp c) (push (r_rflags c) mc)))))) in
  let old := r_rsp (mc_cpu mc1) in
  let mc2 := on_cpu (set_r_rsp new_rsp) mc1 in
  (old,
   pop_to set_r_rip (pop_to set_r_rflags (pop_to set_r_rbp (pop_to set_r_rbx
     (pop_to set_r_r12 (pop_to set_r_r13 (pop_to set_r_r14 (pop_to set_r_r15 mc2)))))))).

(** [call switch_context] from a point that resumes at [ret_addr]. *)
Definition call_switch_context (ret_addr new_rsp : N) (mc : Machine) : N * Machine :=
  switch_context new_rsp (push ret_addr mc).

(** [kernel_task_trampoline: sti; jmp r15]. *)
Definition run_trampoline (mc : Machine) : Machine :=
  on_cpu (fun c => set_r_rip (r_r15 c) (sti c)) mc.

(** [iret_to_user: iretq]. *)
Definition run_iretq (mc : Machine) : Machine :=
  let '(rip, mc1) := pop mc in
  let '(cs, mc2) := pop mc1 in
  let '(rflags, mc3) := pop mc2 in
  let '(rsp, mc4) := pop mc3 in
  let '(ss, mc5) := pop mc4 in
  on_cpu (fun c => set_r_ss ss (set_r_rsp rsp (set_r_rflags rflags (set_r_cs cs (set_r_rip rip c))))) mc5.

(** ** The context switch *)

(** What a suspended context keeps: the registers the System V ABI requires a
    call to preserve, the flags, and where to resume. *)
Record resumes_as (c : Cpu) (ret_addr sp : N) (c' : Cpu) : Prop := {
  ra_rip : r_rip c' = ret_addr;
  ra_rsp : r_rsp c' = sp;
  ra_rbp : r_rbp c' = r_rbp c;
  ra_rbx : r_rbx c' = r_rbx c;
  ra_r12 : r_r12 c' = r_r12 c;
  ra_r13 : r_r13 c' = r_r13 c;
  ra_r14 : r_r14 c' = r_r14 c;
  ra_r15 : r_r15 c' = r_r15 c;
  ra_rflags : r_rflags c' = r_rflags c
}.

(** The words of a suspended frame, lowest address first. *)
Definition frame_words (c : Cpu) (ret_addr : N) : list N :=
  [r_r15 c; r_r14 c; r_r13 c; r_r12 c; r_rbx c; r_rbp c; r_rflags c; ret_addr].

(** [m] holds the words [ws] from address [a] on. *)
Definition holds_words (m : Mem) (a : N) (ws : list N) : Prop :=
  forall i v, idx ws i = Some v -> mem_rd m (a + 8 * i) = v.

(** Executable test of [holds_words]. *)
Definition check_words (m : Mem) (a : N) (ws : list N) : bool :=
  forallb (fun i => mem_rd m (a + 8 * i) =? default 0 (idx ws i)) (rangeN 0 (length ws)).

Lemma check_words_sound m a ws : check_words m a ws = true -> holds_words m a ws.
Proof.
  unfold check_words. rewrite forallb_forall. intros H i v Hi.
  assert (i ∈ rangeN 0 (length ws)) as Hin.
  { apply elem_of_rangeN. apply idx_lt in Hi. unfold lenN in Hi. lia. }
  apply list_elem_of_In, H, N.eqb_eq in Hin. by rewrite Hi in Hin.
Qed.

Ltac mem_simpl :=
  repeat first [rewrite mem_rd_wr_eq | rewrite mem_rd_wr_ne by lia].

(** The seven pushes at [sp], and the eight loads from [new_rsp]. *)
Definition pushed_frame (c : Cpu) (sp : N) (m : Mem) : Mem :=
  mem_wr (mem_wr (mem_wr (mem_wr (mem_wr (mem_wr (mem_wr m
    (sp - 8) (r_rflags c)) (sp - 16) (r_rbp c)) (sp - 24) (r_rbx c)) (sp - 32) (r_r12 c))
    (sp - 40) (r_r13 c)) (sp - 48) (r_r14 c)) (sp - 56) (r_r15 c).

Definition loaded_cpu (c : Cpu) (p : N) (m : Mem) : Cpu :=
  {| r_rsp := p + 64; r_rbp := mem_rd m (p + 40); r_rbx := mem_rd m (p + 32);
     r_r12 := mem_rd m (p + 24); r_r13 := mem_rd m (p + 16); r_r14 := mem_rd m (p + 8);
     r_r15 := mem_rd m p; r_rflags := mem_rd m (p + 48); r_rip := mem_rd m (p + 56);
     r_cs := r_cs c; r_ss := r_ss c; r_cr3 := r_cr3 c; tss_rsp0 := tss_rsp0 c |}.

(** Reduces register reads and writes of an explicit register file. *)
Ltac cpu_cbn :=
  cbv beta iota delta [mc_cpu mc_mem r_rsp r_rbp r_rbx r_r12 r_r13 r_r14 r_r15
       r_rflags r_rip r_cs r_ss r_cr3 tss_rsp0
       set_r_rsp set_r_rbp set_r_rbx set_r_r12 set_r_r13 set_r_r14 set_r_r15
       set_r_rflags set_r_rip set_r_cs set_r_ss set_r_cr3 set_tss_rsp0].

Lemma push_mk v sp bp bx q12 q13 q14 q15 fl ip cs ss cr3 tss m :
  push v (mkMachine (mkCpu sp bp bx q12 q13 q14 q15 fl ip cs ss cr3 tss) m) =
  mkMachine (mkCpu (wsub64 sp 8) bp bx q12 q13 q14 q15 fl ip cs ss cr3 tss)
    (mem_wr m (wsub64 sp 8) v).
Proof. reflexivity. Qed.

Lemma push_rsp v mc : r_rsp (mc_cpu (push v mc)) = wsub64 (r_rsp (mc_cpu mc)) 8.
Proof. reflexivity. Qed.

Lemma push_mem v mc : mc_mem (push v mc) = mem_wr (mc_mem mc) (wsub64 (r_rsp (mc_cpu mc)) 8) v.
Proof. reflexivity. Qed.

Lemma on_cpu_mk f c m : on_cpu f (mkMachine c m) = mkMachine (f c) m.
Proof. reflexivity. Qed.

Lemma pop_to_mk set sp bp bx q12 q13 q14 q15 fl ip cs ss cr3 tss m :
  pop_to set (mkMachine (mkCpu sp bp bx q12 q13 q14 q15 fl ip cs ss cr3 tss) m) =
  mkMachine (set (mem_rd m sp) (mkCpu (wadd64 sp 8) bp bx q12 q13 q14 q15 fl ip cs ss cr3 tss)) m.
Proof. reflexivity. Qed.

(** On stack pointers that do not wrap, [switch_context] writes one frame, reads
    one frame and touches nothing else. *)
Lemma switch_context_eq p mc :
  let sp := r_rsp (mc_cpu mc) in
  56 <= sp -> sp < u64_limit -> p + 64 < u64_limit ->
  switch_context p mc =
    (sp - 56, mkMachine (loaded_cpu (mc_cpu mc) p (pushed_frame (mc_cpu mc) sp (mc_mem mc)))
                (pushed_frame (mc_cpu mc) sp (mc_mem mc))).
Proof.
  intros sp Hlo Hhi Hp.
  assert (forall n, n <= 48 -> wsub64 (sp - n) 8 = sp - (n + 8)) as Hs.
  { intros n Hn. rewrite wsub64_small by lia. lia. }
  assert (forall n, n <= 56 -> wadd64 (p + n) 8 = p + (n + 8)) as Ha.
  { intros n Hn. rewrite wadd64_small by lia. lia. }
  pose proof (Hs 0 ltac:(lia)) as S0. rewrite N.sub_0_r in S0.
  pose proof (Ha 0 ltac:(lia)) as A0. rewrite N.add_0_r in A0.
  destruct mc as [[sp0 bp bx q12 q13 q14 q15 fl ip cs ss cr3 tss] m].
  simpl in sp. unfold switch_context, pushed_frame. simpl r_rflags. simpl r_rbp. simpl r_rbx.
  simpl r_r12. simpl r_r13. simpl r_r14. simpl r_r15. fold sp.
  rewrite push_mk, S0. do 6 (rewrite push_mk, Hs by lia). cbn [mc_cpu mc_mem r_rsp].
  rewrite on_cpu_mk. cpu_cbn.
  rewrite pop_to_mk. cpu_cbn. rewrite A0.
  rewrite pop_to_mk. cpu_cbn. rewrite Ha by lia.
  rewrite pop_to_mk. cpu_cbn. rewrite Ha by lia.
  rewrite pop_to_mk. cpu_cbn. rewrite Ha by lia.
  rewrite pop_to_mk. cpu_cbn. rewrite Ha by lia.
  rewrite pop_to_mk. cpu_cbn. rewrite Ha by lia.
  rewrite pop_to_mk. cpu_cbn. rewrite Ha by lia.
  rewrite pop_to_mk. cpu_cbn. rewrite Ha by lia.
  reflexivity.
Qed.

(** Loading a stack pointer whose frame suspends [c] resumes [c]. *)
Lemma switch_context_resumes p mc c ret_addr :
  let sp := r_rsp (mc_cpu mc) in
  56 <= sp -> sp < u64_limit -> p + 64 < u64_limit ->
  holds_words (mc_mem mc) p (frame_words c ret_addr) ->
  p + 64 <= sp - 56 \/ sp <= p ->
  resumes_as c ret_addr (p + 64) (mc_cpu (switch_context p mc).2).
Proof.
  intros sp Hlo Hhi Hp Hw Hdis. rewrite switch_context_eq by done. fold sp.
  assert (forall i v, idx (frame_words c ret_addr) i = Some v ->
    mem_rd (pushed_frame (mc_cpu mc) sp (mc_mem mc)) (p + 8 * i) = v) as Hr.
  { intros i v Hi. pose proof (idx_lt _ _ _ Hi) as Hlt. change (lenN _) with 8 in Hlt.
    unfold pushed_frame. mem_simpl. by apply Hw. }
  split; simpl; try done.
  - exact (Hr 7 _ eq_refl).
  - exact (Hr 5 _ eq_refl).
  - exact (Hr 4 _ eq_refl).
  - exact (Hr 3 _ eq_refl).
  - exact (Hr 2 _ eq_refl).
  - exact (Hr 1 _ eq_refl).
  - rewrite <- (N.add_0_r p). exact (Hr 0 _ eq_refl).
  - exact (Hr 6 _ eq_refl).
Qed.

(** Suspending leaves the frame of the suspended context on its stack. *)
Lemma call_switch_context_suspends ret_addr p mc :
  let sp := r_rsp (mc_cpu mc) in
  64 <= sp -> sp < u64_limit -> p + 64 < u64_limit ->
  let '(old, mc') := call_switch_context ret_addr p mc in
  old = sp - 64 /\ holds_words (mc_mem mc') old (frame_words (mc_cpu mc) ret_addr) /\
  forall a, a < sp - 64 \/ sp <= a -> mem_rd (mc_mem mc') a = mem_rd (mc_mem mc) a.
Proof.
  intros sp Hlo Hhi Hp. unfold call_switch_context.
  assert (r_rsp (mc_cpu (push ret_addr mc)) = sp - 8) as Hsp.
  { simpl. fold sp. by rewrite wsub64_small by lia. }
  rewrite switch_context_eq; rewrite ?Hsp; [|lia..]. simpl. split; [lia|].
  fold sp. rewrite (wsub64_small sp 8) by lia. unfold pushed_frame. simpl. split.
  - intros i v Hi. rewrite idx_lookup in Hi.
    assert (i < 8) as Hi8.
    { apply lookup_lt_Some in Hi. simpl in Hi. lia. }
    assert (i = 0 \/ i = 1 \/ i = 2 \/ i = 3 \/ i = 4 \/ i = 5 \/ i = 6 \/ i = 7) as Hc by lia.
    repeat destruct Hc as [->|Hc]; subst; simpl in Hi; simplify_eq;
      repeat first [rewrite mem_rd_wr_ne by lia];
      match goal with |- mem_rd (mem_wr _ ?x _) ?y = _ => replace y with x by lia end;
      apply mem_rd_wr_eq.
  - intros a Ha. mem_simpl. done.
Qed.

(** Calling it on one stack resumes what is suspended on another. *)
Lemma call_switch_context_resumes ret_addr p mc c rc :
  let sp := r_rsp (mc_cpu mc) in
  64 <= sp -> sp < u64_limit -> p + 64 < u64_limit ->
  holds_words (mc_mem mc) p (frame_words c rc) ->
  p + 64 <= sp - 64 \/ sp <= p ->
  resumes_as c rc (p + 64) (mc_cpu (call_switch_context ret_addr p mc).2).
Proof.
  intros sp Hlo Hhi Hp Hw Hdis. unfold call_switch_context.
  assert (r_rsp (mc_cpu (push ret_addr mc)) = sp - 8) as Hpsp.
  { rewrite push_rsp. fold sp. by rewrite wsub64_small by lia. }
  apply switch_context_resumes; rewrite ?Hpsp; [lia..| |lia].
  intros n v Hn. rewrite push_mem. fold sp. rewrite wsub64_small by lia.
  pose proof (idx_lt _ _ _ Hn) as Hn8. change (lenN _) with 8 in Hn8.
  rewrite mem_rd_wr_ne by lia. by apply Hw.
Qed.

(** The switch leaves CR3 and [TSS.rsp0] alone. *)
Lemma call_switch_context_spaces ret_addr p mc :
  let sp := r_rsp (mc_cpu mc) in
  64 <= sp -> sp < u64_limit -> p + 64 < u64_limit ->
  r_cr3 (mc_cpu (call_switch_context ret_addr p mc).2) = r_cr3 (mc_cpu mc) /\
  tss_rsp0 (mc_cpu (call_switch_context ret_addr p mc).2) = tss_rsp0 (mc_cpu mc).
Proof.
  intros sp Hlo Hhi Hp. unfold call_switch_context.
  rewrite switch_context_eq; [done|rewrite push_rsp; fold sp; rewrite wsub64_small by lia; lia..|done].
Qed.

(** From here on [switch_context] is used through the lemmas above. *)
#[global] Opaque switch_context.
