(* ===== verification/Frames.v ===== *)
(** * The physical frame allocator

    Models [FrameAllocator] of [kernel/memory/mod.rs]: initialisation from the
    boot loader's memory map and the bump allocation of 4 KiB frames. *)

From S2P Require Import Prelude.
Local Open Scope N_scope.

Record FrameAllocator : Type := mkFrameAllocator {
  next_free_paddr : N;
  usable_end : N
}.

Definition FrameAllocator_new : FrameAllocator := mkFrameAllocator 0 0.

(** An entry of the boot loader's memory map. *)
Record MemmapEntry : Type := mkMemmapEntry {
  mm_base : N;
  mm_length : N;
  mm_type : N
}.

(** [x & !0xfff]. *)
Definition page_floor (x : N) : N := N.ldiff x 0xfff.

Section init.
(** [limine::memmap::MEMMAP_USABLE]. *)
Context (MEMMAP_USABLE : N).

(** One iteration of the loop of [init]. *)
Definition FrameAllocator_consider (entry : MemmapEntry) (self : FrameAllocator)
  : outcome FrameAllocator :=
  if mm_type entry =? MEMMAP_USABLE then
    let start := mm_base entry in
    let! end_ := add64 (mm_base entry) (mm_length entry) in
    let! size := sub64 end_ start in
    let! best := sub64 (usable_end self) (next_free_paddr self) in
    if best <? size then
      let! up := add64 start 0xfff in
      Ret (mkFrameAllocator (page_floor up) (page_floor end_))
    else Ret self
  else Ret self.

Definition FrameAllocator_init (self : FrameAllocator) (mmap_response : option (list MemmapEntry))
  : outcome FrameAllocator :=
  match mmap_response with
  | Some entries => for_each entries FrameAllocator_consider self
  | None => Ret self
  end.
End init.

Definition allocate_frame (self : FrameAllocator) : outcome (option N * FrameAllocator) :=
  let! next := add64 (next_free_paddr self) 4096 in
  if next <=? usable_end self then
    let paddr := next_free_paddr self in
    let! next' := add64 (next_free_paddr self) 4096 in
    Ret (Some paddr, mkFrameAllocator next' (usable_end self))
  else Ret (None, self).

(** ** Page rounding *)

Definition page_aligned (x : N) : Prop := x mod 4096 = 0.

Lemma page_floor_eq x : page_floor x = x / 4096 * 4096.
Proof.
  unfold page_floor. change 0xfff with (N.ones 12).
  rewrite N.ldiff_ones_r, N.shiftl_mul_pow2, N.shiftr_div_pow2. done.
Qed.

Lemma page_floor_aligned x : page_aligned (page_floor x).
Proof. unfold page_aligned. rewrite page_floor_eq. apply N.Div0.mod_mul. Qed.

Lemma page_floor_id x : page_aligned x -> page_floor x = x.
Proof.
  unfold page_aligned. intros Hx. rewrite page_floor_eq. divmod x 4096 q r. lia.
Qed.

Lemma page_floor_le x : page_floor x <= x /\ x < page_floor x + 4096.
Proof.
  rewrite page_floor_eq. divmod x 4096 q r. lia.
Qed.

Lemma page_ceil_id x : page_aligned x -> page_floor (x + 0xfff) = x.
Proof.
  unfold page_aligned. intros Hx. rewrite page_floor_eq.
  replace (x + 0xfff) with (0xfff + x / 4096 * 4096) by (divmod x 4096 q r; lia).
  rewrite N.div_add by done. change (0xfff / 4096) with 0. divmod x 4096 q r. lia.
Qed.

(** ** Allocation *)

(** The allocator hands out [[lo, hi)] by whole frames. *)
Record frames_wf (fa : FrameAllocator) : Prop := {
  fw_next : page_aligned (next_free_paddr fa);
  fw_end : page_aligned (usable_end fa);
  fw_le : next_free_paddr fa <= usable_end fa;
  fw_lim : usable_end fa + 4096 < u64_limit
}.

Lemma aligned_next_le a b : page_aligned a -> page_aligned b -> a < b -> a + 4096 <= b.
Proof.
  unfold page_aligned. intros Ha Hb Hlt.
  divmod a 4096 q r. divmod b 4096 q' r'. lia.
Qed.

Lemma page_aligned_add x : page_aligned x -> page_aligned (x + 4096).
Proof.
  unfold page_aligned. intros Hx. replace (x + 4096) with (x + 1 * 4096) by lia.
  by rewrite N.Div0.mod_add.
Qed.

Lemma allocate_frame_spec fa :
  frames_wf fa ->
  allocate_frame fa =
    if next_free_paddr fa <? usable_end fa
    then Ret (Some (next_free_paddr fa), mkFrameAllocator (next_free_paddr fa + 4096) (usable_end fa))
    else Ret (None, fa).
Proof.
  intros [Hn He Hle Hlim]. unfold allocate_frame. rewrite add64_ok by lia. cbn [obind].
  destruct (next_free_paddr fa <? usable_end fa) eqn:Hlt; bool_to_prop.
  - rewrite (proj2 (N.leb_le _ _)) by by apply aligned_next_le. done.
  - rewrite (proj2 (N.leb_gt _ _)) by lia. done.
Qed.

Lemma allocate_frame_wf fa o fa' :
  frames_wf fa -> allocate_frame fa = Ret (o, fa') -> frames_wf fa'.
Proof.
  intros Hwf. rewrite allocate_frame_spec by done. destruct Hwf as [Hn He Hle Hlim].
  case_match; intros; simplify_eq; bool_to_prop; split; simpl; try done.
  - by apply page_aligned_add.
  - by apply aligned_next_le.
Qed.

(** [n] allocations in a row: the frames obtained. *)
Fixpoint allocate_frames (n : nat) (fa : FrameAllocator) : outcome (list N * FrameAllocator) :=
  match n with
  | O => Ret ([], fa)
  | S n' =>
      let! (o, fa1) := allocate_frame fa in
      let! (l, fa2) := allocate_frames n' fa1 in
      Ret (match o with Some p => p :: l | None => l end, fa2)
  end.

Definition frame_list (lo : N) (n : nat) : list N := (fun k => lo + 4096 * k) <$> rangeN 0 n.

Lemma frame_list_S lo n : frame_list lo (S n) = lo :: frame_list (lo + 4096) n.
Proof.
  unfold frame_list. rewrite rangeN_S. csimpl. f_equal; [lia|].
  apply list_eq. intros k. rewrite !list_lookup_fmap.
  destruct (decide (k < n)%nat) as [Hk|Hk].
  - rewrite (proj2 (rangeN_lookup (0 + 1) n k (0 + 1 + N.of_nat k))) by done.
    rewrite (proj2 (rangeN_lookup 0 n k (0 + N.of_nat k))) by done. csimpl. f_equal. lia.
  - assert (forall a, rangeN a n !! k = None) as Hnone.
    { intros a. destruct (rangeN a n !! k) eqn:Hl; [|done]. apply rangeN_lookup in Hl. lia. }
    by rewrite !Hnone.
Qed.

Lemma allocate_frames_spec n fa :
  frames_wf fa ->
  exists fa', allocate_frames n fa =
    Ret (frame_list (next_free_paddr fa)
           (Nat.min n (N.to_nat ((usable_end fa - next_free_paddr fa) / 4096))), fa') /\
    frames_wf fa'.
Proof.
  revert fa. induction n as [|n IH]; intros fa Hwf; cbn [allocate_frames].
  - eauto.
  - pose proof (allocate_frame_wf fa) as Hw. rewrite allocate_frame_spec in * by done.
    destruct (next_free_paddr fa <? usable_end fa) eqn:Hlt; bool_to_prop; cbn [obind].
    + destruct (IH _ (Hw _ _ Hwf eq_refl)) as (fa' & Hrun & Hwf'). rewrite Hrun. cbn [obind].
      eexists. split; [|done]. cbn [next_free_paddr usable_end]. f_equal. f_equal.
      assert (usable_end fa - next_free_paddr fa = usable_end fa - (next_free_paddr fa + 4096) + 1 * 4096) as ->.
      { destruct Hwf. pose proof (aligned_next_le _ _ fw_next0 fw_end0 Hlt). lia. }
      rewrite N.div_add by done. rewrite N.add_1_r, N2Nat.inj_succ, <- Nat.succ_min_distr.
      by rewrite frame_list_S.
    + destruct (IH fa Hwf) as (fa' & Hrun & Hwf'). rewrite Hrun. cbn [obind].
      eexists. split; [|done]. f_equal. f_equal. destruct Hwf.
      replace (usable_end fa - next_free_paddr fa) with 0 by lia. change (0 / 4096) with 0.
      by rewrite !Nat.min_0_r.
Qed.

(** ** Initialisation *)

(** What the Limine protocol guarantees of usable entries: whole pages, and
    below the top of the address space. *)
Definition entry_ok (usable : N) (e : MemmapEntry) : Prop :=
  mm_type e = usable -> page_aligned (mm_base e) /\ page_aligned (mm_length e) /\
    mm_base e + mm_length e + 4096 < u64_limit.

Lemma page_aligned_sum a b : page_aligned a -> page_aligned b -> page_aligned (a + b).
Proof.
  unfold page_aligned. intros Ha Hb. rewrite N.Div0.add_mod, Ha, Hb. done.
Qed.

Definition usable_size (usable : N) (e : MemmapEntry) : N :=
  if mm_type e =? usable then mm_length e else 0.

(** The region held so far is one of the usable entries seen, and none of them
    is larger. *)
Definition best_of (usable : N) (seen : list MemmapEntry) (fa : FrameAllocator) : Prop :=
  frames_wf fa /\
  Forall (fun e => usable_size usable e <= usable_end fa - next_free_paddr fa) seen /\
  (fa = FrameAllocator_new \/
   exists e, e ∈ seen /\ mm_type e = usable /\
     next_free_paddr fa = mm_base e /\ usable_end fa = mm_base e + mm_length e).

Lemma FrameAllocator_consider_best usable seen e fa :
  entry_ok usable e -> best_of usable seen fa ->
  exists fa', FrameAllocator_consider usable e fa = Ret fa' /\ best_of usable (seen ++ [e]) fa'.
Proof.
  intros Hok (Hwf & Hmax & Horig). unfold FrameAllocator_consider.
  assert (forall fa', usable_size usable e <= usable_end fa' - next_free_paddr fa' ->
    Forall (fun e => usable_size usable e <= usable_end fa' - next_free_paddr fa') seen ->
    Forall (fun e => usable_size usable e <= usable_end fa' - next_free_paddr fa') (seen ++ [e])) as Hall.
  { intros fa' He Hs. apply Forall_app. auto. }
  assert (forall fa' : FrameAllocator, (fa = FrameAllocator_new \/
     exists e, e ∈ seen /\ mm_type e = usable /\
       next_free_paddr fa = mm_base e /\ usable_end fa = mm_base e + mm_length e) ->
    fa = FrameAllocator_new \/ exists e', e' ∈ seen ++ [e] /\ mm_type e' = usable /\
       next_free_paddr fa = mm_base e' /\ usable_end fa = mm_base e' + mm_length e') as Hkeep.
  { intros _ [?|(e' & Hin & ?)]; [by left|right]. exists e'. rewrite elem_of_app. naive_solver. }
  destruct (mm_type e =? usable) eqn:Ht; bool_to_prop.
  - destruct (Hok Ht) as (Hb & Hl & Hlim). rewrite add64_ok by lia. cbn [obind].
    rewrite sub64_ok by lia. cbn [obind]. destruct Hwf as [Hn He Hle Hlim'].
    rewrite sub64_ok by lia. cbn [obind].
    replace (mm_base e + mm_length e - mm_base e) with (mm_length e) by lia.
    destruct (_ <? mm_length e) eqn:Hlt; bool_to_prop.
    + rewrite add64_ok by lia. cbn [obind]. rewrite page_ceil_id by done.
      rewrite page_floor_id by by apply page_aligned_sum.
      eexists. split; [done|]. split; [|split].
      * split; simpl; [done|by apply page_aligned_sum|lia|done].
      * apply Hall; simpl; unfold usable_size.
        -- rewrite (proj2 (N.eqb_eq _ _) Ht). lia.
        -- eapply Forall_impl; [done|]. simpl. intros e' He'. unfold usable_size in He'. lia.
      * right. exists e. split; [set_solver|]. done.
    + exists fa. split; [done|]. split; [done|]. split; [|eauto].
      apply Hall; [|done]. unfold usable_size. rewrite (proj2 (N.eqb_eq _ _) Ht). lia.
  - exists fa. split; [done|]. split; [done|]. split; [|eauto].
    apply Hall; [|done]. unfold usable_size. rewrite (proj2 (N.eqb_neq _ _) Ht). lia.
Qed.

Lemma FrameAllocator_init_best usable entries :
  Forall (entry_ok usable) entries ->
  exists fa, FrameAllocator_init usable FrameAllocator_new (Some entries) = Ret fa /\
    best_of usable entries fa.
Proof.
  intros Hok. unfold FrameAllocator_init.
  apply (for_each_inv (fun seen fa => best_of usable seen fa)).
  - intros pre e post fa Hl Hbest. apply FrameAllocator_consider_best; [|done].
    rewrite Forall_forall in Hok. apply Hok. rewrite Hl. set_solver.
  - split; [by split|]. split; [constructor|]. by left.
Qed.
