(* ===== verification/Task.v ===== *)
(** * Tasks

    Models the data of [kernel/process/mod.rs], task states, the task control
    block and its limits, and the exception register frame of
    [kernel/interrupts/mod.rs] that a control block may hold.  Task creation,
    which writes the task's stack, is in [Spawn]. *)

From S2P Require Import Prelude Ring Preempt Trace Capability Message.
Local Open Scope N_scope.

(** [ExceptionFrame], in memory order. *)
Record ExceptionFrame : Type := mkExceptionFrame {
  ef_rax : N;
  ef_rbx : N;
  ef_rcx : N;
  ef_rdx : N;
  ef_rsi : N;
  ef_rdi : N;
  ef_rbp : N;
  ef_r8 : N;
  ef_r9 : N;
  ef_r10 : N;
  ef_r11 : N;
  ef_r12 : N;
  ef_r13 : N;
  ef_r14 : N;
  ef_r15 : N;
  ef_vector : N;
  ef_error_code : N;
  ef_rip : N;
  ef_cs : N;
  ef_rflags : N;
  ef_rsp : N;
  ef_ss : N
}.

#[export] Instance ExceptionFrame_eq_dec : EqDecision ExceptionFrame.
Proof. solve_decision. Defined.

Inductive TaskState : Type :=
| Ready
| Running
| BlockedOnReceive
| BlockedOnSend (target : TaskId)
| Terminated.

#[export] Instance TaskState_eq_dec : EqDecision TaskState.
Proof. solve_decision. Defined.

Definition MAX_TASKS : N := 132.
Definition STACK_SIZE : N := 32768.

Record Task : Type := mkTask {
  t_id : TaskId;
  t_state : TaskState;
  t_rsp : N;
  t_kstack_top : N;
  t_cr3 : N;
  t_cap_table : CapTable;
  t_ipc_buffer : option Message;
  t_msg_queue : MessageQueue;
  t_fault_registers : option ExceptionFrame
}.

Definition set_t_id (v : TaskId) (s : Task) : Task :=
  mkTask v (t_state s) (t_rsp s) (t_kstack_top s) (t_cr3 s) (t_cap_table s) (t_ipc_buffer s)
    (t_msg_queue s) (t_fault_registers s).
Definition set_t_state (v : TaskState) (s : Task) : Task :=
  mkTask (t_id s) v (t_rsp s) (t_kstack_top s) (t_cr3 s) (t_cap_table s) (t_ipc_buffer s)
    (t_msg_queue s) (t_fault_registers s).
Definition set_t_rsp (v : N) (s : Task) : Task :=
  mkTask (t_id s) (t_state s) v (t_kstack_top s) (t_cr3 s) (t_cap_table s) (t_ipc_buffer s)
    (t_msg_queue s) (t_fault_registers s).
Definition set_t_kstack_top (v : N) (s : Task) : Task :=
  mkTask (t_id s) (t_state s) (t_rsp s) v (t_cr3 s) (t_cap_table s) (t_ipc_buffer s)
    (t_msg_queue s) (t_fault_registers s).
Definition set_t_cr3 (v : N) (s : Task) : Task :=
  mkTask (t_id s) (t_state s) (t_rsp s) (t_kstack_top s) v (t_cap_table s) (t_ipc_buffer s)
    (t_msg_queue s) (t_fault_registers s).
Definition set_t_cap_table (v : CapTable) (s : Task) : Task :=
  mkTask (t_id s) (t_state s) (t_rsp s) (t_kstack_top s) (t_cr3 s) v (t_ipc_buffer s)
    (t_msg_queue s) (t_fault_registers s).
Definition set_t_ipc_buffer (v : option Message) (s : Task) : Task :=
  mkTask (t_id s) (t_state s) (t_rsp s) (t_kstack_top s) (t_cr3 s) (t_cap_table s) v
    (t_msg_queue s) (t_fault_registers s).
Definition set_t_msg_queue (v : MessageQueue) (s : Task) : Task :=
  mkTask (t_id s) (t_state s) (t_rsp s) (t_kstack_top s) (t_cr3 s) (t_cap_table s)
    (t_ipc_buffer s) v (t_fault_registers s).
Definition set_t_fault_registers (v : option ExceptionFrame) (s : Task) : Task :=
  mkTask (t_id s) (t_state s) (t_rsp s) (t_kstack_top s) (t_cr3 s) (t_cap_table s)
    (t_ipc_buffer s) (t_msg_queue s) v.

(** The types of the fields: fixed-size tables, and queues built by
    [MessageQueue]'s operations. *)
Record task_wf (t : Task) : Prop := {
  task_wf_caps : CapTable_wf (t_cap_table t);
  task_wf_queue : mq_wf (t_msg_queue t)
}.

Definition state_is (st : TaskState) (t : Task) : bool := bool_decide (t_state t = st).

Lemma state_is_true st t : state_is st t = true <-> t_state t = st.
Proof. unfold state_is. by rewrite bool_decide_eq_true. Qed.

Lemma state_is_false st t : state_is st t = false <-> t_state t <> st.
Proof. unfold state_is. by rewrite bool_decide_eq_false. Qed.
