(* ===== verification/Scheduler.v ===== *)
(** * The scheduler's table and its selection policy

    Models the data half of [kernel/scheduler/mod.rs]: the task table,
    [get_task]/[get_task_mut], and the round-robin searches of [yield_cpu],
    [preempt_reschedule] and [terminate_current_task].  The switching half,
    which also drives the machine, is in [Switch]. *)

From S2P Require Import Prelude Ring Preempt Trace Capability Message Task.
Local Open Scope N_scope.

Record Scheduler : Type := mkScheduler {
  s_tasks : list (option Task);
  s_current_task_id : option TaskId
}.

Definition set_s_tasks (v : list (option Task)) (s : Scheduler) : Scheduler :=
  mkScheduler v (s_current_task_id s).
Definition set_s_current_task_id (v : option TaskId) (s : Scheduler) : Scheduler :=
  mkScheduler (s_tasks s) v.

(** The initial value of [SCHEDULER]. *)
Definition Scheduler_init : Scheduler := mkScheduler (replicate 132 None) None.

(** The slot [sched.tasks[i]], [None] outside the table. *)
Definition task_slot (s : Scheduler) (i : N) : option Task := mjoin (idx (s_tasks s) i).

Definition get_task (self : Scheduler) (id : TaskId) : option Task :=
  if id <? lenN (s_tasks self) then
    match task_slot self id with
    | Some t => if t_id t =? id then Some t else None
    | None => None
    end
  else None.

Definition put_slot (i : N) (o : option Task) (s : Scheduler) : Scheduler :=
  set_s_tasks (upd (s_tasks s) i o) s.

(** [if let Some(t) = sched.get_task_mut(id) { *t = f(t) }]. *)
Definition get_task_mut (self : Scheduler) (id : TaskId) (f : Task -> Task) : Scheduler :=
  match get_task self id with
  | Some t => put_slot id (Some (f t)) self
  | None => self
  end.

(** ** Round-robin search *)

(** [if let Some(ref t) = sched.tasks[idx] { if t.state == Ready ... }]. *)
Definition ready_at (s : Scheduler) (i : N) : bool :=
  match task_slot s i with Some t => state_is Ready t | None => false end.

(** [for offset in 0..max_tasks { let idx = (start + offset) % max_tasks; ... }]
    up to the first ready task. *)
Definition next_ready_from (s : Scheduler) (start : N) : option N :=
  find_first (ready_at s)
    ((fun offset => (start + offset) mod MAX_TASKS) <$> rangeN 0 (N.to_nat MAX_TASKS)).

(** [for i in 0..max_tasks] up to the first ready task. *)
Definition first_ready (s : Scheduler) : option N :=
  find_first (ready_at s) (rangeN 0 (N.to_nat MAX_TASKS)).

(** The index of the current task, when its slot is occupied. *)
Definition current_idx (s : Scheduler) : option N :=
  match s_current_task_id s with
  | Some id => if (id <? MAX_TASKS) && is_some (task_slot s id) then Some id else None
  | None => None
  end.

(** ** Well-formedness *)

Record sched_wf (s : Scheduler) : Prop := {
  sched_wf_len : lenN (s_tasks s) = MAX_TASKS;
  sched_wf_id : forall i t, task_slot s i = Some t -> t_id t = i;
  sched_wf_task : forall i t, task_slot s i = Some t -> task_wf t
}.

Lemma task_slot_init i : task_slot Scheduler_init i = None.
Proof.
  unfold task_slot. destruct (idx _ i) as [o|] eqn:Ho; [|done].
  apply idx_elem_of in Ho. by apply elem_of_replicate_inv in Ho as ->.
Qed.

Lemma Scheduler_init_wf : sched_wf Scheduler_init.
Proof. split; [done|..]; intros i t; by rewrite task_slot_init. Qed.

(** ** Slots *)

Lemma task_slot_lt s i t : task_slot s i = Some t -> i < lenN (s_tasks s).
Proof.
  unfold task_slot. intros Ht. destruct (idx _ i) eqn:Hi; [|done]. by eapply idx_lt.
Qed.

Lemma task_slot_put s i j o :
  i < lenN (s_tasks s) ->
  task_slot (put_slot i o s) j = if decide (i = j) then o else task_slot s j.
Proof.
  intros Hi. unfold task_slot, put_slot. simpl. rewrite idx_upd.
  repeat case_decide; naive_solver.
Qed.

Lemma get_task_slot s id t : get_task s id = Some t -> task_slot s id = Some t /\ t_id t = id.
Proof. unfold get_task. repeat case_match; intros; simplify_eq. by bool_to_prop. Qed.

Lemma get_task_wf s id : sched_wf s -> get_task s id = task_slot s id.
Proof.
  intros [Hlen Hid _]. unfold get_task. destruct (task_slot s id) as [t|] eqn:Ht.
  - rewrite (proj2 (N.ltb_lt _ _)) by by eapply task_slot_lt.
    rewrite (Hid id t Ht), N.eqb_refl. done.
  - by case_match.
Qed.

Lemma put_slot_len i o s : lenN (s_tasks (put_slot i o s)) = lenN (s_tasks s).
Proof. apply lenN_upd. Qed.

Lemma put_slot_wf i o s :
  sched_wf s -> (forall t, o = Some t -> t_id t = i /\ task_wf t) -> sched_wf (put_slot i o s).
Proof.
  intros [Hlen Hid Hwf] Ho. destruct (decide (i < lenN (s_tasks s))) as [Hi|Hi].
  - split; [by rewrite put_slot_len|..]; intros j t; rewrite task_slot_put by done;
      case_decide; subst; naive_solver.
  - unfold put_slot, upd. rewrite (proj2 (N.ltb_ge _ _)) by lia. by destruct s.
Qed.

Lemma get_task_mut_slot s id f j :
  sched_wf s ->
  task_slot (get_task_mut s id f) j =
    if decide (id = j) then f <$> task_slot s j else task_slot s j.
Proof.
  intros Hs. unfold get_task_mut. rewrite get_task_wf by done.
  destruct (task_slot s id) as [t|] eqn:Ht.
  - rewrite task_slot_put by by eapply task_slot_lt. repeat case_decide; subst; by rewrite ?Ht.
  - repeat case_decide; subst; by rewrite ?Ht.
Qed.

Lemma get_task_mut_wf s id f :
  sched_wf s -> (forall t, task_wf t -> t_id (f t) = t_id t /\ task_wf (f t)) ->
  sched_wf (get_task_mut s id f).
Proof.
  intros Hs Hf. unfold get_task_mut. destruct (get_task s id) as [t|] eqn:Ht; [|done].
  apply get_task_slot in Ht as [Ht Hid]. apply put_slot_wf; [done|]. intros t' ?. simplify_eq.
  destruct (Hf t) as [-> ?]; [|done]. by eapply sched_wf_task.
Qed.

Lemma get_task_mut_current s id f :
  s_current_task_id (get_task_mut s id f) = s_current_task_id s.
Proof. unfold get_task_mut. by case_match. Qed.

(** ** The searches *)

Lemma ready_at_true s i :
  ready_at s i = true <-> exists t, task_slot s i = Some t /\ t_state t = Ready.
Proof.
  unfold ready_at. case_match; [rewrite state_is_true|]; naive_solver.
Qed.

(** Distance of task [t] after task [c] in round-robin order. *)
Definition rr_dist (c t : N) : N := (t + MAX_TASKS - (c + 1)) mod MAX_TASKS.

Lemma rr_dist_lt c t : rr_dist c t < MAX_TASKS.
Proof. by apply N.mod_lt. Qed.

Lemma rr_dist_offset c t :
  c < MAX_TASKS -> t < MAX_TASKS -> ((c + 1) mod MAX_TASKS + rr_dist c t) mod MAX_TASKS = t.
Proof.
  intros Hc Ht. unfold rr_dist. rewrite <- N.Div0.add_mod.
  replace (c + 1 + (t + MAX_TASKS - (c + 1))) with (t + 1 * MAX_TASKS) by lia.
  rewrite N.Div0.mod_add. by apply N.mod_small.
Qed.

Lemma rr_dist_of_offset c off :
  c < MAX_TASKS -> off < MAX_TASKS -> rr_dist c ((c + 1 + off) mod MAX_TASKS) = off.
Proof.
  intros Hc Ho. unfold rr_dist.
  pose proof (N.div_mod (c + 1 + off) MAX_TASKS ltac:(done)) as Hd.
  pose proof (N.mod_lt (c + 1 + off) MAX_TASKS ltac:(done)) as Hm.
  set (q := (c + 1 + off) / MAX_TASKS) in *. set (r := (c + 1 + off) mod MAX_TASKS) in *.
  assert (q = 0 \/ q = 1) as [Hq|Hq] by (unfold MAX_TASKS in *; lia); rewrite Hq in Hd.
  - replace (r + MAX_TASKS - (c + 1)) with (off + 1 * MAX_TASKS) by lia.
    rewrite N.Div0.mod_add. by apply N.mod_small.
  - replace (r + MAX_TASKS - (c + 1)) with off by lia. by apply N.mod_small.
Qed.

(** The search after [c] finds the ready task nearest to [c] in round-robin
    order, and fails only when none is ready. *)
Lemma next_ready_spec s c :
  c < MAX_TASKS ->
  match next_ready_from s ((c + 1) mod MAX_TASKS) with
  | Some i => i < MAX_TASKS /\ ready_at s i = true /\
      forall j, j < MAX_TASKS -> ready_at s j = true -> rr_dist c i <= rr_dist c j
  | None => forall j, j < MAX_TASKS -> ready_at s j = false
  end.
Proof.
  intros Hc. unfold next_ready_from. case_match eqn:Hf.
  - apply find_first_Some in Hf as (l1 & l2 & Hl & Hr & Hmin).
    assert (((fun offset => ((c + 1) mod MAX_TASKS + offset) mod MAX_TASKS) <$>
      rangeN 0 (N.to_nat MAX_TASKS)) !! length l1 = Some n) as Hn
      by (rewrite Hl; by apply list_lookup_middle).
    rewrite list_lookup_fmap in Hn.
    destruct (rangeN 0 _ !! length l1) as [k|] eqn:Hk; [|done].
    apply rangeN_lookup in Hk as [-> Hk]. injection Hn as <-. rewrite N.add_0_l in *.
    set (off := N.of_nat (length l1)) in *. rewrite N.Div0.add_mod_idemp_l in *.
    split; [by apply N.mod_lt|]. split; [done|]. intros j Hj Hrj.
    rewrite rr_dist_of_offset by lia. destruct (N.le_gt_cases off (rr_dist c j)) as [|Hlt]; [done|].
    exfalso. rewrite Forall_lookup in Hmin.
    specialize (Hmin (N.to_nat (rr_dist c j)) j). rewrite Hmin in Hrj; [done|].
    assert ((l1 ++ (c + 1 + off) mod MAX_TASKS :: l2) !! N.to_nat (rr_dist c j) = Some j) as Hlk.
    { rewrite <- Hl, list_lookup_fmap.
      rewrite (proj2 (rangeN_lookup 0 _ _ (rr_dist c j))) by lia.
      cbn [fmap option_fmap option_map]. by rewrite rr_dist_offset. }
    rewrite lookup_app_l in Hlk by lia. done.
  - rewrite find_first_None in Hf. intros j Hj. apply Hf. apply list_elem_of_fmap.
    exists (rr_dist c j). split; [by rewrite rr_dist_offset|].
    apply elem_of_rangeN. pose proof (rr_dist_lt c j). unfold MAX_TASKS in *. lia.
Qed.

Lemma first_ready_spec s :
  match first_ready s with
  | Some i => i < MAX_TASKS /\ ready_at s i = true
  | None => forall j, j < MAX_TASKS -> ready_at s j = false
  end.
Proof.
  unfold first_ready. case_match eqn:Hf.
  - apply find_first_true in Hf as [Hi Hr]. apply elem_of_rangeN in Hi. unfold MAX_TASKS in *. split; [lia|done].
  - rewrite find_first_None in Hf. intros j Hj. apply Hf, elem_of_rangeN. unfold MAX_TASKS in *. lia.
Qed.

(** Passing over [i] brings [j] strictly closer. *)
Lemma rr_dist_step c i j :
  c < MAX_TASKS -> i < MAX_TASKS -> j < MAX_TASKS -> i <> j ->
  rr_dist c i <= rr_dist c j -> rr_dist i j < rr_dist c j.
Proof.
  intros Hc Hi Hj Hij Hle.
  pose proof (rr_dist_lt c i). pose proof (rr_dist_lt c j).
  assert (rr_dist c i <> rr_dist c j) as Hne.
  { intros He. apply Hij. rewrite <- (rr_dist_offset c i), <- (rr_dist_offset c j) by done. by rewrite He. }
  assert (rr_dist i j = rr_dist c j - rr_dist c i - 1) as ->; [|lia].
  set (d := rr_dist c j - rr_dist c i - 1).
  assert ((i + 1 + d) mod MAX_TASKS = j) as Hd; [|rewrite <- Hd; apply rr_dist_of_offset; unfold d; lia].
  rewrite <- (rr_dist_offset c i), <- N.add_assoc by done.
  rewrite (N.Div0.add_mod_idemp_l (_ + rr_dist c i)), <- N.add_assoc, N.Div0.add_mod_idemp_l.
  rewrite <- (rr_dist_offset c j) by done. rewrite N.Div0.add_mod_idemp_l. f_equal. unfold d. lia.
Qed.

(** ** The capability view *)

(** The capability in slot [j] of task [i], if any. *)
Definition cap_of (s : Scheduler) (i j : N) : option Capability :=
  match task_slot s i with Some t => cap_at (t_cap_table t) j | None => None end.

Lemma cap_of_Some s i j c :
  sched_wf s -> cap_of s i j = Some c -> i < MAX_TASKS /\ j < MAX_CAPS.
Proof.
  intros Hs. unfold cap_of. destruct (task_slot s i) as [t|] eqn:Ht; [|done].
  intros [? _]%cap_at_Some. apply task_slot_lt in Ht. rewrite sched_wf_len in Ht; done.
Qed.

Lemma cap_of_put s i t ct i' j' :
  task_slot s i = Some t ->
  cap_of (put_slot i (Some (set_t_cap_table ct t)) s) i' j' =
    if decide (i = i') then cap_at ct j' else cap_of s i' j'.
Proof.
  intros Ht. unfold cap_of. rewrite task_slot_put by by eapply task_slot_lt.
  by case_decide.
Qed.

(** [s'] is [s] with other capability tables. *)
Definition same_but_caps (s s' : Scheduler) : Prop :=
  s_current_task_id s' = s_current_task_id s /\
  forall i, task_slot s' i =
    (fun t => set_t_cap_table (match task_slot s' i with Some t' => t_cap_table t' | None => t_cap_table t end) t)
      <$> task_slot s i.

Lemma same_but_caps_refl s : same_but_caps s s.
Proof.
  split; [done|]. intros i. destruct (task_slot s i) as [t|]; [|done]. simpl. by destruct t.
Qed.

Lemma same_but_caps_put s s' i t ct :
  same_but_caps s s' -> task_slot s' i = Some t ->
  same_but_caps s (put_slot i (Some (set_t_cap_table ct t)) s').
Proof.
  intros [Hc Hs] Ht. split; [done|]. intros j.
  rewrite task_slot_put by by eapply task_slot_lt. case_decide; [subst|apply Hs].
  specialize (Hs j). rewrite Ht in Hs. destruct (task_slot s j) as [t0|]; [|done].
  simpl in Hs. injection Hs as ->. done.
Qed.

Lemma put_caps_wf s i t ct :
  sched_wf s -> task_slot s i = Some t -> CapTable_wf ct ->
  sched_wf (put_slot i (Some (set_t_cap_table ct t)) s).
Proof.
  intros Hs Ht Hct. apply put_slot_wf; [done|]. intros t' ?. simplify_eq. split.
  - exact (sched_wf_id s Hs i t Ht).
  - split; [done|]. simpl. apply (sched_wf_task s Hs i t Ht).
Qed.
