(* ===== verification/Kernel.v ===== *)
(** * Kernel state and the kernel monad

    [Kernel] gathers the kernel's statics and the machine.  [K] is the monad of
    kernel code that runs to completion: state passing over [Kernel] with the
    outcomes of [Prelude].  [R] adds suspension: a computation in [R] may pause
    inside [switch_context], giving up the processor, and carries the code it
    executes once it is resumed.  [wp] is the total-correctness predicate
    transformer of [K]. *)

From S2P Require Import Prelude Ring Preempt Trace Capability AuditTrail Message Machine Frames.
From S2P Require Import Task Scheduler.
Local Open Scope N_scope.

(** The statics: [SCHEDULER] and its spinlock's flag, the ambient statics,
    [AUDIT_LOG], the event counters, the machine, [FRAME_ALLOCATOR],
    [BOOT_RSP], the bytes written to the console by capability-gated output,
    and the contents of the frames given to user tasks, by physical byte
    address. *)
Record Kernel : Type := mkKernel {
  k_sched : Scheduler;
  k_sched_locked : bool;
  k_amb : Ambient;
  k_audit : AuditLog;
  k_ipc_deliveries : N;
  k_tasks_spawned : N;
  k_tasks_terminated : N;
  k_faults_caught : N;
  k_machine : Machine;
  k_frames : FrameAllocator;
  k_boot_rsp : N;
  k_console : list N;
  k_user : gmap N N
}.

Definition set_k_sched (v : Scheduler) (s : Kernel) : Kernel :=
  mkKernel v (k_sched_locked s) (k_amb s) (k_audit s) (k_ipc_deliveries s) (k_tasks_spawned s)
    (k_tasks_terminated s) (k_faults_caught s) (k_machine s) (k_frames s) (k_boot_rsp s)
    (k_console s) (k_user s).
Definition set_k_sched_locked (v : bool) (s : Kernel) : Kernel :=
  mkKernel (k_sched s) v (k_amb s) (k_audit s) (k_ipc_deliveries s) (k_tasks_spawned s)
    (k_tasks_terminated s) (k_faults_caught s) (k_machine s) (k_frames s) (k_boot_rsp s)
    (k_console s) (k_user s).
Definition set_k_amb (v : Ambient) (s : Kernel) : Kernel :=
  mkKernel (k_sched s) (k_sched_locked s) v (k_audit s) (k_ipc_deliveries s) (k_tasks_spawned s)
    (k_tasks_terminated s) (k_faults_caught s) (k_machine s) (k_frames s) (k_boot_rsp s)
    (k_console s) (k_user s).
Definition set_k_audit (v : AuditLog) (s : Kernel) : Kernel :=
  mkKernel (k_sched s) (k_sched_locked s) (k_amb s) v (k_ipc_deliveries s) (k_tasks_spawned s)
    (k_tasks_terminated s) (k_faults_caught s) (k_machine s) (k_frames s) (k_boot_rsp s)
    (k_console s) (k_user s).
Definition set_k_ipc_deliveries (v : N) (s : Kernel) : Kernel :=
  mkKernel (k_sched s) (k_sched_locked s) (k_amb s) (k_audit s) v (k_tasks_spawned s)
    (k_tasks_terminated s) (k_faults_caught s) (k_machine s) (k_frames s) (k_boot_rsp s)
    (k_console s) (k_user s).
Definition set_k_tasks_spawned (v : N) (s : Kernel) : Kernel :=
  mkKernel (k_sched s) (k_sched_locked s) (k_amb s) (k_audit s) (k_ipc_deliveries s) v
    (k_tasks_terminated s) (k_faults_caught s) (k_machine s) (k_frames s) (k_boot_rsp s)
    (k_console s) (k_user s).
Definition set_k_tasks_terminated (v : N) (s : Kernel) : Kernel :=
  mkKernel (k_sched s) (k_sched_locked s) (k_amb s) (k_audit s) (k_ipc_deliveries s)
    (k_tasks_spawned s) v (k_faults_caught s) (k_machine s) (k_frames s) (k_boot_rsp s)
    (k_console s) (k_user s).
Definition set_k_faults_caught (v : N) (s : Kernel) : Kernel :=
  mkKernel (k_sched s) (k_sched_locked s) (k_amb s) (k_audit s) (k_ipc_deliveries s)
    (k_tasks_spawned s) (k_tasks_terminated s) v (k_machine s) (k_frames s) (k_boot_rsp s)
    (k_console s) (k_user s).
Definition set_k_machine (v : Machine) (s : Kernel) : Kernel :=
  mkKernel (k_sched s) (k_sched_locked s) (k_amb s) (k_audit s) (k_ipc_deliveries s)
    (k_tasks_spawned s) (k_tasks_terminated s) (k_faults_caught s) v (k_frames s) (k_boot_rsp s)
    (k_console s) (k_user s).
Definition set_k_frames (v : FrameAllocator) (s : Kernel) : Kernel :=
  mkKernel (k_sched s) (k_sched_locked s) (k_amb s) (k_audit s) (k_ipc_deliveries s)
    (k_tasks_spawned s) (k_tasks_terminated s) (k_faults_caught s) (k_machine s) v
    (k_boot_rsp s) (k_console s) (k_user s).
Definition set_k_boot_rsp (v : N) (s : Kernel) : Kernel :=
  mkKernel (k_sched s) (k_sched_locked s) (k_amb s) (k_audit s) (k_ipc_deliveries s)
    (k_tasks_spawned s) (k_tasks_terminated s) (k_faults_caught s) (k_machine s) (k_frames s) v
    (k_console s) (k_user s).
Definition set_k_console (v : list N) (s : Kernel) : Kernel :=
  mkKernel (k_sched s) (k_sched_locked s) (k_amb s) (k_audit s) (k_ipc_deliveries s)
    (k_tasks_spawned s) (k_tasks_terminated s) (k_faults_caught s) (k_machine s) (k_frames s)
    (k_boot_rsp s) v (k_user s).
Definition set_k_user (v : gmap N N) (s : Kernel) : Kernel :=
  mkKernel (k_sched s) (k_sched_locked s) (k_amb s) (k_audit s) (k_ipc_deliveries s)
    (k_tasks_spawned s) (k_tasks_terminated s) (k_faults_caught s) (k_machine s) (k_frames s)
    (k_boot_rsp s) (k_console s) v.

Definition on_sched (f : Scheduler -> Scheduler) (k : Kernel) : Kernel :=
  set_k_sched (f (k_sched k)) k.
Definition on_amb (f : Ambient -> Ambient) (k : Kernel) : Kernel := set_k_amb (f (k_amb k)) k.
Definition on_preempt (f : PreemptState -> PreemptState) (k : Kernel) : Kernel :=
  on_amb (fun a => set_am_preempt (f (am_preempt a)) a) k.
Definition on_machine (f : Machine -> Machine) (k : Kernel) : Kernel :=
  set_k_machine (f (k_machine k)) k.
Definition k_cpu (k : Kernel) : Cpu := mc_cpu (k_machine k).
Definition k_mem (k : Kernel) : Mem := mc_mem (k_machine k).

(** ** The monad of atomic kernel code *)

Definition K (A : Type) : Type := Kernel -> outcome (A * Kernel).

Definition kret {A} (a : A) : K A := fun k => Ret (a, k).
Definition kbind {A B} (m : K A) (f : A -> K B) : K B :=
  fun k => let! (a, k') := m k in f a k'.
Definition kget {A} (f : Kernel -> A) : K A := fun k => Ret (f k, k).
Definition kmod (f : Kernel -> Kernel) : K unit := fun k => Ret (tt, f k).
Definition klift {A} (o : outcome A) : K A := fun k => let! a := o in Ret (a, k).

Notation "'let*' x ':=' c 'in' k" := (kbind c (fun x => k))
  (at level 10, x pattern, c at level 100, k at level 200) : kernel_scope.
Notation "'do*' c 'in' k" := (kbind c (fun _ => k))
  (at level 10, c at level 100, k at level 200) : kernel_scope.

(** [for i in l { body }]. *)
Fixpoint kfor {I S} (l : list I) (body : I -> S -> K S) (s : S) : K S :=
  match l with
  | [] => kret s
  | i :: l' => let* s' := body i s in kfor l' body s'
  end.

(** ** Primitive actions *)

(** [SCHEDULER.lock()]: spins for ever if this core already holds the lock. *)
Definition lock_sched : K unit :=
  fun k => if k_sched_locked k then Hang else Ret (tt, set_k_sched_locked true k).

(** The guard's [drop]. *)
Definition unlock_sched : K unit := kmod (set_k_sched_locked false).

(** [SCHEDULER.try_lock()]. *)
Definition try_lock_sched : K bool :=
  fun k => if k_sched_locked k then Ret (false, k) else Ret (true, set_k_sched_locked true k).

Definition ktrace (msg : string) (p1 p2 : N) : K unit := kmod (on_amb (log_trace msg p1 p2)).

Definition kget_task (id : TaskId) : K (option Task) := kget (fun k => get_task (k_sched k) id).

(** [if let Some(t) = sched.get_task_mut(id) { ... }]. *)
Definition kupdate_task (id : TaskId) (f : Task -> Task) : K unit :=
  kmod (on_sched (fun s => get_task_mut s id f)).

(** [task.cap_table.get(i)]. *)
Definition kcap_get (t : Task) (i : N) : K (option Capability) :=
  fun k => let '(r, a) := CapTable_get (t_cap_table t) i (k_amb k) in Ret (r, set_k_amb a k).

(** [sched.get_task_mut(id)] followed by a table operation on [cap_table]. *)
Definition kcaps {A} (id : TaskId) (t : Task) (op : CapTable -> Ambient -> A * CapTable * Ambient)
  : K A :=
  fun k =>
    let '(r, ct, a) := op (t_cap_table t) (k_amb k) in
    Ret (r, set_k_amb a (on_sched (fun s => get_task_mut s id (set_t_cap_table ct)) k)).

(** [audit::record]. *)
Definition kaudit (kind : AuditKind) (actor target : TaskId) (r : Resource) (slot : N) : K unit :=
  fun k => let! log := record (k_audit k) kind actor target r slot in Ret (tt, set_k_audit log k).

(** [COUNTER.fetch_add(1)]. *)
Definition bump_ipc_deliveries : K unit :=
  kmod (fun k => set_k_ipc_deliveries (wadd64 (k_ipc_deliveries k) 1) k).

(** Reads of a field of an updated kernel. *)
Ltac kproj_step g :=
  match goal with
  | |- context [g (?f ?v ?k)] =>
      first [change (g (f v k)) with v | change (g (f v k)) with (g k)]
  end.
Ltac kproj_step_in g H :=
  match type of H with
  | context [g (?f ?v ?k)] =>
      first [change (g (f v k)) with v in H | change (g (f v k)) with (g k) in H]
  end.
Ltac ksimp :=
  unfold on_preempt, on_amb, on_sched, on_machine, k_cpu, k_mem;
  repeat first [ kproj_step k_sched | kproj_step k_sched_locked | kproj_step k_amb
               | kproj_step k_audit | kproj_step k_ipc_deliveries | kproj_step k_tasks_spawned
               | kproj_step k_tasks_terminated | kproj_step k_faults_caught
               | kproj_step k_machine | kproj_step k_frames | kproj_step k_boot_rsp
               | kproj_step k_console | kproj_step k_user ].

(** ** Weakest preconditions *)

(** [m] returns from [k], in a state that satisfies [Q]. *)
Definition wp {A} (m : K A) (Q : A -> Kernel -> Prop) (k : Kernel) : Prop :=
  match m k with Ret (a, k') => Q a k' | _ => False end.

Lemma wp_run {A} (m : K A) Q k : wp m Q k <-> exists a k', m k = Ret (a, k') /\ Q a k'.
Proof. unfold wp. destruct (m k) as [[a k']| | |]; naive_solver. Qed.

Lemma wp_mono {A} (m : K A) (Q Q' : A -> Kernel -> Prop) k :
  wp m Q k -> (forall a k', Q a k' -> Q' a k') -> wp m Q' k.
Proof. rewrite !wp_run. naive_solver. Qed.

Lemma wp_kret {A} (a : A) Q k : Q a k -> wp (kret a) Q k.
Proof. done. Qed.

Lemma wp_kbind {A B} (m : K A) (f : A -> K B) Q k :
  wp m (fun a k' => wp (f a) Q k') k -> wp (kbind m f) Q k.
Proof. unfold wp, kbind. by destruct (m k) as [[a k']| | |]. Qed.

Lemma wp_kget {A} (f : Kernel -> A) Q k : Q (f k) k -> wp (kget f) Q k.
Proof. done. Qed.

Lemma wp_kmod f Q k : Q tt (f k) -> wp (kmod f) Q k.
Proof. done. Qed.

Lemma wp_klift {A} (o : outcome A) a (Q : A -> Kernel -> Prop) k :
  o = Ret a -> Q a k -> wp (klift o) Q k.
Proof. intros -> ?. done. Qed.

Lemma wp_lock_sched Q k :
  k_sched_locked k = false -> Q tt (set_k_sched_locked true k) -> wp lock_sched Q k.
Proof. intros Hl HQ. unfold wp, lock_sched. by rewrite Hl. Qed.

Lemma wp_unlock_sched (Q : unit -> Kernel -> Prop) k :
  Q tt (set_k_sched_locked false k) -> wp unlock_sched Q k.
Proof. done. Qed.

Lemma wp_ktrace m p q (Q : unit -> Kernel -> Prop) k :
  (forall a, traced (k_amb k) a -> Q tt (set_k_amb a k)) -> wp (ktrace m p q) Q k.
Proof. intros HQ. apply wp_kmod. apply HQ. auto with kernel. Qed.

Lemma wp_kcap_get t i (Q : option Capability -> Kernel -> Prop) k :
  (forall a, traced (k_amb k) a -> Q (cap_at (t_cap_table t) i) (set_k_amb a k)) ->
  wp (kcap_get t i) Q k.
Proof.
  intros HQ. unfold wp, kcap_get.
  destruct (CapTable_get_spec (t_cap_table t) i (k_amb k)) as (a & -> & Ha). auto.
Qed.

Lemma wp_kcaps {A} id t (op : CapTable -> Ambient -> A * CapTable * Ambient)
    (Q : A -> Kernel -> Prop) k r ct a :
  op (t_cap_table t) (k_amb k) = (r, ct, a) ->
  Q r (set_k_amb a (on_sched (fun s => get_task_mut s id (set_t_cap_table ct)) k)) ->
  wp (kcaps id t op) Q k.
Proof. intros Hop HQ. unfold wp, kcaps. by rewrite Hop. Qed.

(** Loop rule: [Inv] is indexed by the part of the range already visited. *)
Lemma wp_kfor {I S} (Inv : list I -> S -> Kernel -> Prop) (body : I -> S -> K S) l s k
    (Q : S -> Kernel -> Prop) :
  Inv [] s k ->
  (forall pre i post s k, l = pre ++ i :: post -> Inv pre s k ->
     wp (body i s) (fun s' k' => Inv (pre ++ [i]) s' k') k) ->
  (forall s' k', Inv l s' k' -> Q s' k') ->
  wp (kfor l body s) Q k.
Proof.
  intros Hs Hstep HQ.
  cut (forall post pre s k, l = pre ++ post -> Inv pre s k -> wp (kfor post body s) Q k).
  { intros H. by apply (H l []). }
  induction post as [|i post IH]; intros pre s0 k0 Hl Hinv; simpl.
  - rewrite app_nil_r in Hl. subst. apply wp_kret. auto.
  - apply wp_kbind. eapply wp_mono; [by eapply Hstep|]. simpl. intros s1 k1 Hinv1.
    apply (IH (pre ++ [i])); [|done]. by rewrite <- app_assoc.
Qed.

(** Runs the straight-line actions of a [wp] goal. *)
Ltac wp_step :=
  first
    [ apply wp_kbind
    | apply wp_kret
    | apply wp_kget
    | apply wp_kmod
    | apply wp_unlock_sched
    | apply wp_lock_sched; [done|]
    | apply wp_ktrace; intros ? ?
    | apply wp_kcap_get; intros ? ? ].
Ltac wp_steps := repeat (wp_step; cbv beta).

(** ** Well-formed kernels *)

(** The kernel between two operations: tables and queues of their types, the
    scheduler lock free, the audit log a genuine history. *)
Record kernel_wf (k : Kernel) : Prop := {
  kw_sched : sched_wf (k_sched k);
  kw_unlocked : k_sched_locked k = false;
  kw_audit : exists h, audit_repr (k_audit k) h
}.

(** Room for [n] more audit records before the counter overflows. *)
Definition audit_room (n : N) (k : Kernel) : Prop := al_total (k_audit k) + n < u64_limit.

(** The audit trail of [k'] extends that of [k] by [evs]. *)
Definition audit_extends (k k' : Kernel) (evs : list AuditEvent) : Prop :=
  forall h, audit_repr (k_audit k) h -> audit_repr (k_audit k') (h ++ evs).

Lemma wp_kaudit kind actor target r slot (Q : unit -> Kernel -> Prop) k h :
  audit_repr (k_audit k) h -> audit_room 1 k ->
  (forall log, audit_repr log (h ++ [mkAuditEvent kind actor target r slot]) ->
     Q tt (set_k_audit log k)) ->
  wp (kaudit kind actor target r slot) Q k.
Proof.
  intros Hh Hroom HQ. unfold wp, kaudit, record.
  destruct (AuditLog_push_repr (k_audit k) h (mkAuditEvent kind actor target r slot)) as (log & -> & Hl).
  - done.
  - unfold audit_room in Hroom. by rewrite (ar_total _ _ Hh) in Hroom.
  - simpl. auto.
Qed.

(** ** Suspension *)

(** A computation that has finished, or has given up the processor and holds
    the code to run when it gets it back. *)
#[warnings="-register-all"]
Inductive Res (A : Type) : Type :=
| Done (a : A)
| Paused (resume : Kernel -> outcome (Res A * Kernel)).
Arguments Done {A} _.
Arguments Paused {A} _.

Definition R (A : Type) : Type := Kernel -> outcome (Res A * Kernel).

Definition rlift {A} (m : K A) : R A := fun k => let! (a, k') := m k in Ret (Done a, k').
Definition rret {A} (a : A) : R A := fun k => Ret (Done a, k).

Fixpoint res_bind {A B} (r : Res A) (f : A -> R B) : R B :=
  match r with
  | Done a => f a
  | Paused resume =>
      fun k => Ret (Paused (fun k1 => match resume k1 with
                                      | Ret (r', k2) => res_bind r' f k2
                                      | Panic => Panic
                                      | Hang => Hang
                                      | OutOfFuel => OutOfFuel
                                      end), k)
  end.

Definition rbind {A B} (m : R A) (f : A -> R B) : R B :=
  fun k => let! (r, k') := m k in res_bind r f k'.

Notation "'let+' x ':=' c 'in' k" := (rbind c (fun x => k))
  (at level 10, x pattern, c at level 100, k at level 200) : kernel_scope.

(** ** Initial state and example kernels *)

Definition Machine_init : Machine := mkMachine (mkCpu 0 0 0 0 0 0 0 2 0 8 16 0 0) ∅.

(** The initial values of the statics. *)
Definition Kernel_init : Kernel :=
  mkKernel Scheduler_init false Ambient_init AuditLog_new 0 0 0 0 Machine_init FrameAllocator_new 0 [] ∅.

Lemma Kernel_init_wf : kernel_wf Kernel_init.
Proof. split; [apply Scheduler_init_wf|done|]. exists []. apply audit_repr_new. Qed.

(** A ready task holding the capabilities [caps] in its first slots. *)
Definition example_task (id : TaskId) (st : TaskState) (caps : list Capability) : Task :=
  mkTask id st 0x1000 0x2000 0x3000
    (mkCapTable ((Some <$> caps) ++ replicate (32 - length caps) None)) None MessageQueue_new None.

Definition add_task (t : Task) (k : Kernel) : Kernel := on_sched (put_slot (t_id t) (Some t)) k.
Definition set_current (id : TaskId) (k : Kernel) : Kernel :=
  on_sched (set_s_current_task_id (Some id)) k.

Lemma example_task_wf id st caps : (length caps <= 32)%nat -> task_wf (example_task id st caps).
Proof.
  intros Hc. split; [|apply MessageQueue_new_wf]. unfold CapTable_wf. simpl. unfold lenN.
  rewrite length_app, length_fmap, length_replicate. unfold MAX_CAPS. lia.
Qed.

Lemma add_task_wf t k : task_wf t -> kernel_wf k -> kernel_wf (add_task t k).
Proof.
  intros Ht [Hs Hl Ha]. split; unfold add_task; ksimp; [|done..].
  apply put_slot_wf; [done|]. intros t' ?. by simplify_eq.
Qed.

Lemma set_current_wf id k : kernel_wf k -> kernel_wf (set_current id k).
Proof. intros [[] Hl Ha]. split; [by split|done..]. Qed.

#[export] Hint Resolve Kernel_init_wf example_task_wf add_task_wf set_current_wf : kernel.
