(* ===== verification/Switch.v ===== *)
(** * Switching between tasks

    Models the switching half of [kernel/scheduler/mod.rs]: [yield_cpu],
    [preempt_reschedule] and [terminate_current_task], down to the registers,
    [TSS.rsp0] and CR3, and [exception_dispatch] of [kernel/interrupts/mod.rs],
    which contains a fault by terminating the task. *)

From S2P Require Import Prelude Ring Preempt Trace Capability AuditTrail Message Machine Frames.
From S2P Require Import Task Scheduler Kernel.
Local Open Scope N_scope.

(** ** Actions on slots *)

(** [sched.tasks[i].as_ref().unwrap()]. *)
Definition ktask_at (i : N) : K Task :=
  fun k => match task_slot (k_sched k) i with Some t => Ret (t, k) | None => Panic end.

(** [sched.tasks[i].as_mut().unwrap().state = st]. *)
Definition kput_state (i : N) (st : TaskState) : K unit :=
  let* t := ktask_at i in kmod (on_sched (put_slot i (Some (set_t_state st t)))).

Definition kset_current (id : TaskId) : K unit :=
  kmod (on_sched (set_s_current_task_id (Some id))).

(** ** The switch itself *)

(** Where [switch_context] stores the outgoing stack pointer: a task's [rsp]
    field, [BOOT_RSP], or the throwaway local of [terminate_current_task]. *)
Inductive SaveArea : Type :=
| SaveTask (i : N)
| SaveBoot
| SaveDummy.

(** [old_rsp_ptr] ([None] when null) and the incoming task's values. *)
Record SwitchPlan : Type := mkPlan {
  pl_save : option SaveArea;
  pl_rsp : N;
  pl_kstack_top : N;
  pl_cr3 : N
}.

Definition no_switch : SwitchPlan := mkPlan None 0 0 0.

Definition save_rsp (area : SaveArea) (rsp : N) (k : Kernel) : Kernel :=
  match area with
  | SaveTask i =>
      on_sched (fun s => match task_slot s i with
                         | Some t => put_slot i (Some (set_t_rsp rsp t)) s
                         | None => s
                         end) k
  | SaveBoot => set_k_boot_rsp rsp k
  | SaveDummy => k
  end.

(** [if new_kstack_top != 0 { ... } if new_cr3 != 0 { ... }]. *)
Definition load_task_context (plan : SwitchPlan) (c : Cpu) : Cpu :=
  let c1 := if pl_kstack_top plan =? 0 then c else set_kernel_stack (pl_kstack_top plan) c in
  if pl_cr3 plan =? 0 then c1 else switch_address_space (pl_cr3 plan) c1.

Section switching.
Context `{L : Layout}.

(** The tail of the three functions: switch if there is somewhere to save and
    something to load. [note] is the bookkeeping done just before. *)
Definition perform_switch (ret_addr : N) (note : Kernel -> Kernel) (plan : SwitchPlan) : K bool :=
  match pl_save plan with
  | Some area =>
      if pl_rsp plan =? 0 then kret false
      else
        do* kmod (on_machine (on_cpu (load_task_context plan))) in
        do* kmod note in
        do* kmod (fun k =>
          let '(old, mc) := call_switch_context ret_addr (pl_rsp plan) (k_machine k) in
          save_rsp area old (set_k_machine mc k)) in
        kret true
  | None => kret false
  end.

(** ** [yield_cpu] *)

(** The critical section: choose, update states, remember what to switch. *)
Definition yield_plan : K SwitchPlan :=
  do* lock_sched in
  let* s := kget k_sched in
  let current := current_idx s in
  let next_idx :=
    match current with
    | Some curr => next_ready_from s ((curr + 1) mod MAX_TASKS)
    | None => first_ready s
    end in
  let* plan :=
    match next_idx with
    | None => kret no_switch
    | Some next =>
        match current with
        | Some curr =>
            if curr =? next then kret no_switch
            else
              let* tc := ktask_at curr in
              do* (if state_is Running tc then kput_state curr Ready else kret tt) in
              do* kput_state next Running in
              let* tn := ktask_at next in
              do* kset_current (t_id tn) in
              do* ktrace "sched_switch_yield" curr next in
              kret (mkPlan (Some (SaveTask curr)) (t_rsp tn) (t_kstack_top tn) (t_cr3 tn))
        | None =>
            do* kput_state next Running in
            let* tn := ktask_at next in
            do* kset_current (t_id tn) in
            kret (mkPlan (Some SaveBoot) (t_rsp tn) (t_kstack_top tn) (t_cr3 tn))
        end
    end in
  do* unlock_sched in
  kret plan.

(** Everything up to [switch_context]'s return, in this task or the next. *)
Definition yield_switch : K bool :=
  do* kmod (on_machine (on_cpu cli)) in
  let* plan := yield_plan in
  perform_switch yield_resume (fun k => k) plan.

(** [if interrupts_enabled { sti }]. *)
Definition restore_interrupts (enabled : bool) (k : Kernel) : Kernel :=
  if enabled then on_machine (on_cpu sti) k else k.

Definition yield_cpu : R unit :=
  fun k =>
    let enabled := interrupts_enabled (k_cpu k) in
    let! (switched, k1) := yield_switch k in
    if switched
    then Ret (Paused (fun k2 => Ret (Done tt, restore_interrupts enabled k2)), k1)
    else Ret (Done tt, restore_interrupts enabled k1).

(** ** [preempt_reschedule] *)

Definition preempt_plan : K SwitchPlan :=
  let* got := try_lock_sched in
  if negb got then
    do* kmod (on_preempt note_deferred_locked) in kret no_switch
  else
    let* s := kget k_sched in
    match current_idx s with
    | None => do* unlock_sched in kret no_switch
    | Some curr =>
        let start := (curr + 1) mod MAX_TASKS in
        match next_ready_from s start with
        | Some next =>
            if next =? curr then do* unlock_sched in kret no_switch
            else
              let* tc := ktask_at curr in
              do* (if state_is Running tc then kput_state curr Ready else kret tt) in
              do* kput_state next Running in
              let* tn := ktask_at next in
              do* kset_current (t_id tn) in
              do* ktrace "sched_switch_preempt" curr next in
              do* unlock_sched in
              kret (mkPlan (Some (SaveTask curr)) (t_rsp tn) (t_kstack_top tn) (t_cr3 tn))
        | None => do* unlock_sched in kret no_switch
        end
    end.

Definition preempt_reschedule : K bool :=
  let* plan := preempt_plan in
  perform_switch preempt_resume (on_preempt note_preemption) plan.

(** ** [terminate_current_task] *)

(** The state of a sender blocked on [dead] becomes [Ready]. *)
Definition wake_sender (dead : TaskId) (t : Task) : Task :=
  if state_is (BlockedOnSend dead) t then set_t_state Ready t else t.

Definition wake_senders (dead : TaskId) (s : Scheduler) : Scheduler :=
  set_s_tasks (fmap (M := option) (wake_sender dead) <$> s_tasks s) s.

Definition terminate_plan : K SwitchPlan :=
  do* lock_sched in
  let* curr_idx := kget (fun k => s_current_task_id (k_sched k)) in
  do* (match curr_idx with
       | Some i =>
           if i <? MAX_TASKS then
             let* o := kget (fun k => task_slot (k_sched k) i) in
             match o with
             | Some t =>
                 do* kmod (on_sched (put_slot i (Some (set_t_state Terminated t)))) in
                 kmod (fun k => set_k_tasks_terminated (wadd64 (k_tasks_terminated k) 1) k)
             | None => kret tt
             end
           else kret tt
       | None => kret tt
       end) in
  do* (match curr_idx with
       | Some dead => kmod (on_sched (wake_senders dead))
       | None => kret tt
       end) in
  let* start :=
    match curr_idx with
    | Some i => let* i1 := klift (add64 i 1) in kret (i1 mod MAX_TASKS)
    | None => kret 0
    end in
  let* s := kget k_sched in
  let* plan :=
    match next_ready_from s start with
    | Some i =>
        do* kput_state i Running in
        let* t := ktask_at i in
        do* kset_current (t_id t) in
        do* ktrace "sched_switch_term" (default 0 curr_idx) i in
        kret (mkPlan (Some SaveDummy) (t_rsp t) (t_kstack_top t) (t_cr3 t))
    | None => kret no_switch
    end in
  do* unlock_sched in
  kret plan.

(** Returns whether another task now runs; otherwise the machine halts with
    interrupts off. *)
Definition terminate_current_task : K bool :=
  do* kmod (on_machine (on_cpu cli)) in
  let* plan := terminate_plan in
  perform_switch terminate_resume (fun k => k) plan.

(** ** Faults *)

(** [exception_dispatch]: the register dump goes to the console and is not
    modelled.  [false] is the halt of a fault without a task, or of a fault in
    the last runnable task. *)
Definition exception_dispatch (frame : ExceptionFrame) (vector : N) : K bool :=
  do* kmod (fun k => set_k_faults_caught (wadd64 (k_faults_caught k) 1) k) in
  do* ktrace "cpu_exception" vector (ef_rip frame) in
  do* lock_sched in
  let* o := kget (fun k => s_current_task_id (k_sched k)) in
  do* unlock_sched in
  match o with
  | Some id =>
      do* lock_sched in
      do* kupdate_task id (set_t_fault_registers (Some frame)) in
      do* unlock_sched in
      terminate_current_task
  | None => kret false
  end.
End switching.
