(* ===== verification/Scheduling.v ===== *)
(** * Correctness of scheduling

    Properties of the functions of [Switch]: what each does to the task table,
    that every runnable task is reached in round-robin order, that faults and
    exits are contained, and that a task's registers survive being switched
    out. *)

From S2P Require Import Prelude Ring Preempt Trace Capability AuditTrail Message Machine Frames.
From S2P Require Import Task Scheduler Kernel Switch.
Local Open Scope N_scope.

(** ** Handing the processor over *)

(** What the outgoing task becomes. *)
Definition slept (t : Task) : Task := if state_is Running t then set_t_state Ready t else t.

Definition put_running (i : N) (s : Scheduler) : Scheduler :=
  match task_slot s i with
  | Some t => put_slot i (Some (set_t_state Running t)) s
  | None => s
  end.

(** The table after [curr] (if any) gives way to [next]. *)
Definition handoff (curr : option N) (next : N) (s : Scheduler) : Scheduler :=
  set_s_current_task_id (Some next)
    (put_running next
      match curr with
      | Some c => match task_slot s c with
                  | Some t => if state_is Running t then put_slot c (Some (set_t_state Ready t)) s else s
                  | None => s
                  end
      | None => s
      end).

(** The decision of [yield_cpu]: outgoing and incoming task. *)
Definition yield_choice (s : Scheduler) : option (option N * N) :=
  match current_idx s with
  | Some c =>
      match next_ready_from s ((c + 1) mod MAX_TASKS) with
      | Some n => if c =? n then None else Some (Some c, n)
      | None => None
      end
  | None => (fun n => (None, n)) <$> first_ready s
  end.

Lemma put_running_slot i s j :
  task_slot (put_running i s) j = if decide (i = j) then set_t_state Running <$> task_slot s j else task_slot s j.
Proof.
  unfold put_running. destruct (task_slot s i) as [t|] eqn:Ht.
  - rewrite task_slot_put by by eapply task_slot_lt. repeat case_decide; subst; by rewrite ?Ht.
  - case_decide; subst; by rewrite ?Ht.
Qed.

Lemma handoff_slot c n s i :
  c <> Some n ->
  task_slot (handoff c n s) i =
    if decide (n = i) then set_t_state Running <$> task_slot s i
    else if decide (c = Some i) then slept <$> task_slot s i
    else task_slot s i.
Proof.
  intros Hcn. change (task_slot (handoff c n s) i) with
    (task_slot (put_running n match c with
      | Some c => match task_slot s c with
                  | Some t => if state_is Running t then put_slot c (Some (set_t_state Ready t)) s else s
                  | None => s
                  end
      | None => s end) i).
  rewrite put_running_slot. destruct c as [c|].
  2: { destruct (decide (n = i)); [done|]. by rewrite decide_False by done. }
  assert (forall j, task_slot match task_slot s c with
                  | Some t => if state_is Running t then put_slot c (Some (set_t_state Ready t)) s else s
                  | None => s
                  end j = if decide (c = j) then slept <$> task_slot s j else task_slot s j) as Hj.
  { intros j. destruct (task_slot s c) as [t|] eqn:Ht.
    - unfold slept. destruct (state_is Running t) eqn:Hr.
      + rewrite task_slot_put by by eapply task_slot_lt.
        destruct (decide (c = j)); [|done]. subst. rewrite Ht. simpl. by rewrite Hr.
      + destruct (decide (c = j)); [|done]. subst. rewrite Ht. simpl. by rewrite Hr.
    - destruct (decide (c = j)); [|done]. subst. by rewrite Ht. }
  rewrite Hj. destruct (decide (n = i)) as [<-|].
  - rewrite (decide_False (P := c = n)) by congruence. done.
  - destruct (decide (c = i)) as [<-|].
    + by rewrite decide_True.
    + by rewrite decide_False by congruence.
Qed.

Lemma set_t_state_id st t : t_id (set_t_state st t) = t_id t.
Proof. done. Qed.

Lemma set_t_state_wf st t : task_wf t -> task_wf (set_t_state st t).
Proof. intros []. by split. Qed.

Lemma slept_wf t : task_wf t -> task_wf (slept t).
Proof. intros []. unfold slept. case_match; by split. Qed.

Lemma slept_id t : t_id (slept t) = t_id t.
Proof. unfold slept. by case_match. Qed.

#[export] Hint Resolve set_t_state_wf slept_wf : kernel.

Lemma handoff_len c n s : lenN (s_tasks (handoff c n s)) = lenN (s_tasks s).
Proof.
  unfold handoff, put_running. cbn [s_tasks set_s_current_task_id].
  repeat case_match; rewrite ?put_slot_len; done.
Qed.

Lemma handoff_wf c n s : c <> Some n -> sched_wf s -> sched_wf (handoff c n s).
Proof.
  intros Hcn [Hlen Hid Hwf]. split; [by rewrite handoff_len|..]; intros i t;
    rewrite handoff_slot by done; destruct (task_slot s i) as [t0|] eqn:Ht;
    repeat case_decide; simpl; intros; simplify_eq; rewrite ?slept_id, ?set_t_state_id; eauto with kernel.
Qed.

(** ** The invariant of the run queue *)

(** Only the current task is running. *)
Definition run_inv (s : Scheduler) : Prop :=
  forall i t, task_slot s i = Some t -> t_state t = Running -> s_current_task_id s = Some i.

Lemma handoff_run_inv c n s :
  c <> Some n -> (forall i, s_current_task_id s = Some i -> is_Some (task_slot s i) -> c = Some i) ->
  run_inv s -> run_inv (handoff c n s).
Proof.
  intros Hcn Hcur Hrun i t. rewrite handoff_slot by done. simpl.
  destruct (decide (n = i)) as [<-|]; [done|].
  destruct (task_slot s i) as [t0|] eqn:Ht; [|by destruct (decide (c = Some i))].
  destruct (decide (c = Some i)) as [->|Hne]; simpl; intros ? Hst; simplify_eq.
  - unfold slept in Hst. destruct (state_is Running t0) eqn:Hr; [done|].
    apply state_is_false in Hr. done.
  - exfalso. apply Hne, Hcur; [by eapply Hrun|eauto].
Qed.

Lemma current_idx_Some s c :
  current_idx s = Some c <->
  s_current_task_id s = Some c /\ c < MAX_TASKS /\ is_Some (task_slot s c).
Proof.
  unfold current_idx. destruct (s_current_task_id s) as [id|]; [|naive_solver].
  destruct (id <? MAX_TASKS) eqn:Hlt; bool_to_prop; simpl.
  - destruct (task_slot s id) as [t|] eqn:Ht; simpl; split.
    + intros ?. simplify_eq. rewrite Ht. eauto.
    + intros (? & _ & _). by simplify_eq.
    + done.
    + intros (? & _ & [? ?]). simplify_eq.
  - split; [done|]. intros (? & ? & _). simplify_eq. lia.
Qed.

(** The task chosen is ready, is not the outgoing one, and is the nearest. *)
Lemma yield_choice_spec s curr next :
  yield_choice s = Some (curr, next) ->
  curr = current_idx s /\ curr <> Some next /\ next < MAX_TASKS /\ ready_at s next = true /\
  forall c j, curr = Some c -> j < MAX_TASKS -> ready_at s j = true -> rr_dist c next <= rr_dist c j.
Proof.
  unfold yield_choice. destruct (current_idx s) as [c|] eqn:Hc.
  - apply current_idx_Some in Hc as (Hcur & Hlt & Hsome).
    pose proof (next_ready_spec s c Hlt) as Hn. destruct (next_ready_from _ _) as [n|]; [|done].
    destruct (c =? n) eqn:He; [done|]. intros. simplify_eq. bool_to_prop.
    destruct Hn as (Hn & Hr & Hmin). split_and!; [done|congruence|done..|].
    intros c' j ?. simplify_eq. auto.
  - pose proof (first_ready_spec s) as Hf. destruct (first_ready s) as [n|]; [|done].
    simpl. intros. simplify_eq. destruct Hf as [Hn Hr]. split_and!; try done.
Qed.

Lemma yield_choice_None s c :
  yield_choice s = None -> current_idx s = Some c ->
  forall j, j < MAX_TASKS -> j <> c -> ready_at s j = false \/ ready_at s c = true.
Proof.
  unfold yield_choice. intros Hy Hc j Hj Hne. rewrite Hc in Hy.
  apply current_idx_Some in Hc as (Hcur & Hlt & Hsome).
  pose proof (next_ready_spec s c Hlt) as Hn. destruct (next_ready_from _ _) as [n|]; [|left; auto].
  destruct (c =? n) eqn:He; [|done]. bool_to_prop. subst n. right. apply Hn.
Qed.

(** ** The critical sections *)

Lemma wp_ktask_at i t (Q : Task -> Kernel -> Prop) k :
  task_slot (k_sched k) i = Some t -> Q t k -> wp (ktask_at i) Q k.
Proof. intros Ht HQ. unfold wp, ktask_at. by rewrite Ht. Qed.

Lemma wp_kput_state i t st (Q : unit -> Kernel -> Prop) k :
  task_slot (k_sched k) i = Some t ->
  Q tt (on_sched (put_slot i (Some (set_t_state st t))) k) -> wp (kput_state i st) Q k.
Proof. intros Ht HQ. apply wp_kbind. by eapply wp_ktask_at. Qed.

(** Saving the outgoing task, if there is one. *)
Definition save_area (curr : option N) : SaveArea :=
  match curr with Some c => SaveTask c | None => SaveBoot end.

Lemma relock_sched b s a k : k_sched_locked k = false ->
  set_k_sched_locked false (set_k_amb a (set_k_sched s (set_k_sched_locked b k))) =
  set_k_amb a (set_k_sched s k).
Proof. destruct k. simpl. by intros ->. Qed.

Lemma ready_at_Some s i : ready_at s i = true -> exists t, task_slot s i = Some t /\ t_state t = Ready.
Proof. apply ready_at_true. Qed.

(** The shared middle of [yield_cpu] and [preempt_reschedule]. *)
Lemma handoff_steps (curr next : N) (msg : string) (tn : Task) (k : Kernel)
    (Q : SwitchPlan -> Kernel -> Prop) (m : SwitchPlan -> K SwitchPlan) :
  sched_wf (k_sched k) -> curr <> next -> is_Some (task_slot (k_sched k) curr) ->
  task_slot (k_sched k) next = Some tn ->
  (forall a, traced (k_amb k) a ->
     wp (m (mkPlan (Some (SaveTask curr)) (t_rsp tn) (t_kstack_top tn) (t_cr3 tn))) Q
       (set_k_amb a (set_k_sched (handoff (Some curr) next (k_sched k)) k))) ->
  wp (let* tc := ktask_at curr in
      do* (if state_is Running tc then kput_state curr Ready else kret tt) in
      do* kput_state next Running in
      let* t := ktask_at next in
      do* kset_current (t_id t) in
      do* ktrace msg curr next in
      m (mkPlan (Some (SaveTask curr)) (t_rsp t) (t_kstack_top t) (t_cr3 t))) Q k.
Proof.
  intros Hs Hne [tc Htc] Htn HQ. apply wp_kbind. eapply wp_ktask_at; [done|].
  set (s1 := if state_is Running tc then put_slot curr (Some (set_t_state Ready tc)) (k_sched k) else k_sched k).
  assert (task_slot s1 next = Some tn) as Htn1.
  { unfold s1. destruct (state_is Running tc); [|done].
    rewrite task_slot_put by by eapply task_slot_lt. by rewrite decide_False. }
  assert (handoff (Some curr) next (k_sched k) =
    set_s_current_task_id (Some next) (put_slot next (Some (set_t_state Running tn)) s1)) as Hh.
  { unfold handoff. rewrite Htc. fold s1. unfold put_running. by rewrite Htn1. }
  assert (wp (do* kput_state next Running in
      let* t := ktask_at next in
      do* kset_current (t_id t) in
      do* ktrace msg curr next in
      m (mkPlan (Some (SaveTask curr)) (t_rsp t) (t_kstack_top t) (t_cr3 t))) Q (set_k_sched s1 k)) as Hrest.
  { apply wp_kbind. eapply wp_kput_state; [done|]. ksimp. apply wp_kbind. eapply wp_ktask_at.
    { ksimp. rewrite task_slot_put by by eapply task_slot_lt. by rewrite decide_True. }
    apply wp_kbind, wp_kmod. ksimp. apply wp_kbind, wp_ktrace. ksimp. intros a Ha.
    cbn [t_id set_t_state t_rsp t_kstack_top t_cr3]. rewrite (sched_wf_id _ Hs next tn Htn).
    specialize (HQ a Ha). rewrite Hh in HQ. exact HQ. }
  apply wp_kbind. unfold s1 in Hrest. destruct (state_is Running tc).
  - eapply wp_kput_state; [done|]. exact Hrest.
  - apply wp_kret. replace k with (set_k_sched (k_sched k) k) by by destruct k. exact Hrest.
Qed.

Lemma yield_plan_spec k :
  kernel_wf k ->
  wp yield_plan (fun plan k' =>
    match yield_choice (k_sched k) with
    | None => plan = no_switch /\ k' = k
    | Some (curr, next) => exists a tn, traced (k_amb k) a /\
        task_slot (k_sched k) next = Some tn /\
        k' = set_k_amb a (set_k_sched (handoff curr next (k_sched k)) k) /\
        plan = mkPlan (Some (save_area curr)) (t_rsp tn) (t_kstack_top tn) (t_cr3 tn)
    end) k.
Proof.
  intros [Hs Hl Ha]. unfold yield_plan. apply wp_kbind, wp_lock_sched; [done|].
  apply wp_kbind, wp_kget. ksimp. apply wp_kbind.
  pose proof (yield_choice_spec (k_sched k)) as Hspec. unfold yield_choice in *.
  destruct (current_idx (k_sched k)) as [c|] eqn:Hc.
  - pose proof Hc as (_ & _ & Hsome)%current_idx_Some.
    destruct (next_ready_from _ _) as [n|].
    2: { wp_steps. split; [done|]. destruct k. simpl in *. by subst. }
    destruct (c =? n) eqn:He.
    { wp_steps. split; [done|]. destruct k. simpl in *. by subst. }
    destruct (Hspec _ _ eq_refl) as (_ & Hne & _ & (tn & Htn & _)%ready_at_Some & _).
    apply (handoff_steps c n "sched_switch_yield" tn); [done|congruence|done..|].
    ksimp. intros a Htr. wp_steps. exists a, tn. split; [done|]. split; [done|]. split; [|done].
    by apply relock_sched.
  - destruct (first_ready (k_sched k)) as [n|].
    2: { wp_steps. split; [done|]. destruct k. simpl in *. by subst. }
    destruct (Hspec _ _ eq_refl) as (_ & Hne & _ & (tn & Htn & _)%ready_at_Some & _).
    apply wp_kbind. eapply wp_kput_state; [done|]. ksimp. apply wp_kbind. eapply wp_ktask_at.
    { ksimp. rewrite task_slot_put by by eapply task_slot_lt. by rewrite decide_True. }
    apply wp_kbind, wp_kmod. ksimp. wp_steps. exists (k_amb k), tn. split; [reflexivity|]. split; [done|].
    split; [|done]. cbn [t_id set_t_state]. rewrite (sched_wf_id _ Hs n tn Htn).
    unfold handoff, put_running. rewrite Htn. destruct k. simpl in *. by subst.
Qed.

Lemma preempt_plan_spec k :
  kernel_wf k ->
  wp preempt_plan (fun plan k' =>
    match current_idx (k_sched k), yield_choice (k_sched k) with
    | Some c, Some (curr, next) => exists a tn, traced (k_amb k) a /\
        task_slot (k_sched k) next = Some tn /\
        k' = set_k_amb a (set_k_sched (handoff (Some c) next (k_sched k)) k) /\
        plan = mkPlan (Some (SaveTask c)) (t_rsp tn) (t_kstack_top tn) (t_cr3 tn)
    | _, _ => plan = no_switch /\ k' = k
    end) k.
Proof.
  intros [Hs Hl Ha]. unfold preempt_plan. apply wp_kbind. unfold wp at 1, try_lock_sched.
  rewrite Hl. cbn [negb]. apply wp_kbind, wp_kget. ksimp.
  pose proof (yield_choice_spec (k_sched k)) as Hspec. unfold yield_choice in *.
  destruct (current_idx (k_sched k)) as [c|] eqn:Hc.
  2: { wp_steps. split; [done|]. destruct k. simpl in *. by subst. }
  pose proof Hc as (_ & _ & Hsome)%current_idx_Some.
  destruct (next_ready_from _ _) as [n|].
  2: { wp_steps. split; [done|]. destruct k. simpl in *. by subst. }
  rewrite N.eqb_sym. destruct (c =? n) eqn:He.
  { wp_steps. split; [done|]. destruct k. simpl in *. by subst. }
  destruct (Hspec _ _ eq_refl) as (_ & Hne & _ & (tn & Htn & _)%ready_at_Some & _).
  apply (handoff_steps c n "sched_switch_preempt" tn (set_k_sched_locked true k)
    _ (fun p => do* unlock_sched in kret p)); [done|congruence|done..|].
  ksimp. intros a Htr. wp_steps. exists a, tn. split; [done|]. split; [done|]. split; [|done].
  by apply relock_sched.
Qed.

(** A tick that finds the scheduler lock held only counts the deferral. *)
Lemma preempt_plan_locked k :
  k_sched_locked k = true ->
  preempt_plan k = Ret (no_switch, on_preempt note_deferred_locked k).
Proof. intros Hl. unfold preempt_plan, kbind, try_lock_sched. by rewrite Hl. Qed.

(** ** Termination *)

Lemma wake_sender_wf dead t : task_wf t -> task_wf (wake_sender dead t).
Proof. intros []. unfold wake_sender. case_match; by split. Qed.

Lemma wake_sender_id dead t : t_id (wake_sender dead t) = t_id t.
Proof. unfold wake_sender. by case_match. Qed.

Lemma wake_senders_slot dead s i :
  task_slot (wake_senders dead s) i = wake_sender dead <$> task_slot s i.
Proof.
  unfold task_slot, wake_senders. simpl. rewrite !idx_lookup, list_lookup_fmap.
  by destruct (s_tasks s !! N.to_nat i) as [[t|]|].
Qed.

Lemma wake_senders_wf dead s : sched_wf s -> sched_wf (wake_senders dead s).
Proof.
  intros [Hlen Hid Hwf]. split.
  - unfold wake_senders, lenN. simpl. by rewrite length_fmap.
  - intros i t. rewrite wake_senders_slot. destruct (task_slot s i) as [t0|] eqn:Ht; simpl; intros; simplify_eq.
    rewrite wake_sender_id. eauto.
  - intros i t. rewrite wake_senders_slot. destruct (task_slot s i) as [t0|] eqn:Ht; simpl; intros; simplify_eq.
    apply wake_sender_wf. eauto.
Qed.

(** The table once [dead] is marked and its blocked senders are awake. *)
Definition buried (dead : N) (s : Scheduler) : Scheduler :=
  wake_senders dead
    match task_slot s dead with
    | Some t => put_slot dead (Some (set_t_state Terminated t)) s
    | None => s
    end.

Lemma buried_slot dead s i :
  task_slot (buried dead s) i =
    if decide (dead = i) then set_t_state Terminated <$> task_slot s i
    else wake_sender dead <$> task_slot s i.
Proof.
  unfold buried. rewrite wake_senders_slot. destruct (task_slot s dead) as [t|] eqn:Ht.
  - rewrite task_slot_put by by eapply task_slot_lt. destruct (decide (dead = i)) as [<-|]; [|done].
    by rewrite Ht.
  - destruct (decide (dead = i)) as [<-|]; [|done]. by rewrite Ht.
Qed.

Lemma buried_wf dead s : sched_wf s -> sched_wf (buried dead s).
Proof.
  intros Hs. apply wake_senders_wf. destruct (task_slot s dead) as [t|] eqn:Ht; [|done].
  apply put_slot_wf; [done|]. intros t' ?. simplify_eq. split.
  - exact (sched_wf_id s Hs dead t Ht).
  - apply set_t_state_wf. by eapply sched_wf_task.
Qed.

Lemma put_running_current i s :
  s_current_task_id (put_running i s) = s_current_task_id s.
Proof. unfold put_running. by case_match. Qed.

Lemma terminate_plan_spec k dead t :
  kernel_wf k -> s_current_task_id (k_sched k) = Some dead ->
  task_slot (k_sched k) dead = Some t ->
  let s1 := buried dead (k_sched k) in
  wp terminate_plan (fun plan k' =>
    let n := wadd64 (k_tasks_terminated k) 1 in
    match next_ready_from s1 ((dead + 1) mod MAX_TASKS) with
    | None => plan = no_switch /\ k' = set_k_tasks_terminated n (set_k_sched s1 k)
    | Some next => exists a tn, traced (k_amb k) a /\ task_slot s1 next = Some tn /\
        k' = set_k_amb a (set_k_tasks_terminated n (set_k_sched (handoff None next s1) k)) /\
        plan = mkPlan (Some SaveDummy) (t_rsp tn) (t_kstack_top tn) (t_cr3 tn)
    end) k.
Proof.
  intros [Hs Hl Ha] Hcur Ht s1. unfold terminate_plan. apply wp_kbind, wp_lock_sched; [done|].
  apply wp_kbind, wp_kget. ksimp. rewrite Hcur.
  pose proof (task_slot_lt _ _ _ Ht) as Hlt. rewrite (sched_wf_len _ Hs) in Hlt.
  rewrite (proj2 (N.ltb_lt _ _) Hlt). apply wp_kbind, wp_kbind, wp_kget. ksimp. rewrite Ht.
  apply wp_kbind, wp_kmod, wp_kmod, wp_kbind, wp_kmod. ksimp.
  apply wp_kbind, wp_kbind. assert (MAX_TASKS + 1 < u64_limit) by done.
  eapply wp_klift; [apply add64_ok; lia|].
  apply wp_kret, wp_kbind, wp_kget. ksimp.
  assert (wake_senders dead (put_slot dead (Some (set_t_state Terminated t)) (k_sched k)) = s1) as ->.
  { unfold s1, buried. by rewrite Ht. }
  assert (sched_wf s1) as Hs1 by by apply buried_wf.
  apply wp_kbind. destruct (next_ready_from s1 _) as [n|] eqn:Hn.
  - pose proof (next_ready_spec s1 dead Hlt) as Hspec. rewrite Hn in Hspec.
    destruct Hspec as (_ & (tn & Htn & _)%ready_at_Some & _).
    apply wp_kbind. eapply wp_kput_state; [done|]. ksimp. apply wp_kbind. eapply wp_ktask_at.
    { ksimp. rewrite task_slot_put by by eapply task_slot_lt. by rewrite decide_True. }
    apply wp_kbind, wp_kmod. ksimp. apply wp_kbind, wp_ktrace. ksimp. intros a Htr. wp_steps.
    exists a, tn. split; [done|]. split; [done|]. split; [|done]. cbn [t_id set_t_state].
    rewrite (sched_wf_id _ Hs1 n tn Htn). unfold handoff, put_running. rewrite Htn.
    destruct k. simpl in *. by subst.
  - wp_steps. split; [done|]. destruct k. simpl in *. by subst.
Qed.

(** ** Contexts across a switch *)

Section contexts.
Context `{L : Layout}.

Definition stack_lo (i : N) : N := task_stacks + i * STACK_SIZE.
Definition stack_hi (i : N) : N := stack_lo i + STACK_SIZE.

(** The stacks lie in the address space, above the null page. *)
Definition stacks_fit : Prop :=
  0 < task_stacks /\ task_stacks + MAX_TASKS * STACK_SIZE < u64_limit.

(** Task [i] is switched out: its saved [rsp] points, inside its own stack, to
    a frame that resumes the registers [c] at [ret_addr]. *)
Definition suspended (k : Kernel) (i : N) (c : Cpu) (ret_addr : N) : Prop :=
  exists t, task_slot (k_sched k) i = Some t /\ 0 < t_rsp t /\
    stack_lo i <= t_rsp t /\ t_rsp t + 64 <= stack_hi i /\
    holds_words (k_mem k) (t_rsp t) (frame_words c ret_addr).

(** The processor is executing on task [i]'s kernel stack, with room for the
    switch frame. *)
Definition on_stack_of (k : Kernel) (i : N) : Prop :=
  stack_lo i + 64 <= r_rsp (k_cpu k) /\ r_rsp (k_cpu k) <= stack_hi i.

Lemma stacks_disjoint i j : i <> j -> stack_hi i <= stack_lo j \/ stack_hi j <= stack_lo i.
Proof. intros. unfold stack_hi, stack_lo, STACK_SIZE. nia. Qed.

Lemma stack_hi_fits i : stacks_fit -> i < MAX_TASKS -> stack_hi i < u64_limit.
Proof. unfold stacks_fit, stack_hi, stack_lo, STACK_SIZE, MAX_TASKS. intros. nia. Qed.

Lemma load_task_context_regs plan c :
  r_rsp (load_task_context plan c) = r_rsp c /\
  frame_words (load_task_context plan c) = frame_words c.
Proof.
  unfold load_task_context, switch_address_space, set_kernel_stack.
  repeat case_match; done.
Qed.

(** A frame outside the words written by the switch survives it. *)
Lemma holds_words_frame m m' a ws lo hi :
  holds_words m a ws -> (forall x, x < lo \/ hi <= x -> mem_rd m' x = mem_rd m x) ->
  a + 8 * lenN ws <= lo \/ hi <= a -> holds_words m' a ws.
Proof.
  intros Hw Hm Hd i v Hi. rewrite Hm; [by apply Hw|].
  pose proof (idx_lt _ _ _ Hi). lia.
Qed.

(** The machine part of a switch from task [i] to the suspended task [j]. *)
Lemma switch_machine k i j cj rj ret_addr plan tj :
  stacks_fit -> i < MAX_TASKS -> j < MAX_TASKS -> i <> j ->
  on_stack_of k i -> suspended k j cj rj -> task_slot (k_sched k) j = Some tj ->
  pl_rsp plan = t_rsp tj ->
  let mc := on_cpu (load_task_context plan) (k_machine k) in
  let '(old, mc') := call_switch_context ret_addr (t_rsp tj) mc in
  resumes_as cj rj (t_rsp tj + 64) (mc_cpu mc') /\
  old + 64 = r_rsp (k_cpu k) /\ 0 < old /\ stack_lo i <= old /\ old + 64 <= stack_hi i /\
  holds_words (mc_mem mc') old (frame_words (k_cpu k) ret_addr) /\
  (forall x, x < stack_lo i \/ stack_hi i <= x -> mem_rd (mc_mem mc') x = mem_rd (k_mem k) x) /\
  r_cr3 (mc_cpu mc') = r_cr3 (load_task_context plan (k_cpu k)) /\
  tss_rsp0 (mc_cpu mc') = tss_rsp0 (load_task_context plan (k_cpu k)).
Proof.
  intros Hfit Hi Hj Hij [Hlo Hhi] (t & Ht & Hpos & Hjlo & Hjhi & Hw) Htj Hplan mc. simplify_eq.
  pose proof (stack_hi_fits i Hfit Hi). pose proof (stack_hi_fits j Hfit Hj).
  assert (0 < stack_lo i) by (destruct Hfit; unfold stack_lo; lia).
  destruct (load_task_context_regs plan (k_cpu k)) as [Hsp Hfw].
  pose proof (stacks_disjoint i j Hij) as Hdis. unfold k_cpu, k_mem in *.
  assert (r_rsp (mc_cpu mc) = r_rsp (mc_cpu (k_machine k))) as Hrsp by exact Hsp.
  pose proof (call_switch_context_suspends ret_addr (t_rsp t) mc) as Hsus. rewrite Hrsp in Hsus.
  unfold stack_hi in *. assert (STACK_SIZE = 32768) as HSZ by done.
  specialize (Hsus ltac:(lia) ltac:(lia) ltac:(lia)).
  destruct (call_switch_context ret_addr (t_rsp t) mc) as [old mc'] eqn:Hcall.
  destruct Hsus as (-> & Hframe & Hsame).
  assert (resumes_as cj rj (t_rsp t + 64) (mc_cpu mc')) as Hres.
  { pose proof (call_switch_context_resumes ret_addr (t_rsp t) mc cj rj) as Hr.
    rewrite Hrsp, Hcall in Hr. apply Hr; [lia..|exact Hw|lia]. }
  split; [done|]. split; [lia|]. split; [lia|]. split; [lia|]. split; [lia|]. split.
  { intros n v Hn. apply Hframe. by rewrite <- Hfw in Hn. }
  split; [intros x Hx; apply Hsame; lia|].
  destruct (call_switch_context_spaces ret_addr (t_rsp t) mc) as [Hc3 Hts]; [rewrite ?Hrsp; lia..|].
  by rewrite Hcall in *.
Qed.

(** What a completed switch from task [c] to the suspended task [n] leaves. *)
Record switched (k : Kernel) (c n : N) (tn : Task) (cc cn : Cpu) (ret_addr rn : N) (k' : Kernel)
  : Prop := {
  sw_wf : kernel_wf k';
  sw_current : s_current_task_id (k_sched k') = Some n;
  sw_running : exists t, task_slot (k_sched k') n = Some t /\ t_state t = Running;
  sw_inv : run_inv (k_sched k) -> run_inv (k_sched k');
  sw_resumed : resumes_as cn rn (t_rsp tn + 64) (k_cpu k');
  sw_tss : t_kstack_top tn <> 0 -> tss_rsp0 (k_cpu k') = t_kstack_top tn;
  sw_cr3 : t_cr3 tn <> 0 -> N.land (t_cr3 tn) PADDR_MASK = t_cr3 tn ->
           current_pml4_paddr (k_cpu k') = t_cr3 tn;
  sw_saved : suspended k' c cc ret_addr;
  sw_rsp : exists t, task_slot (k_sched k') c = Some t /\ t_rsp t + 64 = r_rsp cc;
  sw_others : forall j cj rj, j <> c -> j <> n -> suspended k j cj rj -> suspended k' j cj rj
}.

Lemma load_task_context_spaces plan c :
  (pl_kstack_top plan <> 0 -> tss_rsp0 (load_task_context plan c) = pl_kstack_top plan) /\
  (pl_cr3 plan <> 0 -> N.land (pl_cr3 plan) PADDR_MASK = pl_cr3 plan ->
   current_pml4_paddr (load_task_context plan c) = pl_cr3 plan).
Proof.
  unfold load_task_context, switch_address_space. split.
  - intros Hk. rewrite (proj2 (N.eqb_neq _ _) Hk). repeat case_match; done.
  - intros Hc Hm. rewrite (proj2 (N.eqb_neq _ _) Hc).
    set (c1 := if pl_kstack_top plan =? 0 then c else set_kernel_stack (pl_kstack_top plan) c).
    destruct (pl_cr3 plan =? current_pml4_paddr c1) eqn:He; bool_to_prop; [done|].
    unfold current_pml4_paddr. by destruct c1.
Qed.

(** Saving [c]'s stack pointer, once the table has been handed over. *)
Lemma save_rsp_slot c rsp s i :
  task_slot (k_sched (save_rsp (SaveTask c) rsp (set_k_sched s Kernel_init))) i =
    if decide (c = i) then set_t_rsp rsp <$> task_slot s i else task_slot s i.
Proof.
  simpl. destruct (task_slot s c) as [t|] eqn:Ht.
  - rewrite task_slot_put by by eapply task_slot_lt. destruct (decide (c = i)) as [<-|]; [|done].
    by rewrite Ht.
  - destruct (decide (c = i)) as [<-|]; [|done]. by rewrite Ht.
Qed.

(** [perform_switch] after a handoff between two tasks. *)
Lemma perform_switch_spec k k1 c n tn cn rn ret_addr note a :
  kernel_wf k -> stacks_fit -> c < MAX_TASKS -> n < MAX_TASKS -> c <> n ->
  s_current_task_id (k_sched k) = Some c -> is_Some (task_slot (k_sched k) c) ->
  on_stack_of k c -> suspended k n cn rn -> task_slot (k_sched k) n = Some tn ->
  k1 = set_k_amb a (set_k_sched (handoff (Some c) n (k_sched k)) k) ->
  (forall k2, exists a2, note k2 = set_k_amb a2 k2) ->
  wp (perform_switch ret_addr note (mkPlan (Some (SaveTask c)) (t_rsp tn) (t_kstack_top tn) (t_cr3 tn)))
    (fun b k' => b = true /\ switched k c n tn (k_cpu k) cn ret_addr rn k') k1.
Proof.
  intros [Hs Hl Ha] Hfit Hc Hn Hcn Hcur [tc Htc] Hon Hsus Htn -> Hnote.
  set (plan := mkPlan (Some (SaveTask c)) (t_rsp tn) (t_kstack_top tn) (t_cr3 tn)).
  pose proof (switch_machine k c n cn rn ret_addr plan tn Hfit Hc Hn Hcn Hon Hsus Htn eq_refl) as Hm.
  destruct (load_task_context_spaces plan (k_cpu k)) as [Htss Hcr3].
  assert (0 < t_rsp tn) as Hpos by (destruct Hsus as (t & ? & ? & _); congruence).
  unfold perform_switch. simpl pl_save. simpl pl_rsp.
  rewrite (proj2 (N.eqb_neq _ _)) by lia.
  apply wp_kbind, wp_kmod, wp_kbind, wp_kmod, wp_kbind, wp_kmod.
  ksimp. destruct (Hnote (set_k_machine (on_cpu (load_task_context plan) (k_machine k))
    (set_k_amb a (set_k_sched (handoff (Some c) n (k_sched k)) k)))) as [a2 ->]. ksimp.
  revert Hm. cbv zeta. destruct (call_switch_context ret_addr (t_rsp tn) _) as [old mc'].
  intros Hm. destruct Hm as (Hres & Hold & Hopos & Holo & Hohi & Hframe & Hsame & Hc3 & Hts).
  set (s1 := handoff (Some c) n (k_sched k)).
  assert (Some c <> Some n) as Hcn' by congruence.
  assert (sched_wf s1) as Hs1 by by apply handoff_wf.
  assert (task_slot s1 c = Some (slept tc)) as Hsc.
  { unfold s1. rewrite handoff_slot by done. rewrite decide_False by done. rewrite decide_True by done. by rewrite Htc. }
  set (s2 := put_slot c (Some (set_t_rsp old (slept tc))) s1).
  assert (forall i, task_slot s2 i = if decide (c = i) then Some (set_t_rsp old (slept tc)) else task_slot s1 i) as Hs2.
  { intros i. unfold s2. by rewrite task_slot_put by by eapply task_slot_lt. }
  assert (sched_wf s2) as Hws2.
  { apply put_slot_wf; [done|]. intros t' ?. simplify_eq. split.
    - exact (sched_wf_id s1 Hs1 c (slept tc) Hsc).
    - pose proof (sched_wf_task s1 Hs1 c _ Hsc) as []. by split. }
  apply wp_kret. split; [done|].
  unfold save_rsp, on_sched. ksimp. rewrite Hsc. fold s2.
  assert (task_slot s2 n = Some (set_t_state Running tn)) as Hsn.
  { rewrite Hs2, decide_False by done. unfold s1. rewrite handoff_slot by done.
    rewrite decide_True by done. by rewrite Htn. }
  split; ksimp.
  - split; ksimp; eauto.
  - done.
  - eauto.
  - intros Hrun i t' Hi Hst. rewrite Hs2 in Hi. destruct (decide (c = i)) as [<-|].
    + simplify_eq. exfalso. apply (handoff_run_inv (Some c) n (k_sched k)) in Hrun; [|done|intros j Hj _; congruence].
      specialize (Hrun c (slept tc) Hsc Hst). by simplify_eq.
    + apply (handoff_run_inv (Some c) n (k_sched k)) in Hrun; [|done|intros j Hj _; congruence].
      by eapply Hrun.
  - done.
  - intros Hk. by rewrite Hts, Htss.
  - intros H0 H1. unfold current_pml4_paddr in *. rewrite Hc3. by apply Hcr3.
  - exists (set_t_rsp old (slept tc)). split; [ksimp; by rewrite Hs2, decide_True|].
    simpl t_rsp. ksimp. done.
  - exists (set_t_rsp old (slept tc)). split; [ksimp; by rewrite Hs2, decide_True|]. exact Hold.
  - intros j cj rj Hjc Hjn (tj & Htj & Hjpos & Hjlo & Hjhi & Hjw). exists tj. ksimp.
    split. { rewrite Hs2, decide_False by done. unfold s1. rewrite handoff_slot by done.
             rewrite decide_False by done. rewrite decide_False by congruence. done. }
    split; [done|]. split; [done|]. split; [done|].
    eapply holds_words_frame; [exact Hjw|exact Hsame|]. change (8 * lenN _) with 64.
    pose proof (stacks_disjoint c j ltac:(done)). lia.
Qed.
End contexts.

(** ** Interrupt flag *)

Lemma land_IF f : N.land f IF_FLAG = if N.testbit f 9 then IF_FLAG else 0.
Proof.
  apply N.bits_inj. intros n. rewrite N.land_spec. change IF_FLAG with (2 ^ 9).
  destruct (decide (n = 9)) as [->|Hn].
  - rewrite N.pow2_bits_true, andb_true_r. destruct (N.testbit f 9); by rewrite ?N.pow2_bits_true.
  - rewrite N.pow2_bits_false by done. rewrite andb_false_r.
    destruct (N.testbit f 9); rewrite ?N.pow2_bits_false by done; by rewrite ?N.bits_0.
Qed.

Lemma interrupts_enabled_bit c : interrupts_enabled c = N.testbit (r_rflags c) 9.
Proof. unfold interrupts_enabled. rewrite land_IF. by destruct (N.testbit _ 9). Qed.

(** Disabling interrupts and restoring them is the identity. *)
Lemma restore_cli c :
  (if interrupts_enabled c then sti (cli c) else cli c) = c.
Proof.
  rewrite interrupts_enabled_bit. destruct c as [? ? ? ? ? ? ? f]. unfold sti, cli, set_r_rflags. simpl.
  destruct (N.testbit f 9) eqn:Hf; f_equal; apply N.bits_inj; intros n; change IF_FLAG with (2 ^ 9);
    rewrite ?N.lor_spec, N.ldiff_spec; destruct (decide (n = 9)) as [->|Hn];
    rewrite ?N.pow2_bits_true, ?N.pow2_bits_false, ?Hf by done; simpl;
    rewrite ?orb_false_r, ?andb_true_r; done.
Qed.

Section main.
Context `{L : Layout}.

Lemma cli_kernel_wf k f : kernel_wf k -> kernel_wf (on_machine f k).
Proof. intros [Hs Hl Ha]. by split. Qed.

Lemma yield_cpu_alone k :
  kernel_wf k -> yield_choice (k_sched k) = None -> yield_cpu k = Ret (Done tt, k).
Proof.
  intros Hk Hnone. unfold yield_cpu, yield_switch. unfold kbind at 1. cbn [kmod obind].
  set (k0 := on_machine (on_cpu cli) k).
  pose proof (yield_plan_spec k0 (cli_kernel_wf k _ Hk)) as Hp.
  change (k_sched k0) with (k_sched k) in Hp. rewrite Hnone in Hp.
  apply wp_run in Hp as (plan & k1 & Hrun & -> & ->). unfold kbind. rewrite Hrun. simpl. f_equal. f_equal.
  pose proof (restore_cli (k_cpu k)) as Hr. unfold k_cpu in *. destruct k as [? ? ? ? ? ? ? ? [c m] ? ? ? ?].
  unfold restore_interrupts, k0, on_machine, on_cpu, set_mc_cpu, set_k_machine. simpl in *.
  destruct (interrupts_enabled c); simpl; by rewrite Hr.
Qed.

Lemma yield_cpu_switches k c n tn cn rn :
  kernel_wf k -> stacks_fit -> yield_choice (k_sched k) = Some (Some c, n) ->
  on_stack_of k c -> suspended k n cn rn -> task_slot (k_sched k) n = Some tn ->
  exists k1, yield_cpu k =
      Ret (Paused (fun k2 => Ret (Done tt, restore_interrupts (interrupts_enabled (k_cpu k)) k2)), k1) /\
    switched k c n tn (cli (k_cpu k)) cn yield_resume rn k1.
Proof.
  intros Hk Hfit Hch Hon Hsus Htn. unfold yield_cpu, yield_switch. unfold kbind at 1. cbn [kmod obind].
  set (k0 := on_machine (on_cpu cli) k).
  pose proof (yield_plan_spec k0 (cli_kernel_wf k _ Hk)) as Hp.
  change (k_sched k0) with (k_sched k) in Hp. rewrite Hch in Hp.
  apply wp_run in Hp as (plan & k1 & Hrun & a & tn' & Ha & Htn' & Hk1 & ->). simplify_eq.
  destruct (yield_choice_spec _ _ _ Hch) as (Hcur & Hne & Hn & _ & _). symmetry in Hcur.
  apply current_idx_Some in Hcur as (Hcur & Hc & Hsome).
  pose proof (perform_switch_spec k0 (set_k_amb a (set_k_sched (handoff (Some c) n (k_sched k)) k0))
    c n tn cn rn yield_resume (fun k => k) a (cli_kernel_wf k _ Hk) Hfit Hc Hn ltac:(congruence) Hcur Hsome)
    as Hps.
  assert (on_stack_of k0 c) as Hon0 by exact Hon.
  assert (suspended k0 n cn rn) as Hsus0 by exact Hsus.
  specialize (Hps Hon0 Hsus0 Htn eq_refl).
  assert (forall k2, exists a2, k2 = set_k_amb a2 k2) as Hnote by (intros k2; exists (k_amb k2); by destruct k2).
  specialize (Hps Hnote). apply wp_run in Hps as (b & k2 & Hrun2 & -> & Hsw).
  unfold kbind. rewrite Hrun. cbn [obind]. cbn [save_area]. rewrite Hrun2. cbn [obind].
  exists k2. split; [done|]. destruct Hsw as [? ? ? ? ? ? ? ? ? Hoth]. split; try done.
Qed.

(** *** Waiting is bounded *)

Lemma perform_switch_current ret_addr note plan k b k1 :
  (forall k2, k_sched (note k2) = k_sched k2) ->
  perform_switch ret_addr note plan k = Ret (b, k1) ->
  s_current_task_id (k_sched k1) = s_current_task_id (k_sched k).
Proof.
  intros Hnote. unfold perform_switch. destruct (pl_save plan) as [area|].
  2: { intros H. unfold kret in H. by simplify_eq. }
  case_match; [unfold kret; intros; by simplify_eq|].
  unfold kbind, kmod, kret. cbn [obind]. intros. simplify_eq. case_match.
  unfold save_rsp. destruct area; ksimp; rewrite ?Hnote; try done.
  case_match; by rewrite ?Hnote.
Qed.

(** A yield that switches went to the round-robin choice. *)
Lemma yield_switch_choice k k1 c :
  kernel_wf k -> current_idx (k_sched k) = Some c -> yield_switch k = Ret (true, k1) ->
  exists n, yield_choice (k_sched k) = Some (Some c, n) /\ s_current_task_id (k_sched k1) = Some n.
Proof.
  intros Hk Hc Hrun. unfold yield_switch, kbind in Hrun. cbn [kmod obind] in Hrun.
  set (k0 := on_machine (on_cpu cli) k) in *.
  pose proof (yield_plan_spec k0 (cli_kernel_wf k _ Hk)) as Hp.
  change (k_sched k0) with (k_sched k) in Hp.
  apply wp_run in Hp as (plan & k2 & Hrun2 & Hp). rewrite Hrun2 in Hrun. cbn [obind] in Hrun.
  destruct (yield_choice (k_sched k)) as [[curr n]|] eqn:Hch.
  - destruct Hp as (a & tn & _ & _ & -> & ->).
    destruct (yield_choice_spec _ _ _ Hch) as (Hcur & _). rewrite Hc in Hcur. subst curr.
    exists n. split; [done|]. apply perform_switch_current in Hrun; [|done]. by rewrite Hrun.
  - destruct Hp as [-> ->]. unfold perform_switch, no_switch in Hrun. simpl in Hrun.
    unfold kret in Hrun. by simplify_eq.
Qed.

Lemma waiting_bound (n : nat) (ks ks' : nat -> Kernel) (T c0 : N) :
  T < MAX_TASKS -> current_idx (k_sched (ks 0%nat)) = Some c0 ->
  (forall i, (i < n)%nat ->
     kernel_wf (ks i) /\ is_Some (current_idx (k_sched (ks i))) /\
     yield_switch (ks i) = Ret (true, ks' i) /\ ready_at (k_sched (ks i)) T = true /\
     s_current_task_id (k_sched (ks' i)) <> Some T /\
     ((S i < n)%nat -> s_current_task_id (k_sched (ks (S i))) = s_current_task_id (k_sched (ks' i)))) ->
  N.of_nat n <= rr_dist c0 T.
Proof.
  intros HT. revert ks ks' c0. induction n as [|n IH]; intros ks ks' c0 Hc0 Hstep; [lia|].
  destruct (Hstep 0%nat ltac:(lia)) as (Hwf & _ & Hy & Hr & Hne & Hlink).
  destruct (yield_switch_choice _ _ _ Hwf Hc0 Hy) as (m & Hch & Hcur).
  destruct (yield_choice_spec _ _ _ Hch) as (_ & _ & Hm & _ & Hmin).
  specialize (Hmin c0 T eq_refl HT Hr). pose proof Hc0 as (_ & Hlt & _)%current_idx_Some.
  assert (m <> T) as HmT by (intros ->; by rewrite Hcur in Hne).
  pose proof (rr_dist_step c0 m T Hlt Hm HT HmT Hmin) as Hdec.
  destruct n as [|n]; [lia|].
  destruct (Hstep 1%nat ltac:(lia)) as (_ & [c1 Hc1] & _).
  assert (c1 = m) as ->.
  { apply current_idx_Some in Hc1 as (Hc1 & _). rewrite Hlink, Hcur in Hc1 by lia. by simplify_eq. }
  pose proof (IH (fun i => ks (S i)) (fun i => ks' (S i)) m Hc1) as Hb.
  assert (N.of_nat (S n) <= rr_dist m T); [|lia].
  apply Hb. intros i Hi. destruct (Hstep (S i) ltac:(lia)) as (? & ? & ? & ? & ? & Hl).
  split_and!; try done. intros ?. apply Hl. lia.
Qed.

(** *** Exits and faults *)

(** The machine after a task exits and [n] is resumed. *)
Lemma perform_switch_dummy k k1 d n tn cn rn ret_addr :
  stacks_fit -> d < MAX_TASKS -> n < MAX_TASKS -> d <> n -> on_stack_of k d ->
  suspended k n cn rn -> k_machine k1 = k_machine k ->
  (exists t, task_slot (k_sched k) n = Some t /\ t_rsp t = t_rsp tn) ->
  wp (perform_switch ret_addr (fun k => k) (mkPlan (Some SaveDummy) (t_rsp tn) (t_kstack_top tn) (t_cr3 tn)))
    (fun b k' => b = true /\ (exists mc, k' = set_k_machine mc k1) /\
       resumes_as cn rn (t_rsp tn + 64) (k_cpu k') /\
       (t_kstack_top tn <> 0 -> tss_rsp0 (k_cpu k') = t_kstack_top tn) /\
       (forall x, x < stack_lo d \/ stack_hi d <= x -> mem_rd (k_mem k') x = mem_rd (k_mem k) x)) k1.
Proof.
  intros Hfit Hd Hn Hdn Hon Hsus Hmach (t & Ht & Hrsp).
  set (plan := mkPlan (Some SaveDummy) (t_rsp tn) (t_kstack_top tn) (t_cr3 tn)).
  pose proof (switch_machine k d n cn rn ret_addr plan t Hfit Hd Hn Hdn Hon Hsus Ht (eq_sym Hrsp)) as Hm.
  destruct (load_task_context_spaces plan (k_cpu k)) as [Htss _].
  assert (0 < t_rsp tn) as Hpos by (destruct Hsus as (t' & ? & ? & _); congruence).
  unfold perform_switch. simpl pl_save. simpl pl_rsp. rewrite (proj2 (N.eqb_neq _ _)) by lia.
  apply wp_kbind, wp_kmod, wp_kbind, wp_kmod, wp_kbind, wp_kmod. ksimp. rewrite Hmach. revert Hm. cbv zeta.
  rewrite Hrsp. destruct (call_switch_context ret_addr (t_rsp tn) _) as [old mc'].
  intros (Hres & _ & _ & _ & _ & _ & Hsame & _ & Hts). apply wp_kret. split; [done|]. split.
  { exists mc'. unfold save_rsp. by destruct k1. }
  ksimp. split; [done|]. split; [|done]. intros Hk. by rewrite Hts, Htss.
Qed.

(** The table after a fault of task [d]. *)
Definition after_fault (d : N) (frame : ExceptionFrame) (s : Scheduler) : Scheduler :=
  buried d (get_task_mut s d (set_t_fault_registers (Some frame))).

Lemma after_fault_slot d frame s i :
  sched_wf s ->
  task_slot (after_fault d frame s) i =
    if decide (d = i) then set_t_state Terminated <$> (set_t_fault_registers (Some frame) <$> task_slot s i)
    else wake_sender d <$> task_slot s i.
Proof.
  intros Hs. unfold after_fault. rewrite buried_slot, get_task_mut_slot by done.
  by destruct (decide (d = i)).
Qed.

Lemma fault_registers_wf d frame s :
  sched_wf s -> sched_wf (get_task_mut s d (set_t_fault_registers (Some frame))).
Proof. intros Hs. apply get_task_mut_wf; [done|]. intros t []. by split. Qed.

(** Everything up to the switch. *)
Definition fault_kernel (frame : ExceptionFrame) (d : N) (a : Ambient) (k : Kernel) : Kernel :=
  on_machine (on_cpu cli)
    (on_sched (fun s => get_task_mut s d (set_t_fault_registers (Some frame)))
      (set_k_amb a (set_k_faults_caught (wadd64 (k_faults_caught k) 1) k))).

Lemma exception_dispatch_steps frame vector k d (Q : bool -> Kernel -> Prop) :
  kernel_wf k -> s_current_task_id (k_sched k) = Some d ->
  (forall a, traced (k_amb k) a ->
     wp (let* plan := terminate_plan in perform_switch terminate_resume (fun k => k) plan) Q
       (fault_kernel frame d a k)) ->
  wp (exception_dispatch frame vector) Q k.
Proof.
  intros [Hs Hl Ha] Hcur HQ. unfold exception_dispatch, kupdate_task.
  apply wp_kbind, wp_kmod, wp_kbind, wp_ktrace. ksimp. intros a Htr.
  apply wp_kbind, wp_lock_sched; [done|]. apply wp_kbind, wp_kget. ksimp. rewrite Hcur.
  apply wp_kbind, wp_unlock_sched, wp_kbind, wp_lock_sched; [done|].
  apply wp_kbind, wp_kmod, wp_kbind, wp_unlock_sched, wp_kbind, wp_kmod. ksimp.
  specialize (HQ a Htr). unfold fault_kernel in HQ. unfold on_machine, on_sched in HQ.
  destruct k. simpl in *. subst. exact HQ.
Qed.

(** Who can run after task [d] exits: the ready tasks and the senders that were
    blocked on it. *)
Lemma buried_ready d s i :
  ready_at (buried d s) i = true <->
  i <> d /\ exists t, task_slot s i = Some t /\
    (t_state t = Ready \/ t_state t = BlockedOnSend d).
Proof.
  rewrite ready_at_true, buried_slot. destruct (decide (d = i)) as [<-|Hne].
  - split; [|naive_solver]. intros (t & Ht & Hst). destruct (task_slot s d); by simplify_eq/=.
  - destruct (task_slot s i) as [t|]; simpl; [|naive_solver]. unfold wake_sender.
    destruct (state_is (BlockedOnSend d) t) eqn:Hb.
    + apply state_is_true in Hb. split; [|intros _; eexists; split; [done|done]].
      intros _. split; [done|]. eauto.
    + apply state_is_false in Hb. naive_solver.
Qed.
End main.
