(* ===== verification/Spawn.v ===== *)
(** * Task creation

    Models [Task::new] and [Task::new_user] of [kernel/process/mod.rs]: the
    control block, and the stack frame that makes the first context switch
    into the task start it.  The results follow a fresh task through
    [switch_context] and the two trampolines to its first instruction. *)

From S2P Require Import Prelude Ring Preempt Trace Capability AuditTrail Message Machine Frames.
From S2P Require Import Task Scheduler Kernel Switch Scheduling.
Local Open Scope N_scope.

(** Segment selectors of [kernel/arch/x86_64/gdt.rs]. *)
Definition KERNEL_CODE : N := 0x08.
Definition KERNEL_DATA : N := 0x10.
Definition USER_CODE : N := N.lor 0x18 3.
Definition USER_DATA : N := N.lor 0x20 3.

Section spawn.
Context `{L : Layout}.

(** [rsp -= 8; *(rsp as *mut usize) = val;] *)
Definition stack_push (rsp val : N) : K N :=
  let* sp := klift (sub64 rsp 8) in
  do* kmod (on_machine (fun mc => set_mc_mem (mem_wr (mc_mem mc) sp val) mc)) in
  kret sp.

(** [for _ in 0..n { push(0) }]. *)
Fixpoint push_zeros (n : nat) (rsp : N) : K N :=
  match n with
  | O => kret rsp
  | S n' => let* sp := stack_push rsp 0 in push_zeros n' sp
  end.

Definition bump_tasks_spawned : K unit :=
  kmod (fun k => set_k_tasks_spawned (wadd64 (k_tasks_spawned k) 1) k).

(** [&TASK_STACKS[idx] as usize + STACK_SIZE]. *)
Definition stack_top (i : N) : outcome N := add64 (task_stacks + i * STACK_SIZE) STACK_SIZE.

Definition Task_new (id : TaskId) (entry : N) (cap_table : CapTable) : K Task :=
  do* bump_tasks_spawned in
  let i := id in
  if negb (i <? MAX_TASKS) then klift Panic
  else
    let* top := klift (stack_top i) in
    let* rsp := stack_push top 0 in
    let* rsp := stack_push rsp kernel_task_trampoline in
    let* rsp := stack_push rsp 0x202 in
    let* rsp := push_zeros 5 rsp in
    let* rsp := stack_push rsp entry in
    let* cr3 := kget (fun k => current_pml4_paddr (k_cpu k)) in
    kret (mkTask id Ready rsp top cr3 cap_table None MessageQueue_new None).

Definition Task_new_user (id : TaskId) (entry_vaddr user_stack_top cr3 : N) (cap_table : CapTable)
  : K Task :=
  do* bump_tasks_spawned in
  let i := id in
  if negb (i <? MAX_TASKS) then klift Panic
  else
    let* kstack_top := klift (stack_top i) in
    let* rsp := stack_push kstack_top USER_DATA in
    let* rsp := stack_push rsp user_stack_top in
    let* rsp := stack_push rsp 0x202 in
    let* rsp := stack_push rsp USER_CODE in
    let* rsp := stack_push rsp entry_vaddr in
    let* rsp := stack_push rsp iret_to_user in
    let* rsp := stack_push rsp 0x202 in
    let* rsp := push_zeros 6 rsp in
    kret (mkTask id Ready rsp kstack_top cr3 cap_table None MessageQueue_new None).

(** ** What creation writes *)

(** The words of a list, pushed in order below [top]. *)
Fixpoint mem_pushes (m : Mem) (top : N) (ws : list N) : Mem :=
  match ws with
  | [] => m
  | w :: ws' => mem_pushes (mem_wr m (top - 8) w) (top - 8) ws'
  end.

Definition set_mem (m : Mem) (k : Kernel) : Kernel := on_machine (set_mc_mem m) k.

Lemma wp_stack_push rsp v (Q : N -> Kernel -> Prop) k :
  8 <= rsp -> Q (rsp - 8) (set_mem (mem_wr (k_mem k) (rsp - 8) v) k) -> wp (stack_push rsp v) Q k.
Proof.
  intros Hr HQ. unfold stack_push. apply wp_kbind. eapply wp_klift; [by apply sub64_ok|].
  apply wp_kbind, wp_kmod, wp_kret. exact HQ.
Qed.

Lemma mem_pushes_app ws1 ws2 m top :
  mem_pushes m top (ws1 ++ ws2) = mem_pushes (mem_pushes m top ws1) (top - 8 * lenN ws1) ws2.
Proof.
  revert m top. induction ws1 as [|w ws1 IH]; intros m top; simpl.
  - f_equal. unfold lenN. simpl. lia.
  - rewrite IH. f_equal. unfold lenN. simpl. lia.
Qed.

Lemma mem_pushes_outside ws m top a :
  8 * lenN ws <= top -> a < top - 8 * lenN ws \/ top <= a ->
  mem_rd (mem_pushes m top ws) a = mem_rd m a.
Proof.
  revert m top. induction ws as [|w ws IH]; intros m top Htop Ha; simpl; [done|].
  assert (lenN (w :: ws) = 1 + lenN ws) as Hl by (unfold lenN; simpl; lia). rewrite Hl in *.
  rewrite IH by lia. apply mem_rd_wr_ne. lia.
Qed.

(** Reading back pushed words: word [j] is [8 * (j + 1)] below the top. *)
Lemma mem_pushes_word ws m top j w :
  8 * lenN ws <= top -> idx ws j = Some w -> mem_rd (mem_pushes m top ws) (top - 8 * (j + 1)) = w.
Proof.
  intros Htop Hj. pose proof (idx_lt _ _ _ Hj) as Hlt. rewrite idx_lookup in Hj.
  apply list_elem_of_split_length in Hj as (ws1 & ws2 & -> & Hlen).
  rewrite lenN_app in Htop, Hlt. assert (lenN (w :: ws2) = 1 + lenN ws2) as Hl by (unfold lenN; simpl; lia).
  rewrite Hl in *. assert (j = lenN ws1) as -> by (unfold lenN; lia).
  rewrite mem_pushes_app. cbn [mem_pushes].
  replace (top - 8 * lenN ws1 - 8) with (top - 8 * (lenN ws1 + 1)) by lia.
  rewrite mem_pushes_outside by lia. apply mem_rd_wr_eq.
Qed.

(** The frame of a fresh kernel task, in push order. *)
Definition kernel_frame (entry : N) : list N :=
  [0; kernel_task_trampoline; 0x202; 0; 0; 0; 0; 0; entry].

(** ... and of a fresh user task. *)
Definition user_frame (entry_vaddr user_stack_top : N) : list N :=
  [USER_DATA; user_stack_top; 0x202; USER_CODE; entry_vaddr; iret_to_user; 0x202; 0; 0; 0; 0; 0; 0].

Lemma set_mem_set_mem m m' k : set_mem m (set_mem m' k) = set_mem m k.
Proof. by destruct k as [? ? ? ? ? ? ? ? [] ? ? ? ?]. Qed.

Lemma k_mem_set_mem m k : k_mem (set_mem m k) = m.
Proof. done. Qed.

Lemma stack_top_ok i : stacks_fit -> i < MAX_TASKS -> stack_top i = Ret (stack_hi i).
Proof. intros Hfit Hi. apply add64_ok. by apply stack_hi_fits. Qed.

Lemma stack_hi_ge i : STACK_SIZE <= stack_hi i.
Proof. unfold stack_hi. lia. Qed.

Definition spawned (m : Mem) (k : Kernel) : Kernel :=
  set_mem m (set_k_tasks_spawned (wadd64 (k_tasks_spawned k) 1) k).

Lemma Task_new_spec i entry ct k :
  stacks_fit -> i < MAX_TASKS ->
  Task_new i entry ct k =
    Ret (mkTask i Ready (stack_hi i - 72) (stack_hi i) (current_pml4_paddr (k_cpu k)) ct None
           MessageQueue_new None,
         spawned (mem_pushes (k_mem k) (stack_hi i) (kernel_frame entry)) k).
Proof.
  intros Hfit Hi. pose proof (stack_hi_ge i) as Hge. unfold STACK_SIZE in Hge.
  assert (wp (Task_new i entry ct) (fun t k' =>
    t = mkTask i Ready (stack_hi i - 72) (stack_hi i) (current_pml4_paddr (k_cpu k)) ct None
           MessageQueue_new None /\
    k' = spawned (mem_pushes (k_mem k) (stack_hi i) (kernel_frame entry)) k) k) as Hw.
  { unfold Task_new. apply wp_kbind, wp_kmod. rewrite (proj2 (N.ltb_lt _ _) Hi). cbn [negb].
    apply wp_kbind. eapply wp_klift; [by apply stack_top_ok|]. cbn [push_zeros].
    do 3 (apply wp_kbind, wp_stack_push; [lia|]; rewrite ?set_mem_set_mem, ?k_mem_set_mem). apply wp_kbind.
    do 5 (apply wp_kbind, wp_stack_push; [lia|]; rewrite ?set_mem_set_mem, ?k_mem_set_mem). apply wp_kret.
    apply wp_kbind, wp_stack_push; [lia|]. apply wp_kbind, wp_kget, wp_kret.
    rewrite set_mem_set_mem, k_mem_set_mem. split; [f_equal; lia|].
    unfold spawned. f_equal. }
  apply wp_run in Hw as (t & k' & Hrun & -> & ->). done.
Qed.

Lemma Task_new_user_spec i entry ustack cr3 ct k :
  stacks_fit -> i < MAX_TASKS ->
  Task_new_user i entry ustack cr3 ct k =
    Ret (mkTask i Ready (stack_hi i - 104) (stack_hi i) cr3 ct None MessageQueue_new None,
         spawned (mem_pushes (k_mem k) (stack_hi i) (user_frame entry ustack)) k).
Proof.
  intros Hfit Hi. pose proof (stack_hi_ge i) as Hge. unfold STACK_SIZE in Hge.
  assert (wp (Task_new_user i entry ustack cr3 ct) (fun t k' =>
    t = mkTask i Ready (stack_hi i - 104) (stack_hi i) cr3 ct None MessageQueue_new None /\
    k' = spawned (mem_pushes (k_mem k) (stack_hi i) (user_frame entry ustack)) k) k) as Hw.
  { unfold Task_new_user. apply wp_kbind, wp_kmod. rewrite (proj2 (N.ltb_lt _ _) Hi). cbn [negb].
    apply wp_kbind. eapply wp_klift; [by apply stack_top_ok|]. cbn [push_zeros].
    do 7 (apply wp_kbind, wp_stack_push; [lia|]; rewrite ?set_mem_set_mem, ?k_mem_set_mem). apply wp_kbind.
    do 6 (apply wp_kbind, wp_stack_push; [lia|]; rewrite ?set_mem_set_mem, ?k_mem_set_mem). apply wp_kret, wp_kret. split; [f_equal; lia|].
    unfold spawned. f_equal. }
  apply wp_run in Hw as (t & k' & Hrun & -> & ->). done.
Qed.

Lemma Task_new_inv i entry ct k t k' :
  stacks_fit -> i < MAX_TASKS -> Task_new i entry ct k = Ret (t, k') ->
  t = mkTask i Ready (stack_hi i - 72) (stack_hi i) (current_pml4_paddr (k_cpu k)) ct None
        MessageQueue_new None /\
  k' = spawned (mem_pushes (k_mem k) (stack_hi i) (kernel_frame entry)) k.
Proof. intros Hfit Hi. rewrite Task_new_spec by done. by intros [= <- <-]. Qed.

Lemma Task_new_user_inv i entry ustack cr3 ct k t k' :
  stacks_fit -> i < MAX_TASKS -> Task_new_user i entry ustack cr3 ct k = Ret (t, k') ->
  t = mkTask i Ready (stack_hi i - 104) (stack_hi i) cr3 ct None MessageQueue_new None /\
  k' = spawned (mem_pushes (k_mem k) (stack_hi i) (user_frame entry ustack)) k.
Proof. intros Hfit Hi. rewrite Task_new_user_spec by done. by intros [= <- <-]. Qed.

(** The registers a fresh task starts with. *)
Definition fresh_cpu (r15 : N) (c : Cpu) : Cpu :=
  mkCpu 0 0 0 0 0 0 r15 0x202 0 (r_cs c) (r_ss c) (r_cr3 c) (tss_rsp0 c).

Lemma idx_8 {A} (l : list A) i v : idx l i = Some v -> lenN l = 8 ->
  i = 0 \/ i = 1 \/ i = 2 \/ i = 3 \/ i = 4 \/ i = 5 \/ i = 6 \/ i = 7.
Proof. intros Hi%idx_lt Hl. lia. Qed.

Lemma kernel_frame_words m i entry c :
  holds_words (mem_pushes m (stack_hi i) (kernel_frame entry)) (stack_hi i - 72)
    (frame_words (fresh_cpu entry c) kernel_task_trampoline).
Proof.
  intros j v Hj. pose proof (stack_hi_ge i) as Hge. unfold STACK_SIZE in Hge.
  assert (8 * lenN (kernel_frame entry) <= stack_hi i) as Hl by (change (lenN _) with 9; lia).
  assert (j < 8) as Hj8 by exact (idx_lt _ _ _ Hj).
  replace (stack_hi i - 72 + 8 * j) with (stack_hi i - 8 * ((8 - j) + 1)) by lia.
  pose proof (idx_8 _ _ _ Hj eq_refl) as Hc.
  apply mem_pushes_word; [done|]. repeat destruct Hc as [->|Hc]; subst; injection Hj as <-; reflexivity.
Qed.

Lemma user_frame_words m i entry ustack c :
  holds_words (mem_pushes m (stack_hi i) (user_frame entry ustack)) (stack_hi i - 104)
    (frame_words (fresh_cpu 0 c) iret_to_user).
Proof.
  intros j v Hj. pose proof (stack_hi_ge i) as Hge. unfold STACK_SIZE in Hge.
  assert (8 * lenN (user_frame entry ustack) <= stack_hi i) as Hl by (change (lenN _) with 13; lia).
  assert (j < 8) as Hj8 by exact (idx_lt _ _ _ Hj).
  replace (stack_hi i - 104 + 8 * j) with (stack_hi i - 8 * ((12 - j) + 1)) by lia.
  pose proof (idx_8 _ _ _ Hj eq_refl) as Hc.
  apply mem_pushes_word; [done|]. repeat destruct Hc as [->|Hc]; subst; injection Hj as <-; reflexivity.
Qed.

Lemma user_iret_words m i entry ustack :
  holds_words (mem_pushes m (stack_hi i) (user_frame entry ustack)) (stack_hi i - 40)
    [entry; USER_CODE; 0x202; ustack; USER_DATA].
Proof.
  intros j v Hj. pose proof (stack_hi_ge i) as Hge. unfold STACK_SIZE in Hge.
  assert (8 * lenN (user_frame entry ustack) <= stack_hi i) as Hl by (change (lenN _) with 13; lia).
  assert (j < 5) as Hj5 by exact (idx_lt _ _ _ Hj).
  replace (stack_hi i - 40 + 8 * j) with (stack_hi i - 8 * ((4 - j) + 1)) by lia.
  assert (j = 0 \/ j = 1 \/ j = 2 \/ j = 3 \/ j = 4) as Hc by lia.
  apply mem_pushes_word; [done|]. repeat destruct Hc as [->|Hc]; subst; injection Hj as <-; reflexivity.
Qed.

(** ** First run *)

(** A task created in slot [i] is suspended at its trampoline. *)
Lemma Task_new_suspended i entry ct k t k' c :
  stacks_fit -> i < MAX_TASKS -> i < lenN (s_tasks (k_sched k)) ->
  Task_new i entry ct k = Ret (t, k') ->
  suspended (on_sched (put_slot i (Some t)) k') i (fresh_cpu entry c) kernel_task_trampoline.
Proof.
  intros Hfit Hi Hlen Hrun. apply Task_new_inv in Hrun as [-> ->]; [|done..].
  pose proof (stack_hi_ge i) as Hge. pose proof (stack_hi_fits i Hfit Hi).
  assert (stack_hi i = stack_lo i + STACK_SIZE) as Hhi by done.
  assert (STACK_SIZE = 32768) as HSZ by done. assert (0 < stack_lo i) by (destruct Hfit; unfold stack_lo; lia).
  eexists. split; [unfold spawned; ksimp; rewrite task_slot_put by done; by rewrite decide_True|].
  cbn [t_rsp]. split; [lia|]. split; [lia|]. split; [lia|]. apply kernel_frame_words.
Qed.

(** The kernel trampoline, entered with a fresh task's registers. *)
Lemma trampoline_enters mc entry c0 sp :
  resumes_as (fresh_cpu entry c0) kernel_task_trampoline sp (mc_cpu mc) ->
  r_rip (mc_cpu (run_trampoline mc)) = entry /\
  interrupts_enabled (mc_cpu (run_trampoline mc)) = true /\
  r_rsp (mc_cpu (run_trampoline mc)) = sp.
Proof.
  intros [Hrip Hrsp _ _ _ _ _ Hr15 Hfl]. destruct mc as [c m]. simpl in *. split; [done|].
  split; [|done]. rewrite interrupts_enabled_bit. simpl. by rewrite Hfl.
Qed.

(** [iretq] pops the five words at the stack pointer. *)
Lemma iretq_enters mc rip cs rflags rsp ss :
  r_rsp (mc_cpu mc) + 40 < u64_limit ->
  holds_words (mc_mem mc) (r_rsp (mc_cpu mc)) [rip; cs; rflags; rsp; ss] ->
  let c := mc_cpu (run_iretq mc) in
  r_rip c = rip /\ r_cs c = cs /\ r_rflags c = rflags /\ r_rsp c = rsp /\ r_ss c = ss.
Proof.
  intros Hlim Hw. destruct mc as [c m]. set (sp := r_rsp c) in *. simpl in Hlim, Hw. fold sp in Hlim, Hw.
  pose proof (Hw 0 rip eq_refl) as W0. pose proof (Hw 1 cs eq_refl) as W1.
  pose proof (Hw 2 rflags eq_refl) as W2. pose proof (Hw 3 rsp eq_refl) as W3.
  pose proof (Hw 4 ss eq_refl) as W4.
  assert (wadd64 sp 8 = sp + 8 * 1) as A1 by (rewrite wadd64_small; lia).
  assert (wadd64 (sp + 8 * 1) 8 = sp + 8 * 2) as A2 by (rewrite wadd64_small; lia).
  assert (wadd64 (sp + 8 * 2) 8 = sp + 8 * 3) as A3 by (rewrite wadd64_small; lia).
  assert (wadd64 (sp + 8 * 3) 8 = sp + 8 * 4) as A4 by (rewrite wadd64_small; lia).
  rewrite N.mul_0_r, N.add_0_r in W0.
  unfold run_iretq, pop. cbn [mc_cpu mc_mem r_rsp set_r_rsp]. fold sp.
  rewrite A1, A2, A3, A4, W0, W1, W2, W3, W4. done.
Qed.

(** Creating a task disturbs no other task's suspended context. *)
Lemma mem_pushes_others ws m i j cj rj k sj :
  i <> j -> 8 * lenN ws <= STACK_SIZE -> k_mem k = m ->
  suspended k j cj rj -> task_slot sj j = task_slot (k_sched k) j ->
  suspended (set_k_sched sj (set_mem (mem_pushes m (stack_hi i) ws) k)) j cj rj.
Proof.
  intros Hij Hws <- (t & Ht & Hpos & Hlo & Hhi & Hw) Hsj. exists t. unfold set_mem. ksimp.
  rewrite Hsj. split; [done|]. split; [done|]. split; [done|]. split; [done|].
  pose proof (stack_hi_ge i) as Hge. pose proof (stacks_disjoint i j Hij) as Hdis.
  eapply (holds_words_frame _ _ _ _ (stack_lo i) (stack_hi i)); [exact Hw| |].
  - intros x Hx. simpl. unfold k_mem. apply mem_pushes_outside; [lia|]. unfold stack_hi in *. lia.
  - change (8 * lenN _) with 64. lia.
Qed.
End spawn.
