(* ===== verification/Contexts.v ===== *)
(** * Main results on scheduling and contexts

    The properties of [Switch] and [Spawn] that the rest of the system relies
    on: a voluntary switch returns to its caller with the registers it left, a
    fresh task starts where it should, no ready task waits for ever, and a
    faulting task takes nothing else down. *)

From S2P Require Import Prelude Ring Preempt Trace Capability AuditTrail Message Machine Frames.
From S2P Require Import Task Scheduler Kernel Switch Scheduling Spawn.
Local Open Scope N_scope.

(** ** Example system *)

Definition example_layout : Layout := {|
  task_stacks := 0xffffffff80200000;
  kernel_task_trampoline := 0xffffffff80001000;
  iret_to_user := 0xffffffff80001010;
  yield_resume := 0xffffffff80002000;
  preempt_resume := 0xffffffff80003000;
  terminate_resume := 0xffffffff80004000;
  hhdm_response := Some 0xffff800000000000
|}.

Lemma example_stacks_fit : stacks_fit (L := example_layout).
Proof. done. Qed.

(** A kernel task created in slot [i] and made current or ready. *)
Definition spawn_example (i : N) (st : TaskState) (k : Kernel) : Kernel :=
  match Task_new (L := example_layout) i (0x1000 * (i + 1)) CapTable_new k with
  | Ret (t, k') => on_sched (put_slot i (Some (set_t_state st t))) k'
  | _ => k
  end.

(** Tasks 1, 2 and 3; task 1 runs on its own stack with interrupts on. *)
Definition example_run : Kernel :=
  on_machine (on_cpu (fun c => set_r_rflags 0x202 (set_r_rbx 7 (set_r_rsp (0xffffffff80200000 + 2 * 32768 - 256) c))))
    (set_current 1
      (spawn_example 3 Ready (spawn_example 2 Ready (spawn_example 1 Running Kernel_init)))).

Lemma spawn_example_wf i st k : i < MAX_TASKS -> kernel_wf k -> kernel_wf (spawn_example i st k).
Proof.
  intros Hi [Hs Hl Ha]. unfold spawn_example.
  rewrite Task_new_spec by (done || apply example_stacks_fit). split; unfold spawned, set_mem; ksimp; [|done..].
  apply put_slot_wf; [done|]. intros t ?. simplify_eq. split; [done|]. split; [done|apply MessageQueue_new_wf].
Qed.

Lemma example_run_wf : kernel_wf example_run.
Proof.
  apply cli_kernel_wf, set_current_wf. repeat (apply spawn_example_wf; [done|]). apply Kernel_init_wf.
Qed.

Section results.
Context `{L : Layout}.

(** ** Voluntary switches *)

(** C15: A voluntary switch is transparent to its caller.  Let task [c] call
    [yield_cpu] while task [n] is the round-robin choice and is suspended.  The
    call pauses; the processor is now in [n] exactly as [n] was suspended, on
    [n]'s kernel stack and address space, [n] is the one running task, and
    every other suspended task is undisturbed.  Later, from any kernel state
    in which [c]'s frame still stands and a yield of the then-current task [m]
    chooses [c], the call returns to [c] with the stack pointer, callee-saved
    registers and flags, interrupt flag included, that [c] had when it called. *)
Theorem yield_round_trip k c n tn cn rn :
  kernel_wf k -> stacks_fit -> yield_choice (k_sched k) = Some (Some c, n) ->
  on_stack_of k c -> suspended k n cn rn -> task_slot (k_sched k) n = Some tn ->
  exists k1 resume, yield_cpu k = Ret (Paused resume, k1) /\
    switched k c n tn (cli (k_cpu k)) cn yield_resume rn k1 /\
    forall k2 m tc,
      kernel_wf k2 -> yield_choice (k_sched k2) = Some (Some m, c) -> on_stack_of k2 m ->
      suspended k2 c (cli (k_cpu k)) yield_resume -> task_slot (k_sched k2) c = Some tc ->
      t_rsp tc + 64 = r_rsp (k_cpu k) ->
      exists k3 resume2, yield_cpu k2 = Ret (Paused resume2, k3) /\
        r_rip (k_cpu k3) = yield_resume /\
        exists k4, resume k3 = Ret (Done tt, k4) /\
          resumes_as (k_cpu k) yield_resume (r_rsp (k_cpu k)) (k_cpu k4).
Proof.
  intros Hk Hfit Hch Hon Hsus Htn.
  destruct (yield_cpu_switches k c n tn cn rn Hk Hfit Hch Hon Hsus Htn) as (k1 & Hrun & Hsw).
  eexists k1, _. split; [exact Hrun|]. split; [done|].
  intros k2 m tc Hk2 Hch2 Hon2 Hsus2 Htc Hrsp.
  destruct (yield_cpu_switches k2 m c tc _ _ Hk2 Hfit Hch2 Hon2 Hsus2 Htc) as (k3 & Hrun2 & Hsw2).
  pose proof (sw_resumed _ _ _ _ _ _ _ _ _ Hsw2) as Hres. rewrite Hrsp in Hres.
  eexists k3, _. split; [exact Hrun2|]. split; [apply Hres|]. eexists. split; [done|].
  pose proof (restore_cli (k_cpu k)) as Hcli. destruct Hres as [? ? ? ? ? ? ? ? Hfl].
  unfold restore_interrupts. destruct (interrupts_enabled (k_cpu k)); unfold k_cpu in *.
  - split; try done. cbn. rewrite Hfl. rewrite <- Hcli at 2. done.
  - split; try done. rewrite Hfl. by rewrite Hcli.
Qed.

(** Yielding alone changes nothing.  When no other task is ready,
    [yield_cpu] returns at once and the kernel and machine state are exactly
    as before. *)
Theorem yield_alone k :
  kernel_wf k -> yield_choice (k_sched k) = None -> yield_cpu k = Ret (Done tt, k).
Proof. apply yield_cpu_alone. Qed.

(** C16: Waiting is bounded.  Consider successive yields of running tasks, each
    of which switches to another task, with the current task unchanged between
    one switch and the next yield.  A task that is ready at each of these
    yields cannot be passed over 132 times: the number of turns it loses is at
    most its round-robin distance from the first current task. *)
Theorem bounded_waiting (n : nat) (ks ks' : nat -> Kernel) (T c0 : N) :
  T < MAX_TASKS -> current_idx (k_sched (ks 0%nat)) = Some c0 ->
  (forall i, (i < n)%nat ->
     kernel_wf (ks i) /\ is_Some (current_idx (k_sched (ks i))) /\
     yield_switch (ks i) = Ret (true, ks' i) /\ ready_at (k_sched (ks i)) T = true /\
     s_current_task_id (k_sched (ks' i)) <> Some T /\
     ((S i < n)%nat -> s_current_task_id (k_sched (ks (S i))) = s_current_task_id (k_sched (ks' i)))) ->
  N.of_nat n <= rr_dist c0 T /\ rr_dist c0 T < MAX_TASKS.
Proof.
  intros HT Hc Hsteps. split; [by eapply waiting_bound|apply rr_dist_lt].
Qed.

(** ** First runs *)

(** A fresh kernel task starts at its entry point.  The first switch into a
    task made by [Task::new], from the stack of any other task, reaches the
    trampoline, which enters the task's entry function with interrupts
    enabled, on the task's own stack, aligned as the ABI requires of a
    function entry when the stacks are 16-byte aligned. *)
Theorem fresh_kernel_task_starts k i entry ct t k' d ret_addr :
  stacks_fit -> i < MAX_TASKS -> d < MAX_TASKS -> d <> i -> on_stack_of k d ->
  Task_new i entry ct k = Ret (t, k') ->
  let mc := (call_switch_context ret_addr (t_rsp t) (k_machine k')).2 in
  let c := mc_cpu (run_trampoline mc) in
  r_rip (mc_cpu mc) = kernel_task_trampoline /\
  r_rip c = entry /\ interrupts_enabled c = true /\ r_rsp c = t_kstack_top t - 8 /\
  stack_lo i <= r_rsp c < stack_hi i /\ (task_stacks mod 16 = 0 -> (r_rsp c + 8) mod 16 = 0).
Proof.
  intros Hfit Hi Hd Hdi [Hlo Hhi] Hrun mc c. apply Task_new_inv in Hrun as [-> ->]; [|done..].
  pose proof (stack_hi_ge i) as Hge. pose proof (stack_hi_fits i Hfit Hi). pose proof (stack_hi_fits d Hfit Hd).
  pose proof (stacks_disjoint d i Hdi) as Hdis. assert (stack_hi i = stack_lo i + STACK_SIZE) as Hhl by done.
  assert (stack_hi d = stack_lo d + STACK_SIZE) as Hhd by done. assert (STACK_SIZE = 32768) as HSZ by done.
  assert (resumes_as (fresh_cpu entry (mc_cpu (k_machine k))) kernel_task_trampoline (stack_hi i - 72 + 64)
    (mc_cpu mc)) as Hres.
  { apply call_switch_context_resumes; unfold spawned, set_mem, k_cpu in *; ksimp; cbn [t_rsp mc_cpu set_mc_mem mc_mem];
      [lia..|apply kernel_frame_words|lia]. }
  destruct (trampoline_enters _ _ _ _ Hres) as (Hip & Hif & Hsp).
  fold c in Hip, Hif, Hsp. clearbody c. split; [apply Hres|]. clear Hres. clearbody mc.
  rewrite Hsp. split; [done|]. split; [done|]. split; [cbn [t_kstack_top]; lia|].
  split; [lia|]. intros Hal. replace (stack_hi i - 72 + 64 + 8) with (stack_hi i) by lia.
  unfold stack_hi, stack_lo. rewrite HSZ.
  replace (task_stacks + i * 32768 + 32768) with (task_stacks + (i * 2048 + 2048) * 16) by lia.
  by rewrite N.Div0.mod_add.
Qed.

(** A fresh user task starts in ring 3.  The first switch into a task made
    by [Task::new_user] reaches the [iretq] trampoline, which enters the user
    entry point with the user code and stack selectors (requested privilege
    level 3), the given user stack and interrupts enabled. *)
Theorem fresh_user_task_starts k i entry ustack cr3 ct t k' d ret_addr :
  stacks_fit -> i < MAX_TASKS -> d < MAX_TASKS -> d <> i -> on_stack_of k d ->
  Task_new_user i entry ustack cr3 ct k = Ret (t, k') ->
  let mc := (call_switch_context ret_addr (t_rsp t) (k_machine k')).2 in
  let c := mc_cpu (run_iretq mc) in
  r_rip (mc_cpu mc) = iret_to_user /\
  r_rip c = entry /\ r_cs c = 0x1b /\ r_ss c = 0x23 /\ r_rsp c = ustack /\
  interrupts_enabled c = true /\ t_cr3 t = cr3 /\ t_kstack_top t = stack_hi i.
Proof.
  intros Hfit Hi Hd Hdi [Hlo Hhi] Hrun mc c. apply Task_new_user_inv in Hrun as [-> ->]; [|done..].
  pose proof (stack_hi_ge i) as Hge. pose proof (stack_hi_fits i Hfit Hi). pose proof (stack_hi_fits d Hfit Hd).
  pose proof (stacks_disjoint d i Hdi) as Hdis. assert (stack_hi i = stack_lo i + STACK_SIZE) as Hhl by done.
  assert (stack_hi d = stack_lo d + STACK_SIZE) as Hhd by done. assert (STACK_SIZE = 32768) as HSZ by done.
  set (k' := spawned (mem_pushes (k_mem k) (stack_hi i) (user_frame entry ustack)) k) in *.
  assert (r_rsp (mc_cpu (k_machine k')) = r_rsp (k_cpu k)) as Hsp' by done.
  assert (mc_mem (k_machine k') = mem_pushes (k_mem k) (stack_hi i) (user_frame entry ustack)) as Hm' by done.
  clearbody k'. cbn [t_rsp] in mc.
  assert (resumes_as (fresh_cpu 0 (mc_cpu (k_machine k))) iret_to_user (stack_hi i - 104 + 64) (mc_cpu mc)) as Hres.
  { apply call_switch_context_resumes; rewrite ?Hsp', ?Hm'; cbn [t_rsp]; [lia..|apply user_frame_words|lia]. }
  pose proof (call_switch_context_suspends ret_addr (stack_hi i - 104) (k_machine k')) as Hmem.
  rewrite Hsp' in Hmem. specialize (Hmem ltac:(lia) ltac:(lia) ltac:(lia)).
  fold mc in Hres. destruct (call_switch_context ret_addr (stack_hi i - 104) (k_machine k')) as [old mc0].
  cbn [snd] in mc. subst mc. destruct Hmem as (_ & _ & Hsame). rewrite Hm' in Hsame.
  pose proof (ra_rsp _ _ _ _ Hres) as Hrsp.
  destruct (iretq_enters mc0 entry USER_CODE 0x202 ustack USER_DATA) as (H1 & H2 & H3 & H4 & H5).
  { rewrite Hrsp. lia. }
  { rewrite Hrsp. replace (stack_hi i - 104 + 64) with (stack_hi i - 40) by lia.
    eapply holds_words_frame; [apply user_iret_words|exact Hsame|]. change (8 * lenN _) with 40. lia. }
  fold c in H1, H2, H3, H4, H5. clearbody c.
  split; [apply Hres|]. rewrite interrupts_enabled_bit, H3. done.
Qed.

(** ** Faults *)

(** What a contained fault of task [d] leaves. *)
Record fault_contained_in (k : Kernel) (d : N) (frame : ExceptionFrame) (k' : Kernel) : Prop := {
  fc_dead : exists t, task_slot (k_sched k') d = Some t /\ t_state t = Terminated /\
              t_fault_registers t = Some frame;
  fc_wf : kernel_wf k';
  fc_counts : k_faults_caught k' = wadd64 (k_faults_caught k) 1 /\
              k_tasks_terminated k' = wadd64 (k_tasks_terminated k) 1
}.

(** C17: Faults are contained.  A CPU exception in the running task [d] marks
    [d] terminated with its registers saved, wakes every task that was blocked
    sending to [d], and leaves every other task's control block and suspended
    context as they were; if some task is then ready, the nearest one in
    round-robin order becomes the running task and the processor continues in
    it; otherwise the handler reports that nothing is left to run. *)
Theorem fault_contained k frame vector d t :
  kernel_wf k -> stacks_fit -> s_current_task_id (k_sched k) = Some d ->
  task_slot (k_sched k) d = Some t -> on_stack_of k d ->
  (forall i ti, i <> d -> task_slot (k_sched k) i = Some ti -> exists ci ri, suspended k i ci ri) ->
  exists b k', exception_dispatch frame vector k = Ret (b, k') /\ fault_contained_in k d frame k' /\
    match next_ready_from (after_fault d frame (k_sched k)) ((d + 1) mod MAX_TASKS) with
    | Some n => b = true /\ s_current_task_id (k_sched k') = Some n /\
        (exists cn rn sp, suspended k n cn rn /\ resumes_as cn rn sp (k_cpu k')) /\
        (exists tn, task_slot (k_sched k) n = Some tn /\
           task_slot (k_sched k') n = Some (set_t_state Running (wake_sender d tn))) /\
        (forall i ti, i <> d -> i <> n -> task_slot (k_sched k) i = Some ti ->
           task_slot (k_sched k') i = Some (wake_sender d ti)) /\
        (forall i ci ri, i <> d -> i <> n -> suspended k i ci ri -> suspended k' i ci ri)
    | None => b = false /\
        forall i, task_slot (k_sched k') i = task_slot (after_fault d frame (k_sched k)) i
    end.
Proof.
  intros Hk Hfit Hcur Ht Hon Hall. pose proof Hk as [Hs Hl Ha]. apply wp_run.
  apply exception_dispatch_steps with d; [done..|]. intros a Htr. apply wp_kbind.
  set (k1 := fault_kernel frame d a k).
  assert (task_slot (k_sched k1) d = Some (set_t_fault_registers (Some frame) t)) as Ht1.
  { unfold k1, fault_kernel. ksimp. rewrite get_task_mut_slot by done. rewrite decide_True by done. by rewrite Ht. }
  assert (s_current_task_id (k_sched k1) = Some d) as Hcur1.
  { unfold k1, fault_kernel. ksimp. by rewrite get_task_mut_current. }
  assert (kernel_wf k1) as Hk1 by (split; [by apply fault_registers_wf|done|done]).
  pose proof (task_slot_lt _ _ _ Ht) as Hd. rewrite (sched_wf_len _ Hs) in Hd.
  eapply wp_mono; [by eapply terminate_plan_spec|]. cbv zeta.
  change (buried d (k_sched k1)) with (after_fault d frame (k_sched k)).
  assert (sched_wf (after_fault d frame (k_sched k))) as Hs1 by by apply buried_wf, fault_registers_wf.
  set (s1 := after_fault d frame (k_sched k)) in *.
  assert (exists t', task_slot s1 d = Some t' /\ t_state t' = Terminated /\ t_fault_registers t' = Some frame) as Hdead.
  { eexists. split; [unfold s1; rewrite after_fault_slot by done; rewrite decide_True by done; by rewrite Ht|done]. }
  intros plan k2 Hplan. pose proof (next_ready_spec s1 d Hd) as Hspec.
  destruct (next_ready_from s1 _) as [n|] eqn:Hn.
  - destruct Hplan as (a2 & tn & _ & Htn & -> & ->). destruct Hspec as (Hnlt & Hready & _).
    assert (d <> n) as Hdn. { intros <-. apply buried_ready in Hready as [? _]. done. }
    assert (exists tn0, task_slot (k_sched k) n = Some tn0 /\ tn = wake_sender d tn0) as (tn0 & Htn0 & Htneq).
    { unfold s1 in Htn. rewrite after_fault_slot in Htn by done. rewrite decide_False in Htn by done.
      destruct (task_slot (k_sched k) n) as [tn0|]; [|done]. exists tn0. by simplify_eq/=. }
    destruct (Hall n tn0 ltac:(done) Htn0) as (cn & rn & Hsus).
    assert (t_rsp tn0 = t_rsp tn) as Hrsp. { rewrite Htneq. unfold wake_sender. by case_match. }
    set (k1' := on_machine (on_cpu cli) k).
    eapply wp_mono; [apply (perform_switch_dummy k1' _ d n tn cn rn); try done; by exists tn0|].
    cbv beta. intros b k' (-> & (mc & ->) & Hres & _ & Hmem).
    assert (forall i, task_slot (handoff None n s1) i = if decide (n = i) then set_t_state Running <$> task_slot s1 i
      else task_slot s1 i) as Hslot.
    { intros i. rewrite handoff_slot by done. destruct (decide (n = i)); [done|]. by rewrite decide_False. }
    split.
    { split; ksimp; [..|done].
      - destruct Hdead as (t' & ? & ?). exists t'. rewrite Hslot, decide_False by done. done.
      - split; ksimp; [by apply handoff_wf|done..]. }
    split; [done|]. split; [done|]. split; [exists cn, rn; eauto|]. ksimp. split.
    { exists tn0. split; [done|]. rewrite Hslot, decide_True by done. by rewrite Htn, Htneq. }
    split.
    { intros i ti Hid Hin Hti. rewrite Hslot, decide_False by done. unfold s1.
      rewrite after_fault_slot by done. rewrite decide_False by done. by rewrite Hti. }
    intros i ci ri Hid Hin (ti & Hti & Hpos & Hlo & Hhi & Hw).
    exists (wake_sender d ti). ksimp. split.
    { rewrite Hslot, decide_False by done. unfold s1.
      rewrite after_fault_slot by done. rewrite decide_False by done. by rewrite Hti. }
    assert (t_rsp (wake_sender d ti) = t_rsp ti) as -> by (unfold wake_sender; by case_match).
    split; [done|]. split; [done|]. split; [done|].
    eapply holds_words_frame; [exact Hw|exact Hmem|]. change (8 * lenN _) with 64.
    pose proof (stacks_disjoint d i ltac:(done)). lia.
  - destruct Hplan as [-> ->]. unfold perform_switch. simpl. apply wp_kret.
    split; [|split; [done|done]]. split; ksimp; [done| |done]. by split.
Qed.
End results.

(** ** Instances *)

Definition example_task_at (i : N) : Task :=
  match task_slot (k_sched example_run) i with
  | Some t => t
  | None => example_task i Ready []
  end.

Lemma example_suspended i :
  i = 2 \/ i = 3 ->
  suspended (L := example_layout) example_run i (fresh_cpu (0x1000 * (i + 1)) (k_cpu example_run)) 0xffffffff80001000.
Proof.
  intros [-> | ->]; [exists (example_task_at 2) | exists (example_task_at 3)];
    (split; [vm_compute; reflexivity|]);
    (split; [vm_compute; reflexivity|]); (split; [vm_compute; discriminate|]);
    (split; [vm_compute; discriminate|]); apply check_words_sound; vm_compute; reflexivity.
Qed.

Lemma example_others i t : i <> 1 -> task_slot (k_sched example_run) i = Some t -> i = 2 \/ i = 3.
Proof.
  intros Hi Ht. pose proof (task_slot_lt _ _ _ Ht) as Hlt.
  assert (forallb (fun j => (j =? 1) || (j =? 2) || (j =? 3) || bool_decide (task_slot (k_sched example_run) j = None))
    (rangeN 0 132) = true) as Hall by (vm_compute; reflexivity).
  rewrite forallb_forall in Hall. specialize (Hall i).
  rewrite (sched_wf_len _ (kw_sched _ example_run_wf)) in Hlt. unfold MAX_TASKS in Hlt.
  assert (In i (rangeN 0 132)) as Hin by (apply list_elem_of_In, elem_of_rangeN; lia).
  apply Hall in Hin. rewrite Ht in Hin. repeat (apply orb_true_iff in Hin as [Hin|Hin]);
    [apply N.eqb_eq in Hin; lia..|]. by apply bool_decide_eq_true in Hin.
Qed.

Lemma yield_round_trip_witness :
  exists k1 resume, yield_cpu (L := example_layout) example_run = Ret (Paused resume, k1) /\
    r_rip (k_cpu k1) = 0xffffffff80001000 /\ s_current_task_id (k_sched k1) = Some 2.
Proof.
  destruct (yield_round_trip (L := example_layout) example_run 1 2 (example_task_at 2)
    (fresh_cpu 0x3000 (k_cpu example_run)) 0xffffffff80001000) as (k1 & resume & Hrun & Hsw & _).
  - exact example_run_wf.
  - exact example_stacks_fit.
  - vm_compute. reflexivity.
  - split; vm_compute; discriminate.
  - apply (example_suspended 2). by left.
  - vm_compute. reflexivity.
  - exists k1, resume. split; [exact Hrun|]. split; apply Hsw.
Defined.

Lemma yield_alone_witness :
  yield_cpu (L := example_layout) (set_current 1 (spawn_example 1 Running Kernel_init)) =
    Ret (Done tt, set_current 1 (spawn_example 1 Running Kernel_init)).
Proof.
  apply yield_alone.
  - apply set_current_wf, spawn_example_wf; [done|apply Kernel_init_wf].
  - vm_compute. reflexivity.
Defined.

(** Task 3 loses its first turn to task 2. *)
Lemma bounded_waiting_witness : N.of_nat 1 <= rr_dist 1 3 /\ rr_dist 1 3 < MAX_TASKS.
Proof.
  apply (bounded_waiting (L := example_layout) 1 (fun _ => example_run)
    (fun _ => match yield_switch (L := example_layout) example_run with Ret (_, k1) => k1 | _ => example_run end) 3 1).
  - reflexivity.
  - vm_compute. reflexivity.
  - intros i Hi. split; [exact example_run_wf|]. split; [vm_compute; eauto|].
    split; [vm_compute; reflexivity|]. split; [vm_compute; reflexivity|].
    split; [vm_compute; discriminate|]. intros. lia.
Defined.

Lemma fresh_kernel_task_starts_witness :
  exists t k', Task_new (L := example_layout) 5 0x77000 CapTable_new example_run = Ret (t, k') /\
    r_rip (mc_cpu (run_trampoline (call_switch_context 0 (t_rsp t) (k_machine k')).2)) = 0x77000.
Proof.
  eexists _, _. split; [apply (Task_new_spec (L := example_layout)); done|].
  refine (proj1 (proj2 (fresh_kernel_task_starts (L := example_layout) example_run 5 0x77000 CapTable_new _ _ 1 0 _ _ _ _ _ _))).
  - exact example_stacks_fit.
  - reflexivity.
  - reflexivity.
  - discriminate.
  - split; vm_compute; discriminate.
  - apply (Task_new_spec (L := example_layout)); done.
Defined.

Lemma fresh_user_task_starts_witness :
  exists t k', Task_new_user (L := example_layout) 5 0x400000 0x800000 0x5000 CapTable_new example_run = Ret (t, k') /\
    r_rip (mc_cpu (run_iretq (call_switch_context 0 (t_rsp t) (k_machine k')).2)) = 0x400000.
Proof.
  eexists _, _. split; [apply (Task_new_user_spec (L := example_layout)); done|].
  refine (proj1 (proj2 (fresh_user_task_starts (L := example_layout) example_run 5 0x400000 0x800000 0x5000 CapTable_new _ _ 1 0 _ _ _ _ _ _))).
  - exact example_stacks_fit.
  - reflexivity.
  - reflexivity.
  - discriminate.
  - split; vm_compute; discriminate.
  - apply (Task_new_user_spec (L := example_layout)); done.
Defined.

Definition example_fault : ExceptionFrame :=
  mkExceptionFrame 1 2 3 4 5 6 7 8 9 10 11 12 13 14 15 14 0 0x401000 0x1b 0x202 0x7fff00 0x23.

Lemma fault_contained_witness :
  exists b k', exception_dispatch (L := example_layout) example_fault 14 example_run = Ret (b, k') /\
    fault_contained_in example_run 1 example_fault k'.
Proof.
  destruct (fault_contained (L := example_layout) example_run example_fault 14 1 (example_task_at 1))
    as (b & k' & Hrun & Hf & _).
  - exact example_run_wf.
  - exact example_stacks_fit.
  - vm_compute. reflexivity.
  - vm_compute. reflexivity.
  - split; vm_compute; discriminate.
  - intros i ti Hi Hti. eexists _, _. apply example_suspended. by eapply example_others.
  - exists b, k'. done.
Defined.
