(* ===== verification/Entry.v ===== *)
(** * Interrupt, exception and system-call entry stubs

    Models the assembly stubs of [kernel/interrupts/mod.rs] (timer, keyboard,
    inter-processor interrupt, the CPU exceptions) and [kernel/syscall/mod.rs]
    ([syscall_entry]) as instruction lists over a full general-purpose register
    file, and the structures the Rust handlers read through them.  The handler
    a stub calls is an argument; what is assumed of it is that it returns with
    the stack as the ABI requires. *)

From S2P Require Import Prelude Machine Ring Preempt Trace Capability Message Task.
Local Open Scope N_scope.

(** ** Machine *)

Inductive Reg : Type :=
| RAX | RBX | RCX | RDX | RSI | RDI | RBP | R8 | R9 | R10 | R11 | R12 | R13 | R14 | R15.

#[export] Instance Reg_eq_dec : EqDecision Reg.
Proof. solve_decision. Defined.

Inductive Instr : Type :=
| IPush (r : Reg)
| IPushImm (v : N)
| IPop (r : Reg)
| IMovRsp (r : Reg)                (* mov r, rsp *)
| ILoadRsp (r : Reg) (off : N)     (* mov r, [rsp + off] *)
| IAddRsp (n : N)                  (* add rsp, n *)
| ICall                            (* call the handler *)
| IIretq.

(** [st_iret] is the frame an [iretq] returned through: rip, cs, rflags, rsp
    and ss. *)
Record CpuState : Type := mkCpuState {
  st_gp : Reg -> N;
  st_sp : N;
  st_mem : Mem;
  st_iret : option (list N)
}.

Definition set_reg (r : Reg) (v : N) (g : Reg -> N) : Reg -> N :=
  fun r' => if decide (r = r') then v else g r'.

Definition push_word (v : N) (st : CpuState) : CpuState :=
  let sp := wsub64 (st_sp st) 8 in
  mkCpuState (st_gp st) sp (mem_wr (st_mem st) sp v) (st_iret st).

(** The words at the stack pointer. *)
Definition stack_words (st : CpuState) (n : nat) : list N :=
  (fun i => mem_rd (st_mem st) (st_sp st + 8 * i)) <$> rangeN 0 n.

Definition step (handler : CpuState -> CpuState) (i : Instr) (st : CpuState) : CpuState :=
  match i with
  | IPush r => push_word (st_gp st r) st
  | IPushImm v => push_word v st
  | IPop r =>
      mkCpuState (set_reg r (mem_rd (st_mem st) (st_sp st)) (st_gp st)) (wadd64 (st_sp st) 8)
        (st_mem st) (st_iret st)
  | IMovRsp r => mkCpuState (set_reg r (st_sp st) (st_gp st)) (st_sp st) (st_mem st) (st_iret st)
  | ILoadRsp r off =>
      mkCpuState (set_reg r (mem_rd (st_mem st) (wadd64 (st_sp st) off)) (st_gp st)) (st_sp st)
        (st_mem st) (st_iret st)
  | IAddRsp n => mkCpuState (st_gp st) (wadd64 (st_sp st) n) (st_mem st) (st_iret st)
  | ICall => handler st
  | IIretq => mkCpuState (st_gp st) (st_sp st) (st_mem st) (Some (stack_words st 5))
  end.

Definition run (handler : CpuState -> CpuState) (l : list Instr) (st : CpuState) : CpuState :=
  fold_left (fun s i => step handler i s) l st.

(** The state in which the handler is called. *)
Fixpoint call_state (l : list Instr) (st : CpuState) : option CpuState :=
  match l with
  | [] => None
  | ICall :: _ => Some st
  | i :: l' => call_state l' (step (fun s => s) i st)
  end.

(** ** The stubs *)

Definition timer_interrupt_entry : list Instr :=
  [IPush RAX; IPush RCX; IPush RDX; IPush RSI; IPush RDI; IPush R8; IPush R9; IPush R10;
   IPush R11; IPush RBX; IPush RBP; IPush R12; IPush R13; IPush R14; IPush R15;
   ICall;
   IPop R15; IPop R14; IPop R13; IPop R12; IPop RBP; IPop RBX; IPop R11; IPop R10;
   IPop R9; IPop R8; IPop RDI; IPop RSI; IPop RDX; IPop RCX; IPop RAX;
   IIretq].

Definition keyboard_interrupt_entry : list Instr :=
  [IPush RAX; IPush RCX; IPush RDX; IPush RSI; IPush RDI; IPush R8; IPush R9; IPush R10;
   IPush R11; IPush RBX; IPush RBP; IPush R12; IPush R13; IPush R14; IPush R15;
   ICall;
   IPop R15; IPop R14; IPop R13; IPop R12; IPop RBP; IPop RBX; IPop R11; IPop R10;
   IPop R9; IPop R8; IPop RDI; IPop RSI; IPop RDX; IPop RCX; IPop RAX;
   IIretq].

Definition ipi_interrupt_entry : list Instr :=
  [IPush RAX; IPush RCX; IPush RDX; IPush RSI; IPush RDI; IPush R8; IPush R9; IPush R10;
   IPush R11; IPush RBX; IPush RBP; IPush R12; IPush R13; IPush R14; IPush R15;
   ICall;
   IPop R15; IPop R14; IPop R13; IPop R12; IPop RBP; IPop RBX; IPop R11; IPop R10;
   IPop R9; IPop R8; IPop RDI; IPop RSI; IPop RDX; IPop RCX; IPop RAX;
   IIretq].

Definition syscall_entry : list Instr :=
  [IPush R15; IPush R14; IPush R13; IPush R12; IPush R11; IPush R10; IPush R9; IPush R8;
   IPush RBP; IPush RDI; IPush RSI; IPush RDX; IPush RCX; IPush RBX; IPush RAX;
   IMovRsp RDI; ICall;
   IPop RAX; IPop RBX; IPop RCX; IPop RDX; IPop RSI; IPop RDI; IPop RBP; IPop R8;
   IPop R9; IPop R10; IPop R11; IPop R12; IPop R13; IPop R14; IPop R15;
   IIretq].

Definition exception_common : list Instr :=
  [IPush R15; IPush R14; IPush R13; IPush R12; IPush R11; IPush R10; IPush R9; IPush R8;
   IPush RBP; IPush RDI; IPush RSI; IPush RDX; IPush RCX; IPush RBX; IPush RAX;
   IMovRsp RDI; ILoadRsp RSI (15 * 8); ICall;
   IPop RAX; IPop RBX; IPop RCX; IPop RDX; IPop RSI; IPop RDI; IPop RBP; IPop R8;
   IPop R9; IPop R10; IPop R11; IPop R12; IPop R13; IPop R14; IPop R15;
   IAddRsp 16; IIretq].

Definition divide_error_entry : list Instr := IPushImm 0 :: IPushImm 0 :: exception_common.
Definition invalid_opcode_entry : list Instr := IPushImm 0 :: IPushImm 6 :: exception_common.
Definition general_protection_entry : list Instr := IPushImm 13 :: exception_common.
Definition page_fault_entry : list Instr := IPushImm 14 :: exception_common.

(** ** The structures the handlers read *)

(** [SyscallFrame], in memory order. *)
Record SyscallFrame : Type := mkSyscallFrame {
  sf_rax : N; sf_rbx : N; sf_rcx : N; sf_rdx : N; sf_rsi : N; sf_rdi : N; sf_rbp : N;
  sf_r8 : N; sf_r9 : N; sf_r10 : N; sf_r11 : N; sf_r12 : N; sf_r13 : N; sf_r14 : N; sf_r15 : N
}.

(** [*(a as *const SyscallFrame)]: the fields are consecutive words. *)
Definition read_SyscallFrame (m : Mem) (a : N) : SyscallFrame :=
  let w i := mem_rd m (a + 8 * i) in
  mkSyscallFrame (w 0) (w 1) (w 2) (w 3) (w 4) (w 5) (w 6) (w 7) (w 8) (w 9) (w 10) (w 11)
    (w 12) (w 13) (w 14).

(** [*(a as *const ExceptionFrame)]. *)
Definition read_ExceptionFrame (m : Mem) (a : N) : ExceptionFrame :=
  let w i := mem_rd m (a + 8 * i) in
  mkExceptionFrame (w 0) (w 1) (w 2) (w 3) (w 4) (w 5) (w 6) (w 7) (w 8) (w 9) (w 10) (w 11)
    (w 12) (w 13) (w 14) (w 15) (w 16) (w 17) (w 18) (w 19) (w 20) (w 21).

(** ** Pushes and pops *)

Lemma run_app h l1 l2 st : run h (l1 ++ l2) st = run h l2 (run h l1 st).
Proof. apply fold_left_app. Qed.

Lemma set_reg_eq r v g : set_reg r v g r = v.
Proof. unfold set_reg. by rewrite decide_True. Qed.

Lemma set_reg_ne r r' v g : r <> r' -> set_reg r v g r' = g r'.
Proof. intros. unfold set_reg. by rewrite decide_False. Qed.

(** Memory holds the words [ws] from [a], as a list equation. *)
Lemma holds_words_cons m a w ws :
  holds_words m a (w :: ws) <-> mem_rd m a = w /\ holds_words m (a + 8) ws.
Proof.
  split.
  - intros H. split.
    + specialize (H 0 w eq_refl). by rewrite N.mul_0_r, N.add_0_r in H.
    + intros i v Hi. replace (a + 8 + 8 * i) with (a + 8 * (i + 1)) by lia. apply H.
      rewrite idx_lookup in *. by replace (N.to_nat (i + 1)) with (S (N.to_nat i)) by lia.
  - intros [H0 H] i v Hi. rewrite idx_lookup in Hi. destruct (N.to_nat i) as [|n] eqn:Hn.
    + assert (i = 0) as -> by lia. simpl in Hi. rewrite N.mul_0_r, N.add_0_r. congruence.
    + replace (a + 8 * i) with (a + 8 + 8 * N.of_nat n) by lia. apply H.
      by rewrite idx_lookup, Nat2N.id.
Qed.

Lemma holds_words_keep m m' a ws :
  holds_words m a ws -> (forall b, a <= b -> mem_rd m' b = mem_rd m b) -> holds_words m' a ws.
Proof. intros H Hm i v Hi. rewrite Hm by lia. by apply H. Qed.

Lemma holds_words_app m a ws1 ws2 :
  holds_words m a ws1 -> holds_words m (a + 8 * lenN ws1) ws2 -> holds_words m a (ws1 ++ ws2).
Proof.
  revert a. induction ws1 as [|w ws1 IH]; intros a H1 H2.
  - simpl in *. by rewrite N.mul_0_r, N.add_0_r in H2.
  - apply holds_words_cons in H1 as [Hw H1]. apply holds_words_cons. split; [done|]. apply IH; [done|].
    replace (a + 8 + 8 * lenN ws1) with (a + 8 * lenN (w :: ws1)); [done|]. unfold lenN. simpl. lia.
Qed.

(** A run of pushes leaves the registers in memory, last pushed lowest. *)
Lemma run_pushes h rs st :
  8 * lenN rs <= st_sp st -> st_sp st < u64_limit ->
  let st' := run h (IPush <$> rs) st in
  st_gp st' = st_gp st /\ st_sp st' = st_sp st - 8 * lenN rs /\ st_iret st' = st_iret st /\
  holds_words (st_mem st') (st_sp st') (reverse (st_gp st <$> rs)) /\
  forall a, st_sp st <= a -> mem_rd (st_mem st') a = mem_rd (st_mem st) a.
Proof.
  revert st. induction rs as [|r rs IH]; intros st Hlo Hhi st'.
  { subst st'. simpl. rewrite N.sub_0_r. split_and!; try done. intros i v Hi. by rewrite idx_lookup in Hi. }
  assert (lenN (r :: rs) = lenN rs + 1) as Hlen by (unfold lenN; simpl; lia).
  set (st1 := push_word (st_gp st r) st).
  assert (st_sp st1 = st_sp st - 8) as Hsp1 by (simpl; apply wsub64_small; lia).
  destruct (IH st1) as (Hgp & Hsp & Hir & Hw & Hm); [lia..|].
  change (run h (IPush <$> rs) st1) with st' in *.
  split_and!; [done|lia|done| |].
  - rewrite fmap_cons, reverse_cons. apply holds_words_app; [done|].
    unfold lenN. rewrite length_reverse, length_fmap. fold (lenN rs).
    replace (st_sp st' + 8 * lenN rs) with (st_sp st - 8) by lia. apply holds_words_cons. split.
    + rewrite Hm by lia. simpl. rewrite wsub64_small by lia. apply mem_rd_wr_eq.
    + intros i v Hi. by rewrite idx_lookup in Hi.
  - intros a Ha. rewrite Hm by lia. simpl. rewrite wsub64_small by lia. apply mem_rd_wr_ne. lia.
Qed.

(** A run of pops loads the words at the stack pointer in order. *)
Lemma run_pops h rs ws st :
  NoDup rs -> length rs = length ws -> holds_words (st_mem st) (st_sp st) ws ->
  st_sp st + 8 * lenN rs < u64_limit ->
  let st' := run h (IPop <$> rs) st in
  (forall n r w, rs !! n = Some r -> ws !! n = Some w -> st_gp st' r = w) /\
  (forall r, r ∉ rs -> st_gp st' r = st_gp st r) /\
  st_sp st' = st_sp st + 8 * lenN rs /\ st_mem st' = st_mem st /\ st_iret st' = st_iret st.
Proof.
  intros Hnd. revert ws st. induction Hnd as [|r rs Hr Hnd IH]; intros ws st Hlen Hw Hhi st'.
  { subst st'. simpl. rewrite N.add_0_r. by split_and!. }
  destruct ws as [|w ws]; [done|]. apply holds_words_cons in Hw as [Hw0 Hw].
  assert (lenN (r :: rs) = lenN rs + 1) as Hl by (unfold lenN; simpl; lia).
  set (st1 := step h (IPop r) st).
  assert (st_sp st1 = st_sp st + 8) as Hsp1 by (simpl; apply wadd64_small; lia).
  destruct (IH ws st1) as (Hin & Hout & Hsp & Hm & Hir).
  - simpl in Hlen. lia.
  - by rewrite Hsp1.
  - lia.
  - change (run h (IPop <$> rs) st1) with st' in *. split_and!; [| |lia|done|done].
    + intros [|n] r' w'; simpl; intros; simplify_eq; [|by eapply Hin].
      rewrite Hout by done. unfold st1. simpl. apply set_reg_eq.
    + intros r' Hr'. apply not_elem_of_cons in Hr' as [Hne Hr']. rewrite Hout by done.
      unfold st1. simpl. by apply set_reg_ne.
Qed.

Definition is_call (i : Instr) : bool := match i with ICall => true | _ => false end.

Lemma call_state_app pre post st :
  forallb (fun i => negb (is_call i)) pre = true ->
  call_state (pre ++ ICall :: post) st = Some (run (fun s => s) pre st).
Proof.
  revert st. induction pre as [|i pre IH]; intros st Hp; [done|].
  simpl in Hp. apply andb_prop in Hp as [Hi Hp]. destruct i; try done; simpl; by rewrite IH.
Qed.

(** ** Hardware interrupts *)

(** A handler that returns to its caller with the caller's part of the stack
    intact; it may change any register and anything below the stack pointer. *)
Definition preserves_stack (h : CpuState -> CpuState) : Prop :=
  forall st, st_sp (h st) = st_sp st /\
    forall a, st_sp st <= a -> mem_rd (st_mem (h st)) a = mem_rd (st_mem st) a.

(** The order in which the interrupt stubs save the registers. *)
Definition isr_regs : list Reg :=
  [RAX; RCX; RDX; RSI; RDI; R8; R9; R10; R11; RBX; RBP; R12; R13; R14; R15].

(** ... and in which the other two stubs do. *)
Definition frame_regs : list Reg :=
  [RAX; RBX; RCX; RDX; RSI; RDI; RBP; R8; R9; R10; R11; R12; R13; R14; R15].

Lemma isr_regs_all r : r ∈ isr_regs.
Proof. destruct r; set_solver. Qed.
Lemma frame_regs_all r : r ∈ frame_regs.
Proof. destruct r; set_solver. Qed.
Lemma isr_regs_nodup : NoDup isr_regs.
Proof. apply (bool_decide_unpack _). by vm_compute. Qed.
Lemma frame_regs_nodup : NoDup frame_regs.
Proof. apply (bool_decide_unpack _). by vm_compute. Qed.

Lemma stack_words_ext st st' n :
  st_sp st' = st_sp st -> (forall a, st_sp st <= a -> mem_rd (st_mem st') a = mem_rd (st_mem st) a) ->
  stack_words st' n = stack_words st n.
Proof.
  intros Hsp Hm. unfold stack_words. apply list_fmap_ext. intros i x _. rewrite Hsp. apply Hm. lia.
Qed.

(** Popping what was pushed, whatever lies between. *)
Lemma pops_restore h rs st st1 :
  NoDup rs -> (forall r, r ∈ rs) ->
  holds_words (st_mem st1) (st_sp st1) (st_gp st <$> rs) -> st_sp st1 + 8 * lenN rs < u64_limit ->
  let st2 := run h (IPop <$> rs) st1 in
  (forall r, st_gp st2 r = st_gp st r) /\ st_sp st2 = st_sp st1 + 8 * lenN rs /\ st_mem st2 = st_mem st1.
Proof.
  intros Hnd Hall Hw Hhi st2.
  destruct (run_pops h rs (st_gp st <$> rs) st1) as (Hin & _ & Hsp & Hm & _); [done|by rewrite length_fmap|done..|].
  split_and!; [|done..]. intros r. pose proof (Hall r) as [n Hn]%list_elem_of_lookup.
  apply (Hin n r); [done|]. by rewrite list_lookup_fmap, Hn.
Qed.

(** Save everything, call, restore everything, return. *)
Lemma save_call_restore h rs st :
  NoDup rs -> (forall r, r ∈ rs) -> preserves_stack h ->
  8 * lenN rs <= st_sp st -> st_sp st < u64_limit ->
  let st' := run h ((IPush <$> rs) ++ [ICall] ++ (IPop <$> reverse rs) ++ [IIretq]) st in
  (forall r, st_gp st' r = st_gp st r) /\ st_iret st' = Some (stack_words st 5).
Proof.
  intros Hnd Hall Hh Hlo Hhi. cbv zeta. rewrite !run_app.
  destruct (run_pushes h rs st) as (Hgp & Hsp & _ & Hw & Hm); [lia..|].
  set (st1 := run h (IPush <$> rs) st) in *. change (run h [ICall] st1) with (h st1). clearbody st1.
  destruct (Hh st1) as [Hsp2 Hm2]. set (st2 := h st1) in *. clearbody st2.
  assert (lenN (reverse rs) = lenN rs) as Hl by (unfold lenN; by rewrite length_reverse).
  destruct (pops_restore h (reverse rs) st st2) as (Hr & Hsp3 & Hm3).
  - by rewrite reverse_Permutation.
  - intros r. apply elem_of_reverse, Hall.
  - rewrite fmap_reverse, Hsp2. by eapply holds_words_keep.
  - lia.
  - set (st3 := run h (IPop <$> reverse rs) st2) in *.
    change (st_iret (run h [IIretq] st3)) with (Some (stack_words st3 5)).
    change (st_gp (run h [IIretq] st3)) with (st_gp st3). clearbody st3.
    split; [exact Hr|]. f_equal. apply stack_words_ext; [lia|]. intros a Ha. rewrite Hm3, Hm2 by lia. by apply Hm.
Qed.

(** C24: Interrupt stubs are transparent.  For the timer, keyboard and
    inter-processor interrupt stubs and any handler that keeps the stack
    discipline, the stub returns through the interrupted context's own
    hardware frame with every general-purpose register as it was when the
    interrupt was taken, whatever the handler does to the registers. *)
Theorem interrupt_stub_transparent entry handler st :
  entry ∈ [timer_interrupt_entry; keyboard_interrupt_entry; ipi_interrupt_entry] ->
  preserves_stack handler -> 120 <= st_sp st -> st_sp st < u64_limit ->
  let st' := run handler entry st in
  (forall r, st_gp st' r = st_gp st r) /\ st_iret st' = Some (stack_words st 5).
Proof.
  intros Hin Hh Hlo Hhi.
  assert (entry = (IPush <$> isr_regs) ++ [ICall] ++ (IPop <$> reverse isr_regs) ++ [IIretq]) as ->.
  { repeat (apply elem_of_cons in Hin as [->|Hin]; [reflexivity|]). by apply elem_of_nil in Hin. }
  apply save_call_restore; [apply isr_regs_nodup|apply isr_regs_all|done..].
Qed.

(** ** System calls *)

(** A dispatcher that stores [v] through its frame pointer and otherwise keeps
    the stack discipline. *)
Definition stores_result (h : CpuState -> CpuState) (v : N) : Prop :=
  forall st, st_sp (h st) = st_sp st /\ mem_rd (st_mem (h st)) (st_sp st) = v /\
    forall a, st_sp st + 8 <= a -> mem_rd (st_mem (h st)) a = mem_rd (st_mem st) a.

Definition frame_of_regs (g : Reg -> N) : SyscallFrame :=
  mkSyscallFrame (g RAX) (g RBX) (g RCX) (g RDX) (g RSI) (g RDI) (g RBP) (g R8) (g R9) (g R10)
    (g R11) (g R12) (g R13) (g R14) (g R15).

Lemma marshal_call rs st :
  8 * lenN rs <= st_sp st -> st_sp st < u64_limit ->
  exists st1, call_state (((IPush <$> reverse rs) ++ [IMovRsp RDI]) ++ ICall :: (IPop <$> rs) ++ [IIretq]) st = Some st1 /\
    st_gp st1 RDI = st_sp st1 /\ holds_words (st_mem st1) (st_sp st1) (st_gp st <$> rs).
Proof.
  intros Hlo Hhi. rewrite call_state_app.
  2: { rewrite forallb_app. apply andb_true_intro. split; [|done]. generalize (reverse rs) as l. intros l. by induction l. }
  eexists. split; [done|]. rewrite run_app.
  destruct (run_pushes (fun s => s) (reverse rs) st) as (_ & Hsp & _ & Hw & _).
  { unfold lenN. rewrite length_reverse. done. }
  { done. }
  set (st1 := run _ (IPush <$> reverse rs) st) in *. clearbody st1. simpl. rewrite set_reg_eq.
  by rewrite fmap_reverse, reverse_involutive in Hw.
Qed.

Lemma marshal_return h v rs st :
  NoDup (RAX :: rs) -> (forall r, r ∈ RAX :: rs) -> stores_result h v ->
  8 * lenN (RAX :: rs) <= st_sp st -> st_sp st < u64_limit ->
  let st' := run h (((IPush <$> reverse (RAX :: rs)) ++ [IMovRsp RDI]) ++
                    ICall :: (IPop <$> RAX :: rs) ++ [IIretq]) st in
  st_gp st' RAX = v /\ (forall r, r <> RAX -> st_gp st' r = st_gp st r) /\
  st_iret st' = Some (stack_words st 5).
Proof.
  intros Hnd Hall Hh Hlo Hhi. cbv zeta.
  assert (lenN (reverse (RAX :: rs)) = lenN (RAX :: rs)) as Hl by (unfold lenN; by rewrite length_reverse).
  rewrite run_app, run_app.
  destruct (run_pushes h (reverse (RAX :: rs)) st) as (_ & Hsp & _ & Hw & Hm); [lia..|].
  set (st1 := run h (IPush <$> reverse (RAX :: rs)) st) in *. clearbody st1.
  rewrite fmap_reverse, reverse_involutive, fmap_cons in Hw.
  set (st2 := run h [IMovRsp RDI] st1).
  assert (st_sp st2 = st_sp st1) as Hsp2 by done. assert (st_mem st2 = st_mem st1) as Hm2 by done. clearbody st2.
  change (run h (ICall :: ?l) st2) with (run h l (h st2)). rewrite run_app.
  destruct (Hh st2) as (Hsp3 & Hv & Hm3). rewrite Hsp2, Hm2 in *. set (st3 := h st2) in *. clearbody st3.
  destruct (pops_restore h (RAX :: rs) (mkCpuState (set_reg RAX v (st_gp st)) 0 ∅ None) st3) as (Hr & Hsp4 & Hm4).
  - done.
  - done.
  - rewrite Hsp3. cbn [st_gp]. rewrite fmap_cons, set_reg_eq. apply holds_words_cons in Hw as [_ Hw].
    apply holds_words_cons. split; [done|].
    assert (set_reg RAX v (st_gp st) <$> rs = st_gp st <$> rs) as ->.
    { apply list_fmap_ext. intros i r Hi. apply set_reg_ne. intros <-. apply NoDup_cons in Hnd as [Hn _].
      by apply Hn, list_elem_of_lookup_2 with i. }
    eapply holds_words_keep; [exact Hw|]. intros b Hb. by apply Hm3.
  - lia.
  - cbn [st_gp] in Hr. set (st4 := run h (IPop <$> RAX :: rs) st3) in *.
    change (st_iret (run h [IIretq] st4)) with (Some (stack_words st4 5)).
    change (st_gp (run h [IIretq] st4)) with (st_gp st4). clearbody st4.
    split; [by rewrite Hr, set_reg_eq|]. split; [intros r Hne; by rewrite (Hr r), set_reg_ne by done|].
    assert (0 < lenN (RAX :: rs)) by (unfold lenN; simpl; lia).
    f_equal. apply stack_words_ext; [lia|]. intros a Ha. rewrite Hm4, Hm3 by lia. by apply Hm.
Qed.

(** C25: The system-call stub marshals exactly.  [syscall_entry] calls the
    dispatcher with a pointer to a [SyscallFrame] that holds the caller's
    registers field by field; if the dispatcher stores [v] in the frame's
    [rax], the caller resumes through its own hardware frame with [v] in [rax]
    and every other register unchanged. *)
Theorem syscall_stub_exact handler v st :
  stores_result handler v -> 120 <= st_sp st -> st_sp st < u64_limit ->
  (exists st1, call_state syscall_entry st = Some st1 /\ st_gp st1 RDI = st_sp st1 /\
     read_SyscallFrame (st_mem st1) (st_gp st1 RDI) = frame_of_regs (st_gp st)) /\
  let st' := run handler syscall_entry st in
  st_gp st' RAX = v /\ (forall r, r <> RAX -> st_gp st' r = st_gp st r) /\
  st_iret st' = Some (stack_words st 5).
Proof.
  intros Hh Hlo Hhi.
  assert (syscall_entry = ((IPush <$> reverse frame_regs) ++ [IMovRsp RDI]) ++ ICall ::
    (IPop <$> frame_regs) ++ [IIretq]) as -> by reflexivity.
  split; [|apply marshal_return; [apply frame_regs_nodup|apply frame_regs_all|done..]].
  destruct (marshal_call frame_regs st) as (st1 & Hst1 & Hrdi & Hw); [done..|]. exists st1.
  split; [done|]. split; [done|]. rewrite Hrdi. unfold read_SyscallFrame, frame_of_regs.
  f_equal; by apply Hw.
Qed.

(** ** Exceptions *)

Lemma exception_marshal rs post ws st :
  8 * lenN rs <= st_sp st -> st_sp st < u64_limit ->
  holds_words (st_mem st) (st_sp st) ws ->
  exists st1, call_state (((IPush <$> reverse rs) ++ [IMovRsp RDI; ILoadRsp RSI (8 * lenN rs)]) ++ ICall :: post) st = Some st1 /\
    st_gp st1 RSI = mem_rd (st_mem st) (st_sp st) /\
    holds_words (st_mem st1) (st_gp st1 RDI) ((st_gp st <$> rs) ++ ws).
Proof.
  intros Hlo Hhi Hws. rewrite call_state_app.
  2: { rewrite forallb_app. apply andb_true_intro. split; [|done]. generalize (reverse rs) as l. intros l. by induction l. }
  eexists. split; [done|]. rewrite run_app.
  assert (lenN (reverse rs) = lenN rs) as Hl by (unfold lenN; by rewrite length_reverse).
  destruct (run_pushes (fun s => s) (reverse rs) st) as (_ & Hsp & _ & Hw & Hm); [lia..|].
  set (st1 := run _ (IPush <$> reverse rs) st) in *. clearbody st1.
  rewrite fmap_reverse, reverse_involutive in Hw.
  change (st_gp (run ?h [IMovRsp RDI; ILoadRsp RSI ?n] st1) RSI) with (mem_rd (st_mem st1) (wadd64 (st_sp st1) n)).
  change (st_gp (run ?h [IMovRsp RDI; ILoadRsp RSI ?n] st1) RDI) with (st_sp st1).
  change (st_mem (run ?h [IMovRsp RDI; ILoadRsp RSI ?n] st1)) with (st_mem st1). split.
  - rewrite wadd64_small, Hm by lia. f_equal. lia.
  - apply holds_words_app; [done|]. unfold lenN. rewrite length_fmap. fold (lenN rs).
    replace (st_sp st1 + 8 * lenN rs) with (st_sp st) by lia. by eapply holds_words_keep.
Qed.

Lemma exception_common_eq :
  exception_common = ((IPush <$> reverse frame_regs) ++ [IMovRsp RDI; ILoadRsp RSI (8 * lenN frame_regs)]) ++
    ICall :: (IPop <$> frame_regs) ++ [IAddRsp 16; IIretq].
Proof. reflexivity. Qed.

(** The handler called by [entry] from [st] gets vector [vec] and the address of
    an [ExceptionFrame] with the interrupted registers and the given words. *)
Definition reports (entry : list Instr) (st : CpuState) (vec err rip cs rflags rsp ss : N) : Prop :=
  let g := st_gp st in
  exists st1, call_state entry st = Some st1 /\ st_gp st1 RSI = vec /\
    read_ExceptionFrame (st_mem st1) (st_gp st1 RDI) =
      mkExceptionFrame (g RAX) (g RBX) (g RCX) (g RDX) (g RSI) (g RDI) (g RBP) (g R8) (g R9)
        (g R10) (g R11) (g R12) (g R13) (g R14) (g R15) vec err rip cs rflags rsp ss.

Lemma common_reports st vec err rip cs rflags rsp ss :
  120 <= st_sp st -> st_sp st < u64_limit ->
  holds_words (st_mem st) (st_sp st) [vec; err; rip; cs; rflags; rsp; ss] ->
  reports exception_common st vec err rip cs rflags rsp ss.
Proof.
  intros Hlo Hhi Hw. unfold reports. rewrite exception_common_eq.
  destruct (exception_marshal frame_regs ((IPop <$> frame_regs) ++ [IAddRsp 16; IIretq])
    [vec; err; rip; cs; rflags; rsp; ss] st) as (st1 & Hst1 & Hrsi & Hw1); [done..|].
  exists st1. split; [done|]. apply holds_words_cons in Hw as [Hv _]. split; [by rewrite Hrsi|].
  unfold read_ExceptionFrame. f_equal; by apply Hw1.
Qed.

(** Pushing a word below a block. *)
Lemma push_word_holds v ws st :
  8 <= st_sp st -> st_sp st < u64_limit -> holds_words (st_mem st) (st_sp st) ws ->
  st_sp (push_word v st) = st_sp st - 8 /\ holds_words (st_mem (push_word v st)) (st_sp st - 8) (v :: ws).
Proof.
  intros Hlo Hhi Hw. unfold push_word. cbn [st_sp st_mem]. rewrite wsub64_small by lia. split; [done|].
  apply holds_words_cons. split; [apply mem_rd_wr_eq|]. replace (st_sp st - 8 + 8) with (st_sp st) by lia.
  eapply holds_words_keep; [done|]. intros b Hb. apply mem_rd_wr_ne. lia.
Qed.

Lemma push_reports v l st vec err rip cs rflags rsp ss :
  reports l (push_word v st) vec err rip cs rflags rsp ss ->
  reports (IPushImm v :: l) st vec err rip cs rflags rsp ss.
Proof. intros H. exact H. Qed.

(** Exception stubs report the faulting context.  For the exceptions
    without a hardware error code (divide error, invalid opcode) and for those
    with one (general protection, page fault), the handler receives its vector
    and a pointer to an [ExceptionFrame] whose fields, in the layout of the
    Rust structure, are the general-purpose registers at the fault, the
    vector, the error code (0 when there is none) and the hardware frame. *)
Theorem exception_frame_exact st err rip cs rflags rsp ss :
  136 <= st_sp st -> st_sp st < u64_limit ->
  (holds_words (st_mem st) (st_sp st) [rip; cs; rflags; rsp; ss] ->
     reports divide_error_entry st 0 0 rip cs rflags rsp ss /\
     reports invalid_opcode_entry st 6 0 rip cs rflags rsp ss) /\
  (holds_words (st_mem st) (st_sp st) [err; rip; cs; rflags; rsp; ss] ->
     reports general_protection_entry st 13 err rip cs rflags rsp ss /\
     reports page_fault_entry st 14 err rip cs rflags rsp ss).
Proof.
  intros Hlo Hhi. split; intros Hw.
  - assert (forall vec, reports (IPushImm 0 :: IPushImm vec :: exception_common) st vec 0 rip cs rflags rsp ss) as H.
    { intros vec. do 2 apply push_reports. destruct (push_word_holds 0 _ st ltac:(lia) Hhi Hw) as [Hs1 Hw1].
      rewrite <- Hs1 in Hw1. destruct (push_word_holds vec _ (push_word 0 st) ltac:(lia) ltac:(lia) Hw1) as [Hs2 Hw2].
      rewrite <- Hs2 in Hw2. apply common_reports; [lia..|done]. }
    split; apply H.
  - assert (forall vec, reports (IPushImm vec :: exception_common) st vec err rip cs rflags rsp ss) as H.
    { intros vec. apply push_reports. destruct (push_word_holds vec _ st ltac:(lia) Hhi Hw) as [Hs1 Hw1].
      rewrite <- Hs1 in Hw1. apply common_reports; [lia..|done]. }
    split; apply H.
Qed.

(** ** Instances *)

Definition example_cpu : CpuState :=
  mkCpuState (fun r => match r with RAX => 4 | RDI => 7 | _ => 1 end) 0x8000
    (mem_wr (mem_wr (mem_wr (mem_wr (mem_wr (mem_wr ∅ 0x8000 2) 0x8008 0x401000) 0x8010 0x1b) 0x8018 0x202)
       0x8020 0x7fff00) 0x8028 0x23) None.

Lemma interrupt_stub_transparent_witness :
  st_gp (run (fun s => mkCpuState (fun _ => 99) (st_sp s) (st_mem s) None) timer_interrupt_entry example_cpu) RDI = 7.
Proof.
  apply (interrupt_stub_transparent timer_interrupt_entry
    (fun s => mkCpuState (fun _ => 99) (st_sp s) (st_mem s) None) example_cpu).
  - left.
  - intros s. split; [reflexivity|]. intros. reflexivity.
  - vm_compute. discriminate.
  - vm_compute. reflexivity.
Defined.

Lemma syscall_stub_exact_witness :
  st_gp (run (fun s => mkCpuState (st_gp s) (st_sp s) (mem_wr (st_mem s) (st_sp s) 5) None) syscall_entry example_cpu) RAX = 5.
Proof.
  apply (syscall_stub_exact (fun s => mkCpuState (st_gp s) (st_sp s) (mem_wr (st_mem s) (st_sp s) 5) None) 5 example_cpu).
  - intros s. split; [reflexivity|]. split; [apply mem_rd_wr_eq|]. intros a Ha. apply mem_rd_wr_ne. lia.
  - vm_compute. discriminate.
  - vm_compute. reflexivity.
Defined.

Lemma exception_frame_exact_witness :
  reports page_fault_entry example_cpu 14 2 0x401000 0x1b 0x202 0x7fff00 0x23.
Proof.
  apply (exception_frame_exact example_cpu 2 0x401000 0x1b 0x202 0x7fff00 0x23).
  - vm_compute. discriminate.
  - vm_compute. reflexivity.
  - apply check_words_sound. vm_compute. reflexivity.
Defined.
