(* ===== verification/Timer.v ===== *)
(** * The timer interrupt

    Models the acting half of [kernel/preempt/mod.rs] ([on_tick_should_switch],
    [maybe_fire_adversary]) and [timer_isr] of [kernel/interrupts/mod.rs], and
    shows that a tick cannot act inside a non-preemptible region, while outside
    one it hands the processor over as a voluntary yield does. *)

From S2P Require Import Prelude Ring Preempt Trace Capability AuditTrail Message Machine Frames.
From S2P Require Import Task Scheduler Kernel Switch Scheduling Spawn Contexts.
Local Open Scope N_scope.

(** The armed adversary revokes its slot, if it can take the lock. *)
Definition maybe_fire_adversary : K unit :=
  let* slot := kget (fun k => ps_pending_revoke (am_preempt (k_amb k))) in
  if slot =? NO_REVOKE then kret tt
  else
    let* task := kget (fun k => ps_pending_revoke_task (am_preempt (k_amb k))) in
    let* got := try_lock_sched in
    if negb got then kret tt
    else
      let* ot := kget_task task in
      do* (match ot with
           | Some t =>
               let* _ := kcaps task t (fun ct => CapTable_kernel_revoke ct slot) in
               kmod (on_preempt (fun p => set_ps_pending_revoke NO_REVOKE (set_ps_revoke_fired true p)))
           | None => kret tt
           end) in
      unlock_sched.

Definition count_tick (p : PreemptState) : PreemptState := set_ps_ticks (wadd64 (ps_ticks p) 1) p.
Definition count_window_tick (p : PreemptState) : PreemptState :=
  set_ps_window_ticks (wadd64 (ps_window_ticks p) 1) p.

Definition on_tick_should_switch : K bool :=
  do* kmod (on_preempt count_tick) in
  let* in_window := kget (fun k => ps_in_ipc_window (am_preempt (k_amb k))) in
  do* (if in_window then kmod (on_preempt count_window_tick) else kret tt) in
  let* armed := kget (fun k => ps_armed (am_preempt (k_amb k))) in
  if negb armed then kret false
  else
    let* critical := kget (fun k => in_critical (am_preempt (k_amb k))) in
    if critical then do* kmod (on_preempt note_deferred_locked) in kret false
    else
      do* (if in_window then maybe_fire_adversary else kret tt) in
      kret true.

Section isr.
Context `{L : Layout}.

(** Acknowledging the interrupt controller is not modelled. *)
Definition timer_isr : K bool :=
  let* b := on_tick_should_switch in
  if b then preempt_reschedule else kret false.

(** ** Ticks that must not act *)

(** The bookkeeping of a tick that does not act. *)
Definition tick_counters (p : PreemptState) : PreemptState :=
  let p1 := count_tick p in if ps_in_ipc_window p then count_window_tick p1 else p1.

Definition deferred_tick (p : PreemptState) : PreemptState :=
  if ps_armed p then note_deferred_locked (tick_counters p) else tick_counters p.

(** A tick taken where it must not act changes the statistics and nothing else. *)
Lemma deferred_tick_spec k :
  in_critical (am_preempt (k_amb k)) = true \/ k_sched_locked k = true \/
    ps_armed (am_preempt (k_amb k)) = false ->
  timer_isr k = Ret (false, on_preempt deferred_tick k).
Proof.
  unfold timer_isr, on_tick_should_switch, kbind, kmod, kget, kret. cbn [obind].
  destruct k as [s l [p tr nc] au d sp te fa mc fr br co um]. destruct p as [ti pr de pc ar wi wt rv rt rf].
  unfold deferred_tick, tick_counters, in_critical, maybe_fire_adversary, kbind, kret, kget, try_lock_sched,
    on_preempt, on_amb. simpl. intros Hc.
  destruct ar; [|by destruct wi].
  destruct wi; simpl; (destruct (pc =? 0) eqn:Hpc; simpl in *; [|done]);
    (destruct Hc as [?|[->|?]]; [done| |done]); [destruct (rv =? NO_REVOKE); simpl|];
    unfold preempt_reschedule, kbind; (rewrite preempt_plan_locked; done).
Qed.

(** C20: Non-preemptible regions are atomic.  A timer interrupt taken at a point
    where the region depth is non-zero, or the scheduler lock is held, or
    preemption is not armed, is invisible to the rest of the kernel: whatever
    the state, it updates the tick statistics, counting the deferral, and
    changes nothing else, neither the task table nor the capabilities nor the
    machine, even when the adversary is armed. *)
Theorem region_not_preempted k :
  in_critical (am_preempt (k_amb k)) = true \/ k_sched_locked k = true \/
    ps_armed (am_preempt (k_amb k)) = false ->
  timer_isr k = Ret (false, on_preempt deferred_tick k).
Proof. apply deferred_tick_spec. Qed.

(** ** Ticks that act *)

(** The tick has been counted and may act. *)
Lemma tick_permitted k :
  ps_armed (am_preempt (k_amb k)) = true -> in_critical (am_preempt (k_amb k)) = false ->
  ps_in_ipc_window (am_preempt (k_amb k)) = false ->
  timer_isr k = preempt_reschedule (on_preempt count_tick k).
Proof.
  destruct k as [s l [p tr nc] au d sp te fa mc fr br co um]. destruct p as [ti pr de pc ar wi wt rv rt rf].
  unfold timer_isr, on_tick_should_switch, in_critical, kbind, kmod, kget, kret, on_preempt, on_amb. simpl.
  intros -> Hc ->. simpl. by rewrite Hc.
Qed.

Lemma on_preempt_wf f k : kernel_wf k -> kernel_wf (on_preempt f k).
Proof. intros [Hs Hl Ha]. by split. Qed.

Lemma perform_switch_amb ret_addr note plan k k' :
  (forall k2, note k2 = set_k_amb (k_amb (note k2)) k2) ->
  perform_switch ret_addr note plan k = Ret (true, k') ->
  k_amb k' = k_amb (note (on_machine (on_cpu (load_task_context plan)) k)).
Proof.
  intros Hnote. unfold perform_switch. destruct (pl_save plan) as [area|]; [|done].
  destruct (pl_rsp plan =? 0); [done|]. unfold kbind, kmod, kret. cbn [obind].
  destruct (call_switch_context _ _ _) as [old mc]. intros Heq. injection Heq as <-.
  by destruct area.
Qed.

Lemma suspended_on_preempt f k i c r : suspended k i c r -> suspended (on_preempt f k) i c r.
Proof. intros H. exact H. Qed.

(** A permitted tick preempts like a yield.  Outside non-preemptible
    regions, with preemption armed, a timer interrupt of task [c] hands the
    processor to the nearest ready task [n] in round-robin order: the
    processor continues in [n] as [n] was suspended, [c] becomes ready with its
    interrupt context saved so that it resumes after the reschedule call, the
    other suspended tasks are undisturbed, and the preemption is counted.
    When no other task is ready the interrupt returns to [c]. *)
Theorem permitted_tick_preempts k :
  kernel_wf k -> stacks_fit ->
  ps_armed (am_preempt (k_amb k)) = true -> in_critical (am_preempt (k_amb k)) = false ->
  ps_in_ipc_window (am_preempt (k_amb k)) = false ->
  (forall c n tn cn rn, yield_choice (k_sched k) = Some (Some c, n) -> on_stack_of k c ->
     suspended k n cn rn -> task_slot (k_sched k) n = Some tn ->
     exists k', timer_isr k = Ret (true, k') /\ switched k c n tn (k_cpu k) cn preempt_resume rn k' /\
       ps_preemptions (am_preempt (k_amb k')) = wadd64 (ps_preemptions (am_preempt (k_amb k))) 1) /\
  (yield_choice (k_sched k) = None -> timer_isr k = Ret (false, on_preempt count_tick k)).
Proof.
  intros Hk Hfit Ha Hc Hw. rewrite (tick_permitted k Ha Hc Hw). set (k0 := on_preempt count_tick k).
  pose proof (preempt_plan_spec k0 (on_preempt_wf _ k Hk)) as Hp.
  apply wp_run in Hp as (plan & k1 & Hrun & Hplan). change (k_sched k0) with (k_sched k) in Hplan.
  unfold preempt_reschedule, kbind. rewrite Hrun. cbn [obind]. split.
  - intros c n tn cn rn Hch Hon Hsus Htn.
    destruct (yield_choice_spec _ _ _ Hch) as (Hcur & Hne & Hn & _ & _). symmetry in Hcur.
    rewrite Hcur, Hch in Hplan. destruct Hplan as (a & tn' & (Hap & _) & Htn' & -> & ->).
    assert (tn' = tn) as -> by congruence.
    apply current_idx_Some in Hcur as (Hcur & Hcl & Hsome).
    pose proof (perform_switch_spec k0 (set_k_amb a (set_k_sched (handoff (Some c) n (k_sched k)) k0))
      c n tn cn rn preempt_resume (on_preempt note_preemption) a (on_preempt_wf _ k Hk) Hfit Hcl Hn
      ltac:(congruence) Hcur Hsome Hon Hsus Htn eq_refl) as Hps.
    assert (forall k2, exists a2, on_preempt note_preemption k2 = set_k_amb a2 k2) as Hnote by eauto.
    specialize (Hps Hnote). apply wp_run in Hps as (b & k2 & Hrun2 & -> & Hsw). exists k2.
    split; [done|]. split; [destruct Hsw; by split|].
    apply perform_switch_amb in Hrun2; [|done]. rewrite Hrun2. unfold on_preempt, on_amb. ksimp. simpl. by rewrite Hap.
  - intros Hch. rewrite Hch in Hplan.
    destruct (current_idx (k_sched k)); destruct Hplan as [-> ->]; done.
Qed.
End isr.

(** ** Instances *)

Lemma region_not_preempted_witness :
  timer_isr (L := example_layout) (on_preempt enter_critical (on_preempt (set_armed true) example_run)) =
    Ret (false, on_preempt deferred_tick (on_preempt enter_critical (on_preempt (set_armed true) example_run))).
Proof. apply region_not_preempted. left. vm_compute. reflexivity. Defined.

Lemma permitted_tick_preempts_witness :
  exists k', timer_isr (L := example_layout) (on_preempt (set_armed true) example_run) = Ret (true, k') /\
    r_rip (k_cpu k') = 0xffffffff80001000.
Proof.
  destruct (permitted_tick_preempts (L := example_layout) (on_preempt (set_armed true) example_run)) as [Hsw _].
  - apply on_preempt_wf, example_run_wf.
  - exact example_stacks_fit.
  - vm_compute. reflexivity.
  - vm_compute. reflexivity.
  - vm_compute. reflexivity.
  - destruct (Hsw 1 2 (example_task_at 2) (fresh_cpu (0x1000 * (2 + 1)) (k_cpu example_run)) 0xffffffff80001000) as (k' & Hrun & Hk' & _).
    + vm_compute. reflexivity.
    + split; vm_compute; discriminate.
    + apply suspended_on_preempt, (example_suspended 2). by left.
    + vm_compute. reflexivity.
    + exists k'. split; [exact Hrun|]. apply Hk'.
Defined.
