(* ===== verification/Ipc.v ===== *)
(** * Inter-process communication

    Models the operations of [kernel/process/ipc.rs]: the validate-and-use
    region of a send, blocking send and receive, their asynchronous variants
    and the untyped shims.  A blocking operation is a computation in [R]: it
    pauses inside [yield_cpu] and continues when its task is switched back in.
    The retry loops take fuel, one unit per round; a round only repeats after
    a wake-up that found nothing to do. *)

From S2P Require Import Prelude Ring Preempt Trace Capability AuditTrail Message Machine Frames.
From S2P Require Import Task Scheduler Kernel Switch.
Local Open Scope N_scope.

(** ** Validation *)

Definition resolve_target_locked (current : TaskId) (cap_idx : N) : K (result IpcError TaskId) :=
  let* o := kget_task current in
  match o with
  | None => kret (Err NoContext)
  | Some task =>
      let* oc := kcap_get task cap_idx in
      kret match oc with
           | None => Err NoCapability
           | Some cap =>
               match cap_resource cap with
               | IpcChannel target_task => Ok target_task
               | _ => Err NoCapability
               end
           end
  end.

(** [{ let sched = SCHEDULER.lock(); sched.current_task_id.ok_or(NoContext)? }]. *)
Definition current_or_no_context : K (result IpcError TaskId) :=
  do* lock_sched in
  let* o := kget (fun k => s_current_task_id (k_sched k)) in
  do* unlock_sched in
  kret match o with Some id => Ok id | None => Err NoContext end.

(** The checks made before shared state is touched. *)
Definition check_envelope (tag version : N) (payload : list N) : result IpcError IpcTag :=
  if 128 <? lenN payload then Err PayloadTooLarge
  else match from_u16 tag with
       | None => Err InvalidTag
       | Some t => if version =? 0xFFFF then Err BadVersion else Ok t
       end.

(** The common prefix of the two send paths: the checks, the caller's identity
    and the envelope. *)
Definition send_enter (event : string) (cap_idx tag version : N) (payload : list N)
  : K (result IpcError (TaskId * Message)) :=
  match check_envelope tag version payload with
  | Err e => kret (Err e)
  | Ok t =>
      let* r := current_or_no_context in
      match r with
      | Err e => kret (Err e)
      | Ok current =>
          do* ktrace event cap_idx (IpcTag_as_u16 t) in
          let* msg := klift (build_message current t version payload) in
          kret (Ok (current, msg))
      end
  end.

(** ** Blocking send *)

Inductive SendStep : Type := Delivered | Gone | Blocked.

(** The non-preemptible region: validate the capability, then use it. *)
Definition send_region (current : TaskId) (cap_idx : N) (msg : Message)
  : K (result IpcError SendStep) :=
  do* kmod (on_preempt CriticalWindow_enter) in
  do* lock_sched in
  let* r := resolve_target_locked current cap_idx in
  let* outcome :=
    match r with
    | Err e =>
        do* kupdate_task current (set_t_ipc_buffer None) in
        kret (Err e)
    | Ok target =>
        let* ot := kget_task target in
        match t_state <$> ot with
        | None | Some Terminated => kret (Ok Gone)
        | Some BlockedOnReceive =>
            do* kupdate_task target (fun t => set_t_state Ready (set_t_ipc_buffer (Some msg) t)) in
            do* bump_ipc_deliveries in
            kret (Ok Delivered)
        | Some _ =>
            do* kupdate_task current
                  (fun t => set_t_ipc_buffer (Some msg) (set_t_state (BlockedOnSend target) t)) in
            kret (Ok Blocked)
        end
    end in
  do* unlock_sched in
  do* kmod (on_preempt CriticalWindow_drop) in
  kret outcome.

(** [SendStep::Gone]. *)
Definition send_gone (current : TaskId) : K (result IpcError unit) :=
  do* lock_sched in
  do* kupdate_task current (set_t_ipc_buffer None) in
  do* unlock_sched in
  kret (Err TargetGone).

(** After the wait: has a receiver taken the parked message? [None] when the
    sender itself is gone. *)
Definition send_consumed (current : TaskId) : K (option bool) :=
  do* lock_sched in
  let* ot := kget_task current in
  do* unlock_sched in
  kret ((fun t => is_none (t_ipc_buffer t)) <$> ot).

Section blocking.
Context `{L : Layout}.

Fixpoint send_loop (fuel : nat) (current : TaskId) (cap_idx : N) (msg : Message)
  : R (result IpcError unit) :=
  match fuel with
  | O => fun _ => OutOfFuel
  | S fuel' =>
      let+ outcome := rlift (send_region current cap_idx msg) in
      match outcome with
      | Err e => rret (Err e)
      | Ok Delivered => rret (Ok tt)
      | Ok Gone => rlift (send_gone current)
      | Ok Blocked =>
          let+ _ := yield_cpu in
          let+ consumed := rlift (send_consumed current) in
          match consumed with
          | None => rret (Err TargetGone)
          | Some true => rret (Ok tt)
          | Some false => send_loop fuel' current cap_idx msg
          end
      end
  end.

Definition sys_send_typed (fuel : nat) (cap_idx tag version : N) (payload : list N)
  : R (result IpcError unit) :=
  let+ r := rlift (send_enter "ipc_send" cap_idx tag version payload) in
  match r with
  | Err e => rret (Err e)
  | Ok (current, msg) => send_loop fuel current cap_idx msg
  end.

(** ** Receive *)

(** [t.state == TaskState::BlockedOnSend(current)] in slot [i]. *)
Definition sends_to (s : Scheduler) (current : TaskId) (i : N) : bool :=
  match task_slot s i with Some t => state_is (BlockedOnSend current) t | None => false end.

(** The scan for a blocked sender. *)
Definition found_sender (s : Scheduler) (current : TaskId) : option TaskId :=
  match find_first (sends_to s current) (rangeN 0 (N.to_nat MAX_TASKS)) with
  | Some i => t_id <$> task_slot s i
  | None => None
  end.

(** Steps 1 and 2: the queue, then the rendezvous buffer. *)
Definition receive_local (current : TaskId) : K (option Message) :=
  let* ot := kget_task current in
  match ot with
  | None => kret None
  | Some receiver =>
      let* (om, q) := klift (MessageQueue_dequeue (t_msg_queue receiver)) in
      do* kupdate_task current (set_t_msg_queue q) in
      match om with
      | Some msg => kret (Some msg)
      | None =>
          do* kupdate_task current (set_t_ipc_buffer None) in
          kret (t_ipc_buffer receiver)
      end
  end.

(** Step 3: take the message of a blocked sender and wake it. *)
Definition receive_rendezvous (current sender_id : TaskId) : K (result IpcError Message) :=
  let* os := kget_task sender_id in
  let msg := match os with Some sender => t_ipc_buffer sender | None => None end in
  do* kupdate_task sender_id (fun t => set_t_state Ready (set_t_ipc_buffer None t)) in
  do* kupdate_task current (set_t_state Running) in
  do* (if is_some msg then bump_ipc_deliveries else kret tt) in
  kret match msg with Some m => Ok m | None => Err TargetGone end.

(** Steps 1 to 3 under the lock; [None] when there is nothing to receive. *)
Definition receive_attempt (current : TaskId) : K (option (result IpcError Message)) :=
  let* om := receive_local current in
  match om with
  | Some msg => kret (Some (Ok msg))
  | None =>
      let* s := kget k_sched in
      match found_sender s current with
      | Some sender_id => let* r := receive_rendezvous current sender_id in kret (Some r)
      | None => kret None
      end
  end.

(** One round of the receive loop, up to the yield. *)
Definition receive_round (current : TaskId) : K (option (result IpcError Message)) :=
  do* lock_sched in
  let* o := receive_attempt current in
  do* (match o with
       | Some _ => kret tt
       | None => kupdate_task current (set_t_state BlockedOnReceive)
       end) in
  do* unlock_sched in
  kret o.

Fixpoint receive_loop (fuel : nat) (current : TaskId) : R (result IpcError Message) :=
  match fuel with
  | O => fun _ => OutOfFuel
  | S fuel' =>
      let+ o := rlift (receive_round current) in
      match o with
      | Some r => rret r
      | None => let+ _ := yield_cpu in receive_loop fuel' current
      end
  end.

(** The caller's identity, with the trace event of the receive paths. *)
Definition receive_enter (event : string) : K (result IpcError TaskId) :=
  let* r := current_or_no_context in
  match r with
  | Err e => kret (Err e)
  | Ok current => do* ktrace event current 0 in kret (Ok current)
  end.

Definition sys_receive_typed (fuel : nat) : R (result IpcError Message) :=
  let+ r := rlift (receive_enter "ipc_receive") in
  match r with
  | Err e => rret (Err e)
  | Ok current => receive_loop fuel current
  end.

(** ** Compatibility shims *)

Definition map_err_unit {E A} (r : result E A) : result unit A :=
  match r with Ok a => Ok a | Err _ => Err tt end.

Definition sys_send (fuel : nat) (cap_idx : N) (payload : list N) : R (result unit unit) :=
  let+ r := sys_send_typed fuel cap_idx (IpcTag_as_u16 Raw) 0 payload in
  rret (map_err_unit r).

Definition sys_receive (fuel : nat) : R (result unit Message) :=
  let+ r := sys_receive_typed fuel in
  rret (map_err_unit r).
End blocking.

(** ** Asynchronous operations *)

Definition sys_send_async (cap_idx tag version : N) (payload : list N)
  : K (result IpcError unit) :=
  let* e := send_enter "ipc_send_async" cap_idx tag version payload in
  match e with
  | Err e => kret (Err e)
  | Ok (current, msg) =>
      do* kmod (on_preempt enter_critical) in
      do* lock_sched in
      let* r := resolve_target_locked current cap_idx in
      let* res :=
        match r with
        | Err e => kret (Err e)
        | Ok target_task_id =>
            let* ot := kget_task target_task_id in
            match ot with
            | None => kret (Err TargetGone)
            | Some target =>
                if state_is Terminated target then kret (Err TargetGone)
                else
                  let* (er, q) := klift (MessageQueue_enqueue (t_msg_queue target) msg) in
                  do* kupdate_task target_task_id (set_t_msg_queue q) in
                  match er with
                  | Ok _ =>
                      do* (if state_is BlockedOnReceive target
                           then kupdate_task target_task_id (set_t_state Ready) else kret tt) in
                      do* bump_ipc_deliveries in
                      kret (Ok tt)
                  | Err _ => kret (Err QueueFull)
                  end
            end
        end in
      do* unlock_sched in
      do* kmod (on_preempt exit_critical) in
      kret res
  end.

Definition sys_receive_async : K (result IpcError Message) :=
  let* r := receive_enter "ipc_receive_async" in
  match r with
  | Err e => kret (Err e)
  | Ok current =>
      do* lock_sched in
      let* o := receive_attempt current in
      do* unlock_sched in
      kret match o with Some r => r | None => Err NoMessage end
  end.
