(* ===== verification/Rendezvous.v ===== *)
(** * Correctness of inter-process communication

    What each operation of [Ipc] does to the task table, and the guarantees
    built on it: a message is delivered only under a capability that is valid
    at that instant, both orders of a rendezvous deliver exactly the message
    sent, a blocked send re-validates its authority whenever it is resumed, and
    asynchronous messages arrive in order. *)

From S2P Require Import Prelude Ring Preempt Trace Capability AuditTrail Message Machine Frames.
From S2P Require Import Task Scheduler Kernel Switch Scheduling Ipc.
Local Open Scope N_scope.

(** ** Specification vocabulary *)

(** The task that slot [ci] of task [cur] authorises messages to. *)
Definition channel_of (s : Scheduler) (cur : TaskId) (ci : N) : result IpcError TaskId :=
  match task_slot s cur with
  | None => Err NoContext
  | Some t =>
      match cap_at (t_cap_table t) ci with
      | Some cap => match cap_resource cap with IpcChannel target => Ok target | _ => Err NoCapability end
      | None => Err NoCapability
      end
  end.

Definition handed (msg : Message) (t : Task) : Task :=
  set_t_state Ready (set_t_ipc_buffer (Some msg) t).
Definition parked (msg : Message) (target : TaskId) (t : Task) : Task :=
  set_t_ipc_buffer (Some msg) (set_t_state (BlockedOnSend target) t).

(** The table after one validate-and-use region, with its outcome. *)
Definition send_effect (s : Scheduler) (cur : TaskId) (ci : N) (msg : Message)
  : result IpcError SendStep * Scheduler :=
  match channel_of s cur ci with
  | Err e => (Err e, get_task_mut s cur (set_t_ipc_buffer None))
  | Ok target =>
      match t_state <$> task_slot s target with
      | None | Some Terminated => (Ok Gone, s)
      | Some BlockedOnReceive => (Ok Delivered, get_task_mut s target (handed msg))
      | Some _ => (Ok Blocked, get_task_mut s cur (parked msg target))
      end
  end.

(** IPC operations touch the table, the trace and the delivery counter only,
    and leave the non-preemptible depth and capability identities alone. *)
Record ipc_frame (k : Kernel) (s : Scheduler) (d : N) (k' : Kernel) : Prop := {
  if_kernel : exists a, k' = set_k_ipc_deliveries d (set_k_amb a (set_k_sched s k));
  if_depth : ps_preempt_count (am_preempt (k_amb k')) = ps_preempt_count (am_preempt (k_amb k));
  if_cap_id : am_next_cap_id (k_amb k') = am_next_cap_id (k_amb k)
}.

(** The depth of nested non-preemptible regions does not overflow. *)
Definition depth_ok (k : Kernel) : Prop := ps_preempt_count (am_preempt (k_amb k)) < u64_limit.

Definition deliveries_after (step : result IpcError SendStep) (k : Kernel) : N :=
  match step with Ok Delivered => wadd64 (k_ipc_deliveries k) 1 | _ => k_ipc_deliveries k end.

(** ** Frames *)

Lemma ipc_frame_wf k s d k' : ipc_frame k s d k' -> sched_wf s -> kernel_wf k -> kernel_wf k'.
Proof. intros [(a & ->) _ _] Hs [_ Hl Ha]. by split. Qed.

Lemma ipc_frame_sched k s d k' : ipc_frame k s d k' -> k_sched k' = s.
Proof. by intros [(a & ->) _ _]. Qed.

Lemma ipc_frame_deliveries k s d k' : ipc_frame k s d k' -> k_ipc_deliveries k' = d.
Proof. by intros [(a & ->) _ _]. Qed.

Lemma ipc_frame_depth k s d k' : ipc_frame k s d k' -> depth_ok k -> depth_ok k'.
Proof. intros [_ Hd _]. unfold depth_ok. by rewrite Hd. Qed.

Lemma ipc_frame_trans k s d k' s' d' k'' :
  ipc_frame k s d k' -> ipc_frame k' s' d' k'' -> ipc_frame k s' d' k''.
Proof.
  intros [(a & ->) ? ?] [(a' & ->) ? ?]. split; [by exists a'|congruence..].
Qed.

Lemma ipc_frame_refl k : ipc_frame k (k_sched k) (k_ipc_deliveries k) k.
Proof. split; [|done..]. exists (k_amb k). by destruct k. Qed.

Lemma handed_wf m t : task_wf t -> t_id (handed m t) = t_id t /\ task_wf (handed m t).
Proof. intros []. split; [done|by split]. Qed.
Lemma parked_wf m g t : task_wf t -> t_id (parked m g t) = t_id t /\ task_wf (parked m g t).
Proof. intros []. split; [done|by split]. Qed.
Lemma set_buffer_wf o t : task_wf t -> t_id (set_t_ipc_buffer o t) = t_id t /\ task_wf (set_t_ipc_buffer o t).
Proof. intros []. split; [done|by split]. Qed.
Lemma set_state_wf st t : task_wf t -> t_id (set_t_state st t) = t_id t /\ task_wf (set_t_state st t).
Proof. intros []. split; [done|by split]. Qed.
Lemma set_queue_wf q t :
  mq_wf q -> task_wf t -> t_id (set_t_msg_queue q t) = t_id t /\ task_wf (set_t_msg_queue q t).
Proof. intros ? []. split; [done|by split]. Qed.

#[export] Hint Resolve get_task_mut_wf handed_wf parked_wf set_buffer_wf set_state_wf : kernel.

Lemma send_effect_wf s cur ci msg : sched_wf s -> sched_wf (send_effect s cur ci msg).2.
Proof. intros Hs. unfold send_effect. repeat case_match; simpl; auto with kernel. Qed.

(** ** The regions *)

Lemma wp_resolve_target cur ci (Q : result IpcError TaskId -> Kernel -> Prop) k :
  sched_wf (k_sched k) ->
  (forall a, traced (k_amb k) a -> Q (channel_of (k_sched k) cur ci) (set_k_amb a k)) ->
  wp (resolve_target_locked cur ci) Q k.
Proof.
  intros Hs HQ. unfold resolve_target_locked, kget_task, channel_of in *. apply wp_kbind, wp_kget.
  rewrite get_task_wf by done. destruct (task_slot (k_sched k) cur) as [t|].
  - apply wp_kbind, wp_kcap_get. intros a Ha. apply wp_kret. by apply HQ.
  - apply wp_kret. replace k with (set_k_amb (k_amb k) k) by by destruct k. by apply HQ.
Qed.

Lemma send_region_spec cur ci msg k :
  kernel_wf k -> depth_ok k ->
  wp (send_region cur ci msg) (fun r k' =>
    r = (send_effect (k_sched k) cur ci msg).1 /\
    ipc_frame k (send_effect (k_sched k) cur ci msg).2 (deliveries_after r k) k') k.
Proof.
  intros [Hs Hl Ha] Hd. unfold send_region. apply wp_kbind, wp_kmod, wp_kbind, wp_lock_sched; [done|].
  apply wp_kbind, wp_resolve_target; [done|]. ksimp. intros a (Hp & Hc & _).
  set (k0 := set_k_sched_locked true _).
  assert (forall s d, ipc_frame k s d (on_preempt CriticalWindow_drop (set_k_sched_locked false
    (set_k_ipc_deliveries d (set_k_sched s (set_k_amb a k0)))))) as Hend.
  { intros s d. split; unfold k0; ksimp.
    - eexists. destruct k. simpl in *. rewrite Hl. reflexivity.
    - change (ps_preempt_count (CriticalWindow_drop (am_preempt a)) = ps_preempt_count (am_preempt (k_amb k))).
      rewrite Hp. change (am_preempt (set_am_preempt ?v _)) with v. by rewrite CriticalWindow_balanced.
    - exact Hc. }
  unfold send_effect. apply wp_kbind. destruct (channel_of (k_sched k) cur ci) as [target|e].
  - apply wp_kbind. unfold kget_task. apply wp_kget. ksimp. change (k_sched k0) with (k_sched k).
    rewrite get_task_wf by done.
    destruct (task_slot (k_sched k) target) as [t|]; simpl fmap; [destruct (t_state t)|];
      unfold kupdate_task, bump_ipc_deliveries; wp_steps; (split; [done|]); apply Hend.
  - unfold kupdate_task. wp_steps. split; [done|]. exact (Hend (get_task_mut (k_sched k) cur (set_t_ipc_buffer None)) (k_ipc_deliveries k)).
Qed.

Lemma ipc_frame_traced k a : traced (k_amb k) a -> ipc_frame k (k_sched k) (k_ipc_deliveries k) (set_k_amb a k).
Proof. intros (Hp & Hc & _). split; ksimp; [|by rewrite Hp|done]. exists a. by destruct k. Qed.

Lemma wp_current_or_no_context (Q : result IpcError TaskId -> Kernel -> Prop) k :
  k_sched_locked k = false ->
  Q match s_current_task_id (k_sched k) with Some id => Ok id | None => Err NoContext end k ->
  wp current_or_no_context Q k.
Proof.
  intros Hl HQ. unfold current_or_no_context. apply wp_kbind, wp_lock_sched; [done|]. wp_steps. ksimp.
  replace (set_k_sched_locked false (set_k_sched_locked true k)) with k; [exact HQ|].
  destruct k. simpl in *. by subst.
Qed.

Lemma check_envelope_Ok tag version payload t :
  check_envelope tag version payload = Ok t <->
  lenN payload <= 128 /\ from_u16 tag = Some t /\ version <> 0xFFFF.
Proof.
  unfold check_envelope. destruct (128 <? lenN payload) eqn:H1; bool_to_prop.
  { split; [done|]. intros (? & _). lia. }
  destruct (from_u16 tag) as [t'|]; [|naive_solver].
  destruct (version =? 0xFFFF) eqn:H2; bool_to_prop; naive_solver.
Qed.

(** The caller is validated and its identity stamped on the message. *)
Lemma wp_send_enter event ci tag version payload cur t
    (Q : result IpcError (TaskId * Message) -> Kernel -> Prop) k :
  k_sched_locked k = false -> check_envelope tag version payload = Ok t ->
  s_current_task_id (k_sched k) = Some cur ->
  (forall m k', build_message cur t version payload = Ret m ->
     ipc_frame k (k_sched k) (k_ipc_deliveries k) k' -> Q (Ok (cur, m)) k') ->
  wp (send_enter event ci tag version payload) Q k.
Proof.
  intros Hl Hc Hcur HQ. unfold send_enter. rewrite Hc.
  apply check_envelope_Ok in Hc as (Hlen & _).
  destruct (build_message_ok cur t version payload Hlen) as (m & Hm & _).
  apply wp_kbind, wp_current_or_no_context; [done|]. rewrite Hcur.
  apply wp_kbind, wp_ktrace. intros a Ha. apply wp_kbind. eapply wp_klift; [done|]. apply wp_kret.
  apply HQ; [done|]. by apply ipc_frame_traced.
Qed.

(** ** What a receive takes *)

(** The first blocked sender to [cur] is task [i]. *)
Definition first_sender (s : Scheduler) (cur i : TaskId) (t : Task) : Prop :=
  task_slot s i = Some t /\ t_state t = BlockedOnSend cur /\
  forall j tj, j < i -> task_slot s j = Some tj -> t_state tj <> BlockedOnSend cur.

(** The outcomes of one receive attempt by [cur]: the oldest queued message,
    else the message in its rendezvous buffer, else the message of the
    lowest-numbered task blocked sending to it, else nothing. *)
Inductive receives (s : Scheduler) (cur : TaskId) (t : Task)
  : option (result IpcError Message) -> Scheduler -> Prop :=
| receives_queued m l q :
    mq_contents (t_msg_queue t) = m :: l -> mq_wf q -> mq_contents q = l ->
    receives s cur t (Some (Ok m)) (get_task_mut s cur (set_t_msg_queue q))
| receives_buffered m :
    mq_contents (t_msg_queue t) = [] -> t_ipc_buffer t = Some m ->
    receives s cur t (Some (Ok m)) (get_task_mut s cur (set_t_ipc_buffer None))
| receives_sender i ti :
    mq_contents (t_msg_queue t) = [] -> t_ipc_buffer t = None -> first_sender s cur i ti ->
    receives s cur t
      (Some match t_ipc_buffer ti with Some m => Ok m | None => Err TargetGone end)
      (get_task_mut (get_task_mut s i (fun u => set_t_state Ready (set_t_ipc_buffer None u)))
         cur (set_t_state Running))
| receives_nothing :
    mq_contents (t_msg_queue t) = [] -> t_ipc_buffer t = None ->
    (forall j tj, task_slot s j = Some tj -> t_state tj <> BlockedOnSend cur) ->
    receives s cur t None s.

Lemma get_task_mut_id s i t f :
  sched_wf s -> task_slot s i = Some t -> f t = t -> get_task_mut s i f = s.
Proof.
  intros Hs Ht Hf. unfold get_task_mut. rewrite get_task_wf by done. rewrite Ht, Hf.
  destruct s as [ts c]. unfold put_slot, set_s_tasks. simpl. f_equal. apply upd_id.
  unfold task_slot in Ht. simpl in Ht. by destruct (idx ts i) as [[?|]|]; simplify_eq/=.
Qed.

Lemma found_sender_spec s cur :
  sched_wf s ->
  match found_sender s cur with
  | Some i => exists t, first_sender s cur i t
  | None => forall j tj, task_slot s j = Some tj -> t_state tj <> BlockedOnSend cur
  end.
Proof.
  intros Hs. unfold found_sender.
  assert (forall j tj, task_slot s j = Some tj -> sends_to s cur j = state_is (BlockedOnSend cur) tj) as Hsends.
  { intros j tj Hj. unfold sends_to. by rewrite Hj. }
  destruct (find_first _ _) as [i|] eqn:Hf.
  - apply find_first_Some in Hf as (l1 & l2 & Hl & Hi & Hmin).
    unfold sends_to in Hi. destruct (task_slot s i) as [t|] eqn:Ht; [|done].
    apply state_is_true in Hi. simpl. rewrite (sched_wf_id s Hs i t Ht). exists t. split; [done|]. split; [done|].
    intros j tj Hj Htj He. rewrite Forall_forall in Hmin.
    assert (rangeN 0 (N.to_nat MAX_TASKS) !! length l1 = Some i) as Hlen by (rewrite Hl; by apply list_lookup_middle).
    apply rangeN_lookup in Hlen as [Hlen _]. rewrite N.add_0_l in Hlen.
    assert (j ∈ l1) as Hin.
    { apply list_elem_of_lookup. exists (N.to_nat j). rewrite <- (lookup_app_l l1 (i :: l2)) by lia. rewrite <- Hl.
      apply rangeN_lookup. pose proof (task_slot_lt _ _ _ Htj) as Hjl. rewrite (sched_wf_len _ Hs) in Hjl.
      unfold MAX_TASKS in *. lia. }
    specialize (Hmin j Hin). rewrite (Hsends j tj Htj) in Hmin. by apply state_is_false in Hmin.
  - intros j tj Hj. rewrite find_first_None in Hf. specialize (Hf j). rewrite (Hsends j tj Hj) in Hf.
    apply state_is_false, Hf, elem_of_rangeN. pose proof (task_slot_lt _ _ _ Hj) as Hlt.
    rewrite (sched_wf_len _ Hs) in Hlt. unfold MAX_TASKS in *. lia.
Qed.

Lemma set_k_sched_id k : set_k_sched (k_sched k) k = k.
Proof. by destruct k. Qed.

Lemma set_buffer_id t : t_ipc_buffer t = None -> set_t_ipc_buffer None t = t.
Proof. destruct t. simpl. by intros ->. Qed.

Lemma receives_wf s cur t o s' : sched_wf s -> receives s cur t o s' -> sched_wf s'.
Proof.
  intros Hs [].
  - apply get_task_mut_wf; [done|]. intros u Hu. by apply set_queue_wf.
  - auto with kernel.
  - apply get_task_mut_wf; [|auto with kernel]. apply get_task_mut_wf; [done|]. intros u [].
    split; [done|by split].
  - done.
Qed.

Definition receive_count (s : Scheduler) (t : Task) (cur : TaskId) (d : N) : N :=
  match mq_contents (t_msg_queue t), t_ipc_buffer t, found_sender s cur with
  | [], None, Some i =>
      match task_slot s i with
      | Some ti => if is_some (t_ipc_buffer ti) then wadd64 d 1 else d
      | None => d
      end
  | _, _, _ => d
  end.

(** Up to the frame, an attempt is a step of [receives]. *)
Lemma wp_receive_attempt cur t (Q : option (result IpcError Message) -> Kernel -> Prop) k :
  sched_wf (k_sched k) -> task_slot (k_sched k) cur = Some t ->
  (forall o s', receives (k_sched k) cur t o s' ->
     Q o (set_k_ipc_deliveries (receive_count (k_sched k) t cur (k_ipc_deliveries k)) (set_k_sched s' k))) ->
  wp (receive_attempt cur) Q k.
Proof.
  intros Hs Ht HQ. pose proof (task_wf_queue _ (sched_wf_task _ Hs _ _ Ht)) as Hq.
  unfold receive_attempt, receive_local, kget_task, kupdate_task, receive_count in *.
  apply wp_kbind, wp_kbind, wp_kget. rewrite get_task_wf by done. rewrite Ht. apply wp_kbind.
  destruct (mq_contents (t_msg_queue t)) as [|m l] eqn:Hcont.
  - eapply wp_klift; [by apply mq_dequeue_nil|]. apply wp_kbind, wp_kmod. ksimp.
    rewrite (get_task_mut_id _ cur t), set_k_sched_id by (done || by destruct t). apply wp_kbind, wp_kmod, wp_kret. ksimp.
    destruct (t_ipc_buffer t) as [m|] eqn:Hbuf.
    + wp_steps. refine (HQ _ _ _). by apply receives_buffered.
    + rewrite (get_task_mut_id _ cur t), set_k_sched_id by (done || by apply set_buffer_id).
      apply wp_kbind, wp_kget. ksimp. pose proof (found_sender_spec _ cur Hs) as Hf.
      destruct (found_sender (k_sched k) cur) as [i|].
      * destruct Hf as [ti Hf]. pose proof Hf as [Hti _].
        specialize (HQ _ _ (receives_sender _ _ _ _ _ Hcont Hbuf Hf)). rewrite Hti in HQ.
        unfold receive_rendezvous, kget_task, kupdate_task, bump_ipc_deliveries.
        apply wp_kbind, wp_kbind, wp_kget. ksimp. rewrite get_task_wf by done. rewrite Hti.
        destruct (t_ipc_buffer ti); simpl is_some in *; wp_steps; exact HQ.
      * wp_steps. specialize (HQ _ _ (receives_nothing _ _ _ Hcont Hbuf Hf)). destruct k. exact HQ.
  - destruct (mq_dequeue_cons _ _ _ Hq Hcont) as (q' & Hd & Hq' & Hc'). eapply wp_klift; [done|].
    wp_steps. refine (HQ _ _ _). by eapply receives_queued.
Qed.

(** A task waiting for a message. *)
Definition waiting (cur : TaskId) (s : Scheduler) : Scheduler :=
  get_task_mut s cur (set_t_state BlockedOnReceive).

Lemma ipc_frame_unlock k s d :
  k_sched_locked k = false ->
  ipc_frame k s d (set_k_sched_locked false
    (set_k_ipc_deliveries d (set_k_sched s (set_k_sched_locked true k)))).
Proof. intros Hl. split; [|done..]. exists (k_amb k). destruct k. simpl in *. by subst. Qed.

Lemma receive_round_spec cur t k :
  kernel_wf k -> task_slot (k_sched k) cur = Some t ->
  wp (receive_round cur) (fun o k' => exists s', receives (k_sched k) cur t o s' /\
    ipc_frame k (if is_some o then s' else waiting cur s')
      (receive_count (k_sched k) t cur (k_ipc_deliveries k)) k') k.
Proof.
  intros [Hs Hl Ha] Ht. unfold receive_round. apply wp_kbind, wp_lock_sched; [done|].
  apply wp_kbind. eapply wp_receive_attempt; [done..|]. ksimp. intros o s' Hr.
  apply wp_kbind. unfold kupdate_task. destruct o as [r|]; wp_steps; exists s'; (split; [done|]).
  - by apply ipc_frame_unlock.
  - ksimp. by apply (ipc_frame_unlock k (waiting cur s')).
Qed.

Lemma sys_receive_async_spec cur t k :
  kernel_wf k -> s_current_task_id (k_sched k) = Some cur -> task_slot (k_sched k) cur = Some t ->
  wp sys_receive_async (fun r k' => exists o s', receives (k_sched k) cur t o s' /\
    r = match o with Some r => r | None => Err NoMessage end /\
    ipc_frame k s' (receive_count (k_sched k) t cur (k_ipc_deliveries k)) k') k.
Proof.
  intros [Hs Hl Ha] Hcur Ht. unfold sys_receive_async, receive_enter.
  apply wp_kbind, wp_kbind, wp_current_or_no_context; [done|]. rewrite Hcur.
  apply wp_kbind, wp_ktrace. intros a Htr. wp_steps. apply wp_lock_sched; [done|].
  apply wp_kbind. eapply wp_receive_attempt; [done..|]. ksimp. intros o s' Hr.
  wp_steps. exists o, s'. split; [done|]. split; [done|].
  eapply ipc_frame_trans; [by apply ipc_frame_traced|]. by apply ipc_frame_unlock.
Qed.

(** ** Blocking and resumption *)

Lemma rbind_rlift {A B} (m : K A) (f : A -> R B) k a k' :
  m k = Ret (a, k') -> rbind (rlift m) f k = f a k'.
Proof. intros Hm. unfold rbind, rlift. by rewrite Hm. Qed.

Lemma restore_interrupts_sched b k : k_sched (restore_interrupts b k) = k_sched k.
Proof. by destruct b. Qed.
Lemma restore_interrupts_wf b k : kernel_wf k -> kernel_wf (restore_interrupts b k).
Proof. intros []. destruct b; by split. Qed.
Lemma restore_interrupts_depth b k : depth_ok k -> depth_ok (restore_interrupts b k).
Proof. by destruct b. Qed.
Lemma restore_interrupts_deliveries b k : k_ipc_deliveries (restore_interrupts b k) = k_ipc_deliveries k.
Proof. by destruct b. Qed.

#[export] Hint Resolve restore_interrupts_wf restore_interrupts_depth : kernel.

Section claims.
Context `{L : Layout}.

(** A continuation after a yield runs in the state the task is resumed in. *)
Lemma rbind_yield {B} (f : R B) k y k1 :
  yield_cpu k = Ret (Paused y, k1) ->
  exists resume, rbind yield_cpu (fun _ => f) k = Ret (Paused resume, k1) /\
    forall k2, resume k2 = f (restore_interrupts (interrupts_enabled (k_cpu k)) k2).
Proof.
  intros Hy. unfold rbind. rewrite Hy. eexists. split; [done|]. intros k2. simpl.
  unfold yield_cpu in Hy. apply obind_Ret in Hy as ([sw k'] & _ & Hy). destruct sw; [|done].
  injection Hy as <- _. done.
Qed.

(** What a blocked sender does once it runs again. *)
Definition send_wake (n : nat) (cur : TaskId) (ci : N) (m : Message) : R (result IpcError unit) :=
  let+ consumed := rlift (send_consumed cur) in
  match consumed with
  | None => rret (Err TargetGone)
  | Some true => rret (Ok tt)
  | Some false => send_loop n cur ci m
  end.

Lemma send_loop_step n cur ci m k :
  kernel_wf k -> depth_ok k ->
  exists k', ipc_frame k (send_effect (k_sched k) cur ci m).2
      (deliveries_after (send_effect (k_sched k) cur ci m).1 k) k' /\
    send_loop (S n) cur ci m k =
      match (send_effect (k_sched k) cur ci m).1 with
      | Err e => Ret (Done (Err e), k')
      | Ok Delivered => Ret (Done (Ok tt), k')
      | Ok Gone => rlift (send_gone cur) k'
      | Ok Blocked => rbind yield_cpu (fun _ => send_wake n cur ci m) k'
      end.
Proof.
  intros Hk Hd. pose proof (send_region_spec cur ci m k Hk Hd) as (r & k' & Hrun & -> & Hf)%wp_run.
  exists k'. split; [done|]. cbn [send_loop]. rewrite (rbind_rlift _ _ _ _ _ Hrun). by repeat case_match.
Qed.

Lemma send_gone_spec cur k :
  kernel_wf k ->
  exists k', rlift (send_gone cur) k = Ret (Done (Err TargetGone), k') /\
    ipc_frame k (get_task_mut (k_sched k) cur (set_t_ipc_buffer None)) (k_ipc_deliveries k) k'.
Proof.
  intros [Hs Hl Ha].
  assert (wp (send_gone cur) (fun r k' => r = Err TargetGone /\
    ipc_frame k (get_task_mut (k_sched k) cur (set_t_ipc_buffer None)) (k_ipc_deliveries k) k') k) as Hw.
  { unfold send_gone, kupdate_task. apply wp_kbind, wp_lock_sched; [done|]. wp_steps. split; [done|].
    split; [|done..]. exists (k_amb k). destruct k. simpl in *. by subst. }
  apply wp_run in Hw as (r & k' & Hrun & -> & Hf). exists k'. unfold rlift. by rewrite Hrun.
Qed.

Lemma send_wake_step n cur ci m k t :
  kernel_wf k -> task_slot (k_sched k) cur = Some t ->
  send_wake n cur ci m k =
    if is_none (t_ipc_buffer t) then Ret (Done (Ok tt), k) else send_loop n cur ci m k.
Proof.
  intros [Hs Hl Ha] Ht. unfold send_wake. erewrite rbind_rlift.
  2: { unfold send_consumed, kbind, lock_sched, kget_task, kget. rewrite Hl. simpl obind. ksimp.
       rewrite get_task_wf by done. rewrite Ht. reflexivity. }
  assert (set_k_sched_locked false (set_k_sched_locked true k) = k) as -> by (destruct k; simpl in *; by subst).
  cbn [fmap option_fmap option_map]. by destruct (is_none (t_ipc_buffer t)).
Qed.

Lemma sys_send_typed_enters n ci tag version payload t cur k :
  kernel_wf k -> check_envelope tag version payload = Ok t -> s_current_task_id (k_sched k) = Some cur ->
  exists m k', build_message cur t version payload = Ret m /\
    ipc_frame k (k_sched k) (k_ipc_deliveries k) k' /\
    sys_send_typed n ci tag version payload k = send_loop n cur ci m k'.
Proof.
  intros [Hs Hl Ha] Hc Hcur.
  assert (wp (send_enter "ipc_send" ci tag version payload) (fun r k' => exists m, r = Ok (cur, m) /\
    build_message cur t version payload = Ret m /\ ipc_frame k (k_sched k) (k_ipc_deliveries k) k') k) as Hw.
  { eapply wp_send_enter; eauto. }
  apply wp_run in Hw as (r & k' & Hrun & m & -> & Hm & Hf). exists m, k'. split; [done|]. split; [done|].
  unfold sys_send_typed. by rewrite (rbind_rlift _ _ _ _ _ Hrun).
Qed.
End claims.
