(* ===== verification/Messaging.v ===== *)
(** * Main results on inter-process communication

    The guarantees that tasks rely on, stated on the system calls of [Ipc] and
    proved from the specifications of [Rendezvous]. *)

From S2P Require Import Prelude Ring Preempt Trace Capability AuditTrail Message Machine Frames.
From S2P Require Import Task Scheduler Kernel Switch Scheduling Spawn Contexts Ipc Rendezvous.
Local Open Scope N_scope.

(** Only task [i]'s control block differs, by [f]. *)
Definition only_task (i : TaskId) (f : Task -> Task) (s s' : Scheduler) : Prop :=
  s_current_task_id s' = s_current_task_id s /\
  forall j, task_slot s' j = if decide (i = j) then f <$> task_slot s j else task_slot s j.

Lemma get_task_mut_only s i f : sched_wf s -> only_task i f s (get_task_mut s i f).
Proof. intros Hs. split; [apply get_task_mut_current|]. intros j. by apply get_task_mut_slot. Qed.

#[export] Hint Resolve get_task_mut_only : kernel.

Lemma ipc_frame_only k i f d k' :
  sched_wf (k_sched k) -> ipc_frame k (get_task_mut (k_sched k) i f) d k' ->
  only_task i f (k_sched k) (k_sched k').
Proof. intros Hs Hf. rewrite (ipc_frame_sched _ _ _ _ Hf). auto with kernel. Qed.

(** ** Authority of a send *)

(** What one validate-and-use region does to [k], by its outcome: it hands the message
    to a waiting receiver, or parks it with the blocked sender, only for the task that
    the sender's capability names in [k], and touches exactly one control block; a
    dead target gets nothing; without a valid channel capability nothing is delivered
    and a parked message is withdrawn.  The lock and the depth of non-preemptible
    regions are as before. *)
Definition sent (cur : TaskId) (ci : N) (msg : Message) (k : Kernel) (r : result IpcError SendStep) (k' : Kernel) : Prop :=
  kernel_wf k' /\
  ps_preempt_count (am_preempt (k_amb k')) = ps_preempt_count (am_preempt (k_amb k)) /\
  match r with
  | Ok Delivered => exists target t, channel_of (k_sched k) cur ci = Ok target /\
      task_slot (k_sched k) target = Some t /\ t_state t = BlockedOnReceive /\
      only_task target (handed msg) (k_sched k) (k_sched k') /\
      k_ipc_deliveries k' = wadd64 (k_ipc_deliveries k) 1
  | Ok Blocked => exists target t, channel_of (k_sched k) cur ci = Ok target /\
      task_slot (k_sched k) target = Some t /\
      t_state t <> BlockedOnReceive /\ t_state t <> Terminated /\
      only_task cur (parked msg target) (k_sched k) (k_sched k') /\
      k_ipc_deliveries k' = k_ipc_deliveries k
  | Ok Gone => exists target, channel_of (k_sched k) cur ci = Ok target /\
      (forall t, task_slot (k_sched k) target = Some t -> t_state t = Terminated) /\
      k_sched k' = k_sched k /\ k_ipc_deliveries k' = k_ipc_deliveries k
  | Err e => channel_of (k_sched k) cur ci = Err e /\
      only_task cur (set_t_ipc_buffer None) (k_sched k) (k_sched k') /\
      k_ipc_deliveries k' = k_ipc_deliveries k
  end.

Lemma send_effect_sent k cur ci msg k' :
  kernel_wf k ->
  ipc_frame k (send_effect (k_sched k) cur ci msg).2 (deliveries_after (send_effect (k_sched k) cur ci msg).1 k) k' ->
  sent cur ci msg k (send_effect (k_sched k) cur ci msg).1 k'.
Proof.
  intros Hk Hf. split; [by eapply ipc_frame_wf, Hk; [|apply send_effect_wf, Hk]|]. split; [apply Hf|].
  pose proof Hk as [Hs _ _]. pose proof (ipc_frame_deliveries _ _ _ _ Hf) as Hdel.
  unfold send_effect in *. destruct (channel_of (k_sched k) cur ci) as [target|e]; simpl in *.
  2: { split; [done|]. split; [by eapply ipc_frame_only|done]. }
  destruct (task_slot (k_sched k) target) as [t|] eqn:Ht; simpl in *.
  2: { exists target. rewrite Ht. split; [done|]. split; [done|]. split; [by eapply ipc_frame_sched|done]. }
  destruct (t_state t) eqn:Hst; simpl in *; exists target; try exists t; rewrite ?Ht, ?Hst;
    (split; [done|]); try (split_and!; try done; by eapply ipc_frame_only).
  split; [|split; [by eapply ipc_frame_sched|done]]. intros. by simplify_eq.
Qed.

Section results.
Context `{L : Layout}.

(** ** A blocked send *)

(** The kernel in which a sender is parked. *)
Definition parked_in (k k' : Kernel) (cur : TaskId) (m : Message) (target : TaskId) : Prop :=
  kernel_wf k' /\ only_task cur (parked m target) (k_sched k) (k_sched k') /\
  k_machine k' = k_machine k /\ k_ipc_deliveries k' = k_ipc_deliveries k.

(** How a blocked send continues from the state [k] it is resumed in. *)
Definition resumed_send (resume : R (result IpcError unit)) (cur : TaskId) (ci : N) (m : Message)
    (k : Kernel) (t : Task) : Prop :=
  match t_ipc_buffer t with
  | None => exists k', resume k = Ret (Done (Ok tt), k') /\ k_sched k' = k_sched k
  | Some _ =>
      match channel_of (k_sched k) cur ci with
      | Err e => exists k', resume k = Ret (Done (Err e), k') /\
          only_task cur (set_t_ipc_buffer None) (k_sched k) (k_sched k') /\
          k_ipc_deliveries k' = k_ipc_deliveries k
      | Ok target =>
          match t_state <$> task_slot (k_sched k) target with
          | None | Some Terminated => exists k', resume k = Ret (Done (Err TargetGone), k') /\
              only_task cur (set_t_ipc_buffer None) (k_sched k) (k_sched k') /\
              k_ipc_deliveries k' = k_ipc_deliveries k
          | Some BlockedOnReceive => exists k', resume k = Ret (Done (Ok tt), k') /\
              only_task target (handed m) (k_sched k) (k_sched k') /\
              k_ipc_deliveries k' = wadd64 (k_ipc_deliveries k) 1
          | Some _ => exists k', only_task cur (parked m target) (k_sched k) (k_sched k') /\
              forall y k'', yield_cpu k' = Ret (Paused y, k'') ->
                exists resume', resume k = Ret (Paused resume', k'')
          end
      end
  end.

Lemma send_wake_resumes n cur ci m b k t :
  kernel_wf k -> depth_ok k -> task_slot (k_sched k) cur = Some t ->
  resumed_send (fun k => send_wake (S n) cur ci m (restore_interrupts b k)) cur ci m k t.
Proof.
  intros Hk Hd Ht. set (k0 := restore_interrupts b k).
  assert (kernel_wf k0) as Hk0 by by apply restore_interrupts_wf.
  assert (depth_ok k0) as Hd0 by by apply restore_interrupts_depth.
  assert (k_sched k0 = k_sched k) as Hs0 by apply restore_interrupts_sched.
  assert (k_ipc_deliveries k0 = k_ipc_deliveries k) as Hi0 by apply restore_interrupts_deliveries.
  assert (task_slot (k_sched k0) cur = Some t) as Ht0 by by rewrite Hs0.
  unfold resumed_send. fold k0. rewrite (send_wake_step _ _ _ _ _ t Hk0 Ht0).
  destruct (t_ipc_buffer t); simpl is_none; [|by exists k0].
  destruct (send_loop_step n cur ci m k0 Hk0 Hd0) as (k' & Hf & ->).
  assert (kernel_wf k') as Hk' by by eapply ipc_frame_wf, Hk0; [|apply send_effect_wf, Hk0].
  pose proof (ipc_frame_deliveries _ _ _ _ Hf) as Hdel. unfold send_effect in *. rewrite Hs0 in *.
  destruct (channel_of (k_sched k) cur ci) as [target|e]; simpl in *.
  2: { exists k'. split; [done|]. rewrite <- Hs0, <- Hi0 in *. split; [eapply ipc_frame_only; [apply Hk0|done]|done]. }
  assert (forall k1, ipc_frame k0 (k_sched k) (k_ipc_deliveries k0) k1 -> kernel_wf k1 ->
    exists k2, rlift (send_gone cur) k1 = Ret (Done (Err TargetGone), k2) /\
      only_task cur (set_t_ipc_buffer None) (k_sched k) (k_sched k2) /\
      k_ipc_deliveries k2 = k_ipc_deliveries k) as Hgone.
  { intros k1 Hf1 Hk1. destruct (send_gone_spec cur k1 Hk1) as (k2 & Hrun & Hf2).
    exists k2. split; [done|]. rewrite (ipc_frame_sched _ _ _ _ Hf1) in Hf2.
    rewrite (ipc_frame_sched _ _ _ _ Hf2), (ipc_frame_deliveries _ _ _ _ Hf2), (ipc_frame_deliveries _ _ _ _ Hf1).
    split; [apply get_task_mut_only, Hk|done]. }
  destruct (task_slot (k_sched k) target) as [tt'|]; simpl in *; [|by apply Hgone].
  rewrite <- Hs0 in Hf. destruct (t_state tt'); simpl in *; try (by rewrite Hs0 in Hf; apply Hgone);
    exists k'; rewrite <- Hs0, <- ?Hi0.
  all: try (split; [done|]; split; [eapply ipc_frame_only; [apply Hk0|done]|done]).
  all: split; [eapply ipc_frame_only; [apply Hk0|done]|].
  all: intros y k'' Hy; destruct (rbind_yield (send_wake n cur ci m) k' y k'' Hy) as (res & Hres & _); by exists res.
Qed.

(** A send that has to wait: the message is parked and the call yields. *)
Lemma send_blocks n ci tag version payload t cur target tg k :
  kernel_wf k -> depth_ok k -> check_envelope tag version payload = Ok t ->
  s_current_task_id (k_sched k) = Some cur -> channel_of (k_sched k) cur ci = Ok target ->
  task_slot (k_sched k) target = Some tg -> t_state tg <> BlockedOnReceive -> t_state tg <> Terminated ->
  exists m k1, build_message cur t version payload = Ret m /\ parked_in k k1 cur m target /\
    forall y k2, yield_cpu k1 = Ret (Paused y, k2) ->
      exists resume, sys_send_typed (S n) ci tag version payload k = Ret (Paused resume, k2) /\
        forall k3, resume k3 = send_wake n cur ci m (restore_interrupts (interrupts_enabled (k_cpu k1)) k3).
Proof.
  intros Hk Hd Hc Hcur Hch Htg Hnr Hnt.
  destruct (sys_send_typed_enters (S n) ci tag version payload t cur k Hk Hc Hcur) as (m & k0 & Hm & Hf0 & Hrun).
  pose proof (ipc_frame_sched _ _ _ _ Hf0) as Hs0. pose proof (ipc_frame_depth _ _ _ _ Hf0 Hd) as Hd0.
  assert (kernel_wf k0) as Hk0 by by eapply ipc_frame_wf, Hk; [|apply Hk].
  destruct (send_loop_step n cur ci m k0 Hk0 Hd0) as (k1 & Hf1 & Hstep).
  assert (send_effect (k_sched k0) cur ci m = (Ok Blocked, get_task_mut (k_sched k0) cur (parked m target))) as He.
  { unfold send_effect. rewrite Hs0, Hch, Htg. simpl. by destruct (t_state tg). }
  rewrite He in Hf1, Hstep. cbn [fst snd deliveries_after] in Hf1, Hstep.
  exists m, k1. split; [done|]. split.
  { pose proof (ipc_frame_deliveries _ _ _ _ Hf0) as Hi. split; [|split; [|split]].
    - eapply ipc_frame_wf; [done| |done]. apply get_task_mut_wf; [apply Hk0|auto with kernel].
    - rewrite <- Hs0. eapply ipc_frame_only; [apply Hk0|done].
    - destruct Hf0 as [[a0 ->] _ _], Hf1 as [[a1 ->] _ _]. done.
    - by rewrite (ipc_frame_deliveries _ _ _ _ Hf1). }
  intros y k2 Hy. rewrite Hrun, Hstep. by apply (rbind_yield _ _ y).
Qed.

(** C13: A blocked send re-validates its authority.  A send to a task that is
    not waiting parks its message with the sender and yields.  Whenever the
    sender is resumed: if a receiver has taken the message the send succeeds;
    otherwise the capability is checked again, so that a revoked capability or
    a target that has terminated gives an error with the message withdrawn and
    nothing delivered, a waiting target is handed the message, and any other
    target makes the sender wait again. *)
Theorem blocked_send_revalidates n ci tag version payload t cur target tg k :
  kernel_wf k -> depth_ok k -> check_envelope tag version payload = Ok t ->
  s_current_task_id (k_sched k) = Some cur -> channel_of (k_sched k) cur ci = Ok target ->
  task_slot (k_sched k) target = Some tg -> t_state tg <> BlockedOnReceive -> t_state tg <> Terminated ->
  exists m k1, build_message cur t version payload = Ret m /\ parked_in k k1 cur m target /\
    forall y k2, yield_cpu k1 = Ret (Paused y, k2) ->
      exists resume, sys_send_typed (S (S n)) ci tag version payload k = Ret (Paused resume, k2) /\
        forall k3 t3, kernel_wf k3 -> depth_ok k3 -> task_slot (k_sched k3) cur = Some t3 ->
          resumed_send resume cur ci m k3 t3.
Proof.
  intros Hk Hd Hc Hcur Hch Htg Hnr Hnt.
  destruct (send_blocks (S n) ci tag version payload t cur target tg k) as (m & k1 & Hm & Hp & Hpause); [done..|].
  exists m, k1. split; [done|]. split; [done|]. intros y k2 Hy.
  destruct (Hpause y k2 Hy) as (resume & Hrun & Hres). exists resume. split; [done|].
  intros k3 t3 Hk3 Hd3 Ht3.
  pose proof (send_wake_resumes n cur ci m (interrupts_enabled (k_cpu k1)) k3 t3 Hk3 Hd3 Ht3) as Hw.
  unfold resumed_send in *. by rewrite Hres.
Qed.

(** ** Rendezvous *)

(** Queue and buffer of a task are empty. *)
Definition nothing_pending (t : Task) : Prop := mq_contents (t_msg_queue t) = [] /\ t_ipc_buffer t = None.

Lemma receive_enters n cur k :
  kernel_wf k -> s_current_task_id (k_sched k) = Some cur ->
  exists k', ipc_frame k (k_sched k) (k_ipc_deliveries k) k' /\
    sys_receive_typed n k = receive_loop n cur k'.
Proof.
  intros [Hs Hl Ha] Hcur.
  assert (wp (receive_enter "ipc_receive") (fun r k' => r = Ok cur /\
    ipc_frame k (k_sched k) (k_ipc_deliveries k) k') k) as Hw.
  { unfold receive_enter. apply wp_kbind, wp_current_or_no_context; [done|]. rewrite Hcur.
    apply wp_kbind, wp_ktrace. intros a Htr. apply wp_kret. split; [done|]. by apply ipc_frame_traced. }
  apply wp_run in Hw as (r & k' & Hrun & -> & Hf). exists k'. split; [done|].
  unfold sys_receive_typed. by rewrite (rbind_rlift _ _ _ _ _ Hrun).
Qed.

Lemma receive_loop_step n cur t k :
  kernel_wf k -> task_slot (k_sched k) cur = Some t ->
  exists o s' k', receives (k_sched k) cur t o s' /\
    ipc_frame k (if is_some o then s' else waiting cur s')
      (receive_count (k_sched k) t cur (k_ipc_deliveries k)) k' /\
    receive_loop (S n) cur k =
      match o with
      | Some r => Ret (Done r, k')
      | None => rbind yield_cpu (fun _ => receive_loop n cur) k'
      end.
Proof.
  intros Hk Ht. pose proof (receive_round_spec cur t k Hk Ht) as (o & k' & Hrun & s' & Hr & Hf)%wp_run.
  exists o, s', k'. split; [done|]. split; [done|]. cbn [receive_loop].
  rewrite (rbind_rlift _ _ _ _ _ Hrun). by destruct o.
Qed.

Lemma receives_none s cur t o s' :
  receives s cur t o s' -> mq_contents (t_msg_queue t) = [] -> t_ipc_buffer t = None ->
  (forall j tj, task_slot s j = Some tj -> t_state tj <> BlockedOnSend cur) -> o = None /\ s' = s.
Proof.
  intros Hr Hq Hb Hn. destruct Hr as [? ? ? Hq'|? _ Hb'|i ti _ _ (Hti & Hst & _)|]; try congruence.
  - by destruct (Hn i ti Hti).
  - done.
Qed.

Lemma receives_buffer s cur t o s' m :
  receives s cur t o s' -> mq_contents (t_msg_queue t) = [] -> t_ipc_buffer t = Some m ->
  o = Some (Ok m) /\ s' = get_task_mut s cur (set_t_ipc_buffer None).
Proof.
  intros Hr Hq Hb. destruct Hr as [? ? ? Hq'|? _ Hb'|? ? _ Hb'|_ Hb']; try congruence.
  split; [congruence|done].
Qed.

Lemma first_sender_unique s cur i t j t' :
  first_sender s cur i t -> first_sender s cur j t' -> i = j /\ t = t'.
Proof.
  intros (Hi & Hsi & Hmi) (Hj & Hsj & Hmj). destruct (N.lt_trichotomy i j) as [Hl|[->|Hl]].
  - by destruct (Hmj i t Hl Hi).
  - split; congruence.
  - by destruct (Hmi j t' Hl Hj).
Qed.

Lemma receives_from_sender s cur t o s' i ti m :
  sched_wf s -> task_slot s cur = Some t ->
  receives s cur t o s' -> mq_contents (t_msg_queue t) = [] -> t_ipc_buffer t = None ->
  first_sender s cur i ti -> t_ipc_buffer ti = Some m ->
  o = Some (Ok m) /\ (forall d, receive_count s t cur d = wadd64 d 1) /\
  exists t', task_slot s' i = Some t' /\ t_state t' = Ready /\ t_ipc_buffer t' = None.
Proof.
  intros Hs Ht Hr Hq Hb Hfs Hbuf. destruct Hr as [? ? ? Hq'|? _ Hb'|j tj _ _ Hfs'|_ _ Hn]; try congruence.
  2: { destruct Hfs as (Hti & Hst & _). by destruct (Hn i ti Hti). }
  destruct (first_sender_unique _ _ _ _ _ _ Hfs' Hfs) as [-> ->]. rewrite Hbuf. split; [done|].
  pose proof Hfs as (Hti & Hst & _). split.
  - intros d. unfold receive_count. rewrite Hq, Hb. pose proof (found_sender_spec s cur Hs) as Hf.
    destruct (found_sender s cur) as [j|].
    + destruct Hf as [tj Hf]. destruct (first_sender_unique _ _ _ _ _ _ Hf Hfs) as [-> ->]. by rewrite Hti, Hbuf.
    + by destruct (Hf i ti Hti).
  - assert (cur <> i) as Hne by (intros ->; congruence).
    rewrite get_task_mut_slot, decide_False by (done || (apply get_task_mut_wf; [done|]; intros u []; split; [done|by split])).
    rewrite get_task_mut_slot, decide_True, Hti by done. by eexists.
Qed.

Lemma send_to_waiting_frame n ci tag version payload t cur r tr k :
  kernel_wf k -> depth_ok k -> check_envelope tag version payload = Ok t ->
  s_current_task_id (k_sched k) = Some cur -> channel_of (k_sched k) cur ci = Ok r ->
  task_slot (k_sched k) r = Some tr -> t_state tr = BlockedOnReceive ->
  exists m k', build_message cur t version payload = Ret m /\
    sys_send_typed (S n) ci tag version payload k = Ret (Done (Ok tt), k') /\
    ipc_frame k (get_task_mut (k_sched k) r (handed m)) (wadd64 (k_ipc_deliveries k) 1) k'.
Proof.
  intros Hk Hd Hc Hcur Hch Htr Hst.
  destruct (sys_send_typed_enters (S n) ci tag version payload t cur k Hk Hc Hcur) as (m & k0 & Hm & Hf0 & Hrun).
  pose proof (ipc_frame_sched _ _ _ _ Hf0) as Hs0. pose proof (ipc_frame_depth _ _ _ _ Hf0 Hd) as Hd0.
  pose proof (ipc_frame_deliveries _ _ _ _ Hf0) as Hi0.
  assert (kernel_wf k0) as Hk0 by by eapply ipc_frame_wf, Hk; [|apply Hk].
  destruct (send_loop_step n cur ci m k0 Hk0 Hd0) as (k1 & Hf1 & Hstep).
  assert (send_effect (k_sched k0) cur ci m = (Ok Delivered, get_task_mut (k_sched k0) r (handed m))) as He.
  { unfold send_effect. rewrite Hs0, Hch, Htr. simpl. by rewrite Hst. }
  rewrite He in Hf1, Hstep. cbn [fst snd deliveries_after] in Hf1, Hstep.
  exists m, k1. rewrite Hrun, Hstep. split; [done|]. split; [done|].
  rewrite Hs0, Hi0 in Hf1. by eapply ipc_frame_trans.
Qed.

Lemma send_to_waiting n ci tag version payload t cur r tr k :
  kernel_wf k -> depth_ok k -> check_envelope tag version payload = Ok t ->
  s_current_task_id (k_sched k) = Some cur -> channel_of (k_sched k) cur ci = Ok r ->
  task_slot (k_sched k) r = Some tr -> t_state tr = BlockedOnReceive ->
  exists m k', build_message cur t version payload = Ret m /\
    sys_send_typed (S n) ci tag version payload k = Ret (Done (Ok tt), k') /\
    only_task r (handed m) (k_sched k) (k_sched k') /\
    k_ipc_deliveries k' = wadd64 (k_ipc_deliveries k) 1.
Proof.
  intros Hk Hd Hc Hcur Hch Htr Hst.
  destruct (send_to_waiting_frame n ci tag version payload t cur r tr k) as (m & k' & Hm & Hrun & Hf); [done..|].
  exists m, k'. split; [done|]. split; [done|]. split; [eapply ipc_frame_only, Hf; apply Hk|by eapply ipc_frame_deliveries].
Qed.

(** The message [m] is what [cur] sent: the kernel's stamp of the sender, the
    tag, the version, and the payload bytes. *)
Definition carries (m : Message) (cur : TaskId) (t : IpcTag) (version : N) (payload : list N) : Prop :=
  msg_sender m = cur /\ msg_tag m = t /\ msg_version m = version /\
  slice (msg_payload m) 0 (msg_len m) = Ret payload.

Lemma build_message_carries m cur tag t version payload :
  check_envelope tag version payload = Ok t -> build_message cur t version payload = Ret m ->
  carries m cur t version payload.
Proof.
  intros (Hlen & _)%check_envelope_Ok Hm.
  destruct (build_message_ok cur t version payload Hlen) as (m' & Hm' & ? & ? & ? & ? & ? & ?).
  rewrite Hm in Hm'. injection Hm' as <-. by repeat split.
Qed.

(** Rendezvous, sender first.  A send to a task that is not waiting pauses
    with its message parked.  When the receiver then receives, with nothing
    queued and this sender the first one blocked on it, it gets exactly the
    message sent, at once; the sender is made ready, and when resumed its send
    returns success. *)
Theorem rendezvous_sender_first n ci tag version payload t cur target tg k :
  kernel_wf k -> depth_ok k -> check_envelope tag version payload = Ok t ->
  s_current_task_id (k_sched k) = Some cur -> channel_of (k_sched k) cur ci = Ok target ->
  task_slot (k_sched k) target = Some tg -> t_state tg <> BlockedOnReceive -> t_state tg <> Terminated ->
  exists m k1, carries m cur t version payload /\ parked_in k k1 cur m target /\
    forall y k2, yield_cpu k1 = Ret (Paused y, k2) ->
      exists resume, sys_send_typed (S n) ci tag version payload k = Ret (Paused resume, k2) /\
        forall n3 k3 tr ts,
          kernel_wf k3 -> s_current_task_id (k_sched k3) = Some target ->
          task_slot (k_sched k3) target = Some tr -> nothing_pending tr ->
          first_sender (k_sched k3) target cur ts -> t_ipc_buffer ts = Some m ->
          exists k4, sys_receive_typed (S n3) k3 = Ret (Done (Ok m), k4) /\
            k_ipc_deliveries k4 = wadd64 (k_ipc_deliveries k3) 1 /\
            (exists t4, task_slot (k_sched k4) cur = Some t4 /\ t_state t4 = Ready /\ t_ipc_buffer t4 = None) /\
            forall k5 t5, kernel_wf k5 -> task_slot (k_sched k5) cur = Some t5 -> t_ipc_buffer t5 = None ->
              exists k6, resume k5 = Ret (Done (Ok tt), k6).
Proof.
  intros Hk Hd Hc Hcur Hch Htg Hnr Hnt.
  destruct (send_blocks n ci tag version payload t cur target tg k) as (m & k1 & Hm & Hp & Hpause); [done..|].
  exists m, k1. split; [by eapply build_message_carries|]. split; [done|]. intros y k2 Hy.
  destruct (Hpause y k2 Hy) as (resume & Hrun & Hres). exists resume. split; [done|].
  intros n3 k3 tr ts Hk3 Hcur3 Htr [Hq Hb] Hfs Hbuf.
  destruct (receive_enters (S n3) target k3 Hk3 Hcur3) as (k0 & Hf0 & Hrcv).
  pose proof (ipc_frame_sched _ _ _ _ Hf0) as Hs0. pose proof (ipc_frame_deliveries _ _ _ _ Hf0) as Hi0.
  assert (kernel_wf k0) as Hk0 by by eapply ipc_frame_wf, Hk3; [|apply Hk3].
  rewrite <- Hs0 in Htr, Hfs.
  destruct (receive_loop_step n3 target tr k0 Hk0 Htr) as (o & s' & k4 & Hr & Hf4 & Hloop).
  destruct (receives_from_sender _ _ _ _ _ _ _ _ (kw_sched _ Hk0) Htr Hr Hq Hb Hfs Hbuf) as (-> & Hcount & t4 & Ht4 & Hst & Hb4).
  exists k4. rewrite Hrcv, Hloop. split; [done|].
  rewrite (ipc_frame_deliveries _ _ _ _ Hf4), Hcount, Hi0. split; [done|].
  split; [by exists t4; rewrite (ipc_frame_sched _ _ _ _ Hf4)|].
  intros k5 t5 Hk5 Ht5 Hb5. rewrite Hres. eexists. rewrite (send_wake_step _ _ _ _ _ t5).
  - by rewrite Hb5.
  - by apply restore_interrupts_wf.
  - by rewrite restore_interrupts_sched.
Qed.

(** A receive with nothing to take marks the task as waiting and pauses; resumed
    with a message in its buffer, it returns that message. *)
Lemma receive_blocks n r tr k :
  kernel_wf k -> s_current_task_id (k_sched k) = Some r -> task_slot (k_sched k) r = Some tr ->
  nothing_pending tr -> (forall j tj, task_slot (k_sched k) j = Some tj -> t_state tj <> BlockedOnSend r) ->
  exists k1, ipc_frame k (get_task_mut (k_sched k) r (set_t_state BlockedOnReceive)) (k_ipc_deliveries k) k1 /\
    forall y k2, yield_cpu k1 = Ret (Paused y, k2) ->
      exists resume, sys_receive_typed (S (S n)) k = Ret (Paused resume, k2) /\
        forall k5 t5 m, kernel_wf k5 -> task_slot (k_sched k5) r = Some t5 ->
          mq_contents (t_msg_queue t5) = [] -> t_ipc_buffer t5 = Some m ->
          exists k6, resume k5 = Ret (Done (Ok m), k6) /\
            only_task r (set_t_ipc_buffer None) (k_sched k5) (k_sched k6).
Proof.
  intros Hk Hcur Htr [Hq Hb] Hnone. pose proof Hk as [Hs _ _].
  destruct (receive_enters (S (S n)) r k Hk Hcur) as (k0 & Hf0 & Hrcv).
  pose proof (ipc_frame_sched _ _ _ _ Hf0) as Hs0. pose proof (ipc_frame_deliveries _ _ _ _ Hf0) as Hd0.
  assert (kernel_wf k0) as Hk0 by by eapply ipc_frame_wf, Hk; [|apply Hk].
  rewrite <- Hs0 in Htr, Hnone.
  destruct (receive_loop_step (S n) r tr k0 Hk0 Htr) as (o & s' & k1 & Hr & Hf1 & Hloop).
  destruct (receives_none _ _ _ _ _ Hr Hq Hb Hnone) as [-> ->]. cbn [is_some] in Hf1.
  exists k1. split.
  { unfold receive_count in Hf1. rewrite Hq, Hb, Hs0, Hd0 in Hf1. 
    pose proof (found_sender_spec (k_sched k) r Hs) as Hfs. rewrite Hs0 in Hnone.
    destruct (found_sender (k_sched k) r) as [i|]; [|by eapply ipc_frame_trans].
    destruct Hfs as (ti & Hti & Hst & _). by destruct (Hnone i ti). }
  intros y k2 Hy. destruct (rbind_yield (receive_loop (S n) r) k1 y k2 Hy) as (resume & Hrun & Hres).
  exists resume. rewrite Hrcv, Hloop, Hrun. split; [done|].
  intros k5 t5 m Hk5 Ht5 Hq5 Hb5. rewrite Hres.
  set (k5' := restore_interrupts _ k5). assert (k_sched k5' = k_sched k5) as Hs5 by apply restore_interrupts_sched.
  assert (kernel_wf k5') as Hk5' by by apply restore_interrupts_wf. rewrite <- Hs5 in *.
  destruct (receive_loop_step n r t5 k5' Hk5' Ht5) as (o & s' & k6 & Hr6 & Hf6 & ->).
  destruct (receives_buffer _ _ _ _ _ _ Hr6 Hq5 Hb5) as [-> ->].
  exists k6. split; [done|]. eapply ipc_frame_only; [apply Hk5'|done].
Qed.

(** Rendezvous, receiver first.  A receive that finds nothing marks the
    task as waiting and pauses.  A send by another task holding a channel to
    it then completes at once and hands over exactly the message sent; when
    the receiver is resumed, its receive returns that message. *)
Theorem rendezvous_receiver_first n r tr k :
  kernel_wf k -> s_current_task_id (k_sched k) = Some r -> task_slot (k_sched k) r = Some tr ->
  nothing_pending tr -> (forall j tj, task_slot (k_sched k) j = Some tj -> t_state tj <> BlockedOnSend r) ->
  exists k1, kernel_wf k1 /\ only_task r (set_t_state BlockedOnReceive) (k_sched k) (k_sched k1) /\
    forall y k2, yield_cpu k1 = Ret (Paused y, k2) ->
      exists resume, sys_receive_typed (S (S n)) k = Ret (Paused resume, k2) /\
        forall n3 k3 cur ci tag version payload t t3,
          kernel_wf k3 -> depth_ok k3 -> check_envelope tag version payload = Ok t ->
          s_current_task_id (k_sched k3) = Some cur -> channel_of (k_sched k3) cur ci = Ok r ->
          task_slot (k_sched k3) r = Some t3 -> t_state t3 = BlockedOnReceive ->
          exists m k4, carries m cur t version payload /\
            sys_send_typed (S n3) ci tag version payload k3 = Ret (Done (Ok tt), k4) /\
            only_task r (handed m) (k_sched k3) (k_sched k4) /\
            k_ipc_deliveries k4 = wadd64 (k_ipc_deliveries k3) 1 /\
            forall k5 t5, kernel_wf k5 -> task_slot (k_sched k5) r = Some t5 ->
              mq_contents (t_msg_queue t5) = [] -> t_ipc_buffer t5 = Some m ->
              exists k6, resume k5 = Ret (Done (Ok m), k6) /\
                only_task r (set_t_ipc_buffer None) (k_sched k5) (k_sched k6).
Proof.
  intros Hk Hcur Htr Hp Hnone. pose proof Hk as [Hs _ _].
  destruct (receive_blocks n r tr k Hk Hcur Htr Hp Hnone) as (k1 & Hf1 & Hpause).
  exists k1. split; [|split].
  { eapply ipc_frame_wf; [done| |done]. apply get_task_mut_wf; [done|auto with kernel]. }
  { by eapply ipc_frame_only. }
  intros y k2 Hy. destruct (Hpause y k2 Hy) as (resume & Hrun & Hres). exists resume. split; [done|].
  intros n3 k3 cur ci tag version payload t t3 Hk3 Hd3 Hc Hcur3 Hch Ht3 Hst.
  destruct (send_to_waiting n3 ci tag version payload t cur r t3 k3) as (m & k4 & Hm & Hsend & Honly & Hdel); [done..|].
  exists m, k4. split; [by eapply build_message_carries|]. split_and!; [done..|].
  intros k5 t5 Hk5 Ht5 Hq5 Hb5. by apply (Hres k5 t5).
Qed.
End results.

(** ** Asynchronous messages *)

(** What an asynchronous send does to its target. *)
Definition queued (q : MessageQueue) (t : Task) : Task :=
  let t' := set_t_msg_queue q t in
  if state_is BlockedOnReceive t then set_t_state Ready t' else t'.

Lemma queued_wf q t : mq_wf q -> task_wf t -> t_id (queued q t) = t_id t /\ task_wf (queued q t).
Proof. intros Hq []. unfold queued. case_match; (split; [done|by split]). Qed.

(** The outcome of an asynchronous send and the table it leaves. *)
Inductive async_sends (s : Scheduler) (cur : TaskId) (ci : N) (m : Message)
  : result IpcError unit -> Scheduler -> Prop :=
| async_refused e : channel_of s cur ci = Err e -> async_sends s cur ci m (Err e) s
| async_gone target :
    channel_of s cur ci = Ok target ->
    (forall t, task_slot s target = Some t -> t_state t = Terminated) ->
    async_sends s cur ci m (Err TargetGone) s
| async_full target t :
    channel_of s cur ci = Ok target -> task_slot s target = Some t -> t_state t <> Terminated ->
    lenN (mq_contents (t_msg_queue t)) = MSG_QUEUE_CAPACITY ->
    async_sends s cur ci m (Err QueueFull) s
| async_queued target t q :
    channel_of s cur ci = Ok target -> task_slot s target = Some t -> t_state t <> Terminated ->
    mq_wf q -> mq_contents q = mq_contents (t_msg_queue t) ++ [m] ->
    async_sends s cur ci m (Ok tt) (get_task_mut s target (queued q)).

Lemma get_task_mut_twice s i f g :
  sched_wf s -> (forall t, task_wf t -> t_id (f t) = t_id t /\ task_wf (f t)) ->
  get_task_mut (get_task_mut s i f) i g = get_task_mut s i (fun t => g (f t)).
Proof.
  intros Hs Hf. pose proof (get_task_mut_slot s i f i Hs) as Hi. rewrite decide_True in Hi by done.
  pose proof (get_task_mut_wf s i f Hs Hf) as Hs'. unfold get_task_mut at 1. rewrite get_task_wf by done.
  rewrite Hi. unfold get_task_mut. rewrite get_task_wf by done.
  destruct (task_slot s i) as [t|]; [|done]. cbn [fmap option_fmap option_map].
  unfold put_slot, set_s_tasks. simpl. by rewrite upd_upd_eq.
Qed.

Lemma get_task_mut_ext s i t f g :
  sched_wf s -> task_slot s i = Some t -> f t = g t -> get_task_mut s i f = get_task_mut s i g.
Proof.
  intros Hs Ht Hfg. unfold get_task_mut. rewrite get_task_wf by done. by rewrite Ht, Hfg.
Qed.

Lemma async_sends_wf s cur ci m r s' : sched_wf s -> async_sends s cur ci m r s' -> sched_wf s'.
Proof.
  intros Hs []; [done..|]. apply get_task_mut_wf; [done|]. intros u Hu. by apply queued_wf.
Qed.

(** The end of the region: unlock and leave the non-preemptible section. *)
Lemma ipc_frame_async k0 k s d a :
  k_sched_locked k = false -> depth_ok k ->
  traced (k_amb (on_preempt enter_critical k)) a ->
  k0 = set_k_sched_locked true (on_preempt enter_critical k) ->
  ipc_frame k s d (on_preempt exit_critical (set_k_sched_locked false
    (set_k_ipc_deliveries d (set_k_sched s (set_k_amb a k0))))).
Proof.
  intros Hl Hd (Hp & Hc & _) ->. ksimp. split; ksimp.
  - eexists. destruct k. simpl in *. rewrite Hl. reflexivity.
  - change (ps_preempt_count (exit_critical (am_preempt a)) = ps_preempt_count (am_preempt (k_amb k))).
    rewrite Hp. ksimp. change (am_preempt (set_am_preempt ?v _)) with v. by rewrite exit_enter_critical.
  - change (am_next_cap_id a = am_next_cap_id (k_amb k)). rewrite Hc. done.
Qed.

Lemma sys_send_async_spec cur ci tag version payload t k :
  kernel_wf k -> depth_ok k -> check_envelope tag version payload = Ok t ->
  s_current_task_id (k_sched k) = Some cur ->
  wp (sys_send_async ci tag version payload) (fun r k' => exists m s',
    build_message cur t version payload = Ret m /\ async_sends (k_sched k) cur ci m r s' /\
    ipc_frame k s' (if is_ok r then wadd64 (k_ipc_deliveries k) 1 else k_ipc_deliveries k) k') k.
Proof.
  intros Hk Hd Hc Hcur. pose proof Hk as [Hs Hl Ha]. unfold sys_send_async. apply wp_kbind.
  eapply wp_send_enter; [done..|]. intros m k1 Hm Hf1.
  pose proof (ipc_frame_sched _ _ _ _ Hf1) as Hs1. pose proof (ipc_frame_depth _ _ _ _ Hf1 Hd) as Hd1.
  assert (k_sched_locked k1 = false) as Hl1 by by destruct Hf1 as [[a1 ->] _ _].
  rewrite <- (ipc_frame_deliveries _ _ _ _ Hf1). rewrite <- Hs1 in *.
  apply wp_kbind, wp_kmod, wp_kbind, wp_lock_sched; [done|]. apply wp_kbind, wp_resolve_target; [done|].
  intros a Htr. change (k_amb (set_k_sched_locked true ?x)) with (k_amb x) in Htr.
  set (k0 := set_k_sched_locked true (on_preempt enter_critical k1)) in *.
  assert (forall s r, async_sends (k_sched k1) cur ci m r s ->
    exists m0 s', build_message cur t version payload = Ret m0 /\ async_sends (k_sched k1) cur ci m0 r s' /\
      ipc_frame k s' (if is_ok r then wadd64 (k_ipc_deliveries k1) 1 else k_ipc_deliveries k1)
        (on_preempt exit_critical (set_k_sched_locked false (set_k_ipc_deliveries
          (if is_ok r then wadd64 (k_ipc_deliveries k1) 1 else k_ipc_deliveries k1)
          (set_k_sched s (set_k_amb a k0)))))) as Hend.
  { intros s r Hr. exists m, s. split; [done|]. split; [done|].
    eapply ipc_frame_trans; [done|]. by apply ipc_frame_async. }
  apply wp_kbind. change (k_sched k0) with (k_sched k1).
  destruct (channel_of (k_sched k1) cur ci) as [target|e] eqn:Hch.
  2: { wp_steps. exact (Hend (k_sched k1) _ (async_refused _ _ _ _ _ Hch)). }
  apply wp_kbind. unfold kget_task, kupdate_task. apply wp_kget.
  change (k_sched (set_k_amb a k0)) with (k_sched k1). rewrite get_task_wf by done.
  destruct (task_slot (k_sched k1) target) as [tg|] eqn:Htg.
  2: { wp_steps. refine (Hend (k_sched k1) _ (async_gone _ _ _ _ _ Hch _)). intros. congruence. }
  destruct (state_is Terminated tg) eqn:Hst.
  { apply state_is_true in Hst. wp_steps. refine (Hend (k_sched k1) _ (async_gone _ _ _ _ _ Hch _)). intros. congruence. }
  apply state_is_false in Hst. pose proof (task_wf_queue _ (sched_wf_task _ Hs _ _ Htg)) as Hq.
  apply wp_kbind. destruct (decide (mq_count (t_msg_queue tg) = MSG_QUEUE_CAPACITY)) as [Hfull|Hroom].
  - eapply wp_klift; [by apply mq_enqueue_full|]. apply wp_kbind, wp_kmod.
    unfold on_sched. change (k_sched (set_k_amb a k0)) with (k_sched k1).
    rewrite (get_task_mut_id _ target tg) by (done || by destruct tg). wp_steps.
    refine (Hend (k_sched k1) _ (async_full _ _ _ _ _ _ Hch Htg Hst _)). by rewrite mq_contents_len.
  - destruct (mq_enqueue_ok (t_msg_queue tg) m Hq) as (q & Henq & Hq' & Hc').
    { pose proof (mq_wf_count _ Hq). lia. }
    eapply wp_klift; [done|]. apply wp_kbind, wp_kmod, wp_kbind.
    specialize (Hend _ _ (async_queued _ _ _ _ _ _ _ Hch Htg Hst Hq' Hc')).
    destruct (state_is BlockedOnReceive tg) eqn:Hbr; unfold bump_ipc_deliveries; wp_steps.
    + assert (get_task_mut (get_task_mut (k_sched k1) target (set_t_msg_queue q)) target (set_t_state Ready)
        = get_task_mut (k_sched k1) target (queued q)) as He.
      { rewrite get_task_mut_twice by (done || intros; by apply set_queue_wf).
        apply (get_task_mut_ext _ _ tg); [done..|]. unfold queued. by rewrite Hbr. }
      rewrite <- He in Hend. exact Hend.
    + assert (get_task_mut (k_sched k1) target (set_t_msg_queue q)
        = get_task_mut (k_sched k1) target (queued q)) as He.
      { apply (get_task_mut_ext _ _ tg); [done..|]. unfold queued. by rewrite Hbr. }
      rewrite <- He in Hend. exact Hend.
Qed.

(** An asynchronous send is exact.  It always completes; it appends the
    message, stamped with the sender, to the queue of the task named by the
    capability, waking it if it waits, and touches nothing else; a bad
    capability, a dead target or a full queue gives the corresponding error
    and leaves every task as it was. *)
Theorem async_send_exact k cur ci tag version payload t :
  kernel_wf k -> depth_ok k -> check_envelope tag version payload = Ok t ->
  s_current_task_id (k_sched k) = Some cur ->
  exists r k' m, sys_send_async ci tag version payload k = Ret (r, k') /\
    carries m cur t version payload /\ kernel_wf k' /\
    async_sends (k_sched k) cur ci m r (k_sched k') /\
    ps_preempt_count (am_preempt (k_amb k')) = ps_preempt_count (am_preempt (k_amb k)) /\
    k_ipc_deliveries k' = if is_ok r then wadd64 (k_ipc_deliveries k) 1 else k_ipc_deliveries k.
Proof.
  intros Hk Hd Hc Hcur.
  pose proof (sys_send_async_spec cur ci tag version payload t k Hk Hd Hc Hcur)
    as (r & k' & Hrun & m & s' & Hm & Hr & Hf)%wp_run.
  exists r, k', m. split; [done|]. split; [by eapply build_message_carries|].
  split; [eapply ipc_frame_wf; [done|by eapply async_sends_wf, Hr; apply Hk|done]|].
  rewrite (ipc_frame_sched _ _ _ _ Hf). split; [done|]. split; [apply Hf|]. by eapply ipc_frame_deliveries.
Qed.

(** A run of asynchronous sends through one capability, and a run of receives. *)
Fixpoint send_batch (ci : N) (l : list (N * N * list N)) : K (list (result IpcError unit)) :=
  match l with
  | [] => kret []
  | (tag, version, payload) :: l' =>
      let* r := sys_send_async ci tag version payload in
      let* rs := send_batch ci l' in
      kret (r :: rs)
  end.

Fixpoint receive_batch (n : nat) : K (list (result IpcError Message)) :=
  match n with
  | O => kret []
  | S n' => let* r := sys_receive_async in let* rs := receive_batch n' in kret (r :: rs)
  end.

(** [m] is the message of one element of a batch sent by [cur]. *)
Definition batch_message (cur : TaskId) (e : N * N * list N) (m : Message) : Prop :=
  let '(tag, version, payload) := e in
  exists t, from_u16 tag = Some t /\ carries m cur t version payload.

Definition batch_ok (e : N * N * list N) : Prop :=
  let '(tag, version, payload) := e in is_ok (check_envelope tag version payload) = true.

Lemma channel_of_queued s cur ci target q :
  sched_wf s -> channel_of (get_task_mut s target (queued q)) cur ci = channel_of s cur ci.
Proof.
  intros Hs. unfold channel_of. rewrite get_task_mut_slot by done.
  destruct (decide (target = cur)); [|done]. destruct (task_slot s cur) as [t|]; [|done].
  cbn [fmap option_fmap option_map]. unfold queued. by destruct (state_is _ _).
Qed.

Lemma send_batch_spec cur ci target batch k tg :
  kernel_wf k -> depth_ok k -> s_current_task_id (k_sched k) = Some cur ->
  channel_of (k_sched k) cur ci = Ok target -> task_slot (k_sched k) target = Some tg ->
  t_state tg <> Terminated -> Forall batch_ok batch ->
  lenN (mq_contents (t_msg_queue tg)) + lenN batch <= MSG_QUEUE_CAPACITY ->
  exists ms k' tg', send_batch ci batch k = Ret ((fun _ => Ok tt) <$> batch, k') /\
    Forall2 (batch_message cur) batch ms /\ kernel_wf k' /\
    task_slot (k_sched k') target = Some tg' /\
    mq_contents (t_msg_queue tg') = mq_contents (t_msg_queue tg) ++ ms.
Proof.
  intros Hk Hd Hcur Hch Htg Hnt Hall. revert k tg Hk Hd Hcur Hch Htg Hnt.
  induction Hall as [|[[tag version] payload] batch Hok Hall IH]; intros k tg Hk Hd Hcur Hch Htg Hnt Hroom.
  { exists [], k, tg. split_and!; [done|constructor|done..|by rewrite app_nil_r]. }
  cbn [batch_ok] in Hok. destruct (check_envelope tag version payload) as [t|] eqn:Hc; [|done].
  pose proof (sys_send_async_spec cur ci tag version payload t k Hk Hd Hc Hcur)
    as (r & k1 & Hrun & m & s' & Hm & Hr & Hf)%wp_run.
  assert (lenN ((tag, version, payload) :: batch) = lenN batch + 1) as Hlen by (unfold lenN; simpl; lia).
  destruct Hr as [e He|tgt Ht Hdead|tgt t' Ht Ht' _ Hfull|tgt t' q Ht Ht' _ Hq Hqc]; simplify_eq.
  - congruence.
  - rewrite Hch in Ht. injection Ht as <-. by destruct (Hnt (Hdead _ Htg)).
  - rewrite Hch in Ht. injection Ht as <-. rewrite Htg in Ht'. injection Ht' as <-. lia.
  - rewrite Hch in Ht. injection Ht as <-. rewrite Htg in Ht'. injection Ht' as <-.
    pose proof (ipc_frame_sched _ _ _ _ Hf) as Hs1. pose proof (kw_sched _ Hk) as Hs.
    destruct (IH k1 (queued q tg)) as (ms & k' & tg' & Hrest & Hms & Hk' & Htg' & Hcont).
    + eapply ipc_frame_wf; [done| |done]. apply get_task_mut_wf; [done|]. intros u Hu. by apply queued_wf.
    + by eapply ipc_frame_depth.
    + by rewrite Hs1, get_task_mut_current.
    + by rewrite Hs1, channel_of_queued.
    + rewrite Hs1, get_task_mut_slot, decide_True by done. by rewrite Htg.
    + unfold queued. by destruct (state_is BlockedOnReceive tg).
    + assert (t_msg_queue (queued q tg) = q) as -> by (unfold queued; by destruct (state_is _ _)).
      rewrite Hqc. unfold lenN in *. rewrite length_app. simpl length in *. lia.
    + assert (t_msg_queue (queued q tg) = q) as Hqq by (unfold queued; by destruct (state_is _ _)).
      exists (m :: ms), k', tg'. cbn [send_batch]. unfold kbind. rewrite Hrun. cbn [obind]. rewrite Hrest.
      split; [done|]. split; [|split; [done|split; [done|]]].
      * constructor; [|done]. exists t. split; [|by eapply build_message_carries].
        by apply check_envelope_Ok in Hc as (_ & ? & _).
      * rewrite Hcont, Hqq, Hqc. by rewrite <- app_assoc.
Qed.

Lemma receive_batch_spec r ms k t :
  kernel_wf k -> s_current_task_id (k_sched k) = Some r -> task_slot (k_sched k) r = Some t ->
  mq_contents (t_msg_queue t) = ms ->
  exists k', receive_batch (length ms) k = Ret (Ok <$> ms, k').
Proof.
  revert k t. induction ms as [|m ms IH]; intros k t Hk Hcur Ht Hms; [by exists k|].
  pose proof (sys_receive_async_spec r t k Hk Hcur Ht) as (res & k1 & Hrun & o & s' & Hr & -> & Hf)%wp_run.
  pose proof (kw_sched _ Hk) as Hs. pose proof (ipc_frame_sched _ _ _ _ Hf) as Hs1.
  pose proof (receives_wf _ _ _ _ _ Hs Hr) as Hs'.
  destruct Hr as [m' l q Hq Hqw Hqc|? Hq|? ? Hq|Hq]; try congruence.
  rewrite Hms in Hq. injection Hq as <- <-.
  destruct (IH k1 (set_t_msg_queue q t)) as (k' & Hrest).
  - by eapply ipc_frame_wf.
  - by rewrite Hs1, get_task_mut_current.
  - rewrite Hs1, get_task_mut_slot, decide_True by done. by rewrite Ht.
  - done.
  - exists k'. cbn [receive_batch length]. unfold kbind. rewrite Hrun. cbn [obind]. by rewrite Hrest.
Qed.

(** C14: Asynchronous messages arrive in order.  A batch of sends that fits the
    target's queue is accepted whole, and whatever the target does to its
    other state in between, receiving then yields first the messages already
    queued and then those of the batch, each as sent, in the order sent. *)
Theorem async_fifo cur ci target batch k tg :
  kernel_wf k -> depth_ok k -> s_current_task_id (k_sched k) = Some cur ->
  channel_of (k_sched k) cur ci = Ok target -> task_slot (k_sched k) target = Some tg ->
  t_state tg <> Terminated -> Forall batch_ok batch ->
  lenN (mq_contents (t_msg_queue tg)) + lenN batch <= MSG_QUEUE_CAPACITY ->
  exists ms k1 tg1, send_batch ci batch k = Ret ((fun _ => Ok tt) <$> batch, k1) /\
    Forall2 (batch_message cur) batch ms /\ task_slot (k_sched k1) target = Some tg1 /\
    forall k2 t2, kernel_wf k2 -> s_current_task_id (k_sched k2) = Some target ->
      task_slot (k_sched k2) target = Some t2 -> t_msg_queue t2 = t_msg_queue tg1 ->
      exists k3, receive_batch (length (mq_contents (t_msg_queue tg) ++ ms)) k2 =
        Ret (Ok <$> (mq_contents (t_msg_queue tg) ++ ms), k3).
Proof.
  intros Hk Hd Hcur Hch Htg Hnt Hall Hroom.
  destruct (send_batch_spec cur ci target batch k tg) as (ms & k1 & tg1 & Hrun & Hms & Hk1 & Htg1 & Hc); [done..|].
  exists ms, k1, tg1. split; [done|]. split; [done|]. split; [done|]. intros k2 t2 Hk2 Hcur2 Ht2 Hq.
  eapply receive_batch_spec; [done..|]. by rewrite Hq.
Qed.

(** ** Receiving *)

(** A receive takes what is due.  The non-blocking receive returns the
    oldest queued message, else the message in the rendezvous buffer, else the
    message of the lowest-numbered task blocked sending to the caller, which
    is woken, else [NoMessage]; it touches no other task.  The blocking
    receive returns at once in the first three cases, with the same choice, and
    otherwise marks the caller as waiting and yields. *)
Theorem receive_exact `{L : Layout} n k cur t :
  kernel_wf k -> s_current_task_id (k_sched k) = Some cur -> task_slot (k_sched k) cur = Some t ->
  (exists o k', receives (k_sched k) cur t o (k_sched k') /\ kernel_wf k' /\
     sys_receive_async k = Ret (match o with Some r => r | None => Err NoMessage end, k')) /\
  (exists o s' k', receives (k_sched k) cur t o s' /\ kernel_wf k' /\
     match o with
     | Some r => sys_receive_typed (S n) k = Ret (Done r, k') /\ k_sched k' = s'
     | None => only_task cur (set_t_state BlockedOnReceive) (k_sched k) (k_sched k') /\
         forall y k2, yield_cpu k' = Ret (Paused y, k2) ->
           exists resume, sys_receive_typed (S n) k = Ret (Paused resume, k2)
     end).
Proof.
  intros Hk Hcur Ht. pose proof (kw_sched _ Hk) as Hs. split.
  - pose proof (sys_receive_async_spec cur t k Hk Hcur Ht) as (r & k' & Hrun & o & s' & Hr & -> & Hf)%wp_run.
    exists o, k'. rewrite (ipc_frame_sched _ _ _ _ Hf). split; [done|]. split; [|done].
    eapply ipc_frame_wf; [done|by eapply receives_wf|done].
  - destruct (receive_enters (S n) cur k Hk Hcur) as (k0 & Hf0 & ->).
    pose proof (ipc_frame_sched _ _ _ _ Hf0) as Hs0.
    assert (kernel_wf k0) as Hk0 by by eapply ipc_frame_wf, Hk; [|apply Hk].
    rewrite <- Hs0 in Ht. destruct (receive_loop_step n cur t k0 Hk0 Ht) as (o & s' & k' & Hr & Hf & ->).
    rewrite Hs0 in Hr. exists o, s', k'. split; [done|]. pose proof (receives_wf _ _ _ _ _ Hs Hr) as Hs'.
    destruct o as [r|]; cbn [is_some] in Hf.
    + split; [by eapply ipc_frame_wf|]. split; [done|]. by eapply ipc_frame_sched.
    + split; [eapply ipc_frame_wf; [done| |done]; apply get_task_mut_wf; [done|auto with kernel]|].
      inversion Hr; subst s'. split.
      * rewrite (ipc_frame_sched _ _ _ _ Hf). by apply get_task_mut_only.
      * intros y k2 Hy. destruct (rbind_yield (receive_loop n cur) k' y k2 Hy) as (res & Hres & _). by exists res.
Qed.

(** ** A lost message *)

(** Task [id] gets the processor from the current task. *)
Definition run_as (id : TaskId) (k : Kernel) : Kernel :=
  on_sched (fun s => handoff (s_current_task_id s) id s) k.

Definition from_sender (src : TaskId) (m : Message) : bool := msg_sender m =? src.

(** Some queue or buffer holds a message from [src]. *)
Definition in_flight (src : TaskId) (s : Scheduler) : bool :=
  existsb (fun o => match o with
                    | Some t => existsb (from_sender src) (mq_contents (t_msg_queue t)) ||
                                match t_ipc_buffer t with Some m => from_sender src m | None => false end
                    | None => false
                    end) (s_tasks s).

Definition channel (target : TaskId) : Capability := mkCap (IpcChannel target) true true false false 1 None.

(** Tasks 1 and 3 hold channels to task 2, which waits for a message and holds
    a channel to task 1. *)
Definition lossy_system : Kernel :=
  add_task (example_task 3 Ready [channel 2])
    (add_task (example_task 2 BlockedOnReceive [channel 1])
      (add_task (example_task 1 Ready [channel 2]) Kernel_init)).

(** The run of the theorem below, with what it shows: whether task 1's message
    is held somewhere after it was sent, whom task 2 receives from, and whether
    the message is still held at the end. *)
Definition lossy_run (k : Kernel) : option (bool * N * bool) :=
  match sys_send_typed (L := example_layout) 5 0 3 0 [1] (run_as 1 k) with
  | Ret (Done (Ok _), k1) =>
      match sys_send_async 0 3 0 [2] (run_as 3 k1) with
      | Ret (Ok _, k2) =>
          match sys_receive_typed (L := example_layout) 5 (run_as 2 k2) with
          | Ret (Done (Ok m), k3) =>
              match sys_send_typed (L := example_layout) 5 0 3 0 [4] (run_as 2 k3) with
              | Ret (Paused _, k4) =>
                  Some (in_flight 1 (k_sched k1), msg_sender m, in_flight 1 (k_sched k4))
              | _ => None
              end
          | _ => None
          end
      | _ => None
      end
  | _ => None
  end.

Lemma lossy_run_inv k before sender after :
  lossy_run k = Some (before, sender, after) ->
  exists k1 k2 k3 k4 m resume,
    sys_send_typed (L := example_layout) 5 0 3 0 [1] (run_as 1 k) = Ret (Done (Ok tt), k1) /\
    in_flight 1 (k_sched k1) = before /\
    sys_send_async 0 3 0 [2] (run_as 3 k1) = Ret (Ok tt, k2) /\
    sys_receive_typed (L := example_layout) 5 (run_as 2 k2) = Ret (Done (Ok m), k3) /\ msg_sender m = sender /\
    sys_send_typed (L := example_layout) 5 0 3 0 [4] (run_as 2 k3) = Ret (Paused resume, k4) /\
    in_flight 1 (k_sched k4) = after.
Proof.
  unfold lossy_run. intros Hrun.
  destruct (sys_send_typed 5 0 3 0 [1] _) as [[[[[]|]|] k1]| | |] eqn:H1; try discriminate Hrun.
  destruct (sys_send_async 0 3 0 [2] _) as [[[[]|] k2]| | |] eqn:H2; try discriminate Hrun.
  destruct (sys_receive_typed 5 _) as [[[[m|]|] k3]| | |] eqn:H3; try discriminate Hrun.
  destruct (sys_send_typed 5 0 3 0 [4] _) as [[[|resume] k4]| | |] eqn:H4; try discriminate Hrun.
  injection Hrun as Hf1 Hm Hf4. exists k1, k2, k3, k4, m, resume.
  exact (conj eq_refl (conj Hf1 (conj H2 (conj H3 (conj Hm (conj H4 Hf4)))))).
Qed.

(** A message that was accepted can be lost.  Task 1's blocking send to the
    waiting task 2 succeeds and leaves the message in task 2's rendezvous
    buffer; task 3 then queues a message for task 2; task 2's receive returns
    task 3's message, since the queue has priority; when task 2 next makes a
    blocking send, its own outgoing message overwrites the buffer, and no
    queue or buffer holds task 1's message although its send returned
    success. *)
Theorem accepted_message_lost :
  exists k1 k2 k3 k4 m resume,
    sys_send_typed (L := example_layout) 5 0 3 0 [1] (run_as 1 lossy_system) = Ret (Done (Ok tt), k1) /\
    in_flight 1 (k_sched k1) = true /\
    sys_send_async 0 3 0 [2] (run_as 3 k1) = Ret (Ok tt, k2) /\
    sys_receive_typed (L := example_layout) 5 (run_as 2 k2) = Ret (Done (Ok m), k3) /\ msg_sender m = 3 /\
    sys_send_typed (L := example_layout) 5 0 3 0 [4] (run_as 2 k3) = Ret (Paused resume, k4) /\
    in_flight 1 (k_sched k4) = false.
Proof. apply lossy_run_inv. vm_compute. reflexivity. Qed.

(** ** Instances *)

(** Task 1 runs and holds a channel to task 2, which is ready; task 2 holds one
    back to task 1. *)
Definition talk_system (st : TaskState) : Kernel :=
  set_current 1
    (add_task (example_task 2 st [channel 1])
      (add_task (example_task 1 Running [channel 2]) Kernel_init)).

Lemma talk_system_wf st : kernel_wf (talk_system st).
Proof. unfold talk_system. auto 20 with kernel arith. Qed.

Lemma talk_system_depth st : depth_ok (talk_system st).
Proof. reflexivity. Qed.

Lemma blocked_send_revalidates_witness :
  exists m k1, build_message 1 Ping 0 [7] = Ret m /\
    parked_in (talk_system Ready) k1 1 m 2.
Proof.
  destruct (blocked_send_revalidates (L := example_layout) 3 0 3 0 [7] Ping 1 2 (example_task 2 Ready [channel 1])
    (talk_system Ready)) as (m & k1 & ? & ? & _).
  - apply talk_system_wf.
  - apply talk_system_depth.
  - reflexivity.
  - reflexivity.
  - vm_compute. reflexivity.
  - vm_compute. reflexivity.
  - discriminate.
  - discriminate.
  - exists m, k1. split; assumption.
Defined.

Lemma rendezvous_sender_first_witness :
  exists m k1, carries m 1 Ping 0 [7] /\ parked_in (talk_system Ready) k1 1 m 2.
Proof.
  destruct (rendezvous_sender_first (L := example_layout) 3 0 3 0 [7] Ping 1 2 (example_task 2 Ready [channel 1])
    (talk_system Ready)) as (m & k1 & ? & ? & _).
  - apply talk_system_wf.
  - apply talk_system_depth.
  - reflexivity.
  - reflexivity.
  - vm_compute. reflexivity.
  - vm_compute. reflexivity.
  - discriminate.
  - discriminate.
  - exists m, k1. split; assumption.
Defined.

Lemma talk_system_no_senders j tj :
  task_slot (k_sched (talk_system Ready)) j = Some tj -> t_state tj <> BlockedOnSend 1.
Proof.
  change (k_sched (talk_system Ready)) with (set_s_current_task_id (Some 1)
    (put_slot 2 (Some (example_task 2 Ready [channel 1]))
      (put_slot 1 (Some (example_task 1 Running [channel 2])) Scheduler_init))).
  change (task_slot (set_s_current_task_id ?o ?s) j) with (task_slot s j).
  rewrite !task_slot_put by done. repeat destruct (decide _); intros; simplify_eq; [done..|].
  exfalso. unfold task_slot in *. destruct (idx _ j) as [o|] eqn:Ho; [|done].
  apply idx_elem_of, elem_of_replicate_inv in Ho. by subst.
Qed.

Lemma rendezvous_receiver_first_witness :
  exists k1, kernel_wf k1 /\
    only_task 1 (set_t_state BlockedOnReceive) (k_sched (talk_system Ready)) (k_sched k1).
Proof.
  destruct (rendezvous_receiver_first (L := example_layout) 3 1 (example_task 1 Running [channel 2]) (talk_system Ready))
    as (k1 & ? & ? & _).
  - apply talk_system_wf.
  - reflexivity.
  - vm_compute. reflexivity.
  - split; reflexivity.
  - exact talk_system_no_senders.
  - exists k1. split; assumption.
Defined.

Lemma async_send_exact_witness :
  exists r k' m, sys_send_async 0 3 0 [7] (talk_system Ready) = Ret (r, k') /\ carries m 1 Ping 0 [7].
Proof.
  destruct (async_send_exact (talk_system Ready) 1 0 3 0 [7] Ping) as (r & k' & m & ? & ? & _).
  - apply talk_system_wf.
  - apply talk_system_depth.
  - reflexivity.
  - reflexivity.
  - exists r, k', m. split; assumption.
Defined.

Lemma async_fifo_witness :
  exists ms k1, send_batch 0 [(3, 0, [7]); (1, 0, [8])] (talk_system Ready) = Ret ([Ok tt; Ok tt], k1) /\
    Forall2 (batch_message 1) [(3, 0, [7]); (1, 0, [8])] ms.
Proof.
  destruct (async_fifo 1 0 2 [(3, 0, [7]); (1, 0, [8])] (talk_system Ready) (example_task 2 Ready [channel 1]))
    as (ms & k1 & tg1 & ? & ? & _).
  - apply talk_system_wf.
  - apply talk_system_depth.
  - reflexivity.
  - vm_compute. reflexivity.
  - vm_compute. reflexivity.
  - discriminate.
  - repeat constructor.
  - vm_compute. discriminate.
  - exists ms, k1. split; assumption.
Defined.

Lemma receive_exact_witness :
  exists o k', receives (k_sched (talk_system Ready)) 1 (example_task 1 Running [channel 2]) o (k_sched k') /\
    sys_receive_async (talk_system Ready) = Ret (match o with Some r => r | None => Err NoMessage end, k').
Proof.
  destruct (receive_exact (L := example_layout) 3 (talk_system Ready) 1 (example_task 1 Running [channel 2]))
    as [(o & k' & ? & ? & ?) _].
  - apply talk_system_wf.
  - reflexivity.
  - vm_compute. reflexivity.
  - exists o, k'. split; assumption.
Defined.
