(* ===== verification/Atomicity.v ===== *)
(** * Sending under interruption

    The validate-and-use region of [sys_send_typed] in [kernel/process/ipc.rs] with
    the timer interrupt between any two of its operations.  [send_program] is the
    region operation by operation; without interrupts it is [send_region]
    ([send_program_runs]).  A tick runs the handler of [Timer]; when that switches
    tasks, the others may do anything before the sender is resumed.
    [send_region_atomic]: wherever the ticks fall, validation and use see one state. *)

From S2P Require Import Prelude Ring Preempt Trace Capability AuditTrail Message Machine Frames.
From S2P Require Import Task Scheduler Kernel Switch Scheduling Spawn Contexts Timer Ipc Rendezvous Messaging.
Local Open Scope N_scope.

(** ** Interruptible programs *)

(** A program as the operations between which an interrupt can be taken; [Use] marks
    those on the task table. *)
Inductive program (A : Type) : Type :=
| Fin (a : A)
| Op {B : Type} (op : K B) (next : B -> program A)
| Use {B : Type} (op : K B) (next : B -> program A).
Arguments Fin {A} _.
Arguments Op {A B} _ _.
Arguments Use {A B} _ _.

(** The program without interrupts. *)
Fixpoint uninterrupted {A} (p : program A) : K A :=
  match p with
  | Fin a => kret a
  | Op op next | Use op next => let* b := op in uninterrupted (next b)
  end.

(** The end of the region: the guards are dropped in the reverse order, the lock
    first. *)
Definition send_leave (outcome : result IpcError SendStep) : program (result IpcError SendStep) :=
  Op unlock_sched (fun _ =>
  Op (kmod (on_preempt exit_ipc_window)) (fun _ =>
  Op (kmod (on_preempt exit_critical)) (fun _ =>
  Fin outcome))).

Definition send_program (current : TaskId) (cap_idx : N) (msg : Message) : program (result IpcError SendStep) :=
  Op (kmod (on_preempt enter_critical)) (fun _ =>
  Op (kmod (on_preempt enter_ipc_window)) (fun _ =>
  Op lock_sched (fun _ =>
  Use (resolve_target_locked current cap_idx) (fun r =>
  match r with
  | Err e => Use (kupdate_task current (set_t_ipc_buffer None)) (fun _ => send_leave (Err e))
  | Ok target =>
      Use (kget_task target) (fun ot =>
      match t_state <$> ot with
      | None | Some Terminated => send_leave (Ok Gone)
      | Some BlockedOnReceive =>
          Use (kupdate_task target (set_t_ipc_buffer (Some msg))) (fun _ =>
          Use (kupdate_task target (set_t_state Ready)) (fun _ =>
          Op bump_ipc_deliveries (fun _ =>
          send_leave (Ok Delivered))))
      | Some _ =>
          Use (kupdate_task current (set_t_state (BlockedOnSend target))) (fun _ =>
          Use (kupdate_task current (set_t_ipc_buffer (Some msg))) (fun _ =>
          send_leave (Ok Blocked)))
      end)
  end)))).

Section interrupts.
Context `{L : Layout}.

(** A state in which an interrupted task is resumed: other tasks ran, and gave up the
    processor outside their own regions. *)
Definition resumable (k : Kernel) : Prop := kernel_wf k /\ ps_preempt_count (am_preempt (k_amb k)) = 0.

(** One timer interrupt: the handler returns to the interrupted code, or switches
    away from it and it goes on in some later state. *)
Inductive tick (k : Kernel) : Kernel -> Prop :=
| tick_back k' : timer_isr k = Ret (false, k') -> tick k k'
| tick_away k1 k' : timer_isr k = Ret (true, k1) -> resumable k' -> tick k k'.

Abbreviation ticks := (rtc tick).

(** The sender is in its region: not preemptible, in the window, with the lock. *)
Definition in_region (k : Kernel) : Prop :=
  in_critical (am_preempt (k_amb k)) = true /\ ps_in_ipc_window (am_preempt (k_amb k)) = true /\ k_sched_locked k = true.

(** With any number of ticks before each operation and at the end, every operation
    succeeds, those marked [Use] run inside the region, and [Q] holds at the end. *)
Fixpoint survives {A} (p : program A) (Q : A -> Kernel -> Prop) (k : Kernel) : Prop :=
  forall k1, ticks k k1 ->
    match p with
    | Fin a => Q a k1
    | Op op next => exists b k2, op k1 = Ret (b, k2) /\ survives (next b) Q k2
    | Use op next => in_region k1 /\ exists b k2, op k1 = Ret (b, k2) /\ survives (next b) Q k2
    end.

(** ** Ticks outside a region *)

(** The sender may enter its region. *)
Definition may_enter (k : Kernel) : Prop := kernel_wf k /\ ps_preempt_count (am_preempt (k_amb k)) + 1 < u64_limit.

Lemma adversary_spec k :
  kernel_wf k -> wp maybe_fire_adversary (fun _ k' => kernel_wf k' /\
    ps_preempt_count (am_preempt (k_amb k')) = ps_preempt_count (am_preempt (k_amb k))) k.
Proof.
  intros Hk. pose proof Hk as [Hs Hl Ha]. unfold maybe_fire_adversary. apply wp_kbind, wp_kget. destruct (_ =? NO_REVOKE); [by apply wp_kret|].
  apply wp_kbind, wp_kget, wp_kbind. unfold wp at 1, try_lock_sched. rewrite Hl. cbn [negb].
  apply wp_kbind. unfold kget_task. apply wp_kget. ksimp. rewrite get_task_wf by done. apply wp_kbind.
  destruct (task_slot (k_sched k) _) as [t|] eqn:Ht.
  - destruct (CapTable_kernel_revoke_spec (t_cap_table t) (ps_pending_revoke (am_preempt (k_amb k))) (k_amb k)) as (ct & a & Hop & Hct & (Hap & _) & _).
    { by eapply sched_wf_task. }
    apply wp_kbind. eapply wp_kcaps; [exact Hop|]. apply wp_kmod, wp_unlock_sched. unfold on_preempt, on_amb, on_sched. ksimp.
    split; [split; ksimp; [|done..]|simpl; by rewrite Hap].
    apply get_task_mut_wf; [done|]. intros t' []. by split.
  - apply wp_kret, wp_unlock_sched. ksimp. split; [by split|done].
Qed.

Lemma reschedule_back k :
  kernel_wf k -> wp preempt_reschedule (fun b k' => b = false -> kernel_wf k' /\
    ps_preempt_count (am_preempt (k_amb k')) = ps_preempt_count (am_preempt (k_amb k))) k.
Proof.
  intros Hk. unfold preempt_reschedule. apply wp_kbind. eapply wp_mono; [by apply preempt_plan_spec|]. cbv beta. intros plan k1 Hplan.
  assert (pl_save plan = None /\ k1 = k \/ exists c n a tn, c <> n /\ traced (k_amb k) a /\ k1 = set_k_amb a (set_k_sched (handoff (Some c) n (k_sched k)) k) /\
    plan = mkPlan (Some (SaveTask c)) (t_rsp tn) (t_kstack_top tn) (t_cr3 tn)) as [[Hp ->]|(c & n & a & tn & Hne & (Hap & _) & -> & ->)].
  { destruct (current_idx (k_sched k)) as [c|] eqn:Hcur; [|left; destruct Hplan as [-> ->]; done].
    destruct (yield_choice (k_sched k)) as [[curr n]|] eqn:Hch; [|left; destruct Hplan as [-> ->]; done].
    apply yield_choice_spec in Hch as (Hc & Hne & _). rewrite Hc, Hcur in Hne. destruct Hplan as (a & tn & Htr & _ & -> & ->). right. exists c, n, a, tn.
    split; [congruence|done]. }
  - unfold perform_switch. rewrite Hp. by apply wp_kret.
  - unfold perform_switch. cbn [pl_save pl_rsp]. destruct (t_rsp tn =? 0).
    + apply wp_kret. intros _. ksimp. rewrite Hap. destruct Hk as [Hs Hl Ha]. split; [|done]. split; ksimp; [apply handoff_wf; [congruence|done]|done|done].
    + apply wp_kbind, wp_kmod, wp_kbind, wp_kmod, wp_kbind, wp_kmod, wp_kret. done.
Qed.

Lemma timer_back k :
  kernel_wf k -> wp timer_isr (fun b k' => b = false -> kernel_wf k' /\
    ps_preempt_count (am_preempt (k_amb k')) = ps_preempt_count (am_preempt (k_amb k))) k.
Proof.
  intros Hk. unfold timer_isr, on_tick_should_switch.
  assert (forall f, (forall p, ps_preempt_count (f p) = ps_preempt_count p) -> forall k, kernel_wf k -> kernel_wf (on_preempt f k) /\
    ps_preempt_count (am_preempt (k_amb (on_preempt f k))) = ps_preempt_count (am_preempt (k_amb k))) as Hon.
  { intros f Hf k0 Hk0. split; [by apply on_preempt_wf|apply Hf]. }
  apply wp_kbind, wp_kbind, wp_kmod. destruct (Hon count_tick (fun p => eq_refl) k Hk) as [Hk1 Hc1]. set (k1 := on_preempt count_tick k) in *.
  apply wp_kbind, wp_kget, wp_kbind. set (w := ps_in_ipc_window _).
  assert (wp (if w then kmod (on_preempt count_window_tick) else kret tt) (fun _ k' => kernel_wf k' /\
    ps_preempt_count (am_preempt (k_amb k')) = ps_preempt_count (am_preempt (k_amb k))) k1) as Hwin.
  { destruct w; [apply wp_kmod|by apply wp_kret]. destruct (Hon count_window_tick (fun p => eq_refl) k1 Hk1) as [? Hc]. by rewrite Hc. }
  eapply wp_mono; [exact Hwin|]. cbv beta. intros _ k2 [Hk2 Hc2]. apply wp_kbind, wp_kget. destruct (negb _); [apply wp_kret, wp_kret; done|].
  apply wp_kbind, wp_kget. destruct (in_critical _).
  - apply wp_kbind, wp_kmod, wp_kret, wp_kret. intros _. destruct (Hon note_deferred_locked (fun p => eq_refl) k2 Hk2) as [? Hc]. by rewrite Hc.
  - apply wp_kbind.
    assert (wp (if w then maybe_fire_adversary else kret tt) (fun _ k' => kernel_wf k' /\
      ps_preempt_count (am_preempt (k_amb k')) = ps_preempt_count (am_preempt (k_amb k))) k2) as Hadv.
    { destruct w; [|by apply wp_kret]. eapply wp_mono; [by apply adversary_spec|]. cbv beta. intros _ k3 [? Hc]. by rewrite Hc. }
    eapply wp_mono; [exact Hadv|]. cbv beta. intros _ k3 [Hk3 Hc3]. apply wp_kret. eapply wp_mono; [by apply reschedule_back|].
    cbv beta. intros b k4 Hb Hf. destruct (Hb Hf) as [? Hc]. by rewrite Hc.
Qed.

Lemma ticks_may_enter k k' : ticks k k' -> may_enter k -> may_enter k'.
Proof.
  induction 1 as [|k k1 k' Ht _ IH]; [done|]. intros [Hk Hc]. apply IH. destruct Ht as [k1 Hi|k0 k1 Hi [Hwf H0]].
  - pose proof (timer_back k Hk) as (b & k2 & Hrun & Hb)%wp_run. rewrite Hi in Hrun. injection Hrun as <- <-.
    destruct (Hb eq_refl) as [? Hc']. split; [done|]. by rewrite Hc'.
  - split; [done|]. by rewrite H0.
Qed.

(** ** Ticks inside a region *)

(** The sender entered its region in [k0]; its window is open or not, the lock held
    or not, and the table and the delivery counter are now [s] and [d]. *)
Record inside (k0 : Kernel) (window locked : bool) (s : Scheduler) (d : N) (k : Kernel) : Prop := {
  is_state : exists a, k = set_k_sched_locked locked (set_k_ipc_deliveries d (set_k_amb a (set_k_sched s k0)));
  is_count : ps_preempt_count (am_preempt (k_amb k)) = ps_preempt_count (am_preempt (k_amb k0)) + 1;
  is_window : ps_in_ipc_window (am_preempt (k_amb k)) = window;
  is_cap_id : am_next_cap_id (k_amb k) = am_next_cap_id (k_amb k0)
}.

Lemma inside_critical k0 w l s d k : inside k0 w l s d k -> in_critical (am_preempt (k_amb k)) = true.
Proof. intros [_ Hc _ _]. unfold in_critical. rewrite Hc. by rewrite (proj2 (N.eqb_neq _ _)) by lia. Qed.

Lemma inside_ticks k0 w l s d k k' : inside k0 w l s d k -> ticks k k' -> inside k0 w l s d k'.
Proof.
  intros Hin Ht. revert Hin. induction Ht as [|k k1 k' Ht _ IH]; [done|]. intros Hin. apply IH.
  pose proof (deferred_tick_spec k (or_introl (inside_critical _ _ _ _ _ _ Hin))) as Hd.
  destruct Ht as [k1 Hi|k2 k1 Hi _]; rewrite Hi in Hd; simplify_eq. destruct Hin as [[a ->] Hc Hw Hid]. split; [eexists; reflexivity|..].
  - rewrite <- Hc. unfold on_preempt, on_amb, deferred_tick, tick_counters. ksimp. simpl. by repeat case_match.
  - rewrite <- Hw. unfold on_preempt, on_amb, deferred_tick, tick_counters. ksimp. simpl. by repeat case_match.
  - exact Hid.
Qed.

Lemma survives_op {A B} (op : K B) (next : B -> program A) Q k0 w l s d k :
  inside k0 w l s d k ->
  (forall k1, inside k0 w l s d k1 -> exists b k2, op k1 = Ret (b, k2) /\ survives (next b) Q k2) -> survives (Op op next) Q k.
Proof. intros Hin Hop k1 Ht. apply Hop. by eapply inside_ticks. Qed.

Lemma survives_use {A B} (op : K B) (next : B -> program A) Q k0 s d k :
  inside k0 true true s d k ->
  (forall k1, inside k0 true true s d k1 -> exists b k2, op k1 = Ret (b, k2) /\ survives (next b) Q k2) -> survives (Use op next) Q k.
Proof.
  intros Hin Hop k1 Ht. pose proof (inside_ticks _ _ _ _ _ _ _ Hin Ht) as Hin1. split; [|by apply Hop].
  split; [by eapply inside_critical|]. split; [apply Hin1|]. by destruct Hin1 as [[a ->] _ _ _].
Qed.

(** An update of the table under the lock. *)
Lemma survives_update {A} i f (next : unit -> program A) Q k0 s d k :
  inside k0 true true s d k ->
  (forall k1, inside k0 true true (get_task_mut s i f) d k1 -> survives (next tt) Q k1) -> survives (Use (kupdate_task i f) next) Q k.
Proof.
  intros Hin Hnext. eapply survives_use; [exact Hin|]. intros k1 [[a ->] Hc Hw Hid]. eexists tt, _. split; [reflexivity|]. apply Hnext.
  split; [by exists a|exact Hc|exact Hw|exact Hid].
Qed.

Lemma inside_enter k :
  k_sched_locked k = false -> ps_preempt_count (am_preempt (k_amb k)) + 1 < u64_limit ->
  inside k (ps_in_ipc_window (am_preempt (k_amb k))) false (k_sched k) (k_ipc_deliveries k) (on_preempt enter_critical k).
Proof.
  intros Hl Hroom. split; [|by apply wadd64_small|done..]. exists (k_amb (on_preempt enter_critical k)). destruct k. simpl in *. by subst.
Qed.

Lemma inside_resolve cur ci k0 w l s d k :
  sched_wf s -> inside k0 w l s d k ->
  exists k', resolve_target_locked cur ci k = Ret (channel_of s cur ci, k') /\ inside k0 w l s d k'.
Proof.
  intros Hs [[a ->] Hc Hw Hid]. set (k := set_k_sched_locked _ _) in *.
  assert (wp (resolve_target_locked cur ci) (fun r k' => r = channel_of s cur ci /\ inside k0 w l s d k') k) as (r & k' & Hrun & -> & Hin)%wp_run;
    [|by exists k'].
  apply wp_resolve_target; [done|]. intros a' (Hap & Hac & _). split; [done|]. split; [by exists a'|..]; ksimp; by rewrite ?Hap, ?Hac.
Qed.

Lemma survives_leave r Q k0 s d k :
  k_sched_locked k0 = false -> ps_preempt_count (am_preempt (k_amb k0)) + 1 < u64_limit -> inside k0 true true s d k ->
  (forall k2 k', ipc_frame k0 s d k2 -> ticks k2 k' -> Q r k') -> survives (send_leave r) Q k.
Proof.
  intros Hl Hroom Hin HQ. unfold send_leave. eapply survives_op; [exact Hin|]. intros k1 [[a1 ->] Hc1 Hw1 Hid1]. eexists tt, _. split; [reflexivity|].
  eapply (survives_op _ _ _ k0 true false s d). { split; [by exists a1|exact Hc1|exact Hw1|exact Hid1]. }
  intros k2 [[a2 ->] Hc2 Hw2 Hid2]. eexists tt, _. split; [reflexivity|].
  eapply (survives_op _ _ _ k0 false false s d). { split; [by eexists|exact Hc2|done|exact Hid2]. }
  intros k3 [[a3 ->] Hc3 Hw3 Hid3]. eexists tt, _. split; [reflexivity|]. intros k4 Ht. eapply HQ, Ht. split.
  - eexists. unfold on_preempt, on_amb. ksimp. destruct k0. simpl in *. rewrite Hl. reflexivity.
  - revert Hc3. unfold on_preempt, on_amb, exit_critical. ksimp. simpl. intros ->. unfold wsub64, wrap64.
    set (c := ps_preempt_count _) in *. rewrite (N.mod_small 1) by done. replace (c + 1 + u64_limit - 1) with (c + 1 * u64_limit) by lia.
    rewrite N.Div0.mod_add. apply N.mod_small. lia.
  - exact Hid3.
Qed.

(** ** The send *)

(** Without interrupts the program is the region of the send. *)
Lemma send_program_runs cur ci msg k :
  kernel_wf k -> uninterrupted (send_program cur ci msg) k = send_region cur ci msg k.
Proof.
  intros [Hs Hl _]. unfold send_program, send_region. cbn [uninterrupted]. unfold kbind at 1 2 3 4 5 6, kmod, lock_sched. cbn [obind].
  unfold on_preempt, on_amb. ksimp. rewrite Hl. cbn [obind]. set (k1 := set_k_sched_locked true _).
  pose proof (wp_resolve_target cur ci (fun r k' => k_sched k' = k_sched k) k1 Hs (fun a _ => eq_refl)) as (r & k2 & Hrun & Hk2)%wp_run.
  unfold kbind at 1 8. rewrite Hrun. cbn [obind]. destruct r as [target|e]; [|reflexivity]. cbn [uninterrupted]. unfold kbind at 1, kget_task, kget. cbn [obind].
  unfold kbind, kget_task, kget. cbn [obind]. destruct (t_state <$> get_task (k_sched k2) target) as [[]|] eqn:Hst; rewrite ?Hst;
    unfold send_leave, kupdate_task, bump_ipc_deliveries, unlock_sched, kmod, on_sched; cbn [uninterrupted obind kret]; unfold kbind, kmod;
    cbn [obind]; ksimp; rewrite ?get_task_mut_twice by (rewrite ?Hk2; done || intros; by apply set_buffer_wf || by apply set_state_wf); reflexivity.
Qed.

(** C12: Validation and use are one step.  Let timer interrupts fall anywhere in the
    region of a send, any number of them, each with the handler's full effect: it may
    fire the armed adversary, or switch to other tasks, which may revoke the
    capability, end the receiver or change anything else before the sender goes on.
    Still every operation of the region succeeds; every access to the task table is
    made with preemption disabled, the window marked and the scheduler lock held; and
    there is one state [k1], reached before the region, such that the outcome and the
    whole effect are those of validating and using the capability in [k1]: the message
    goes to the task that the capability held in [k1] names and to no other.  Without
    interrupts the program is [send_region]. *)
Theorem send_region_atomic k cur ci msg :
  may_enter k ->
  survives (send_program cur ci msg)
    (fun r k' => exists k1 k2, ticks k k1 /\ kernel_wf k1 /\ sent cur ci msg k1 r k2 /\ ticks k2 k') k /\
  uninterrupted (send_program cur ci msg) k = send_region cur ci msg k.
Proof.
  intros Hmay. split; [|apply send_program_runs, Hmay]. unfold send_program. intros k1 Ht.
  destruct (ticks_may_enter _ _ Ht Hmay) as [Hk1 Hroom]. pose proof Hk1 as [Hs Hl _].
  set (Q := fun r k' => _).  eexists tt, _. split; [reflexivity|].
  assert (forall r s, (r, s) = send_effect (k_sched k1) cur ci msg -> forall k2, inside k1 true true s (deliveries_after r k1) k2 ->
    survives (send_leave r) Q k2) as Hleave.
  { intros r s He k2 Hk2. eapply survives_leave; [done|done|exact Hk2|]. intros k3 k4 Hf Ht'. exists k1, k3. split; [done|]. split; [done|].
    split; [|done]. replace r with (send_effect (k_sched k1) cur ci msg).1 by by rewrite <- He. apply send_effect_sent; [done|]. by rewrite <- He. }
  eapply survives_op; [by apply inside_enter|]. intros k2 [[a2 ->] Hc2 _ Hid2]. eexists tt, _. split; [reflexivity|].
  eapply (survives_op _ _ _ k1 true false (k_sched k1) (k_ipc_deliveries k1)). { split; [by eexists|exact Hc2|done|exact Hid2]. }
  intros k3 [[a3 ->] Hc3 Hw3 Hid3]. eexists tt, _. split; [reflexivity|].
  eapply (survives_use _ _ _ k1 (k_sched k1) (k_ipc_deliveries k1)). { split; [by eexists|exact Hc3|exact Hw3|exact Hid3]. }
  intros k4 Hin4. destruct (inside_resolve cur ci _ _ _ _ _ _ Hs Hin4) as (k5 & Hrun & Hin5). eexists _, _. split; [exact Hrun|].
  pose proof Hleave as Hl'. unfold send_effect in Hl'. destruct (channel_of (k_sched k1) cur ci) as [target|e].
  2: { eapply survives_update; [exact Hin5|]. intros k6 Hin6. by eapply Hl'. }
  eapply survives_use; [exact Hin5|]. intros k6 Hin6. assert (k_sched k6 = k_sched k1) as Hs6 by by destruct Hin6 as [[a ->] _ _ _].
  exists (task_slot (k_sched k1) target), k6. split; [unfold kget_task, kget; by rewrite Hs6, get_task_wf|].
  destruct (t_state <$> task_slot (k_sched k1) target) as [[]|]; try (by eapply Hl');
    (eapply survives_update; [exact Hin6|]; intros k7 Hin7; eapply survives_update; [exact Hin7|]; intros k8 Hin8;
     rewrite get_task_mut_twice in Hin8 by (done || intros; by apply set_buffer_wf || by apply set_state_wf)); try (by eapply Hl').
  eapply survives_op; [exact Hin8|]. intros k9 [[a9 ->] Hc9 Hw9 Hid9]. eexists tt, _. split; [reflexivity|].
  eapply Hl'; [done|]. split; [by exists a9|exact Hc9|exact Hw9|exact Hid9].
Qed.
End interrupts.

(** Task 1 sends to task 2, which waits, with preemption armed. *)
Definition armed_talk : Kernel := on_preempt (set_armed true) (talk_system BlockedOnReceive).

Lemma send_region_atomic_witness :
  survives (L := example_layout) (send_program 1 0 (mkMessage 1 Ping 0 [] 0))
    (fun r k' => exists k1 k2, rtc (tick (L := example_layout)) armed_talk k1 /\ kernel_wf k1 /\
       sent 1 0 (mkMessage 1 Ping 0 [] 0) k1 r k2 /\ rtc (tick (L := example_layout)) k2 k') armed_talk /\
  exists k', uninterrupted (send_program 1 0 (mkMessage 1 Ping 0 [] 0)) armed_talk = Ret (Ok Delivered, k').
Proof.
  destruct (send_region_atomic (L := example_layout) armed_talk 1 0 (mkMessage 1 Ping 0 [] 0)) as [Hs Hrun].
  - split; [apply on_preempt_wf, talk_system_wf|reflexivity].
  - split; [exact Hs|]. rewrite Hrun. eexists. vm_compute. reflexivity.
Defined.
