(* ===== verification/Propagation.v ===== *)
(** * Revocation reaches exactly the derived capabilities

    Correctness of [propagate_revocation] (model in [Authority]): whatever the
    tables hold, it terminates within its fuel, never truncates the cascade,
    never panics while the audit counter has room, and clears exactly the
    capabilities whose lineage leads to the revoked one. *)

From S2P Require Import Prelude Ring Preempt Trace Capability AuditTrail Message Machine Frames.
From S2P Require Import Task Scheduler Kernel Authority.
Local Open Scope N_scope.

(** ** Specification *)

(** [p] is the revoked identity [root], or the identity of a capability of [s]
    whose lineage leads to [root]. *)
Inductive derived (s : Scheduler) (root : N) : N -> Prop :=
| derived_root : derived s root root
| derived_step i j c p :
    cap_of s i j = Some c -> cap_origin c = Some p -> derived s root p ->
    derived s root (cap_id c).

(** A capability to be revoked with [root]. *)
Definition doomed (s : Scheduler) (root : N) (c : Capability) : Prop :=
  exists p, cap_origin c = Some p /\ derived s root p.

(** A revoked cell and the audit record it leaves. *)
Abbreviation cell := (N * N * Capability)%type.
Definition cell_event (x : cell) : AuditEvent :=
  let '(i, j, c) := x in mkAuditEvent RevokePropagated KERNEL_ACTOR i (cap_resource c) j.

(** ** Invariant of the cascade

    [cl] lists the cells cleared so far, in order. *)

Section cascade.
Context (k0 : Kernel) (root : N) (h0 : list AuditEvent).
Let s0 := k_sched k0.

Record cascade (cl : list cell) (st : PropState) (k : Kernel) : Prop := {
  cas_frame : exists a l s, k = set_k_sched s (set_k_amb a (set_k_audit l k0)) /\ traced (k_amb k0) a;
  cas_wf : sched_wf (k_sched k);
  cas_same : same_but_caps s0 (k_sched k);
  cas_audit : audit_repr (k_audit k) (h0 ++ (cell_event <$> cl));
  cas_len : lenN (pr_revoked st) = REVOKED_IDS_CAP;
  cas_count : pr_count st = 1 + lenN cl;
  cas_set : take (N.to_nat (pr_count st)) (pr_revoked st) =
            root :: ((fun x : cell => cap_id x.2) <$> cl);
  cas_nodup : NoDup cl.*1;
  cas_cells : forall i j, cap_of (k_sched k) i j =
                if decide ((i, j) ∈ cl.*1) then None else cap_of s0 i j;
  cas_from : forall i j c, (i, j, c) ∈ cl -> cap_of s0 i j = Some c /\ doomed s0 root c
}.

(** The identities in the scratch set. *)
Definition revoked_ids (cl : list cell) : list N := root :: ((fun x : cell => cap_id x.2) <$> cl).

Lemma cascade_derived cl st k p : cascade cl st k -> p ∈ revoked_ids cl -> derived s0 root p.
Proof.
  intros Hc. unfold revoked_ids. rewrite elem_of_cons, list_elem_of_fmap.
  intros [->|([[i j] c] & -> & Hin)]; [constructor|].
  destruct (cas_from _ _ _ Hc i j c Hin) as (Hof & q & Ho & Hq). by eapply derived_step.
Qed.

(** No more cells can be cleared than the tables have. *)
Lemma cells_bound (cl : list cell) :
  sched_wf s0 -> NoDup cl.*1 -> (forall i j c, (i, j, c) ∈ cl -> cap_of s0 i j = Some c) ->
  lenN cl <= MAX_TASKS * MAX_CAPS.
Proof.
  intros Hs Hc Hof0.
  set (enc := fun x : N * N => N.to_nat (x.1 * MAX_CAPS + x.2)).
  assert (forall x, x ∈ cl.*1 -> x.1 < MAX_TASKS /\ x.2 < MAX_CAPS) as Hr.
  { intros [i j] ([[i' j'] c] & Heq & Hin)%list_elem_of_fmap. injection Heq as -> ->.
    eapply cap_of_Some; eauto. }
  assert (NoDup (enc <$> cl.*1)) as Hnd.
  { apply NoDup_fmap_2_strong; [|done]. intros [i j] [i' j'] H1%Hr H2%Hr Heq.
    unfold enc in Heq. cbn [fst snd] in *. unfold MAX_CAPS, MAX_TASKS in *. f_equal; lia. }
  assert ((enc <$> cl.*1) ⊆+ seq 0 (N.to_nat (MAX_TASKS * MAX_CAPS))) as Hsub.
  { apply NoDup_submseteq; [done|]. intros n ([i j] & -> & Hin)%list_elem_of_fmap.
    apply Hr in Hin. apply elem_of_seq. unfold enc. cbn [fst snd] in *. unfold MAX_CAPS, MAX_TASKS in *. lia. }
  apply submseteq_length in Hsub. rewrite !length_fmap, length_seq in Hsub. unfold lenN, MAX_TASKS, MAX_CAPS in *. lia.
Qed.

Lemma cascade_bound cl st k : cascade cl st k -> sched_wf s0 -> lenN cl <= MAX_TASKS * MAX_CAPS.
Proof.
  intros Hc Hs. apply cells_bound; [done|apply Hc|]. intros i j c Hin.
  by apply (cas_from _ _ _ Hc).
Qed.

(** The part of a pass already done revoked nothing and found nothing to
    revoke among the cells in [seen]. *)
Definition quiet (cl0 cl : list cell) (seen : N -> N -> Prop) (st : PropState) (k : Kernel) : Prop :=
  pr_changed st = false -> cl = cl0 /\
    forall i j c p, seen i j -> cap_of (k_sched k) i j = Some c -> cap_origin c = Some p ->
      p ∉ revoked_ids cl.

(** State of a pass that started with the cells [cl0] cleared. *)
Definition in_pass (cl0 : list cell) (seen : N -> N -> Prop) (st : PropState) (k : Kernel) : Prop :=
  exists cl, cascade cl st k /\ (length cl0 <= length cl)%nat /\
    (pr_changed st = true -> length cl0 < length cl)%nat /\ quiet cl0 cl seen st k.

Context (Hwf0 : sched_wf s0) (Hroom : lenN h0 + MAX_TASKS * MAX_CAPS + 1 < u64_limit).

(** Trace events do not disturb the invariant. *)
Lemma cascade_trace cl st k a :
  cascade cl st k -> traced (k_amb k) a -> cascade cl st (set_k_amb a k).
Proof.
  intros [Hf Hw Hs Ha Hl Hc Ht Hn Hce Hfr] Htr. split; try done.
  destruct Hf as (a1 & l & s & -> & Ha1). exists a, l, s. split; [done|]. by transitivity a1.
Qed.

Lemma slice_revoked cl st k :
  cascade cl st k -> slice (pr_revoked st) 0 (pr_count st) = Ret (revoked_ids cl).
Proof.
  intros Hc. pose proof (cascade_bound cl st k Hc Hwf0). destruct Hc.
  rewrite slice_ok by (unfold REVOKED_IDS_CAP in *; lia).
  f_equal. by rewrite N.sub_0_r.
Qed.

Lemma existsb_eqb p l : existsb (N.eqb p) l = true <-> p ∈ l.
Proof.
  rewrite existsb_exists. split.
  - intros (x & Hx & ->%N.eqb_eq). by apply list_elem_of_In.
  - intros Hp. exists p. rewrite N.eqb_refl. by rewrite <- list_elem_of_In.
Qed.

(** A live cell has not been cleared, so there is room for it. *)
Lemma cascade_live cl st k i j c :
  cascade cl st k -> cap_of (k_sched k) i j = Some c ->
  ((i, j) ∉ cl.*1) /\ cap_of s0 i j = Some c /\ NoDup (cl ++ [(i, j, c)]).*1 /\
  lenN cl + 1 <= MAX_TASKS * MAX_CAPS.
Proof.
  intros Hcas Hof. rewrite (cas_cells _ _ _ Hcas) in Hof. case_decide as Hnew; [done|].
  assert (NoDup (cl ++ [(i, j, c)]).*1) as Hnd.
  { rewrite fmap_app. apply NoDup_app. split; [apply Hcas|]. split; [|apply NoDup_singleton].
    intros x Hx Heq%list_elem_of_singleton. by subst. }
  split_and!; [done..|]. change 1 with (lenN [(i, j, c)]). rewrite <- lenN_app.
  apply cells_bound; [done..|]. intros i' j' c' [Hin|Heq%list_elem_of_singleton]%elem_of_app.
  - by apply (cas_from _ _ _ Hcas).
  - by simplify_eq.
Qed.

(** Clearing one more cell. *)
Lemma cascade_clear cl st k i j t c p a :
  cascade cl st k -> task_slot (k_sched k) i = Some t -> cap_at (t_cap_table t) j = Some c ->
  cap_origin c = Some p -> p ∈ revoked_ids cl -> traced (k_amb k) a ->
  forall ct log,
    CapTable_wf ct -> (forall j', cap_at ct j' = if decide (j = j') then None else cap_at (t_cap_table t) j') ->
    audit_repr log (h0 ++ (cell_event <$> (cl ++ [(i, j, c)]))) ->
    cascade (cl ++ [(i, j, c)])
      (mkPropState (upd (pr_revoked st) (pr_count st) (cap_id c)) (pr_count st + 1) true)
      (set_k_audit log (set_k_amb a (on_sched (put_slot i (Some (set_t_cap_table ct t))) k))).
Proof.
  intros Hcas Ht Hc Ho Hp Htr ct log Hct Hcaps Hlog.
  pose proof (cascade_derived cl st k p Hcas Hp) as Hder.
  assert (cap_of (k_sched k) i j = Some c) as Hof by (unfold cap_of; by rewrite Ht).
  destruct (cascade_live _ _ _ _ _ _ Hcas Hof) as (Hnew & Hof0 & Hnd & Hb).
  destruct Hcas as [Hf Hw Hs Ha Hl Hcn Hset Hn Hce Hfr].
  split; simpl.
  - destruct Hf as (a1 & l & s & -> & Ha1). exists a, log. eexists. split; [done|]. by transitivity a1.
  - by apply put_caps_wf.
  - by apply same_but_caps_put.
  - done.
  - by rewrite lenN_upd.
  - rewrite Hcn, lenN_app. change (lenN [_]) with 1. lia.
  - assert (pr_count st < lenN (pr_revoked st)) as Hlt by (unfold REVOKED_IDS_CAP in *; lia).
    replace (N.to_nat (pr_count st + 1)) with (S (N.to_nat (pr_count st))) by lia.
    rewrite (take_S_r _ _ (cap_id c)).
    + rewrite fmap_app, app_comm_cons, <- Hset. f_equal. unfold upd.
      rewrite (proj2 (N.ltb_lt _ _) Hlt). by apply take_insert_ge.
    + rewrite <- idx_lookup. by apply idx_upd_eq.
  - done.
  - intros i' j'. rewrite (cap_of_put _ _ t) by done. rewrite fmap_app. simpl.
    destruct (decide (i = i')) as [<-|Hi].
    + rewrite Hcaps. specialize (Hce i j'). unfold cap_of at 1 in Hce. rewrite Ht in Hce. rewrite Hce.
      destruct (decide (j = j')) as [e|Hj]; destruct (decide ((i, j') ∈ cl.*1));
        destruct (decide (_ ∈ _ ++ [(i, j)])); try subst j'; set_solver.
    + rewrite Hce. destruct (decide ((i', j') ∈ cl.*1)), (decide (_ ∈ _ ++ [(i, j)])); set_solver.
  - intros i' j' c' [Hin|Heq%list_elem_of_singleton]%elem_of_app; [eauto|]. simplify_eq.
    split; [done|]. by exists p.
Qed.

Lemma in_pass_trace cl0 seen st k a :
  in_pass cl0 seen st k -> traced (k_amb k) a -> in_pass cl0 seen st (set_k_amb a k).
Proof.
  intros (cl & Hc & Hlen & Hch & Hq) Ha. exists cl. split; [by apply cascade_trace|]. done.
Qed.

(** A cell that holds nothing to revoke extends the quiet part. *)
Lemma in_pass_see cl0 (seen seen' : N -> N -> Prop) st k :
  in_pass cl0 seen st k ->
  (forall cl i j c p, cascade cl st k -> seen' i j -> ~ seen i j ->
     cap_of (k_sched k) i j = Some c -> cap_origin c = Some p -> p ∉ revoked_ids cl) ->
  in_pass cl0 seen' st k.
Proof.
  intros (cl & Hc & Hlen & Hch & Hq) Hsee. exists cl. split; [done|]. split; [done|]. split; [done|].
  intros Hf. destruct (Hq Hf) as [-> Hno]. split; [done|]. intros i j c p Hs Hof Ho Hin.
  assert (~ seen i j) as Hns by (intros ?; by eapply Hno).
  by eapply Hsee.
Qed.

(** One slot. *)
Lemma propagate_slot_spec cl0 seen t_idx j st k :
  in_pass cl0 seen st k ->
  wp (propagate_slot t_idx j st)
    (in_pass cl0 (fun i' j' => seen i' j' \/ (i' = t_idx /\ j' = j))) k.
Proof.
  intros Hpass. unfold propagate_slot. apply wp_kbind, wp_kget.
  destruct (task_slot (k_sched k) t_idx) as [t|] eqn:Ht.
  2: { apply wp_kret. eapply in_pass_see; [done|]. intros cl i' j' c p _ [?|[-> ->]] Hns; [done|].
       unfold cap_of. by rewrite Ht. }
  apply wp_kbind, wp_kcap_get. intros a Ha. apply (in_pass_trace _ _ _ _ a) in Hpass; [|done].
  set (k1 := set_k_amb a k) in *. assert (task_slot (k_sched k1) t_idx = Some t) as Ht1 by done.
  clearbody k1. clear Ht Ha k a.
  assert (forall c, cap_of (k_sched k1) t_idx j = Some c <-> cap_at (t_cap_table t) j = Some c) as Hcell.
  { intros c. unfold cap_of. by rewrite Ht1. }
  destruct (cap_at (t_cap_table t) j) as [c|] eqn:Hc.
  2: { apply wp_kret. eapply in_pass_see; [done|]. intros cl i' j' c p _ [?|[-> ->]] Hns Hof; [done|].
       by apply Hcell in Hof. }
  destruct (cap_origin c) as [p|] eqn:Ho.
  2: { apply wp_kret. eapply in_pass_see; [done|]. intros cl i' j' c' p _ [?|[-> ->]] Hns Hof; [done|].
       apply Hcell in Hof. congruence. }
  destruct Hpass as (cl & Hcas & Hlen & Hch & Hq).
  destruct (cascade_live _ _ _ _ _ _ Hcas (proj2 (Hcell c) eq_refl)) as (Hnew & _ & _ & Hb).
  apply wp_kbind. eapply wp_klift; [by eapply slice_revoked|].
  rewrite (proj2 (N.ltb_lt (pr_count st) (lenN (pr_revoked st)))), andb_true_r.
  2: { rewrite (cas_len _ _ _ Hcas), (cas_count _ _ _ Hcas). unfold REVOKED_IDS_CAP. lia. }
  destruct (existsb _ _) eqn:Hex.
  - apply existsb_eqb in Hex.
    destruct (CapTable_kernel_revoke_spec (t_cap_table t) j (k_amb k1)) as (ct & a & Hop & Hct & Ha & Hcaps).
    { apply (sched_wf_task (k_sched k1)) with t_idx; [apply Hcas|done]. }
    apply wp_kbind. unfold wp at 1, kcaps_slot. rewrite Hop.
    pose proof (cas_audit _ _ _ Hcas) as Haud.
    apply wp_kbind. eapply wp_kaudit; [exact Haud| |].
    { unfold audit_room. simpl. rewrite (ar_total _ _ Haud), lenN_app, lenN_fmap. lia. }
    intros log Hlog. rewrite (sched_wf_id (k_sched k1) (cas_wf _ _ _ Hcas) t_idx t Ht1) in Hlog.
    apply wp_kbind. eapply wp_klift.
    { apply arr_set_ok. rewrite (cas_len _ _ _ Hcas), (cas_count _ _ _ Hcas). unfold REVOKED_IDS_CAP. lia. }
    apply wp_kbind. eapply wp_klift.
    { apply add64_ok. rewrite (cas_count _ _ _ Hcas). lia. }
    apply wp_kret. exists (cl ++ [(t_idx, j, c)]). split.
    { eapply cascade_clear; try done. rewrite fmap_app, app_assoc. done. }
    rewrite length_app. simpl. split; [lia|]. split; [lia|]. intros Hfalse. discriminate Hfalse.
  - apply wp_kret. eapply in_pass_see; [by exists cl|].
    intros cl' i' j' c' p' Hcas' [?|[-> ->]] Hns Hof Ho' Hin; [done|].
    apply Hcell in Hof. simplify_eq. unfold revoked_ids in Hin.
    rewrite <- (cas_set _ _ _ Hcas'), (cas_set _ _ _ Hcas) in Hin.
    apply existsb_eqb in Hin. unfold revoked_ids in Hex. congruence.
Qed.

(** One task. *)
Lemma propagate_task_spec cl0 seen t_idx st k :
  in_pass cl0 seen st k ->
  wp (propagate_task t_idx st)
    (in_pass cl0 (fun i' j' => seen i' j' \/ (i' = t_idx /\ j' < MAX_CAPS))) k.
Proof.
  intros Hpass. unfold propagate_task. apply wp_kbind, wp_kget.
  destruct (task_slot (k_sched k) t_idx) as [t|] eqn:Ht.
  - apply (wp_kfor (fun pre => in_pass cl0 (fun i' j' => seen i' j' \/ (i' = t_idx /\ j' ∈ pre)))).
    + eapply in_pass_see; [done|]. intros cl i' j' c p _ [?|[_ Hin]] ?; [done|set_solver].
    + intros pre j post st1 k1 _ Hp. eapply wp_mono; [by apply propagate_slot_spec|].
      intros st2 k2 Hp2. eapply in_pass_see; [done|].
      intros cl i' j' c p _ Hin Hns. exfalso. apply Hns. set_solver.
    + intros st1 k1 Hp. eapply in_pass_see; [done|].
      intros cl i' j' c p _ [?|[-> Hlt]] Hns; exfalso; apply Hns; [by left|right].
      split; [done|]. apply elem_of_rangeN. unfold MAX_CAPS in *. lia.
  - apply wp_kret. eapply in_pass_see; [done|]. intros cl i' j' c p _ [?|[-> _]] Hns; [done|].
    unfold cap_of. by rewrite Ht.
Qed.

(** One pass visits every cell. *)
Lemma propagate_pass_spec cl st k :
  cascade cl st k ->
  wp (propagate_pass st)
    (in_pass cl (fun i j => i < MAX_TASKS /\ j < MAX_CAPS)) k.
Proof.
  intros Hcas. unfold propagate_pass.
  apply (wp_kfor (fun pre => in_pass cl (fun i' j' => i' ∈ pre /\ j' < MAX_CAPS))).
  - exists cl. split; [by destruct Hcas; split|]. split; [done|]. split; [done|].
    intros _. split; [done|]. intros i j c p [Hin _]. set_solver.
  - intros pre i post st1 k1 _ Hp. eapply wp_mono; [by apply propagate_task_spec|].
    intros st2 k2 Hp2. eapply in_pass_see; [done|].
    intros cl' i' j' c p _ [Hin Hj] Hns. exfalso. apply Hns. set_solver.
  - intros st1 k1 Hp. eapply in_pass_see; [done|].
    intros cl' i' j' c p _ [Hi Hj] Hns. exfalso. apply Hns. split; [|done].
    apply elem_of_rangeN. unfold MAX_TASKS in *. lia.
Qed.

(** The state in which the fixpoint stops: nothing left has its lineage in the
    revoked set. *)
Definition cascade_closed (cl : list cell) (k : Kernel) : Prop :=
  (exists st, cascade cl st k) /\
  forall i j c p, cap_of (k_sched k) i j = Some c -> cap_origin c = Some p -> p ∉ revoked_ids cl.

(** Enough fuel: each pass that changes something clears a cell. *)
Lemma propagate_loop_spec fuel cl st k :
  cascade cl st k -> MAX_TASKS * MAX_CAPS < lenN cl + N.of_nat fuel ->
  wp (propagate_loop fuel st) (fun _ k' => exists cl', cascade_closed cl' k') k.
Proof.
  revert cl st k. induction fuel as [|fuel IH]; intros cl st k Hcas Hfuel.
  - pose proof (cascade_bound cl st k Hcas Hwf0). lia.
  - cbn [propagate_loop]. apply wp_kbind. eapply wp_mono; [by apply propagate_pass_spec|].
    intros st1 k1 (cl1 & Hcas1 & Hlen & Hch & Hq). destruct (pr_changed st1) eqn:Hchanged.
    + apply (IH cl1); [done|]. specialize (Hch eq_refl). unfold lenN in *. lia.
    + apply wp_kret. exists cl1. split; [by exists st1|]. intros i j c p Hof Ho.
      eapply (proj2 (Hq Hchanged)); [|done..]. eapply cap_of_Some; [|done]. apply Hcas1.
Qed.

(** A closed cascade has cleared exactly the doomed capabilities. *)
Lemma cascade_closed_exact cl k i j :
  cascade_closed cl k ->
  forall c, cap_of (k_sched k) i j = Some c <-> cap_of s0 i j = Some c /\ ~ doomed s0 root c.
Proof.
  intros [[st Hcas] Hclosed] c.
  assert (forall p, derived s0 root p -> p ∈ revoked_ids cl) as Hcomp.
  { induction 1 as [|i' j' c' p Hof Ho _ IH]; [by left|].
    destruct (cap_of (k_sched k) i' j') as [c''|] eqn:Hk.
    - destruct (cascade_live _ _ _ _ _ _ Hcas Hk) as (_ & Hof' & _). simplify_eq.
      by destruct (Hclosed i' j' c' p).
    - rewrite (cas_cells _ _ _ Hcas) in Hk. case_decide as Hin; [|congruence].
      apply list_elem_of_fmap in Hin as ([[i1 j1] c1] & Heq & Hin). injection Heq as -> ->.
      destruct (cas_from _ _ _ Hcas _ _ _ Hin) as [Hof1 _]. simplify_eq.
      right. apply list_elem_of_fmap. by exists (i1, j1, c'). }
  split.
  - intros Hof. destruct (cascade_live _ _ _ _ _ _ Hcas Hof) as (_ & Hof0 & _).
    split; [done|]. intros (p & Ho & Hp). by apply (Hclosed i j c p), Hcomp.
  - intros [Hof Hnd]. rewrite (cas_cells _ _ _ Hcas). case_decide as Hin; [|done].
    apply list_elem_of_fmap in Hin as ([[i1 j1] c1] & Heq & Hin). injection Heq as -> ->.
    destruct (cas_from _ _ _ Hcas _ _ _ Hin) as [Hof1 Hd]. by simplify_eq.
Qed.

End cascade.

(** ** [propagate_revocation] *)

(** What revoking [root] and its descendants makes of [k], whose audit history
    is [h]: only capability tables, the audit log and trace events change;
    exactly the doomed capabilities are gone; each leaves one audit record. *)
Record revokes (k : Kernel) (h : list AuditEvent) (root : N) (cl : list cell) (k' : Kernel) : Prop := {
  rv_frame : exists a l s, k' = set_k_sched s (set_k_amb a (set_k_audit l k)) /\ traced (k_amb k) a;
  rv_wf : sched_wf (k_sched k');
  rv_same : same_but_caps (k_sched k) (k_sched k');
  rv_audit : audit_repr (k_audit k') (h ++ (cell_event <$> cl));
  rv_nodup : NoDup cl.*1;
  rv_caps : forall i j c, cap_of (k_sched k') i j = Some c <->
              cap_of (k_sched k) i j = Some c /\ ~ doomed (k_sched k) root c;
  rv_cells : forall i j c, (i, j, c) ∈ cl <->
               cap_of (k_sched k) i j = Some c /\ doomed (k_sched k) root c
}.

Lemma propagate_revocation_spec k root h :
  sched_wf (k_sched k) -> audit_repr (k_audit k) h ->
  lenN h + MAX_TASKS * MAX_CAPS + 1 < u64_limit ->
  wp (propagate_revocation root) (fun _ k' => exists cl, revokes k h root cl k') k.
Proof.
  intros Hwf Hh Hroom. unfold propagate_revocation. apply wp_kbind.
  eapply wp_klift; [apply arr_set_ok; by rewrite lenN_replicate|].
  assert (cascade k root h [] (mkPropState (upd (replicate (N.to_nat REVOKED_IDS_CAP) 0) 0 root) 1 false) k)
    as Hinit.
  { split; cbn [pr_revoked pr_count].
    - exists (k_amb k), (k_audit k), (k_sched k). split; [by destruct k|reflexivity].
    - done.
    - apply same_but_caps_refl.
    - by rewrite app_nil_r.
    - by rewrite lenN_upd, lenN_replicate.
    - done.
    - reflexivity.
    - constructor.
    - intros i j. destruct (decide _) as [Hin|]; [|done]. by apply not_elem_of_nil in Hin.
    - intros i j c Hin. by apply not_elem_of_nil in Hin. }
  eapply wp_mono; [eapply propagate_loop_spec; [done..|]|].
  { unfold PROPAGATE_FUEL. rewrite N2Nat.id. done. }
  intros _ k' (cl & Hclosed). pose proof (fun i j => cascade_closed_exact k root h Hwf cl k' i j Hclosed) as Hex.
  destruct Hclosed as [[st Hcas] Hclosed]. exists cl.
  split; try apply Hcas; [done|]. intros i j c. split; [apply Hcas|].
  intros [Hof Hd]. destruct (cap_of (k_sched k') i j) as [c'|] eqn:Hk.
  - destruct (proj1 (Hex i j c') Hk) as [Hof' Hnd]. simplify_eq. by destruct Hnd.
  - rewrite (cas_cells _ _ _ _ _ _ Hcas) in Hk. destruct (decide _) as [Hin|]; [|congruence].
    apply list_elem_of_fmap in Hin as ([[i1 j1] c1] & Heq & Hin). injection Heq as -> ->.
    destruct (cas_from _ _ _ _ _ _ Hcas _ _ _ Hin) as [Hof1 _]. by simplify_eq.
Qed.
