(* ===== verification/Delegation.v ===== *)
(** * Who may pass authority on, and who may take it away

    Properties of the capability system calls modelled in [Authority]: the
    exact effect of a grant and of a revocation, on every branch, and the
    absence of rights amplification over any sequence of them. *)

From S2P Require Import Prelude Ring Preempt Trace Capability AuditTrail Message Machine Frames.
From S2P Require Import Task Scheduler Kernel Authority Propagation.
Local Open Scope N_scope.

(** ** Locking *)

Lemma relock k : k_sched_locked k = false ->
  set_k_sched_locked false (set_k_sched_locked true k) = k.
Proof. destruct k. simpl. by intros ->. Qed.

(** ** The authority check *)

(** The running task holds a channel to [target] with the grant right. *)
Definition holds_grant_to (s : Scheduler) (target : N) : Prop :=
  exists id j g, s_current_task_id s = Some id /\ cap_of s id j = Some g /\
    cap_grant g = true /\ cap_resource g = IpcChannel target.

Lemma grants_channel_to_true target o :
  grants_channel_to target o = true <->
  exists g, o = Some g /\ cap_grant g = true /\ cap_resource g = IpcChannel target.
Proof.
  unfold grants_channel_to. split.
  - destruct o as [g|]; [|done]. intros [Hg Hr]%andb_prop. exists g. split; [done|]. split; [done|].
    destruct (cap_resource g); try done. by apply N.eqb_eq in Hr as ->.
  - intros (g & -> & -> & ->). by rewrite N.eqb_refl.
Qed.

Lemma current_has_grant_cap_to_spec target k :
  sched_wf (k_sched k) -> k_sched_locked k = false ->
  wp (current_has_grant_cap_to target)
    (fun b k' => k' = k /\ (b = true <-> holds_grant_to (k_sched k) target)) k.
Proof.
  intros Hs Hl. unfold current_has_grant_cap_to, kget_task.
  apply wp_kbind, wp_lock_sched; [done|]. apply wp_kbind, wp_kget. ksimp.
  destruct (s_current_task_id (k_sched k)) as [id|] eqn:Hid; wp_steps.
  2: { split; [by apply relock|]. split; [done|]. intros (? & ? & ? & ? & _). congruence. }
  ksimp. rewrite get_task_wf by done. destruct (task_slot (k_sched k) id) as [t|] eqn:Ht; wp_steps;
    (split; [by apply relock|]).
  - rewrite existsb_exists. split.
    + intros (o & Hin & Ho). apply grants_channel_to_true in Ho as (g & -> & Hg & Hr).
      apply list_elem_of_In, elem_of_idx in Hin as [j Hj]. exists id, j, g. split; [done|].
      split; [|done]. unfold cap_of. rewrite Ht. apply cap_at_idx; [|done].
      by eapply sched_wf_task.
    + intros (id' & j & g & Hid' & Hof & Hg & Hr). simplify_eq. unfold cap_of in Hof. rewrite Ht in Hof.
      apply cap_at_Some in Hof as [_ Hj]. exists (Some g). split.
      * apply list_elem_of_In. by eapply idx_elem_of.
      * apply grants_channel_to_true. eauto.
  - split; [done|]. intros (id' & j & g & Hid' & Hof & _). simplify_eq. unfold cap_of in Hof.
    by rewrite Ht in Hof.
Qed.

(** ** Revocation *)

(** Following lineage through a cell already known to carry [root] adds
    nothing. *)
Lemma derived_remove_root s s' i0 j0 c0 p :
  cap_of s i0 j0 = Some c0 ->
  (forall i j, cap_of s' i j = if decide ((i, j) = (i0, j0)) then None else cap_of s i j) ->
  derived s (cap_id c0) p <-> derived s' (cap_id c0) p.
Proof.
  intros H0 Hs'. split; induction 1 as [|i j c p Hof Ho _ IH]; try constructor.
  - destruct (decide ((i, j) = (i0, j0))) as [Heq|Hne].
    + simplify_eq. constructor.
    + eapply derived_step; [|done..]. by rewrite Hs', decide_False.
  - rewrite Hs' in Hof. case_decide; [done|]. by eapply derived_step.
Qed.

Lemma cap_of_update s id t ct i j :
  sched_wf s -> task_slot s id = Some t ->
  cap_of (get_task_mut s id (set_t_cap_table ct)) i j =
    if decide (id = i) then cap_at ct j else cap_of s i j.
Proof.
  intros Hs Ht. unfold cap_of. rewrite get_task_mut_slot by done.
  repeat case_decide; subst; rewrite ?Ht; done.
Qed.

Lemma update_caps_wf s id ct : sched_wf s -> CapTable_wf ct ->
  sched_wf (get_task_mut s id (set_t_cap_table ct)).
Proof.
  intros Hs Hct. apply get_task_mut_wf; [done|]. intros t []. by split.
Qed.

Lemma update_same_but_caps s id ct :
  sched_wf s -> same_but_caps s (get_task_mut s id (set_t_cap_table ct)).
Proof.
  intros Hs. unfold get_task_mut. destruct (get_task s id) as [t|] eqn:Ht; [|apply same_but_caps_refl].
  apply get_task_slot in Ht as [Ht _]. apply same_but_caps_put; [apply same_but_caps_refl|done].
Qed.

Lemma same_but_caps_trans s1 s2 s3 :
  same_but_caps s1 s2 -> same_but_caps s2 s3 -> same_but_caps s1 s3.
Proof.
  intros [Hc1 H1] [Hc2 H2]. split; [congruence|]. intros i. rewrite H2 at 1.
  specialize (H1 i). specialize (H2 i).
  destruct (task_slot s1 i) as [t1|], (task_slot s2 i) as [t2|], (task_slot s3 i) as [t3|]; try done.
  simpl in *. injection H1 as H1. injection H2 as H2. rewrite H1 at 1. done.
Qed.

(** What a successful revocation of [cap] from slot [slot] of [target] makes of
    [k], whose audit history is [h]; [cl] lists the cells cleared by
    propagation. *)
Record revoked_from (k : Kernel) (h : list AuditEvent) (caller target slot : N) (cap : Capability)
    (cl : list cell) (k' : Kernel) : Prop := {
  rf_wf : kernel_wf k';
  rf_same : same_but_caps (k_sched k) (k_sched k');
  rf_amb : traced (k_amb k) (k_amb k');
  rf_audit : audit_repr (k_audit k')
    (h ++ mkAuditEvent Revoke caller target (cap_resource cap) slot :: (cell_event <$> cl));
  rf_nodup : NoDup cl.*1;
  rf_caps : forall i j c, cap_of (k_sched k') i j = Some c <->
    cap_of (k_sched k) i j = Some c /\ (i, j) <> (target, slot) /\
    ~ doomed (k_sched k) (cap_id cap) c;
  rf_cells : forall i j c, (i, j, c) ∈ cl <->
    cap_of (k_sched k) i j = Some c /\ (i, j) <> (target, slot) /\
    doomed (k_sched k) (cap_id cap) c
}.

Lemma cap_revoke_granted k caller target slot cap h :
  kernel_wf k -> audit_repr (k_audit k) h ->
  lenN h + MAX_TASKS * MAX_CAPS + 2 < u64_limit ->
  holds_grant_to (k_sched k) target -> cap_of (k_sched k) target slot = Some cap ->
  wp (dispatch_cap_revoke caller target slot)
    (fun r k' => r = 0 /\ exists cl, revoked_from k h caller target slot cap cl k') k.
Proof.
  intros [Hs Hl _] Hh Hroom Hauth Hcap. unfold dispatch_cap_revoke, kget_task.
  apply wp_kbind. eapply wp_mono; [by apply current_has_grant_cap_to_spec|].
  intros b ? [-> Hb]. rewrite (proj2 Hb Hauth). cbn [negb].
  apply wp_kbind, wp_lock_sched; [done|]. apply wp_kbind, wp_kget. ksimp. rewrite get_task_wf by done.
  pose proof Hcap as Hcap0. unfold cap_of in Hcap.
  destruct (task_slot (k_sched k) target) as [t|] eqn:Ht; [|done].
  destruct (CapTable_kernel_revoke_spec (t_cap_table t) slot (k_amb k)) as (ct & a & Hop & Hct & Ha & Hcaps).
  { by eapply sched_wf_task. }
  rewrite Hcap in Hop. apply wp_kbind. eapply wp_kcaps; [exact Hop|]. ksimp.
  apply wp_kbind. eapply wp_kaudit; [exact Hh| |].
  { unfold audit_room. ksimp. rewrite (ar_total _ _ Hh). lia. }
  intros log Hlog. set (s1 := get_task_mut (k_sched k) target (set_t_cap_table ct)).
  assert (forall i j, cap_of s1 i j = if decide ((i, j) = (target, slot)) then None else cap_of (k_sched k) i j)
    as Hs1.
  { intros i j. unfold s1. rewrite (cap_of_update _ _ t) by done.
    destruct (decide (target = i)) as [<-|].
    - rewrite Hcaps. assert (cap_of (k_sched k) target j = cap_at (t_cap_table t) j) as ->
        by (unfold cap_of; by rewrite Ht).
      repeat case_decide; naive_solver.
    - rewrite decide_False by congruence. done. }
  apply wp_kbind. eapply wp_mono; [eapply (propagate_revocation_spec _ (cap_id cap)); ksimp|].
  { by apply update_caps_wf. }
  { exact Hlog. }
  { rewrite lenN_app. change (lenN [_]) with 1. lia. }
  ksimp. fold s1. intros _ k' (cl & [Hf Hw Hsm Hau Hnd Hca Hce]). wp_steps. split; [done|].
  exists cl. revert Hsm Hca Hce. ksimp. fold s1. intros Hsm Hca Hce.
  assert (forall c, doomed (k_sched k) (cap_id cap) c <-> doomed s1 (cap_id cap) c) as Hdoom.
  { intros c. unfold doomed. by setoid_rewrite (derived_remove_root _ s1 target slot cap). }
  split; ksimp.
  - split; ksimp; eauto.
  - eapply same_but_caps_trans; [by apply update_same_but_caps|done].
  - destruct Hf as (a' & l' & s' & -> & Htr). ksimp. by transitivity a.
  - by rewrite <- app_assoc in Hau.
  - done.
  - intros i j c. rewrite Hca, Hs1, Hdoom. case_decide; naive_solver.
  - intros i j c. rewrite Hce, Hs1, Hdoom. case_decide; naive_solver.
Qed.

Lemma update_caps_id s id t :
  sched_wf s -> task_slot s id = Some t ->
  get_task_mut s id (set_t_cap_table (t_cap_table t)) = s.
Proof.
  intros Hs Ht. unfold get_task_mut. rewrite get_task_wf, Ht by done. unfold put_slot.
  replace (set_t_cap_table (t_cap_table t) t) with t by by destruct t.
  rewrite upd_id; [by destruct s|]. unfold task_slot in Ht.
  destruct (idx (s_tasks s) id) as [[t'|]|]; simpl in Ht; by simplify_eq.
Qed.

(** The refusals: no authority over the target, or nothing in the slot. *)
Lemma cap_revoke_refused k caller target slot :
  kernel_wf k ->
  ~ holds_grant_to (k_sched k) target \/ cap_of (k_sched k) target slot = None ->
  wp (dispatch_cap_revoke caller target slot) (fun r k' => r = SYS_ERR /\ k' = k) k.
Proof.
  intros [Hs Hl _] Hno. unfold dispatch_cap_revoke, kget_task.
  apply wp_kbind. eapply wp_mono; [by apply current_has_grant_cap_to_spec|].
  intros b ? [-> Hb]. destruct b; cbn [negb]; [|by wp_steps].
  destruct Hno as [Hno|Hno]; [naive_solver|].
  apply wp_kbind, wp_lock_sched; [done|]. apply wp_kbind, wp_kget. ksimp. rewrite get_task_wf by done.
  unfold cap_of in Hno. destruct (task_slot (k_sched k) target) as [t|] eqn:Ht.
  - apply wp_kbind. eapply wp_kcaps; [by apply CapTable_kernel_revoke_empty|]. ksimp.
    rewrite update_caps_id by done. wp_steps. split; [done|]. destruct k. simpl in *. by subst.
  - wp_steps. split; [done|]. by apply relock.
Qed.

(** ** Grant *)

(** The decision of [SYS_CAP_GRANT]: the donor capability and the slot of the
    target that receives the derived one. *)
Definition grant_decision (s : Scheduler) (caller src target : N) : option (Capability * N) :=
  match cap_of s caller src, task_slot s target with
  | Some donor, Some t =>
      if cap_grant donor then
        match position is_none (slots (t_cap_table t)) with
        | Some slot => Some (donor, slot)
        | None => None
        end
      else None
  | _, _ => None
  end.

(** The derived capability: the donor's resource, at most the donor's rights,
    unsealed, with a fresh identity and the donor as origin. *)
Definition granted_cap (donor : Capability) (rights : RightsMask) (fresh : N) : Capability :=
  mkCap (cap_resource donor) (cap_read donor && rm_read rights) (cap_write donor && rm_write rights)
    (rm_grant rights) false fresh (Some (cap_id donor)).

(** What a grant makes of [k]. *)
Record granted (k : Kernel) (h : list AuditEvent) (target slot : N) (new : Capability)
    (ev : AuditEvent) (k' : Kernel) : Prop := {
  gr_wf : kernel_wf k';
  gr_same : same_but_caps (k_sched k) (k_sched k');
  gr_audit : audit_repr (k_audit k') (h ++ [ev]);
  gr_fresh : am_next_cap_id (k_amb k') = wadd64 (am_next_cap_id (k_amb k)) 1;
  gr_empty : cap_of (k_sched k) target slot = None;
  gr_caps : forall i j, cap_of (k_sched k') i j =
    if decide ((i, j) = (target, slot)) then Some new else cap_of (k_sched k) i j
}.

(** A refused grant: no capability and no audit record appears. *)
Record unchanged_caps (k k' : Kernel) : Prop := {
  uc_wf : kernel_wf k';
  uc_sched : k_sched k' = k_sched k;
  uc_audit : k_audit k' = k_audit k;
  uc_next : am_next_cap_id (k_amb k') = am_next_cap_id (k_amb k) \/
            am_next_cap_id (k_amb k') = wadd64 (am_next_cap_id (k_amb k)) 1
}.

Lemma attenuate_cases cap rights :
  attenuate cap rights =
    if cap_grant cap then Ok (with_origin (granted_cap cap rights 0) None) else Err tt.
Proof. unfold attenuate, granted_cap. by destruct (cap_grant cap). Qed.

Lemma dispatch_cap_grant_spec k caller src target rights h :
  kernel_wf k -> audit_repr (k_audit k) h -> lenN h + 1 < u64_limit ->
  wp (dispatch_cap_grant caller src target rights)
    (fun r k' =>
       match grant_decision (k_sched k) caller src target with
       | Some (donor, slot) => r = 0 /\
           granted k h target slot (granted_cap donor rights (am_next_cap_id (k_amb k)))
             (mkAuditEvent Grant caller target (cap_resource donor) slot) k'
       | None => r = SYS_ERR /\ unchanged_caps k k'
       end) k.
Proof.
  intros [Hs Hl Hau] Hh Hroom. unfold dispatch_cap_grant, kget_task, grant_decision.
  apply wp_kbind, wp_lock_sched; [done|]. apply wp_kbind, wp_kget. ksimp.
  rewrite get_task_wf by done. unfold cap_of at 1.
  destruct (task_slot (k_sched k) caller) as [t|] eqn:Ht.
  2: { wp_steps. split; [done|]. rewrite relock by done. split; auto. by split. }
  apply wp_kbind, wp_kcap_get. ksimp. intros a Ha. pose proof Ha as (Hap & Han & Hat).
  assert (forall b, unchanged_caps k (set_k_sched_locked false (set_k_amb a (set_k_sched_locked b k)))) as Huc.
  { intros b. split; ksimp; auto. by split. }
  destruct (cap_at (t_cap_table t) src) as [donor|] eqn:Hd.
  2: { by wp_steps. }
  rewrite attenuate_cases. destruct (cap_grant donor) eqn:Hg.
  2: { wp_steps. by destruct (task_slot (k_sched k) target). }
  apply wp_kbind, wp_unlock_sched, wp_kbind, wp_lock_sched; [done|].
  apply wp_kbind, wp_kget. ksimp. rewrite get_task_wf by done.
  destruct (task_slot (k_sched k) target) as [t2|] eqn:Ht2.
  2: { wp_steps. split; [done|]. apply (Huc false). }
  set (new := with_origin _ (Some (cap_id donor))).
  destruct (CapTable_insert_spec (t_cap_table t2) new a) as (r & ct & a' & Hop & Hct & Ha' & Hr).
  { by eapply sched_wf_task. }
  destruct Ha' as (Hap' & Han' & Hat').
  apply wp_kbind. eapply wp_kcaps; [exact Hop|]. ksimp. destruct r as [slot|].
  - destruct Hr as (Hpos & Hslot & Hempty & _ & Hcaps). rewrite Hpos.
    apply wp_kbind. eapply wp_kaudit; [exact Hh| |].
    { unfold audit_room. ksimp. rewrite (ar_total _ _ Hh). lia. }
    intros log Hlog. wp_steps. split; [done|]. split; ksimp.
    + split; ksimp; [by apply update_caps_wf|done|eauto].
    + by apply update_same_but_caps.
    + done.
    + rewrite Han', <- Han. done.
    + unfold cap_of. by rewrite Ht2.
    + intros i j. rewrite (cap_of_update _ _ t2) by done.
      destruct (decide (target = i)) as [<-|]; [|by rewrite decide_False by congruence].
      rewrite Hcaps. assert (cap_of (k_sched k) target j = cap_at (t_cap_table t2) j) as ->
        by (unfold cap_of; by rewrite Ht2).
      rewrite Han. unfold new. destruct (decide (slot = j)) as [<-|].
      * by rewrite decide_True.
      * by rewrite decide_False by congruence.
  - destruct Hr as (Hpos & -> & _). rewrite Hpos, update_caps_id by done. wp_steps.
    split; [done|]. split; ksimp; [|done..|].
    + split; ksimp; eauto.
    + right. by rewrite Han', <- Han.
Qed.

(** ** Sequences of capability calls *)

(** A capability system call and the task that makes it. *)
Inductive cap_call : Type :=
| CallGrant (caller src target : N) (rights : RightsMask)
| CallRevoke (caller target slot : N).

(** The caller is the task the scheduler is running. *)
Definition run_cap_call (c : cap_call) : K N :=
  match c with
  | CallGrant caller src target rights =>
      do* kmod (set_current caller) in dispatch_cap_grant caller src target rights
  | CallRevoke caller target slot =>
      do* kmod (set_current caller) in dispatch_cap_revoke caller target slot
  end.

Fixpoint run_cap_calls (cs : list cap_call) : K (list N) :=
  match cs with
  | [] => kret []
  | c :: cs' => let* r := run_cap_call c in let* rs := run_cap_calls cs' in kret (r :: rs)
  end.

(** Audit records one call can write. *)
Definition CALL_EVENTS : N := MAX_TASKS * MAX_CAPS + 2.

(** How the capability [c] in slot [j] of task [i] came to be in [s'], the state
    after the calls [cs] from [s]: it was in that slot before them and still is; or
    one of the calls granted it to [i] with a mask, from a slot of the caller whose
    capability [d] carries the grant right, is still there, is the recorded origin,
    and is itself accounted for.  [c] is then exactly what the mask leaves of [d]. *)
Inductive authorised (cs : list cap_call) (s s' : Scheduler) : N -> N -> Capability -> Prop :=
| auth_initial i j c : cap_of s i j = Some c -> cap_of s' i j = Some c -> authorised cs s s' i j c
| auth_granted i j c caller src rights d :
    CallGrant caller src i rights ∈ cs -> authorised cs s s' caller src d -> cap_grant d = true ->
    c = granted_cap d rights (cap_id c) -> cap_of s' i j = Some c -> authorised cs s s' i j c.

Definition all_authorised (cs : list cap_call) (s s' : Scheduler) : Prop :=
  forall i j c, cap_of s' i j = Some c -> authorised cs s s' i j c.

(** Identities are never reused, and lineage points to older capabilities. *)
Record lineage_ok (k : Kernel) : Prop := {
  lin_bound : forall i j c, cap_of (k_sched k) i j = Some c -> cap_id c < am_next_cap_id (k_amb k);
  lin_unique : forall i j c i' j' c', cap_of (k_sched k) i j = Some c ->
    cap_of (k_sched k) i' j' = Some c' -> cap_id c = cap_id c' -> (i, j) = (i', j');
  lin_older : forall i j c p, cap_of (k_sched k) i j = Some c -> cap_origin c = Some p -> p < cap_id c
}.

(** What the call [call] may do to the capabilities of [k], whose history is [h]. *)
Record call_step (call : cap_call) (h : list AuditEvent) (k k' : Kernel) : Prop := {
  cs_wf : kernel_wf k';
  cs_hist : exists evs, audit_repr (k_audit k') (h ++ evs) /\ lenN evs <= CALL_EVENTS;
  cs_auth : forall cs s, all_authorised cs s (k_sched k) -> all_authorised (cs ++ [call]) s (k_sched k');
  cs_lineage : am_next_cap_id (k_amb k) + 1 < u64_limit -> lineage_ok k -> lineage_ok k';
  cs_next : am_next_cap_id (k_amb k) + 1 < u64_limit ->
    am_next_cap_id (k_amb k') <= am_next_cap_id (k_amb k) + 1
}.

Lemma granted_cap_le donor rights fresh :
  cap_grant donor = true -> cap_le (granted_cap donor rights fresh) donor.
Proof.
  intros Hg. unfold cap_le. simpl. rewrite Hg.
  destruct (cap_read donor), (cap_write donor); naive_solver.
Qed.

(** The record of a capability is inherited by every later state that still has the
    capabilities it goes through. *)
Lemma authorised_kept cs cs' s s1 s2 :
  cs ⊆ cs' ->
  (forall i j c d, cap_of s1 i j = Some d -> cap_of s2 i j = None -> cap_origin c = Some (cap_id d) ->
    forall i' j', cap_of s1 i' j' = Some c -> cap_of s2 i' j' = None) ->
  (forall i j c c', cap_of s1 i j = Some c -> cap_of s2 i j = Some c' -> c = c') ->
  forall i j c, authorised cs s s1 i j c -> cap_of s2 i j = Some c -> authorised cs' s s2 i j c.
Proof.
  intros Hcs Hfall Hsame i j c Hauth. induction Hauth as [i j c H0 H1|i j c caller src rights d Hin Hd IH Hg Hc H1]; intros H2;
    [by apply auth_initial|].
  assert (cap_of s1 caller src = Some d) as Hd1 by by inversion Hd.
  destruct (cap_of s2 caller src) as [d2|] eqn:Hd2.
  - assert (d2 = d) as -> by (symmetry; by eapply Hsame). eapply auth_granted; eauto.
  - exfalso. rewrite (Hfall caller src c d Hd1 Hd2) with (i' := i) (j' := j) in H2; [done|by rewrite Hc|done].
Qed.

Lemma all_authorised_ext cs s s1 s2 :
  (forall i j, cap_of s2 i j = cap_of s1 i j) -> all_authorised cs s s1 -> all_authorised cs s s2.
Proof.
  intros He Hall i j c Hc. apply (authorised_kept cs cs s s1); [done|..|done].
  - intros i1 j1 c1 d H1 H2. rewrite He in H2. congruence.
  - intros i1 j1 c1 c2 H1 H2. rewrite He in H2. congruence.
  - apply Hall. by rewrite <- He.
Qed.

(** Nothing along a record has more rights than the capability it starts from. *)
Lemma authorised_root cs s s' i j c : authorised cs s s' i j c ->
  exists i0 j0 c0, cap_of s i0 j0 = Some c0 /\ cap_of s' i0 j0 = Some c0 /\ cap_le c c0.
Proof.
  induction 1 as [i j c H0 H1|i j c caller src rights d _ _ (i0 & j0 & c0 & H0 & H1 & Hle) Hg -> _].
  - by exists i, j, c.
  - exists i0, j0, c0. split; [done|]. split; [done|]. etransitivity; [by apply granted_cap_le|done].
Qed.

Lemma revoked_from_step k h caller target slot cap cl k' :
  revoked_from k h caller target slot cap cl k' -> sched_wf (k_sched k) ->
  cap_of (k_sched k) target slot = Some cap -> call_step (CallRevoke caller target slot) h k k'.
Proof.
  intros [Hwf Hsame Hamb Hau Hnd Hca Hce] Hs Hcap. destruct Hamb as (_ & Hn & _). split.
  - done.
  - eexists. split; [exact Hau|]. unfold lenN, CALL_EVENTS. simpl. rewrite length_fmap.
    pose proof (cells_bound k cl Hs Hnd ltac:(intros ??? ?; by apply Hce)) as Hb. unfold lenN in Hb. lia.
  - intros cs s Hall i j c Hc. apply (authorised_kept cs _ s (k_sched k)); [set_solver|..|done].
    + intros i1 j1 c1 d Hd1 Hd2 Ho i2 j2 Hc2. destruct (cap_of (k_sched k') i2 j2) as [c2|] eqn:Hc2'; [exfalso|done].
      apply Hca in Hc2' as (? & _ & Hnot). simplify_eq. apply Hnot. exists (cap_id d). split; [done|].
      destruct (decide ((i1, j1) = (target, slot))) as [?|Hne]; [simplify_eq; constructor|].
      destruct (decide ((i1, j1, d) ∈ cl)) as [(_ & _ & p & Hp & Hder)%Hce|Hno]; [by eapply derived_step|].
      exfalso. rewrite (proj2 (Hca i1 j1 d)) in Hd2; [done|]. split; [done|]. split; [done|]. intros Hd. apply Hno, Hce. done.
    + intros i1 j1 c1 c2 H1 H2. apply Hca in H2 as [? _]. congruence.
    + apply Hall. by apply Hca in Hc as [? _].
  - intros _ [Hb Hu Ho]. rewrite <- Hn in Hb. split.
    + intros i j c Hc. apply Hca in Hc as [? _]. eauto.
    + intros i j c i' j' c' Hc Hc'. apply Hca in Hc as [? _]. apply Hca in Hc' as [? _]. eauto.
    + intros i j c p Hc. apply Hca in Hc as [? _]. eauto.
  - intros _. rewrite Hn. lia.
Qed.

Lemma granted_step k h caller src target slot rights donor k' :
  cap_of (k_sched k) caller src = Some donor -> cap_grant donor = true ->
  granted k h target slot (granted_cap donor rights (am_next_cap_id (k_amb k)))
    (mkAuditEvent Grant caller target (cap_resource donor) slot) k' ->
  call_step (CallGrant caller src target rights) h k k'.
Proof.
  intros Hd Hg [Hwf Hsame Hau Hfresh Hemp Hca]. split.
  - done.
  - eexists. split; [exact Hau|]. done.
  - intros cs s Hall.
    assert (forall i j c, cap_of (k_sched k) i j = Some c -> cap_of (k_sched k') i j = Some c) as Hkeep.
    { intros i j c Hc. rewrite Hca. case_decide; [|done]. simplify_eq. }
    assert (forall i j c, cap_of (k_sched k) i j = Some c ->
      authorised (cs ++ [CallGrant caller src target rights]) s (k_sched k') i j c) as Hold.
    { intros i j c Hc. apply (authorised_kept cs _ s (k_sched k)); [set_solver|..|by apply Hall|by apply Hkeep].
      - intros i1 j1 c1 d Hd1 Hd2. apply Hkeep in Hd1. congruence.
      - intros i1 j1 c1 c2 H1%Hkeep H2. congruence. }
    intros i j c Hc. pose proof Hc as Hc'. rewrite Hca in Hc. destruct (decide ((i, j) = (target, slot))) as [?|]; [|by apply Hold].
    simplify_eq. eapply auth_granted with (caller := caller) (src := src) (rights := rights) (d := donor); [set_solver|by apply Hold|done|done|done].
  - intros Hlim [Hb Hu Ho]. rewrite wadd64_small in Hfresh by done. split; rewrite ?Hfresh.
    + intros i j c. rewrite Hca. case_decide; intros; simplify_eq; simpl; [lia|].
      apply Hb in H0. lia.
    + intros i j c i' j' c'. rewrite !Hca. repeat case_decide; intros H1 H2 He; simplify_eq; try done.
      * apply Hb in H2. rewrite <- He in H2. simpl in H2. lia.
      * apply Hb in H1. rewrite He in H1. simpl in H1. lia.
      * eauto.
    + intros i j c p. rewrite Hca. case_decide; intros; simplify_eq/=; [by eapply Hb|eauto].
  - intros Hlim. rewrite Hfresh, wadd64_small by done. lia.
Qed.

Lemma unchanged_step call k h k' :
  audit_repr (k_audit k) h -> unchanged_caps k k' -> call_step call h k k'.
Proof.
  intros Hh [Hwf Hs Ha Hn]. split.
  - done.
  - exists []. rewrite app_nil_r, Ha. done.
  - intros cs s Hall. rewrite Hs. intros i j c Hc. apply (authorised_kept cs _ s (k_sched k)); [set_solver|congruence..|by apply Hall|done].
  - intros Hlim [Hb Hu Ho]. rewrite wadd64_small in Hn by done.
    split; rewrite ?Hs; [|done..]. intros i j c Hc. apply Hb in Hc. lia.
  - intros Hlim. rewrite wadd64_small in Hn by done. lia.
Qed.

Lemma call_step_refl call k h : kernel_wf k -> audit_repr (k_audit k) h -> call_step call h k k.
Proof. intros Hk Hh. apply unchanged_step; [done|]. split; auto. Qed.

Lemma holds_grant_dec s target : sched_wf s -> holds_grant_to s target \/ ~ holds_grant_to s target.
Proof.
  intros Hs. set (k := set_k_sched s Kernel_init).
  pose proof (current_has_grant_cap_to_spec target k Hs eq_refl) as Hw.
  apply wp_run in Hw as (b & k' & _ & _ & Hb). destruct b; [left; by apply Hb|right].
  intros H. by apply Hb in H.
Qed.

(** Every call returns, and takes an allowed step. *)
Lemma run_cap_call_step c k h :
  kernel_wf k -> audit_repr (k_audit k) h -> lenN h + CALL_EVENTS < u64_limit ->
  wp (run_cap_call c) (fun _ k' => call_step c h k k') k.
Proof.
  intros Hk Hh Hroom. unfold CALL_EVENTS in Hroom.
  assert (forall id k', call_step c h (set_current id k) k' -> call_step c h k k') as Hcur.
  { intros id k' [H1 H2 H3 H4 H5]. split; [done..| |intros Hlim [Hb Hu Ho]; apply H4; done|done].
    intros cs s Hall. apply H3. by apply (all_authorised_ext _ _ (k_sched k)). }
  destruct c as [caller src target rights|caller target slot]; unfold run_cap_call;
    apply wp_kbind, wp_kmod; set (k1 := set_current caller k) in *;
    assert (kernel_wf k1) as Hk1 by (by apply set_current_wf);
    assert (audit_repr (k_audit k1) h) as Hh1 by done.
  - eapply wp_mono; [apply (dispatch_cap_grant_spec k1 caller src target rights h); [done..|lia]|].
    intros r k' Hr. apply (Hcur caller). fold k1. unfold grant_decision in Hr.
    destruct (cap_of (k_sched k1) caller src) as [donor|] eqn:Hd; [|apply unchanged_step; naive_solver].
    destruct (task_slot (k_sched k1) target) as [t|]; [|apply unchanged_step; naive_solver].
    destruct (cap_grant donor) eqn:Hg; [|apply unchanged_step; naive_solver].
    destruct (position _ _) as [slot|]; [|apply unchanged_step; naive_solver].
    eapply granted_step; [done..|apply Hr].
  - destruct (holds_grant_dec (k_sched k1) target) as [Hauth|Hno]; [apply Hk1| |].
    + destruct (cap_of (k_sched k1) target slot) as [cap|] eqn:Hcap.
      * eapply wp_mono; [apply (cap_revoke_granted k1 caller target slot cap h); [done..|lia|done|done]|].
        intros r k' (_ & cl & Hr). apply (Hcur caller). fold k1.
        eapply revoked_from_step; [done|apply Hk1|done].
      * eapply wp_mono; [apply cap_revoke_refused; auto|]. intros r k' [_ ->].
        apply (Hcur caller). by apply call_step_refl.
    + eapply wp_mono; [apply cap_revoke_refused; auto|]. intros r k' [_ ->].
      apply (Hcur caller). by apply call_step_refl.
Qed.

Lemma run_cap_calls_step cs k h past s :
  kernel_wf k -> audit_repr (k_audit k) h -> lenN h + lenN cs * CALL_EVENTS < u64_limit -> all_authorised past s (k_sched k) ->
  wp (run_cap_calls cs) (fun _ k' => kernel_wf k' /\ all_authorised (past ++ cs) s (k_sched k') /\
    (am_next_cap_id (k_amb k) + lenN cs < u64_limit -> lineage_ok k -> lineage_ok k')) k.
Proof.
  revert k h past. induction cs as [|c cs IH]; intros k h past Hk Hh Hroom Hpast; cbn [run_cap_calls].
  - wp_steps. rewrite app_nil_r. done.
  - assert (lenN (c :: cs) = 1 + lenN cs) as Hlen by (unfold lenN; simpl; lia). rewrite Hlen in *.
    apply wp_kbind. eapply wp_mono; [apply (run_cap_call_step c k h); [done..|lia]|].
    intros r k1 [Hwf (evs & Hh1 & Hevs) Hauth Hlin Hnext]. apply wp_kbind.
    eapply wp_mono; [apply (IH k1 (h ++ evs) (past ++ [c])); [done..|rewrite lenN_app; lia|by apply Hauth]|].
    intros rs k2 (Hwf2 & Hauth2 & Hlin2). wp_steps. split; [done|].
    split; [by rewrite <- app_assoc in Hauth2|]. intros Hlim Hl. apply Hlin2; [|apply Hlin; [lia|done]].
    specialize (Hnext ltac:(lia)). lia.
Qed.

Lemma all_authorised_refl s : all_authorised [] s s.
Proof. intros i j c Hc. by apply auth_initial. Qed.

(** ** Main results *)

(** An example system: task 1 may revoke from task 2, whose serial capability
    (identity 2) was passed on to task 3 and from there to task 4, which also
    holds an unrelated one. *)
Definition example_system : Kernel :=
  on_amb (set_am_next_cap_id 6)
    (set_current 1
      (add_task (example_task 1 Running [mkCap (IpcChannel 2) true true true false 1 None])
        (add_task (example_task 2 Ready [mkCap Serial true true true true 2 None])
          (add_task (example_task 3 Ready [mkCap Serial true true true false 3 (Some 2)])
            (add_task (example_task 4 Ready [mkCap Serial true false false false 4 (Some 3);
                                             mkCap Serial true true false false 5 None])
              Kernel_init))))).

Lemma example_system_wf : kernel_wf example_system.
Proof.
  assert (forall f k, kernel_wf k -> kernel_wf (on_amb f k)) as H by (intros f k []; by split).
  apply H. repeat first [apply set_current_wf | apply add_task_wf]; auto with kernel;
    apply example_task_wf; simpl; lia.
Qed.

Lemma example_system_audit : audit_repr (k_audit example_system) [].
Proof. apply audit_repr_new. Qed.

(** C1: Revocation is exact.  When the caller holds a granting channel to the
    target and the slot is occupied, [dispatch_cap_revoke] returns 0, never
    panics or hangs, and removes precisely that capability and every
    capability whose derivation lineage leads to it, in every task's table and
    at any depth; nothing else in the scheduler changes, and the audit trail
    gains one [Revoke] record followed by one [RevokePropagated] record per
    capability lost downstream. *)
Theorem revoke_exact k caller target slot cap h :
  kernel_wf k -> audit_repr (k_audit k) h ->
  lenN h + MAX_TASKS * MAX_CAPS + 2 < u64_limit ->
  holds_grant_to (k_sched k) target -> cap_of (k_sched k) target slot = Some cap ->
  exists k' cl, dispatch_cap_revoke caller target slot k = Ret (0, k') /\
    revoked_from k h caller target slot cap cl k'.
Proof.
  intros Hk Hh Hroom Hauth Hcap.
  destruct (proj1 (wp_run _ _ _) (cap_revoke_granted k caller target slot cap h Hk Hh Hroom Hauth Hcap))
    as (r & k' & Hrun & -> & cl & Hr). by exists k', cl.
Qed.

Lemma example_grant_to_2 : holds_grant_to (k_sched example_system) 2.
Proof. exists 1, 0, (mkCap (IpcChannel 2) true true true false 1 None). done. Qed.

Lemma revoke_exact_witness :
  exists k' cl, dispatch_cap_revoke 1 2 0 example_system = Ret (0, k') /\
    revoked_from example_system [] 1 2 0 (mkCap Serial true true true true 2 None) cl k'.
Proof.
  apply (revoke_exact example_system 1 2 0 (mkCap Serial true true true true 2 None) []).
  - exact example_system_wf.
  - exact example_system_audit.
  - reflexivity.
  - exact example_grant_to_2.
  - reflexivity.
Defined.

(** Revocation needs authority.  If the running task holds no granting
    channel to the target, or the slot is empty, [dispatch_cap_revoke] reports
    an error and leaves the whole kernel state exactly as it was. *)
Theorem revoke_refused k caller target slot :
  kernel_wf k ->
  ~ holds_grant_to (k_sched k) target \/ cap_of (k_sched k) target slot = None ->
  dispatch_cap_revoke caller target slot k = Ret (SYS_ERR, k).
Proof.
  intros Hk Hno.
  destruct (proj1 (wp_run _ _ _) (cap_revoke_refused k caller target slot Hk Hno))
    as (r & k' & Hrun & -> & ->). done.
Qed.

Lemma revoke_refused_witness :
  dispatch_cap_revoke 1 3 0 example_system = Ret (SYS_ERR, example_system).
Proof.
  apply (revoke_refused example_system 1 3 0).
  - exact example_system_wf.
  - left. intros (id & j & g & Hid & Hof & _ & Hr). injection Hid as <-.
    pose proof (cap_of_Some _ _ _ _ (kw_sched _ example_system_wf) Hof) as [_ Hj].
    unfold cap_of in Hof. apply cap_at_Some in Hof as [_ Hof]. apply idx_elem_of in Hof.
    change (slots _) with (Some (mkCap (IpcChannel 2) true true true false 1 None) :: replicate 31 None) in Hof.
    apply elem_of_cons in Hof as [Heq|Hin%elem_of_replicate_inv]; by simplify_eq/=.
Defined.

(** C4: Grants attenuate.  [dispatch_cap_grant] never panics or hangs.  It
    succeeds exactly when the caller's slot holds a capability with the grant
    right, the target exists and has a free slot; then the target's first free
    slot receives a capability on the same resource whose rights are the
    intersection of the donor's and the requested ones, unsealed, with a fresh
    identity and the donor recorded as its origin, one [Grant] record is
    written, and no other capability changes.  Otherwise no capability and no
    audit record changes. *)
Theorem grant_exact k caller src target rights h :
  kernel_wf k -> audit_repr (k_audit k) h -> lenN h + 1 < u64_limit ->
  exists r k', dispatch_cap_grant caller src target rights k = Ret (r, k') /\
    match grant_decision (k_sched k) caller src target with
    | Some (donor, slot) => r = 0 /\
        granted k h target slot (granted_cap donor rights (am_next_cap_id (k_amb k)))
          (mkAuditEvent Grant caller target (cap_resource donor) slot) k'
    | None => r = SYS_ERR /\ unchanged_caps k k'
    end.
Proof.
  intros Hk Hh Hroom. apply wp_run. by apply dispatch_cap_grant_spec.
Qed.

Lemma grant_exact_witness :
  exists r k', dispatch_cap_grant 2 0 4 (mkRights true false true) example_system = Ret (r, k') /\
    r = 0 /\
    granted example_system [] 4 2 (mkCap Serial true false true false 6 (Some 2))
      (mkAuditEvent Grant 2 4 Serial 2) k'.
Proof.
  apply (grant_exact example_system 2 0 4 (mkRights true false true) []).
  - exact example_system_wf.
  - exact example_system_audit.
  - reflexivity.
Defined.

(** C2: No amplification.  Whatever sequence of grants and revocations the tasks
    issue, every call returns, and every capability present at the end is accounted
    for.  Either it was in its slot at the start; or one of the calls granted it to
    the task that holds it, and the capability in the slot the caller named carries
    the grant right, is recorded as its origin, is still held there, and is in turn
    accounted for: the granted capability is for the same resource and has exactly
    the rights of that one which the mask of the call leaves.  So the line of origins
    of every capability ends in one held since the start, which has all its rights. *)
Theorem no_amplification cs k h :
  kernel_wf k -> audit_repr (k_audit k) h -> lenN h + lenN cs * CALL_EVENTS < u64_limit ->
  exists rs k', run_cap_calls cs k = Ret (rs, k') /\ kernel_wf k' /\
    forall i j c, cap_of (k_sched k') i j = Some c ->
      authorised cs (k_sched k) (k_sched k') i j c /\
      exists i0 j0 c0, cap_of (k_sched k) i0 j0 = Some c0 /\ cap_of (k_sched k') i0 j0 = Some c0 /\ cap_le c c0.
Proof.
  intros Hk Hh Hroom.
  destruct (proj1 (wp_run _ _ _) (run_cap_calls_step cs k h [] (k_sched k) Hk Hh Hroom (all_authorised_refl _)))
    as (rs & k' & Hrun & Hwf & Hall & _).
  exists rs, k'. split; [done|]. split; [done|]. intros i j c Hc. specialize (Hall i j c Hc). split; [done|by eapply authorised_root].
Qed.

(** Task 3 passes its serial capability to task 1, which passes it to task 2
    without the grant right. *)
Lemma no_amplification_witness :
  exists rs k', run_cap_calls [CallGrant 3 0 1 (mkRights true true true); CallGrant 1 1 2 (mkRights true true false)] example_system = Ret (rs, k') /\
    cap_of (k_sched k') 2 1 = Some (mkCap Serial true true false false 7 (Some 6)) /\
    exists i0 j0 c0, cap_of (k_sched example_system) i0 j0 = Some c0 /\ cap_le (mkCap Serial true true false false 7 (Some 6)) c0.
Proof.
  destruct (no_amplification [CallGrant 3 0 1 (mkRights true true true); CallGrant 1 1 2 (mkRights true true false)] example_system [])
    as (rs & k' & Hrun & _ & Hall).
  - exact example_system_wf.
  - exact example_system_audit.
  - reflexivity.
  - assert (cap_of (k_sched k') 2 1 = Some (mkCap Serial true true false false 7 (Some 6))) as Hc.
    { assert (run_cap_calls [CallGrant 3 0 1 (mkRights true true true); CallGrant 1 1 2 (mkRights true true false)] example_system
        = Ret ([0; 0], k')) as Hrun' by (rewrite Hrun; revert Hrun; vm_compute; congruence).
      revert Hrun'. vm_compute. intros [= <-]. reflexivity. }
    exists rs, k'. split; [exact Hrun|]. split; [exact Hc|]. destruct (Hall 2 1 _ Hc) as [_ (i0 & j0 & c0 & H0 & _ & Hle)]. eauto.
Defined.

(** C3: Identities are unique and lineage is acyclic.  Starting from a state in
    which capability identities are pairwise distinct, below the counter, and
    every origin is older than the capability derived from it, any sequence of
    capability calls that does not exhaust the 64-bit counter keeps it so, so
    revocation by identity never reaches a capability that merely reuses a
    slot. *)
Theorem lineage_preserved cs k h :
  kernel_wf k -> audit_repr (k_audit k) h -> lenN h + lenN cs * CALL_EVENTS < u64_limit ->
  am_next_cap_id (k_amb k) + lenN cs < u64_limit -> lineage_ok k ->
  exists rs k', run_cap_calls cs k = Ret (rs, k') /\ lineage_ok k'.
Proof.
  intros Hk Hh Hroom Hids Hl.
  destruct (proj1 (wp_run _ _ _) (run_cap_calls_step cs k h [] (k_sched k) Hk Hh Hroom (all_authorised_refl _)))
    as (rs & k' & Hrun & _ & _ & Hlin).
  exists rs, k'. auto.
Qed.

Lemma lineage_preserved_witness :
  exists rs k', run_cap_calls [CallGrant 2 0 3 (mkRights true true true)]
    (add_task (example_task 2 Ready [mkCap Serial true true true true 0 None])
      (add_task (example_task 3 Ready []) Kernel_init)) = Ret (rs, k') /\ lineage_ok k'.
Proof.
  apply (lineage_preserved _ _ []).
  - apply add_task_wf; [apply example_task_wf; simpl; lia|].
    apply add_task_wf; [apply example_task_wf; simpl; lia|apply Kernel_init_wf].
  - apply audit_repr_new.
  - reflexivity.
  - reflexivity.
  - assert (forall i j c, cap_of (k_sched (add_task (example_task 2 Ready [mkCap Serial true true true true 0 None])
      (add_task (example_task 3 Ready []) Kernel_init))) i j = Some c ->
      (i, j, c) = (2, 0, mkCap Serial true true true true 0 None)) as Honly.
    { intros i j c. unfold cap_of, add_task. ksimp. rewrite !task_slot_put by done. simpl t_id.
      destruct (decide (2 = i)) as [<-|]; [|destruct (decide (3 = i)) as [<-|]].
      - intros [_ Hc]%cap_at_Some. rewrite idx_lookup in Hc. simpl in Hc.
        destruct (N.to_nat j) as [|n] eqn:Hj; simpl in Hc; [by simplify_eq; replace j with 0 by lia|].
        assert (Some c ∈ replicate 31 None) as Hin by (apply list_elem_of_lookup; eauto).
        by apply elem_of_replicate_inv in Hin.
      - intros [_ Hc]%cap_at_Some. apply idx_elem_of in Hc. simpl in Hc.
        assert (Some c ∈ replicate 32 None) as Hin by exact Hc.
        by apply elem_of_replicate_inv in Hin.
      - change (k_sched Kernel_init) with Scheduler_init. intros Hc.
        by rewrite task_slot_init in Hc. }
    split.
    + intros i j c Hc. apply Honly in Hc. by simplify_eq.
    + intros i j c i' j' c' Hc Hc' _. apply Honly in Hc, Hc'. congruence.
    + intros i j c p Hc. apply Honly in Hc. by simplify_eq.
Defined.
