(* ===== verification/Paging.v ===== *)
(** * Page tables

    Models the paging half of [kernel/memory/mod.rs]: table walks with
    creation of missing levels, mapping of kernel and user pages, new address
    spaces, and the validation of user ranges.  Tables are words of the
    machine's memory, reached through the direct map. *)

From S2P Require Import Prelude Ring Preempt Trace Capability AuditTrail Message Machine Frames.
From S2P Require Import Task Scheduler Kernel.
Local Open Scope N_scope.

(** ** Memory accesses *)

Definition rd_word (a : N) : K N := kget (fun k => mem_rd (k_mem k) a).
Definition wr_word (a v : N) : K unit :=
  kmod (on_machine (fun mc => set_mc_mem (mem_wr (mc_mem mc) a v) mc)).

Fixpoint zero_words (n : nat) (a : N) (m : Mem) : Mem :=
  match n with
  | O => m
  | S n' => mem_wr (zero_words n' a m) (a + 8 * N.of_nat n') 0
  end.

(** [write_bytes(a, 0, 4096)]. *)
Definition zero_page (a : N) : K unit :=
  kmod (on_machine (fun mc => set_mc_mem (zero_words 512 a (mc_mem mc)) mc)).

(** [FRAME_ALLOCATOR.allocate_frame()]. *)
Definition kallocate_frame : K (option N) :=
  fun k => let! (o, fa) := allocate_frame (k_frames k) in Ret (o, set_k_frames fa k).

(** ** Indices *)

Definition pml4_idx (vaddr : N) : N := N.land (N.shiftr vaddr 39) 0x1ff.
Definition pdpt_idx (vaddr : N) : N := N.land (N.shiftr vaddr 30) 0x1ff.
Definition pd_idx (vaddr : N) : N := N.land (N.shiftr vaddr 21) 0x1ff.
Definition pt_idx (vaddr : N) : N := N.land (N.shiftr vaddr 12) 0x1ff.

(** [(entry & flag) != 0]. *)
Definition has_flag (entry flag : N) : bool := negb (N.land entry flag =? 0).

Section paging.
Context `{L : Layout}.

Definition hhdm_offset : N := default 0 hhdm_response.

(** ** Walking with creation *)

Definition get_or_create_table_user (table idx hhdm : N) : K (result unit N) :=
  let* entry := rd_word (table + 8 * idx) in
  if negb (has_flag entry 0x1) then
    let* o := kallocate_frame in
    match o with
    | None => kret (Err tt)
    | Some new_table_paddr =>
        let* new_table_vaddr := klift (add64 new_table_paddr hhdm) in
        do* zero_page new_table_vaddr in
        do* wr_word (table + 8 * idx) (N.lor new_table_paddr 0x7) in
        kret (Ok new_table_paddr)
    end
  else
    do* wr_word (table + 8 * idx) (N.lor entry 0x4) in
    kret (Ok (N.land entry PADDR_MASK)).

Definition get_or_create_table (table idx hhdm : N) : K (result unit N) :=
  let* entry := rd_word (table + 8 * idx) in
  if negb (has_flag entry 0x1) then
    let* o := kallocate_frame in
    match o with
    | None => kret (Err tt)
    | Some new_table_paddr =>
        let* new_table_vaddr := klift (add64 new_table_paddr hhdm) in
        do* zero_page new_table_vaddr in
        do* wr_word (table + 8 * idx) (N.lor new_table_paddr 0x3) in
        kret (Ok new_table_paddr)
    end
  else kret (Ok (N.land entry PADDR_MASK)).

(** [(get(table, idx, hhdm)? + hhdm) as *mut u64], continuing with [k]. *)
Definition next_table {A} (get : N -> N -> N -> K (result unit N)) (table idx hhdm : N)
    (k : N -> K (result unit A)) : K (result unit A) :=
  let* r := get table idx hhdm in
  match r with
  | Err e => kret (Err e)
  | Ok paddr => let* next := klift (add64 paddr hhdm) in k next
  end.

Definition map_page_user_into (pml4_paddr vaddr paddr : N) (writeable : bool)
  : K (result unit unit) :=
  match hhdm_response with
  | None => kret (Err tt)
  | Some hhdm =>
      let* pml4 := klift (add64 pml4_paddr hhdm) in
      next_table get_or_create_table_user pml4 (pml4_idx vaddr) hhdm (fun pdpt =>
      next_table get_or_create_table_user pdpt (pdpt_idx vaddr) hhdm (fun pd =>
      next_table get_or_create_table_user pd (pd_idx vaddr) hhdm (fun pt =>
        let flags := N.lor (N.lor 0x1 0x4) (if writeable then 0x2 else 0x0) in
        do* wr_word (pt + 8 * pt_idx vaddr) (N.lor (N.land paddr PADDR_MASK) flags) in
        kret (Ok tt))))
  end.

Definition map_page_user (vaddr paddr : N) (writeable : bool) : K (result unit unit) :=
  let* root := kget (fun k => current_pml4_paddr (k_cpu k)) in
  map_page_user_into root vaddr paddr writeable.

Definition map_page (vaddr paddr : N) (writeable : bool) : K (result unit unit) :=
  match hhdm_response with
  | None => kret (Err tt)
  | Some hhdm =>
      let* cr3 := kget (fun k => r_cr3 (k_cpu k)) in
      let pml4_paddr := N.land cr3 PADDR_MASK in
      let* pml4 := klift (add64 pml4_paddr hhdm) in
      next_table get_or_create_table pml4 (pml4_idx vaddr) hhdm (fun pdpt =>
      next_table get_or_create_table pdpt (pdpt_idx vaddr) hhdm (fun pd =>
      next_table get_or_create_table pd (pd_idx vaddr) hhdm (fun pt =>
        let page_flags := N.lor 0x1 (if writeable then 0x2 else 0x0) in
        do* wr_word (pt + 8 * pt_idx vaddr) (N.lor (N.land paddr PADDR_MASK) page_flags) in
        kret (Ok tt))))
  end.

(** ** New address spaces *)

(** [*new_pml4.add(i) = *cur_pml4.add(i)]. *)
Definition copy_entry (new_pml4 cur_pml4 i : N) : K unit :=
  let* e := rd_word (cur_pml4 + 8 * i) in wr_word (new_pml4 + 8 * i) e.

Definition new_address_space : K (option N) :=
  let hhdm := hhdm_offset in
  let* o := kallocate_frame in
  match o with
  | None => kret None
  | Some new_pml4_paddr =>
      let* new_pml4 := klift (add64 new_pml4_paddr hhdm) in
      let* cur := kget (fun k => current_pml4_paddr (k_cpu k)) in
      let* cur_pml4 := klift (add64 cur hhdm) in
      do* zero_page new_pml4 in
      do* kfor (rangeN 256 256) (fun i _ => copy_entry new_pml4 cur_pml4 i) tt in
      kret (Some new_pml4_paddr)
  end.

(** ** Validation of user ranges *)

Definition USER_SPACE_UPPER_BOUND : N := 0x7FFFFFFFFFFF.

(** The tests made at one level: present, user, and writeable if required. *)
Definition entry_allows (entry : N) (writeable : bool) : bool :=
  negb (negb (has_flag entry 0x1) || negb (has_flag entry 0x4)) &&
  negb (writeable && negb (has_flag entry 0x2)).

(** One level of the walk: the next table, or [Err]. *)
Definition check_level (table_paddr idx hhdm : N) (writeable : bool) : K (result unit N) :=
  let* table := klift (add64 table_paddr hhdm) in
  let* entry := rd_word (table + 8 * idx) in
  kret (if entry_allows entry writeable then Ok (N.land entry PADDR_MASK) else Err tt).

Definition check_page (pml4_paddr hhdm vaddr : N) (writeable : bool) : K (result unit unit) :=
  let* r4 := check_level pml4_paddr (pml4_idx vaddr) hhdm writeable in
  match r4 with
  | Err e => kret (Err e)
  | Ok pdpt_paddr =>
      let* r3 := check_level pdpt_paddr (pdpt_idx vaddr) hhdm writeable in
      match r3 with
      | Err e => kret (Err e)
      | Ok pd_paddr =>
          let* r2 := check_level pd_paddr (pd_idx vaddr) hhdm writeable in
          match r2 with
          | Err e => kret (Err e)
          | Ok pt_paddr =>
              let* r1 := check_level pt_paddr (pt_idx vaddr) hhdm writeable in
              kret match r1 with Ok _ => Ok tt | Err e => Err e end
          end
      end
  end.

(** The loop over pages; the fuel is the number of pages. *)
Fixpoint check_pages (fuel : nat) (pml4_paddr hhdm vaddr end_page : N) (writeable : bool)
  : K (result unit unit) :=
  match fuel with
  | O => klift OutOfFuel
  | S fuel' =>
      let* r := check_page pml4_paddr hhdm vaddr writeable in
      match r with
      | Err e => kret (Err e)
      | Ok _ =>
          if vaddr =? end_page then kret (Ok tt)
          else
            let* next := klift (add64 vaddr 4096) in
            check_pages fuel' pml4_paddr hhdm next end_page writeable
      end
  end.

Definition validate_user_range (ptr len : N) (writeable : bool) : K (result unit unit) :=
  if len =? 0 then kret (Ok tt)
  else
    let start := ptr in
    match checked_add start len with
    | None => kret (Err tt)
    | Some end_ =>
        if USER_SPACE_UPPER_BOUND + 1 <? end_ then kret (Err tt)
        else
          let* pml4_paddr := kget (fun k => current_pml4_paddr (k_cpu k)) in
          let start_page := page_floor start in
          let* last := klift (sub64 end_ 1) in
          let end_page := page_floor last in
          check_pages (N.to_nat ((end_page - start_page) / 4096 + 1))
            pml4_paddr hhdm_offset start_page end_page writeable
    end.
End paging.
