(* ===== verification/AddressSpace.v ===== *)
(** * Correctness of paging

    The hardware's page walk as the specification of a page-table tree, the
    invariant of a user address space, and the proofs that the operations of
    [Paging] implement their contracts: mapping a page changes the translation
    of that page and of no other, a new address space maps nothing in the user
    half, and range validation accepts exactly the ranges whose every page is
    accessible. *)

From S2P Require Import Prelude Ring Preempt Trace Capability AuditTrail Message Machine Frames.
From S2P Require Import Task Scheduler Kernel Paging.
Local Open Scope N_scope.

(** ** The hardware walk *)

Definition entry_at (m : Mem) (h t i : N) : N := mem_rd m (t + h + 8 * i).
Definition frame_of (e : N) : N := N.land e PADDR_MASK.

(** The entries met on the way down from table [t], if all are present. *)
Fixpoint walk (m : Mem) (h t : N) (path : list N) : option (list N) :=
  match path with
  | [] => Some []
  | i :: path' =>
      let e := entry_at m h t i in
      if has_flag e 0x1 then
        match walk m h (frame_of e) path' with Some es => Some (e :: es) | None => None end
      else None
  end.

Definition indices (v : N) : list N := [pml4_idx v; pdpt_idx v; pd_idx v; pt_idx v].

(** The frame, and the user and write permissions, that the processor uses for
    address [v]: the conjunction over the levels. *)
Definition translate (m : Mem) (h root v : N) : option (N * bool * bool) :=
  match walk m h root (indices v) with
  | Some es =>
      Some (frame_of (List.last es 0), forallb (fun e => has_flag e 0x4) es,
            forallb (fun e => has_flag e 0x2) es)
  | None => None
  end.

(** A user access to [v] is allowed. *)
Definition access_ok (m : Mem) (h root v : N) (writeable : bool) : bool :=
  match translate m h root v with
  | Some (_, user, write) => user && (negb writeable || write)
  | None => false
  end.

(** ** Bits *)

Lemma idx_mod v n : N.land (N.shiftr v n) 0x1ff = v / 2 ^ n mod 512.
Proof. change 0x1ff with (N.ones 9). by rewrite N.land_ones, N.shiftr_div_pow2. Qed.

Lemma idx_bound v n : N.land (N.shiftr v n) 0x1ff < 512.
Proof. rewrite idx_mod. by apply N.mod_lt. Qed.

Lemma pml4_idx_user v : v < 2 ^ 47 -> pml4_idx v < 256.
Proof.
  intros Hv. unfold pml4_idx. rewrite idx_mod.
  assert (v / 2 ^ 39 < 256) as H by (apply N.Div0.div_lt_upper_bound; lia).
  rewrite N.mod_small by lia. done.
Qed.

(** The page of a user address is determined by its indices. *)
Lemma indices_page v : v < 2 ^ 47 ->
  v / 4096 = ((pml4_idx v * 512 + pdpt_idx v) * 512 + pd_idx v) * 512 + pt_idx v.
Proof.
  intros Hv. unfold pml4_idx, pdpt_idx, pd_idx, pt_idx. rewrite !idx_mod.
  change (2 ^ 39) with (4096 * 512 * 512 * 512). change (2 ^ 30) with (4096 * 512 * 512).
  change (2 ^ 21) with (4096 * 512). change (2 ^ 12) with 4096. rewrite <- !N.Div0.div_div.
  set (p := v / 4096). assert (p < 2 ^ 35) as Hp by (apply N.Div0.div_lt_upper_bound; done).
  clearbody p. divmod p 512 q1 r1. divmod q1 512 q2 r2. divmod q2 512 q3 r3.
  assert (q3 < 512) by lia. rewrite (N.mod_small q3) by done. lia.
Qed.

Lemma has_flag_bit e n : has_flag e (2 ^ n) = N.testbit e n.
Proof.
  unfold has_flag. destruct (N.testbit e n) eqn:Hb.
  - apply negb_true_iff, N.eqb_neq. intros H. apply (f_equal (fun x => N.testbit x n)) in H.
    rewrite N.land_spec, Hb, N.pow2_bits_true in H. done.
  - apply negb_false_iff, N.eqb_eq. apply N.bits_inj. intros i. rewrite N.land_spec, N.bits_0.
    destruct (decide (n = i)) as [<-|Hne]; [by rewrite Hb|]. by rewrite N.pow2_bits_false, andb_false_r.
Qed.

(** A page-aligned address below 2^52 survives the mask, with or without flags
    in the low bits. *)
Lemma PADDR_MASK_bit i : N.testbit PADDR_MASK i = (12 <=? i) && (i <? 52).
Proof.
  change PADDR_MASK with (N.shiftl (N.ones 40) 12). destruct (N.leb_spec 12 i).
  - rewrite N.shiftl_spec_high' by done. destruct (N.ltb_spec i 52).
    + by rewrite N.ones_spec_low by lia.
    + by rewrite N.ones_spec_high by lia.
  - by rewrite N.shiftl_spec_low.
Qed.

Lemma aligned_low_bits p i : page_aligned p -> i < 12 -> N.testbit p i = false.
Proof.
  unfold page_aligned. intros Hp Hi. change 4096 with (2 ^ 12) in Hp. rewrite <- N.land_ones in Hp.
  apply (f_equal (fun x => N.testbit x i)) in Hp. rewrite N.land_spec, N.ones_spec_low, N.bits_0 in Hp by done.
  by rewrite andb_true_r in Hp.
Qed.

Lemma small_high_bits p i : p < 2 ^ 52 -> 52 <= i -> N.testbit p i = false.
Proof.
  intros Hp Hi. destruct (decide (p = 0)) as [->|Hne]; [apply N.bits_0|].
  apply N.bits_above_log2. apply N.log2_lt_pow2 in Hp; lia.
Qed.

Lemma frame_of_flags p f : page_aligned p -> p < 2 ^ 52 -> f < 4096 -> frame_of (N.lor p f) = p.
Proof.
  intros Hp Hlt Hf. apply N.bits_inj. intros i. unfold frame_of.
  rewrite N.land_spec, N.lor_spec, PADDR_MASK_bit. destruct (N.leb_spec 12 i) as [H12|H12]; simpl.
  - assert (N.testbit f i = false) as ->.
    { destruct (decide (f = 0)) as [->|Hne]; [apply N.bits_0|]. apply N.bits_above_log2.
      change 4096 with (2 ^ 12) in Hf. apply N.log2_lt_pow2 in Hf; lia. }
    rewrite orb_false_r. destruct (N.ltb_spec i 52); [by rewrite andb_true_r|].
    rewrite andb_false_r. symmetry. by apply small_high_bits.
  - rewrite andb_false_r. symmetry. by apply aligned_low_bits.
Qed.

Lemma has_flag_lor p f n : page_aligned p -> n < 12 -> has_flag (N.lor p f) (2 ^ n) = N.testbit f n.
Proof. intros Hp Hn. rewrite has_flag_bit, N.lor_spec, aligned_low_bits by done. done. Qed.

(** ** The invariant of a user address space *)

(** The user half of the tree rooted at [root] consists of the table frames
    [F], each with its level; every table is reached through one entry only, and
    every entry to a table permits user access and writes. *)
Record pt_inv (m : Mem) (h root : N) (F : gmap N nat) : Prop := {
  pi_root : F !! root = Some 4%nat;
  pi_frame : forall t l, F !! t = Some l ->
    page_aligned t /\ t < 2 ^ 52 /\ t + h + 4096 <= u64_limit /\ (l <= 4)%nat;
  pi_child : forall t l i, F !! t = Some (S (S l)) -> i < 512 -> (t = root -> i < 256) ->
    has_flag (entry_at m h t i) 0x1 = true ->
    F !! frame_of (entry_at m h t i) = Some (S l) /\
    has_flag (entry_at m h t i) 0x2 = true /\ has_flag (entry_at m h t i) 0x4 = true;
  pi_inj : forall t l i t' l' i', F !! t = Some (S (S l)) -> F !! t' = Some (S (S l')) ->
    i < 512 -> i' < 512 -> (t = root -> i < 256) -> (t' = root -> i' < 256) ->
    has_flag (entry_at m h t i) 0x1 = true -> has_flag (entry_at m h t' i') 0x1 = true ->
    frame_of (entry_at m h t i) = frame_of (entry_at m h t' i') -> t = t' /\ i = i'
}.

(** The frames not yet handed out are in the direct map and are no tables. *)
Record frames_sep (h : N) (F : gmap N nat) (fa : FrameAllocator) : Prop := {
  fs_wf : frames_wf fa;
  fs_map : usable_end fa <= 2 ^ 52 /\ usable_end fa + h <= u64_limit;
  fs_sep : forall t, is_Some (F !! t) -> t + 4096 <= next_free_paddr fa \/ usable_end fa <= t
}.

(** Valid descents: one index per level, and only the user half at the root. *)
Definition good_path (root t : N) (path : list N) : Prop :=
  Forall (fun i => i < 512) path /\ (t = root -> forall i path', path = i :: path' -> i < 256).

Lemma indices_good root v : v < 2 ^ 47 -> good_path root root (indices v).
Proof.
  intros Hv. split.
  - repeat constructor; apply idx_bound.
  - intros _ i p Hi. injection Hi as <- _. by apply pml4_idx_user.
Qed.

Lemma pi_not_root m h root F t l : pt_inv m h root F -> F !! t = Some l -> (l < 4)%nat -> t <> root.
Proof. intros Hp Ht Hl ->. rewrite (pi_root _ _ _ _ Hp) in Ht. simplify_eq. lia. Qed.

(** ** Validation *)

Section validation.
Context `{L : Layout}.

Lemma check_level_run t i h w k :
  t + h < u64_limit ->
  check_level t i h w k =
    Ret (if entry_allows (entry_at (k_mem k) h t i) w then Ok (frame_of (entry_at (k_mem k) h t i))
         else Err tt, k).
Proof. intros Ht. unfold check_level, kbind, klift. by rewrite add64_ok. Qed.

Lemma entry_allows_spec e w :
  entry_allows e w = has_flag e 0x1 && has_flag e 0x4 && (negb w || has_flag e 0x2).
Proof. unfold entry_allows. by destruct (has_flag e 1), (has_flag e 4), w, (has_flag e 2). Qed.

(** The access check along a path, level by level. *)
Fixpoint path_allows (m : Mem) (h t : N) (path : list N) (w : bool) : bool :=
  match path with
  | [] => true
  | i :: path' =>
      let e := entry_at m h t i in
      entry_allows e w && path_allows m h (frame_of e) path' w
  end.

Lemma path_allows_walk m h t path w :
  path_allows m h t path w =
    match walk m h t path with
    | Some es => forallb (fun e => has_flag e 0x4) es && (negb w || forallb (fun e => has_flag e 0x2) es)
    | None => false
    end.
Proof.
  revert t. induction path as [|i path IH]; intros t; simpl; [by destruct w|].
  rewrite IH, entry_allows_spec. destruct (has_flag (entry_at m h t i) 1); simpl; [|done].
  destruct (walk m h _ path) as [es|]; simpl; [|by rewrite andb_false_r].
  destruct (has_flag _ 4), (has_flag _ 2), w, (forallb _ es); simpl; done.
Qed.

Lemma access_ok_path m h root v w : access_ok m h root v w = path_allows m h root (indices v) w.
Proof. unfold access_ok, translate. rewrite path_allows_walk. by destruct (walk m h root (indices v)). Qed.

Lemma check_page_run root v w k F :
  pt_inv (k_mem k) hhdm_offset root F -> v < 2 ^ 47 ->
  check_page root hhdm_offset v w k =
    Ret (if access_ok (k_mem k) hhdm_offset root v w then Ok tt else Err tt, k).
Proof.
  intros Hp Hv. rewrite access_ok_path. unfold check_page, kbind, indices. set (h := hhdm_offset) in *.
  assert (forall t l, F !! t = Some l -> t + h < u64_limit) as Hb.
  { intros t l Ht. apply (pi_frame _ _ _ _ Hp) in Ht. lia. }
  assert (forall t l i, F !! t = Some (S (S l)) -> i < 512 -> (t = root -> i < 256) ->
    entry_allows (entry_at (k_mem k) h t i) w = true ->
    F !! frame_of (entry_at (k_mem k) h t i) = Some (S l)) as Hc.
  { intros t l i Ht Hi Hr He. rewrite entry_allows_spec in He. apply andb_prop in He as [He _].
    apply andb_prop in He as [He _]. by eapply (pi_child _ _ _ _ Hp). }
  cbn [path_allows]. pose proof (pi_root _ _ _ _ Hp) as H4.
  rewrite check_level_run by eauto. cbn [obind]. set (e4 := entry_at _ h root _) in *.
  destruct (entry_allows e4 w) eqn:E4; [|done]. simpl andb.
  apply (Hc _ 2%nat) in E4; [|done|apply idx_bound|intros; by apply pml4_idx_user]. fold e4 in E4.
  rewrite check_level_run by eauto. cbn [obind]. set (e3 := entry_at _ h (frame_of e4) _) in *.
  destruct (entry_allows e3 w) eqn:E3; [|done]. simpl andb.
  apply (Hc _ 1%nat) in E3; [|done|apply idx_bound|intros ?; by destruct (pi_not_root _ _ _ _ _ _ Hp E4 ltac:(lia))]. fold e3 in E3.
  rewrite check_level_run by eauto. cbn [obind]. set (e2 := entry_at _ h (frame_of e3) _) in *.
  destruct (entry_allows e2 w) eqn:E2; [|done]. simpl andb.
  apply (Hc _ 0%nat) in E2; [|done|apply idx_bound|intros ?; by destruct (pi_not_root _ _ _ _ _ _ Hp E3 ltac:(lia))]. fold e2 in E2.
  rewrite check_level_run by eauto. cbn [obind]. rewrite andb_true_r.
  by destruct (entry_allows _ w).
Qed.

(** Addresses of one page translate alike. *)
Lemma idx_page_floor v n : 12 <= n -> N.land (N.shiftr (page_floor v) n) 0x1ff = N.land (N.shiftr v n) 0x1ff.
Proof.
  intros Hn. rewrite !idx_mod, page_floor_eq. f_equal.
  replace (2 ^ n) with (4096 * 2 ^ (n - 12)).
  - rewrite <- !N.Div0.div_div, N.div_mul by done. done.
  - change 4096 with (2 ^ 12). rewrite <- N.pow_add_r. f_equal. lia.
Qed.

Lemma indices_page_floor v : indices (page_floor v) = indices v.
Proof. unfold indices, pml4_idx, pdpt_idx, pd_idx, pt_idx. by rewrite !idx_page_floor. Qed.

Lemma access_ok_page_floor m h root v w : access_ok m h root (page_floor v) w = access_ok m h root v w.
Proof. unfold access_ok, translate. by rewrite indices_page_floor. Qed.

Lemma forallb_range_ext (f g : N -> bool) a n :
  (forall j, f j = g j) -> forallb f (rangeN a n) = forallb g (rangeN a n).
Proof. intros H. induction (rangeN a n) as [|x l IH]; simpl; [done|]. by rewrite H, IH. Qed.

Lemma forallb_range_shift (f : N -> bool) a n :
  forallb f (rangeN (a + 1) n) = forallb (fun j => f (j + 1)) (rangeN a n).
Proof. revert a. induction n as [|n IH]; intros a; [done|]. rewrite !rangeN_S. simpl. by rewrite IH. Qed.

Lemma check_pages_run n root w k F v :
  pt_inv (k_mem k) hhdm_offset root F -> v + 4096 * N.of_nat n < 2 ^ 47 ->
  check_pages (S n) root hhdm_offset v (v + 4096 * N.of_nat n) w k =
    Ret (if forallb (fun j => access_ok (k_mem k) hhdm_offset root (v + 4096 * j) w) (rangeN 0 (S n))
         then Ok tt else Err tt, k).
Proof.
  intros Hp. assert (2 ^ 47 < u64_limit) by done. revert v. induction n as [|n IH]; intros v Hv.
  - cbn [check_pages]. unfold kbind. erewrite check_page_run by (done || lia). cbn [obind].
    change (rangeN 0 1) with [0]. simpl forallb. rewrite !N.mul_0_r, !N.add_0_r, andb_true_r.
    destruct (access_ok _ _ _ v w); [|done]. by rewrite N.eqb_refl.
  - set (e := v + 4096 * N.of_nat (S n)) in *. rewrite rangeN_S.
    change (check_pages (S (S n)) root hhdm_offset v e w k) with
      (kbind (check_page root hhdm_offset v w) (fun r => match r with
        | Err x => kret (Err x)
        | Ok _ => if v =? e then kret (Ok tt) else
            let* next := klift (add64 v 4096) in check_pages (S n) root hhdm_offset next e w end) k).
    unfold kbind at 1. erewrite check_page_run by (done || lia). cbn [obind].
    change (forallb ?f (?x :: ?l)) with (f x && forallb f l). cbv beta.
    rewrite N.mul_0_r, N.add_0_r. destruct (access_ok _ _ _ v w); [|done]. rewrite andb_true_l.
    rewrite (proj2 (N.eqb_neq _ _)) by (unfold e; lia).
    unfold kbind, klift. rewrite add64_ok by lia. cbn [obind].
    replace e with (v + 4096 + 4096 * N.of_nat n) by (unfold e; lia). rewrite IH by (unfold e in *; lia).
    rewrite forallb_range_shift. do 2 f_equal.
    apply (f_equal (fun b : bool => if b then Ok tt else Err tt)).
    apply forallb_range_ext. intros j. f_equal. lia.
Qed.

(** The pages of a range, as addresses. *)
Lemma range_pages m h root w ptr len n :
  0 < len -> page_floor (ptr + len - 1) = page_floor ptr + 4096 * N.of_nat n ->
  forallb (fun j => access_ok m h root (page_floor ptr + 4096 * j) w) (rangeN 0 (S n)) = true <->
  forall a, ptr <= a < ptr + len -> access_ok m h root a w = true.
Proof.
  intros Hlen He. rewrite forallb_forall. pose proof (page_floor_le ptr) as Hf.
  pose proof (page_floor_le (ptr + len - 1)) as Hl. split.
  - intros H a Ha. rewrite <- access_ok_page_floor.
    assert (page_floor a = page_floor ptr + 4096 * (a / 4096 - ptr / 4096)) as ->.
    { rewrite !page_floor_eq. assert (ptr / 4096 <= a / 4096) by (apply N.Div0.div_le_mono; lia). lia. }
    apply H, list_elem_of_In, elem_of_rangeN. rewrite page_floor_eq in *.
    assert (a / 4096 <= (ptr + len - 1) / 4096) by (apply N.Div0.div_le_mono; lia).
    rewrite page_floor_eq in He. lia.
  - intros H j Hj. apply list_elem_of_In, elem_of_rangeN in Hj.
    assert (page_aligned (page_floor ptr + 4096 * j)) as Hal.
    { pose proof (page_floor_aligned ptr) as Ha. unfold page_aligned in *. rewrite (N.mul_comm 4096).
      by rewrite N.Div0.mod_add. }
    destruct (decide (j = 0)) as [->|Hj0].
    + rewrite N.mul_0_r, N.add_0_r, access_ok_page_floor. apply H. lia.
    + apply H. lia.
Qed.

Lemma validate_user_range_spec k ptr len w F :
  pt_inv (k_mem k) hhdm_offset (current_pml4_paddr (k_cpu k)) F -> ptr < u64_limit -> len < u64_limit ->
  exists b : bool, validate_user_range ptr len w k = Ret (if b then Ok tt else Err tt, k) /\
    (b = true <-> len = 0 \/ ptr + len <= 2 ^ 47 /\
       forall a, ptr <= a < ptr + len ->
         access_ok (k_mem k) hhdm_offset (current_pml4_paddr (k_cpu k)) a w = true).
Proof.
  intros Hp Hptr Hlen. unfold validate_user_range. destruct (N.eqb_spec len 0) as [->|Hne].
  { exists true. split; [done|]. naive_solver. }
  assert (USER_SPACE_UPPER_BOUND + 1 = 2 ^ 47) as HU by done. assert (2 ^ 47 < u64_limit) by done.
  unfold checked_add. destruct (N.ltb_spec (ptr + len) u64_limit) as [Hov|Hov].
  2: { exists false. split; [done|]. split; [done|]. intros [?|[? _]]; [done|lia]. }
  rewrite HU. destruct (N.ltb_spec (2 ^ 47) (ptr + len)) as [Hub|Hub].
  { exists false. split; [done|]. split; [done|]. intros [?|[? _]]; [done|lia]. }
  unfold kbind, kget, klift. rewrite sub64_ok by lia. cbn [obind].
  set (root := current_pml4_paddr (k_cpu k)) in *.
  assert (page_floor ptr <= page_floor (ptr + len - 1)) as Hle.
  { rewrite !page_floor_eq. apply N.mul_le_mono_r, N.Div0.div_le_mono. lia. }
  assert (page_floor (ptr + len - 1) = page_floor ptr +
    4096 * N.of_nat (N.to_nat ((page_floor (ptr + len - 1) - page_floor ptr) / 4096))) as He.
  { rewrite N2Nat.id. rewrite !page_floor_eq in *.
    replace ((ptr + len - 1) / 4096 * 4096 - ptr / 4096 * 4096)
      with (((ptr + len - 1) / 4096 - ptr / 4096) * 4096) by lia.
    rewrite N.div_mul by done. lia. }
  set (n := N.to_nat ((page_floor (ptr + len - 1) - page_floor ptr) / 4096)) in *.
  replace (N.to_nat ((page_floor (ptr + len - 1) - page_floor ptr) / 4096 + 1)) with (S n) by lia.
  pose proof (page_floor_le (ptr + len - 1)). clearbody n. rewrite He. erewrite check_pages_run by (done || lia).
  eexists. split; [done|]. rewrite (range_pages _ _ _ _ ptr len n) by (done || lia). split; [by right|].
  intros [?|[_ ?]]; done.
Qed.

(** C11: Range validation is exact.  Under the paging invariant of the active
    address space, [validate_user_range] returns [Ok] precisely when the range
    is empty, or lies below the end of the user half without overflow and the
    processor's walk allows a user access (for writing, if asked) to every
    byte of it.  It never fails otherwise and changes nothing. *)
Theorem validate_user_range_exact k ptr len w F :
  pt_inv (k_mem k) hhdm_offset (current_pml4_paddr (k_cpu k)) F -> ptr < u64_limit -> len < u64_limit ->
  exists b : bool, validate_user_range ptr len w k = Ret (if b then Ok tt else Err tt, k) /\
    (b = true <-> len = 0 \/ ptr + len <= 2 ^ 47 /\
       forall a, ptr <= a < ptr + len ->
         access_ok (k_mem k) hhdm_offset (current_pml4_paddr (k_cpu k)) a w = true).
Proof. apply validate_user_range_spec. Qed.
End validation.

(** ** Entries under writes *)

Lemma entry_addr_inj h t i t' i' :
  page_aligned t -> page_aligned t' -> i < 512 -> i' < 512 ->
  t + h + 8 * i = t' + h + 8 * i' -> t = t' /\ i = i'.
Proof. unfold page_aligned. intros Ht Ht' Hi Hi' He. divmod t 4096 q r. divmod t' 4096 q' r'. lia. Qed.

Lemma entry_at_wr m h t i t' i' v :
  page_aligned t -> page_aligned t' -> i < 512 -> i' < 512 ->
  entry_at (mem_wr m (t + h + 8 * i) v) h t' i' =
    if decide (t = t' /\ i = i') then v else entry_at m h t' i'.
Proof.
  intros Ht Ht' Hi Hi'. unfold entry_at. destruct (decide (t = t' /\ i = i')) as [[-> ->]|Hne].
  - apply mem_rd_wr_eq.
  - apply mem_rd_wr_ne. intros He. by apply Hne, (entry_addr_inj h).
Qed.

Lemma zero_words_in n a m j : j < N.of_nat n -> mem_rd (zero_words n a m) (a + 8 * j) = 0.
Proof.
  induction n as [|n IH]; intros Hj; [lia|]. simpl. destruct (decide (j = N.of_nat n)) as [->|Hne].
  - apply mem_rd_wr_eq.
  - rewrite mem_rd_wr_ne by lia. apply IH. lia.
Qed.

Lemma zero_words_out n a m b : (forall j, j < N.of_nat n -> b <> a + 8 * j) -> mem_rd (zero_words n a m) b = mem_rd m b.
Proof.
  induction n as [|n IH]; intros Hb; [done|]. simpl. rewrite mem_rd_wr_ne.
  - apply IH. intros j Hj. apply Hb. lia.
  - intros He. by apply (Hb (N.of_nat n)); [lia|].
Qed.

Lemma entry_at_zero m h f t i :
  page_aligned f -> page_aligned t -> i < 512 ->
  entry_at (zero_words 512 (f + h) m) h t i = if decide (f = t) then 0 else entry_at m h t i.
Proof.
  intros Hf Ht Hi. unfold entry_at. destruct (decide (f = t)) as [->|Hne].
  - apply zero_words_in. lia.
  - apply zero_words_out. intros j Hj He. change (N.of_nat 512) with 512 in Hj. apply Hne.
    symmetry. by apply (entry_addr_inj h t i f j).
Qed.

Lemma lor_flag e n : has_flag e (2 ^ n) = true -> N.lor e (2 ^ n) = e.
Proof.
  rewrite has_flag_bit. intros Hb. apply N.bits_inj. intros i. rewrite N.lor_spec.
  destruct (decide (n = i)) as [<-|Hne]; [by rewrite Hb|]. by rewrite N.pow2_bits_false, orb_false_r.
Qed.

(** ** Reaching tables *)

(** The table at the end of a path. *)
Fixpoint reach (m : Mem) (h t : N) (path : list N) : option N :=
  match path with
  | [] => Some t
  | i :: path' =>
      let e := entry_at m h t i in
      if has_flag e 0x1 then reach m h (frame_of e) path' else None
  end.

Lemma walk_snoc m h t path i :
  walk m h t (path ++ [i]) =
    match walk m h t path, reach m h t path with
    | Some es, Some t' => let e := entry_at m h t' i in if has_flag e 0x1 then Some (es ++ [e]) else None
    | _, _ => None
    end.
Proof.
  revert t. induction path as [|j path IH]; intros t; simpl; [done|].
  destruct (has_flag (entry_at m h t j) 1); [|done]. rewrite IH.
  destruct (walk m h _ path) as [es|]; [|done]. destruct (reach m h _ path) as [t'|]; [|done].
  cbv zeta. by destruct (has_flag (entry_at m h t' i) 1).
Qed.

Lemma walk_reach m h t path : is_Some (walk m h t path) <-> is_Some (reach m h t path).
Proof.
  revert t. induction path as [|j path IH]; intros t; simpl; [split; eauto|].
  destruct (has_flag (entry_at m h t j) 1).
  - rewrite <- IH. destruct (walk m h _ path); split; intros [? ?]; eauto; done.
  - split; intros [? ?]; done.
Qed.

Section tree.
Context (m : Mem) (h root : N) (F : gmap N nat) (Hinv : pt_inv m h root F).

Lemma good_path_tail t i path l :
  F !! t = Some (S (S l)) -> good_path root t (i :: path) -> has_flag (entry_at m h t i) 0x1 = true ->
  i < 512 /\ (t = root -> i < 256) /\
  F !! frame_of (entry_at m h t i) = Some (S l) /\ good_path root (frame_of (entry_at m h t i)) path.
Proof.
  intros Ht [Hall Hroot] He. apply Forall_cons in Hall as [Hi Hall].
  assert (t = root -> i < 256) as Hr by (intros ->; by eapply Hroot).
  destruct (pi_child _ _ _ _ Hinv t l i Ht Hi Hr He) as [Hc _].
  split; [done|]. split; [done|]. split; [done|]. split; [done|].
  intros Heq. pose proof (pi_frame _ _ _ _ Hinv t _ Ht) as (_ & _ & _ & Hl).
  by destruct (pi_not_root _ _ _ _ _ _ Hinv Hc ltac:(lia)).
Qed.

(** A table is reached by one path only. *)
Lemma reach_inj path t path' t' c :
  length path = length path' -> F !! t = Some (S (length path)) -> F !! t' = Some (S (length path')) ->
  good_path root t path -> good_path root t' path' ->
  reach m h t path = Some c -> reach m h t' path' = Some c -> t = t' /\ path = path'.
Proof.
  revert t path' t'. induction path as [|i path IH]; intros t path' t' Hlen Ht Ht' Hg Hg' Hr Hr'.
  { destruct path'; [|done]. simpl in *. by simplify_eq. }
  destruct path' as [|i' path']; [done|]. simpl in Hr, Hr', Hlen.
  destruct (has_flag (entry_at m h t i) 1) eqn:He; [|done].
  destruct (has_flag (entry_at m h t' i') 1) eqn:He'; [|done].
  destruct (good_path_tail t i path _ Ht Hg He) as (Hi & Hri & Hc & Hgc).
  destruct (good_path_tail t' i' path' _ Ht' Hg' He') as (Hi' & Hri' & Hc' & Hgc').
  destruct (IH _ path' _ ltac:(lia) Hc Hc' Hgc Hgc' Hr Hr') as [Hfr ->].
  destruct (pi_inj _ _ _ _ Hinv t _ i t' _ i' Ht Ht' Hi Hi' Hri Hri' He He' Hfr) as [-> ->]. done.
Qed.

(** Tables reached keep their levels, and every entry on the way permits user
    access and writes. *)
Lemma reach_level path t l c :
  F !! t = Some (S l + length path)%nat -> good_path root t path -> reach m h t path = Some c ->
  F !! c = Some (S l) /\
  exists es, walk m h t path = Some es /\ Forall (fun e => has_flag e 0x2 = true /\ has_flag e 0x4 = true) es.
Proof.
  revert t. induction path as [|i path IH]; intros t Ht Hg Hr.
  { simpl in *. simplify_eq. rewrite Nat.add_0_r in Ht. split; [done|]. by exists []. }
  simpl in Hr. destruct (has_flag (entry_at m h t i) 1) eqn:He; [|done].
  replace (S l + length (i :: path))%nat with (S (S (l + length path))) in Ht by (simpl; lia).
  destruct (good_path_tail t i path _ Ht Hg He) as (Hi & Hri & Hc & Hgc).
  destruct (pi_child _ _ _ _ Hinv t _ i Ht Hi Hri He) as (_ & H2 & H4).
  destruct (IH _ Hc Hgc Hr) as (Hl & es & Hw & Hes). split; [done|]. simpl. rewrite He, Hw. eauto.
Qed.
End tree.

(** ** Extending a tree *)

(** The tree after a table [f] was linked at entry [i] of table [t]. *)
Definition linked (m : Mem) (h t i f : N) : Mem :=
  mem_wr (zero_words 512 (f + h) m) (t + h + 8 * i) (N.lor f 0x7).

Section link.
Context (m : Mem) (h root : N) (F : gmap N nat) (Hinv : pt_inv m h root F).
Context (t i f : N) (l : nat) (Ht : F !! t = Some (S (S l))) (Hi : i < 512) (Hroot : t = root -> i < 256).
Context (Hfree : has_flag (entry_at m h t i) 0x1 = false).
Context (Hf : F !! f = None) (Hfa : page_aligned f) (Hf52 : f < 2 ^ 52) (Hfh : f + h + 4096 <= u64_limit).

Lemma linked_entry t' i' :
  page_aligned t' -> i' < 512 ->
  entry_at (linked m h t i f) h t' i' =
    if decide (t = t' /\ i = i') then N.lor f 0x7
    else if decide (f = t') then 0 else entry_at m h t' i'.
Proof.
  intros Ht' Hi'. unfold linked. pose proof (pi_frame _ _ _ _ Hinv t _ Ht) as (Hta & _).
  rewrite entry_at_wr by done. by rewrite entry_at_zero.
Qed.

#[local] Opaque linked.

Lemma linked_old t' l' i' :
  F !! t' = Some l' -> i' < 512 ->
  entry_at (linked m h t i f) h t' i' =
    if decide (t = t' /\ i = i') then N.lor f 0x7 else entry_at m h t' i'.
Proof.
  intros Ht' Hi'. pose proof (pi_frame _ _ _ _ Hinv t' _ Ht') as (Hta & _). rewrite linked_entry by done.
  by rewrite (decide_False (P := f = t')) by congruence.
Qed.

Lemma linked_new i' : i' < 512 -> entry_at (linked m h t i f) h f i' = 0.
Proof.
  intros Hi'. rewrite linked_entry by done. rewrite decide_False by (intros [-> _]; congruence).
  by rewrite decide_True.
Qed.

Lemma linked_flags :
  frame_of (N.lor f 0x7) = f /\ has_flag (N.lor f 0x7) 0x1 = true /\
  has_flag (N.lor f 0x7) 0x2 = true /\ has_flag (N.lor f 0x7) 0x4 = true.
Proof.
  split; [by apply frame_of_flags|]. change 0x1 with (2 ^ 0). change 0x2 with (2 ^ 1). change 0x4 with (2 ^ 2).
  by rewrite !has_flag_lor.
Qed.

(** Present entries of the new tree: the link, or an old one. *)
Lemma linked_present t' l' i' :
  <[f := S l]> F !! t' = Some (S (S l')) -> i' < 512 ->
  has_flag (entry_at (linked m h t i f) h t' i') 0x1 = true ->
  F !! t' = Some (S (S l')) /\
  ((t' = t /\ i' = i /\ l' = l /\ entry_at (linked m h t i f) h t' i' = N.lor f 0x7) \/
   (~ (t' = t /\ i' = i) /\ entry_at (linked m h t i f) h t' i' = entry_at m h t' i')).
Proof.
  intros Ht' Hi' He. destruct (decide (f = t')) as [<-|Hne].
  { rewrite linked_new in He by done. done. }
  rewrite lookup_insert_ne in Ht' by done. split; [done|]. erewrite linked_old in * by done.
  destruct (decide (t = t' /\ i = i')) as [[-> ->]|Hn]; [left|right; naive_solver].
  rewrite Ht in Ht'. by simplify_eq.
Qed.

Lemma linked_inv : pt_inv (linked m h t i f) h root (<[f := S l]> F).
Proof.
  destruct linked_flags as (Hff & _ & Hf2 & Hf4). split.
  - rewrite lookup_insert_ne; [apply Hinv|]. intros ->. by rewrite (pi_root _ _ _ _ Hinv) in Hf.
  - intros t' l' Ht'. destruct (decide (f = t')) as [<-|Hne].
    + rewrite lookup_insert_eq in Ht'. simplify_eq.
      pose proof (pi_frame _ _ _ _ Hinv t _ Ht) as (_ & _ & _ & Hl). split_and!; [done..|lia].
    + rewrite lookup_insert_ne in Ht' by done. by apply (pi_frame _ _ _ _ Hinv).
  - intros t' l' i' Ht' Hi' Hr' He.
    destruct (linked_present t' l' i' Ht' Hi' He) as [Ht0 [(-> & -> & -> & ->)|(Hn & Heq)]].
    + rewrite Hff, lookup_insert_eq. done.
    + rewrite Heq in *. destruct (pi_child _ _ _ _ Hinv t' l' i' Ht0 Hi' Hr' He) as (Hc & ?).
      rewrite lookup_insert_ne; [done|]. intros Hx. rewrite <- Hx in Hc. congruence.
  - intros t1 l1 i1 t2 l2 i2 H1 H2 Hi1 Hi2 Hr1 Hr2 He1 He2 Hfr.
    destruct (linked_present t1 l1 i1 H1 Hi1 He1) as [Ht1 [(-> & -> & -> & Hx1)|(Hn1 & Hx1)]];
    destruct (linked_present t2 l2 i2 H2 Hi2 He2) as [Ht2 [(-> & -> & -> & Hx2)|(Hn2 & Hx2)]];
    [done|rewrite Hx1 in He1, Hfr; rewrite Hx2 in He2, Hfr..].
    + destruct (pi_child _ _ _ _ Hinv t2 l2 i2 Ht2 Hi2 Hr2 He2) as (Hc & _). rewrite <- Hfr, Hff in Hc. congruence.
    + destruct (pi_child _ _ _ _ Hinv t1 l1 i1 Ht1 Hi1 Hr1 He1) as (Hc & _). rewrite Hfr, Hff in Hc. congruence.
    + by eapply (pi_inj _ _ _ _ Hinv).
Qed.

(** No walk changes: the new table is empty. *)
Lemma linked_walk path t' :
  F !! t' = Some (length path) -> good_path root t' path ->
  walk (linked m h t i f) h t' path = walk m h t' path.
Proof.
  revert t'. induction path as [|i' path IH]; intros t' Ht' Hg; [done|].
  pose proof Hg as [Hall _]. apply Forall_cons in Hall as [Hi' Hall]. cbn [walk].
  rewrite (linked_old t' _ i' Ht' Hi'). destruct (decide (t = t' /\ i = i')) as [[<- <-]|Hn].
  - destruct linked_flags as (Hff & Hf1 & _). rewrite Hf1, Hfree, Hff. rewrite Ht in Ht'. simplify_eq.
    destruct path as [|i2 path]; [done|]. apply Forall_cons in Hall as [Hi2 _]. cbn [walk]. by rewrite linked_new.
  - destruct (has_flag (entry_at m h t' i') 1) eqn:He; [|done]. destruct path as [|i2 path]; [done|].
    destruct (good_path_tail m h root F Hinv t' i' (i2 :: path) _ Ht' Hg He) as (_ & _ & Hc & Hgc).
    by rewrite IH.
Qed.
End link.

(** ** Get-or-create *)

(** Paging operations change the memory and the frame allocator only. *)
Definition set_page_state (m : Mem) (fa : FrameAllocator) (k : Kernel) : Kernel :=
  set_k_frames fa (set_k_machine (set_mc_mem m (k_machine k)) k).

Lemma set_page_state_id k : set_page_state (k_mem k) (k_frames k) k = k.
Proof. by destruct k as [? ? ? ? ? ? ? ? [] ? ? ? ?]. Qed.

(** An address space and the frames left. *)
Definition space_ok (h root : N) (F : gmap N nat) (m : Mem) (fa : FrameAllocator) : Prop :=
  pt_inv m h root F /\ frames_sep h F fa.

(** The frame [t] is not one of the free frames of [fa]. *)
Definition not_free (fa : FrameAllocator) (t : N) : Prop :=
  t + 4096 <= next_free_paddr fa \/ usable_end fa <= t.

(** [m'] extends the tree of [m]: tables and present entries are kept, every
    user address translates as before, new tables come from the free frames,
    and no other frame is written. *)
Record extends (h root : N) (F F' : gmap N nat) (m m' : Mem) (fa fa' : FrameAllocator) : Prop := {
  ex_sub : F ⊆ F';
  ex_entry : forall t l i, F !! t = Some l -> i < 512 -> has_flag (entry_at m h t i) 0x1 = true ->
    entry_at m' h t i = entry_at m h t i;
  ex_walk : forall v, v < 2 ^ 47 -> walk m' h root (indices v) = walk m h root (indices v);
  ex_new : forall t, F !! t = None -> not_free fa t -> F' !! t = None;
  ex_free : forall t, not_free fa t -> not_free fa' t;
  ex_end : usable_end fa' = usable_end fa;
  ex_other : forall t i, page_aligned t -> i < 512 -> F !! t = None -> not_free fa t ->
    entry_at m' h t i = entry_at m h t i
}.

Lemma extends_trans h root F1 F2 F3 m1 m2 m3 fa1 fa2 fa3 :
  extends h root F1 F2 m1 m2 fa1 fa2 -> extends h root F2 F3 m2 m3 fa2 fa3 ->
  extends h root F1 F3 m1 m3 fa1 fa3.
Proof.
  intros [Hs1 He1 Hw1 Hn1 Hf1 Hu1 Ho1] [Hs2 He2 Hw2 Hn2 Hf2 Hu2 Ho2]. split.
  - by trans F2.
  - intros t l i Ht Hi Hp. pose proof (He1 t l i Ht Hi Hp) as Heq.
    rewrite (He2 t l i); [done|by eapply lookup_weaken|done|by rewrite Heq].
  - intros v Hv. by rewrite Hw2, Hw1.
  - intros t Ht Hnf. auto.
  - auto.
  - congruence.
  - intros t i Ha Hi Ht Hnf. rewrite Ho2 by auto. auto.
Qed.

(** Memories with the same words are the same tree. *)
Lemma walk_ext m m' h t path : (forall a, mem_rd m' a = mem_rd m a) -> walk m' h t path = walk m h t path.
Proof.
  intros Hm. revert t. induction path as [|i path IH]; intros t; [done|]. cbn [walk]. unfold entry_at.
  rewrite Hm. by destruct (has_flag _ 1); rewrite ?IH.
Qed.

Lemma pt_inv_ext m m' h root F : (forall a, mem_rd m' a = mem_rd m a) -> pt_inv m h root F -> pt_inv m' h root F.
Proof.
  intros Hm [Hr Hf Hc Hi]. split; [done|done|..]; unfold entry_at in *.
  - intros t l i. rewrite !Hm. apply Hc.
  - intros t l i t' l' i'. rewrite !Hm. apply Hi.
Qed.

Lemma extends_ext h root F m m' fa : (forall a, mem_rd m' a = mem_rd m a) -> extends h root F F m m' fa fa.
Proof.
  intros Hm. split; [done|..|done|done|done|].
  - intros t l i _ _ _. apply Hm.
  - intros v _. by apply walk_ext.
  - intros t i _ _ _ _. apply Hm.
Qed.

Lemma mem_wr_same m a v b : mem_rd m a = v -> mem_rd (mem_wr m a v) b = mem_rd m b.
Proof. intros <-. destruct (decide (a = b)) as [->|]; [apply mem_rd_wr_eq|by apply mem_rd_wr_ne]. Qed.

Lemma get_or_create_user_spec k h root F t l i :
  space_ok h root F (k_mem k) (k_frames k) ->
  F !! t = Some (S (S l)) -> i < 512 -> (t = root -> i < 256) ->
  wp (get_or_create_table_user (t + h) i h) (fun r k' =>
    match r with
    | Ok c => exists F' m' fa', k' = set_page_state m' fa' k /\ space_ok h root F' m' fa' /\
        extends h root F F' (k_mem k) m' (k_frames k) fa' /\ F' !! c = Some (S l) /\
        has_flag (entry_at m' h t i) 0x1 = true /\ frame_of (entry_at m' h t i) = c
    | Err _ => k' = k /\ usable_end (k_frames k) <= next_free_paddr (k_frames k)
    end) k.
Proof.
  intros [Hinv [Hfw [Hmap1 Hmap2] Hsep]] Ht Hi Hroot. unfold get_or_create_table_user.
  apply wp_kbind, wp_kget. fold (entry_at (k_mem k) h t i).
  destruct (has_flag (entry_at (k_mem k) h t i) 0x1) eqn:He; cbn [negb].
  - apply wp_kbind, wp_kmod, wp_kret.
    destruct (pi_child _ _ _ _ Hinv t l i Ht Hi Hroot He) as (Hc & _ & H4).
    assert (N.lor (entry_at (k_mem k) h t i) 0x4 = entry_at (k_mem k) h t i) as -> by (by apply (lor_flag _ 2)).
    set (m' := mem_wr (k_mem k) (t + h + 8 * i) (entry_at (k_mem k) h t i)).
    assert (forall a, mem_rd m' a = mem_rd (k_mem k) a) as Hm by (intros a; by apply mem_wr_same).
    exists F, m', (k_frames k). split; [by destruct k|]. split; [split; [by eapply pt_inv_ext|done]|].
    split; [by apply extends_ext|]. split; [done|]. unfold entry_at in *. by rewrite Hm.
  - apply wp_kbind. unfold wp at 1, kallocate_frame. rewrite allocate_frame_spec by done.
    set (f := next_free_paddr (k_frames k)). destruct (N.ltb_spec f (usable_end (k_frames k))) as [Hlt|Hge].
    2: { cbn [obind]. apply wp_kret. split; [by destruct k|done]. }
    cbn [obind]. pose proof (aligned_next_le _ _ (fw_next _ Hfw) (fw_end _ Hfw) Hlt) as Hnext. fold f in Hnext.
    assert (F !! f = None) as Hf.
    { destruct (F !! f) eqn:Hff; [|done]. destruct (Hsep f ltac:(eauto)); unfold f in *; lia. }
    apply wp_kbind. eapply wp_klift; [apply add64_ok; lia|]. apply wp_kbind, wp_kmod, wp_kbind, wp_kmod, wp_kret.
    assert (page_aligned f) as Hfa by apply Hfw.
    pose proof (linked_inv _ _ _ _ Hinv t i f l Ht Hi Hroot He Hf Hfa ltac:(lia) ltac:(lia)) as Hinv'.
    exists (<[f := S l]> F), (linked (k_mem k) h t i f), (mkFrameAllocator (f + 4096) (usable_end (k_frames k))).
    split; [by destruct k as [? ? ? ? ? ? ? ? [] ? ? ? ?]|]. split; [split; [done|]|].
    { split; cbn [next_free_paddr usable_end]; [|done|].
      - destruct Hfw. split; cbn [next_free_paddr usable_end]; [by apply page_aligned_add|done..].
      - intros t' [l' Ht']. destruct (decide (f = t')) as [<-|Hne]; [lia|].
        rewrite lookup_insert_ne in Ht' by done. destruct (Hsep t' ltac:(eauto)); [|lia]. fold f in H. lia. }
    pose proof (linked_flags f Hfa ltac:(lia)) as (Hff & Hf1 & _).
    assert (entry_at (linked (k_mem k) h t i f) h t i = N.lor f 0x7) as Hei.
    { erewrite linked_old by done. by rewrite decide_True. }
    split; [split|].
    + by apply insert_subseteq.
    + intros t' l' i' Ht' Hi' Hp'. erewrite linked_old by done. rewrite decide_False; [done|]. intros [<- <-]. congruence.
    + intros v Hv. eapply linked_walk; try done; [lia|apply Hinv|by apply indices_good].
    + intros t' Ht' Hnf. rewrite lookup_insert_ne; [done|]. intros <-. unfold not_free in Hnf. fold f in Hnf. lia.
    + intros t' Hnf. unfold not_free in *. cbn [next_free_paddr usable_end]. fold f in Hnf. lia.
    + done.
    + intros t' i' Ha' Hi' Ht' Hnf. erewrite linked_entry by done.
      rewrite decide_False by (intros [<- _]; congruence).
      rewrite decide_False; [done|]. intros <-. unfold not_free in Hnf. fold f in Hnf. lia.
    + rewrite Hei, Hf1, Hff, lookup_insert_eq. done.
Qed.

(** ** Writing a leaf *)

Lemma frame_of_shift p : frame_of p = p / 4096 mod 2 ^ 40 * 4096.
Proof.
  change 4096 with (2 ^ 12). rewrite <- N.shiftr_div_pow2, <- N.land_ones, <- N.shiftl_mul_pow2.
  apply N.bits_inj. intros i. unfold frame_of. rewrite N.land_spec, PADDR_MASK_bit.
  destruct (N.leb_spec 12 i).
  - rewrite N.shiftl_spec_high' by done. rewrite N.land_spec, N.shiftr_spec' by lia.
    replace (i - 12 + 12) with i by lia. f_equal. destruct (N.ltb_spec i 52).
    + by rewrite N.ones_spec_low by lia.
    + by rewrite N.ones_spec_high by lia.
  - rewrite N.shiftl_spec_low by done. apply andb_false_r.
Qed.

Lemma frame_of_ok p : page_aligned (frame_of p) /\ frame_of p < 2 ^ 52.
Proof.
  rewrite frame_of_shift. split; [unfold page_aligned; apply N.Div0.mod_mul|].
  pose proof (N.mod_lt (p / 4096) (2 ^ 40) ltac:(done)). change (2 ^ 52) with (2 ^ 40 * 4096). lia.
Qed.

Definition upper (v : N) : list N := [pml4_idx v; pdpt_idx v; pd_idx v].

Lemma indices_upper v : indices v = upper v ++ [pt_idx v].
Proof. done. Qed.

Lemma upper_good root v : v < 2 ^ 47 -> good_path root root (upper v).
Proof.
  intros Hv. split; [repeat constructor; apply idx_bound|]. intros _ i p Hi. injection Hi as <- _.
  by apply pml4_idx_user.
Qed.

Section leaf.
Context (m : Mem) (h root : N) (F : gmap N nat) (Hinv : pt_inv m h root F).
Context (c i e : N) (Hc : F !! c = Some 1%nat) (Hi : i < 512).

Let m' : Mem := mem_wr m (c + h + 8 * i) e.

Lemma leaf_entry t l i' :
  F !! t = Some l -> i' < 512 ->
  entry_at m' h t i' = if decide (c = t /\ i = i') then e else entry_at m h t i'.
Proof.
  intros Ht Hi'. apply entry_at_wr; [|by eapply (pi_frame _ _ _ _ Hinv)|done..]. by eapply (pi_frame _ _ _ _ Hinv).
Qed.

Lemma leaf_upper_entry t l i' : F !! t = Some (S (S l)) -> i' < 512 -> entry_at m' h t i' = entry_at m h t i'.
Proof. intros Ht Hi'. erewrite leaf_entry by done. rewrite decide_False; [done|]. intros [<- _]. congruence. Qed.

Lemma leaf_inv : pt_inv m' h root F.
Proof.
  destruct Hinv as [Hr Hf Hch Hinj]. split; [done|done|..].
  - intros t l i' Ht Hi' Hr' He. erewrite leaf_upper_entry in * by done. by apply Hch.
  - intros t l i1 t2 l2 i2 Ht Ht2 Hi1 Hi2 Hr1 Hr2 He1 He2 Hfr.
    erewrite leaf_upper_entry in He1, Hfr by done. erewrite leaf_upper_entry in He2 by done.
    erewrite (leaf_upper_entry t2) in Hfr by done. by eapply Hinj.
Qed.

Lemma leaf_upper path t :
  F !! t = Some (S (length path)) -> good_path root t path ->
  walk m' h t path = walk m h t path /\ reach m' h t path = reach m h t path.
Proof.
  revert t. induction path as [|i' path IH]; intros t Ht Hg; [done|].
  pose proof Hg as [Hall _]. apply Forall_cons in Hall as [Hi' _]. cbn [walk reach length] in *.
  erewrite leaf_upper_entry by done. destruct (has_flag (entry_at m h t i') 1) eqn:He; [|done].
  destruct (good_path_tail m h root F Hinv t i' path _ Ht Hg He) as (_ & _ & Hct & Hgc).
  destruct (IH _ Hct Hgc) as [-> ->]. done.
Qed.

(** The leaf of [v] is overwritten; every other page keeps its translation. *)
Lemma leaf_translate v p w :
  v < 2 ^ 47 -> reach m h root (upper v) = Some c -> i = pt_idx v ->
  has_flag e 0x1 = true -> has_flag e 0x4 = true -> has_flag e 0x2 = w -> frame_of e = p ->
  forall v', v' < 2 ^ 47 ->
    translate m' h root v' =
      if decide (v' / 4096 = v / 4096) then Some (p, true, w) else translate m h root v'.
Proof.
  intros Hv Hr Hiv H1 H4 H2 Hp v' Hv'. pose proof (pi_root _ _ _ _ Hinv) as Hroot.
  unfold translate. rewrite !indices_upper, !walk_snoc.
  destruct (leaf_upper (upper v') root Hroot (upper_good root v' Hv')) as [-> ->].
  destruct (decide (v' / 4096 = v / 4096)) as [Heq|Hne].
  - assert (upper v' = upper v /\ pt_idx v' = i) as [-> ->].
    { subst i. rewrite (indices_page v Hv), (indices_page v' Hv') in Heq. unfold upper.
      pose proof (idx_bound v 39). pose proof (idx_bound v 30). pose proof (idx_bound v 21). pose proof (idx_bound v 12).
      pose proof (idx_bound v' 39). pose proof (idx_bound v' 30). pose proof (idx_bound v' 21). pose proof (idx_bound v' 12).
      unfold pml4_idx, pdpt_idx, pd_idx, pt_idx in *.
      assert (N.land (N.shiftr v' 39) 511 = N.land (N.shiftr v 39) 511 /\
        N.land (N.shiftr v' 30) 511 = N.land (N.shiftr v 30) 511 /\
        N.land (N.shiftr v' 21) 511 = N.land (N.shiftr v 21) 511 /\
        N.land (N.shiftr v' 12) 511 = N.land (N.shiftr v 12) 511) as (-> & -> & -> & ->) by lia. done. }
    destruct (reach_level m h root F Hinv (upper v) root 0 c Hroot (upper_good root v Hv) Hr) as (_ & es & -> & Hes).
    rewrite Hr. erewrite leaf_entry by done. rewrite decide_True by done. cbv zeta. rewrite H1.
    rewrite last_last, !forallb_app. simpl. rewrite H4, H2, Hp, !andb_true_r.
    assert (forallb (fun e => has_flag e 4) es = true /\ forallb (fun e => has_flag e 2) es = true) as [-> ->];
      [|done]. induction Hes as [|x es [Hx2 Hx4] _ [IH4 IH2]]; [done|]. simpl. by rewrite Hx2, Hx4, IH4, IH2.
  - destruct (walk m h root (upper v')) as [es|]; [|done].
    destruct (reach m h root (upper v')) as [t'|] eqn:Hr'; [|done].
    destruct (reach_level m h root F Hinv (upper v') root 0 t' Hroot (upper_good root v' Hv') Hr') as (Ht' & _).
    erewrite leaf_entry by (done || apply idx_bound). rewrite decide_False; [done|]. intros [<- Heq]. apply Hne.
    destruct (reach_inj m h root F Hinv (upper v) root (upper v') root c) as [_ Hup]; try done;
      [by apply upper_good..|].
    rewrite (indices_page v Hv), (indices_page v' Hv'). injection Hup as -> -> ->. subst i. by rewrite Heq.
Qed.
End leaf.

(** ** Other address spaces *)

(** A change of memory that leaves alone every frame outside [F] and the free
    frames of [fa]. *)
Record confined (h : N) (F : gmap N nat) (m m' : Mem) (fa fa' : FrameAllocator) : Prop := {
  cf_entry : forall t i, page_aligned t -> i < 512 -> F !! t = None -> not_free fa t ->
    entry_at m' h t i = entry_at m h t i;
  cf_free : forall t, not_free fa t -> not_free fa' t
}.

Lemma pt_inv_local m m' h root F :
  (forall t l i, F !! t = Some l -> i < 512 -> entry_at m' h t i = entry_at m h t i) ->
  pt_inv m h root F -> pt_inv m' h root F.
Proof.
  intros Hm [Hr Hf Hc Hi]. split; [done|done|..].
  - intros t l i Ht Hi'. erewrite Hm by done. by apply Hc.
  - intros t l i t' l' i' Ht Ht' Hi1 Hi2. erewrite (Hm t), (Hm t') by done. by eapply Hi.
Qed.

Lemma walk_local m m' h root F path t :
  pt_inv m h root F -> (forall t l i, F !! t = Some l -> i < 512 -> entry_at m' h t i = entry_at m h t i) ->
  F !! t = Some (length path) -> good_path root t path -> walk m' h t path = walk m h t path.
Proof.
  intros Hinv Hm. revert t. induction path as [|i path IH]; intros t Ht Hg; [done|].
  pose proof Hg as [Hall _]. apply Forall_cons in Hall as [Hi _]. cbn [walk]. erewrite Hm by done.
  destruct (has_flag (entry_at m h t i) 1) eqn:He; [|done]. destruct path as [|j path]; [done|].
  destruct (good_path_tail m h root F Hinv t i (j :: path) _ Ht Hg He) as (_ & _ & Hc & Hgc). by rewrite IH.
Qed.

(** What is confined to one address space does not concern another. *)
Lemma confined_isolates h F m m' fa fa' root2 F2 :
  confined h F m m' fa fa' -> frames_wf fa' -> usable_end fa' = usable_end fa ->
  F ##ₘ F2 -> space_ok h root2 F2 m fa ->
  space_ok h root2 F2 m' fa' /\ forall v, v < 2 ^ 47 -> translate m' h root2 v = translate m h root2 v.
Proof.
  intros [Hent Hfree] Hwf Hue Hdisj [Hinv [_ Hmap Hsep]].
  assert (forall t l i, F2 !! t = Some l -> i < 512 -> entry_at m' h t i = entry_at m h t i) as Hm.
  { intros t l i Ht Hi. apply Hent; [by eapply (pi_frame _ _ _ _ Hinv)|done| |apply Hsep; eauto].
    by eapply map_disjoint_Some_r. }
  split; [split; [by eapply pt_inv_local|]|].
  - split; [done|by rewrite Hue|]. intros t Ht. by apply Hfree, Hsep.
  - intros v Hv. unfold translate. erewrite walk_local; [done|done|exact Hm|apply Hinv|by apply indices_good].
Qed.

(** ** Mapping a page *)

Section mapping.
Context `{L : Layout}.

(** One level of the descent, with the tree it leaves. *)
Lemma next_table_user_spec k h root F t l i (cont : N -> K (result unit unit)) (Q : result unit unit -> Kernel -> Prop) :
  space_ok h root F (k_mem k) (k_frames k) ->
  F !! t = Some (S (S l)) -> i < 512 -> (t = root -> i < 256) ->
  (usable_end (k_frames k) <= next_free_paddr (k_frames k) -> Q (Err tt) k) ->
  (forall c F' m' fa', space_ok h root F' m' fa' -> extends h root F F' (k_mem k) m' (k_frames k) fa' ->
     F' !! c = Some (S l) -> has_flag (entry_at m' h t i) 0x1 = true -> frame_of (entry_at m' h t i) = c ->
     wp (cont (c + h)) Q (set_page_state m' fa' k)) ->
  wp (next_table get_or_create_table_user (t + h) i h cont) Q k.
Proof.
  intros Hsp Ht Hi Hr Herr Hok. unfold next_table. apply wp_kbind.
  eapply wp_mono; [by eapply get_or_create_user_spec|]. cbv beta. intros [c|[]] k'.
  - intros (F' & m' & fa' & -> & Hsp' & Hex & Hc & He & Hfr). apply wp_kbind.
    eapply wp_klift; [apply add64_ok; apply (pi_frame _ _ _ _ (proj1 Hsp')) in Hc; lia|]. by eapply Hok.
  - intros [-> Hfull]. apply wp_kret. auto.
Qed.

(** How a mapping of [v] to [paddr] in the address space [root] ends. *)
Definition mapped (h root : N) (F : gmap N nat) (v paddr : N) (w : bool) (k : Kernel)
    (r : result unit unit) (k' : Kernel) : Prop :=
  exists F' m' fa', k' = set_page_state m' fa' k /\ space_ok h root F' m' fa' /\
    confined h F (k_mem k) m' (k_frames k) fa' /\ usable_end fa' = usable_end (k_frames k) /\
    (forall t, F !! t = None -> not_free (k_frames k) t -> F' !! t = None) /\
    match r with
    | Ok _ => forall v', v' < 2 ^ 47 -> translate m' h root v' =
        if decide (v' / 4096 = v / 4096) then Some (frame_of paddr, true, w)
        else translate (k_mem k) h root v'
    | Err _ => usable_end fa' <= next_free_paddr fa' /\
        forall v', v' < 2 ^ 47 -> translate m' h root v' = translate (k_mem k) h root v'
    end.

Lemma extends_translate h root F F' m m' fa fa' v :
  extends h root F F' m m' fa fa' -> v < 2 ^ 47 -> translate m' h root v = translate m h root v.
Proof. intros Hex Hv. unfold translate. by rewrite (ex_walk _ _ _ _ _ _ _ _ Hex). Qed.

Lemma extends_confined h root F F' m m' fa fa' :
  extends h root F F' m m' fa fa' -> confined h F m m' fa fa'.
Proof. intros [? ? ? ? Hf ? Ho]. by split. Qed.

Lemma mapped_fail k h root F F' v paddr w m' fa' :
  space_ok h root F' m' fa' -> extends h root F F' (k_mem k) m' (k_frames k) fa' ->
  usable_end fa' <= next_free_paddr fa' -> mapped h root F v paddr w k (Err tt) (set_page_state m' fa' k).
Proof.
  intros Hsp Hex Hfull. exists F', m', fa'. split; [done|]. split; [done|].
  split; [by eapply extends_confined|]. split; [apply Hex|]. split; [apply Hex|]. split; [done|].
  intros v' Hv'. by eapply extends_translate.
Qed.

(** The leaf's value. *)
Lemma leaf_flags paddr (w : bool) :
  let e := N.lor (N.land paddr PADDR_MASK) (N.lor (N.lor 0x1 0x4) (if w then 0x2 else 0x0)) in
  has_flag e 0x1 = true /\ has_flag e 0x4 = true /\ has_flag e 0x2 = w /\ frame_of e = frame_of paddr.
Proof.
  destruct (frame_of_ok paddr) as [Ha Hlt]. cbv zeta. fold (frame_of paddr).
  set (f := N.lor (N.lor 1 4) (if w then 2 else 0)).
  pose proof (has_flag_lor _ f 0 Ha ltac:(done)) as H0. pose proof (has_flag_lor _ f 1 Ha ltac:(done)) as H1.
  pose proof (has_flag_lor _ f 2 Ha ltac:(done)) as H2. change (2 ^ 0) with 1 in H0. change (2 ^ 1) with 2 in H1.
  change (2 ^ 2) with 4 in H2. rewrite H0, H1, H2. split_and!; [by destruct w..|]. apply frame_of_flags; [done..|by destruct w].
Qed.

Lemma map_page_user_spec k h root F v paddr w :
  hhdm_response = Some h -> space_ok h root F (k_mem k) (k_frames k) -> v < 2 ^ 47 ->
  wp (map_page_user_into root v paddr w) (mapped h root F v paddr w k) k.
Proof.
  intros Hh Hsp Hv. unfold map_page_user_into. rewrite Hh. pose proof (proj1 Hsp) as Hinv.
  pose proof (pi_root _ _ _ _ Hinv) as Hroot. apply wp_kbind.
  eapply wp_klift; [apply add64_ok; apply (pi_frame _ _ _ _ Hinv) in Hroot; lia|].
  eapply next_table_user_spec; [done|done|apply idx_bound|intros _; by apply pml4_idx_user|..].
  { intros Hfull. pose proof (mapped_fail k h root F F v paddr w _ _ Hsp) as Hm. rewrite set_page_state_id in Hm.
    apply Hm; [by apply extends_ext|done]. }
  intros c3 F1 m1 fa1 Hsp1 Hex1 Hc3 He3 Hfr3.
  eapply next_table_user_spec; [exact Hsp1|exact Hc3|apply idx_bound| |..].
  { intros ->. by destruct (pi_not_root _ _ _ _ _ _ (proj1 Hsp1) Hc3 ltac:(lia)). }
  { intros Hfull. by eapply mapped_fail. }
  intros c2 F2 m2 fa2 Hsp2 Hex2 Hc2 He2 Hfr2. change (k_mem (set_page_state m1 fa1 k)) with m1 in Hex2.
  change (k_frames (set_page_state m1 fa1 k)) with fa1 in Hex2.
  pose proof (extends_trans _ _ _ _ _ _ _ _ _ _ _ Hex1 Hex2) as Hex12.
  eapply next_table_user_spec; [exact Hsp2|exact Hc2|apply idx_bound| |..].
  { intros ->. by destruct (pi_not_root _ _ _ _ _ _ (proj1 Hsp2) Hc2 ltac:(lia)). }
  { intros Hfull. change (set_page_state m2 fa2 (set_page_state m1 fa1 k)) with (set_page_state m2 fa2 k).
    by eapply mapped_fail. }
  intros c1 F3 m3 fa3 Hsp3 Hex3 Hc1 He1 Hfr1.
  change (k_mem (set_page_state m2 fa2 (set_page_state m1 fa1 k))) with m2 in Hex3.
  change (k_frames (set_page_state m2 fa2 (set_page_state m1 fa1 k))) with fa2 in Hex3.
  pose proof (extends_trans _ _ _ _ _ _ _ _ _ _ _ Hex12 Hex3) as Hex.
  apply wp_kbind, wp_kmod, wp_kret. destruct (leaf_flags paddr w) as (Hl1 & Hl4 & Hl2 & Hlf).
  set (e := N.lor _ _) in *. exists F3, (mem_wr m3 (c1 + h + 8 * pt_idx v) e), fa3.
  split; [done|]. split; [split; [|apply Hsp3]|].
  { eapply leaf_inv; [apply Hsp3|done|apply idx_bound]. }
  split; [|split; [apply Hex|split; [apply Hex|]]].
  { split; [|apply Hex]. intros t i Ha Hi Ht Hnf. rewrite <- (ex_other _ _ _ _ _ _ _ _ Hex t i) by done.
    rewrite entry_at_wr by (done || apply idx_bound || by eapply (pi_frame _ _ _ _ (proj1 Hsp3))).
    rewrite decide_False; [done|]. intros [<- _]. by rewrite (ex_new _ _ _ _ _ _ _ _ Hex) in Hc1. }
  intros v' Hv'. rewrite <- (extends_translate _ _ _ _ _ _ _ _ v' Hex Hv').
  eapply leaf_translate; try done; [apply Hsp3|apply idx_bound|].
  assert (entry_at m2 h root (pml4_idx v) = entry_at m1 h root (pml4_idx v)) as E2.
  { eapply (ex_entry _ _ _ _ _ _ _ _ Hex2); [apply (proj1 Hsp1)|apply idx_bound|done]. }
  assert (entry_at m3 h root (pml4_idx v) = entry_at m2 h root (pml4_idx v)) as E3.
  { eapply (ex_entry _ _ _ _ _ _ _ _ Hex3); [apply (proj1 Hsp2)|apply idx_bound|by rewrite E2]. }
  assert (entry_at m3 h c3 (pdpt_idx v) = entry_at m2 h c3 (pdpt_idx v)) as E4.
  { eapply (ex_entry _ _ _ _ _ _ _ _ Hex3); [eapply lookup_weaken; [exact Hc3|apply Hex2]|apply idx_bound|done]. }
  unfold upper. cbn [reach]. by rewrite E3, E2, He3, Hfr3, E4, He2, Hfr2, He1, Hfr1.
Qed.

(** C10: Mapping a user page is exact.  On an address space that satisfies the
    paging invariant, [map_page_user_into] always returns and keeps the
    invariant.  On success the page of [vaddr] translates to the given frame,
    user-accessible, and writeable iff requested, and every other page of the
    user half translates exactly as before.  On failure the frame allocator is
    exhausted and no translation has changed. *)
Theorem map_page_user_exact k h root F v paddr w :
  hhdm_response = Some h -> space_ok h root F (k_mem k) (k_frames k) -> v < 2 ^ 47 ->
  exists r k', map_page_user_into root v paddr w k = Ret (r, k') /\ mapped h root F v paddr w k r k'.
Proof. intros Hh Hsp Hv. apply wp_run. by eapply map_page_user_spec. Qed.
End mapping.

(** ** New address spaces *)

Section creation.
Context `{L : Layout}.
Let h := hhdm_offset.

(** The kernel half has been copied for the entries in [copied_idx]. *)
Record copied (k0 : Kernel) (root cur : N) (copied_idx : list N) (k : Kernel) : Prop := {
  cp_state : exists m, k = set_page_state m (k_frames k) k0;
  cp_frames : k_frames k = mkFrameAllocator (root + 4096) (usable_end (k_frames k0));
  cp_root : forall i, i < 512 -> entry_at (k_mem k) h root i =
    if decide (i ∈ copied_idx) then entry_at (k_mem k0) h cur i else 0;
  cp_other : forall t i, page_aligned t -> i < 512 -> t <> root -> entry_at (k_mem k) h t i = entry_at (k_mem k0) h t i
}.

Lemma copy_entry_spec k0 root cur idxs i k :
  page_aligned root -> page_aligned cur -> root <> cur -> i < 512 -> copied k0 root cur idxs k ->
  wp (copy_entry (root + h) (cur + h) i) (fun _ k' => copied k0 root cur (idxs ++ [i]) k') k.
Proof.
  intros Hr Hc Hne Hi [[m Hst] Hfr Hroot Hoth]. unfold copy_entry. apply wp_kbind, wp_kget, wp_kmod.
  fold (entry_at (k_mem k) h cur i). rewrite Hoth by done. split.
  - exists (mem_wr m (root + h + 8 * i) (entry_at (k_mem k0) h cur i)). rewrite Hst at 1. rewrite Hst. by destruct k0 as [? ? ? ? ? ? ? ? [] ? ? ? ?].
  - done.
  - intros j Hj. change (k_mem (on_machine ?f k)) with (mc_mem (f (k_machine k))). cbn [mc_mem set_mc_mem].
    change (mc_mem (k_machine k)) with (k_mem k). rewrite entry_at_wr, Hroot by done.
    destruct (decide (i = j)) as [->|Hij].
    + rewrite decide_True by done. by rewrite decide_True by set_solver.
    + rewrite decide_False by naive_solver. apply decide_ext. set_solver.
  - intros t j Ht Hj Htr. change (k_mem (on_machine ?f k)) with (mc_mem (f (k_machine k))). cbn [mc_mem set_mc_mem].
    change (mc_mem (k_machine k)) with (k_mem k). rewrite entry_at_wr by done. rewrite decide_False by naive_solver. auto.
Qed.

(** What creating an address space gives. *)
Definition created (k : Kernel) (r : option N) (k' : Kernel) : Prop :=
  match r with
  | None => k' = k /\ usable_end (k_frames k) <= next_free_paddr (k_frames k)
  | Some root =>
      let m' := k_mem k' in let fa' := k_frames k' in
      k' = set_page_state m' fa' k /\ ~ not_free (k_frames k) root /\
      space_ok h root {[root := 4%nat]} m' fa' /\
      (forall v, v < 2 ^ 47 -> translate m' h root v = None) /\
      (forall i, 256 <= i < 512 ->
         entry_at m' h root i = entry_at (k_mem k) h (current_pml4_paddr (k_cpu k)) i) /\
      forall root2 F2, space_ok h root2 F2 (k_mem k) (k_frames k) ->
        F2 !! root = None /\ space_ok h root2 F2 m' fa' /\
        forall v, v < 2 ^ 47 -> translate m' h root2 v = translate (k_mem k) h root2 v
  end.

(** A root whose user half is empty is an address space that maps nothing. *)
Lemma empty_root m root :
  page_aligned root -> root < 2 ^ 52 -> root + h + 4096 <= u64_limit ->
  (forall i, i < 256 -> entry_at m h root i = 0) ->
  pt_inv m h root {[root := 4%nat]} /\ forall v, v < 2 ^ 47 -> translate m h root v = None.
Proof.
  intros Ha Hlt Hh Hz. split.
  - split.
    + apply lookup_insert_eq.
    + intros t l [<- <-]%lookup_singleton_Some. auto.
    + intros t l i [<- _]%lookup_singleton_Some Hi Hr. rewrite Hz by auto. done.
    + intros t l i t' l' i' [<- _]%lookup_singleton_Some _ Hi _ Hr _. rewrite Hz by auto. done.
  - intros v Hv. unfold translate, indices. cbn [walk]. by rewrite Hz by by apply pml4_idx_user.
Qed.

Lemma copied_created k root cur k' :
  cur = current_pml4_paddr (k_cpu k) -> frames_sep h ∅ (k_frames k) -> root = next_free_paddr (k_frames k) ->
  root < usable_end (k_frames k) -> copied k root cur (rangeN 256 256) k' -> created k (Some root) k'.
Proof.
  intros -> [Hfw [Hm1 Hm2] _] Hroot Hlt [[m Hst] Hfr Hr Ho]. unfold created. cbv zeta.
  pose proof (aligned_next_le _ _ (fw_next _ Hfw) (fw_end _ Hfw) ltac:(lia)) as Hnext. rewrite <- Hroot in Hnext.
  assert (page_aligned root) as Ha by (rewrite Hroot; apply Hfw).
  assert (forall i, i < 256 -> entry_at (k_mem k') h root i = 0) as Hz.
  { intros i Hi. rewrite Hr by lia. rewrite decide_False; [done|]. rewrite elem_of_rangeN. lia. }
  destruct (empty_root (k_mem k') root Ha ltac:(lia) ltac:(lia) Hz) as [Hinv Htr].
  assert (frames_wf (k_frames k')) as Hfw'.
  { rewrite Hfr. destruct Hfw. split; cbn [next_free_paddr usable_end]; [by apply page_aligned_add|done..]. }
  split. { rewrite Hst at 1. f_equal. by rewrite Hst. }
  split; [unfold not_free; lia|].
  split; [split; [done|split; [done|by rewrite Hfr|]]|].
  { intros t [l [<- <-]%lookup_singleton_Some]. rewrite Hfr. cbn. lia. }
  split; [done|]. split.
  { intros i Hi. rewrite Hr by lia. rewrite decide_True; [done|]. rewrite elem_of_rangeN. lia. }
  intros root2 F2 Hsp2. assert (F2 !! root = None) as Hn.
  { destruct (F2 !! root) eqn:He; [|done]. destruct (fs_sep _ _ _ (proj2 Hsp2) root ltac:(eauto)); lia. }
  split; [done|]. eapply (confined_isolates h ∅ (k_mem k) _ (k_frames k)); [|done|by rewrite Hfr|apply map_disjoint_empty_l|done]. split.
  - intros t i Hta Hi _ Hnf. apply Ho; [done..|]. intros ->. unfold not_free in Hnf. lia.
  - intros t Hnf. rewrite Hfr. unfold not_free in *. cbn [next_free_paddr usable_end]. lia.
Qed.

Lemma new_address_space_spec k :
  frames_sep h ∅ (k_frames k) ->
  not_free (k_frames k) (current_pml4_paddr (k_cpu k)) ->
  current_pml4_paddr (k_cpu k) + h + 4096 <= u64_limit ->
  wp new_address_space (created k) k.
Proof.
  intros Hsep Hnf Hcur. pose proof Hsep as [Hfw [Hm1 Hm2] _]. unfold new_address_space.
  apply wp_kbind. unfold wp at 1, kallocate_frame. rewrite allocate_frame_spec by done.
  destruct (N.ltb_spec (next_free_paddr (k_frames k)) (usable_end (k_frames k))) as [Hlt|Hge]; cbn [obind].
  2: { apply wp_kret. split; [by destruct k|done]. }
  pose proof (aligned_next_le _ _ (fw_next _ Hfw) (fw_end _ Hfw) Hlt) as Hnext.
  set (root := next_free_paddr (k_frames k)) in *. assert (page_aligned root) as Ha by apply Hfw.
  apply wp_kbind. eapply wp_klift; [apply add64_ok; fold h; lia|].
  apply wp_kbind, wp_kget, wp_kbind. fold h. change (k_cpu (set_k_frames ?f k)) with (k_cpu k).
  set (cur := current_pml4_paddr (k_cpu k)) in *. assert (page_aligned cur) as Hca by apply frame_of_ok.
  assert (root <> cur) as Hrc by (unfold not_free in Hnf; fold root in Hnf; lia).
  eapply wp_klift; [apply add64_ok; lia|]. apply wp_kbind, wp_kmod, wp_kbind.
  apply (wp_kfor (fun pre _ k' => copied k root cur pre k')).
  - split.
    + eexists. by destruct k as [? ? ? ? ? ? ? ? [] ? ? ? ?].
    + done.
    + intros i Hi. by apply (eq_trans (entry_at_zero (k_mem k) h root root i Ha Ha Hi)), decide_True.
    + intros t i Hta Hi Htr. apply (eq_trans (entry_at_zero (k_mem k) h root t i Ha Hta Hi)), decide_False. by intros ->.
  - intros pre i post [] k' Hsplit Hcp. apply copy_entry_spec; try done.
    assert (i ∈ rangeN 256 256) as Hin by (rewrite Hsplit; set_solver). rewrite elem_of_rangeN in Hin. lia.
  - intros [] k' Hcp. apply wp_kret. by eapply copied_created.
Qed.

(** A new address space is empty and isolated.  [new_address_space] returns
    a root exactly when a frame is left; the new root satisfies the paging
    invariant, maps nothing in the user half and shares the kernel half of the
    active address space, and every other address space keeps its invariant
    and its translations.  When no frame is left nothing changes. *)
Theorem new_address_space_exact k :
  frames_sep h ∅ (k_frames k) ->
  not_free (k_frames k) (current_pml4_paddr (k_cpu k)) ->
  current_pml4_paddr (k_cpu k) + h + 4096 <= u64_limit ->
  exists r k', new_address_space k = Ret (r, k') /\ created k r k'.
Proof. intros Hsep Hnf Hcur. apply wp_run. by apply new_address_space_spec. Qed.
End creation.

(** ** Example address space *)

Definition example_paging : Layout := {|
  task_stacks := 0xffffffff80200000;
  kernel_task_trampoline := 0xffffffff80001000;
  iret_to_user := 0xffffffff80001010;
  yield_resume := 0xffffffff80002000;
  preempt_resume := 0xffffffff80003000;
  terminate_resume := 0xffffffff80004000;
  hhdm_response := Some 0xffff800000000000
|}.

(** The root at 0x1000 maps nothing; 16 frames are left. *)
Definition example_space : Kernel :=
  set_k_frames (mkFrameAllocator 0x200000 0x210000)
    (on_machine (on_cpu (set_r_cr3 0x1000)) Kernel_init).

Lemma example_frames F :
  (forall t, is_Some (F !! t) -> t = 0x1000) -> frames_sep 0xffff800000000000 F (k_frames example_space).
Proof. intros HF. split; [done|done|]. intros t ->%HF. by left. Qed.

Lemma example_space_ok : space_ok 0xffff800000000000 0x1000 {[0x1000 := 4%nat]} (k_mem example_space) (k_frames example_space).
Proof.
  split.
  - by apply (empty_root (L := example_paging)).
  - apply example_frames. by intros t [l [<- _]%lookup_singleton_Some].
Qed.

(** The same address space after the page of 0x400000 has been mapped. *)
Definition example_mapped : Kernel :=
  match map_page_user_into (L := example_paging) 0x1000 0x400000 0x300000 false example_space with
  | Ret (_, k) => k
  | _ => example_space
  end.

Lemma mapped_space (k k2 : Kernel) (f : K (result unit unit)) h root F v paddr w :
  wp f (mapped h root F v paddr w k) k -> root = current_pml4_paddr (k_cpu k) ->
  k2 = (match f k with Ret (_, k1) => k1 | _ => k end) ->
  exists F', pt_inv (k_mem k2) h (current_pml4_paddr (k_cpu k2)) F'.
Proof. intros (r & k' & -> & F' & m' & fa' & -> & [? _] & _)%wp_run -> ->. by exists F'. Qed.

Lemma map_page_user_exact_witness :
  exists r k', map_page_user_into (L := example_paging) 0x1000 0x400000 0x300000 false example_space = Ret (r, k') /\
    mapped 0xffff800000000000 0x1000 {[0x1000 := 4%nat]} 0x400000 0x300000 false example_space r k'.
Proof.
  apply (map_page_user_exact (L := example_paging)); [reflexivity|apply example_space_ok|reflexivity].
Defined.

(** The mapped page may be read, also up to its last byte, and not written. *)
Lemma validate_user_range_exact_witness :
  exists b : bool, validate_user_range (L := example_paging) 0x400ff0 16 false example_mapped =
      Ret (if b then Ok tt else Err tt, example_mapped) /\
    (b = true <-> 16 = 0 \/ 0x400ff0 + 16 <= 2 ^ 47 /\
       forall a, 0x400ff0 <= a < 0x400ff0 + 16 ->
         access_ok (k_mem example_mapped) (hhdm_offset (L := example_paging))
           (current_pml4_paddr (k_cpu example_mapped)) a false = true).
Proof.
  destruct (mapped_space example_space example_mapped _ _ _ _ _ _ _
    (map_page_user_spec (L := example_paging) example_space _ _ _ 0x400000 0x300000 false
       eq_refl example_space_ok eq_refl) eq_refl eq_refl) as [F HF].
  apply (validate_user_range_exact (L := example_paging) example_mapped 0x400ff0 16 false F HF); reflexivity.
Defined.

Lemma new_address_space_exact_witness :
  exists r k', new_address_space (L := example_paging) example_space = Ret (r, k') /\
    created (L := example_paging) example_space r k'.
Proof.
  apply (new_address_space_exact (L := example_paging)).
  - apply example_frames. by intros t [l ?].
  - left. done.
  - done.
Defined.

(** The verdicts on the mapped page, evaluated. *)
Definition example_verdict (ptr len : N) (w : bool) : option (result unit unit) :=
  match validate_user_range (L := example_paging) ptr len w example_mapped with Ret (r, _) => Some r | _ => None end.

Lemma example_verdicts :
  example_verdict 0x400ff0 16 false = Some (Ok tt) /\ example_verdict 0x400ff0 16 true = Some (Err tt) /\
  example_verdict 0x400ff0 17 false = Some (Err tt).
Proof. vm_compute. auto. Qed.
