(* ===== verification/UserMemory.v ===== *)
(** * User memory

    The bytes user code sees, and the kernel's accesses to them through user
    pointers: slices read by [parse_request] and buffers written by the receive
    system calls ([kernel/syscall/mod.rs]).  An access goes through the page
    tables of the active address space, as the processor does it. *)

From S2P Require Import Prelude Ring Preempt Trace Capability AuditTrail Message Machine Frames.
From S2P Require Import Task Scheduler Kernel Paging AddressSpace.
Local Open Scope N_scope.

Section user.
Context `{L : Layout}.

(** The active address space, and the physical address behind a user address. *)
Definition active_root (k : Kernel) : N := current_pml4_paddr (k_cpu k).
Definition active_translate (k : Kernel) (a : N) : option (N * bool * bool) :=
  translate (k_mem k) hhdm_offset (active_root k) a.
Definition phys (frame a : N) : N := frame + a mod 4096.

(** The byte at user address [a]. *)
Definition user_byte (k : Kernel) (a : N) : option N :=
  match active_translate k a with
  | Some (frame, _, _) => Some (default 0 (k_user k !! phys frame a))
  | None => None
  end.

(** A load and a store by kernel code.  An address that is not mapped, or not
    writeable, faults; so does the kernel. *)
Definition load_byte (a : N) : K N :=
  fun k => match user_byte k a with Some b => Ret (b, k) | None => Panic end.
Definition store_byte (a b : N) : K unit :=
  fun k => match active_translate k a with
           | Some (frame, _, true) => Ret (tt, set_k_user (<[phys frame a := b]> (k_user k)) k)
           | _ => Panic
           end.

Fixpoint load_bytes (n : nat) (a : N) : K (list N) :=
  match n with
  | O => kret []
  | S n' => let* b := load_byte a in let* bs := load_bytes n' (a + 1) in kret (b :: bs)
  end.

(** [core::slice::from_raw_parts(ptr, len)] and the reads of its bytes: a slice
    may not start at null, even when empty, and the dev profile checks it. *)
Definition from_raw_parts (ptr len : N) : K (list N) :=
  if ptr =? 0 then klift Panic else load_bytes (N.to_nat len) ptr.

(** [core::ptr::copy_nonoverlapping(src.as_ptr(), dst, len)]. *)
Fixpoint store_bytes (a : N) (bs : list N) : K unit :=
  match bs with
  | [] => kret tt
  | b :: bs' => do* store_byte a b in store_bytes (a + 1) bs'
  end.

(** [u64::from_ne_bytes] on a little-endian machine. *)
Definition from_ne_bytes (bs : list N) : N := foldr (fun b v => b + 256 * v) 0 bs.

(** ** Reads *)

(** The bytes of the range [a, a + n), if all are mapped. *)
Definition user_bytes (k : Kernel) (a : N) (n : nat) : option (list N) :=
  mapM (user_byte k) (rangeN a n).

Lemma load_bytes_spec n a k bs : user_bytes k a n = Some bs -> load_bytes n a k = Ret (bs, k).
Proof.
  unfold user_bytes. revert a bs. induction n as [|n IH]; intros a bs; [by intros [= <-]|].
  rewrite rangeN_S. cbn [mapM]. unfold kbind, load_byte. cbn [load_bytes].
  intros (b & Hb & (bs' & Hbs & [= <-])%bind_Some)%bind_Some.
  unfold kbind, load_byte. rewrite Hb. cbn [obind]. by rewrite (IH _ _ Hbs).
Qed.

Lemma access_ok_mapped k a w :
  access_ok (k_mem k) hhdm_offset (active_root k) a w = true ->
  exists frame w', active_translate k a = Some (frame, true, w') /\ (w = true -> w' = true).
Proof.
  unfold access_ok, active_translate. destruct (translate _ _ _ a) as [[[f u] w']|]; [|done].
  destruct u, w, w'; intros; try done; by eexists _, _.
Qed.

Lemma user_bytes_mapped k a n :
  (forall x, a <= x < a + N.of_nat n -> is_Some (active_translate k x)) -> is_Some (user_bytes k a n).
Proof.
  intros H. apply mapM_is_Some_2, Forall_forall. intros x Hx%elem_of_rangeN. destruct (H x Hx) as [[[f u] w] Hf].
  unfold compose, user_byte. by rewrite Hf.
Qed.

Lemma user_bytes_length k a n bs : user_bytes k a n = Some bs -> length bs = n.
Proof. intros H%length_mapM. rewrite <- H. unfold rangeN. by rewrite length_fmap, length_seq. Qed.

(** ** Writes *)

(** [m'] is [m] with the bytes [bs] stored from user address [a]. *)
Fixpoint stored (tr : N -> option (N * bool * bool)) (a : N) (bs : list N) (m : gmap N N) : gmap N N :=
  match bs with
  | [] => m
  | b :: bs' =>
      stored tr (a + 1) bs'
        (match tr a with Some (f, _, _) => <[phys f a := b]> m | None => m end)
  end.

Lemma store_bytes_spec bs a k :
  (forall x, a <= x < a + lenN bs -> exists f u, active_translate k x = Some (f, u, true)) ->
  store_bytes a bs k = Ret (tt, set_k_user (stored (active_translate k) a bs (k_user k)) k).
Proof.
  revert a k. induction bs as [|b bs IH]; intros a k H; [by destruct k|].
  assert (lenN (b :: bs) = 1 + lenN bs) as Hl by (unfold lenN; simpl; lia).
  destruct (H a ltac:(lia)) as (f & u & Hf). cbn [store_bytes stored]. unfold kbind, store_byte. rewrite Hf. cbn [obind].
  rewrite IH; [done|]. intros x Hx. apply (H x). lia.
Qed.

(** Only the bytes behind the range change. *)
Lemma stored_outside k bs a m p :
  (forall x f u w, a <= x < a + lenN bs -> active_translate k x = Some (f, u, w) -> phys f x <> p) ->
  stored (active_translate k) a bs m !! p = m !! p.
Proof.
  revert a m. induction bs as [|b bs IH]; intros a m H; [done|].
  assert (lenN (b :: bs) = 1 + lenN bs) as Hl by (unfold lenN; simpl; lia). cbn [stored].
  rewrite IH by (intros x f u w Hx; apply H; lia).
  destruct (active_translate k a) as [[[f u] w]|] eqn:Hf; [|done].
  apply lookup_insert_ne. apply (H a f u w); [lia|done].
Qed.

(** No two pages of the range are mapped to the same frame. *)
Definition frames_injective (k : Kernel) (a n : N) : Prop :=
  forall x y fx ux wx fy uy wy, a <= x < a + n -> a <= y < a + n ->
    active_translate k x = Some (fx, ux, wx) -> active_translate k y = Some (fy, uy, wy) ->
    fx = fy -> x / 4096 = y / 4096.

Lemma frame_aligned k x f u w : active_translate k x = Some (f, u, w) -> page_aligned f.
Proof.
  unfold active_translate, translate. destruct (walk _ _ _ _) as [es|]; [|done]. intros [= <- _ _].
  apply frame_of_ok.
Qed.

Lemma phys_inj k a n x y fx ux wx fy uy wy :
  frames_injective k a n -> a <= x < a + n -> a <= y < a + n ->
  active_translate k x = Some (fx, ux, wx) -> active_translate k y = Some (fy, uy, wy) ->
  phys fx x = phys fy y -> x = y.
Proof.
  intros Hinj Hx Hy Htx Hty He. pose proof (frame_aligned _ _ _ _ _ Htx) as Hax.
  pose proof (frame_aligned _ _ _ _ _ Hty) as Hay. unfold phys, page_aligned in *.
  assert (fx = fy /\ x mod 4096 = y mod 4096) as [Hf Hm].
  { divmod fx 4096 qx rx. divmod fy 4096 qy ry. divmod x 4096 q1 r1. divmod y 4096 q2 r2. lia. }
  specialize (Hinj _ _ _ _ _ _ _ _ Hx Hy Htx Hty Hf). divmod x 4096 q1 r1. divmod y 4096 q2 r2. lia.
Qed.

(** What was stored is read back. *)
Lemma stored_inside k bs a m i b f u w :
  frames_injective k a (lenN bs) -> idx bs i = Some b -> active_translate k (a + i) = Some (f, u, w) ->
  stored (active_translate k) a bs m !! phys f (a + i) = Some b.
Proof.
  revert a m i. induction bs as [|c bs IH]; intros a m i Hinj Hi Hf; [apply idx_lt in Hi; unfold lenN in Hi; simpl in Hi; lia|].
  assert (lenN (c :: bs) = 1 + lenN bs) as Hl by (unfold lenN; simpl; lia). rewrite Hl in Hinj.
  pose proof (idx_lt _ _ _ Hi) as Hlt. cbn [stored]. destruct (decide (i = 0)) as [->|Hne].
  - injection Hi as ->. rewrite N.add_0_r in *. rewrite Hf. rewrite stored_outside; [apply lookup_insert_eq|].
    intros x fx ux wx Hx Htx He. assert (x = a); [|lia].
    by eapply (phys_inj k a (1 + lenN bs)); [done|lia|lia|exact Htx|exact Hf|].
  - replace (a + i) with (a + 1 + (i - 1)) in * by lia. apply IH; [| |done].
    + intros x y; intros. eapply (Hinj x y); (eassumption || lia).
    + rewrite idx_lookup in *. replace (N.to_nat i) with (S (N.to_nat (i - 1))) in Hi by lia. done.
Qed.
End user.
