(* ===== verification/Userspace.v ===== *)
(** * User tasks

    Models [kernel/userspace/mod.rs]: the loading of a user program into a
    fresh address space and the tasks made from the programs linked into the
    kernel image.  The main result follows [spawn_user] through the paging code:
    the new task sees exactly its code and stack pages, the code page holds the
    program, and no other address space is touched. *)

From S2P Require Import Prelude Ring Preempt Trace Capability AuditTrail Message Machine Frames.
From S2P Require Import Task Scheduler Kernel Switch Scheduling Spawn Contexts Paging.
From S2P Require Import AddressSpace UserMemory.
Local Open Scope N_scope.

Definition USER_CODE_VADDR : N := 0x00400000.
Definition USER_STACK_VADDR : N := 0x007ff000.
Definition USER_STACK_TOP : N := 0x00800000.

(** The assembled programs of the kernel image: the bytes between each pair of
    [_blob_start] and [_blob_end] symbols. *)
Class Blobs : Type := {
  user_blob : list N;
  logger_blob : list N;
  faulty_user_blob : list N;
  async_sender_blob : list N;
  async_receiver_blob : list N;
  ramfs_blob : list N;
  init_blob : list N;
  preempt_user_blob : list N
}.

(** [Option::expect] and [Result::expect]. *)
Definition expect_some {A} (o : option A) : outcome A :=
  match o with Some a => Ret a | None => Panic end.
Definition expect_ok {E A} (r : result E A) : outcome A :=
  match r with Ok a => Ret a | Err _ => Panic end.

(** Bytes written through the direct map at physical address [p]. *)
Fixpoint phys_store (p : N) (bs : list N) (m : gmap N N) : gmap N N :=
  match bs with
  | [] => m
  | b :: bs' => phys_store (p + 1) bs' (<[p := b]> m)
  end.

Section userspace.
Context `{L : Layout}.

Definition spawn_user (id : TaskId) (blob : list N) (cap_table : CapTable) : K Task :=
  let* o := new_address_space in
  let* cr3 := klift (expect_some o) in
  let* o := kallocate_frame in
  let* code_frame := klift (expect_some o) in
  let* o := kallocate_frame in
  let* stack_frame := klift (expect_some o) in
  let* r := map_page_user_into cr3 USER_CODE_VADDR code_frame true in
  do* klift (expect_ok r) in
  let* r := map_page_user_into cr3 USER_STACK_VADDR stack_frame true in
  do* klift (expect_ok r) in
  let* dst := klift (add64 code_frame hhdm_offset) in
  do* kmod (fun k => set_k_user (phys_store (dst - hhdm_offset) blob (k_user k)) k) in
  Task_new_user id USER_CODE_VADDR USER_STACK_TOP cr3 cap_table.

Context `{B : Blobs}.
Definition spawn_demo_user_task (id : TaskId) (ct : CapTable) : K Task := spawn_user id user_blob ct.
Definition spawn_logger_task (id : TaskId) (ct : CapTable) : K Task := spawn_user id logger_blob ct.
Definition spawn_faulty_user_task (id : TaskId) (ct : CapTable) : K Task := spawn_user id faulty_user_blob ct.
Definition spawn_async_sender_task (id : TaskId) (ct : CapTable) : K Task := spawn_user id async_sender_blob ct.
Definition spawn_async_receiver_task (id : TaskId) (ct : CapTable) : K Task := spawn_user id async_receiver_blob ct.
Definition spawn_ramfs_task (id : TaskId) (ct : CapTable) : K Task := spawn_user id ramfs_blob ct.
Definition spawn_init_task (id : TaskId) (ct : CapTable) : K Task := spawn_user id init_blob ct.
Definition spawn_preempt_user_task (id : TaskId) (ct : CapTable) : K Task := spawn_user id preempt_user_blob ct.
End userspace.

(** ** Frames consumed *)

(** [m] takes at most [n] frames from the allocator. *)
Definition uses {A} (n : N) (m : K A) : Prop :=
  forall k r k', m k = Ret (r, k') ->
    usable_end (k_frames k') = usable_end (k_frames k) /\
    next_free_paddr (k_frames k) <= next_free_paddr (k_frames k') <= next_free_paddr (k_frames k) + 4096 * n.

Lemma uses_ret {A} (a : A) : uses 0 (kret a).
Proof. intros k r k' [= <- <-]. lia. Qed.

Lemma uses_get {A} (f : Kernel -> A) : uses 0 (kget f).
Proof. intros k r k' [= <- <-]. lia. Qed.

Lemma uses_lift {A} (o : outcome A) : uses 0 (klift o).
Proof. intros k r k'. unfold klift. destruct o; cbn [obind]; intros [=]. subst. lia. Qed.

Lemma uses_machine f : uses 0 (kmod (on_machine f)).
Proof. intros k r k' [= <- <-]. ksimp. lia. Qed.

Lemma uses_alloc : uses 1 kallocate_frame.
Proof.
  intros k r k'. unfold kallocate_frame, allocate_frame, add64.
  destruct (_ <? u64_limit); cbn [obind]; [|done]. case_match; intros [=]; subst; ksimp; simpl; lia.
Qed.

Lemma uses_bind {A B} n1 n2 (m : K A) (f : A -> K B) :
  uses n1 m -> (forall a, uses n2 (f a)) -> uses (n1 + n2) (kbind m f).
Proof.
  intros Hm Hf k r k'. unfold kbind. destruct (m k) as [[a k1]| | |] eqn:He; cbn [obind]; try done.
  intros H2. apply Hm in He. apply Hf in H2. lia.
Qed.

Lemma uses_mono {A} n n' (m : K A) : uses n m -> n <= n' -> uses n' m.
Proof. intros Hm Hn k r k' Hr. apply Hm in Hr. lia. Qed.

Create HintDb frames.
#[export] Hint Resolve uses_ret uses_get uses_lift uses_machine uses_alloc : frames.

Section frames_used.
Context `{L : Layout}.

Lemma uses_get_or_create t i h : uses 1 (get_or_create_table_user t i h).
Proof.
  unfold get_or_create_table_user. apply (uses_bind 0 1); [apply uses_get|]. intros e.
  destruct (negb _).
  - apply (uses_bind 1 0); [apply uses_alloc|]. intros [p|]; [|apply uses_ret].
    apply (uses_bind 0 0); [apply uses_lift|]. intros v. apply (uses_bind 0 0); [apply uses_machine|]. intros _.
    apply (uses_bind 0 0); [apply uses_machine|]. intros _. apply uses_ret.
  - apply (uses_mono 0); [|lia]. apply (uses_bind 0 0); [apply uses_machine|]. intros _. apply uses_ret.
Qed.

Lemma uses_next_table {A} n t i h (cont : N -> K (result unit A)) :
  (forall c, uses n (cont c)) -> uses (1 + n) (next_table get_or_create_table_user t i h cont).
Proof.
  intros Hc. unfold next_table. apply uses_bind; [apply uses_get_or_create|]. intros [c|e].
  - apply (uses_bind 0 n); [apply uses_lift|done].
  - apply (uses_mono 0); [apply uses_ret|lia].
Qed.

Lemma uses_map_page root v p w : uses 3 (map_page_user_into root v p w).
Proof.
  unfold map_page_user_into. destruct hhdm_response as [h|]; [|apply (uses_mono 0); [apply uses_ret|lia]].
  apply (uses_bind 0 3); [apply uses_lift|]. intros t. apply (uses_next_table 2); intros ?.
  apply (uses_next_table 1); intros ?. apply (uses_next_table 0); intros ?.
  apply (uses_bind 0 0); [apply uses_machine|]. intros _. apply uses_ret.
Qed.

Lemma uses_kfor {I S} (l : list I) (body : I -> S -> K S) s : (forall i s, uses 0 (body i s)) -> uses 0 (kfor l body s).
Proof.
  intros Hb. revert s. induction l as [|i l IH]; intros s; [apply uses_ret|]. by apply (uses_bind 0 0).
Qed.

Lemma uses_new_space : uses 1 new_address_space.
Proof.
  unfold new_address_space. apply (uses_bind 1 0); [apply uses_alloc|]. intros [p|]; [|apply uses_ret].
  apply (uses_bind 0 0); [apply uses_lift|]. intros v. apply (uses_bind 0 0); [apply uses_get|]. intros c.
  apply (uses_bind 0 0); [apply uses_lift|]. intros v'. apply (uses_bind 0 0); [apply uses_machine|]. intros _.
  apply (uses_bind 0 0); [|intros; apply uses_ret]. apply uses_kfor. intros i s. apply (uses_bind 0 0); [apply uses_get|].
  intros e. apply uses_machine.
Qed.

(** A [wp] together with a bound on the frames taken. *)
Lemma wp_uses {A} n (m : K A) Q k :
  wp m Q k -> uses n m -> wp m (fun a k' => Q a k' /\ usable_end (k_frames k') = usable_end (k_frames k) /\
    next_free_paddr (k_frames k) <= next_free_paddr (k_frames k') <= next_free_paddr (k_frames k) + 4096 * n) k.
Proof. intros Hw Hu. apply wp_run in Hw as (a & k' & Hr & HQ). apply wp_run. exists a, k'. pose proof (Hu _ _ _ Hr). auto. Qed.

(** ** Other address spaces *)

(** Going from [k] to [k'] leaves every address space whose tables are apart
    from [F], and below the kernel's stacks, as it was, and apart from [F']. *)
Definition keeps_others (h : N) (F F' : gmap N nat) (k k' : Kernel) : Prop :=
  forall root2 F2, F ##ₘ F2 -> (forall t, is_Some (F2 !! t) -> t + h + 4096 <= task_stacks) ->
    space_ok h root2 F2 (k_mem k) (k_frames k) ->
    F' ##ₘ F2 /\ space_ok h root2 F2 (k_mem k') (k_frames k') /\
    forall v, v < 2 ^ 47 -> translate (k_mem k') h root2 v = translate (k_mem k) h root2 v.

Lemma keeps_others_trans h F1 F2 F3 k1 k2 k3 :
  keeps_others h F1 F2 k1 k2 -> keeps_others h F2 F3 k2 k3 -> keeps_others h F1 F3 k1 k3.
Proof.
  intros H12 H23 root2 G Hd Hst Hsp. destruct (H12 root2 G Hd Hst Hsp) as (Hd2 & Hsp2 & Ht2).
  destruct (H23 root2 G Hd2 Hst Hsp2) as (Hd3 & Hsp3 & Ht3). split; [done|]. split; [done|].
  intros v Hv. by rewrite Ht3, Ht2.
Qed.

Lemma created_keeps k root k' :
  created (L := L) k (Some root) k' -> keeps_others hhdm_offset ∅ {[root := 4%nat]} k k'.
Proof.
  intros (_ & _ & _ & _ & _ & Hoth) root2 F2 _ _ Hsp. destruct (Hoth root2 F2 Hsp) as (Hn & Hsp' & Ht).
  split; [|done]. by apply map_disjoint_singleton_l.
Qed.

(** Taking a frame. *)
Definition frame_taken (fa : FrameAllocator) : FrameAllocator :=
  mkFrameAllocator (next_free_paddr fa + 4096) (usable_end fa).

Lemma space_ok_taken h root F m fa :
  next_free_paddr fa < usable_end fa -> space_ok h root F m fa -> space_ok h root F m (frame_taken fa).
Proof.
  intros Hlt [Hinv [Hfw Hmap Hsep]]. split; [done|]. split; cbn; [|done|].
  - destruct Hfw. split; cbn; [by apply page_aligned_add|done|by apply aligned_next_le|done].
  - intros t Ht. destruct (Hsep t Ht); lia.
Qed.

Lemma alloc_spec k :
  frames_wf (k_frames k) -> next_free_paddr (k_frames k) < usable_end (k_frames k) ->
  kallocate_frame k = Ret (Some (next_free_paddr (k_frames k)), set_k_frames (frame_taken (k_frames k)) k).
Proof.
  intros Hfw Hlt. unfold kallocate_frame. rewrite allocate_frame_spec by done. by rewrite (proj2 (N.ltb_lt _ _) Hlt).
Qed.

Lemma taken_keeps h F k :
  next_free_paddr (k_frames k) < usable_end (k_frames k) ->
  keeps_others h F F k (set_k_frames (frame_taken (k_frames k)) k).
Proof. intros Hlt root2 F2 Hd _ Hsp. split; [done|]. split; [by apply space_ok_taken|done]. Qed.

Lemma mapped_keeps h root F v p w k r k' :
  mapped h root F v p w k r k' ->
  exists F', space_ok h root F' (k_mem k') (k_frames k') /\ keeps_others h F F' k k' /\
    forall t, F !! t = None -> not_free (k_frames k) t -> F' !! t = None.
Proof.
  intros (F' & m' & fa' & -> & Hsp & Hcf & Hue & Hnew & _). exists F'. split; [done|]. split; [|done].
  intros root2 F2 Hd _ Hsp2. split.
  - apply map_disjoint_spec. intros t l l2 Hl Hl2. assert (F !! t = None) as Hn by by eapply map_disjoint_Some_r.
    rewrite (Hnew t Hn) in Hl; [done|]. apply (fs_sep _ _ _ (proj2 Hsp2)). eauto.
  - eapply confined_isolates; [done|apply (proj2 Hsp)|done|done|done].
Qed.
End frames_used.

(** ** Loading a program *)

Lemma phys_store_outside bs p m q : q < p \/ p + lenN bs <= q -> phys_store p bs m !! q = m !! q.
Proof.
  revert p m. induction bs as [|b bs IH]; intros p m Hq; [done|].
  assert (lenN (b :: bs) = 1 + lenN bs) as Hl by (unfold lenN; simpl; lia). cbn [phys_store].
  rewrite IH by lia. apply lookup_insert_ne. lia.
Qed.

Lemma phys_store_inside bs p m i b : idx bs i = Some b -> phys_store p bs m !! (p + i) = Some b.
Proof.
  revert p m i. induction bs as [|c bs IH]; intros p m i Hi; [apply idx_lt in Hi; unfold lenN in Hi; simpl in Hi; lia|].
  cbn [phys_store]. destruct (decide (i = 0)) as [->|Hne].
  - injection Hi as ->. rewrite N.add_0_r, phys_store_outside by lia. apply lookup_insert_eq.
  - replace (p + i) with (p + 1 + (i - 1)) by lia. apply IH. rewrite idx_lookup in *.
    by replace (N.to_nat i) with (S (N.to_nat (i - 1))) in Hi by lia.
Qed.

Section loading.
Context `{L : Layout}.

(** Writes to the kernel's stacks concern no address space below them. *)
Lemma stack_write_keeps h root F m m' fa :
  (forall a, a < task_stacks -> mem_rd m' a = mem_rd m a) ->
  (forall t, is_Some (F !! t) -> t + h + 4096 <= task_stacks) -> space_ok h root F m fa ->
  space_ok h root F m' fa /\ forall v, v < 2 ^ 47 -> translate m' h root v = translate m h root v.
Proof.
  intros Hm Hb [Hinv Hsep].
  assert (forall t l i, F !! t = Some l -> i < 512 -> entry_at m' h t i = entry_at m h t i) as He.
  { intros t l i Ht Hi. apply Hm. pose proof (Hb t ltac:(eauto)). lia. }
  split; [split; [by eapply pt_inv_local|done]|]. intros v Hv. unfold translate.
  erewrite walk_local; [done|done|exact He|apply Hinv|by apply indices_good].
Qed.

Lemma user_frame_below m id e u a :
  a < task_stacks -> mem_rd (mem_pushes m (stack_hi id) (user_frame e u)) a = mem_rd m a.
Proof.
  intros Ha. assert (lenN (user_frame e u) = 13) as Hl by done. assert (STACK_SIZE = 32768) as HS by done.
  apply mem_pushes_outside; rewrite Hl; unfold stack_hi, stack_lo; lia.
Qed.

(** What [spawn_user] leaves behind. *)
Definition user_spawned (h : N) (k : Kernel) (id : TaskId) (blob : list N) (ct : CapTable) (t : Task)
    (k' : Kernel) : Prop :=
  exists root F code stack,
    t = mkTask id Ready (stack_hi id - 104) (stack_hi id) root ct None MessageQueue_new None /\
    k' = set_k_user (k_user k') (set_page_state (k_mem k') (k_frames k') (set_k_tasks_spawned (k_tasks_spawned k') k)) /\
    space_ok h root F (k_mem k') (k_frames k') /\
    (forall v, v < 2 ^ 47 -> translate (k_mem k') h root v =
       if decide (v / 4096 = USER_STACK_VADDR / 4096) then Some (stack, true, true)
       else if decide (v / 4096 = USER_CODE_VADDR / 4096) then Some (code, true, true)
       else None) /\
    code <> stack /\
    (forall f, f = code \/ f = stack ->
       page_aligned f /\ F !! f = None /\ ~ not_free (k_frames k) f /\ not_free (k_frames k') f) /\
    (forall i b, idx blob i = Some b -> k_user k' !! (code + i) = Some b) /\
    (forall p, p < code \/ code + 4096 <= p -> k_user k' !! p = k_user k !! p) /\
    keeps_others h ∅ F k k' /\
    (forall a, is_Some (F !! a) -> a + 4096 <= usable_end (k_frames k)).

(** The two frames taken for code and stack. *)
Lemma frame_of_aligned p : page_aligned p -> p < 2 ^ 52 -> frame_of p = p.
Proof. intros Ha Hlt. rewrite <- (N.lor_0_r p) at 1. by apply frame_of_flags. Qed.

Lemma map_page_wp k h root F v p :
  hhdm_response = Some h -> space_ok h root F (k_mem k) (k_frames k) -> v < 2 ^ 47 ->
  page_aligned p -> p < 2 ^ 52 ->
  next_free_paddr (k_frames k) + 3 * 4096 < usable_end (k_frames k) ->
  wp (map_page_user_into root v p true) (fun r k' =>
    r = Ok tt /\ (exists F', space_ok h root F' (k_mem k') (k_frames k') /\ keeps_others h F F' k k' /\
      forall t, F !! t = None -> not_free (k_frames k) t -> F' !! t = None) /\
    (exists m' fa', k' = set_page_state m' fa' k) /\
    (forall t, not_free (k_frames k) t -> not_free (k_frames k') t) /\
    usable_end (k_frames k') = usable_end (k_frames k) /\
    next_free_paddr (k_frames k') <= next_free_paddr (k_frames k) + 3 * 4096 /\
    forall v', v' < 2 ^ 47 -> translate (k_mem k') h root v' =
      if decide (v' / 4096 = v / 4096) then Some (p, true, true) else translate (k_mem k) h root v') k.
Proof.
  intros Hh Hsp Hv Hpa Hp Hroom. eapply wp_mono; [apply (wp_uses 3); [by eapply map_page_user_spec|apply uses_map_page]|].
  cbv beta. intros r k' (Hm & Hue & Hnf). pose proof (mapped_keeps _ _ _ _ _ _ _ _ _ Hm) as HF'.
  destruct Hm as (F' & m' & fa' & -> & Hsp' & [_ Hfree] & _ & _ & Hr). destruct r as [[]|e].
  - split; [done|]. split; [done|]. split; [by eexists _, _|]. split; [done|]. split; [done|]. split; [apply Hnf|].
    intros v' Hv'. change (k_mem (set_page_state m' fa' k)) with m'. rewrite Hr by done. by rewrite frame_of_aligned.
  - exfalso. destruct Hr as [Hfull _].
    change (k_frames (set_page_state m' fa' k)) with fa' in *. lia.
Qed.

(** Taking a frame for a page. *)
Lemma take_frame_wp {A} k h F (f : N -> K A) Q :
  frames_wf (k_frames k) -> next_free_paddr (k_frames k) < usable_end (k_frames k) ->
  (keeps_others h F F k (set_k_frames (frame_taken (k_frames k)) k) ->
   wp (f (next_free_paddr (k_frames k))) Q (set_k_frames (frame_taken (k_frames k)) k)) ->
  wp (let* o := kallocate_frame in let* p := klift (expect_some o) in f p) Q k.
Proof.
  intros Hfw Hlt Hk. apply wp_kbind. unfold wp at 1. rewrite alloc_spec by done.
  apply wp_kbind. eapply wp_klift; [done|]. by apply Hk, taken_keeps.
Qed.

(** The state of the address space [root] while it is being built. *)
Record building (h : N) (k0 : Kernel) (root : N) (F : gmap N nat) (k : Kernel) : Prop := {
  bd_space : space_ok h root F (k_mem k) (k_frames k);
  bd_keeps : keeps_others h ∅ F k0 k;
  bd_tables : forall t, is_Some (F !! t) -> ~ not_free (k_frames k0) t;
  bd_free : forall t, not_free (k_frames k0) t -> not_free (k_frames k) t;
  bd_end : usable_end (k_frames k) = usable_end (k_frames k0);
  bd_rest : k = set_page_state (k_mem k) (k_frames k) k0
}.

Lemma building_created h k root k' :
  hhdm_offset = h -> created (L := L) k (Some root) k' -> usable_end (k_frames k') = usable_end (k_frames k) ->
  next_free_paddr (k_frames k) <= next_free_paddr (k_frames k') ->
  building h k root {[root := 4%nat]} k'.
Proof.
  intros <- Hcr Hue Hn. pose proof (created_keeps _ _ _ Hcr) as Hk. destruct Hcr as (Hst & Hfr & Hsp & _).
  split; [done|done| | |done|done].
  - by intros t [l [<- _]%lookup_singleton_Some].
  - intros t. unfold not_free. lia.
Qed.

Lemma building_taken h k0 root F k :
  next_free_paddr (k_frames k) < usable_end (k_frames k) -> building h k0 root F k ->
  building h k0 root F (set_k_frames (frame_taken (k_frames k)) k).
Proof.
  intros Hlt [Hsp Hk Ht Hf He Hr]. split; [by apply space_ok_taken| |done| |done|by rewrite Hr].
  - by eapply keeps_others_trans, taken_keeps.
  - intros t Hnf%Hf. unfold not_free in *. cbn. lia.
Qed.

Lemma building_mapped h k0 root F F' m' fa' k :
  building h k0 root F k -> space_ok h root F' m' fa' ->
  keeps_others h F F' k (set_page_state m' fa' k) ->
  (forall t, F !! t = None -> not_free (k_frames k) t -> F' !! t = None) ->
  (forall t, not_free (k_frames k) t -> not_free fa' t) -> usable_end fa' = usable_end (k_frames k) ->
  building h k0 root F' (set_page_state m' fa' k).
Proof.
  intros [Hsp Hk Ht Hf He Hr] Hsp' Hk' Hnew Hfree Hue. split; [done|by eapply keeps_others_trans| | | |by rewrite Hr].
  - intros t Ht' Hnf. destruct (F !! t) eqn:HFt; [by apply (Ht t); eauto|].
    rewrite (Hnew t HFt (Hf t Hnf)) in Ht'. by destruct Ht'.
  - auto.
  - by rewrite <- He.
Qed.

(** Tables come from below the end of the usable region. *)
Lemma building_below h k0 root F k t :
  building h k0 root F k -> frames_wf (k_frames k0) -> is_Some (F !! t) -> t + 4096 <= usable_end (k_frames k0).
Proof.
  intros Hb Hfw Ht. pose proof (bd_tables _ _ _ _ _ Hb t Ht) as Hnf. destruct Ht as [l Ht].
  destruct (pi_frame _ _ _ _ (proj1 (bd_space _ _ _ _ _ Hb)) t l Ht) as (Ha & _).
  apply aligned_next_le; [done|apply Hfw|]. unfold not_free in Hnf. lia.
Qed.

(** The last steps of [spawn_user]: the copy and the control block. *)
Lemma start_program_wp h k0 root F k id blob ct code stack :
  hhdm_offset = h -> stacks_fit -> id < MAX_TASKS -> lenN blob <= 4096 -> frames_wf (k_frames k0) ->
  usable_end (k_frames k0) + h <= task_stacks -> building h k0 root F k -> code + h < u64_limit -> code <> stack ->
  (forall f, f = code \/ f = stack ->
     page_aligned f /\ F !! f = None /\ ~ not_free (k_frames k0) f /\ not_free (k_frames k) f) ->
  (forall v, v < 2 ^ 47 -> translate (k_mem k) h root v =
     if decide (v / 4096 = USER_STACK_VADDR / 4096) then Some (stack, true, true)
     else if decide (v / 4096 = USER_CODE_VADDR / 4096) then Some (code, true, true) else None) ->
  wp (let* dst := klift (add64 code hhdm_offset) in
      do* kmod (fun k => set_k_user (phys_store (dst - hhdm_offset) blob (k_user k)) k) in
      Task_new_user id USER_CODE_VADDR USER_STACK_TOP root ct) (user_spawned h k0 id blob ct) k.
Proof.
  intros Hoff Hfit Hid Hlen Hfw Hst Hb Hch Hne Hfr Htr. apply wp_kbind. rewrite Hoff.
  eapply wp_klift; [by apply add64_ok|]. apply wp_kbind, wp_kmod. rewrite N.add_sub. unfold wp.
  rewrite Task_new_user_spec by done.
  assert (forall t, is_Some (F !! t) -> t + h + 4096 <= task_stacks) as Hlow.
  { intros t Ht. pose proof (building_below _ _ _ _ _ _ Hb Hfw Ht). lia. }
  pose proof (bd_rest _ _ _ _ _ Hb) as Hrest. assert (k_user k = k_user k0) as Hu by (by rewrite Hrest).
  set (m' := mem_pushes (k_mem k) (stack_hi id) (user_frame USER_CODE_VADDR USER_STACK_TOP)).
  assert (forall a, a < task_stacks -> mem_rd m' a = mem_rd (k_mem k) a) as Hm by (intros; by apply user_frame_below).
  destruct (stack_write_keeps h root F (k_mem k) m' (k_frames k) Hm Hlow (bd_space _ _ _ _ _ Hb)) as [Hsp' Htr'].
  exists root, F, code, stack. split; [done|]. split; [by rewrite Hrest|]. split; [done|].
  split; [intros v Hv; rewrite <- Htr by done; by apply Htr'|]. split; [done|]. split; [done|].
  split; [intros i b Hi; by apply phys_store_inside|]. split.
  { intros p Hp. rewrite <- Hu. apply phys_store_outside. lia. }
  split; [|intros a Ha; by eapply building_below].
  eapply keeps_others_trans; [apply Hb|]. intros root2 F2 Hd Hlow2 Hsp2. split; [done|].
  by apply stack_write_keeps.
Qed.

(** The two mappings of [spawn_user], for frames [code] and [code + 4096]. *)
Lemma map_program_wp h k0 root k id blob ct code :
  hhdm_response = Some h -> stacks_fit -> id < MAX_TASKS -> lenN blob <= 4096 -> frames_sep h ∅ (k_frames k0) ->
  usable_end (k_frames k0) + h <= task_stacks -> building h k0 root {[root := 4%nat]} k ->
  (forall v, v < 2 ^ 47 -> translate (k_mem k) h root v = None) ->
  page_aligned code -> next_free_paddr (k_frames k0) <= code -> next_free_paddr (k_frames k) = code + 8192 ->
  root + 4096 <= code \/ usable_end (k_frames k0) <= root -> code + 8 * 4096 < usable_end (k_frames k0) ->
  wp (let* r := map_page_user_into root USER_CODE_VADDR code true in
      do* klift (expect_ok r) in
      let* r := map_page_user_into root USER_STACK_VADDR (code + 4096) true in
      do* klift (expect_ok r) in
      let* dst := klift (add64 code hhdm_offset) in
      do* kmod (fun k => set_k_user (phys_store (dst - hhdm_offset) blob (k_user k)) k) in
      Task_new_user id USER_CODE_VADDR USER_STACK_TOP root ct) (user_spawned h k0 id blob ct) k.
Proof.
  intros Hh Hfit Hid Hlen [Hfw [Hm52 Hmh] _] Hst Hb Htr Hca Hc0 Hnext Hrc Hroom.
  assert (hhdm_offset = h) as Hoff by (unfold hhdm_offset; by rewrite Hh).
  pose proof (bd_end _ _ _ _ _ Hb) as He. apply wp_kbind. eapply wp_mono.
  { apply (map_page_wp k h root {[root := 4%nat]}); [done|apply Hb|done|done|lia|lia]. }
  cbv beta. intros r k4 (-> & (F4 & Hsp4 & Hk4 & Hnew4) & (m4 & fa4 & ->) & Hfree4 & Hue4 & Hn4 & Htr4).
  pose proof (building_mapped _ _ _ _ _ _ _ _ Hb Hsp4 Hk4 Hnew4 Hfree4 Hue4) as Hb4.
  set (k4 := set_page_state m4 fa4 k) in *. apply wp_kbind. eapply wp_klift; [done|].
  apply wp_kbind. eapply wp_mono.
  { apply (map_page_wp k4 h root F4); [done|apply Hb4|done|by apply page_aligned_add|lia|lia]. }
  cbv beta. intros r k5 (-> & (F5 & Hsp5 & Hk5 & Hnew5) & (m5 & fa5 & ->) & Hfree5 & Hue5 & Hn5 & Htr5).
  pose proof (building_mapped _ _ _ _ _ _ _ _ Hb4 Hsp5 Hk5 Hnew5 Hfree5 Hue5) as Hb5.
  apply wp_kbind. eapply wp_klift; [done|].
  eapply (start_program_wp h k0 root F5 _ id blob ct code (code + 4096)); try done; [lia|lia| |].
  - intros f Hf. assert (page_aligned f) as Hfa by (destruct Hf as [->| ->]; [done|by apply page_aligned_add]).
    assert (not_free (k_frames k) f) as Hnf by (unfold not_free; destruct Hf as [->| ->]; lia).
    assert (F4 !! f = None) as HF4.
    { apply Hnew4; [|done]. apply lookup_singleton_None. destruct Hf as [->| ->]; lia. }
    split; [done|]. split; [apply Hnew5; [done|by apply Hfree4]|].
    split; [unfold not_free; destruct Hf as [->| ->]; lia|by apply Hfree5, Hfree4].
  - intros v Hv. rewrite Htr5 by done. destruct (decide _) as [|_]; [done|]. rewrite Htr4 by done.
    by rewrite Htr.
Qed.

Lemma spawn_user_spec k h id blob ct :
  hhdm_response = Some h -> stacks_fit -> id < MAX_TASKS -> lenN blob <= 4096 ->
  frames_sep h ∅ (k_frames k) -> not_free (k_frames k) (current_pml4_paddr (k_cpu k)) ->
  current_pml4_paddr (k_cpu k) + h + 4096 <= u64_limit ->
  next_free_paddr (k_frames k) + 9 * 4096 < usable_end (k_frames k) ->
  usable_end (k_frames k) + h <= task_stacks ->
  wp (spawn_user id blob ct) (user_spawned h k id blob ct) k.
Proof.
  intros Hh Hfit Hid Hlen Hsep Hcur Hcurh Hroom Hst. assert (hhdm_offset = h) as Hoff by (unfold hhdm_offset; by rewrite Hh).
  pose proof Hsep as [Hfw0 [Hm52 Hmh] _]. unfold spawn_user. apply wp_kbind. eapply wp_mono.
  { apply (wp_uses 1); [apply new_address_space_spec; by rewrite ?Hoff|apply uses_new_space]. }
  cbv beta. intros o k1 (Hcr & Hu1 & Hn1). destruct o as [root|]; [|destruct Hcr as [-> ?]; lia].
  pose proof (building_created h k root k1 Hoff Hcr Hu1 ltac:(lia)) as Hb1.
  destruct Hcr as (_ & _ & _ & Ht1 & _). rewrite Hoff in Ht1. apply wp_kbind. eapply wp_klift; [done|].
  assert (frames_wf (k_frames k1)) as Hfw1 by apply (bd_space _ _ _ _ _ Hb1).
  apply (take_frame_wp _ h {[root := 4%nat]}); [done|lia|]. intros _.
  set (code := next_free_paddr (k_frames k1)). set (k2 := set_k_frames (frame_taken (k_frames k1)) k1).
  assert (building h k root {[root := 4%nat]} k2) as Hb2 by (apply building_taken; [lia|done]).
  assert (next_free_paddr (k_frames k2) = code + 4096) as Hn2 by done.
  assert (usable_end (k_frames k2) = usable_end (k_frames k)) as Hu2 by done.
  assert (frames_wf (k_frames k2)) as Hfw2 by apply (bd_space _ _ _ _ _ Hb2).
  apply (take_frame_wp _ h {[root := 4%nat]}); [done|unfold code in *; lia|]. intros _. rewrite Hn2.
  set (k3 := set_k_frames (frame_taken (k_frames k2)) k2).
  assert (building h k root {[root := 4%nat]} k3) as Hb3 by (apply building_taken; [unfold code in *; lia|done]).
  assert (next_free_paddr (k_frames k3) = code + 8192) as Hn3 by (unfold k3; cbn; unfold code; lia).
  assert (page_aligned code) as Hca by apply Hfw1.
  assert (code <= next_free_paddr (k_frames k) + 4096) as Hcode by (unfold code; lia).
  assert (next_free_paddr (k_frames k) <= code) as Hcode' by (unfold code; lia).
  assert (root + 4096 <= code \/ usable_end (k_frames k) <= root) as Hrc.
  { rewrite <- Hu1. apply (fs_sep _ _ _ (proj2 (bd_space _ _ _ _ _ Hb1))). by eexists; apply lookup_singleton_Some. }
  eapply map_program_wp; try done. lia.
Qed.

(** C27: A user task starts isolated.  With ten frames left, [spawn_user] returns a
    task whose address space satisfies the paging invariant and maps exactly
    two pages of the user half, the code and the stack page, to two distinct
    frames that were free before and hold no table.  The code frame holds the
    program from its first byte, no byte outside it has changed, and every
    other address space translates as before. *)
Theorem spawn_user_isolated k h id blob ct :
  hhdm_response = Some h -> stacks_fit -> id < MAX_TASKS -> lenN blob <= 4096 ->
  frames_sep h ∅ (k_frames k) -> not_free (k_frames k) (current_pml4_paddr (k_cpu k)) ->
  current_pml4_paddr (k_cpu k) + h + 4096 <= u64_limit ->
  next_free_paddr (k_frames k) + 9 * 4096 < usable_end (k_frames k) ->
  usable_end (k_frames k) + h <= task_stacks ->
  exists t k', spawn_user id blob ct k = Ret (t, k') /\ user_spawned h k id blob ct t k'.
Proof. intros. apply wp_run. by apply spawn_user_spec. Qed.
End loading.

Lemma spawn_user_isolated_witness :
  exists t k', spawn_user (L := example_layout) 4 [0xeb; 0xfe] CapTable_new example_space = Ret (t, k') /\
    user_spawned (L := example_layout) 0xffff800000000000 example_space 4 [0xeb; 0xfe] CapTable_new t k'.
Proof.
  apply (spawn_user_isolated (L := example_layout)); try reflexivity; try (vm_compute; discriminate).
  - apply example_stacks_fit.
  - apply example_frames. by intros t [l ?].
  - left. vm_compute. discriminate.
Defined.

(** Programs used in the examples: an endless jump to itself, or nothing. *)
Definition example_blobs : Blobs := {|
  user_blob := [0xeb; 0xfe]; logger_blob := [0xeb; 0xfe]; faulty_user_blob := []; async_sender_blob := [];
  async_receiver_blob := []; ramfs_blob := [0xeb; 0xfe]; init_blob := []; preempt_user_blob := [0xeb; 0xfe]
|}.
