(* ===== verification/Syscall.v ===== *)
(** * System calls

    Models the request side of [kernel/syscall/mod.rs]: the decoding of a
    register frame into a [KernelRequest] with the validation of its user
    pointers, the dispatcher, the capability-gated serial output and the
    creation of tasks on behalf of [init].  Blocking requests pause in [R]. *)

From S2P Require Import Text.
From S2P Require Import Prelude Ring Preempt Trace Capability AuditTrail Message Machine Frames.
From S2P Require Import Task Scheduler Kernel Switch Scheduling Spawn Contexts Entry Ipc Authority.
From S2P Require Import Paging AddressSpace UserMemory Userspace.
Local Open Scope N_scope.

Definition SYS_DEBUG : N := 0.
Definition SYS_YIELD : N := 1.
Definition SYS_SEND : N := 2.
Definition SYS_RECEIVE : N := 3.
Definition SYS_SERIAL_WRITE : N := 4.
Definition SYS_CAP_GRANT : N := 5.
Definition SYS_SEND_TYPED : N := 6.
Definition SYS_CAP_REVOKE : N := 7.
Definition SYS_SEND_ASYNC : N := 8.
Definition SYS_RECEIVE_ASYNC : N := 9.
Definition SYS_SPAWN_TASK : N := 10.

Inductive KernelRequest : Type :=
| RDebug
| RYield
| RSend (cap_idx : N) (payload : list N)
| RReceive (buf cap : N)
| RSerialWrite (cap_idx : N) (bytes : list N)
| RCapGrant (src_cap_idx target_task : N) (rights : RightsMask)
| RSendTyped (cap_idx tag version : N) (payload : list N)
| RCapRevoke (target_task cap_idx : N)
| RSendAsync (cap_idx tag version : N) (payload : list N)
| RReceiveAsync (buf cap : N)
| RSpawnTask (blob_type : N)
| RUnknown (n : N).

Section syscall.
Context `{L : Layout}.

(** ** Decoding *)

(** The arms that take a slice: [make] if the length is within [limit] and the
    range is readable, else [Unknown]. *)
Definition with_slice (rax ptr len limit : N) (make : list N -> KernelRequest) : K KernelRequest :=
  if len <=? limit then
    let* r := validate_user_range ptr len false in
    if is_ok r then let* bytes := from_raw_parts ptr len in kret (make bytes)
    else kret (RUnknown rax)
  else kret (RUnknown rax).

(** The arms that take a buffer to write to. *)
Definition with_buffer (rax buf cap : N) (make : N -> N -> KernelRequest) : K KernelRequest :=
  let check_len := N.min cap 128 in
  let* r := validate_user_range buf check_len true in
  kret (if is_ok r then make buf cap else RUnknown rax).

Definition rights_of_bits (bits : N) : RightsMask :=
  mkRights (negb (N.land bits 0x1 =? 0)) (negb (N.land bits 0x2 =? 0)) (negb (N.land bits 0x4 =? 0)).

Definition parse_request (frame : SyscallFrame) : K KernelRequest :=
  let rax := sf_rax frame in
  if rax =? SYS_DEBUG then kret RDebug
  else if rax =? SYS_YIELD then kret RYield
  else if rax =? SYS_SEND then
    with_slice rax (sf_rsi frame) (sf_rdx frame) 128 (RSend (sf_rdi frame))
  else if rax =? SYS_RECEIVE then with_buffer rax (sf_rsi frame) (sf_rdx frame) RReceive
  else if rax =? SYS_SERIAL_WRITE then
    with_slice rax (sf_rsi frame) (sf_rdx frame) 4096 (RSerialWrite (sf_rdi frame))
  else if rax =? SYS_CAP_GRANT then
    kret (RCapGrant (sf_rdi frame) (sf_rsi frame) (rights_of_bits (sf_rdx frame mod 256)))
  else if rax =? SYS_SEND_TYPED then
    with_slice rax (sf_rsi frame) (sf_r8 frame) 128
      (RSendTyped (sf_rdi frame) (N.land (sf_rdx frame) 0xFFFF)
         (N.land (N.shiftr (sf_rdx frame) 16) 0xFFFF))
  else if rax =? SYS_CAP_REVOKE then kret (RCapRevoke (sf_rdi frame) (sf_rsi frame))
  else if rax =? SYS_SEND_ASYNC then
    with_slice rax (sf_rsi frame) (sf_r8 frame) 128
      (RSendAsync (sf_rdi frame) (N.land (sf_rdx frame) 0xFFFF)
         (N.land (N.shiftr (sf_rdx frame) 16) 0xFFFF))
  else if rax =? SYS_RECEIVE_ASYNC then with_buffer rax (sf_rsi frame) (sf_rdx frame) RReceiveAsync
  else if rax =? SYS_SPAWN_TASK then kret (RSpawnTask (sf_rdi frame))
  else kret (RUnknown rax).

(** ** Serial output *)

(** [print!("{}", s)]. *)
Definition kprint (bytes : list N) : K unit := kmod (fun k => set_k_console (k_console k ++ bytes) k).

Definition current_has_serial_cap (cap_idx : N) : K bool :=
  do* lock_sched in
  let* o := kget (fun k => s_current_task_id (k_sched k)) in
  let* b :=
    match o with
    | None => kret false
    | Some id =>
        let* ot := kget_task id in
        match ot with
        | None => kret false
        | Some task =>
            let* oc := kcap_get task cap_idx in
            kret match oc with Some cap => bool_decide (cap_resource cap = Serial) | None => false end
        end
    end in
  do* unlock_sched in
  kret b.

Definition sys_serial_write (cap_idx : N) (message : list N) : K (result unit unit) :=
  do* lock_sched in
  let* o := kget (fun k => s_current_task_id (k_sched k)) in
  do* unlock_sched in
  match o with
  | None => kret (Err tt)
  | Some current_task_id =>
      do* lock_sched in
      let* ot := kget_task current_task_id in
      let* has_access :=
        match ot with
        | None => kret false
        | Some task =>
            let* oc := kcap_get task cap_idx in
            kret match oc with Some cap => bool_decide (cap_resource cap = Serial) | None => false end
        end in
      do* unlock_sched in
      if (has_access : bool) then do* kprint message in kret (Ok tt) else kret (Err tt)
  end.

(** ** Task creation *)

Context `{B : Blobs}.

Definition free_slot (s : Scheduler) : option N :=
  find_first (fun i => is_none (task_slot s i)) (rangeN 2 130).

Definition spawn_blob (blob_type : N) (id : TaskId) : K (option Task) :=
  match blob_type with
  | 1 => let* t := spawn_logger_task id CapTable_new in kret (Some t)
  | 2 => let* t := spawn_demo_user_task id CapTable_new in kret (Some t)
  | 3 => let* t := spawn_ramfs_task id CapTable_new in kret (Some t)
  | _ => kret None
  end.

(** The root channel to a new task, minted for [init]. *)
Definition init_channel (id : TaskId) : Capability := mkCap (IpcChannel id) true true true false 0 None.

Definition dispatch_spawn_task (blob_type : N) : K N :=
  do* lock_sched in
  let* next_id := kget (fun k => free_slot (k_sched k)) in
  let* r :=
    match next_id with
    | None => kret SYS_ERR
    | Some id =>
        let* o := spawn_blob blob_type id in
        match o with
        | None => kret SYS_ERR
        | Some new_task =>
            do* kmod (on_sched (put_slot id (Some new_task))) in
            let* oi := kget_task 1 in
            match oi with
            | Some init_task =>
                let* ins := kcaps 1 init_task (fun ct => CapTable_insert ct (init_channel id)) in
                match ins with
                | Ok _ => kret id
                | Err _ => do* kmod (on_sched (put_slot id None)) in kret SYS_ERR
                end
            | None => do* kmod (on_sched (put_slot id None)) in kret SYS_ERR
            end
        end
    end in
  do* unlock_sched in
  kret r.

(** ** Dispatch *)

Definition set_sf_rax (v : N) (f : SyscallFrame) : SyscallFrame :=
  mkSyscallFrame v (sf_rbx f) (sf_rcx f) (sf_rdx f) (sf_rsi f) (sf_rdi f) (sf_rbp f) (sf_r8 f) (sf_r9 f)
    (sf_r10 f) (sf_r11 f) (sf_r12 f) (sf_r13 f) (sf_r14 f) (sf_r15 f).

(** Copying a received message to the caller's buffer. *)
Definition copy_out (msg : Message) (buf cap : N) : K N :=
  let n := N.min (msg_len msg) cap in
  let* r := validate_user_range buf n true in
  if is_ok r then
    do* store_bytes buf (take (N.to_nat n) (msg_payload msg)) in kret n
  else kret SYS_ERR.

(** The arms that finish without giving up the processor. *)
Definition handle_serial_write (cap_idx : N) (bytes : list N) : K N :=
  let* has := current_has_serial_cap cap_idx in
  if (has : bool) then
    do* (if utf8_valid bytes then kprint bytes else kret tt) in kret 0
  else kret SYS_ERR.

Definition handle_send_async (cap_idx tag version : N) (payload : list N) : K N :=
  let* r := sys_send_async cap_idx tag version payload in
  kret match r with
       | Ok _ => 0
       | Err QueueFull => SYS_ERR - 7
       | Err _ => SYS_ERR
       end.

Definition handle_receive_async (buf cap : N) : K N :=
  let* r := sys_receive_async in
  match r with
  | Ok msg => copy_out msg buf cap
  | Err NoMessage => kret (SYS_ERR - 8)
  | Err _ => kret SYS_ERR
  end.

Definition handle_spawn (task_id blob_type : N) : K N :=
  if task_id =? 1 then dispatch_spawn_task blob_type else kret SYS_ERR.

(** The value for [rax]. *)
Definition handle_request (fuel : nat) (task_id : N) (req : KernelRequest) : R N :=
  match req with
  | RDebug => rret 0
  | RYield => let+ _ := yield_cpu in rret 0
  | RSend cap_idx payload =>
      let+ r := sys_send fuel cap_idx payload in
      rret match r with Ok _ => 0 | Err _ => SYS_ERR end
  | RReceive buf cap =>
      let+ r := sys_receive fuel in
      match r with
      | Ok msg => rlift (copy_out msg buf cap)
      | Err _ => rret SYS_ERR
      end
  | RSerialWrite cap_idx bytes => rlift (handle_serial_write cap_idx bytes)
  | RCapGrant src target rights => rlift (dispatch_cap_grant task_id src target rights)
  | RSendTyped cap_idx tag version payload =>
      let+ r := sys_send_typed fuel cap_idx tag version payload in
      rret match r with Ok _ => 0 | Err _ => SYS_ERR end
  | RSendAsync cap_idx tag version payload => rlift (handle_send_async cap_idx tag version payload)
  | RReceiveAsync buf cap => rlift (handle_receive_async buf cap)
  | RSpawnTask blob_type => rlift (handle_spawn task_id blob_type)
  | RCapRevoke target cap_idx => rlift (dispatch_cap_revoke task_id target cap_idx)
  | RUnknown _ => rret SYS_ERR
  end.

(** [SCHEDULER.lock().current_task_id.map(|t| t.0).unwrap_or(usize::MAX)]. *)
Definition current_or_max : K N :=
  do* lock_sched in
  let* o := kget (fun k => s_current_task_id (k_sched k)) in
  do* unlock_sched in
  kret (default usize_max o).

Definition syscall_dispatch (fuel : nat) (frame : SyscallFrame) : R SyscallFrame :=
  let+ task_id := rlift current_or_max in
  let+ req := rlift (parse_request frame) in
  let+ rax := handle_request fuel task_id req in
  rret (set_sf_rax rax frame).

(** ** The security demonstration *)

Section demo.
Variable scratch_entry : N.

Definition demo_cap : Capability := mkCap Serial true true true false 0 None.

(** [sched.get_task_mut(id).unwrap().cap_table] followed by an operation. *)
Definition kcaps_unwrap {A} (id : TaskId) (op : CapTable -> Ambient -> A * CapTable * Ambient) : K A :=
  let* o := kget_task id in
  match o with Some t => kcaps id t op | None => klift Panic end.

Definition kcap_unwrap (id : TaskId) (slot : N) : K (option Capability) :=
  let* o := kget_task id in
  match o with Some t => kcap_get t slot | None => klift Panic end.

(** [(b_has, c_has)]: whether the grantees still hold their capabilities. *)
Definition security_demo : K (bool * bool) :=
  let A := 120 in let B := 121 in let C := 122 in
  do* lock_sched in
  let* a_caps := fun k => let '(_, ct, a) := CapTable_insert CapTable_new demo_cap (k_amb k) in Ret (ct, set_k_amb a k) in
  let* ta := Task_new A scratch_entry a_caps in
  do* kmod (on_sched (put_slot A (Some ta))) in
  let* tb := Task_new B scratch_entry CapTable_new in
  do* kmod (on_sched (put_slot B (Some tb))) in
  let* tc := Task_new C scratch_entry CapTable_new in
  do* kmod (on_sched (put_slot C (Some tc))) in
  let* oa := kcap_unwrap A 0 in
  let* from_a := klift (expect_some oa) in
  let to_b := with_origin (with_sealed from_a false) (Some (cap_id from_a)) in
  let* rb := kcaps_unwrap B (fun ct => CapTable_insert ct to_b) in
  let* b_slot := klift (expect_ok rb) in
  let* ob := kcap_unwrap B b_slot in
  let* b_cap := klift (expect_some ob) in
  let b_id := cap_id b_cap in
  do* kaudit Grant A B (cap_resource to_b) b_slot in
  let to_c := with_origin to_b (Some b_id) in
  let* rc := kcaps_unwrap C (fun ct => CapTable_insert ct to_c) in
  let* c_slot := klift (expect_ok rc) in
  do* kaudit Grant B C (cap_resource to_c) c_slot in
  let* revoked := kcaps_unwrap A (fun ct => CapTable_kernel_revoke ct 0) in
  do* (match revoked with
       | Some cap => do* kaudit Revoke KERNEL_ACTOR A (cap_resource cap) 0 in propagate_revocation (cap_id cap)
       | None => kret tt
       end) in
  let* ob' := kcap_unwrap B b_slot in
  let* oc' := kcap_unwrap C c_slot in
  do* kmod (on_sched (put_slot A None)) in
  do* kmod (on_sched (put_slot B None)) in
  do* kmod (on_sched (put_slot C None)) in
  do* unlock_sched in
  kret (is_some ob', is_some oc').
End demo.
End syscall.
