(* ===== verification/Requests.v ===== *)
(** * Correctness of the system-call interface

    Decoding never touches memory the caller may not access and is exact;
    serial output happens only under a serial capability; a received message is
    copied into the caller's buffer and nowhere else; and [init]'s spawn request
    installs the new task and its channel. *)

From S2P Require Import Text.
From S2P Require Import Prelude Ring Preempt Trace Capability AuditTrail Message Machine Frames.
From S2P Require Import Task Scheduler Kernel Switch Scheduling Spawn Contexts Entry Ipc Authority.
From S2P Require Import Paging AddressSpace UserMemory Userspace Syscall.
Local Open Scope N_scope.

Section requests.
Context `{L : Layout}.

(** The caller may access the whole range (for writing, if [w]). *)
Definition range_ok (k : Kernel) (ptr len : N) (w : bool) : Prop :=
  len = 0 \/ ptr + len <= 2 ^ 47 /\
    forall a, ptr <= a < ptr + len -> access_ok (k_mem k) hhdm_offset (active_root k) a w = true.

(** How an argument given as pointer and length is decoded. *)
Inductive slice_arg (k : Kernel) (rax ptr len limit : N) (make : list N -> KernelRequest)
  : KernelRequest -> Prop :=
| slice_taken bytes :
    len <= limit -> range_ok k ptr len false -> user_bytes k ptr (N.to_nat len) = Some bytes ->
    slice_arg k rax ptr len limit make (make bytes)
| slice_refused :
    ~ (len <= limit /\ range_ok k ptr len false) -> slice_arg k rax ptr len limit make (RUnknown rax).

Inductive buffer_arg (k : Kernel) (rax buf cap : N) (make : N -> N -> KernelRequest) : KernelRequest -> Prop :=
| buffer_taken : range_ok k buf (N.min cap 128) true -> buffer_arg k rax buf cap make (make buf cap)
| buffer_refused : ~ range_ok k buf (N.min cap 128) true -> buffer_arg k rax buf cap make (RUnknown rax).

(** The decoding of a frame. *)
Definition decodes (k : Kernel) (f : SyscallFrame) (req : KernelRequest) : Prop :=
  let rax := sf_rax f in let rdi := sf_rdi f in let rsi := sf_rsi f in let rdx := sf_rdx f in
  match rax with
  | 0 => req = RDebug
  | 1 => req = RYield
  | 2 => slice_arg k rax rsi rdx 128 (RSend rdi) req
  | 3 => buffer_arg k rax rsi rdx RReceive req
  | 4 => slice_arg k rax rsi rdx 4096 (RSerialWrite rdi) req
  | 5 => req = RCapGrant rdi rsi (mkRights (N.testbit rdx 0) (N.testbit rdx 1) (N.testbit rdx 2))
  | 6 => slice_arg k rax rsi (sf_r8 f) 128 (RSendTyped rdi (rdx mod 2 ^ 16) (rdx / 2 ^ 16 mod 2 ^ 16)) req
  | 7 => req = RCapRevoke rdi rsi
  | 8 => slice_arg k rax rsi (sf_r8 f) 128 (RSendAsync rdi (rdx mod 2 ^ 16) (rdx / 2 ^ 16 mod 2 ^ 16)) req
  | 9 => buffer_arg k rax rsi rdx RReceiveAsync req
  | 10 => req = RSpawnTask rdi
  | _ => req = RUnknown rax
  end.

(** Length and limit of the argument of a call that takes a slice. *)
Definition slice_call (f : SyscallFrame) : option (N * N) :=
  match sf_rax f with
  | 2 => Some (sf_rdx f, 128)
  | 4 => Some (sf_rdx f, 4096)
  | 6 | 8 => Some (sf_r8 f, 128)
  | _ => None
  end.

(** A slice that starts at null and passes validation, in practice the empty one. *)
Definition null_slice (k : Kernel) (f : SyscallFrame) : Prop :=
  sf_rsi f = 0 /\ exists len limit, slice_call f = Some (len, limit) /\ len <= limit /\ range_ok k 0 len false.

(** ** Decoding *)

Context (k : Kernel) (F : gmap N nat) (Hinv : pt_inv (k_mem k) hhdm_offset (active_root k) F).

Lemma range_readable ptr len : range_ok k ptr len false -> is_Some (user_bytes k ptr (N.to_nat len)).
Proof.
  intros Hr. apply user_bytes_mapped. intros x Hx. destruct Hr as [->|[_ Hr]]; [lia|].
  destruct (access_ok_mapped k x false (Hr x ltac:(lia))) as (f & w & -> & _). eauto.
Qed.

Lemma validate_decides ptr len w :
  ptr < u64_limit -> len < u64_limit ->
  exists b : bool, validate_user_range ptr len w k = Ret (if b then Ok tt else Err tt, k) /\
    (b = true <-> range_ok k ptr len w).
Proof. intros Hp Hl. by apply (validate_user_range_spec k ptr len w F). Qed.

Lemma with_slice_decodes rax ptr len limit make :
  ptr < u64_limit -> len < u64_limit -> (ptr = 0 -> len <= limit -> ~ range_ok k 0 len false) ->
  wp (with_slice rax ptr len limit make) (fun req k' => k' = k /\ slice_arg k rax ptr len limit make req) k.
Proof.
  intros Hp Hl H0. unfold with_slice. destruct (N.leb_spec len limit) as [Hle|Hgt].
  2: { apply wp_kret. split; [done|]. apply slice_refused. lia. }
  destruct (validate_decides ptr len false Hp Hl) as (b & Hrun & Hb). apply wp_kbind. unfold wp at 1. rewrite Hrun.
  destruct b; cbn [is_ok].
  - pose proof (proj1 Hb eq_refl) as Hok. assert (ptr <> 0) as Hne by (intros ->; by apply H0).
    destruct (range_readable ptr len Hok) as [bytes Hbytes]. apply wp_kbind. unfold wp at 1, from_raw_parts.
    rewrite (proj2 (N.eqb_neq ptr 0) Hne), (load_bytes_spec _ _ _ _ Hbytes). apply wp_kret. split; [done|].
    apply slice_taken; [done|by apply Hb|done].
  - apply wp_kret. split; [done|]. apply slice_refused. intros [_ Hr]. by apply Hb in Hr.
Qed.

Lemma with_slice_null rax len limit make :
  len < u64_limit -> len <= limit -> range_ok k 0 len false -> with_slice rax 0 len limit make k = Panic.
Proof.
  intros Hl Hle Hr. unfold with_slice. rewrite (proj2 (N.leb_le _ _) Hle).
  destruct (validate_decides 0 len false) as (b & Hrun & Hb); [done..|]. unfold kbind at 1. rewrite Hrun. cbn [obind].
  by rewrite (proj2 Hb Hr).
Qed.

Lemma with_buffer_decodes rax buf cap make :
  buf < u64_limit ->
  wp (with_buffer rax buf cap make) (fun req k' => k' = k /\ buffer_arg k rax buf cap make req) k.
Proof.
  intros Hp. unfold with_buffer.
  destruct (validate_decides buf (N.min cap 128) true Hp) as (b & Hrun & Hb); [unfold u64_limit; lia|].
  apply wp_kbind. unfold wp at 1. rewrite Hrun. apply wp_kret. split; [done|]. destruct b; cbn [is_ok].
  - apply buffer_taken. by apply Hb.
  - apply buffer_refused. intros Hr. by apply Hb in Hr.
Qed.

Lemma rights_of_bits_spec rdx :
  rights_of_bits (rdx mod 256) = mkRights (N.testbit rdx 0) (N.testbit rdx 1) (N.testbit rdx 2).
Proof.
  unfold rights_of_bits. change 0x1 with (2 ^ 0). change 0x2 with (2 ^ 1). change 0x4 with (2 ^ 2).
  pose proof (has_flag_bit (rdx mod 256)) as Hb. unfold has_flag in Hb. rewrite !Hb. change 256 with (2 ^ 8).
  by rewrite !N.mod_pow2_bits_low by lia.
Qed.

Lemma parse_request_decodes f :
  sf_rsi f < u64_limit -> sf_rdx f < u64_limit -> sf_r8 f < u64_limit -> ~ null_slice k f ->
  exists req, parse_request f k = Ret (req, k) /\ decodes k f req.
Proof.
  intros Hrsi Hrdx Hr8 H0.
  assert (wp (parse_request f) (fun req k' => k' = k /\ decodes k f req) k) as Hw.
  2: { apply wp_run in Hw as (req & k' & Hrun & -> & Hd). eauto. }
  unfold parse_request, decodes. destruct f as [rax rbx rcx rdx rsi rdi rbp r8 r9 r10 r11 r12 r13 r14 r15].
  cbn [sf_rax sf_rdx sf_rsi sf_rdi sf_r8] in *. rewrite rights_of_bits_spec. change 0xFFFF with (N.ones 16).
  rewrite !N.land_ones, N.shiftr_div_pow2. change (2 ^ 16) with 65536.
  repeat match goal with
  | |- context [rax =? ?c] => destruct (N.eqb_spec rax c) as [->|?];
      [first [apply with_slice_decodes; [done..|]; intros -> Hle Hr; apply H0; split; [done|]; by eexists _, _|by apply with_buffer_decodes|by apply wp_kret]|]
  end.
  apply wp_kret. split; [done|]. destruct rax as [|p]; [done|]. do 4 (destruct p as [p|p|]; try done).
Qed.

Lemma parse_request_null f :
  sf_rdx f < u64_limit -> sf_r8 f < u64_limit -> null_slice k f -> parse_request f k = Panic.
Proof.
  intros Hrdx Hr8 (Hrsi & len & limit & Hc & Hle & Hr). unfold parse_request, slice_call in *.
  destruct f as [rax rbx rcx rdx rsi rdi rbp r8 r9 r10 r11 r12 r13 r14 r15]. cbn [sf_rax sf_rdx sf_rsi sf_rdi sf_r8] in *. subst rsi.
  destruct rax as [|p]; [done|]. do 4 (try (destruct p as [p|p|])); try done; injection Hc as <- <-; by apply with_slice_null.
Qed.

Lemma parse_request_spec f :
  sf_rsi f < u64_limit -> sf_rdx f < u64_limit -> sf_r8 f < u64_limit -> sf_rsi f <> 0 ->
  exists req, parse_request f k = Ret (req, k) /\ decodes k f req.
Proof. intros Hrsi Hrdx Hr8 H0. apply parse_request_decodes; [done..|]. by intros [? _]. Qed.

(** Decoding a request is exact and safe.  In an address space that satisfies
    the paging invariant, decoding any register frame whose pointer argument is
    not null returns without a fault and changes nothing.  A request that takes
    a slice is produced exactly when the length is within its limit and the
    caller may read the whole range, and then carries the caller's bytes; one
    that takes a buffer exactly when the caller may write the part the kernel
    may fill; every other frame decodes to an unknown request. *)
Theorem parse_request_exact f :
  sf_rsi f < u64_limit -> sf_rdx f < u64_limit -> sf_r8 f < u64_limit -> sf_rsi f <> 0 ->
  exists req, parse_request f k = Ret (req, k) /\ decodes k f req.
Proof. apply parse_request_spec. Qed.
End requests.

(** A send of nothing from the null pointer. *)
Definition null_send : SyscallFrame := mkSyscallFrame SYS_SEND 0 0 0 0 0 0 0 0 0 0 0 0 0 0.

(** A null slice stops the kernel.  A user program that asks for a send of
    zero bytes from address zero passes validation, and the kernel panics when
    it forms the slice, whatever the state and whoever asks. *)
Theorem null_slice_panics `{L : Layout} `{B : Blobs} fuel k :
  k_sched_locked k = false -> syscall_dispatch fuel null_send k = Panic.
Proof.
  intros Hl. unfold syscall_dispatch, rbind, rlift, current_or_max, kbind, lock_sched. rewrite Hl. done.
Qed.

Lemma null_slice_panics_witness :
  syscall_dispatch (L := example_layout) (B := example_blobs) 1 null_send Kernel_init = Panic.
Proof. apply (null_slice_panics (L := example_layout) (B := example_blobs)). reflexivity. Defined.

(** ** Serial output *)

Section serial.
Context `{L : Layout}.

(** The running task holds a serial capability in slot [ci]. *)
Definition holds_serial (s : Scheduler) (ci : N) : bool :=
  match s_current_task_id s with
  | Some id =>
      match get_task s id with
      | Some t =>
          match cap_at (t_cap_table t) ci with
          | Some c => bool_decide (cap_resource c = Serial)
          | None => false
          end
      | None => false
      end
  | None => false
  end.

Lemma current_has_serial_cap_spec ci k (Q : bool -> Kernel -> Prop) :
  k_sched_locked k = false ->
  (forall a, traced (k_amb k) a -> Q (holds_serial (k_sched k) ci) (set_k_amb a k)) ->
  wp (current_has_serial_cap ci) Q k.
Proof.
  intros Hl HQ. unfold current_has_serial_cap. apply wp_kbind, wp_lock_sched; [done|]. apply wp_kbind, wp_kget, wp_kbind.
  ksimp. unfold holds_serial in HQ.
  assert (forall b, Q b (set_k_amb (k_amb k) k) -> wp (do* unlock_sched in kret b) Q (set_k_sched_locked true k)) as Hret.
  { intros b Hb. apply wp_kbind, wp_unlock_sched, wp_kret. by destruct k as [? [] ?]. }
  destruct (s_current_task_id (k_sched k)) as [id|]; [|apply wp_kret, Hret, HQ; auto with kernel].
  apply wp_kbind, wp_kget. ksimp. destruct (get_task (k_sched k) id) as [t|]; [|apply wp_kret, Hret, HQ; auto with kernel].
  apply wp_kbind, wp_kcap_get. intros a Ha. apply wp_kret, wp_kbind, wp_unlock_sched, wp_kret.
  specialize (HQ a Ha). by destruct k as [? [] ?].
Qed.

(** Serial output is capability-gated.  The serial-write request always
    returns.  The console receives the caller's bytes if and only if the running
    task holds a serial capability in the named slot and the bytes are well-formed
    UTF-8; without the capability the request fails with the error code; and in
    no case does it change anything but the console and the trace ring. *)
Theorem serial_write_gated k ci bytes :
  k_sched_locked k = false ->
  exists a, traced (k_amb k) a /\
    handle_serial_write ci bytes k =
      if holds_serial (k_sched k) ci
      then Ret (0, set_k_console (k_console k ++ (if utf8_valid bytes then bytes else [])) (set_k_amb a k))
      else Ret (SYS_ERR, set_k_amb a k).
Proof.
  intros Hl.
  assert (wp (handle_serial_write ci bytes) (fun r k' => exists a, traced (k_amb k) a /\
    (r, k') = if holds_serial (k_sched k) ci
      then (0, set_k_console (k_console k ++ (if utf8_valid bytes then bytes else [])) (set_k_amb a k))
      else (SYS_ERR, set_k_amb a k)) k) as Hw.
  { unfold handle_serial_write. apply wp_kbind, current_has_serial_cap_spec; [done|]. intros a Ha.
    destruct (holds_serial (k_sched k) ci).
    - apply wp_kbind. destruct (utf8_valid bytes); [apply wp_kmod|apply wp_kret]; apply wp_kret; exists a; (split; [done|]).
      + done.
      + rewrite app_nil_r. by destruct k.
    - apply wp_kret. by exists a. }
  apply wp_run in Hw as (r & k' & -> & a & Ha & He). exists a. split; [done|].
  by destruct (holds_serial (k_sched k) ci); rewrite He.
Qed.
End serial.

Lemma serial_write_gated_witness :
  exists a, traced (k_amb Kernel_init) a /\
    handle_serial_write 0 [104; 105] (set_current 1 (add_task (example_task 1 Running [mkCap Serial true true false false 7 None]) Kernel_init)) =
    Ret (0, set_k_console [104; 105] (set_k_amb a (set_current 1 (add_task (example_task 1 Running [mkCap Serial true true false false 7 None]) Kernel_init)))).
Proof.
  destruct (serial_write_gated (set_current 1 (add_task (example_task 1 Running [mkCap Serial true true false false 7 None])
    Kernel_init)) 0 [104; 105] eq_refl) as (a & Ha & Hr). exists a. split; [exact Ha|exact Hr].
Defined.

(** ** Delivery to a buffer *)

Section delivery.
Context `{L : Layout} (k : Kernel) (F : gmap N nat).
Context (Hinv : pt_inv (k_mem k) hhdm_offset (active_root k) F).

(** A received message goes to the caller's buffer and nowhere else.  Copying a
    message out always returns.  If the caller may write the first
    [min(len, cap)] bytes of its buffer, they become the first bytes of the
    message, provided the buffer's pages do not share a frame, no byte of
    physical memory behind any other address changes, and the count is
    returned; otherwise nothing changes and the error code is returned. *)
Lemma copy_out_spec m buf cap :
  buf < u64_limit -> cap < u64_limit -> msg_len m <= 128 -> lenN (msg_payload m) = 128 ->
  let n := N.min (msg_len m) cap in
  exists r k', copy_out m buf cap k = Ret (r, k') /\
    (range_ok k buf n true /\ r = n /\ k' = set_k_user (k_user k') k /\
       (forall p, (forall x f u w, buf <= x < buf + n -> active_translate k x = Some (f, u, w) -> phys f x <> p) ->
          k_user k' !! p = k_user k !! p) /\
       (frames_injective k buf n -> forall i, i < n -> user_byte k' (buf + i) = idx (msg_payload m) i)
     \/ ~ range_ok k buf n true /\ r = SYS_ERR /\ k' = k).
Proof.
  intros Hb Hc Hl Hp n. unfold copy_out. fold n.
  destruct (validate_decides k F Hinv buf n true Hb ltac:(lia)) as (b & Hv & Hbr). unfold kbind. rewrite Hv. cbn [obind].
  destruct b; cbn [is_ok]; [|by exists SYS_ERR, k; split; [done|right; rewrite <- Hbr]].
  set (bs := take (N.to_nat n) (msg_payload m)).
  assert (lenN bs = n) as Hlen by (unfold bs, lenN in *; rewrite length_take; lia).
  assert (range_ok k buf n true) as Hr by by apply Hbr. rewrite store_bytes_spec.
  2: { rewrite Hlen. intros x Hx. destruct Hr as [Hr|[_ Hr]]; [lia|].
       destruct (access_ok_mapped k x true (Hr x Hx)) as (f & w & Hf & Hw). exists f, true. rewrite Hf. by rewrite Hw. }
  eexists _, _. split; [done|]. left. split; [done|]. split; [done|]. split; [done|]. split.
  - intros p Hp'. cbn [k_user set_k_user]. apply stored_outside. by rewrite Hlen.
  - intros Hinj i Hi. destruct Hr as [Hr|[_ Hr]]; [lia|].
    destruct (access_ok_mapped k (buf + i) true (Hr (buf + i) ltac:(lia))) as (f & w & Hf & _).
    assert (exists c, idx bs i = Some c /\ idx (msg_payload m) i = Some c) as (c & Hbc & ->).
    { destruct (idx_is_Some (msg_payload m) i ltac:(lia)) as [c Hc0]. exists c. split; [|done].
      rewrite idx_lookup in *. unfold bs. rewrite lookup_take_lt by lia. done. }
    unfold user_byte. change (active_translate (set_k_user ?u k)) with (active_translate k). rewrite Hf.
    cbn [k_user set_k_user]. by rewrite (stored_inside k bs buf (k_user k) i c f true w) by (rewrite ?Hlen; done).
Qed.
End delivery.

(** ** Example requests *)

(** The example address space with one writeable page at 0x400000. *)
Definition example_rw : Kernel :=
  match map_page_user_into (L := example_paging) 0x1000 0x400000 0x300000 true example_space with
  | Ret (_, k) => k
  | _ => example_space
  end.

Lemma example_rw_inv : exists F, pt_inv (k_mem example_rw) (hhdm_offset (L := example_paging)) (active_root example_rw) F.
Proof.
  exact (mapped_space example_space example_rw _ _ _ _ _ _ _
    (map_page_user_spec (L := example_paging) example_space _ _ _ 0x400000 0x300000 true
       eq_refl example_space_ok eq_refl) eq_refl eq_refl).
Qed.

Lemma parse_request_exact_witness :
  exists req, parse_request (L := example_paging) (mkSyscallFrame SYS_SEND 0 0 16 0x400ff0 3 0 0 0 0 0 0 0 0 0) example_rw = Ret (req, example_rw) /\
    decodes (L := example_paging) example_rw (mkSyscallFrame SYS_SEND 0 0 16 0x400ff0 3 0 0 0 0 0 0 0 0 0) req.
Proof.
  destruct example_rw_inv as [F HF].
  apply (parse_request_exact (L := example_paging) example_rw F HF); [reflexivity..|discriminate].
Defined.

Definition example_message : Message := mkMessage 2 Raw 0 (replicate 128 65) 5.

(** The delivery, evaluated: five bytes arrive. *)
Definition delivered_bytes (m : Message) (buf cap : N) (k : Kernel) : option (N * list (option N)) :=
  match copy_out (L := example_paging) m buf cap k with
  | Ret (r, k) => Some (r, user_byte (L := example_paging) k <$> rangeN buf 6)
  | _ => None
  end.

Lemma example_delivery :
  delivered_bytes example_message 0x400100 16 example_rw = Some (5, [Some 65; Some 65; Some 65; Some 65; Some 65; Some 0]).
Proof. vm_compute. reflexivity. Qed.
