(* ===== verification/InitSpawn.v ===== *)
(** * Tasks created by init

    The contract of [SYS_SPAWN_TASK]: who may call it, and what it leaves
    behind on each of its branches. *)

From S2P Require Import Prelude Ring Preempt Trace Capability AuditTrail Message Machine Frames.
From S2P Require Import Task Scheduler Kernel Switch Scheduling Spawn Contexts Entry Ipc Authority.
From S2P Require Import Paging AddressSpace UserMemory Userspace Syscall.
Local Open Scope N_scope.

Section init_spawn.
Context `{L : Layout} `{B : Blobs}.

(** The state in which a user task can be built: ten frames left, all within
    the direct map and below the kernel's stacks, and the active root reachable. *)
Record spawn_ready (h : N) (k : Kernel) : Prop := {
  sr_hhdm : hhdm_response = Some h;
  sr_stacks : stacks_fit;
  sr_frames : frames_sep h ∅ (k_frames k);
  sr_root : not_free (k_frames k) (current_pml4_paddr (k_cpu k));
  sr_root_mapped : current_pml4_paddr (k_cpu k) + h + 4096 <= u64_limit;
  sr_room : next_free_paddr (k_frames k) + 9 * 4096 < usable_end (k_frames k);
  sr_below : usable_end (k_frames k) + h <= task_stacks
}.

Definition blob_of (ty : N) : option (list N) :=
  match ty with 1 => Some logger_blob | 2 => Some user_blob | 3 => Some ramfs_blob | _ => None end.

Definition blobs_fit : Prop := forall ty b, blob_of ty = Some b -> lenN b <= 4096.

(** [k'] agrees with [k] on the tasks. *)
Definition same_tasks (k k' : Kernel) : Prop :=
  s_current_task_id (k_sched k') = s_current_task_id (k_sched k) /\
  forall j, task_slot (k_sched k') j = task_slot (k_sched k) j.

(** What a spawn leaves alone: everything but the table, the trace, the next
    capability identity, physical memory and the count of tasks, and in memory the
    other address spaces. *)
Record spawn_frame (h : N) (k k' : Kernel) : Prop := {
  sk_wf : kernel_wf k';
  sk_frame : k' = set_k_amb (k_amb k') (set_k_sched (k_sched k') (set_k_user (k_user k')
    (set_page_state (k_mem k') (k_frames k') (set_k_tasks_spawned (k_tasks_spawned k') k))));
  sk_preempt : am_preempt (k_amb k') = am_preempt (k_amb k);
  sk_spaces : exists F, keeps_others h ∅ F k k'
}.

(** How a spawn request of type [ty] ends. *)
Inductive spawn_outcome (h : N) (k : Kernel) (ty : N) : N -> Kernel -> Prop :=
| spawn_refused :
    free_slot (k_sched k) = None \/ blob_of ty = None -> spawn_outcome h k ty SYS_ERR k
| spawn_done id blob t ks init slot k' :
    free_slot (k_sched k) = Some id -> blob_of ty = Some blob ->
    user_spawned h k id blob CapTable_new t ks -> spawn_frame h k k' ->
    k_mem k' = k_mem ks -> k_frames k' = k_frames ks -> k_user k' = k_user ks ->
    s_current_task_id (k_sched k') = s_current_task_id (k_sched k) ->
    task_slot (k_sched k) 1 = Some init -> cap_at (t_cap_table init) slot = None ->
    (forall j, j < slot -> is_Some (cap_at (t_cap_table init) j)) ->
    (forall j, task_slot (k_sched k') j =
       if decide (j = id) then Some t
       else if decide (j = 1) then (fun t => set_t_cap_table (t_cap_table t) init) <$> task_slot (k_sched k') 1
       else task_slot (k_sched k) j) ->
    (forall j, cap_of (k_sched k') 1 j =
       if decide (slot = j) then Some (with_id (init_channel id) (am_next_cap_id (k_amb k)))
       else cap_at (t_cap_table init) j) ->
    spawn_outcome h k ty id k'
| spawn_rolled_back id blob k' :
    free_slot (k_sched k) = Some id -> blob_of ty = Some blob ->
    (forall init j, task_slot (k_sched k) 1 = Some init -> j < MAX_CAPS -> is_Some (cap_at (t_cap_table init) j)) ->
    same_tasks k k' -> spawn_frame h k k' -> spawn_outcome h k ty SYS_ERR k'.

Lemma free_slot_Some s id : free_slot s = Some id -> 2 <= id < MAX_TASKS /\ task_slot s id = None.
Proof.
  intros [Hin Hn]%find_first_true. apply elem_of_rangeN in Hin. unfold MAX_TASKS. split; [lia|].
  by destruct (task_slot s id).
Qed.

(** Building the task with the scheduler lock held. *)
Lemma spawn_blob_spec h k ty id (Q : option Task -> Kernel -> Prop) :
  spawn_ready h k -> blobs_fit -> id < MAX_TASKS ->
  (blob_of ty = None -> Q None k) ->
  (forall blob t ks, blob_of ty = Some blob -> user_spawned h k id blob CapTable_new t ks -> Q (Some t) ks) ->
  wp (spawn_blob ty id) Q k.
Proof.
  intros [] Hfit Hid Hnone Hsome.
  assert (forall blob, blob_of ty = Some blob ->
    wp (let* t := spawn_user id blob CapTable_new in kret (Some t)) Q k) as Hsp.
  { intros blob Hb. apply wp_kbind. eapply wp_mono; [apply (spawn_user_spec k h); try done; by eapply Hfit|].
    cbv beta. intros t ks Hs. apply wp_kret. by eapply Hsome. }
  unfold spawn_blob. destruct ty as [|[[|[]|]|[|[]|]|]]; (by apply Hsp) || (apply wp_kret; by apply Hnone).
Qed.

Lemma user_spawned_unlock h k id blob ct t ks :
  k_sched_locked k = false -> user_spawned h (set_k_sched_locked true k) id blob ct t ks ->
  user_spawned h k id blob ct t (set_k_sched_locked false ks).
Proof.
  intros Hl (root & F & code & stack & Ht & Hk & H). exists root, F, code, stack. split; [done|].
  split; [|exact H]. rewrite Hk. destruct k as [? [] ?]; by try done.
Qed.

(** After the task is built: its slot, and [init]'s channel. *)
Lemma install_spec h k ty id blob t ks :
  kernel_wf k -> free_slot (k_sched k) = Some id -> blob_of ty = Some blob ->
  user_spawned h (set_k_sched_locked true k) id blob CapTable_new t ks ->
  wp (do* kmod (on_sched (put_slot id (Some t))) in
      let* oi := kget_task 1 in
      match oi with
      | Some init_task =>
          let* ins := kcaps 1 init_task (fun ct => CapTable_insert ct (init_channel id)) in
          match ins with
          | Ok _ => kret id
          | Err _ => do* kmod (on_sched (put_slot id None)) in kret SYS_ERR
          end
      | None => do* kmod (on_sched (put_slot id None)) in kret SYS_ERR
      end) (fun r k' => spawn_outcome h k ty r (set_k_sched_locked false k')) ks.
Proof.
  intros [Hs Hl Hau] Hfree Hblob Hsp. pose proof (user_spawned_unlock _ _ _ _ _ _ _ Hl Hsp) as Hsp'.
  destruct Hsp as (root & F & code & stack & Ht & Hk & _ & _ & _ & _ & _ & _ & Hkeep & _).
  assert (k_sched ks = k_sched k) as Hsk by (by rewrite Hk). assert (k_amb ks = k_amb k) as Ha by (by rewrite Hk).
  destruct (free_slot_Some _ _ Hfree) as [Hid Hnone]. assert (id < lenN (s_tasks (k_sched k))) as Hlen by (rewrite (sched_wf_len _ Hs); lia).
  set (s1 := put_slot id (Some t) (k_sched k)).
  assert (sched_wf s1) as Hs1.
  { apply put_slot_wf; [done|]. intros ? [= <-]. rewrite Ht. split; [done|].
    split; [apply CapTable_new_wf|apply MessageQueue_new_wf]. }
  assert (forall j, task_slot s1 j = if decide (id = j) then Some t else task_slot (k_sched k) j) as Hslot1.
  { intros j. by apply task_slot_put. }
  apply wp_kbind, wp_kmod, wp_kbind, wp_kget. ksimp. rewrite Hsk. fold s1. rewrite (get_task_wf _ _ Hs1), Hslot1.
  rewrite decide_False by lia.
  assert (forall s2, s_current_task_id s2 = s_current_task_id (k_sched k) -> lenN (s_tasks s2) = MAX_TASKS ->
    (forall j, j <> id -> task_slot s2 j = task_slot (k_sched k) j) ->
    same_tasks k (set_k_sched (put_slot id None s2) k)) as Hback.
  { intros s2 Hc2 Hl2 Hj. split; [done|]. intros j. ksimp. rewrite task_slot_put by (rewrite Hl2; lia).
    case_decide; [by subst|by apply Hj]. }
  assert (forall s2 a2, sched_wf s2 -> am_preempt a2 = am_preempt (k_amb k) ->
    spawn_frame h k (set_k_sched_locked false (set_k_amb a2 (set_k_sched s2 ks)))) as Hframe.
  { intros s2 a2 Hs2 Ha2. split; [split; [done|done|by rewrite Hk]| |done|].
    - rewrite Hk. destruct k as [? [] ?]; by try done.
    - by exists F. }
  destruct (task_slot (k_sched k) 1) as [init|] eqn:Hinit.
  2: { apply wp_kbind, wp_kmod, wp_kret. eapply spawn_rolled_back; [done|done|by rewrite Hinit| |].
       - apply (Hback s1); [done|apply Hs1|]. intros j Hj. rewrite Hslot1. by rewrite decide_False.
       - apply (Hframe (put_slot id None s1) (k_amb ks)); [by apply put_slot_wf|by rewrite Ha]. }
  pose proof (sched_wf_task _ Hs _ _ Hinit) as [Hct _].
  destruct (CapTable_insert_spec (t_cap_table init) (init_channel id) (k_amb ks) Hct) as (r & ct' & a' & Hins & Hct' & (Hpre & _) & Hr).
  apply wp_kbind. eapply wp_kcaps; [exact Hins|]. ksimp. rewrite ?Hsk. fold s1.
  assert (am_preempt a' = am_preempt (k_amb k)) as Hpre' by (by rewrite Hpre, Ha).
  assert (sched_wf (get_task_mut s1 1 (set_t_cap_table ct'))) as Hs2.
  { apply get_task_mut_wf; [done|]. intros t0 [_ Hq]. split; [done|by split]. }
  assert (forall j, task_slot (get_task_mut s1 1 (set_t_cap_table ct')) j =
    if decide (id = j) then Some t else if decide (1 = j) then Some (set_t_cap_table ct' init) else task_slot (k_sched k) j) as Hslot2.
  { intros j. rewrite get_task_mut_slot, !Hslot1 by done. repeat case_decide; subst; try done; [lia|]. by rewrite Hinit. }
  destruct r as [slot|e].
  - destruct Hr as (_ & Hslt & Hempty & Hfirst & Hcaps). apply wp_kret. rewrite Ha in Hcaps.
    eapply (spawn_done _ _ _ id blob t _ init slot); try done.
    + by apply Hframe.
    + ksimp. by rewrite get_task_mut_current.
    + intros j. ksimp. rewrite !Hslot2. repeat case_decide; subst; try done; lia.
    + intros j. ksimp. unfold cap_of. rewrite Hslot2. rewrite decide_False by lia. cbn. apply Hcaps.
  - destruct Hr as (_ & -> & Hfull). apply wp_kbind, wp_kmod, wp_kret. eapply spawn_rolled_back; [done|done| | |].
    + intros init' j Hi'. rewrite Hinit in Hi'. injection Hi' as <-. apply Hfull.
    + apply (Hback (get_task_mut s1 1 (set_t_cap_table (t_cap_table init)))).
      * by rewrite get_task_mut_current.
      * apply get_task_mut_wf; [done|]. intros t0 [_ Hq]. split; [done|by split].
      * intros j Hj. rewrite Hslot2. rewrite decide_False by done. case_decide; [subst; rewrite Hinit; by destruct init|done].
    + apply (Hframe (put_slot id None (get_task_mut s1 1 (set_t_cap_table (t_cap_table init)))) a'); [by apply put_slot_wf|done].
Qed.

Lemma dispatch_spawn_spec h k ty :
  kernel_wf k -> spawn_ready h k -> blobs_fit -> wp (dispatch_spawn_task ty) (spawn_outcome h k ty) k.
Proof.
  intros Hwf Hrdy Hfit. pose proof (kw_unlocked _ Hwf) as Hl. unfold dispatch_spawn_task.
  apply wp_kbind, wp_lock_sched; [done|]. apply wp_kbind, wp_kget, wp_kbind. ksimp.
  assert (set_k_sched_locked false (set_k_sched_locked true k) = k) as Hid by (by destruct k as [? [] ?]).
  eapply (wp_mono _ (fun r k' => spawn_outcome h k ty r (set_k_sched_locked false k'))).
  2: { intros r k' Ho. apply wp_kbind, wp_unlock_sched, wp_kret. exact Ho. }
  destruct (free_slot (k_sched k)) as [id|] eqn:Hfree.
  2: { apply wp_kret. rewrite Hid. apply spawn_refused. by left. }
  destruct (free_slot_Some _ _ Hfree) as [Hlt _]. apply wp_kbind. apply (spawn_blob_spec h); [|done|lia|..].
  - by destruct Hrdy.
  - intros Hb. apply wp_kret. rewrite Hid. apply spawn_refused. by right.
  - intros blob t ks Hb Hsp. by eapply install_spec.
Qed.

(** C28: Spawning is init's privilege and is exact.  A spawn request of any other
    task changes nothing and returns the error code.  A request of task 1 always
    returns.  It is refused without any change if no slot is free or the program
    is unknown; otherwise the new task, isolated in its own address space, takes
    the lowest free slot from 2 on and [init] gets a root channel to it with all
    rights in the first free slot of its table; if that table is full, the slot is
    released again and no task differs from before. *)
Theorem spawn_request_exact h k task_id ty :
  kernel_wf k -> spawn_ready h k -> blobs_fit ->
  exists r k', handle_spawn task_id ty k = Ret (r, k') /\
    if decide (task_id = 1) then spawn_outcome h k ty r k' else r = SYS_ERR /\ k' = k.
Proof.
  intros Hwf Hrdy Hfit. unfold handle_spawn. destruct (decide (task_id = 1)) as [->|Hne].
  - apply wp_run. by apply dispatch_spawn_spec.
  - rewrite (proj2 (N.eqb_neq _ _) Hne). by exists SYS_ERR, k.
Qed.
End init_spawn.

Definition example_init : Kernel := set_current 1 (add_task (example_task 1 Running []) example_space).

Lemma example_init_wf : kernel_wf example_init.
Proof.
  apply set_current_wf, add_task_wf; [apply example_task_wf; simpl; lia|]. destruct Kernel_init_wf. by split.
Qed.

Lemma example_init_ready : spawn_ready (L := example_layout) 0xffff800000000000 example_init.
Proof.
  split; try reflexivity; try (vm_compute; discriminate).
  - apply example_stacks_fit.
  - apply (example_frames ∅). by intros t [l ?].
  - left. vm_compute. discriminate.
Qed.

Lemma spawn_request_exact_witness :
  exists r k', handle_spawn (L := example_layout) (B := example_blobs) 1 3 example_init = Ret (r, k') /\
    if decide (1 = 1) then spawn_outcome (L := example_layout) (B := example_blobs) 0xffff800000000000 example_init 3 r k'
    else r = SYS_ERR /\ k' = example_init.
Proof.
  apply (spawn_request_exact (L := example_layout) (B := example_blobs)).
  - apply example_init_wf.
  - apply example_init_ready.
  - intros ty b. unfold blob_of. repeat case_match; intros [= <-]; vm_compute; discriminate.
Defined.
