(* ===== verification/Safety.v ===== *)
(** * System calls keep the kernel sound

    [syscall_safe]: for all register contents a user program can load, a system call
    panics exactly when it is given a slice that starts at null; any other call
    neither panics nor deadlocks, at whatever points it gives up the processor and
    whatever other tasks do meanwhile, ends unless it has to wait, and leaves a
    kernel whose tables, messages and address spaces are well formed. *)

From S2P Require Import Prelude Ring Text Preempt Trace Capability AuditTrail Message Machine Frames.
From S2P Require Import Task Scheduler Kernel Switch Scheduling Spawn Contexts Entry Ipc Rendezvous Messaging.
From S2P Require Import Authority Propagation Delegation Paging AddressSpace UserMemory Userspace Syscall Requests InitSpawn.
Local Open Scope N_scope.

(** ** Well-formed messages *)

Definition message_ok (m : Message) : Prop := lenN (msg_payload m) = 128 /\ msg_len m <= 128.

(** The messages a task holds: in its rendezvous buffer and in its queue. *)
Definition holds_ok (t : Task) : Prop :=
  (forall m, t_ipc_buffer t = Some m -> message_ok m) /\ Forall message_ok (mq_contents (t_msg_queue t)).

Definition messages_ok (s : Scheduler) : Prop := forall i t, task_slot s i = Some t -> holds_ok t.

Lemma messages_ok_update s i f :
  sched_wf s -> messages_ok s -> (forall t, task_slot s i = Some t -> holds_ok t -> holds_ok (f t)) ->
  messages_ok (get_task_mut s i f).
Proof.
  intros Hs Hm Hf j t. rewrite get_task_mut_slot by done. case_decide; [subst j|by apply Hm].
  destruct (task_slot s i) as [t0|] eqn:Ht; [|done]. intros [= <-]. by eapply Hf, Hm.
Qed.

Lemma holds_ok_buffer o t : (forall m, o = Some m -> message_ok m) -> holds_ok t -> holds_ok (set_t_ipc_buffer o t).
Proof. by intros Ho [_ Hq]. Qed.
Lemma holds_ok_state st t : holds_ok t -> holds_ok (set_t_state st t).
Proof. done. Qed.
Lemma holds_ok_queue q t : Forall message_ok (mq_contents q) -> holds_ok t -> holds_ok (set_t_msg_queue q t).
Proof. by intros Hq [Hb _]. Qed.
Lemma holds_ok_empty t : holds_ok t -> holds_ok (set_t_ipc_buffer None t).
Proof. by apply holds_ok_buffer. Qed.
Lemma holds_ok_message m t : message_ok m -> holds_ok t -> holds_ok (set_t_ipc_buffer (Some m) t).
Proof. intros Hm. apply holds_ok_buffer. by intros ? [= <-]. Qed.

Create HintDb sound discriminated.
#[export] Hint Resolve holds_ok_state holds_ok_empty holds_ok_message holds_ok_queue messages_ok_update : sound.

Lemma send_effect_messages s cur ci m :
  sched_wf s -> messages_ok s -> message_ok m -> messages_ok (send_effect s cur ci m).2.
Proof.
  intros Hs Hm Hok. unfold send_effect. repeat case_match; cbn [snd]; try done; unfold handed, parked; auto with sound.
Qed.

Lemma receives_messages s cur t o s' :
  sched_wf s -> messages_ok s -> task_slot s cur = Some t -> receives s cur t o s' ->
  messages_ok s' /\ forall m, o = Some (Ok m) -> message_ok m.
Proof.
  intros Hs Hm Ht Hr. pose proof (Hm _ _ Ht) as [Hb Hq]. destruct Hr as [m l q Hl Hwf Hc|m Hl Hbuf|i ti Hl Hbuf Hf|Hl Hbuf Hn].
  - rewrite Hl in Hq. apply Forall_cons in Hq as [Hm0 Hq]. rewrite <- Hc in Hq. split; [auto with sound|by intros ? [= <-]].
  - split; [auto with sound|intros ? [= <-]; auto].
  - split.
    + apply messages_ok_update; [|apply messages_ok_update|]; auto with sound.
      apply get_task_mut_wf; [done|]. intros u [? ?]. split; [done|by split].
    + destruct Hf as (Hti & _). pose proof (Hm _ _ Hti) as [Hb' _]. intros m. destruct (t_ipc_buffer ti); intros [= <-]; auto.
  - done.
Qed.

Lemma async_sends_messages s cur ci m r s' :
  sched_wf s -> messages_ok s -> message_ok m -> async_sends s cur ci m r s' -> messages_ok s'.
Proof.
  intros Hs Hm Hok []; [done..|]. apply messages_ok_update; [done..|]. intros u Hu Hh.
  assert (holds_ok (set_t_msg_queue q u)) as H'.
  { apply holds_ok_queue; [|done]. replace u with t in * by congruence. destruct Hh as [_ Hq]. rewrite H3. apply Forall_app. by split; [|apply Forall_singleton]. }
  unfold queued. by case_match.
Qed.

(** Operations on capabilities only. *)
Lemma same_but_caps_messages s s' : same_but_caps s s' -> messages_ok s -> messages_ok s'.
Proof.
  intros [_ Hs] Hm i t Ht. specialize (Hs i). rewrite Ht in Hs. destruct (task_slot s i) as [t0|] eqn:Ht0; simpl in Hs; [|done].
  injection Hs as Hs. rewrite Hs. exact (Hm i t0 Ht0).
Qed.

Lemma build_message_message_ok sender t version payload m :
  build_message sender t version payload = Ret m -> lenN payload <= 128 -> message_ok m.
Proof.
  intros Hm Hl. destruct (build_message_ok sender t version payload Hl) as (m' & Hm' & _ & _ & _ & Hlen & Hp & _).
  rewrite Hm in Hm'. injection Hm' as <-. split; [done|]. lia.
Qed.

(** ** Capability operations leave the rest of the kernel alone *)

(** Only the table and its lock, the audit log and the ambient state differ, and
    the preemption state does not. *)
Definition steady (k k' : Kernel) : Prop :=
  k' = set_k_amb (k_amb k') (set_k_audit (k_audit k') (set_k_sched_locked (k_sched_locked k') (set_k_sched (k_sched k') k))) /\
  am_preempt (k_amb k') = am_preempt (k_amb k).

#[export] Instance steady_preorder : PreOrder steady.
Proof.
  split; [intros k; split; [by destruct k|done]|]. intros k1 k2 k3 [H1 P1] [H2 P2]. split; [|congruence].
  rewrite H2 at 1. rewrite H1 at 1. done.
Qed.

Definition leaves {A} (m : K A) : Prop := forall k a k', m k = Ret (a, k') -> steady k k'.

Lemma leaves_ret {A} (a : A) : leaves (kret a).
Proof. intros k ? ? [= <- <-]. reflexivity. Qed.
Lemma leaves_get {A} (f : Kernel -> A) : leaves (kget f).
Proof. intros k ? ? [= <- <-]. reflexivity. Qed.
Lemma leaves_lift {A} (o : outcome A) : leaves (klift o).
Proof. intros k ? ? H. unfold klift in H. destruct o; simplify_eq/=. reflexivity. Qed.
Lemma leaves_bind {A B} (m : K A) (f : A -> K B) : leaves m -> (forall a, leaves (f a)) -> leaves (kbind m f).
Proof.
  intros Hm Hf k b k' H. apply obind_Ret in H as ([a k1] & H1 & H2). transitivity k1; [by eapply Hm|by eapply Hf].
Qed.
Lemma leaves_lock : leaves lock_sched.
Proof. intros k ? ? H. unfold lock_sched in H. case_match; simplify_eq. split; [by destruct k|done]. Qed.
Lemma leaves_unlock : leaves unlock_sched.
Proof. intros k ? ? [= <- <-]. split; [by destruct k|done]. Qed.
Lemma leaves_sched f : leaves (kmod (on_sched f)).
Proof. intros k ? ? [= <- <-]. split; [by destruct k|done]. Qed.
Lemma leaves_audit kind actor target r slot : leaves (kaudit kind actor target r slot).
Proof. intros k ? ? H. apply obind_Ret in H as (log & _ & H). simplify_eq. split; [by destruct k|done]. Qed.
Lemma leaves_cap_get t i : leaves (kcap_get t i).
Proof.
  intros k ? ? H. unfold kcap_get, CapTable_get in H. repeat case_match; simplify_eq; (split; [by destruct k|]); try done.
  apply log_trace_preempt.
Qed.
Lemma leaves_for {I S} (l : list I) (body : I -> S -> K S) s : (forall i s, leaves (body i s)) -> leaves (kfor l body s).
Proof. intros Hb. revert s. induction l as [|i l IH]; intros s; [apply leaves_ret|]. by apply leaves_bind. Qed.

(** Table operations that keep the preemption state. *)
Definition quiet {A} (op : CapTable -> Ambient -> A * CapTable * Ambient) : Prop :=
  forall ct a, am_preempt (op ct a).2 = am_preempt a.

Lemma quiet_insert cap : quiet (fun ct => CapTable_insert ct cap).
Proof. intros ct a. unfold CapTable_insert. simpl. case_match; simpl; by rewrite ?log_trace_preempt. Qed.
Lemma quiet_revoke i : quiet (fun ct => CapTable_kernel_revoke ct i).
Proof. intros ct a. unfold CapTable_kernel_revoke. repeat case_match; simpl; by rewrite ?log_trace_preempt. Qed.

Lemma leaves_caps {A} id t (op : CapTable -> Ambient -> A * CapTable * Ambient) : quiet op -> leaves (kcaps id t op).
Proof.
  intros Hq k r0 k' H. unfold kcaps in H. specialize (Hq (t_cap_table t) (k_amb k)). destruct (op _ _) as [[r ct] a]. simplify_eq/=.
  by split; [destruct k|].
Qed.
Lemma leaves_caps_slot {A} i t (op : CapTable -> Ambient -> A * CapTable * Ambient) : quiet op -> leaves (kcaps_slot i t op).
Proof.
  intros Hq k r0 k' H. unfold kcaps_slot in H. specialize (Hq (t_cap_table t) (k_amb k)). destruct (op _ _) as [[r ct] a]. simplify_eq/=.
  by split; [destruct k|].
Qed.

Lemma leaves_get_task id : leaves (kget_task id).
Proof. apply leaves_get. Qed.

Create HintDb leaves discriminated.
#[export] Hint Constants Opaque : leaves.
#[export] Hint Resolve leaves_ret leaves_get leaves_lift leaves_lock leaves_unlock leaves_audit leaves_cap_get leaves_get_task
  leaves_caps leaves_caps_slot quiet_insert quiet_revoke : leaves.

(** Steps through binds and loops, and cases on what they branch on. *)
Ltac solve_leaves :=
  repeat match goal with
  | |- leaves (kbind _ _) => apply leaves_bind; [|intros ?]
  | |- leaves (kfor _ _ _) => apply leaves_for; intros ? ?
  | |- leaves (match _ with _ => _ end) => case_match
  | |- leaves _ => progress auto with leaves
  end.

Lemma leaves_grant caller src target rights : leaves (dispatch_cap_grant caller src target rights).
Proof. unfold dispatch_cap_grant. solve_leaves. Qed.

Lemma leaves_propagate root : leaves (propagate_revocation root).
Proof.
  unfold propagate_revocation. apply leaves_bind; [auto with leaves|]. intros revoked. generalize (mkPropState revoked 1 false).
  induction PROPAGATE_FUEL as [|n IH]; intros st; cbn [propagate_loop]; [auto with leaves|]. apply leaves_bind; [|intros st'; by destruct (pr_changed st'); auto with leaves].
  unfold propagate_pass, propagate_task, propagate_slot. solve_leaves.
Qed.

Lemma leaves_cap_revoke caller target slot : leaves (dispatch_cap_revoke caller target slot).
Proof. unfold dispatch_cap_revoke, current_has_grant_cap_to. solve_leaves. apply leaves_propagate. Qed.

(** A specification and the frame of the same computation. *)
Lemma wp_leaves {A} (m : K A) Q k : leaves m -> wp m Q k -> wp m (fun a k' => Q a k' /\ steady k k') k.
Proof. intros Hm (a & k' & Hrun & HQ)%wp_run. apply wp_run. exists a, k'. split; [done|]. split; [done|by eapply Hm]. Qed.

(** ** Soundness of the kernel *)

(** What holds of the kernel whenever a task runs or control passes to another. *)
Record sound (k : Kernel) : Prop := {
  so_wf : kernel_wf k;
  so_depth : depth_ok k;
  so_messages : messages_ok (k_sched k)
}.

Section safety.
Context `{L : Layout}.

(** The active address space satisfies the paging invariant, with its tables
    below the kernel's stacks. *)
Definition active_space (h : N) (k : Kernel) : Prop :=
  exists F, space_ok h (active_root k) F (k_mem k) (k_frames k) /\
    forall t, is_Some (F !! t) -> t + h + 4096 <= task_stacks.

(** The state in which task [cur] executes kernel code. *)
Record running (h : N) (cur : TaskId) (k : Kernel) : Prop := {
  rn_sound : sound k;
  rn_present : is_Some (task_slot (k_sched k) cur);
  rn_space : active_space h k
}.

(** A computation of task [cur] that never panics and never waits for a lock it
    holds: it ends in a state with [Q], or gives up the processor with the kernel
    sound and goes on safely from any state in which the task may run again, or is
    still waiting when its fuel is spent.  Unless [waits] holds, it ends. *)
Inductive rsafe (h : N) (cur : TaskId) (waits : Prop) {A} (Q : A -> Kernel -> Prop)
  : outcome (Res A * Kernel) -> Prop :=
| safe_done a k : Q a k -> rsafe h cur waits Q (Ret (Done a, k))
| safe_paused resume k :
    waits -> sound k -> (forall k', running h cur k' -> rsafe h cur waits Q (resume k')) ->
    rsafe h cur waits Q (Ret (Paused resume, k))
| safe_retrying : waits -> rsafe h cur waits Q OutOfFuel.

Context (h : N) (cur : TaskId).

Lemma rsafe_res_bind {A B} (Q1 : A -> Kernel -> Prop) (Q2 : B -> Kernel -> Prop) (f : A -> R B) b o :
  rsafe h cur b Q1 o -> (forall a k, Q1 a k -> rsafe h cur b Q2 (f a k)) ->
  rsafe h cur b Q2 (match o with Ret (r, k) => res_bind r f k | Panic => Panic | Hang => Hang | OutOfFuel => OutOfFuel end).
Proof.
  intros Ho Hf. induction Ho as [a k HQ|resume k Hb Hk _ IH|]; [by apply Hf| |by apply safe_retrying].
  cbn [res_bind]. apply safe_paused; [done|done|]. exact IH.
Qed.

Lemma rsafe_bind {A B} (Q1 : A -> Kernel -> Prop) (Q2 : B -> Kernel -> Prop) (m : R A) (f : A -> R B) b k :
  rsafe h cur b Q1 (m k) -> (forall a k', Q1 a k' -> rsafe h cur b Q2 (f a k')) -> rsafe h cur b Q2 (rbind m f k).
Proof. intros Hm Hf. exact (rsafe_res_bind Q1 Q2 f b (m k) Hm Hf). Qed.

Lemma rsafe_lift {A B} (m : K A) (f : A -> R B) (Q : B -> Kernel -> Prop) b k :
  wp m (fun a k' => rsafe h cur b Q (f a k')) k -> rsafe h cur b Q (rbind (rlift m) f k).
Proof. intros (a & k' & Hrun & Hs)%wp_run. by rewrite (rbind_rlift _ _ _ _ _ Hrun). Qed.

Lemma rsafe_rlift {A} (m : K A) (Q : A -> Kernel -> Prop) b k : wp m Q k -> rsafe h cur b Q (rlift m k).
Proof. intros (a & k' & Hrun & HQ)%wp_run. unfold rlift. rewrite Hrun. by apply safe_done. Qed.

Lemma rsafe_mono {A} (Q Q' : A -> Kernel -> Prop) b o :
  rsafe h cur b Q o -> (forall a k, Q a k -> Q' a k) -> rsafe h cur b Q' o.
Proof. intros Ho HQ. induction Ho; [by apply safe_done, HQ|by apply safe_paused|by apply safe_retrying]. Qed.

(** *** Frames *)

Lemma running_frame k s d k' :
  running h cur k -> ipc_frame k s d k' -> sched_wf s -> messages_ok s -> is_Some (task_slot s cur) -> running h cur k'.
Proof.
  intros [[Hwf Hd Hm] Hp Hsp] Hf Hs Hms Hpr. pose proof (ipc_frame_wf _ _ _ _ Hf Hs Hwf). pose proof (ipc_frame_depth _ _ _ _ Hf Hd).
  pose proof (ipc_frame_sched _ _ _ _ Hf) as Hsc. destruct Hf as [[a ->] _ _]. by split; [split|..].
Qed.

Lemma running_restore b k : running h cur k -> running h cur (restore_interrupts b k).
Proof. intros [[Hwf Hd Hm] Hp Hsp]. destruct b; (split; [split; [by destruct Hwf|done|done]|done|done]). Qed.

Lemma present_update s i f : sched_wf s -> is_Some (task_slot s cur) -> is_Some (task_slot (get_task_mut s i f) cur).
Proof. intros Hs Hp. rewrite get_task_mut_slot by done. case_decide; [by apply fmap_is_Some|done]. Qed.

(** *** Switching *)

Lemma handoff_messages c n s : c <> Some n -> messages_ok s -> messages_ok (handoff c n s).
Proof.
  intros Hc Hm i t. rewrite handoff_slot by done. specialize (Hm i). destruct (task_slot s i) as [t0|]; [|by repeat case_decide].
  specialize (Hm t0 eq_refl). repeat case_decide; intros [= <-]; try done. unfold slept. by case_match.
Qed.

Lemma handoff_present c n s i : c <> Some n -> is_Some (task_slot s i) -> is_Some (task_slot (handoff c n s) i).
Proof. intros Hc Hp. rewrite handoff_slot by done. repeat case_decide; try done; by apply fmap_is_Some. Qed.

Lemma save_rsp_sound area rsp k : sound k -> sound (save_rsp area rsp k).
Proof.
  intros [[Hs Hl Ha] Hd Hm]. destruct area as [i| |]; [|by split; [split|..]..]. unfold save_rsp, on_sched.
  destruct (task_slot (k_sched k) i) as [t|] eqn:Ht; [|by split; [split|..]]. pose proof (task_slot_lt _ _ _ Ht) as Hi.
  split; [split; [|done|done]|done|]; ksimp.
  - apply put_slot_wf; [done|]. intros ? [= <-]. destruct (sched_wf_task _ Hs _ _ Ht). split; [exact (sched_wf_id _ Hs _ _ Ht)|by split].
  - intros j tj. rewrite task_slot_put by done. case_decide; [|by apply Hm]. intros [= <-]. exact (Hm _ _ Ht).
Qed.

(** The switch of a yield: not taken with the task still running, or taken in a
    sound kernel. *)
Lemma yield_switch_sound k : running h cur k -> exists b k1, yield_switch k = Ret (b, k1) /\ if b : bool then sound k1 else running h cur (restore_interrupts (interrupts_enabled (k_cpu k)) k1).
Proof.
  intros Hr. pose proof (rn_sound _ _ _ Hr) as [Hwf Hd Hm]. destruct (yield_choice (k_sched k)) as [[c n]|] eqn:Hch.
  2: { pose proof (yield_cpu_alone k Hwf Hch) as Ha. unfold yield_cpu in Ha. destruct (yield_switch k) as [[[] k1]| | |]; try done.
       exists false, k1. split; [done|]. injection Ha as ->. done. }
  unfold yield_switch, kbind. cbn [kmod obind]. set (k0 := on_machine (on_cpu cli) k).
  pose proof (yield_plan_spec k0 (cli_kernel_wf k _ Hwf)) as Hp. change (k_sched k0) with (k_sched k) in Hp. rewrite Hch in Hp.
  apply wp_run in Hp as (plan & k1 & -> & a & tn & (Hap & _) & _ & -> & ->). cbn [obind].
  apply yield_choice_spec in Hch as (_ & Hcn & _). set (k1 := set_k_amb a _).
  assert (running h cur k1) as Hr1.
  { destruct Hr as [[[Hs Hl Ha] _ _] Hpr Hsp]. split; [split; [split; [by apply handoff_wf|done|done]| |by apply handoff_messages]|by apply handoff_present|done].
    unfold depth_ok, k1 in *. ksimp. by rewrite Hap. }
  unfold perform_switch. cbn [pl_save pl_rsp]. destruct (t_rsp tn =? 0).
  - eexists _, _. split; [reflexivity|]. by apply running_restore.
  - unfold kbind. cbn [kmod kret obind]. eexists true, _. split; [reflexivity|].
    destruct (call_switch_context _ _ _) as [old mc]. apply save_rsp_sound. destruct (rn_sound _ _ _ Hr1) as [[] ? ?]. by split; [split|..].
Qed.

(** A yield is safe: it returns, or pauses in a sound kernel. *)
Lemma yield_safe (w : Prop) k : w -> running h cur k -> rsafe h cur w (fun _ k' => running h cur k') (yield_cpu k).
Proof.
  intros Hw Hr. destruct (yield_switch_sound k Hr) as (b & k1 & Hy & Hk1). unfold yield_cpu. rewrite Hy. cbn [obind]. destruct b; [|by apply safe_done].
  apply safe_paused; [done|done|]. intros k' Hr'. apply safe_done. by apply running_restore.
Qed.

(** *** Messages *)

Lemma send_effect_present s ci m : sched_wf s -> is_Some (task_slot s cur) -> is_Some (task_slot (send_effect s cur ci m).2 cur).
Proof. intros Hs Hp. unfold send_effect. repeat case_match; cbn [snd]; by try apply present_update. Qed.

(** A send that cannot be delivered yet: its channel leads to a task that is not
    waiting for a message. *)
Definition send_waits (s : Scheduler) (ci : N) : Prop :=
  exists target t, channel_of s cur ci = Ok target /\ task_slot s target = Some t /\ t_state t <> Terminated /\ t_state t <> BlockedOnReceive.

(** A receive with nothing to receive: no message queued or handed over, and no task
    blocked sending to this one. *)
Definition receive_waits (s : Scheduler) : Prop :=
  (forall t, task_slot s cur = Some t -> mq_contents (t_msg_queue t) = [] /\ t_ipc_buffer t = None) /\
  forall j tj, task_slot s j = Some tj -> t_state tj <> BlockedOnSend cur.

Lemma send_effect_waits s ci m : (send_effect s cur ci m).1 = Ok Blocked -> send_waits s ci.
Proof.
  unfold send_effect, send_waits. destruct (channel_of s cur ci) as [target|]; [|done]. destruct (task_slot s target) as [t|] eqn:Ht; [|done].
  cbn [fmap option_fmap option_map]. intros H. exists target, t. split; [done|]. split; [done|]. by destruct (t_state t).
Qed.

Lemma send_loop_safe ci m (w : Prop) : message_ok m ->
  forall fuel k, (fuel = O -> w) -> (send_waits (k_sched k) ci -> w) -> running h cur k ->
  rsafe h cur w (fun _ k' => running h cur k') (send_loop fuel cur ci m k).
Proof.
  intros Hok. induction fuel as [|fuel IH]; intros k H0 Hw Hr; [by apply safe_retrying, H0|].
  pose proof (rn_sound _ _ _ Hr) as [Hwf Hd Hm]. pose proof (kw_sched _ Hwf) as Hs.
  destruct (send_loop_step fuel cur ci m k Hwf Hd) as (k' & Hf & ->).
  assert (running h cur k') as Hr'.
  { eapply running_frame; [done..|by apply send_effect_wf|by apply send_effect_messages|]. by apply send_effect_present, Hr. }
  pose proof (send_effect_waits (k_sched k) ci m) as Hblock.
  destruct (send_effect _ _ _ _).1 as [[| |]|e]; [by apply safe_done| | |by apply safe_done].
  - pose proof (rn_sound _ _ _ Hr') as [Hwf' _ Hm']. destruct (send_gone_spec cur k' Hwf') as (k2 & -> & Hf2). apply safe_done.
    eapply running_frame; [done..| |apply messages_ok_update; [apply Hwf'|done|]|apply present_update; [apply Hwf'|apply Hr']].
    + apply get_task_mut_wf; [apply Hwf'|]. intros u Hu. by apply set_buffer_wf.
    + auto with sound.
  - pose proof (Hw (Hblock eq_refl)). eapply rsafe_bind; [by apply yield_safe|]. cbv beta. intros _ k2 Hr2. destruct (rn_present _ _ _ Hr2) as [t Ht].
    rewrite (send_wake_step _ _ _ _ _ t) by (apply Hr2 || done). destruct (is_none _); [by apply safe_done|by apply IH].
Qed.

Lemma receives_present s t o s' :
  sched_wf s -> is_Some (task_slot s cur) -> receives s cur t o s' -> is_Some (task_slot s' cur).
Proof.
  intros Hs Hp []; try done; try by apply present_update. apply present_update; [|by apply present_update].
  apply get_task_mut_wf; [done|]. intros u [? ?]. split; [done|by split].
Qed.

(** One round of a receive, from the state it leaves. *)
Lemma receive_frame k t o s' k' (w : Scheduler -> Scheduler) d :
  running h cur k -> task_slot (k_sched k) cur = Some t -> receives (k_sched k) cur t o s' ->
  w = (fun s => s) \/ w = waiting cur -> ipc_frame k (w s') d k' ->
  running h cur k' /\ forall m, o = Some (Ok m) -> message_ok m.
Proof.
  intros Hr Ht Hrc Hw Hf. pose proof (rn_sound _ _ _ Hr) as [Hwf _ Hm]. pose proof (kw_sched _ Hwf) as Hs.
  destruct (receives_messages _ _ _ _ _ Hs Hm Ht Hrc) as [Hms Hmo]. pose proof (receives_wf _ _ _ _ _ Hs Hrc) as Hs'.
  pose proof (receives_present _ _ _ _ Hs (rn_present _ _ _ Hr) Hrc) as Hp. split; [|done].
  destruct Hw as [->| ->]; (eapply running_frame; [done|done| | |]); try done.
  - apply get_task_mut_wf; [done|]. intros u Hu. by apply set_state_wf.
  - unfold waiting. auto with sound.
  - by apply present_update.
Qed.

Lemma receive_loop_safe (w : Prop) : forall fuel k,
  (fuel = O -> w) -> (receive_waits (k_sched k) -> w) -> running h cur k ->
  rsafe h cur w (fun r k' => running h cur k' /\ forall m, r = Ok m -> message_ok m) (receive_loop fuel cur k).
Proof.
  induction fuel as [|fuel IH]; intros k H0 Hw Hr; [by apply safe_retrying, H0|]. destruct (rn_present _ _ _ Hr) as [t Ht].
  destruct (receive_loop_step fuel cur t k (so_wf _ (rn_sound _ _ _ Hr)) Ht) as (o & s' & k' & Hrc & Hf & ->).
  destruct (receive_frame k t o s' k' (if is_some o then (fun s => s) else waiting cur) _ Hr Ht Hrc ltac:(destruct o; auto) ltac:(destruct o; exact Hf)) as [Hr' Hmo].
  destruct o as [r|]; [apply safe_done; split; [done|]; intros m ->; by apply Hmo|].
  assert w by (apply Hw; inversion Hrc; subst; split; [|done]; intros; by simplify_eq).
  eapply rsafe_bind; [by apply yield_safe|]. cbv beta. intros _ k2 Hr2. by apply IH.
Qed.

Lemma sys_send_typed_safe (w : Prop) fuel ci tag version payload k :
  (send_waits (k_sched k) ci -> w) -> running h cur k -> s_current_task_id (k_sched k) = Some cur ->
  rsafe h cur w (fun _ k' => running h cur k') (sys_send_typed (S fuel) ci tag version payload k).
Proof.
  intros Hw Hr Hcur. pose proof (rn_sound _ _ _ Hr) as [Hwf _ Hm]. destruct (check_envelope tag version payload) as [t|e] eqn:He.
  - destruct (sys_send_typed_enters (S fuel) ci tag version payload t cur k Hwf He Hcur) as (m & k' & Hb & Hf & ->).
    apply check_envelope_Ok in He as (Hlen & _). apply send_loop_safe; [by eapply build_message_message_ok|done|by rewrite (ipc_frame_sched _ _ _ _ Hf)|].
    eapply running_frame; [done..|apply Hwf|done|apply Hr].
  - unfold sys_send_typed, send_enter. rewrite He. by apply safe_done.
Qed.

Lemma sys_receive_typed_safe (w : Prop) fuel k :
  (receive_waits (k_sched k) -> w) -> running h cur k -> s_current_task_id (k_sched k) = Some cur ->
  rsafe h cur w (fun r k' => running h cur k' /\ forall m, r = Ok m -> message_ok m) (sys_receive_typed (S fuel) k).
Proof.
  intros Hw Hr Hcur. pose proof (rn_sound _ _ _ Hr) as [Hwf _ Hm]. destruct (receive_enters (S fuel) cur k Hwf Hcur) as (k' & Hf & ->).
  apply receive_loop_safe; [done|by rewrite (ipc_frame_sched _ _ _ _ Hf)|]. eapply running_frame; [done..|apply Hwf|done|apply Hr].
Qed.

(** *** Requests that do not wait *)

(** [m] ends with the kernel sound and a machine word as its result. *)
Definition answers (m : K N) (k : Kernel) : Prop := wp m (fun v k' => running h cur k' /\ v < u64_limit) k.

Lemma running_steady k k' :
  running h cur k -> steady k k' -> kernel_wf k' -> same_but_caps (k_sched k) (k_sched k') -> running h cur k'.
Proof.
  intros [[_ Hd Hm] Hp Hsp] [Hk Hpre] Hwf Hsame. split; [split; [done| |by eapply same_but_caps_messages]| |].
  - unfold depth_ok in *. by rewrite Hpre.
  - destruct Hsame as [_ Hs]. rewrite Hs. by apply fmap_is_Some.
  - unfold active_space in *. rewrite Hk. exact Hsp.
Qed.

Lemma grant_answers src target rights k :
  running h cur k -> audit_room CALL_EVENTS k -> answers (dispatch_cap_grant cur src target rights) k.
Proof.
  intros Hr Hroom. pose proof (rn_sound _ _ _ Hr) as [Hwf _ _]. destruct (kw_audit _ Hwf) as [ev Hev].
  unfold audit_room, CALL_EVENTS in Hroom. rewrite (ar_total _ _ Hev) in Hroom.
  unfold answers. eapply wp_mono; [apply wp_leaves; [apply leaves_grant|apply (dispatch_cap_grant_spec k cur src target rights ev); [done..|lia]]|].
  cbv beta. intros v k' [Hv Hst]. destruct (grant_decision _ _ _ _) as [[donor slot]|]; destruct Hv as [-> Hg]; (split; [|done]).
  - eapply running_steady; [done..|apply Hg|apply Hg].
  - eapply running_steady; [done..|apply Hg|]. destruct Hg as [_ -> _ _]. apply same_but_caps_refl.
Qed.

Lemma revoke_answers target slot k :
  running h cur k -> audit_room CALL_EVENTS k -> answers (dispatch_cap_revoke cur target slot) k.
Proof.
  intros Hr Hroom. pose proof (rn_sound _ _ _ Hr) as [Hwf _ _]. destruct (kw_audit _ Hwf) as [ev Hev].
  unfold audit_room, CALL_EVENTS in Hroom. rewrite (ar_total _ _ Hev) in Hroom.
  assert (~ holds_grant_to (k_sched k) target \/ cap_of (k_sched k) target slot = None -> answers (dispatch_cap_revoke cur target slot) k) as Hno.
  { intros Hno. eapply wp_mono; [by apply cap_revoke_refused|]. by intros v k' [-> ->]. }
  destruct (holds_grant_dec (k_sched k) target) as [Hg|Hg]; [apply Hwf| |auto]. destruct (cap_of (k_sched k) target slot) as [cap|] eqn:Hc; [|auto].
  unfold answers. eapply wp_mono; [apply wp_leaves; [apply leaves_cap_revoke|apply (cap_revoke_granted k cur target slot cap ev); [done..|lia|done|done]]|].
  cbv beta. intros v k' [[-> (cl & Hrf)] Hst]. split; [|done]. eapply running_steady; [done..|apply Hrf|apply Hrf].
Qed.

Lemma send_async_answers ci tag version payload k :
  running h cur k -> s_current_task_id (k_sched k) = Some cur -> answers (handle_send_async ci tag version payload) k.
Proof.
  intros Hr Hcur. pose proof (rn_sound _ _ _ Hr) as [Hwf Hd Hm]. unfold answers, handle_send_async. apply wp_kbind.
  assert (forall r : result IpcError unit, match r with Ok _ => 0 | Err QueueFull => SYS_ERR - 7 | Err _ => SYS_ERR end < u64_limit) as Hv by by intros [|[]].
  destruct (check_envelope tag version payload) as [t|e] eqn:He.
  - eapply wp_mono; [by apply (sys_send_async_spec cur ci tag version payload t)|]. cbv beta. intros r k' (m & s' & Hb & Has & Hf).
    apply check_envelope_Ok in He as (Hlen & _). apply wp_kret. split; [|apply Hv]. eapply running_frame; [done..| | |].
    + eapply async_sends_wf; [apply Hwf|done].
    + eapply async_sends_messages; [apply Hwf|done|by eapply build_message_message_ok|done].
    + destruct Has; try apply Hr. apply present_update; [apply Hwf|apply Hr].
  - unfold sys_send_async, send_enter. rewrite He. apply wp_kbind, wp_kret, wp_kret, wp_kret. split; [done|exact (Hv (Err e))].
Qed.

Lemma copy_out_answers m buf cap k :
  hhdm_offset = h -> running h cur k -> message_ok m -> buf < u64_limit -> cap < u64_limit -> answers (copy_out m buf cap) k.
Proof.
  intros Hh Hr [Hp Hl] Hb Hc. pose proof Hr as [_ _ (F & [Hinv _] & _)]. rewrite <- Hh in Hinv.
  destruct (copy_out_spec k F Hinv m buf cap Hb Hc Hl Hp) as (r & k' & Hrun & Hres). apply wp_run. exists r, k'. split; [done|].
  destruct Hres as [(_ & -> & -> & _)|(_ & -> & ->)]; [|done]. split; [|unfold u64_limit in *; lia].
  destruct Hr as [[[] ? ?] ? ?]. by split; [split; [split|..]|..].
Qed.

Lemma receive_async_answers buf cap k :
  hhdm_offset = h -> running h cur k -> s_current_task_id (k_sched k) = Some cur -> buf < u64_limit -> cap < u64_limit ->
  answers (handle_receive_async buf cap) k.
Proof.
  intros Hh Hr Hcur Hb Hc. destruct (rn_present _ _ _ Hr) as [t Ht]. unfold answers, handle_receive_async. apply wp_kbind.
  eapply wp_mono; [apply (sys_receive_async_spec cur t); [apply Hr|done|done]|]. cbv beta. intros r k' (o & s' & Hrc & -> & Hf).
  destruct (receive_frame k t o s' k' (fun s => s) _ Hr Ht Hrc (or_introl eq_refl) Hf) as [Hr' Hmo].
  destruct o as [[m|[]]|]; try by apply wp_kret. apply copy_out_answers; auto.
Qed.

Lemma running_printed c a k : traced (k_amb k) a -> running h cur k -> running h cur (set_k_console c (set_k_amb a k)).
Proof.
  intros (Hpre & _) [[[] Hd ?] ? ?]. split; [split; [by split| |done]|done|done]. unfold depth_ok in *. ksimp. by rewrite Hpre.
Qed.

Lemma serial_answers ci bytes k : running h cur k -> answers (handle_serial_write ci bytes) k.
Proof.
  intros Hr. destruct (serial_write_gated k ci bytes (kw_unlocked _ (so_wf _ (rn_sound _ _ _ Hr)))) as (a & Ha & Hrun).
  apply wp_run. rewrite Hrun. destruct (holds_serial _ _); eexists _, _; (split; [done|]); (split; [|done]); [by apply running_printed|].
  pose proof (running_printed (k_console k) a k Ha Hr). by destruct k.
Qed.

Context `{B : Blobs}.

Lemma spawn_answers ty k :
  running h cur k -> (cur = 1 -> spawn_ready h k /\ blobs_fit) -> answers (handle_spawn cur ty) k.
Proof.
  intros Hr Hsp. unfold answers, handle_spawn. destruct (N.eqb_spec cur 1) as [Hc|_]; [|by apply wp_kret].
  destruct (Hsp Hc) as [Hrdy Hfit]. eapply wp_mono; [apply (dispatch_spawn_spec h); [apply Hr|done|done]|]. cbv beta. intros v k' Ho.
  assert (forall k', spawn_frame h k k' -> is_Some (task_slot (k_sched k') cur) -> messages_ok (k_sched k') -> running h cur k') as Hrun.
  { intros k2 [Hwf Hk Hpre (F' & Hkeep)] Hp Hm. destruct Hr as [[_ Hd _] _ (F & Hspace & Hst)].
    destruct (Hkeep _ F (map_disjoint_empty_l _) Hst Hspace) as (_ & Hspace' & _).
    split; [split; [done|unfold depth_ok in *; by rewrite Hpre|done]|done|]. exists F. split; [|done].
    assert (active_root k2 = active_root k) as -> by (rewrite Hk; done). done. }
  pose proof (rn_sound _ _ _ Hr) as [_ _ Hm].
  destruct Ho as [_|id blob t ks init slot k' Hfree _ (root & F & code & stack & -> & _) Hf _ _ _ _ Hinit _ _ Hslots Hcaps|id blob k' _ _ _ [_ Hsame] Hf].
  - done.
  - apply free_slot_Some in Hfree as [Hid _]. split; [|unfold u64_limit, MAX_TASKS in *; lia]. assert (is_Some (task_slot (k_sched k') 1)) as [t1 Ht1].
    { specialize (Hcaps slot). rewrite decide_True in Hcaps by done. unfold cap_of in Hcaps. by destruct (task_slot (k_sched k') 1). }
    apply Hrun; [done|subst cur; by eexists|]. intros j t. rewrite Hslots. repeat case_decide; [|rewrite Ht1|apply Hm]; intros [= <-].
    + split; [done|]. by apply Forall_nil.
    + exact (Hm _ _ Hinit).
  - split; [|done]. apply Hrun; [done|by rewrite Hsame; apply Hr|]. intros j t. rewrite Hsame. apply Hm.
Qed.

(** *** Dispatch *)

(** A request that has to wait in [s]. *)
Definition request_waits (s : Scheduler) (req : KernelRequest) : Prop :=
  match req with
  | RYield => True
  | RSend ci _ | RSendTyped ci _ _ _ => send_waits s ci
  | RReceive _ _ => receive_waits s
  | _ => False
  end.

(** Arguments the decoder can produce. *)
Definition request_fits (req : KernelRequest) : Prop :=
  match req with RReceive buf cap | RReceiveAsync buf cap => buf < u64_limit /\ cap < u64_limit | _ => True end.

Lemma answers_safe b m k : answers m k -> rsafe h cur b (fun v k' => running h cur k' /\ v < u64_limit) (rlift m k).
Proof. apply rsafe_rlift. Qed.

Lemma handle_request_safe fuel req k (w : Prop) :
  (request_waits (k_sched k) req -> w) -> request_fits req -> hhdm_offset = h ->
  running h cur k -> s_current_task_id (k_sched k) = Some cur -> audit_room CALL_EVENTS k ->
  (forall ty, req = RSpawnTask ty -> cur = 1 -> spawn_ready h k /\ blobs_fit) ->
  rsafe h cur w (fun v k' => running h cur k' /\ v < u64_limit) (handle_request (S fuel) cur req k).
Proof.
  intros Hb Hfit Hh Hr Hcur Hroom Hsp.
  destruct req as [| |ci payload|buf cap|ci bytes|src target rights|ci tag version payload|target slot|ci tag version payload|buf cap|ty|n];
    cbn [handle_request request_waits request_fits] in *.
  - by apply safe_done.
  - eapply rsafe_bind; [apply yield_safe; [by apply Hb|done]|]. cbv beta. intros _ k' Hr'. by apply safe_done.
  - eapply rsafe_bind.
    + unfold sys_send. eapply rsafe_bind; [by apply sys_send_typed_safe|]. cbv beta. intros r k' Hr'. apply safe_done.
      instantiate (1 := fun _ k' => running h cur k'). exact Hr'.
    + cbv beta. intros r k' Hr'. apply safe_done. by destruct r.
  - eapply rsafe_bind.
    + unfold sys_receive. eapply rsafe_bind; [by apply sys_receive_typed_safe|]. cbv beta. intros r k' [Hr' Hmo]. apply safe_done.
      instantiate (1 := fun r k' => running h cur k' /\ forall m, r = Ok m -> message_ok m). split; [done|].
      intros m Hm. apply Hmo. destruct r; simpl in Hm; congruence.
    + cbv beta. intros r k' [Hr' Hmo]. destruct r as [m|]; [|by apply safe_done]. apply answers_safe. apply copy_out_answers; naive_solver.
  - by apply answers_safe, serial_answers.
  - by apply answers_safe, grant_answers.
  - eapply rsafe_bind; [by apply sys_send_typed_safe|]. cbv beta. intros r k' Hr'. apply safe_done. by destruct r.
  - by apply answers_safe, revoke_answers.
  - by apply answers_safe, send_async_answers.
  - destruct Hfit. by apply answers_safe, receive_async_answers.
  - apply answers_safe, spawn_answers; [done|]. by apply (Hsp ty).
  - by apply safe_done.
Qed.

(** The system calls that have to wait: a yield, a send to a task that is not
    waiting for a message, a receive with nothing to receive. *)
Definition call_waits (k : Kernel) (f : SyscallFrame) : Prop :=
  match sf_rax f with
  | 1 => True
  | 2 | 6 => send_waits (k_sched k) (sf_rdi f)
  | 3 => receive_waits (k_sched k)
  | _ => False
  end.

Lemma decodes_waits k f req : decodes k f req -> request_waits (k_sched k) req -> call_waits k f.
Proof.
  unfold decodes, call_waits. intros Hd Hb. destruct (sf_rax f) as [|p]; [by subst|].
  do 4 (try (destruct p as [p|p|])); try done; try (by subst); by destruct Hd.
Qed.

Lemma decodes_fits k f req : sf_rsi f < u64_limit -> sf_rdx f < u64_limit -> decodes k f req -> request_fits req.
Proof.
  unfold decodes. intros Hsi Hdx Hd. destruct (sf_rax f) as [|p]; [by subst|].
  do 4 (try (destruct p as [p|p|])); try (by subst); by destruct Hd.
Qed.

Lemma decodes_spawn k f ty : decodes k f (RSpawnTask ty) -> sf_rax f = SYS_SPAWN_TASK.
Proof.
  unfold decodes. destruct (sf_rax f) as [|p]; [done|]. do 4 (try (destruct p as [p|p|])); try done; by inversion 1.
Qed.

(** C6: System calls keep the kernel sound.  Let a task run in a kernel with
    well-formed tables, messages and audit log and a sound address space, and let it
    make any system call, with any register contents.  The call panics the kernel if
    it passes a slice that starts at address zero and passes validation.  Every other
    call never panics and never deadlocks, if the audit counter has room and, for a
    task creation by task 1, the frames and the program image it needs are there.
    It ends, unless it is a yield, a send to a task not waiting for a message, or a
    receive with nothing to receive: such a call may give up the processor any number
    of times, each time with the kernel sound, continues safely from whatever sound
    state the task is resumed in, and may wait for ever.  At the end the kernel and
    the address space are sound again and only [rax] has changed, to a machine word. *)
Theorem syscall_safe fuel f k :
  hhdm_response = Some h -> running h cur k -> s_current_task_id (k_sched k) = Some cur -> audit_room CALL_EVENTS k ->
  sf_rsi f < u64_limit -> sf_rdx f < u64_limit -> sf_r8 f < u64_limit ->
  (sf_rax f = SYS_SPAWN_TASK -> cur = 1 -> spawn_ready h k /\ blobs_fit) ->
  (null_slice k f -> syscall_dispatch (S fuel) f k = Panic) /\
  (~ null_slice k f ->
   rsafe h cur (call_waits k f) (fun f' k' => running h cur k' /\ exists v, v < u64_limit /\ f' = set_sf_rax v f)
     (syscall_dispatch (S fuel) f k)).
Proof.
  intros Hh Hr Hcur Hroom Hsi Hdx H8 Hsp. assert (hhdm_offset = h) as Hoff by (unfold hhdm_offset; by rewrite Hh).
  pose proof Hr as [[[_ Hl _] _ _] _ (F & [Hinv _] & _)]. rewrite <- Hoff in Hinv.
  assert (current_or_max k = Ret (cur, k)) as Hmax.
  { assert (wp current_or_max (fun r k' => r = cur /\ k' = k) k) as (r & k' & -> & -> & ->)%wp_run; [|done].
    unfold current_or_max. apply wp_kbind, wp_lock_sched; [done|].
    apply wp_kbind, wp_kget, wp_kbind, wp_unlock_sched, wp_kret. ksimp. by rewrite relock, Hcur by done. }
  unfold syscall_dispatch. rewrite (rbind_rlift _ _ _ _ _ Hmax). split.
  - intros Hnull. unfold rbind, rlift. by rewrite (parse_request_null k F Hinv f Hdx H8 Hnull).
  - intros Hnull. destruct (parse_request_decodes k F Hinv f Hsi Hdx H8 Hnull) as (req & Hrun & Hdec).
    rewrite (rbind_rlift _ _ _ _ _ Hrun). eapply rsafe_bind.
    + apply (handle_request_safe fuel req k (call_waits k f)); try done; [by apply decodes_waits|by eapply decodes_fits|].
      intros ty ->. apply Hsp. by eapply decodes_spawn.
    + cbv beta. intros v k' [Hr' Hv]. apply safe_done. split; [done|]. by exists v.
Qed.
End safety.

Lemma example_init_running : running (L := example_layout) 0xffff800000000000 1 example_init.
Proof.
  split; [split; [apply example_init_wf|done|]|by eexists|].
  - intros i t. change (task_slot (k_sched example_init) i) with (task_slot (put_slot 1 (Some (example_task 1 Running [])) Scheduler_init) i).
    rewrite task_slot_put by done. case_decide; [intros [= <-]; split; [done|by apply Forall_nil]|].
    unfold task_slot. destruct (idx _ i) as [o|] eqn:Ho; [|done]. apply idx_elem_of, elem_of_replicate_inv in Ho. by subst.
  - exists {[0x1000 := 4%nat]}. split; [exact example_space_ok|]. by intros t [l [<- _]%lookup_singleton_Some].
Qed.

Definition spawn_ramfs_frame : SyscallFrame := mkSyscallFrame SYS_SPAWN_TASK 0 0 0 1 3 0 0 0 0 0 0 0 0 0.

Lemma syscall_safe_witness :
  rsafe (L := example_layout) 0xffff800000000000 1 False
    (fun f' k' => running (L := example_layout) 0xffff800000000000 1 k' /\ exists v, v < u64_limit /\ f' = set_sf_rax v spawn_ramfs_frame)
    (syscall_dispatch (L := example_layout) (B := example_blobs) 3 spawn_ramfs_frame example_init).
Proof.
  apply (syscall_safe (L := example_layout) 0xffff800000000000 1 (B := example_blobs) 2 spawn_ramfs_frame example_init); try done.
  - apply example_init_running.
  - intros _ _. split; [apply example_init_ready|]. intros ty b. unfold blob_of. repeat case_match; try done; intros [= <-]; vm_compute; discriminate.
  - intros [_ (len & limit & Hc & _)]. discriminate Hc.
Defined.
