(* ===== verification/UserCode.v ===== *)
(** * User programs

    The programs of [kernel/userspace/mod.rs], as the assembly they are written in,
    and their execution: an instruction changes the registers of the program, and
    [int 0x80] enters [syscall_dispatch] of [Syscall.v] with them.  The encoding of
    instructions is the assembler's; addresses of labels follow from it.  The
    programs run in the pages [spawn_user] gives them. *)

From S2P Require Import Prelude Ring Text Preempt Trace Capability AuditTrail Message Machine Frames.
From S2P Require Import Task Scheduler Kernel Switch Scheduling Spawn Contexts Entry Ipc Rendezvous Messaging.
From S2P Require Import Authority Propagation Delegation Paging AddressSpace UserMemory Userspace Syscall Requests InitSpawn Safety.
Local Open Scope N_scope.

(** ** Assembly *)

(** A reference to a numbered local label: the next one, or the last one. *)
Inductive Ref : Type := Fwd (n : N) | Bwd (n : N).

Inductive Operand : Type := Imm (v : N) | Rg (r : Reg) | Mem (base : Reg).

Inductive instr : Type :=
| MOV (dst : Reg) (src : Operand)
| LEA (dst : Reg) (target : Ref)
| ADD (dst : Reg) (v : N)
| CMP (a b : Reg)
| JMP (target : Ref)
| JE (target : Ref)
| JNE (target : Ref)
| INT (vector : N).

Inductive item : Type :=
| Label (n : N)
| Ins (i : instr)
| Data (bytes : list N)      (* .ascii *)
| Space (n : nat).           (* .space *)

#[export] Instance Ref_eq_dec : EqDecision Ref.
Proof. solve_decision. Defined.

Definition NEWLINE : N := 10.

(** *** The programs *)

Definition user_prog : list item := [
  Label 2;
  Ins (MOV RAX (Imm 2)); Ins (MOV RDI (Imm 0)); Ins (LEA RSI (Fwd 3)); Ins (MOV RDX (Imm 29)); Ins (INT 0x80);
  Ins (MOV RAX (Imm 2)); Ins (MOV RDI (Imm 1)); Ins (LEA RSI (Fwd 4)); Ins (MOV RDX (Imm 23)); Ins (INT 0x80);
  Ins (MOV RAX (Imm 1)); Ins (INT 0x80);
  Ins (JMP (Bwd 2));
  Label 3; Data (as_bytes "Hello from ring-3 user task 4");
  Label 4; Data (as_bytes "write /data/sensor.log")].

Definition logger_prog : list item := [
  Label 5;
  Ins (MOV RAX (Imm 3)); Ins (LEA RSI (Fwd 8)); Ins (MOV RDX (Imm 128)); Ins (INT 0x80);
  Ins (MOV RBX (Rg RAX));
  Ins (MOV RAX (Imm 4)); Ins (MOV RDI (Imm 0)); Ins (LEA RSI (Fwd 6)); Ins (MOV RDX (Imm 24)); Ins (INT 0x80);
  Ins (MOV RAX (Imm 4)); Ins (MOV RDI (Imm 0)); Ins (LEA RSI (Fwd 8)); Ins (MOV RDX (Rg RBX)); Ins (INT 0x80);
  Ins (MOV RAX (Imm 4)); Ins (MOV RDI (Imm 0)); Ins (LEA RSI (Fwd 7)); Ins (MOV RDX (Imm 1)); Ins (INT 0x80);
  Ins (JMP (Bwd 5));
  Label 6; Data (as_bytes "[user-logger] received: ");
  Label 7; Data [NEWLINE];
  Label 8; Space 128].

Definition faulty_user_prog : list item := [
  Ins (MOV RAX (Imm 4)); Ins (MOV RDI (Imm 0)); Ins (LEA RSI (Fwd 10)); Ins (MOV RDX (Imm 27)); Ins (INT 0x80);
  Ins (MOV RAX (Imm 1)); Ins (INT 0x80);
  Ins (MOV RAX (Imm 4)); Ins (MOV RDI (Imm 0)); Ins (LEA RSI (Fwd 10)); Ins (MOV RDX (Imm 27)); Ins (INT 0x80);
  Ins (MOV RBX (Imm 0xffffffffffffffff)); Ins (CMP RAX RBX); Ins (JNE (Fwd 9));
  Ins (MOV RAX (Imm 4)); Ins (MOV RDI (Imm 0)); Ins (MOV RSI (Imm 0xffffffff80000000)); Ins (MOV RDX (Imm 10)); Ins (INT 0x80);
  Ins (MOV RBX (Imm 0xffffffffffffffff)); Ins (CMP RAX RBX); Ins (JNE (Fwd 9));
  Ins (MOV RAX (Imm 0x12345678)); Ins (MOV RBX (Mem RAX)); Ins (JMP (Fwd 9));
  Label 9;
  Ins (MOV RAX (Imm 1)); Ins (INT 0x80); Ins (JMP (Bwd 9));
  Label 10; Data (as_bytes "[Task 6] Serial is active." ++ [NEWLINE])].

Definition async_sender_prog : list item := [
  Label 1;
  Ins (MOV RAX (Imm 8)); Ins (MOV RDI (Imm 0)); Ins (LEA RSI (Fwd 3)); Ins (MOV RDX (Imm 0x00010002)); Ins (MOV R8 (Imm 19)); Ins (INT 0x80);
  Ins (MOV RBX (Imm 0xfffffffffffffff8)); Ins (CMP RAX RBX); Ins (JE (Fwd 2));
  Ins (MOV RAX (Imm 4)); Ins (MOV RDI (Imm 1)); Ins (LEA RSI (Fwd 4)); Ins (MOV RDX (Imm 28)); Ins (INT 0x80);
  Label 2;
  Ins (MOV RAX (Imm 1)); Ins (INT 0x80); Ins (JMP (Bwd 1));
  Label 3; Data (as_bytes "Async Sensor Msg #1");
  Label 4; Data (as_bytes "[Task 7] Async send success" ++ [NEWLINE])].

Definition async_receiver_prog : list item := [
  Label 1;
  Ins (MOV RAX (Imm 9)); Ins (LEA RSI (Fwd 4)); Ins (MOV RDX (Imm 128)); Ins (INT 0x80);
  Ins (MOV RBX (Imm 0xfffffffffffffff7)); Ins (CMP RAX RBX); Ins (JE (Fwd 2));
  Ins (MOV RBX (Rg RAX));
  Ins (MOV RAX (Imm 4)); Ins (MOV RDI (Imm 0)); Ins (LEA RSI (Fwd 3)); Ins (MOV RDX (Imm 25)); Ins (INT 0x80);
  Ins (MOV RAX (Imm 4)); Ins (MOV RDI (Imm 0)); Ins (LEA RSI (Fwd 4)); Ins (MOV RDX (Rg RBX)); Ins (INT 0x80);
  Ins (MOV RAX (Imm 4)); Ins (MOV RDI (Imm 0)); Ins (LEA RSI (Fwd 5)); Ins (MOV RDX (Imm 1)); Ins (INT 0x80);
  Label 2;
  Ins (MOV RAX (Imm 1)); Ins (INT 0x80); Ins (JMP (Bwd 1));
  Label 3; Data (as_bytes "[Task 8] Async received: ");
  Label 4; Space 128;
  Label 5; Data [NEWLINE]].

Definition ramfs_prog : list item := [
  Label 1;
  Ins (MOV RAX (Imm 3)); Ins (LEA RSI (Fwd 4)); Ins (MOV RDX (Imm 128)); Ins (INT 0x80);
  Ins (MOV RBX (Rg RAX));
  Ins (MOV RAX (Imm 4)); Ins (MOV RDI (Imm 0)); Ins (LEA RSI (Fwd 2)); Ins (MOV RDX (Imm 27)); Ins (INT 0x80);
  Ins (MOV RAX (Imm 4)); Ins (MOV RDI (Imm 0)); Ins (LEA RSI (Fwd 4)); Ins (MOV RDX (Rg RBX)); Ins (INT 0x80);
  Ins (MOV RAX (Imm 4)); Ins (MOV RDI (Imm 0)); Ins (LEA RSI (Fwd 3)); Ins (MOV RDX (Imm 1)); Ins (INT 0x80);
  Ins (JMP (Bwd 1));
  Label 2; Data (as_bytes "[user-ramfs] file request: ");
  Label 3; Data [NEWLINE];
  Label 4; Space 128].

Definition init_prog : list item := [
  Ins (MOV RAX (Imm 10)); Ins (MOV RDI (Imm 1)); Ins (INT 0x80);
  Ins (MOV RAX (Imm 5)); Ins (MOV RDI (Imm 0)); Ins (MOV RSI (Imm 2)); Ins (MOV RDX (Imm 3)); Ins (INT 0x80);
  Ins (MOV RAX (Imm 10)); Ins (MOV RDI (Imm 3)); Ins (INT 0x80);
  Ins (MOV RAX (Imm 5)); Ins (MOV RDI (Imm 0)); Ins (MOV RSI (Imm 3)); Ins (MOV RDX (Imm 3)); Ins (INT 0x80);
  Ins (MOV RAX (Imm 10)); Ins (MOV RDI (Imm 2)); Ins (INT 0x80);
  Ins (MOV RAX (Imm 5)); Ins (MOV RDI (Imm 1)); Ins (MOV RSI (Imm 4)); Ins (MOV RDX (Imm 3)); Ins (INT 0x80);
  Ins (MOV RAX (Imm 5)); Ins (MOV RDI (Imm 2)); Ins (MOV RSI (Imm 4)); Ins (MOV RDX (Imm 3)); Ins (INT 0x80);
  Ins (MOV RAX (Imm 4)); Ins (MOV RDI (Imm 0)); Ins (LEA RSI (Fwd 8)); Ins (MOV RDX (Imm 35)); Ins (INT 0x80);
  Label 9;
  Ins (MOV RAX (Imm 1)); Ins (INT 0x80); Ins (JMP (Bwd 9));
  Label 8; Data (as_bytes "[user-init] system boot complete." ++ [NEWLINE])].

Definition preempt_user_prog : list item := [
  Ins (MOV RCX (Imm 0));
  Label 100;
  Ins (ADD RCX 1); Ins (JMP (Bwd 100))].

(** ** Assembling *)

(** The encoding of the instruction at each place of a program. *)
Class Assembler : Type := { encode : list item -> nat -> list N }.

Section assembler.
Context `{ASM : Assembler}.

Definition item_bytes (prog : list item) (i : nat) : list N :=
  match prog !! i with
  | Some (Ins _) => encode prog i
  | Some (Data bytes) => bytes
  | Some (Space n) => replicate n 0
  | Some (Label _) | None => []
  end.

(** The bytes between [_blob_start] and [_blob_end], and the offset of an item. *)
Definition assemble (prog : list item) : list N := concat (item_bytes prog <$> seq 0 (length prog)).
Definition offset_of (prog : list item) (i : nat) : N := lenN (concat (item_bytes prog <$> seq 0 i)).

Definition assembled : Blobs := {|
  user_blob := assemble user_prog;
  logger_blob := assemble logger_prog;
  faulty_user_blob := assemble faulty_user_prog;
  async_sender_blob := assemble async_sender_prog;
  async_receiver_blob := assemble async_receiver_prog;
  ramfs_blob := assemble ramfs_prog;
  init_blob := assemble init_prog;
  preempt_user_blob := assemble preempt_user_prog
|}.
End assembler.

(** The place of label [n] among the items of [l], the first one of which has
    index [i]: the first occurrence, or the last. *)
Fixpoint first_label (n : N) (l : list item) (i : nat) : option nat :=
  match l with
  | [] => None
  | Label m :: l' => if m =? n then Some i else first_label n l' (S i)
  | _ :: l' => first_label n l' (S i)
  end.
Fixpoint last_label (n : N) (l : list item) (i : nat) : option nat :=
  match l with
  | [] => None
  | x :: l' =>
      match last_label n l' (S i) with
      | Some j => Some j
      | None => match x with Label m => if m =? n then Some i else None | _ => None end
      end
  end.

Definition resolve (prog : list item) (pc : nat) (r : Ref) : option nat :=
  match r with
  | Fwd n => first_label n (drop (S pc) prog) (S pc)
  | Bwd n => last_label n (take pc prog) 0
  end.

(** ** Execution *)

(** The registers of a program (the frame [int 0x80] saves), its zero flag and the
    index of its next item. *)
Record User : Type := mkUser { u_regs : SyscallFrame; u_zf : bool; u_pc : nat }.

Definition get_reg (r : Reg) (f : SyscallFrame) : N :=
  match r with
  | RAX => sf_rax f | RBX => sf_rbx f | RCX => sf_rcx f | RDX => sf_rdx f
  | RSI => sf_rsi f | RDI => sf_rdi f | RBP => sf_rbp f | R8 => sf_r8 f | R9 => sf_r9 f | R10 => sf_r10 f
  | R11 => sf_r11 f | R12 => sf_r12 f | R13 => sf_r13 f | R14 => sf_r14 f | R15 => sf_r15 f
  end.

Definition set_reg (r : Reg) (v : N) (f : SyscallFrame) : SyscallFrame :=
  let '(mkSyscallFrame rax rbx rcx rdx rsi rdi rbp r8 r9 r10 r11 r12 r13 r14 r15) := f in
  match r with
  | RAX => mkSyscallFrame v rbx rcx rdx rsi rdi rbp r8 r9 r10 r11 r12 r13 r14 r15
  | RBX => mkSyscallFrame rax v rcx rdx rsi rdi rbp r8 r9 r10 r11 r12 r13 r14 r15
  | RCX => mkSyscallFrame rax rbx v rdx rsi rdi rbp r8 r9 r10 r11 r12 r13 r14 r15
  | RDX => mkSyscallFrame rax rbx rcx v rsi rdi rbp r8 r9 r10 r11 r12 r13 r14 r15
  | RSI => mkSyscallFrame rax rbx rcx rdx v rdi rbp r8 r9 r10 r11 r12 r13 r14 r15
  | RDI => mkSyscallFrame rax rbx rcx rdx rsi v rbp r8 r9 r10 r11 r12 r13 r14 r15
  | RBP => mkSyscallFrame rax rbx rcx rdx rsi rdi v r8 r9 r10 r11 r12 r13 r14 r15
  | R8 => mkSyscallFrame rax rbx rcx rdx rsi rdi rbp v r9 r10 r11 r12 r13 r14 r15
  | R9 => mkSyscallFrame rax rbx rcx rdx rsi rdi rbp r8 v r10 r11 r12 r13 r14 r15
  | R10 => mkSyscallFrame rax rbx rcx rdx rsi rdi rbp r8 r9 v r11 r12 r13 r14 r15
  | R11 => mkSyscallFrame rax rbx rcx rdx rsi rdi rbp r8 r9 r10 v r12 r13 r14 r15
  | R12 => mkSyscallFrame rax rbx rcx rdx rsi rdi rbp r8 r9 r10 r11 v r13 r14 r15
  | R13 => mkSyscallFrame rax rbx rcx rdx rsi rdi rbp r8 r9 r10 r11 r12 v r14 r15
  | R14 => mkSyscallFrame rax rbx rcx rdx rsi rdi rbp r8 r9 r10 r11 r12 r13 v r15
  | R15 => mkSyscallFrame rax rbx rcx rdx rsi rdi rbp r8 r9 r10 r11 r12 r13 r14 v
  end.

(** What a step of a program ends in. *)
Inductive Event : Type :=
| Next (u : User)
| PageFault (addr : N)   (* exception 14, handled by [exception_dispatch] *)
| Stray.                 (* no instruction at the program counter *)

Section execution.
Context `{L : Layout} `{B : Blobs} `{ASM : Assembler}.
Context (prog : list item).

Definition label_addr (i : nat) : N := USER_CODE_VADDR + offset_of prog i.

(** An access of the program itself, eight bytes at [a]. *)
Definition load64 (a : N) (k : Kernel) : option N :=
  if forallb (fun x => access_ok (k_mem k) hhdm_offset (active_root k) x false) (rangeN a 8)
  then from_ne_bytes <$> user_bytes k a 8 else None.

Definition advance (u : User) : User := mkUser (u_regs u) (u_zf u) (S (u_pc u)).
Definition put (u : User) (r : Reg) (v : N) : User := mkUser (set_reg r v (u_regs u)) (u_zf u) (S (u_pc u)).
Definition goto (u : User) (t : Ref) : Event :=
  match resolve prog (u_pc u) t with Some i => Next (mkUser (u_regs u) (u_zf u) i) | None => Stray end.

(** The instructions that do not enter the kernel. *)
Definition exec (k : Kernel) (u : User) (i : instr) : Event :=
  match i with
  | MOV dst (Imm v) => Next (put u dst v)
  | MOV dst (Rg src) => Next (put u dst (get_reg src (u_regs u)))
  | MOV dst (Mem base) =>
      let a := get_reg base (u_regs u) in
      match load64 a k with Some v => Next (put u dst v) | None => PageFault a end
  | LEA dst t => match resolve prog (u_pc u) t with Some j => Next (put u dst (label_addr j)) | None => Stray end
  | ADD dst v =>
      let r := wadd64 (get_reg dst (u_regs u)) v in
      Next (mkUser (set_reg dst r (u_regs u)) (r =? 0) (S (u_pc u)))
  | CMP a b => Next (mkUser (u_regs u) (get_reg a (u_regs u) =? get_reg b (u_regs u)) (S (u_pc u)))
  | JMP t => goto u t
  | JE t => if u_zf u then goto u t else Next (advance u)
  | JNE t => if u_zf u then Next (advance u) else goto u t
  | INT _ => Stray
  end.

(** One item.  The system-call stub returns with the registers of the frame, and
    [iretq] with the flags. *)
Definition ustep (fuel : nat) (u : User) : R Event :=
  match prog !! u_pc u with
  | Some (Label _) => rret (Next (advance u))
  | Some (Ins (INT 0x80)) =>
      let+ f := syscall_dispatch fuel (u_regs u) in rret (Next (mkUser f (u_zf u) (S (u_pc u))))
  | Some (Ins i) => fun k => Ret (Done (exec k u i), k)
  | Some (Data _) | Some (Space _) | None => rret Stray
  end.

Fixpoint urun (fuel : nat) (n : nat) (u : User) : R Event :=
  match n with
  | O => rret (Next u)
  | S n' =>
      let+ e := ustep fuel u in
      match e with Next u' => urun fuel n' u' | _ => rret e end
  end.
End execution.
