(* ===== verification/UserRun.v ===== *)
(** * Runs of the user programs

    Reasoning about the programs of [UserCode.v]: what a run of instructions does
    between two system calls, the system calls of a program whose code and buffers
    are in its code page, and the loop of the services that print what they are
    sent.  The system calls are those of the kernel model, in the address space the
    code was loaded into. *)

From S2P Require Import Prelude Ring Text Preempt Trace Capability AuditTrail Message Machine Frames.
From S2P Require Import Task Scheduler Kernel Switch Scheduling Spawn Contexts Entry Ipc Rendezvous Messaging.
From S2P Require Import Authority Propagation Delegation Paging AddressSpace UserMemory Userspace Syscall Requests InitSpawn Safety UserCode.
Local Open Scope N_scope.

(** ** Offsets *)

Section offsets.
Context `{ASM : Assembler} (prog : list item).

Lemma offset_S i : offset_of prog (S i) = offset_of prog i + lenN (item_bytes prog i).
Proof. unfold offset_of. rewrite seq_S, fmap_app, concat_app, lenN_app. simpl. by rewrite app_nil_r. Qed.

Lemma offset_label i n : prog !! i = Some (Label n) -> offset_of prog (S i) = offset_of prog i.
Proof. intros Hi. rewrite offset_S. unfold item_bytes. rewrite Hi. apply N.add_0_r. Qed.

Lemma offset_mono i j : (i <= j)%nat -> offset_of prog i <= offset_of prog j.
Proof. induction 1 as [|j _ IH]; [done|]. rewrite offset_S. lia. Qed.

(** Items do not overlap, and lie within the program. *)
Lemma offset_before i j : (i < j)%nat -> offset_of prog i + lenN (item_bytes prog i) <= offset_of prog j.
Proof. intros Hij. rewrite <- offset_S. by apply offset_mono. Qed.

Lemma offset_within i : (i < length prog)%nat -> offset_of prog i + lenN (item_bytes prog i) <= lenN (assemble prog).
Proof. intros Hi. by apply (offset_before i (length prog)). Qed.

(** The bytes of an item in the assembled program. *)
Lemma assemble_item i j b :
  (i < length prog)%nat -> idx (item_bytes prog i) j = Some b -> idx (assemble prog) (offset_of prog i + j) = Some b.
Proof.
  intros Hi Hj. unfold assemble, offset_of. rewrite <- (take_drop i (seq 0 (length prog))), take_seq, drop_seq, Nat.min_l by lia.
  rewrite Nat.add_0_l. destruct (length prog - i)%nat as [|n] eqn:Hn; [lia|]. cbn [seq]. rewrite fmap_app, fmap_cons, concat_app. cbn [concat].
  rewrite idx_lookup in *. set (p := concat (item_bytes prog <$> seq 0 i)).
  replace (N.to_nat (lenN p + j)) with (length p + N.to_nat j)%nat by (unfold lenN; lia).
  rewrite lookup_app_r by lia. replace (length p + N.to_nat j - length p)%nat with (N.to_nat j) by lia. by apply lookup_app_l_Some.
Qed.
End offsets.

(** ** Composing steps *)

Section runs.
Context `{L : Layout} `{B : Blobs} `{ASM : Assembler} (prog : list item) (fuel : nat).

(** In some number of steps, without giving up the processor, [u] becomes [u'] and
    the kernel [k'], whatever follows. *)
Definition runs (u : User) (k : Kernel) (u' : User) (k' : Kernel) : Prop :=
  exists n, forall m, urun prog fuel (n + m) u k = urun prog fuel m u' k'.

Lemma runs_refl u k : runs u k u k.
Proof. by exists O. Qed.

Lemma runs_trans u1 k1 u2 k2 u3 k3 : runs u1 k1 u2 k2 -> runs u2 k2 u3 k3 -> runs u1 k1 u3 k3.
Proof. intros [n1 H1] [n2 H2]. exists (n1 + n2)%nat. intros m. by rewrite <- Nat.add_assoc, H1, H2. Qed.

Lemma runs_step u k u' k' : ustep prog fuel u k = Ret (Done (Next u'), k') -> runs u k u' k'.
Proof. intros Hs. exists 1%nat. intros m. cbn [urun Nat.add]. unfold rbind. by rewrite Hs. Qed.

(** Instructions up to the next system call. *)
Fixpoint straight (n : nat) (k : Kernel) (u : User) : option User :=
  match n with
  | O => Some u
  | S n' =>
      match prog !! u_pc u with
      | Some (Label _) => straight n' k (advance u)
      | Some (Ins (INT _)) => None
      | Some (Ins i) => match exec prog k u i with Next u' => straight n' k u' | _ => None end
      | _ => None
      end
  end.

Lemma runs_straight n k u u' : straight n k u = Some u' -> runs u k u' k.
Proof.
  revert u. induction n as [|n IH]; intros u H; cbn [straight] in H; [injection H as <-; apply runs_refl|].
  destruct (prog !! u_pc u) as [[l|i| |]|] eqn:Hi; try done.
  - eapply runs_trans; [|by apply IH]. apply runs_step. unfold ustep. by rewrite Hi.
  - assert (exists u1, exec prog k u i = Next u1 /\ straight n k u1 = Some u') as (u1 & He & Hs).
    { destruct i; try done; case_match; eauto; done. }
    eapply runs_trans; [|by apply IH]. apply runs_step. unfold ustep. rewrite Hi. destruct i; try (by rewrite He). done.
Qed.

Lemma runs_call u k f k' :
  prog !! u_pc u = Some (Ins (INT 0x80)) -> syscall_dispatch fuel (u_regs u) k = Ret (Done f, k') ->
  runs u k (mkUser f (u_zf u) (S (u_pc u))) k'.
Proof. intros Hi Hs. apply runs_step. unfold ustep. rewrite Hi. unfold rbind. by rewrite Hs. Qed.

(** [u] runs to a state with [Q]. *)
Definition uwp (u : User) (k : Kernel) (Q : User -> Kernel -> Prop) : Prop :=
  exists u' k', runs u k u' k' /\ Q u' k'.

Lemma uwp_done u k (Q : User -> Kernel -> Prop) : Q u k -> uwp u k Q.
Proof. intros HQ. exists u, k. split; [apply runs_refl|done]. Qed.

Lemma uwp_straight n u k u1 Q : straight n k u = Some u1 -> uwp u1 k Q -> uwp u k Q.
Proof. intros Hs (u' & k' & Hr & HQ). exists u', k'. split; [|done]. by eapply runs_trans; [eapply runs_straight|]. Qed.

Lemma uwp_call_at u k f k1 Q :
  prog !! u_pc u = Some (Ins (INT 0x80)) -> syscall_dispatch fuel (u_regs u) k = Ret (Done f, k1) ->
  uwp (mkUser f (u_zf u) (S (u_pc u))) k1 Q -> uwp u k Q.
Proof.
  intros Hi Hs (u' & k' & Hr & HQ). exists u', k'. split; [|done]. by eapply runs_trans; [eapply runs_call|].
Qed.

(** A system call that answers [v]. *)
Lemma uwp_call u k v (P : Kernel -> Prop) Q :
  prog !! u_pc u = Some (Ins (INT 0x80)) ->
  (exists k1, syscall_dispatch fuel (u_regs u) k = Ret (Done (set_sf_rax v (u_regs u)), k1) /\ P k1) ->
  (forall k1, P k1 -> uwp (mkUser (set_sf_rax v (u_regs u)) (u_zf u) (S (u_pc u))) k1 Q) -> uwp u k Q.
Proof.
  intros Hi (k1 & Hs & HP) Hn. eapply uwp_call_at; eauto.
Qed.
End runs.

(** Executes [n] instructions up to a system call. *)
Ltac ustraight n :=
  eapply (uwp_straight _ _ n); [cbn -[label_addr]; reflexivity|];
  cbv beta iota delta [put advance set_reg get_reg u_regs u_zf u_pc set_sf_rax sf_rax sf_rbx sf_rcx sf_rdx sf_rsi sf_rdi sf_rbp sf_r8 sf_r9 sf_r10
       sf_r11 sf_r12 sf_r13 sf_r14 sf_r15].

(** ** System calls of a loaded program *)

Section calls.
Context `{L : Layout} `{B : Blobs}.

(** The code page of the active address space is the frame [code]. *)
Record code_page (code : N) (k : Kernel) : Prop := {
  cp_tables : exists F, pt_inv (k_mem k) hhdm_offset (active_root k) F;
  cp_page : forall v, v / 4096 = USER_CODE_VADDR / 4096 -> active_translate k v = Some (code, true, true)
}.

(** The bytes of a frame. *)
Definition frame_bytes (k : Kernel) (code off : N) (n : nat) : list N :=
  (fun i => default 0 (k_user k !! (code + i))) <$> rangeN off n.

Lemma frame_bytes_length k code off n : length (frame_bytes k code off n) = n.
Proof. unfold frame_bytes, rangeN. by rewrite !length_fmap, length_seq. Qed.

Lemma code_translate code k off : code_page code k -> off < 4096 -> active_translate k (USER_CODE_VADDR + off) = Some (code, true, true).
Proof.
  intros [_ Hp] Ho. apply Hp. unfold USER_CODE_VADDR. change 0x400000 with (1024 * 4096). rewrite N.add_comm, N.div_add by done.
  rewrite N.div_small by done. done.
Qed.

Lemma code_div x : USER_CODE_VADDR <= x < USER_CODE_VADDR + 4096 -> x / 4096 = 1024.
Proof. unfold USER_CODE_VADDR. intros Hx. symmetry. apply (N.div_unique x 4096 1024 (x - 0x400000)); lia. Qed.

Lemma code_phys code off : off < 4096 -> phys code (USER_CODE_VADDR + off) = code + off.
Proof.
  intros Ho. unfold phys, USER_CODE_VADDR. change 0x400000 with (1024 * 4096). rewrite N.add_comm with (m := off), N.Div0.mod_add.
  by rewrite N.mod_small.
Qed.

Lemma code_range code k off len w : code_page code k -> off + len <= 4096 -> range_ok k (USER_CODE_VADDR + off) len w.
Proof.
  intros Hc Ho. right. split; [unfold USER_CODE_VADDR in *; change (2 ^ 47) with 140737488355328; lia|]. intros a Ha.
  replace a with (USER_CODE_VADDR + (a - USER_CODE_VADDR)) by lia. unfold access_ok.
  pose proof (code_translate code k (a - USER_CODE_VADDR) Hc ltac:(lia)) as Ht. unfold active_translate in Ht. rewrite Ht. by destruct w.
Qed.

Lemma code_bytes code k off n :
  code_page code k -> off + N.of_nat n <= 4096 -> user_bytes k (USER_CODE_VADDR + off) n = Some (frame_bytes k code off n).
Proof.
  intros Hc. revert off. induction n as [|n IH]; intros off Ho; [done|]. unfold user_bytes, frame_bytes in *. cbn [rangeN].
  rewrite !rangeN_S. cbn [mapM fmap list_fmap]. assert (user_byte k (USER_CODE_VADDR + off) = Some (default 0 (k_user k !! (code + off)))) as ->.
  { unfold user_byte. rewrite (code_translate code) by (done || lia). by rewrite code_phys by lia. }
  specialize (IH (off + 1) ltac:(lia)). rewrite N.add_assoc in IH. cbn. by rewrite IH.
Qed.

Lemma dispatch_decoded fuel f k cur req :
  k_sched_locked k = false -> s_current_task_id (k_sched k) = Some cur -> parse_request f k = Ret (req, k) ->
  syscall_dispatch fuel f k = rbind (handle_request fuel cur req) (fun v => rret (set_sf_rax v f)) k.
Proof.
  intros Hl Hc Hp. assert (wp current_or_max (fun v k' => v = cur /\ k' = k) k) as (v & k' & Hrun & -> & ->)%wp_run.
  { unfold current_or_max. apply wp_kbind, wp_lock_sched; [done|]. apply wp_kbind, wp_kget, wp_kbind, wp_unlock_sched, wp_kret. ksimp.
    by rewrite relock, Hc. }
  unfold syscall_dispatch. by rewrite (rbind_rlift _ _ _ _ _ Hrun), (rbind_rlift _ _ _ _ _ Hp).
Qed.

(** A slice of the code page is decoded to its bytes. *)
Lemma slice_of_page code k rax off n limit make req :
  code_page code k -> off + N.of_nat n <= 4096 -> N.of_nat n <= limit ->
  slice_arg k rax (USER_CODE_VADDR + off) (N.of_nat n) limit make req -> req = make (frame_bytes k code off n).
Proof.
  intros Hc Ho Hn [bytes _ _ Hb|Hno]; [|by destruct Hno; split; [|eapply code_range]].
  rewrite Nat2N.id, (code_bytes code) in Hb by done. by injection Hb as <-.
Qed.

(** The registers of a call whose pointer is into the code page. *)
Definition points_to (f : SyscallFrame) (off : N) : Prop :=
  sf_rsi f = USER_CODE_VADDR + off /\ off <= 4096 /\ sf_rdx f < u64_limit /\ sf_r8 f < u64_limit.

Lemma page_request code k f off :
  code_page code k -> points_to f off -> exists req, parse_request f k = Ret (req, k) /\ decodes k f req.
Proof.
  intros [[F Hinv] _] (Hsi & Ho & Hdx & H8).
  apply (parse_request_spec k F Hinv f); rewrite ?Hsi; unfold USER_CODE_VADDR, u64_limit in *; lia.
Qed.

Definition shown (bytes : list N) : list N := if utf8_valid bytes then bytes else [].

(** Writing [n] bytes of the code page to the console. *)
Lemma serial_call fuel code k cur f off n :
  code_page code k -> k_sched_locked k = false -> s_current_task_id (k_sched k) = Some cur ->
  sf_rax f = 4 -> points_to f off -> sf_rdx f = N.of_nat n -> off + N.of_nat n <= 4096 ->
  exists a, traced (k_amb k) a /\
    syscall_dispatch fuel f k =
      if holds_serial (k_sched k) (sf_rdi f)
      then Ret (Done (set_sf_rax 0 f), set_k_console (k_console k ++ shown (frame_bytes k code off n)) (set_k_amb a k))
      else Ret (Done (set_sf_rax SYS_ERR f), set_k_amb a k).
Proof.
  intros Hc Hl Hcur Hax Hpt Hdx Ho. destruct (page_request code k f off Hc Hpt) as (req & Hp & Hd). pose proof Hpt as (Hsi & _).
  unfold decodes in Hd. rewrite Hax, Hsi, Hdx in Hd. apply (slice_of_page code) in Hd as ->; [|done|done|lia].
  destruct (serial_write_gated k (sf_rdi f) (frame_bytes k code off n) Hl) as (a & Ha & Hw). exists a. split; [done|].
  rewrite (dispatch_decoded fuel f k cur _ Hl Hcur Hp). cbn [handle_request]. unfold shown.
  destruct (holds_serial _ _); by rewrite (rbind_rlift _ _ _ _ _ Hw).
Qed.

(** What a delivery to the code page leaves behind. *)
Record delivered (code off : N) (m : Message) (k k' : Kernel) : Prop := {
  dv_frame : k' = set_k_user (k_user k') k;
  dv_bytes : frame_bytes k' code off (N.to_nat (msg_len m)) = take (N.to_nat (msg_len m)) (msg_payload m);
  dv_rest : forall i, i < off \/ off + msg_len m <= i -> k_user k' !! (code + i) = k_user k !! (code + i)
}.

Lemma copy_out_page code k m off :
  code_page code k -> message_ok m -> off + 128 <= 4096 ->
  exists k', copy_out m (USER_CODE_VADDR + off) 128 k = Ret (msg_len m, k') /\ delivered code off m k k'.
Proof.
  intros Hc [Hp Hl] Ho. pose proof Hc as [[F Hinv] _].
  destruct (copy_out_spec k F Hinv m (USER_CODE_VADDR + off) 128) as (r & k' & Hrun & Hres);
    [unfold USER_CODE_VADDR, u64_limit; lia|done|done|done|]. rewrite N.min_l in Hres by done.
  destruct Hres as [(_ & -> & Hk & Hrest & Hby)|(Hno & _)]; [|by destruct Hno; eapply code_range; [done|lia]].
  exists k'. split; [done|]. split; [done| |].
  - apply list_eq. intros i. unfold frame_bytes. rewrite list_lookup_fmap.
    destruct (decide (i < N.to_nat (msg_len m))%nat) as [Hi|Hi].
    + rewrite lookup_take_lt by done. assert (rangeN off (N.to_nat (msg_len m)) !! i = Some (off + N.of_nat i)) as -> by (by apply rangeN_lookup).
      cbn [fmap option_fmap option_map]. specialize (Hby ltac:(intros x y fx ux wx fy uy wy Hx Hy _ _ _; rewrite !code_div by lia; done) (N.of_nat i) ltac:(lia)).
      rewrite idx_lookup, Nat2N.id in Hby. rewrite <- Hby. unfold user_byte.
      assert (active_translate k' = active_translate k) as -> by (rewrite Hk; done).
      rewrite <- N.add_assoc, (code_translate code) by (done || lia). by rewrite code_phys by lia.
    + rewrite lookup_take_ge by lia. assert (rangeN off (N.to_nat (msg_len m)) !! i = None) as ->; [|done].
      apply lookup_ge_None. unfold rangeN. rewrite length_fmap, length_seq. lia.
  - intros i Hi. apply Hrest. intros x fr u w Hx Htr. replace x with (USER_CODE_VADDR + (x - USER_CODE_VADDR)) in * by lia.
    rewrite (code_translate code) in Htr by (done || lia). injection Htr as <- <- <-. rewrite code_phys by lia. lia.
Qed.

(** A receive of task [cur], whose control block is [t], gets [m]. *)
Definition would_receive (s : Scheduler) (cur : TaskId) (t : Task) (m : Message) : Prop :=
  forall o s', receives s cur t o s' -> o = Some (Ok m).

Lemma would_receive_queued s cur t m l : mq_contents (t_msg_queue t) = m :: l -> would_receive s cur t m.
Proof. intros Hq o s' []; congruence. Qed.

Lemma would_receive_buffered s cur t m :
  mq_contents (t_msg_queue t) = [] -> t_ipc_buffer t = Some m -> would_receive s cur t m.
Proof. intros Hq Hb o s' []; congruence. Qed.

(** The kernel after a receive of [m] into the code page. *)
Record received (code off : N) (cur : TaskId) (t : Task) (m : Message) (k k' : Kernel) : Prop := {
  rc_sound : sound k';
  rc_page : code_page code k';
  rc_sched : receives (k_sched k) cur t (Some (Ok m)) (k_sched k');
  rc_console : k_console k' = k_console k;
  rc_bytes : frame_bytes k' code off (N.to_nat (msg_len m)) = take (N.to_nat (msg_len m)) (msg_payload m);
  rc_rest : forall i, i < off \/ off + msg_len m <= i -> k_user k' !! (code + i) = k_user k !! (code + i);
  rc_len : msg_len m <= 128
}.

Lemma receive_delivers code k off cur t m s' d k1 :
  sound k -> code_page code k -> off + 128 <= 4096 -> task_slot (k_sched k) cur = Some t ->
  receives (k_sched k) cur t (Some (Ok m)) s' -> ipc_frame k s' d k1 ->
  exists k', copy_out m (USER_CODE_VADDR + off) 128 k1 = Ret (msg_len m, k') /\ received code off cur t m k k'.
Proof.
  intros [Hwf Hd Hm] Hc Ho Ht Hr Hf. pose proof (kw_sched _ Hwf) as Hs.
  destruct (receives_messages _ _ _ _ _ Hs Hm Ht Hr) as [Hms Hok]. specialize (Hok m eq_refl).
  pose proof (receives_wf _ _ _ _ _ Hs Hr) as Hs'. pose proof (ipc_frame_wf _ _ _ _ Hf Hs' Hwf) as Hwf1.
  pose proof (ipc_frame_depth _ _ _ _ Hf Hd) as Hd1. pose proof (ipc_frame_sched _ _ _ _ Hf) as Hs1.
  assert (code_page code k1) as Hc1 by (destruct Hf as [[a ->] _ _]; by destruct Hc).
  destruct (copy_out_page code k1 m off Hc1 Hok Ho) as (k' & Hrun & [Hk Hb Hrest]). exists k'. split; [done|].
  assert (k_user k1 = k_user k) as Hu by (by destruct Hf as [[a ->] _ _]). rewrite Hu in Hrest.
  split; [|rewrite Hk; by destruct Hc1|rewrite Hk; ksimp; by rewrite Hs1| |done|done|apply Hok].
  - rewrite Hk. destruct Hwf1. split; [by split|done|]. ksimp. by rewrite Hs1.
  - rewrite Hk. ksimp. by destruct Hf as [[a ->] _ _].
Qed.

(** The two receive calls, with a buffer in the code page. *)
Lemma receive_call fuel code k cur t m f off :
  sound k -> code_page code k -> s_current_task_id (k_sched k) = Some cur -> task_slot (k_sched k) cur = Some t ->
  would_receive (k_sched k) cur t m ->
  sf_rax f = 3 \/ sf_rax f = 9 -> points_to f off -> sf_rdx f = 128 -> off + 128 <= 4096 ->
  exists k', syscall_dispatch (S fuel) f k = Ret (Done (set_sf_rax (msg_len m) f), k') /\ received code off cur t m k k'.
Proof.
  intros Hk Hc Hcur Ht Hw Hax Hpt Hdx Ho. pose proof (so_wf _ Hk) as Hwf. pose proof (kw_unlocked _ Hwf) as Hl.
  destruct (page_request code k f off Hc Hpt) as (req & Hp & Hd). pose proof Hpt as (Hsi & _). unfold decodes in Hd.
  rewrite (dispatch_decoded (S fuel) f k cur req Hl Hcur Hp).
  assert (range_ok k (sf_rsi f) (N.min (sf_rdx f) 128) true) as Hrange by (rewrite Hsi, Hdx; by eapply code_range).
  destruct Hax as [Hax|Hax]; rewrite Hax in Hd; (destruct Hd as [_|[]]; [|done]); cbn [handle_request]; rewrite Hsi, Hdx.
  - destruct (receive_enters (S fuel) cur k Hwf Hcur) as (k1 & Hf1 & He).
    pose proof (ipc_frame_wf _ _ _ _ Hf1 (kw_sched _ Hwf) Hwf) as Hwf1. pose proof (ipc_frame_sched _ _ _ _ Hf1) as Hs1.
    destruct (receive_loop_step fuel cur t k1 Hwf1 ltac:(by rewrite Hs1)) as (o & s' & k2 & Hr & Hf2 & Hrun). rewrite Hs1 in Hr.
    assert (o = Some (Ok m)) as -> by by eapply Hw. cbn [is_some] in Hf2.
    destruct (receive_delivers code k off cur t m s' _ k2 Hk Hc Ho Ht Hr (ipc_frame_trans _ _ _ _ _ _ _ Hf1 Hf2)) as (k' & Hcp & Hrc).
    exists k'. split; [|done]. unfold sys_receive, rbind. rewrite He, Hrun. cbn [obind res_bind rret map_err_unit]. unfold rlift. by rewrite Hcp.
  - pose proof (sys_receive_async_spec cur t k Hwf Hcur Ht) as (r & k2 & Hrun & o & s' & Hr & -> & Hf2)%wp_run.
    assert (o = Some (Ok m)) as -> by by eapply Hw.
    destruct (receive_delivers code k off cur t m s' _ k2 Hk Hc Ho Ht Hr Hf2) as (k' & Hcp & Hrc). exists k'. split; [|done].
    erewrite rbind_rlift; [reflexivity|]. unfold handle_receive_async, kbind. rewrite Hrun. cbn [obind]. exact Hcp.
Qed.
End calls.

(** ** Loaded programs *)

Section relays.
Context `{L : Layout} `{B : Blobs} `{ASM : Assembler}.

(** The program [prog], its constants intact, in the code page. *)
Record loaded (prog : list item) (code : N) (k : Kernel) : Prop := {
  ld_page : code_page code k;
  ld_fits : lenN (assemble prog) <= 4096;
  ld_data : forall i bytes, prog !! i = Some (Data bytes) -> frame_bytes k code (offset_of prog i) (length bytes) = bytes
}.

Lemma frame_bytes_agree k k' code off n :
  (forall i, off <= i < off + N.of_nat n -> k_user k' !! (code + i) = k_user k !! (code + i)) ->
  frame_bytes k' code off n = frame_bytes k code off n.
Proof.
  intros H. unfold frame_bytes. apply list_fmap_ext. intros j i Hi. apply rangeN_lookup in Hi as [-> Hj]. by rewrite H by lia.
Qed.

(** A message received into a [Space] leaves the constants alone. *)
Lemma loaded_received prog code k k' cur t m i :
  loaded prog code k -> prog !! i = Some (Space 128) -> received code (offset_of prog i) cur t m k k' -> loaded prog code k'.
Proof.
  intros [Hp Hf Hd] Hi Hr. split; [apply Hr|done|]. intros j bytes Hj. rewrite <- (Hd j bytes Hj) at 2.
  apply frame_bytes_agree. intros x Hx. apply Hr. pose proof (rc_len _ _ _ _ _ _ _ Hr) as Hlen.
  assert (lenN (item_bytes prog i) = 128) as Hbi by (unfold item_bytes; rewrite Hi; done).
  assert (lenN (item_bytes prog j) = lenN bytes) as Hbj by (unfold item_bytes; rewrite Hj; done).
  assert (i <> j) as Hne by (intros ->; congruence). unfold lenN in Hbj.
  destruct (decide (i < j)%nat) as [Hlt|Hge].
  - pose proof (offset_before prog i j Hlt). lia.
  - pose proof (offset_before prog j i ltac:(lia)). unfold lenN in *. lia.
Qed.

(** Nothing but the console and the trace changes. *)
Lemma loaded_printed prog code k c a : loaded prog code k -> loaded prog code (set_k_console c (set_k_amb a k)).
Proof. intros [[] Hf Hd]. by split. Qed.

Lemma item_within prog code k i x :
  loaded prog code k -> prog !! i = Some x -> offset_of prog i + lenN (item_bytes prog i) <= 4096.
Proof. intros [_ Hf _] Hi. pose proof (offset_within prog i (lookup_lt_Some _ _ _ Hi)). lia. Qed.

(** ** Services that print what they receive *)

(** A service in its loop: running, with the serial capability in slot 0. *)
Record serving (prog : list item) (code : N) (cur : TaskId) (ci : N) (k : Kernel) : Prop := {
  sv_sound : sound k;
  sv_loaded : loaded prog code k;
  sv_current : s_current_task_id (k_sched k) = Some cur;
  sv_serial : holds_serial (k_sched k) ci = true
}.

Lemma holds_serial_slot s cur ci :
  sched_wf s -> s_current_task_id s = Some cur ->
  holds_serial s ci = match cap_of s cur ci with Some c => bool_decide (cap_resource c = Serial) | None => false end.
Proof.
  intros Hs Hc. unfold holds_serial, cap_of. rewrite Hc, get_task_wf by done. destruct (task_slot s cur) as [t|]; [|done].
  simpl. by destruct (cap_at _ _).
Qed.

Lemma receives_cap_of s cur t o s' i j :
  sched_wf s -> receives s cur t o s' -> cap_of s' i j = cap_of s i j /\ s_current_task_id s' = s_current_task_id s.
Proof.
  intros Hs Hr. assert (forall s i0 f, sched_wf s -> (forall t, t_cap_table (f t) = t_cap_table t) ->
    cap_of (get_task_mut s i0 f) i j = cap_of s i j) as Hup.
  { intros s1 i0 f Hs1 Hf. unfold cap_of. rewrite get_task_mut_slot by done. case_decide; [|done].
    destruct (task_slot s1 i); [|done]. simpl. by rewrite Hf. }
  destruct Hr; (split; [|by rewrite ?get_task_mut_current]); try done; try by apply Hup.
  rewrite Hup; [by apply Hup| |done]. apply get_task_mut_wf; [done|]. intros u [? ?]. split; [done|by split].
Qed.

Lemma serving_printed prog code cur ci k c a :
  traced (k_amb k) a -> serving prog code cur ci k -> serving prog code cur ci (set_k_console c (set_k_amb a k)).
Proof.
  intros (Hpre & _) [[[] Hd ?] ? ? ?]. split; [split; [by split| |done]|by apply loaded_printed|done|done].
  unfold depth_ok in *. ksimp. by rewrite Hpre.
Qed.

Lemma serving_received prog code cur ci k k' t m i :
  serving prog code cur ci k -> prog !! i = Some (Space 128) -> received code (offset_of prog i) cur t m k k' ->
  serving prog code cur ci k'.
Proof.
  intros [Hk Hl Hc Hs] Hi Hr. pose proof (kw_sched _ (so_wf _ Hk)) as Hwf.
  pose proof (fun i j => receives_cap_of _ _ _ _ _ i j Hwf (rc_sched _ _ _ _ _ _ _ Hr)) as Hcaps.
  assert (s_current_task_id (k_sched k') = Some cur) as Hc' by (by rewrite (proj2 (Hcaps 0 0))).
  split; [apply Hr|by eapply loaded_received|done|].
  rewrite (holds_serial_slot _ cur) in Hs by done.
  rewrite (holds_serial_slot _ cur); [by rewrite (proj1 (Hcaps cur ci))|apply (so_wf _ (rc_sound _ _ _ _ _ _ _ Hr))|done].
Qed.

(** Printing one of its constants. *)
Lemma prints fuel prog code cur ci k i bytes f :
  serving prog code cur ci k -> prog !! i = Some (Data bytes) -> sf_rax f = 4 -> sf_rdi f = ci ->
  sf_rsi f = USER_CODE_VADDR + offset_of prog i -> sf_rdx f = lenN bytes -> sf_r8 f < u64_limit ->
  exists k', syscall_dispatch fuel f k = Ret (Done (set_sf_rax 0 f), k') /\ serving prog code cur ci k' /\
    k_console k' = k_console k ++ shown bytes /\ k_sched k' = k_sched k /\ k_user k' = k_user k.
Proof.
  intros Hsv Hi Hax Hdi Hsi Hdx H8. pose proof Hsv as [Hk Hl Hc Hs]. pose proof (item_within _ _ _ _ _ Hl Hi) as Hw.
  unfold item_bytes in Hw. rewrite Hi in Hw.
  destruct (serial_call fuel code k cur f (offset_of prog i) (length bytes)) as (a & Ha & Hrun); try done; try apply Hl; try apply Hk.
  { split; [done|]. rewrite Hdx. unfold u64_limit in *. lia. }
  rewrite Hdi, Hs, (ld_data _ _ _ Hl i bytes Hi) in Hrun. eexists. split; [exact Hrun|]. split; [by apply serving_printed|done].
Qed.

(** Printing the message in its buffer. *)
Lemma prints_message fuel prog code cur ci k0 t m k i f :
  prog !! i = Some (Space 128) -> received code (offset_of prog i) cur t m k0 k ->
  forall k1, serving prog code cur ci k1 -> k_user k1 = k_user k -> sf_rax f = 4 -> sf_rdi f = ci ->
  sf_rsi f = USER_CODE_VADDR + offset_of prog i -> sf_rdx f = msg_len m -> sf_r8 f < u64_limit ->
  exists k', syscall_dispatch fuel f k1 = Ret (Done (set_sf_rax 0 f), k') /\ serving prog code cur ci k' /\
    k_console k' = k_console k1 ++ shown (take (N.to_nat (msg_len m)) (msg_payload m)) /\ k_sched k' = k_sched k1.
Proof.
  intros Hi Hr k1 Hsv Hu Hax Hdi Hsi Hdx H8. pose proof Hsv as [Hk Hl Hc Hs]. pose proof (item_within _ _ _ _ _ Hl Hi) as Hw.
  unfold item_bytes in Hw. rewrite Hi in Hw. change (lenN (replicate 128 0)) with 128 in Hw. pose proof (rc_len _ _ _ _ _ _ _ Hr) as Hlen.
  destruct (serial_call fuel code k1 cur f (offset_of prog i) (N.to_nat (msg_len m))) as (a & Ha & Hrun); try done; try apply Hl; try apply Hk; try lia.
  { split; [done|]. rewrite Hdx. unfold u64_limit in *. lia. }
  rewrite Hdi, Hs in Hrun. rewrite (frame_bytes_agree k k1), (rc_bytes _ _ _ _ _ _ _ Hr) in Hrun by (intros; by rewrite Hu).
  eexists. split; [exact Hrun|]. split; [by apply serving_printed|done].
Qed.

(** The line a service prints for a message. *)
Definition relay_line (prefix : list N) (m : Message) : list N :=
  prefix ++ shown (take (N.to_nat (msg_len m)) (msg_payload m)) ++ [NEWLINE].

Lemma relay_printed prefix code off cur t m k0 k1 k2 k3 k4 :
  received code off cur t m k0 k1 -> shown prefix = prefix ->
  k_console k2 = k_console k1 ++ shown prefix -> k_sched k2 = k_sched k1 ->
  k_console k3 = k_console k2 ++ shown (take (N.to_nat (msg_len m)) (msg_payload m)) -> k_sched k3 = k_sched k2 ->
  k_console k4 = k_console k3 ++ shown [NEWLINE] -> k_sched k4 = k_sched k3 ->
  k_console k4 = k_console k0 ++ relay_line prefix m /\ receives (k_sched k0) cur t (Some (Ok m)) (k_sched k4).
Proof.
  intros Hr Hp Hc2 Hs2 Hc3 Hs3 Hc4 Hs4. split; [|rewrite Hs4, Hs3, Hs2; apply Hr].
  rewrite Hc4, Hc3, Hc2, Hp, (rc_console _ _ _ _ _ _ _ Hr). unfold relay_line. by rewrite <- !app_assoc.
Qed.

End relays.

(** The three writes of such a service after its receive: prefix, message and
    newline.  Their labels are the items before their contents; [n] instructions
    come first. *)
Ltac print_line prog pfx nl buf n :=
  match goal with Hsv : serving _ _ _ _ ?k0, Hr : received _ _ _ _ _ ?k0 ?k1 |- _ =>
    pose proof (serving_received _ _ _ _ _ _ _ _ (S buf) Hsv eq_refl Hr) as Hsv1;
    ustraight n; eapply uwp_call; [done|eapply (prints _ prog _ _ _ k1 (S pfx)); try done; unfold label_addr; by rewrite (offset_label prog pfx _ eq_refl)|];
    let k2 := fresh "k" in intros k2 (Hsv2 & Hc2 & Hs2 & Hu2);
    ustraight 4%nat; eapply uwp_call; [done|eapply (prints_message _ prog _ _ _ _ _ _ k1 (S buf)); try done; unfold label_addr; by rewrite (offset_label prog buf _ eq_refl)|];
    let k3 := fresh "k" in intros k3 (Hsv3 & Hc3 & Hs3);
    ustraight 4%nat; eapply uwp_call; [done|eapply (prints _ prog _ _ _ k3 (S nl)); try done; unfold label_addr; by rewrite (offset_label prog nl _ eq_refl)|];
    let k4 := fresh "k" in intros k4 (Hsv4 & Hc4 & Hs4 & _)
  end.

(** The system call that receives the message, after [n] instructions. *)
Ltac receive_message prog buf n :=
  match goal with |- context [mkUser ?r _ _] => destruct r as [rax rbx rcx rdx rsi rdi rbp r8 r9 r10 r11 r12 r13 r14 r15] end;
  match goal with Hsv : serving _ _ _ _ _, H8 : _ < u64_limit |- _ =>
    cbn [sf_r8] in H8; pose proof Hsv as [Hk Hl Hc Hs];
    pose proof (item_within _ _ _ (S buf) _ Hl eq_refl) as Hw8; change (lenN (item_bytes prog (S buf))) with 128 in Hw8;
    ustraight n; eapply uwp_call; [done| |];
    [eapply (receive_call _ _ _ _ _ _ _ (offset_of prog (S buf))); try done; try apply Hl;
     [by (left + right)|unfold label_addr; rewrite <- (offset_label prog buf _ eq_refl); split; [done|]; split; [lia|done]]|];
    let k1 := fresh "k" in let Hr := fresh "Hr" in intros k1 Hr
  end.

(** One turn of the loop of a blocking service. *)
Ltac relay_turn prog pfx nl buf :=
  intros Hsv Ht Hw H8; receive_message prog buf 4%nat; print_line prog pfx nl buf 5%nat;
  ustraight 1%nat; apply uwp_done; split; [done|]; split; [done|]; split; [done|];
  by eapply relay_printed; [|reflexivity|..].

Section services.
Context `{L : Layout} `{B : Blobs} `{ASM : Assembler}.

(** What one turn does: back at the start, with the message printed. *)
Definition relays (fuel : nat) (prog : list item) (prefix : list N) : Prop :=
  forall code cur k t m regs zf,
    serving prog code cur 0 k -> task_slot (k_sched k) cur = Some t -> would_receive (k_sched k) cur t m -> sf_r8 regs < u64_limit ->
    uwp prog (S fuel) (mkUser regs zf 0) k (fun u' k' => u_pc u' = O /\ sf_r8 (u_regs u') = sf_r8 regs /\
      serving prog code cur 0 k' /\ k_console k' = k_console k ++ relay_line prefix m /\
      receives (k_sched k) cur t (Some (Ok m)) (k_sched k')).

Lemma logger_relays fuel : relays fuel logger_prog (as_bytes "[user-logger] received: ").
Proof. intros code cur k t m regs zf. relay_turn logger_prog 22%nat 24%nat 26%nat. Qed.

Lemma ramfs_relays fuel : relays fuel ramfs_prog (as_bytes "[user-ramfs] file request: ").
Proof. intros code cur k t m regs zf. relay_turn ramfs_prog 22%nat 24%nat 26%nat. Qed.

(** The program a task was spawned with is loaded when its address space is active. *)
Lemma spawned_loaded h k id prog ct t k' k2 :
  hhdm_offset = h -> user_spawned h k id (assemble prog) ct t k' -> lenN (assemble prog) <= 4096 ->
  active_root k2 = t_cr3 t -> k_mem k2 = k_mem k' -> k_user k2 = k_user k' -> exists code, loaded prog code k2.
Proof.
  intros Hh (root & F & code & stack & -> & _ & [Hinv _] & Htr & _ & _ & Hdata & _) Hfit Hroot Hm Hu. cbn [t_cr3] in Hroot.
  exists code. split; [split|done|].
  - exists F. by rewrite Hm, Hroot, Hh.
  - intros v Hv. unfold active_translate. rewrite Hm, Hroot, Hh, Htr.
    + rewrite Hv, decide_False by done. by rewrite decide_True.
    + pose proof (N.Div0.div_mod v 4096). pose proof (N.mod_lt v 4096 ltac:(done)). rewrite Hv in H.
      change (USER_CODE_VADDR / 4096) with 1024 in H. change (2 ^ 47) with 140737488355328. lia.
  - intros i bytes Hi. apply list_eq. intros j. unfold frame_bytes. rewrite list_lookup_fmap. destruct (bytes !! j) as [b|] eqn:Hb.
    + assert (rangeN (offset_of prog i) (length bytes) !! j = Some (offset_of prog i + N.of_nat j)) as ->.
      { apply rangeN_lookup. split; [done|]. by eapply lookup_lt_Some. }
      cbn [fmap option_fmap option_map]. rewrite Hu, (Hdata _ b); [done|]. apply assemble_item; [by eapply lookup_lt_Some|].
      unfold item_bytes. rewrite Hi, idx_lookup, Nat2N.id. done.
    + assert (rangeN (offset_of prog i) (length bytes) !! j = None) as ->; [|done].
      apply lookup_ge_None. unfold rangeN. rewrite length_fmap, length_seq. by apply lookup_ge_None.
Qed.

(** All the messages in its queue. *)
Lemma relays_queue fuel prog prefix code cur : relays fuel prog prefix ->
  forall ms k t regs zf,
    serving prog code cur 0 k -> task_slot (k_sched k) cur = Some t -> mq_contents (t_msg_queue t) = ms -> sf_r8 regs < u64_limit ->
    uwp prog (S fuel) (mkUser regs zf 0) k (fun u' k' => u_pc u' = O /\ serving prog code cur 0 k' /\
      k_console k' = k_console k ++ concat (relay_line prefix <$> ms) /\
      (exists q, mq_contents q = [] /\ task_slot (k_sched k') cur = Some (set_t_msg_queue q t)) /\
      forall j, j <> cur -> task_slot (k_sched k') j = task_slot (k_sched k) j).
Proof.
  intros Hrel. induction ms as [|m ms IH]; intros k t regs zf Hsv Ht Hq H8.
  { apply uwp_done. split; [done|]. split; [done|]. split; [by rewrite app_nil_r|]. split; [|done].
    exists (t_msg_queue t). split; [done|]. rewrite Ht. by destruct t. }
  pose proof (Hrel code cur k t m regs zf Hsv Ht (would_receive_queued _ _ _ _ _ Hq) H8) as (u1 & k1 & Hrun1 & Hpc & H81 & Hsv1 & Hc1 & Hr).
  assert (exists q, mq_contents q = ms /\ k_sched k1 = get_task_mut (k_sched k) cur (set_t_msg_queue q)) as (q & Hq1 & Hs1).
  { remember (Some (Ok m)) as o. remember (k_sched k1) as s1. destruct Hr; try congruence. exists q. split; [congruence|done]. }
  pose proof (kw_sched _ (so_wf _ (sv_sound _ _ _ _ _ Hsv))) as Hwf.
  assert (forall j, task_slot (k_sched k1) j = if decide (cur = j) then set_t_msg_queue q <$> task_slot (k_sched k) j else task_slot (k_sched k) j) as Hslot1.
  { intros j. rewrite Hs1. by apply get_task_mut_slot. }
  destruct u1 as [regs1 zf1 pc1]. cbn [u_pc u_regs] in *. subst pc1.
  destruct (IH k1 (set_t_msg_queue q t) regs1 zf1) as (u2 & k2 & Hrun2 & Hpc2 & Hsv2 & Hc2 & (q2 & Hq2 & Ht2) & Hoth); [done| |done|lia|].
  { rewrite Hslot1, decide_True by done. by rewrite Ht. }
  exists u2, k2. split; [by eapply runs_trans|]. split; [done|]. split; [done|]. split; [|split].
  - rewrite Hc2, Hc1. cbn [fmap list_fmap concat]. by rewrite <- app_assoc.
  - exists q2. split; [done|]. by rewrite Ht2.
  - intros j Hj. rewrite Hoth, Hslot1 by done. by rewrite decide_False.
Qed.
End services.
