(* ===== verification/InitBoot.v ===== *)
(** * The init program

    [init_boots] follows the init program of [kernel/userspace/mod.rs] instruction
    by instruction through its eight system calls: it creates the logging service,
    the file-request service and the demonstration task, and hands out exactly the
    authority its comments announce. *)

From S2P Require Import Prelude Ring Text Preempt Trace Capability AuditTrail Message Machine Frames.
From S2P Require Import Task Scheduler Kernel Switch Scheduling Spawn Contexts Entry Ipc Rendezvous Messaging.
From S2P Require Import Authority Propagation Delegation Paging AddressSpace UserMemory Userspace Syscall Requests InitSpawn Safety UserCode UserRun.
Local Open Scope N_scope.

(** ** Frames used by a spawn request *)

Lemma uses_lock : uses 0 lock_sched.
Proof. intros k r k'. unfold lock_sched. case_match; intros [=]; subst. ksimp. lia. Qed.
Lemma uses_unlock : uses 0 unlock_sched.
Proof. intros k r k' [= <- <-]. ksimp. lia. Qed.
Lemma uses_sched f : uses 0 (kmod (on_sched f)).
Proof. intros k r k' [= <- <-]. ksimp. lia. Qed.
Lemma uses_caps {A} id t (op : CapTable -> Ambient -> A * CapTable * Ambient) : uses 0 (kcaps id t op).
Proof. intros k r k'. unfold kcaps. destruct (op _ _) as [[? ?] ?]. intros [=]. subst. ksimp. lia. Qed.
Lemma uses_spawned : uses 0 bump_tasks_spawned.
Proof. intros k r k' [= <- <-]. ksimp. lia. Qed.
Lemma uses_user f : uses 0 (kmod (fun k => set_k_user (f k) k)).
Proof. intros k r k' [= <- <-]. ksimp. lia. Qed.

#[export] Hint Constants Opaque : frames.
#[export] Hint Resolve uses_lock uses_unlock uses_sched uses_caps uses_spawned uses_user : frames.

(** Computations that take no frame. *)
Ltac solve_uses :=
  repeat match goal with
  | |- uses 0 (kbind _ _) => apply (uses_bind 0 0); [|intros ?]
  | |- uses 0 (kget_task _) => apply uses_get
  | |- uses 0 (match _ with _ => _ end) => case_match
  | |- uses 0 _ => progress auto with frames
  end.

Section uses.
Context `{L : Layout} `{B : Blobs}.

Lemma uses_stack_push rsp v : uses 0 (stack_push rsp v).
Proof. unfold stack_push. solve_uses. Qed.

Lemma uses_push_zeros n rsp : uses 0 (push_zeros n rsp).
Proof.
  revert rsp. induction n as [|n IH]; intros rsp; cbn [push_zeros]; [apply uses_ret|].
  apply (uses_bind 0 0); [apply uses_stack_push|]. intros ?. apply IH.
Qed.

Lemma uses_new_user id e u c ct : uses 0 (Task_new_user id e u c ct).
Proof. unfold Task_new_user. solve_uses; (apply uses_stack_push || apply uses_push_zeros). Qed.

Lemma uses_spawn_user id blob ct : uses 9 (spawn_user id blob ct).
Proof.
  unfold spawn_user. apply (uses_bind 1 8); [apply uses_new_space|]. intros o. apply (uses_bind 0 8); [apply uses_lift|]. intros cr3.
  apply (uses_bind 1 7); [apply uses_alloc|]. intros oc. apply (uses_bind 0 7); [apply uses_lift|]. intros code.
  apply (uses_bind 1 6); [apply uses_alloc|]. intros os. apply (uses_bind 0 6); [apply uses_lift|]. intros stack.
  apply (uses_bind 3 3); [apply uses_map_page|]. intros r. apply (uses_bind 0 3); [apply uses_lift|]. intros _.
  apply (uses_bind 3 0); [apply uses_map_page|]. intros r'. solve_uses. apply uses_new_user.
Qed.

Lemma uses_spawn_blob ty id : uses 9 (spawn_blob ty id).
Proof.
  assert (forall blob, uses 9 (let* t := spawn_user id blob CapTable_new in kret (Some t))) as H.
  { intros blob. apply (uses_bind 9 0); [apply uses_spawn_user|]. intros. apply uses_ret. }
  unfold spawn_blob. repeat case_match; (apply H || (apply (uses_mono 0); [apply uses_ret|lia])).
Qed.

Lemma uses_spawn_task ty : uses 9 (dispatch_spawn_task ty).
Proof.
  unfold dispatch_spawn_task. apply (uses_bind 0 9); [apply uses_lock|]. intros _. apply (uses_bind 0 9); [apply uses_get|]. intros o.
  apply (uses_bind 9 0); [|intros r; solve_uses]. destruct o as [id|]; [|apply (uses_mono 0); [apply uses_ret|lia]].
  apply (uses_bind 9 0); [apply uses_spawn_blob|]. intros ot. solve_uses.
Qed.
End uses.

Lemma wp_and {A} (m : K A) (P Q : A -> Kernel -> Prop) k : wp m P k -> wp m Q k -> wp m (fun a k' => P a k' /\ Q a k') k.
Proof.
  intros (a & k' & H1 & HP)%wp_run (a2 & k2 & H2 & HQ)%wp_run. rewrite H1 in H2. injection H2 as <- <-. apply wp_run. eauto.
Qed.

(** ** Capability tables as lists *)

(** Task [i] is in state [st] and holds exactly the capabilities [l], in its first
    slots. *)
Definition table_is (s : Scheduler) (i : TaskId) (st : TaskState) (l : list Capability) : Prop :=
  exists t, task_slot s i = Some t /\ t_state t = st /\ forall j, cap_at (t_cap_table t) j = l !! N.to_nat j.

Lemma first_empty ct l slot :
  (forall j, cap_at ct j = l !! N.to_nat j) -> cap_at ct slot = None -> (forall j, j < slot -> is_Some (cap_at ct j)) -> slot = lenN l.
Proof.
  intros Hct Hn Hs. rewrite Hct, lookup_ge_None in Hn. unfold lenN. destruct (decide (slot = N.of_nat (length l))); [done|].
  destruct (Hs (N.of_nat (length l)) ltac:(lia)) as [c Hc]. rewrite Hct, Nat2N.id in Hc. apply lookup_lt_Some in Hc. lia.
Qed.

(** The list after one more capability in the first free slot. *)
Lemma table_extended (l : list Capability) c j :
  (if decide (lenN l = j) then Some c else l !! N.to_nat j) = (l ++ [c]) !! N.to_nat j.
Proof.
  unfold lenN. case_decide as Hj.
  - subst j. rewrite Nat2N.id. symmetry. by apply list_lookup_middle.
  - destruct (decide (N.to_nat j < length l)%nat); [by rewrite lookup_app_l|].
    rewrite (lookup_ge_None_2 l) by lia. symmetry. apply lookup_ge_None_2. rewrite length_app. cbn [length]. lia.
Qed.

Lemma table_cap s i st l j : table_is s i st l -> cap_of s i j = l !! N.to_nat j.
Proof. intros (t & Ht & _ & Hc). unfold cap_of. rewrite Ht. simpl. apply Hc. Qed.

(** The first empty slot of a task table whose slots below [id] are taken. *)
Lemma free_slot_is s id :
  2 <= id < MAX_TASKS -> (forall j, 2 <= j < id -> is_Some (task_slot s j)) -> task_slot s id = None -> free_slot s = Some id.
Proof.
  intros Hid Hlow Hnone. unfold free_slot. destruct (find_first _ _) as [i|] eqn:Hf.
  - apply find_first_Some in Hf as (l1 & l2 & Hl & Hi & Hl1).
    assert (rangeN 2 130 !! length l1 = Some i) as Hlk by (rewrite Hl; by apply list_lookup_middle).
    apply rangeN_lookup in Hlk as [-> Hlen]. f_equal. set (i := 2 + N.of_nat (length l1)) in *.
    destruct (N.lt_trichotomy i id) as [Hlt|[->|Hgt]]; [|done|].
    + destruct (Hlow i ltac:(unfold i in *; lia)) as [t Ht]. by rewrite Ht in Hi.
    + assert (l1 !! N.to_nat (id - 2) = Some id) as Hin.
      { assert (rangeN 2 130 !! N.to_nat (id - 2) = Some id) as Hr by (apply rangeN_lookup; unfold MAX_TASKS, i in *; lia).
        rewrite Hl, lookup_app_l in Hr; [done|]. unfold i in Hgt. lia. }
      rewrite Forall_lookup in Hl1. specialize (Hl1 _ _ Hin). by rewrite Hnone in Hl1.
  - apply (proj1 (find_first_None _ _)) with id in Hf; [by rewrite Hnone in Hf|]. apply elem_of_rangeN. unfold MAX_TASKS in *. lia.
Qed.

(** ** The calls of init *)

Section init.
Context `{L : Layout} `{ASM : Assembler}.
#[local] Existing Instance assembled.
Context (h : N) (Hh : hhdm_response = Some h) (Hst : stacks_fit) (Hblobs : blobs_fit).

Lemma h_offset : hhdm_offset = h.
Proof. unfold hhdm_offset. by rewrite Hh. Qed.

(** Init runs its program, with [frames] frames left to allocate and room for
    [events] more requests in the audit log. *)
Record initing (code frames events : N) (k : Kernel) : Prop := {
  ii_running : running h 1 k;
  ii_current : s_current_task_id (k_sched k) = Some 1;
  ii_loaded : loaded init_prog code k;
  ii_code : page_aligned code /\ not_free (k_frames k) code;
  ii_room : next_free_paddr (k_frames k) + 4096 * frames < usable_end (k_frames k);
  ii_below : usable_end (k_frames k) + h <= task_stacks;
  ii_audit : al_total (k_audit k) + events * CALL_EVENTS < u64_limit
}.

Lemma initing_ready code n ev k : initing code (9 + n) ev k -> spawn_ready h k.
Proof.
  intros [[_ _ (F & [Hinv [Hfw Hmap Hsep]] & _)] _ _ _ Hroom Hbelow _]. pose proof (pi_root _ _ _ _ Hinv) as Hroot.
  split; [done|done| | | |lia|done].
  - split; [done|done|]. by intros t [? ?].
  - apply Hsep. by exists 4%nat.
  - by destruct (pi_frame _ _ _ _ Hinv _ _ Hroot) as (_ & _ & ? & _).
Qed.

(** A frame that is not free is apart from the code frame of a new task. *)
Lemma free_frame_apart fa f g i :
  frames_wf fa -> page_aligned f -> page_aligned g -> not_free fa f -> ~ not_free fa g -> i < 4096 -> f + i < g \/ g + 4096 <= f + i.
Proof.
  intros [Hn He _ _] Hf Hg Hnf Hng Hi. unfold not_free in *.
  destruct Hnf as [Hnf|Hnf].
  - left. destruct (N.lt_ge_cases g (next_free_paddr fa)) as [Hlt|Hge]; [|lia]. pose proof (aligned_next_le _ _ Hg Hn Hlt). lia.
  - right. pose proof (aligned_next_le g (usable_end fa) Hg He ltac:(lia)). lia.
Qed.

Definition RW : RightsMask := mkRights true true false.

(** What happens to another task: an empty slot stays empty, a task keeps its state
    and its capabilities. *)
Definition kept (s s' : Scheduler) (j : TaskId) : Prop :=
  (task_slot s j = None -> task_slot s' j = None) /\ forall st l, table_is s j st l -> table_is s' j st l.

Lemma kept_slot s s' j : task_slot s' j = task_slot s j -> kept s s' j.
Proof. intros Hj. split; [by rewrite Hj|]. intros st l (t & Ht & H). exists t. by rewrite Hj. Qed.

Lemma position_is ct l : CapTable_wf ct -> (forall j, cap_at ct j = l !! N.to_nat j) -> lenN l < MAX_CAPS ->
  position is_none (slots ct) = Some (lenN l).
Proof.
  intros Hwf Hct Hl. destruct (idx_is_Some (slots ct) (lenN l)) as [o Ho]; [by rewrite Hwf|].
  assert (forall j o, j < MAX_CAPS -> idx (slots ct) j = Some o -> o = l !! N.to_nat j) as Hidx.
  { intros j o' Hj Hi. rewrite <- Hct. unfold cap_at. rewrite (proj2 (N.ltb_lt _ _) Hj), Hi. done. }
  apply (position_least _ _ _ o); [done| |].
  - rewrite (Hidx _ _ Hl Ho), lookup_ge_None_2 by (unfold lenN; lia). done.
  - intros j y Hj Hy. rewrite (Hidx j y ltac:(lia) Hy). destruct (lookup_lt_is_Some_2 l (N.to_nat j)) as [c Hc]; [unfold lenN in Hj; lia|].
    by rewrite Hc.
Qed.

(** A grant by init. *)
Lemma init_grants fuel code n ev k l src donor target st lt f :
  initing code n (1 + ev) k -> table_is (k_sched k) 1 Running l -> l !! src = Some donor -> cap_grant donor = true ->
  table_is (k_sched k) target st lt -> lenN lt < MAX_CAPS ->
  sf_rax f = 5 -> sf_rdi f = N.of_nat src -> sf_rsi f = target -> sf_rdx f = 3 ->
  exists k', syscall_dispatch fuel f k = Ret (Done (set_sf_rax 0 f), k') /\ initing code n ev k' /\
    table_is (k_sched k') target st (lt ++ [granted_cap donor (mkRights true true false) (am_next_cap_id (k_amb k))]) /\
    (forall j, j <> target -> kept (k_sched k) (k_sched k') j) /\ k_console k' = k_console k /\ k_user k' = k_user k.
Proof.
  intros [Hr Hc Hl Hcode Hroom Hbelow Hau] Hl1 Hdon Hgr (t & Ht & Htst & Hct) Hlen Hax Hdi Hsi Hdx.
  pose proof (so_wf _ (rn_sound _ _ _ Hr)) as Hwf. destruct (kw_audit _ Hwf) as [evs Hevs]. pose proof (ar_total _ _ Hevs) as Htot.
  assert (CALL_EVENTS = 4226) as HCE by done.
  pose proof (wp_and _ _ _ _ (grant_answers h 1 (sf_rdi f) target (mkRights true true false) k Hr ltac:(unfold audit_room; lia))
    (wp_leaves _ _ _ (leaves_grant _ _ _ _) (dispatch_cap_grant_spec k 1 (sf_rdi f) target (mkRights true true false) evs Hwf Hevs ltac:(lia))))
    as (v & k' & Hrun & [Hr' _] & Hg & Hst')%wp_run.
  unfold grant_decision in Hg. rewrite (table_cap _ _ _ _ _ Hl1), Hdi, Nat2N.id, Hdon, Ht, Hgr in Hg.
  rewrite (position_is _ lt) in Hg; [|by eapply sched_wf_task; [apply Hwf|exact Ht]|done|done].
  destruct Hg as [-> [_ [Hcur Hsame] Haud _ _ Hcaps]]. destruct Hst' as [Hk _].
  exists k'. split.
  { rewrite (dispatch_decoded fuel f k 1 (RCapGrant (sf_rdi f) target (mkRights true true false))); [|apply Hwf|done|].
    - cbn [handle_request]. by rewrite (rbind_rlift _ _ _ _ _ Hrun).
    - unfold parse_request. rewrite Hax, Hsi, Hdx. done. }
  assert (forall j, task_slot (k_sched k') j = None <-> task_slot (k_sched k) j = None) as Hnone.
  { intros j. rewrite Hsame. destruct (task_slot (k_sched k) j); done. }
  assert (forall j u, task_slot (k_sched k) j = Some u -> exists u', task_slot (k_sched k') j = Some u' /\ t_state u' = t_state u /\
    forall i, cap_at (t_cap_table u') i = cap_of (k_sched k') j i) as Htab.
  { intros j u Hu. pose proof (Hsame j) as Hsj. rewrite Hu in Hsj. destruct (task_slot (k_sched k') j) as [u'|] eqn:Hu'; [|done].
    exists u'. split; [done|]. split; [by injection Hsj as ->|]. intros i. unfold cap_of. by rewrite Hu'. }
  split; [split; [done|by rewrite Hcur| | | | |]|].
  - destruct Hl as [[Htb Hpg] Hfit Hdata]. rewrite Hk. by split; [split|..].
  - rewrite Hk. exact Hcode.
  - rewrite Hk. exact Hroom.
  - rewrite Hk. exact Hbelow.
  - rewrite (ar_total _ _ Haud), lenN_app. change (lenN [_]) with 1. lia.
  - split; [|split; [|by rewrite Hk]].
    + destruct (Htab _ _ Ht) as (u' & Hu' & Hus & Huc). exists u'. split; [done|]. split; [congruence|]. intros j.
      rewrite Huc, Hcaps, <- table_extended. rewrite <- Hct. unfold cap_of. rewrite Ht. repeat case_decide; naive_solver.
    + intros j Hj. split; [apply Hnone|]. intros st' l' (u & Hu & Hus & Huc). destruct (Htab _ _ Hu) as (u' & Hu' & Hus' & Huc').
      exists u'. split; [done|]. split; [congruence|]. intros i. rewrite Huc', Hcaps, decide_False by congruence.
      unfold cap_of. by rewrite Hu.
Qed.

(** A frame that was in use keeps its bytes when a program is loaded. *)
Lemma init_keeps_code code k ks k' id blob ct t :
  frames_wf (k_frames k) -> page_aligned code -> not_free (k_frames k) code ->
  user_spawned h k id blob ct t ks -> k_user k' = k_user ks ->
  forall i, i < 4096 -> k_user k' !! (code + i) = k_user k !! (code + i).
Proof.
  intros Hfw Ha Hnf (root & F & code' & stack & _ & _ & _ & _ & _ & Hfr & _ & Hrest & _) Hu i Hi. rewrite Hu. apply Hrest.
  destruct (Hfr code' (or_introl eq_refl)) as (Ha' & _ & Hn' & _). by eapply (free_frame_apart (k_frames k)).
Qed.

Lemma init_spawns fuel code n ev k l ty id blob f :
  initing code (9 + n) ev k -> table_is (k_sched k) 1 Running l -> lenN l < MAX_CAPS ->
  free_slot (k_sched k) = Some id -> blob_of ty = Some blob -> sf_rax f = 10 -> sf_rdi f = ty ->
  exists k', syscall_dispatch fuel f k = Ret (Done (set_sf_rax id f), k') /\ exists ch, initing code n ev k' /\
    table_is (k_sched k') 1 Running (l ++ [with_id (init_channel id) ch]) /\ table_is (k_sched k') id Ready [] /\
    (forall j, j <> 1 -> j <> id -> kept (k_sched k) (k_sched k') j) /\ k_console k' = k_console k /\
    (forall i, i < 4096 -> k_user k' !! (code + i) = k_user k !! (code + i)).
Proof.
  intros Hi (t1 & Ht1 & Ht1s & Ht1c) Hlen Hfree Hblob Hax Hdi. pose proof (initing_ready _ _ _ _ Hi) as Hrdy.
  pose proof Hi as [Hr Hc Hl [Hca Hcf] Hroom Hbelow Hau]. pose proof (so_wf _ (rn_sound _ _ _ Hr)) as Hwf.
  pose proof (wp_and _ _ _ _ (spawn_answers h 1 ty k Hr (fun _ => conj Hrdy Hblobs))
    (wp_uses 9 _ _ _ (dispatch_spawn_spec h k ty Hwf Hrdy Hblobs) (uses_spawn_task ty))) as (v & k' & Hrun & [Hr' _] & Ho & Hue & Hnx)%wp_run.
  destruct (free_slot_Some _ _ Hfree) as [Hid Hidn].
  assert (syscall_dispatch fuel f k = Ret (Done (set_sf_rax v f), k')) as Hcall.
  { rewrite (dispatch_decoded fuel f k 1 (RSpawnTask ty)); [|apply Hwf|done|unfold parse_request; by rewrite Hax, Hdi].
    cbn [handle_request]. erewrite rbind_rlift; [reflexivity|exact Hrun]. }
  destruct Ho as [[Hno|Hno]|id' blob' t ks init slot k' Hf' Hb' Hsp Hframe Hm Hfr Hu Hcur Hinit Hempty Hfirst Hslots Hcaps|id' blob' k' _ _ Hfull _ _].
  { congruence. } { congruence. }
  2: { exfalso. destruct (Hfull t1 (lenN l) Ht1 Hlen) as [c Hcc]. rewrite Ht1c, lookup_ge_None_2 in Hcc; [done|unfold lenN; lia]. }
  rewrite Hfree in Hf'. rewrite Hblob in Hb'. injection Hf' as <-. injection Hb' as <-. rewrite Ht1 in Hinit. injection Hinit as <-.
  pose proof (first_empty _ _ _ Ht1c Hempty Hfirst) as ->. exists k'. split; [done|]. exists (am_next_cap_id (k_amb k)).
  assert (frames_wf (k_frames k)) as Hfw by apply (sr_frames _ _ Hrdy).
  pose proof (init_keeps_code code k ks k' _ _ _ _ Hfw Hca Hcf Hsp Hu) as Hkeep. destruct Hframe as [_ Hk _ (F' & Hsp')].
  assert (active_root k' = active_root k) as Hroot by (rewrite Hk; done).
  destruct (rn_space _ _ _ Hr) as (F & Hspace & Hstk). destruct (Hsp' _ F (map_disjoint_empty_l _) Hstk Hspace) as (_ & [Hinv' _] & Htr).
  split; [split; [done|by rewrite Hcur| | | | |]|split; [|split; [|split; [|split; [|done]]]]].
  - destruct Hl as [[_ Hpg] Hfit Hdata]. split; [split|done|].
    + exists F. by rewrite h_offset, Hroot.
    + intros v Hv. rewrite <- (Hpg v Hv). unfold active_translate. rewrite h_offset, Hroot. apply Htr.
      pose proof (N.Div0.div_mod v 4096) as Hdm. pose proof (N.mod_lt v 4096 ltac:(done)). rewrite Hv in Hdm.
      change (USER_CODE_VADDR / 4096) with 1024 in Hdm. change (2 ^ 47) with 140737488355328. lia.
    + intros i bytes Hb. rewrite <- (Hdata i bytes Hb) at 2. apply frame_bytes_agree. intros x Hx. apply Hkeep.
      pose proof (offset_within init_prog i (lookup_lt_Some _ _ _ Hb)) as Hw. unfold item_bytes in Hw. rewrite Hb in Hw. unfold lenN in *. lia.
  - split; [done|]. unfold not_free in *. lia.
  - lia.
  - lia.
  - rewrite Hk. exact Hau.
  - assert (exists t1', task_slot (k_sched k') 1 = Some t1') as [t1' Ht1'].
    { specialize (Hcaps (lenN l)). rewrite decide_True in Hcaps by done. unfold cap_of in Hcaps. destruct (task_slot (k_sched k') 1); [by eexists|done]. }
    exists t1'. split; [done|]. split.
    + specialize (Hslots 1). rewrite decide_False, decide_True, Ht1' in Hslots by (done || lia). injection Hslots as ->. exact Ht1s.
    + intros j. specialize (Hcaps j). unfold cap_of in Hcaps. rewrite Ht1' in Hcaps. rewrite Hcaps, <- table_extended. by rewrite Ht1c.
  - exists t. rewrite Hslots, decide_True by done. destruct Hsp as (root & G & cd & stk & -> & _). split; [done|]. split; [done|]. intros j.
    unfold cap_at. cbn [t_cap_table]. case_match; [|done]. destruct (idx _ j) as [o|] eqn:Ho; [|done].
    apply idx_elem_of, elem_of_replicate_inv in Ho. by subst.
  - intros j Hj1 Hj. apply kept_slot. by rewrite Hslots, !decide_False.
  - by rewrite Hk.
Qed.

Lemma kept_trans s1 s2 s3 j : kept s1 s2 j -> kept s2 s3 j -> kept s1 s3 j.
Proof. intros [H1 H2] [H3 H4]. split; auto. Qed.

(** The first four places of the task table after slot 0. *)
Definition seat (s : Scheduler) (j : TaskId) (o : option (TaskState * list Capability)) : Prop :=
  match o with None => task_slot s j = None | Some (st, l) => table_is s j st l end.

Lemma kept_seat s s' j o : kept s s' j -> seat s j o -> seat s' j o.
Proof. intros [Hn Ht]. destruct o as [[st l]|]; [apply Ht|apply Hn]. Qed.

(** Init on its way from [k0]: what it has used up, and tasks 1 to 4. *)
Record stage (code n ev : N) (k0 : Kernel) (seats : list (option (TaskState * list Capability))) (k : Kernel) : Prop := {
  sg_init : initing code n ev k;
  sg_seats : forall j o, seats !! j = Some o -> seat (k_sched k) (1 + N.of_nat j) o;
  sg_others : forall j, ~ (1 <= j <= 4) -> kept (k_sched k0) (k_sched k) j;
  sg_console : k_console k = k_console k0;
  sg_code : forall i, i < 4096 -> k_user k !! (code + i) = k_user k0 !! (code + i)
}.

Lemma stage_grant fuel code n ev k0 seats k l src donor (tj : nat) st lt f :
  stage code n (1 + ev) k0 seats k -> (0 < tj < 4)%nat -> seats !! 0%nat = Some (Some (Running, l)) ->
  l !! src = Some donor -> cap_grant donor = true -> seats !! tj = Some (Some (st, lt)) -> lenN lt < MAX_CAPS ->
  sf_rax f = 5 -> sf_rdi f = N.of_nat src -> sf_rsi f = 1 + N.of_nat tj -> sf_rdx f = 3 ->
  exists k', syscall_dispatch fuel f k = Ret (Done (set_sf_rax 0 f), k') /\
    exists g, stage code n ev k0 (<[tj := Some (st, lt ++ [granted_cap donor RW g])]> seats) k'.
Proof.
  intros [Hi Hs Ho Hc Hu] Htj Hl Hd Hg Ht Hlt Hax Hdi Hsi Hdx.
  destruct (init_grants fuel code n ev k l src donor (1 + N.of_nat tj) st lt f) as (k' & Hrun & Hi' & Ht' & Hk & Hc' & Hu'); try done.
  { exact (Hs _ _ Hl). } { exact (Hs _ _ Ht). }
  exists k'. split; [done|]. eexists. split; [exact Hi'| | |congruence|by rewrite Hu'].
  - intros j o. destruct (decide (tj = j)) as [<-|Hne].
    + rewrite list_lookup_insert_eq by by eapply lookup_lt_Some. intros [= <-]. exact Ht'.
    + rewrite list_lookup_insert_ne by done. intros Hj. eapply kept_seat; [apply Hk; lia|by apply Hs].
  - intros j Hj. eapply kept_trans; [by apply Ho|apply Hk; lia].
Qed.

Lemma stage_spawn fuel code n ev k0 seats k l (tj : nat) ty blob f :
  stage code (9 + n) ev k0 seats k -> (0 < tj < 4)%nat -> seats !! 0%nat = Some (Some (Running, l)) -> lenN l < MAX_CAPS ->
  seats !! tj = Some None -> (forall i, (0 < i < tj)%nat -> exists x, seats !! i = Some (Some x)) ->
  blob_of ty = Some blob -> sf_rax f = 10 -> sf_rdi f = ty ->
  exists k', syscall_dispatch fuel f k = Ret (Done (set_sf_rax (1 + N.of_nat tj) f), k') /\
    exists ch, stage code n ev k0
      (<[tj := Some (Ready, [])]> (<[0%nat := Some (Running, l ++ [with_id (init_channel (1 + N.of_nat tj)) ch])]> seats)) k'.
Proof.
  intros [Hi Hs Ho Hc Hu] Htj Hl Hlen Hn Hlow Hb Hax Hdi.
  destruct (init_spawns fuel code n ev k l ty (1 + N.of_nat tj) blob f) as (k' & Hrun & ch & Hi' & Ht1 & Htj' & Hk & Hc' & Hu'); try done.
  { exact (Hs _ _ Hl). }
  { apply free_slot_is; [unfold MAX_TASKS; lia| |exact (Hs _ _ Hn)]. intros j Hj.
    destruct (Hlow (N.to_nat (j - 1)) ltac:(lia)) as [[st lj] Hx]. apply Hs in Hx as (t & Ht & _).
    replace (1 + N.of_nat (N.to_nat (j - 1))) with j in Ht by lia. by exists t. }
  exists k'. split; [done|]. exists ch. split; [exact Hi'| | |congruence|].
  - intros j o. destruct (decide (tj = j)) as [<-|Hne].
    + rewrite list_lookup_insert_eq by (rewrite length_insert; by eapply lookup_lt_Some). intros [= <-]. exact Htj'.
    + rewrite list_lookup_insert_ne by done. destruct j as [|j].
      * rewrite list_lookup_insert_eq by by eapply lookup_lt_Some. intros [= <-]. exact Ht1.
      * rewrite list_lookup_insert_ne by done. intros Hj. eapply kept_seat; [apply Hk; lia|by apply Hs].
  - intros j Hj. eapply kept_trans; [by apply Ho|apply Hk; lia].
  - intros i Hi4. rewrite Hu' by done. by apply Hu.
Qed.

Lemma frame_bytes_split k code off n m :
  frame_bytes k code off (n + m) = frame_bytes k code off n ++ frame_bytes k code (off + N.of_nat n) m.
Proof.
  unfold frame_bytes. rewrite <- fmap_app. f_equal. unfold rangeN. rewrite seq_app, fmap_app. f_equal.
  apply list_eq. intros i. rewrite !list_lookup_fmap. destruct (decide (i < m)%nat).
  - rewrite !lookup_seq_lt by done. simpl. f_equal. lia.
  - by rewrite !lookup_seq_ge by lia.
Qed.

Definition INIT_TEXT : list N := as_bytes "[user-init] system boot complete." ++ [NEWLINE].

(** The write at the end: 35 bytes from a text of 34. *)
Lemma init_prints fuel code n ev k l c0 f :
  initing code n ev k -> table_is (k_sched k) 1 Running (c0 :: l) -> cap_resource c0 = Serial -> lenN (assemble init_prog) < 4096 ->
  sf_rax f = 4 -> sf_rdi f = 0 -> sf_rsi f = label_addr init_prog 38 -> sf_rdx f = 35 -> sf_r8 f < u64_limit ->
  exists k', syscall_dispatch fuel f k = Ret (Done (set_sf_rax 0 f), k') /\ running h 1 k' /\ k_sched k' = k_sched k /\
    k_console k' = k_console k ++ shown (INIT_TEXT ++ [default 0 (k_user k !! (code + lenN (assemble init_prog)))]).
Proof.
  intros [Hr Hc Hl Hcode Hroom Hbelow Hau] Ht Hser Hfit Hax Hdi Hsi Hdx H8. pose proof (so_wf _ (rn_sound _ _ _ Hr)) as Hwf.
  assert (offset_of init_prog 38 = offset_of init_prog 39) as E8 by (symmetry; by eapply offset_label).
  assert (offset_of init_prog 39 + 34 = lenN (assemble init_prog)) as Hend.
  { change (lenN (assemble init_prog)) with (offset_of init_prog 40). by rewrite (offset_S init_prog 39). }
  destruct (serial_call fuel code k 1 f (offset_of init_prog 39) 35) as (a & Ha & Hrun); try done; try apply Hl; try apply Hwf; try lia.
  { unfold label_addr in Hsi. rewrite E8 in Hsi. split; [done|]. split; [lia|]. by rewrite Hdx. }
  rewrite (holds_serial_slot _ 1), (table_cap _ _ _ _ _ Ht), Hdi in Hrun by (done || apply Hwf). change ((c0 :: l) !! N.to_nat 0) with (Some c0) in Hrun. cbn iota in Hrun.
  rewrite bool_decide_eq_true_2 in Hrun by done. eexists. split; [exact Hrun|]. split; [by apply running_printed|]. split; [done|].
  ksimp. do 2 f_equal. rewrite (frame_bytes_split _ _ _ 34 1). f_equal; [exact (ld_data _ _ _ Hl 39 _ eq_refl)|].
  rewrite <- Hend. unfold frame_bytes. by rewrite rangeN_S.
Qed.

(** The authority init leaves behind: its own channels, the serial port for the two
    services, and channels to them for the demonstration task. *)
Definition handed_out (c0 : Capability) (s : Scheduler) : Prop :=
  exists i2 i3 i4 g2 g3 g42 g43,
    let ch2 := with_id (init_channel 2) i2 in let ch3 := with_id (init_channel 3) i3 in let ch4 := with_id (init_channel 4) i4 in
    table_is s 1 Running [c0; ch2; ch3; ch4] /\
    table_is s 2 Ready [granted_cap c0 RW g2] /\
    table_is s 3 Ready [granted_cap c0 RW g3] /\
    table_is s 4 Ready [granted_cap ch2 RW g42; granted_cap ch3 RW g43].

(** A system call of the program, by the lemma about it. *)
Tactic Notation "init_call" uconstr(lem) :=
  eapply uwp_call; [done|eapply lem; try reflexivity; try done; try lia; intros [|[|[|]]] ?; try lia; eexists; reflexivity|].

(** C7: Init brings up the system it describes.  Started with a grantable serial
    capability in its only used slot, slots 2 to 4 of the task table empty and 28
    frames free, the init program runs through its eight system calls without
    giving up the processor.  It creates the logging service as task 2, the
    file-request service as task 3 and the demonstration task as task 4; the
    services hold the right to write to the serial port and nothing else, the
    demonstration task channels to both services and nothing else, none of it
    grantable; no other task is touched; and the program ends up in its yield loop
    with the kernel sound.  Its message is printed with the byte that follows the
    program in memory, if the two are text. *)
Theorem init_boots fuel code k regs zf c0 :
  initing code 27 5 k -> lenN (assemble init_prog) < 4096 -> sf_r8 regs < u64_limit ->
  cap_resource c0 = Serial -> cap_grant c0 = true -> table_is (k_sched k) 1 Running [c0] ->
  (forall j, 2 <= j <= 4 -> task_slot (k_sched k) j = None) ->
  uwp init_prog fuel (mkUser regs zf 0) k (fun u' k' => u_pc u' = 34%nat /\ running h 1 k' /\ handed_out c0 (k_sched k') /\
    (forall j, ~ (1 <= j <= 4) -> kept (k_sched k) (k_sched k') j) /\
    k_console k' = k_console k ++ shown (INIT_TEXT ++ [default 0 (k_user k !! (code + lenN (assemble init_prog)))])).
Proof.
  intros Hi Hfit H8 Hser Hgr Ht1 Hnone. destruct regs as [rax rbx rcx rdx rsi rdi rbp r8 r9 r10 r11 r12 r13 r14 r15]. cbn [sf_r8] in H8.
  assert (stage code 27 5 k [Some (Running, [c0]); None; None; None] k) as S0.
  { split; [done| |by intros; apply kept_slot|done|done].
    intros [|[|[|[|]]]] o [= <-]; [done|by apply Hnone..]. }
  ustraight 2%nat. init_call (stage_spawn fuel code 18 5 k _ k _ 1 1 _ _ S0). intros k1 [i2 S1].
  ustraight 4%nat. init_call (stage_grant fuel code 18 4 k _ k1 _ 0 c0 1 _ _ _ S1). intros k2 [g2 S2].
  ustraight 2%nat. init_call (stage_spawn fuel code 9 4 k _ k2 _ 2 3 _ _ S2). intros k3 [i3 S3].
  ustraight 4%nat. init_call (stage_grant fuel code 9 3 k _ k3 _ 0 c0 2 _ _ _ S3). intros k4 [g3 S4].
  ustraight 2%nat. init_call (stage_spawn fuel code 0 3 k _ k4 _ 3 2 _ _ S4). intros k5 [i4 S5].
  ustraight 4%nat. init_call (stage_grant fuel code 0 2 k _ k5 _ 1 (with_id (init_channel 2) i2) 3 _ _ _ S5). intros k6 [g42 S6].
  ustraight 4%nat. init_call (stage_grant fuel code 0 1 k _ k6 _ 2 (with_id (init_channel 3) i3) 3 _ _ _ S6). intros k7 [g43 [Hi7 Hs7 Ho7 Hc7 Hu7]].
  pose proof (Hs7 0%nat _ eq_refl) as T1.
  ustraight 4%nat. eapply uwp_call; [done|eapply (init_prints fuel code 0 1 k7 _ c0); [exact Hi7|exact T1|done..]|]. intros k8 (Hr8 & S8 & C8).
  apply uwp_done. split; [done|]. split; [done|]. rewrite S8. split; [|split; [done|]].
  - exists i2, i3, i4, g2, g3, g42, g43. split; [exact T1|].
    split; [exact (Hs7 1%nat _ eq_refl)|]. split; [exact (Hs7 2%nat _ eq_refl)|exact (Hs7 3%nat _ eq_refl)].
  - by rewrite C8, Hc7, Hu7.
Qed.
End init.

(** ** From the spawn to the run *)

Section entry.
Context `{L : Layout} `{ASM : Assembler}.
#[local] Existing Instance assembled.

(** The kernel when the spawned task [t] first runs: its control block in its slot
    with the messages [q] queued for it, its address space active. *)
Definition enters (q : MessageQueue) (t : Task) (k : Kernel) : Kernel :=
  on_machine (on_cpu (set_r_cr3 (t_cr3 t))) (set_current (t_id t) (add_task (set_t_msg_queue q (set_t_state Running t)) k)).

(** The task [id] has just been entered, spawned in [k] with the program [prog]. *)
Record entered (h : N) (k : Kernel) (id : TaskId) (prog : list item) (ct : CapTable) (q : MessageQueue) (code : N) (k2 : Kernel) : Prop := {
  en_running : running h id k2;
  en_current : s_current_task_id (k_sched k2) = Some id;
  en_loaded : loaded prog code k2;
  en_code : page_aligned code /\ not_free (k_frames k2) code;
  en_frames : usable_end (k_frames k2) = usable_end (k_frames k) /\ next_free_paddr (k_frames k2) <= next_free_paddr (k_frames k) + 9 * 4096;
  en_task : exists t, task_slot (k_sched k2) id = Some t /\ t_state t = Running /\ t_cap_table t = ct /\ t_msg_queue t = q /\ t_ipc_buffer t = None;
  en_others : forall j, id <> j -> task_slot (k_sched k2) j = task_slot (k_sched k) j;
  en_unmapped : forall v, v < 2 ^ 47 -> v / 4096 <> USER_STACK_VADDR / 4096 -> v / 4096 <> USER_CODE_VADDR / 4096 -> active_translate k2 v = None;
  en_kept : k_audit k2 = k_audit k /\ k_console k2 = k_console k
}.

Lemma spawned_enters h k id prog ct q :
  hhdm_response = Some h -> stacks_fit -> id < MAX_TASKS -> lenN (assemble prog) <= 4096 -> CapTable_wf ct ->
  mq_wf q -> Forall message_ok (mq_contents q) ->
  frames_sep h ∅ (k_frames k) -> not_free (k_frames k) (current_pml4_paddr (k_cpu k)) ->
  current_pml4_paddr (k_cpu k) + h + 4096 <= u64_limit ->
  next_free_paddr (k_frames k) + 9 * 4096 < usable_end (k_frames k) -> usable_end (k_frames k) + h <= task_stacks -> sound k ->
  exists t k' code, spawn_user id (assemble prog) ct k = Ret (t, k') /\ entered h k id prog ct q code (enters q t k').
Proof.
  intros Hh Hst Hid Hfit Hct Hq Hqm Hsep Hroot Hrh Hroom Hbelow [Hwf Hd Hm]. assert (hhdm_offset = h) as Hoff by (unfold hhdm_offset; by rewrite Hh).
  pose proof (spawn_user_spec k h id (assemble prog) ct Hh Hst Hid Hfit Hsep Hroot Hrh Hroom Hbelow) as Hs.
  apply wp_run in Hs as (t & k' & Hrun & Hs).
  pose proof (uses_spawn_user id (assemble prog) ct k t k' Hrun) as [Hue Hnx].
  pose proof Hs as (root & F & code & stack & Ht & Hk & [Hinv Hsp] & Htr & _ & Hfr & _ & _ & _ & Hlow).
  destruct (pi_frame _ _ _ _ Hinv _ _ (pi_root _ _ _ _ Hinv)) as (Hra & Hr52 & _).
  assert (active_root (enters q t k') = root) as Hact by (rewrite Ht; exact (frame_of_aligned root Hra Hr52)).
  assert (k_frames (enters q t k') = k_frames k' /\ k_mem (enters q t k') = k_mem k' /\ k_user (enters q t k') = k_user k') as (Hf & Hmm & Hu) by done.
  assert (forall j, task_slot (k_sched (enters q t k')) j =
    if decide (id = j) then Some (set_t_msg_queue q (set_t_state Running t)) else task_slot (k_sched k) j) as Hslot.
  { intros j. change (task_slot (k_sched (enters q t k')) j) with (task_slot (put_slot (t_id t) (Some (set_t_msg_queue q (set_t_state Running t))) (k_sched k')) j).
    rewrite Ht, Hk. ksimp. apply task_slot_put. by rewrite (sched_wf_len _ (kw_sched _ Hwf)). }
  exists t, k', code. split; [exact Hrun|]. split.
  - split; [split| |].
    + unfold enters. destruct (set_current_wf (t_id t) (add_task (set_t_msg_queue q (set_t_state Running t)) k')); [|by split].
      apply add_task_wf; [rewrite Ht; by split|]. rewrite Hk. by destruct Hwf.
    + unfold enters, depth_ok in *. rewrite Hk. exact Hd.
    + intros j tj. rewrite Hslot. case_decide; [|apply Hm]. intros [= <-]. rewrite Ht. by split.
    + rewrite Hslot, decide_True by done. eauto.
    + exists F. rewrite Hact, Hf, Hmm. split; [done|]. intros a Ha. specialize (Hlow a Ha). lia.
  - by rewrite Ht.
  - destruct (spawned_loaded h k id prog ct t k' (enters q t k') Hoff Hs Hfit) as [code' Hl']; try done; [by rewrite Hact, Ht|].
    replace code with code'; [done|]. pose proof (cp_page _ _ (ld_page _ _ _ Hl') USER_CODE_VADDR eq_refl) as Hp.
    unfold active_translate in Hp. rewrite Hact, Hmm, Hoff, Htr in Hp by done. by injection Hp.
  - rewrite Hf. by destruct (Hfr code (or_introl eq_refl)) as (? & _ & _ & ?).
  - rewrite Hf. lia.
  - eexists. split; [by rewrite Hslot, decide_True|]. rewrite Ht. done.
  - intros j Hj. by rewrite Hslot, decide_False.
  - intros v Hv Hns Hnc. unfold active_translate. rewrite Hact, Hmm, Hoff, Htr, !decide_False by done. done.
  - unfold enters. by rewrite Hk.
Qed.

Lemma entered_initing h k ct q code k2 :
  entered h k 1 init_prog ct q code k2 -> usable_end (k_frames k) + h <= task_stacks ->
  next_free_paddr (k_frames k) + 36 * 4096 < usable_end (k_frames k) -> al_total (k_audit k) + 5 * CALL_EVENTS < u64_limit ->
  initing h code 27 5 k2.
Proof.
  intros [Hr Hc Hl Hco [Hue Hnf] _ _ _ [Hau _]] Hbelow Hroom Hev. split; try done; [lia|lia|by rewrite Hau].
Qed.
End entry.

(** ** An example run *)

(** Seven bytes for every instruction. *)
Definition example_assembler : Assembler := {| encode := fun _ _ => replicate 7 0x90 |}.

Definition init_serial : Capability := mkCap Serial false true true false 0 None.
Definition example_boot : Kernel := set_k_frames (mkFrameAllocator 0x200000 0x240000) example_space.
Definition init_table : CapTable := mkCapTable (Some init_serial :: replicate 31 None).

Lemma example_boot_frames : frames_sep 0xffff800000000000 ∅ (k_frames example_boot).
Proof.
  split; [split; [reflexivity|reflexivity|vm_compute; discriminate|reflexivity]|split; vm_compute; discriminate|].
  by intros t [l ?].
Qed.

Lemma example_fits : lenN (assemble (ASM := example_assembler) init_prog) <= 4096.
Proof. vm_compute. discriminate. Qed.

Lemma example_root_used : not_free (k_frames example_boot) (current_pml4_paddr (k_cpu example_boot)).
Proof. left. vm_compute. discriminate. Qed.

Lemma example_boot_empty j : task_slot (k_sched example_boot) j = None.
Proof.
  change (k_sched example_boot) with Scheduler_init. unfold task_slot.
  destruct (idx (s_tasks Scheduler_init) j) as [o|] eqn:Ho; [|done]. apply idx_elem_of, elem_of_replicate_inv in Ho. by subst.
Qed.

Lemma example_boot_sound : sound example_boot.
Proof. split; [destruct Kernel_init_wf; by split|done|]. intros i t. by rewrite example_boot_empty. Qed.

Lemma example_blobs_fit : blobs_fit (B := assembled (ASM := example_assembler)).
Proof.
  intros ty b. unfold blob_of. repeat case_match; intros Hb; inversion Hb; vm_compute; discriminate.
Qed.

Lemma init_table_caps j : cap_at init_table j = [init_serial] !! N.to_nat j.
Proof.
  unfold cap_at, idx, slots, init_table. destruct (N.to_nat j) as [|n] eqn:En.
  - by replace j with 0 by lia.
  - change ((Some init_serial :: replicate 31 None) !! S n) with (replicate 31 (@None Capability) !! n).
    change ([init_serial] !! S n) with (@None Capability).
    destruct (replicate 31 (@None Capability) !! n) as [o|] eqn:Ho; [apply lookup_replicate_1 in Ho as [-> _]|]; destruct (j <? MAX_CAPS); try reflexivity; by case_match.
Qed.

(** A program entered as task [id] of the example. *)
Lemma example_entered id prog ct q :
  id < MAX_TASKS -> CapTable_wf ct -> lenN (assemble (ASM := example_assembler) prog) <= 4096 -> mq_wf q -> Forall message_ok (mq_contents q) ->
  exists t k' code, spawn_user (L := example_layout) id (assemble (ASM := example_assembler) prog) ct example_boot = Ret (t, k') /\
    entered (L := example_layout) (ASM := example_assembler) 0xffff800000000000 example_boot id prog ct q code (enters q t k').
Proof.
  intros Hid Hct Hfit Hq Hqm.
  apply (spawned_enters (L := example_layout) (ASM := example_assembler) 0xffff800000000000 example_boot id prog ct q); try done.
  - apply example_boot_frames.
  - exact example_root_used.
  - exact example_boot_sound.
Qed.

Lemma init_boots_witness :
  exists t k' code, spawn_init_task (L := example_layout) (B := assembled (ASM := example_assembler)) 1 init_table example_boot = Ret (t, k') /\
    let k := enters MessageQueue_new t k' in
    uwp (L := example_layout) (B := assembled (ASM := example_assembler)) (ASM := example_assembler) init_prog 3
      (mkUser (mkSyscallFrame 0 0 0 0 0 0 0 0 0 0 0 0 0 0 0) false 0) k (fun u' k'' => u_pc u' = 34%nat /\
      running (L := example_layout) 0xffff800000000000 1 k'' /\ handed_out init_serial (k_sched k'') /\
      (forall j, ~ (1 <= j <= 4) -> kept (k_sched k) (k_sched k'') j) /\
      k_console k'' = k_console k ++ shown (INIT_TEXT ++ [default 0 (k_user k !! (code + lenN (assemble (ASM := example_assembler) init_prog)))])).
Proof.
  destruct (example_entered 1 init_prog init_table MessageQueue_new eq_refl eq_refl example_fits MessageQueue_new_wf (Forall_nil_2 _)) as (t & k' & code & Hrun & He).
  exists t, k', code. split; [exact Hrun|].
  apply (init_boots (L := example_layout) (ASM := example_assembler) 0xffff800000000000).
  1: reflexivity. 1: exact example_stacks_fit. 1: exact example_blobs_fit.
  1: eapply entered_initing; [exact He|vm_compute; discriminate|vm_compute; reflexivity|vm_compute; reflexivity].
  1: vm_compute; reflexivity. 1-3: reflexivity.
  - destruct (en_task _ _ _ _ _ _ _ _ He) as (t1 & Ht1 & Hst & Hct & _). exists t1. rewrite Hct. split; [exact Ht1|]. split; [exact Hst|exact init_table_caps].
  - intros j Hj. rewrite (en_others _ _ _ _ _ _ _ _ He j ltac:(lia)). exact (example_boot_empty j).
Defined.
