(* ===== verification/Services.v ===== *)
(** * The services and the demonstration programs

    What the user programs of [UserCode.v] do when they run: the logging and
    file-request services print every message of their queue, once and in order;
    the asynchronous pair queues a reading and prints it; the faulty program loses
    its serial port, is refused a kernel pointer and ends in a page fault; the
    counting program never enters the kernel. *)

From S2P Require Import Prelude Ring Text Preempt Trace Capability AuditTrail Message Machine Frames.
From S2P Require Import Task Scheduler Kernel Switch Scheduling Spawn Contexts Entry Ipc Rendezvous Messaging.
From S2P Require Import Authority Propagation Delegation Paging AddressSpace UserMemory Userspace Syscall Requests InitSpawn Safety UserCode UserRun InitBoot.
Local Open Scope N_scope.

(** ** The services *)

(** The services and the text they print before a message. *)
Definition services : list (list item * list N) :=
  [(logger_prog, as_bytes "[user-logger] received: "); (ramfs_prog, as_bytes "[user-ramfs] file request: ")].

Section services.
Context `{L : Layout} `{B : Blobs} `{ASM : Assembler}.

(** C8: The services serve.  Running with the serial port in slot 0, the logging
    service and the file-request service receive every message of their queue in
    order and print each on a line of its own after their prefix, if its payload is
    text; then they are back at their receive with the queue empty, the kernel
    sound, their code intact and no other task touched. *)
Theorem services_relay fuel prog prefix code cur k t regs zf :
  (prog, prefix) ∈ services -> serving prog code cur 0 k -> task_slot (k_sched k) cur = Some t -> sf_r8 regs < u64_limit ->
  uwp prog (S fuel) (mkUser regs zf 0) k (fun u' k' => u_pc u' = O /\ serving prog code cur 0 k' /\
    k_console k' = k_console k ++ concat (relay_line prefix <$> mq_contents (t_msg_queue t)) /\
    (exists q, mq_contents q = [] /\ task_slot (k_sched k') cur = Some (set_t_msg_queue q t)) /\
    forall j, j <> cur -> task_slot (k_sched k') j = task_slot (k_sched k) j).
Proof.
  intros Hin Hsv Ht H8. apply relays_queue; try done. unfold services in Hin. rewrite !elem_of_cons, elem_of_nil in Hin.
  destruct Hin as [[= -> ->]|[[= -> ->]|[]]]; [apply logger_relays|apply ramfs_relays].
Qed.
End services.

(** ** The asynchronous pair *)

Section pair.
Context `{L : Layout} `{B : Blobs} `{ASM : Assembler}.

(** The message the sender sends, and what it prints. *)
Definition sensor_message (cur : TaskId) : Message :=
  mkMessage cur Sensor 1 (as_bytes "Async Sensor Msg #1" ++ replicate 109 0) 19.
Definition SENT : list N := as_bytes "[Task 7] Async send success" ++ [NEWLINE].

Lemma async_sends_cap_of s cur ci m r s' i j :
  sched_wf s -> async_sends s cur ci m r s' -> cap_of s' i j = cap_of s i j /\ s_current_task_id s' = s_current_task_id s.
Proof.
  intros Hs Ha. destruct Ha; (split; [|by rewrite ?get_task_mut_current]); try done. unfold cap_of.
  rewrite get_task_mut_slot by done. case_decide; [|done]. subst. rewrite H0. simpl. unfold queued. by case_match.
Qed.

(** A message operation that leaves capabilities and the running task alone. *)
Lemma serving_frame prog code cur ci k s d k' :
  serving prog code cur ci k -> ipc_frame k s d k' -> sched_wf s -> messages_ok s ->
  (forall i j, cap_of s i j = cap_of (k_sched k) i j) -> s_current_task_id s = s_current_task_id (k_sched k) ->
  serving prog code cur ci k'.
Proof.
  intros [[Hwf Hd Hm] Hl Hc Hs] Hf Hwf' Hm' Hcaps Hcur. pose proof (ipc_frame_sched _ _ _ _ Hf) as Hs'.
  assert (k_user k' = k_user k /\ k_mem k' = k_mem k /\ active_root k' = active_root k) as (Hu & Hmem & Hroot) by (by destruct Hf as [[a ->] _ _]).
  split; [split; [by eapply ipc_frame_wf|by eapply ipc_frame_depth|by rewrite Hs']| |by rewrite Hs', Hcur|].
  - destruct Hl as [[[F Hinv] Hpg] Hfit Hdata]. split; [split| |].
    + exists F. by rewrite Hmem, Hroot.
    + intros v Hv. unfold active_translate. rewrite Hmem, Hroot. by apply Hpg.
    + done.
    + intros j bs Hj. rewrite <- (Hdata j bs Hj) at 2. apply frame_bytes_agree. by rewrite Hu.
  - rewrite Hs', (holds_serial_slot _ cur), Hcaps by (done || by rewrite Hcur).
    by rewrite <- (holds_serial_slot _ cur) by (done || apply Hwf).
Qed.

(** An asynchronous send of bytes of the code page. *)
Lemma send_async_call fuel prog code cur ci k f i bytes m tag :
  serving prog code cur ci k -> prog !! i = Some (Data bytes) ->
  check_envelope (sf_rdx f mod 2 ^ 16) (sf_rdx f / 2 ^ 16 mod 2 ^ 16) bytes = Ok tag ->
  build_message cur tag (sf_rdx f / 2 ^ 16 mod 2 ^ 16) bytes = Ret m ->
  sf_rax f = 8 -> sf_rsi f = USER_CODE_VADDR + offset_of prog i -> sf_r8 f = lenN bytes -> sf_rdx f < u64_limit ->
  exists r k', syscall_dispatch fuel f k = Ret (Done (set_sf_rax (match r with Ok _ => 0 | Err QueueFull => SYS_ERR - 7 | Err _ => SYS_ERR end) f), k') /\
    serving prog code cur ci k' /\ async_sends (k_sched k) cur (sf_rdi f) m r (k_sched k') /\ k_console k' = k_console k /\ k_user k' = k_user k.
Proof.
  intros Hsv Hi He Hb Hax Hsi H8 Hdx. pose proof Hsv as [Hk Hl Hc Hs]. pose proof Hk as [Hwf Hd Hm].
  pose proof (item_within _ _ _ _ _ Hl Hi) as Hw. unfold item_bytes in Hw. rewrite Hi in Hw.
  pose proof He as (Hlen & _)%check_envelope_Ok.
  destruct (page_request code k f (offset_of prog i)) as (req & Hp & Hdec); [apply Hl|split; [done|rewrite H8; unfold u64_limit in *; lia]|].
  unfold decodes in Hdec. rewrite Hax, Hsi, H8 in Hdec. unfold lenN in Hdec.
  apply (slice_of_page code) in Hdec as ->; [|apply Hl|exact Hw|exact Hlen].
  rewrite (ld_data _ _ _ Hl i bytes Hi) in Hp. rewrite (dispatch_decoded fuel f k cur _ (kw_unlocked _ Hwf) Hc Hp).
  pose proof (sys_send_async_spec cur (sf_rdi f) _ _ bytes tag k Hwf Hd He Hc) as (r & k' & Hrun & m' & s' & Hb' & Has & Hf)%wp_run.
  rewrite Hb in Hb'. injection Hb' as <-. exists r, k'. pose proof (ipc_frame_sched _ _ _ _ Hf) as Hs'.
  pose proof (fun i j => async_sends_cap_of _ _ _ _ _ _ i j (kw_sched _ Hwf) Has) as Hcaps.
  split; [|split; [|rewrite Hs'; split; [done|by destruct Hf as [[a ->] _ _]]]].
  - cbn [handle_request]. erewrite rbind_rlift; [reflexivity|]. unfold handle_send_async, kbind. by rewrite Hrun.
  - eapply serving_frame; [done..| | |by intros; apply Hcaps|apply (Hcaps 0 0)].
    + eapply async_sends_wf; [apply Hwf|done].
    + eapply async_sends_messages; [apply Hwf|done| |done]. by eapply build_message_message_ok.
Qed.

(** A turn of the sender, up to its yield: the reading is sent, and everything but a
    full queue is reported as a success. *)
Lemma async_sender_turn fuel code cur k regs zf :
  serving async_sender_prog code cur 1 k ->
  uwp async_sender_prog fuel (mkUser regs zf 0) k (fun u' k' => u_pc u' = 17%nat /\ sf_rax (u_regs u') = 1 /\
    serving async_sender_prog code cur 1 k' /\ exists r, async_sends (k_sched k) cur 0 (sensor_message cur) r (k_sched k') /\
      k_console k' = k_console k ++ match r with Err QueueFull => [] | _ => SENT end).
Proof.
  intros Hsv. destruct regs as [rax rbx rcx rdx rsi rdi rbp r8 r9 r10 r11 r12 r13 r14 r15]. ustraight 6%nat.
  match goal with |- uwp _ _ (mkUser ?f _ _) _ _ =>
    destruct (send_async_call fuel async_sender_prog code cur 1 k f 20 (as_bytes "Async Sensor Msg #1") (sensor_message cur) Sensor)
      as (r & k1 & Hrun & Hsv1 & Has & Hco1 & _); try done end.
  eapply uwp_call_at; [done|exact Hrun|]. cbn [sf_rdi] in Has.
  cbv beta iota delta [set_sf_rax sf_rax sf_rbx sf_rcx sf_rdx sf_rsi sf_rdi sf_rbp sf_r8 sf_r9 sf_r10 sf_r11 sf_r12 sf_r13 sf_r14 sf_r15 u_regs u_zf u_pc].
  assert (r = Err QueueFull \/ r <> Err QueueFull) as [->|Hne] by (destruct r as [|[]]; auto; by right).
  - ustraight 5%nat. apply uwp_done. split; [done|]. split; [done|]. split; [done|]. exists (Err QueueFull). by rewrite app_nil_r.
  - assert (exists v, (match r with Ok _ => 0 | Err QueueFull => SYS_ERR - 7 | Err _ => SYS_ERR end) = v /\ (v =? 0xfffffffffffffff8) = false) as (v & -> & Hv).
    { eexists. split; [reflexivity|]. by destruct r as [|[]]. }
    ustraight 2%nat. rewrite Hv. ustraight 5%nat. eapply uwp_call; [done|eapply (prints _ async_sender_prog _ _ _ k1 22); try done|].
    intros k2 (Hsv2 & Hco2 & Hs2 & _). ustraight 2%nat. apply uwp_done. split; [done|]. split; [done|]. split; [done|].
    exists r. rewrite Hs2, Hco2, Hco1. split; [done|]. by destruct r as [|[]].
Qed.

(** Nothing to receive: no queued or buffered message and no blocked sender. *)
Definition nothing_for (s : Scheduler) (cur : TaskId) (t : Task) : Prop :=
  mq_contents (t_msg_queue t) = [] /\ t_ipc_buffer t = None /\ forall j tj, task_slot s j = Some tj -> t_state tj <> BlockedOnSend cur.

Lemma receives_nothing_for s cur t o s' : nothing_for s cur t -> receives s cur t o s' -> o = None /\ s' = s.
Proof.
  intros (Hq & Hb & Hn) []; [congruence|congruence| |done].
  match goal with H : first_sender _ _ _ _ |- _ => destruct H as (Hi & Hst & _) end. by destruct (Hn _ _ Hi).
Qed.

Lemma receive_async_nothing fuel prog code cur ci k t f i :
  serving prog code cur ci k -> task_slot (k_sched k) cur = Some t -> nothing_for (k_sched k) cur t ->
  prog !! i = Some (Space 128) -> sf_rax f = 9 -> sf_rsi f = USER_CODE_VADDR + offset_of prog i -> sf_rdx f = 128 -> sf_r8 f < u64_limit ->
  exists k', syscall_dispatch fuel f k = Ret (Done (set_sf_rax (SYS_ERR - 8) f), k') /\ serving prog code cur ci k' /\
    k_console k' = k_console k /\ k_sched k' = k_sched k.
Proof.
  intros Hsv Ht Hno Hi Hax Hsi Hdx H8. pose proof Hsv as [Hk Hl Hc Hs]. pose proof Hk as [Hwf Hd Hm].
  pose proof (item_within _ _ _ _ _ Hl Hi) as Hw. unfold item_bytes in Hw. rewrite Hi in Hw. change (lenN (replicate 128 0)) with 128 in Hw.
  destruct (page_request code k f (offset_of prog i)) as (req & Hp & Hdec); [apply Hl|split; [done|]; rewrite Hdx; split; [lia|done]|].
  unfold decodes in Hdec. rewrite Hax in Hdec.
  assert (range_ok k (sf_rsi f) (N.min (sf_rdx f) 128) true) as Hrange by (rewrite Hsi, Hdx; eapply code_range; [apply Hl|done]).
  destruct Hdec as [_|[]]; [|done]. rewrite (dispatch_decoded fuel f k cur _ (kw_unlocked _ Hwf) Hc Hp).
  pose proof (sys_receive_async_spec cur t k Hwf Hc Ht) as (r & k' & Hrun & o & s' & Hr & -> & Hf)%wp_run.
  destruct (receives_nothing_for _ _ _ _ _ Hno Hr) as [-> ->]. exists k'. split; [|split; [|split]].
  - cbn [handle_request]. erewrite rbind_rlift; [reflexivity|]. unfold handle_receive_async, kbind. by rewrite Hrun.
  - eapply serving_frame; [done..|apply Hwf|done|done|done].
  - by destruct Hf as [[a ->] _ _].
  - by apply ipc_frame_sched in Hf.
Qed.

(** A turn of the receiver, up to its yield. *)
Lemma async_receiver_turn fuel code cur k t m regs zf :
  serving async_receiver_prog code cur 0 k -> task_slot (k_sched k) cur = Some t -> would_receive (k_sched k) cur t m -> sf_r8 regs < u64_limit ->
  uwp async_receiver_prog (S fuel) (mkUser regs zf 0) k (fun u' k' => u_pc u' = 26%nat /\ sf_rax (u_regs u') = 1 /\
    serving async_receiver_prog code cur 0 k' /\ k_console k' = k_console k ++ relay_line (as_bytes "[Task 8] Async received: ") m /\
    receives (k_sched k) cur t (Some (Ok m)) (k_sched k')).
Proof.
  intros Hsv Ht Hw H8. receive_message async_receiver_prog 30%nat 4%nat. ustraight 2%nat.
  pose proof (rc_len _ _ _ _ _ _ _ Hr) as Hlen. rewrite (proj2 (N.eqb_neq (msg_len m) 18446744073709551607)) by lia.
  print_line async_receiver_prog 28%nat 32%nat 30%nat 6%nat. ustraight 2%nat. apply uwp_done.
  split; [done|]. split; [done|]. split; [done|]. by eapply relay_printed; [|reflexivity|..].
Qed.

(** A turn of the receiver with nothing to receive. *)
Lemma async_receiver_idle fuel code cur k t regs zf :
  serving async_receiver_prog code cur 0 k -> task_slot (k_sched k) cur = Some t -> nothing_for (k_sched k) cur t -> sf_r8 regs < u64_limit ->
  uwp async_receiver_prog fuel (mkUser regs zf 0) k (fun u' k' => u_pc u' = 26%nat /\ sf_rax (u_regs u') = 1 /\
    serving async_receiver_prog code cur 0 k' /\ k_console k' = k_console k /\ k_sched k' = k_sched k).
Proof.
  intros Hsv Ht Hno H8. destruct regs as [rax rbx rcx rdx rsi rdi rbp r8 r9 r10 r11 r12 r13 r14 r15]. cbn [sf_r8] in H8. ustraight 4%nat.
  eapply uwp_call; [done|eapply (receive_async_nothing _ async_receiver_prog _ _ _ k _ _ 31); try done|].
  intros k1 (Hsv1 & Hc1 & Hs1). ustraight 5%nat. apply uwp_done. done.
Qed.
End pair.

(** ** The faulty program *)

Section faulty.
Context `{L : Layout} `{B : Blobs} `{ASM : Assembler}.

Definition ACTIVE : list N := as_bytes "[Task 6] Serial is active." ++ [NEWLINE].

(** While it holds the serial port, it prints its line and yields. *)
Lemma faulty_prints fuel code cur k regs zf :
  serving faulty_user_prog code cur 0 k -> sf_r8 regs < u64_limit ->
  uwp faulty_user_prog fuel (mkUser regs zf 0) k (fun u' k' => u_pc u' = 6%nat /\ sf_rax (u_regs u') = 1 /\
    serving faulty_user_prog code cur 0 k' /\ k_console k' = k_console k ++ ACTIVE /\ k_sched k' = k_sched k).
Proof.
  intros Hsv H8. destruct regs as [rax rbx rcx rdx rsi rdi rbp r8 r9 r10 r11 r12 r13 r14 r15]. cbn [sf_r8] in H8. ustraight 4%nat.
  eapply uwp_call; [done|eapply (prints _ faulty_user_prog _ _ _ k 31); try done|].
  intros k1 (Hsv1 & Hc1 & Hs1 & _). ustraight 1%nat. apply uwp_done. done.
Qed.

(** A write of memory outside the user half is refused. *)
Lemma kernel_pointer_refused fuel code k cur f :
  code_page code k -> k_sched_locked k = false -> s_current_task_id (k_sched k) = Some cur ->
  sf_rax f = 4 -> 2 ^ 47 <= sf_rsi f < u64_limit -> 0 < sf_rdx f < u64_limit -> sf_r8 f < u64_limit ->
  syscall_dispatch fuel f k = Ret (Done (set_sf_rax SYS_ERR f), k).
Proof.
  intros [[F Hinv] _] Hl Hc Hax Hsi Hdx H8.
  destruct (parse_request_spec k F Hinv f) as (req & Hp & Hd); [lia..|]. unfold decodes in Hd. rewrite Hax in Hd.
  destruct Hd as [bytes _ [|[Hhi _]] _|_]; [lia|lia|]. by rewrite (dispatch_decoded fuel f k cur _ Hl Hc Hp).
Qed.

(** A run that ends in a fault. *)
Lemma runs_fault prog fuel u k u1 k1 a :
  runs prog fuel u k u1 k1 -> ustep prog fuel u1 k1 = Ret (Done (PageFault a), k1) ->
  exists n, urun prog fuel n u k = Ret (Done (PageFault a), k1).
Proof.
  intros [n Hr] Hs. exists (n + 1)%nat. rewrite Hr. cbn [urun]. unfold rbind. by rewrite Hs.
Qed.

(** C9: A program without authority is stopped.  The faulty program, scheduled again
    after its serial capability was revoked, is refused its write, is refused the
    write of a kernel address, and ends in a page fault at the unmapped address it
    reads; until then the kernel has changed in nothing but its trace. *)
Theorem faulty_stopped fuel code cur k regs zf :
  loaded faulty_user_prog code k -> k_sched_locked k = false -> s_current_task_id (k_sched k) = Some cur ->
  holds_serial (k_sched k) 0 = false -> active_translate k 0x12345678 = None -> sf_r8 regs < u64_limit ->
  exists n a, traced (k_amb k) a /\
    urun faulty_user_prog fuel n (mkUser regs zf 7) k = Ret (Done (PageFault 0x12345678), set_k_amb a k).
Proof.
  intros Hl Hlk Hc Hno Htr H8. destruct regs as [rax rbx rcx rdx rsi rdi rbp r8 r9 r10 r11 r12 r13 r14 r15]. cbn [sf_r8] in H8.
  assert (uwp faulty_user_prog fuel (mkUser (mkSyscallFrame rax rbx rcx rdx rsi rdi rbp r8 r9 r10 r11 r12 r13 r14 r15) zf 7) k
    (fun u1 k1 => u_pc u1 = 24%nat /\ sf_rax (u_regs u1) = 0x12345678 /\ exists a, traced (k_amb k) a /\ k1 = set_k_amb a k)) as Hu.
  { pose proof (item_within _ _ _ 31 _ Hl eq_refl) as Hw. change (lenN (item_bytes faulty_user_prog 31)) with 27 in Hw.
    ustraight 4%nat.
    match goal with |- uwp _ _ (mkUser ?f _ _) _ _ =>
      destruct (serial_call fuel code k cur f (offset_of faulty_user_prog 31) 27) as (a & Ha & Hrun); try done; [apply Hl|split; [done|]; split; [lia|done]|] end.
    cbn [sf_rdi] in Hrun. rewrite Hno in Hrun.
    eapply uwp_call_at; [done|exact Hrun|]. ustraight 7%nat.
    eapply uwp_call_at; [done|apply (kernel_pointer_refused _ code _ cur); try done; destruct Hl as [[] _ _]; by split|].
    ustraight 4%nat. apply uwp_done. eauto. }
  destruct Hu as ([regs1 zf1 pc1] & k1 & Hr & Hpc & Hax & a & Ha & ->). cbn [u_pc u_regs] in Hpc, Hax. subst pc1.
  eapply runs_fault in Hr as [n Hn]; [by exists n, a|].
  unfold ustep. cbn [u_pc]. change (faulty_user_prog !! 24%nat) with (Some (Ins (MOV RBX (Mem RAX)))). cbn [exec get_reg u_regs]. rewrite Hax.
  unfold load64.
  assert (access_ok (k_mem (set_k_amb a k)) hhdm_offset (active_root (set_k_amb a k)) 0x12345678 false = false) as Hacc.
  { unfold access_ok. unfold active_translate in Htr. change (k_mem (set_k_amb a k)) with (k_mem k).
    change (active_root (set_k_amb a k)) with (active_root k). by rewrite Htr. }
  rewrite (rangeN_S 0x12345678 7). cbn [forallb]. by rewrite Hacc.
Qed.
End faulty.

(** ** The counting program *)

(** It never enters the kernel: only a timer interrupt takes the processor from it. *)
Lemma preempt_user_counts `{L : Layout} `{B : Blobs} `{ASM : Assembler} fuel n u k :
  (u_pc u < 4)%nat -> exists u', urun preempt_user_prog fuel n u k = Ret (Done (Next u'), k) /\ (u_pc u' < 4)%nat.
Proof.
  revert u. induction n as [|n IH]; intros [regs zf pc] Hpc; [by eexists|]. cbn [urun u_pc] in *. unfold rbind.
  assert (exists u', ustep preempt_user_prog fuel (mkUser regs zf pc) k = Ret (Done (Next u'), k) /\ (u_pc u' < 4)%nat) as (u' & -> & Hu).
  { destruct pc as [|[|[|[|]]]]; [..|lia]; eexists; (split; [reflexivity|cbn; lia]). }
  by apply IH.
Qed.

(** ** An example run *)

(** A queue with one message. *)
Definition one_queued (m : Message) : MessageQueue := mkMessageQueue (Some m :: replicate 7 None) 0 1 1.

Lemma entered_serving `{L : Layout} `{ASM : Assembler} h k id prog ct q code k2 c :
  entered h k id prog ct q code k2 -> cap_at ct 0 = Some c -> cap_resource c = Serial -> serving prog code id 0 k2.
Proof.
  intros He Hc Hs. destruct (en_task _ _ _ _ _ _ _ _ He) as (t & Ht & _ & Hct & _). pose proof (rn_sound _ _ _ (en_running _ _ _ _ _ _ _ _ He)) as Hk.
  split; [done|apply He|apply He|]. rewrite (holds_serial_slot _ id); [|apply Hk|apply He]. unfold cap_of. rewrite Ht, Hct, Hc.
  by apply bool_decide_eq_true.
Qed.

Lemma services_relay_witness :
  exists k code t, serving (L := example_layout) (ASM := example_assembler) logger_prog code 2 0 k /\ 
    mq_contents (t_msg_queue t) = [sensor_message 4] /\
    uwp (L := example_layout) (B := assembled (ASM := example_assembler)) (ASM := example_assembler) logger_prog 1
      (mkUser (mkSyscallFrame 0 0 0 0 0 0 0 0 0 0 0 0 0 0 0) false 0) k (fun u' k' => u_pc u' = O /\
      serving (L := example_layout) (ASM := example_assembler) logger_prog code 2 0 k' /\
      k_console k' = k_console k ++ concat (relay_line (as_bytes "[user-logger] received: ") <$> mq_contents (t_msg_queue t)) /\
      (exists q, mq_contents q = [] /\ task_slot (k_sched k') 2 = Some (set_t_msg_queue q t)) /\
      forall j, j <> 2 -> task_slot (k_sched k') j = task_slot (k_sched k) j).
Proof.
  destruct (example_entered 2 logger_prog init_table (one_queued (sensor_message 4))) as (t & k' & code & Hrun & He).
  1-2: reflexivity. 1: vm_compute; discriminate. 1: split; [reflexivity|reflexivity|vm_compute; discriminate|reflexivity|apply Forall_singleton; eexists; reflexivity].
  1: apply Forall_singleton; split; [reflexivity|vm_compute; discriminate].
  pose proof (entered_serving (L := example_layout) (ASM := example_assembler) _ _ _ _ _ _ _ _ init_serial He eq_refl eq_refl) as Hsv.
  destruct (en_task _ _ _ _ _ _ _ _ He) as (t1 & Ht1 & _ & _ & Hq & _). exists (enters (one_queued (sensor_message 4)) t k'), code, t1.
  split; [exact Hsv|]. split; [rewrite Hq; reflexivity|].
  apply (services_relay (L := example_layout) (B := assembled (ASM := example_assembler)) (ASM := example_assembler)); [|exact Hsv|exact Ht1|reflexivity].
  apply list_elem_of_here.
Defined.

Lemma faulty_stopped_witness :
  exists k n a, traced (k_amb k) a /\
    urun (L := example_layout) (B := assembled (ASM := example_assembler)) (ASM := example_assembler) faulty_user_prog 1 n
      (mkUser (mkSyscallFrame 0 0 0 0 0 0 0 0 0 0 0 0 0 0 0) false 7) k = Ret (Done (PageFault 0x12345678), set_k_amb a k).
Proof.
  destruct (example_entered 6 faulty_user_prog CapTable_new MessageQueue_new) as (t & k' & code & Hrun & He).
  1-2: reflexivity. 1: vm_compute; discriminate. 1: apply MessageQueue_new_wf. 1: apply Forall_nil_2.
  exists (enters MessageQueue_new t k'). pose proof (rn_sound _ _ _ (en_running _ _ _ _ _ _ _ _ He)) as Hk.
  apply (faulty_stopped (L := example_layout) (B := assembled (ASM := example_assembler)) (ASM := example_assembler) 1 code 6).
  1: apply He. 1: apply Hk. 1: apply He. 3: reflexivity.
  - destruct (en_task _ _ _ _ _ _ _ _ He) as (t1 & Ht1 & _ & Hct & _).
    rewrite (holds_serial_slot _ 6); [|apply Hk|apply He]. unfold cap_of. rewrite Ht1, Hct. reflexivity.
  - apply (en_unmapped _ _ _ _ _ _ _ _ He); [reflexivity|discriminate|discriminate].
Defined.
