(* ===== verification/Snapshot.v ===== *)
(** * Checkpoint and restore

    Models [kernel/process/snapshot.rs]: the checkpoint of every task's
    capability, message and state fields, its checksum, and the restore that
    verifies the checksum first.  The static [SYSTEM_SNAPSHOT] is an argument and
    a result of the operations.  The checksum is shown to be a hash of a list of
    words in which no single word can change unnoticed. *)

From S2P Require Import Prelude Ring Preempt Trace Capability AuditTrail Message Machine Frames.
From S2P Require Import Task Scheduler Kernel.
Local Open Scope N_scope.

Record TaskCheckpoint : Type := mkCheckpoint {
  cp_id : TaskId;
  cp_state : TaskState;
  cp_cap_table : CapTable;
  cp_ipc_buffer : option Message;
  cp_msg_queue : MessageQueue
}.

Record SystemSnapshot : Type := mkSnapshot {
  sn_tasks : list (option TaskCheckpoint);
  sn_current : option TaskId;
  sn_checksum : N;
  sn_valid : bool
}.

Definition SystemSnapshot_new : SystemSnapshot := mkSnapshot (replicate 132 None) None 0 false.

(** ** Checksum *)

Definition resource_code (r : Resource) : N :=
  let flags (readable writable : bool) := N.lxor (N.shiftl (N.b2n readable) 8) (N.shiftl (N.b2n writable) 9) in
  match r with
  | Serial => 1
  | IpcChannel target_task => N.lxor 0x1000 target_task
  | MemoryMapping start_vaddr size writeable =>
      N.lxor (N.lxor (N.lxor 0x2000 start_vaddr) (wrap64 (N.shiftl size 1))) (N.b2n writeable)
  | Service id => N.lxor 0x3000 id
  | KVEntry slot readable writable => N.lxor (N.lxor 0x4000 slot) (flags readable writable)
  | LogChannel kind readable writable => N.lxor (N.lxor 0x5000 kind) (flags readable writable)
  | FsNode mount readable writable => N.lxor (N.lxor 0x6000 mount) (flags readable writable)
  | Device id readable writable => N.lxor (N.lxor 0x7000 id) (flags readable writable)
  | SyncObj id => N.lxor 0x8000 id
  end.

Definition state_code (s : TaskState) : N :=
  match s with
  | Ready => 1
  | Running => 2
  | BlockedOnReceive => 3
  | BlockedOnSend t => N.lxor 0x100 t
  | Terminated => 5
  end.

Definition FNV_OFFSET : N := 0xcbf29ce484222325.
Definition FNV_PRIME : N := 0x00000100000001b3.
Definition mix (v h : N) : N := wmul64 (N.lxor h v) FNV_PRIME.

(** [o.map(|x| x + 1).unwrap_or(0)]. *)
Definition succ_or_zero (o : option N) : outcome N :=
  match o with Some x => add64 x 1 | None => Ret 0 end.

Definition rights_code (cap : Capability) : N :=
  N.lor (N.lor (N.lor (N.b2n (cap_read cap)) (N.shiftl (N.b2n (cap_write cap)) 1))
    (N.shiftl (N.b2n (cap_grant cap)) 2)) (N.shiftl (N.b2n (cap_sealed cap)) 3).

(** [cp.cap_table.get(i)], with its trace event. *)
Definition ktable_get (ct : CapTable) (i : N) : K (option Capability) :=
  fun k => let '(r, a) := CapTable_get ct i (k_amb k) in Ret (r, set_k_amb a k).

Definition checksum_cap (ct : CapTable) (cs h : N) : K N :=
  let* o := ktable_get ct cs in
  match o with
  | None => kret (mix 0 h)
  | Some cap =>
      let h := mix (resource_code (cap_resource cap)) h in
      let h := mix (rights_code cap) h in
      let h := mix (cap_id cap) h in
      let* origin := klift (succ_or_zero (cap_origin cap)) in
      kret (mix origin h)
  end.

Definition checksum_task (slot : option TaskCheckpoint) (h : N) : K N :=
  match slot with
  | None => kret (mix 0 h)
  | Some cp =>
      let h := mix 0xF00D h in
      let h := mix (cp_id cp) h in
      let h := mix (state_code (cp_state cp)) h in
      let* h := kfor (rangeN 0 32) (checksum_cap (cp_cap_table cp)) h in
      let* len := klift (succ_or_zero (msg_len <$> cp_ipc_buffer cp)) in
      let h := mix len h in
      kret (mix (mq_count (cp_msg_queue cp)) h)
  end.

Definition checksum (snap : SystemSnapshot) : K N :=
  let* cur := klift (succ_or_zero (sn_current snap)) in
  kfor (sn_tasks snap) checksum_task (mix cur FNV_OFFSET).

(** ** Capture and restore *)

Definition checkpoint_of (t : Task) : TaskCheckpoint :=
  mkCheckpoint (t_id t) (t_state t) (t_cap_table t) (t_ipc_buffer t) (t_msg_queue t).

Definition capture (snap : SystemSnapshot) : K SystemSnapshot :=
  do* lock_sched in
  let* current := kget (fun k => s_current_task_id (k_sched k)) in
  let* live := kget (fun k => s_tasks (k_sched k)) in
  let* tasks := klift (for_each (rangeN 0 132) (fun i ts =>
      let! o := arr_get live i in arr_set ts i (checkpoint_of <$> o)) (sn_tasks snap)) in
  do* unlock_sched in
  let snap := mkSnapshot tasks current (sn_checksum snap) (sn_valid snap) in
  let* c := checksum snap in
  kret (mkSnapshot (sn_tasks snap) (sn_current snap) c true).

(** The fields of a task that a restore overwrites. *)
Definition rolled_back (cp : TaskCheckpoint) (t : Task) : Task :=
  set_t_msg_queue (cp_msg_queue cp) (set_t_ipc_buffer (cp_ipc_buffer cp)
    (set_t_cap_table (cp_cap_table cp) (set_t_state (cp_state cp) t))).

Definition restore_task (snap : SystemSnapshot) (i restored : N) : K N :=
  let* o := klift (arr_get (sn_tasks snap) i) in
  match o with
  | None => kret restored
  | Some cp =>
      let* ot := kget_task (cp_id cp) in
      match ot with
      | None => kret restored
      | Some _ =>
          do* kupdate_task (cp_id cp) (rolled_back cp) in
          klift (add64 restored 1)
      end
  end.

Definition restore (snap : SystemSnapshot) : K (result unit N) :=
  if negb (sn_valid snap) then kret (Err tt)
  else
    let* c := checksum snap in
    if negb (c =? sn_checksum snap) then kret (Err tt)
    else
      do* lock_sched in
      let* restored := kfor (rangeN 0 132) (restore_task snap) 0 in
      do* unlock_sched in
      kret (Ok restored).

Definition info (snap : SystemSnapshot) : option N := if sn_valid snap then Some (sn_checksum snap) else None.

(** ** The demonstration *)

Definition fingerprint_slot (ct : CapTable) (cs : N) (acc : N * N) : K (N * N) :=
  let* o := ktable_get ct cs in
  match o with
  | None => kret acc
  | Some cap =>
      let* count := klift (add64 acc.1 1) in
      kret (count, wadd64 (wadd64 (wadd64 (wmul64 acc.2 31) (cap_id cap))
                     (wmul64 (default 0 (cap_origin cap)) 7)) (resource_code (cap_resource cap)))
  end.

Definition victim_fingerprint (victim : TaskId) : K (N * N) :=
  do* lock_sched in
  let* o := kget_task victim in
  let* r := match o with
            | Some t => kfor (rangeN 0 32) (fingerprint_slot (t_cap_table t)) (0, 0)
            | None => kret (0, 0)
            end in
  do* unlock_sched in
  kret r.

(** [(equivalent, deterministic)], or [None] if the restore was refused. *)
Definition snapshot_demo (victim : TaskId) (snap : SystemSnapshot) : K (option (bool * bool) * SystemSnapshot) :=
  let* snap := capture snap in
  let original := default 0 (info snap) in
  let* before := victim_fingerprint victim in
  do* lock_sched in
  do* kupdate_task victim (set_t_cap_table CapTable_new) in
  do* unlock_sched in
  let* _ := victim_fingerprint victim in
  let* r := restore snap in
  match r with
  | Err _ => kret (None, snap)
  | Ok _ =>
      let* after := victim_fingerprint victim in
      let* snap := capture snap in
      let recomputed := default 0 (info snap) in
      kret (Some (bool_decide (after = before), recomputed =? original), snap)
  end.

(** ** The checksum as a hash of words *)

(** Words that the hash is given for one capability slot, one task, and the
    whole snapshot. *)
Definition cap_words (o : option Capability) : list N :=
  match o with
  | None => [0]
  | Some cap => [resource_code (cap_resource cap); rights_code cap; cap_id cap;
                 match cap_origin cap with Some o => o + 1 | None => 0 end]
  end.

Definition task_words (slot : option TaskCheckpoint) : list N :=
  match slot with
  | None => [0]
  | Some cp =>
      [0xF00D; cp_id cp; state_code (cp_state cp)] ++
      mjoin ((fun cs => cap_words (cap_at (cp_cap_table cp) cs)) <$> rangeN 0 32) ++
      [match cp_ipc_buffer cp with Some m => msg_len m + 1 | None => 0 end; mq_count (cp_msg_queue cp)]
  end.

Definition snap_words (snap : SystemSnapshot) : list N :=
  match sn_current snap with Some t => t + 1 | None => 0 end :: mjoin (task_words <$> sn_tasks snap).

Definition hash (h : N) (ws : list N) : N := foldl (fun h v => mix v h) h ws.

(** The increments do not overflow. *)
Record snap_small (snap : SystemSnapshot) : Prop := {
  ss_current : forall t, sn_current snap = Some t -> t + 1 < u64_limit;
  ss_origin : forall cp cs c o, Some cp ∈ sn_tasks snap -> cap_at (cp_cap_table cp) cs = Some c ->
    cap_origin c = Some o -> o + 1 < u64_limit;
  ss_len : forall cp m, Some cp ∈ sn_tasks snap -> cp_ipc_buffer cp = Some m -> msg_len m + 1 < u64_limit
}.

(** The checksum only adds trace events. *)
Definition hashes {A} (m : K A) (v : A) (k : Kernel) : Prop :=
  exists a, traced (k_amb k) a /\ m k = Ret (v, set_k_amb a k).

Lemma hashes_wp {A} (m : K A) v k (Q : A -> Kernel -> Prop) :
  hashes m v k -> (forall a, traced (k_amb k) a -> Q v (set_k_amb a k)) -> wp m Q k.
Proof. intros (a & Ha & Hm) HQ. unfold wp. rewrite Hm. auto. Qed.

Lemma hashes_ret {A} (v : A) k : hashes (kret v) v k.
Proof. exists (k_amb k). split; [done|]. by destruct k. Qed.

Lemma hashes_bind {A B} (m : K A) (f : A -> K B) v w k :
  hashes m v k -> (forall k', hashes (f v) w k') -> hashes (kbind m f) w k.
Proof.
  intros (a & Ha & Hm) Hf. unfold kbind. destruct (Hf (set_k_amb a k)) as (a' & Ha' & Hr).
  exists a'. split; [by trans a|]. unfold hashes, kbind. rewrite Hm. cbn [obind]. by rewrite Hr.
Qed.

Lemma hashes_lift {A} (o : outcome A) v k : o = Ret v -> hashes (klift o) v k.
Proof. intros ->. apply hashes_ret. Qed.

Lemma hashes_get ct i k : hashes (ktable_get ct i) (cap_at ct i) k.
Proof.
  unfold hashes, ktable_get. destruct (CapTable_get_spec ct i (k_amb k)) as (a & -> & Ha). eauto.
Qed.

Lemma hashes_kfor {I} (l : list I) (body : I -> N -> K N) (words : I -> list N) h k :
  (forall i h k, i ∈ l -> hashes (body i h) (hash h (words i)) k) ->
  hashes (kfor l body h) (hash h (mjoin (words <$> l))) k.
Proof.
  revert h k. induction l as [|i l IH]; intros h k Hb; [apply hashes_ret|]. cbn [kfor fmap list_fmap mjoin list_join].
  unfold hash. rewrite foldl_app. eapply hashes_bind; [apply Hb; left|]. intros k'. apply IH.
  intros; apply Hb. by right.
Qed.

Lemma succ_or_zero_ok o : (forall x, o = Some x -> x + 1 < u64_limit) ->
  succ_or_zero o = Ret (match o with Some x => x + 1 | None => 0 end).
Proof. intros H. destruct o as [x|]; [|done]. apply add64_ok. auto. Qed.

Lemma checksum_cap_hashes ct cs h k :
  (forall c o, cap_at ct cs = Some c -> cap_origin c = Some o -> o + 1 < u64_limit) ->
  hashes (checksum_cap ct cs h) (hash h (cap_words (cap_at ct cs))) k.
Proof.
  intros Hs. unfold checksum_cap. eapply hashes_bind; [apply hashes_get|]. intros k'.
  destruct (cap_at ct cs) as [c|]; [|apply hashes_ret].
  eapply hashes_bind; [apply hashes_lift, succ_or_zero_ok; intros x; by apply Hs|]. intros k2. apply hashes_ret.
Qed.

Lemma checksum_task_hashes snap slot h k :
  snap_small snap -> slot ∈ sn_tasks snap -> hashes (checksum_task slot h) (hash h (task_words slot)) k.
Proof.
  intros [_ Ho Hl] Hin. destruct slot as [cp|]; [|apply hashes_ret]. unfold checksum_task, task_words, hash.
  rewrite !foldl_app. eapply hashes_bind.
  { apply (hashes_kfor _ _ (fun cs => cap_words (cap_at (cp_cap_table cp) cs))). intros cs h' k' _.
    apply checksum_cap_hashes. intros c o. by eapply Ho. }
  intros k2. eapply hashes_bind; [apply hashes_lift, succ_or_zero_ok|].
  { intros x (m & Hm & ->)%fmap_Some. by eapply Hl. }
  intros k3. destruct (cp_ipc_buffer cp); apply hashes_ret.
Qed.

Lemma checksum_hashes snap k : snap_small snap -> hashes (checksum snap) (hash FNV_OFFSET (snap_words snap)) k.
Proof.
  intros Hs. unfold checksum. eapply hashes_bind; [apply hashes_lift, succ_or_zero_ok, Hs|]. intros k'.
  apply hashes_kfor. intros slot h k2 Hin. by eapply checksum_task_hashes.
Qed.

(** ** Sensitivity of the hash *)

Definition FNV_INVERSE : N := 0xce965057aff6957b.

Lemma mix_inverse v h : h < u64_limit -> v < u64_limit -> wmul64 (mix v h) FNV_INVERSE = N.lxor h v.
Proof.
  intros Hh Hv. assert (N.lxor h v < u64_limit) as Hx.
  { destruct (decide (N.lxor h v = 0)) as [->|Hne]; [done|]. change u64_limit with (2 ^ 64).
    apply N.log2_lt_pow2; [lia|]. eapply N.le_lt_trans; [apply N.log2_lxor|].
    assert (forall x, x < u64_limit -> N.log2 x < 64) as Hlog.
    { intros x Hx. destruct (decide (x = 0)) as [->|Hx0]; [done|]. apply N.log2_lt_pow2; [lia|done]. }
    apply N.max_lub_lt; auto. }
  unfold mix, wmul64, wrap64. rewrite N.Div0.mul_mod_idemp_l, <- N.mul_assoc.
  set (c := FNV_PRIME * FNV_INVERSE / u64_limit).
  assert (FNV_PRIME * FNV_INVERSE = 1 + c * u64_limit) as -> by done. clearbody c.
  replace (N.lxor h v * (1 + c * u64_limit)) with (N.lxor h v + N.lxor h v * c * u64_limit) by ring.
  rewrite N.Div0.mod_add. by apply N.mod_small.
Qed.

Lemma mix_lt v h : mix v h < u64_limit.
Proof. apply wrap64_lt. Qed.

Lemma hash_lt ws h : h < u64_limit -> hash h ws < u64_limit.
Proof. revert h. induction ws as [|w ws IH]; intros h Hh; [done|]. apply IH, mix_lt. Qed.

Lemma mix_inj_state v h h' : h < u64_limit -> h' < u64_limit -> v < u64_limit -> mix v h = mix v h' -> h = h'.
Proof.
  intros Hh Hh' Hv He. apply (f_equal (fun x => N.lxor (wmul64 x FNV_INVERSE) v)) in He.
  rewrite !mix_inverse, !N.lxor_assoc, !N.lxor_nilpotent, !N.lxor_0_r in He by done. done.
Qed.

Lemma mix_inj_word v v' h : h < u64_limit -> v < u64_limit -> v' < u64_limit -> mix v h = mix v' h -> v = v'.
Proof.
  intros Hh Hv Hv' He. apply (f_equal (fun x => N.lxor h (wmul64 x FNV_INVERSE))) in He.
  rewrite !mix_inverse, <- !N.lxor_assoc, !N.lxor_nilpotent, !N.lxor_0_l in He by done. done.
Qed.

Lemma hash_inj ws h h' :
  Forall (fun w => w < u64_limit) ws -> h < u64_limit -> h' < u64_limit -> hash h ws = hash h' ws -> h = h'.
Proof.
  intros Hws. revert h h'. induction Hws as [|w ws Hw Hws IH]; intros h h' Hh Hh' He; [done|].
  apply (mix_inj_state w); try done. apply IH; [apply mix_lt..|done].
Qed.

(** Changing one word changes the hash. *)
Lemma hash_one_word ws1 w w' ws2 h :
  Forall (fun x => x < u64_limit) (w :: w' :: ws2) -> h < u64_limit ->
  hash h (ws1 ++ w :: ws2) = hash h (ws1 ++ w' :: ws2) -> w = w'.
Proof.
  intros [Hw [Hw' H2]%Forall_cons]%Forall_cons Hh. unfold hash. rewrite !foldl_app. cbn [foldl]. intros He.
  apply (mix_inj_word w w' (hash h ws1)); [by apply hash_lt|done|done|].
  apply (hash_inj ws2); [done|apply mix_lt..|done].
Qed.

(** ** Capture *)

(** The checkpoint of a task table. *)
Definition checkpoint_list (l : list (option Task)) : list (option TaskCheckpoint) :=
  (fun o : option Task => checkpoint_of <$> o) <$> l.

Lemma capture_loop live ts :
  lenN live = 132 -> lenN ts = 132 ->
  for_each (rangeN 0 132) (fun i ts => let! o := arr_get live i in arr_set ts i (checkpoint_of <$> o)) ts =
    Ret (checkpoint_list live).
Proof.
  intros Hlive Hts.
  destruct (for_each_inv (fun pre (s : list (option TaskCheckpoint)) => lenN s = 132 /\
      forall i, i < 132 -> idx s i = if decide (i ∈ pre) then idx (checkpoint_list live) i else idx ts i)
    (fun i ts => let! o := arr_get live i in arr_set ts i (checkpoint_of <$> o)) (rangeN 0 132) ts)
    as (s & -> & Hlen & Hs).
  - intros pre i post s Hsplit [Hlen Hs]. assert (i < 132) as Hi.
    { assert (i ∈ rangeN 0 132) as Hin by (rewrite Hsplit; set_solver). apply elem_of_rangeN in Hin. lia. }
    destruct (idx_is_Some live i ltac:(lia)) as [o Ho]. rewrite (proj2 (arr_get_Ret _ _ _) Ho). cbn [obind].
    rewrite arr_set_ok by lia. eexists. split; [done|]. rewrite lenN_upd. split; [done|]. intros j Hj.
    rewrite idx_upd. destruct (decide (i = j)) as [<-|Hij].
    + rewrite !decide_True by (set_solver || lia). rewrite idx_lookup; rewrite idx_lookup in Ho. unfold checkpoint_list. by rewrite list_lookup_fmap, Ho.
    + rewrite decide_False by tauto. rewrite Hs by done. apply decide_ext. set_solver.
  - split; [done|]. intros i Hi. by rewrite decide_False by set_solver.
  - f_equal. apply list_eq_idx; [unfold checkpoint_list; by rewrite Hlen, <- Hlive; unfold lenN; rewrite length_fmap|].
    intros i Hi. rewrite Hlen in Hi. rewrite Hs by done. rewrite decide_True; [done|]. apply elem_of_rangeN. lia.
Qed.

(** The snapshot of a scheduler. *)
Definition snapshot_of (s : Scheduler) (c : N) : SystemSnapshot :=
  mkSnapshot (checkpoint_list (s_tasks s)) (s_current_task_id s) c true.

(** Identities and lengths below 2^64, as the field types have it. *)
Record sched_small (s : Scheduler) : Prop := {
  sm_current : forall t, s_current_task_id s = Some t -> t + 1 < u64_limit;
  sm_origin : forall i cs c o, cap_of s i cs = Some c -> cap_origin c = Some o -> o + 1 < u64_limit;
  sm_len : forall i t m, task_slot s i = Some t -> t_ipc_buffer t = Some m -> msg_len m + 1 < u64_limit
}.

Lemma checkpoint_elem s cp : Some cp ∈ checkpoint_list (s_tasks s) -> exists i t, task_slot s i = Some t /\ cp = checkpoint_of t.
Proof.
  intros (o & He & Hin)%list_elem_of_fmap. destruct o as [t|]; [|done]. injection He as ->.
  apply elem_of_idx in Hin as [i Hi]. exists i, t. unfold task_slot. by rewrite Hi.
Qed.

Lemma snapshot_small s c : sched_small s -> snap_small (snapshot_of s c).
Proof.
  intros [Hc Ho Hl]. split; [done|..].
  - intros cp cs cap o (i & t & Ht & ->)%checkpoint_elem Hcap. apply (Ho i cs cap o). unfold cap_of. by rewrite Ht.
  - intros cp m (i & t & Ht & ->)%checkpoint_elem Hm. by apply (Hl i t m).
Qed.

Lemma capture_spec snap k :
  kernel_wf k -> sched_small (k_sched k) -> lenN (sn_tasks snap) = 132 ->
  hashes (capture snap) (snapshot_of (k_sched k) (hash FNV_OFFSET (snap_words (snapshot_of (k_sched k) 0)))) k.
Proof.
  intros [Hs Hl _] Hsm Hsn. destruct (checksum_hashes (snapshot_of (k_sched k) 0) k (snapshot_small _ _ Hsm)) as (a & Ha & Hr).
  exists a. split; [done|]. unfold capture, kbind at 1, lock_sched. rewrite Hl. cbn [obind].
  unfold kbind, kget, klift. cbn [obind]. rewrite capture_loop by (done || apply Hs). cbn [obind unlock_sched kmod].
  replace (set_k_sched_locked false (set_k_sched_locked true k)) with k by (by destruct k as [? [] ?]).
  change (checksum (snapshot_of (k_sched k) 0)) with
    (checksum (mkSnapshot (checkpoint_list (s_tasks (k_sched k))) (s_current_task_id (k_sched k)) (sn_checksum snap) (sn_valid snap))) in Hr.
  ksimp. by rewrite Hr.
Qed.

(** ** Restore *)

(** The checkpoint for slot [i]. *)
Definition cp_at (snap : SystemSnapshot) (i : N) : option TaskCheckpoint := mjoin (idx (sn_tasks snap) i).

(** What a restore does to slot [i] of a scheduler. *)
Definition restored_slot (snap : SystemSnapshot) (s : Scheduler) (i : N) : option Task :=
  match cp_at snap i with Some cp => rolled_back cp <$> task_slot s i | None => task_slot s i end.

Definition restorable (snap : SystemSnapshot) (s : Scheduler) (i : N) : bool :=
  is_some (cp_at snap i) && is_some (task_slot s i).

(** A well-formed snapshot: every checkpoint sits in its own slot and holds
    tables and queues of the right shape. *)
Record snap_wf (snap : SystemSnapshot) : Prop := {
  sn_wf_len : lenN (sn_tasks snap) = 132;
  sn_wf_id : forall i cp, cp_at snap i = Some cp -> cp_id cp = i;
  sn_wf_task : forall i cp, cp_at snap i = Some cp -> CapTable_wf (cp_cap_table cp) /\ mq_wf (cp_msg_queue cp)
}.

Section restoring.
Context (snap : SystemSnapshot) (k : Kernel) (Hsnap : snap_wf snap) (Hs : sched_wf (k_sched k)).

Record restoring (pre : list N) (n : N) (k' : Kernel) : Prop := {
  rs_state : k' = set_k_sched (k_sched k') k;
  rs_wf : sched_wf (k_sched k');
  rs_current : s_current_task_id (k_sched k') = s_current_task_id (k_sched k);
  rs_slot : forall i, task_slot (k_sched k') i =
    if decide (i ∈ pre) then restored_slot snap (k_sched k) i else task_slot (k_sched k) i;
  rs_count : n = lenN (List.filter (restorable snap (k_sched k)) pre)
}.

Lemma restore_task_step pre i n k' :
  i < 132 -> i ∉ pre -> lenN pre < 132 -> restoring pre n k' ->
  wp (restore_task snap i n) (fun n' k2 => restoring (pre ++ [i]) n' k2) k'.
Proof.
  intros Hi Hni Hlen Hr. unfold restore_task. destruct (idx_is_Some (sn_tasks snap) i) as [o Ho]; [by rewrite (sn_wf_len _ Hsnap)|].
  apply wp_kbind. eapply wp_klift; [by apply arr_get_Ret|].
  assert (cp_at snap i = o) as Hcp by (unfold cp_at; by rewrite Ho).
  pose proof (rs_slot _ _ _ Hr i) as Hslot. rewrite decide_False in Hslot by done.
  assert (forall b, restorable snap (k_sched k) i = b ->
    lenN (List.filter (restorable snap (k_sched k)) (pre ++ [i])) = n + (if b then 1 else 0)) as Hcount.
  { intros b Hb. rewrite (rs_count _ _ _ Hr), List.filter_app, lenN_app. cbn [List.filter]. rewrite Hb. by destruct b. }
  assert (forall j, j ∈ pre ++ [i] -> j <> i -> j ∈ pre) as Hin by set_solver.
  assert (restorable snap (k_sched k) i = false -> restoring (pre ++ [i]) n k') as Hskip.
  { intros Hb. destruct Hr as [Hst Hwf Hc Hsl Hn]. split; [done..| |]; [|by rewrite (Hcount false Hb), N.add_0_r].
    intros j. rewrite Hsl. destruct (decide (j = i)) as [->|Hji].
    - rewrite decide_False, decide_True by set_solver. unfold restorable, restored_slot in *.
      destruct (cp_at snap i), (task_slot (k_sched k) i); done.
    - apply decide_ext. set_solver. }
  unfold restorable in Hskip. rewrite Hcp in Hskip. destruct o as [cp|]; [|apply wp_kret, Hskip; done].
  rewrite (sn_wf_id _ Hsnap i cp Hcp). apply wp_kbind, wp_kget. rewrite (get_task_wf _ _ (rs_wf _ _ _ Hr)), Hslot.
  destruct (task_slot (k_sched k) i) as [t|] eqn:Ht; [|apply wp_kret, Hskip; done].
  assert (restorable snap (k_sched k) i = true) as Hb by (unfold restorable; by rewrite Hcp, Ht).
  apply wp_kbind, wp_kmod. assert (n + 1 < u64_limit) as Hn1.
  { rewrite (rs_count _ _ _ Hr). assert (lenN (List.filter (restorable snap (k_sched k)) pre) <= lenN pre) as Hle.
    { unfold lenN. pose proof (List.filter_length_le (restorable snap (k_sched k)) pre). lia. }
    unfold u64_limit. lia. }
  eapply wp_klift; [by apply add64_ok|]. destruct Hr as [Hst Hwf Hc Hsl Hn]. split.
  - rewrite Hst. by destruct k.
  - apply get_task_mut_wf; [done|]. intros t0 [Hct Hq]. split; [done|]. by destruct (sn_wf_task _ Hsnap i cp Hcp); split.
  - ksimp. by rewrite get_task_mut_current.
  - intros j. ksimp. rewrite get_task_mut_slot, Hsl by done. destruct (decide (i = j)) as [<-|Hij].
    + rewrite decide_False, decide_True by set_solver. unfold restored_slot. by rewrite Hcp.
    + apply decide_ext. set_solver.
  - by rewrite (Hcount true Hb).
Qed.
End restoring.

(** [k'] is [k] with every task that has a checkpoint rolled back to it. *)
Record restored_from (snap : SystemSnapshot) (k : Kernel) (n : N) (k' : Kernel) : Prop := {
  rf_state : k' = set_k_amb (k_amb k') (set_k_sched (k_sched k') k);
  rf_wf : sched_wf (k_sched k');
  rf_current : s_current_task_id (k_sched k') = s_current_task_id (k_sched k);
  rf_slot : forall i, task_slot (k_sched k') i = restored_slot snap (k_sched k) i;
  rf_count : n = lenN (List.filter (restorable snap (k_sched k)) (rangeN 0 132))
}.

Lemma rangeN_nodup a n pre i post : rangeN a n = pre ++ i :: post -> (i ∉ pre) /\ lenN pre < N.of_nat n.
Proof.
  intros Hl. assert (NoDup (rangeN a n)) as Hnd.
  { unfold rangeN. apply NoDup_fmap_2; [intros x y; lia|apply NoDup_seq]. }
  assert (length (rangeN a n) = n) as Hlen by (unfold rangeN; by rewrite length_fmap, length_seq).
  rewrite Hl in Hnd, Hlen. apply NoDup_app in Hnd as (_ & Hd & _). rewrite length_app in Hlen. simpl in Hlen.
  split; [intros Hin; apply (Hd i Hin); left|unfold lenN; lia].
Qed.

Lemma restore_spec snap k :
  kernel_wf k -> snap_wf snap -> snap_small snap -> sn_valid snap = true ->
  wp (restore snap) (fun r k' =>
    if sn_checksum snap =? hash FNV_OFFSET (snap_words snap)
    then exists n, r = Ok n /\ restored_from snap k n k'
    else r = Err tt /\ exists a, traced (k_amb k) a /\ k' = set_k_amb a k) k.
Proof.
  intros [Hs Hl _] Hsn Hsm Hv. unfold restore. rewrite Hv. cbn [negb]. apply wp_kbind.
  eapply hashes_wp; [by apply checksum_hashes|]. intros a Ha. rewrite (N.eqb_sym (hash _ _)).
  destruct (N.eqb_spec (sn_checksum snap) (hash FNV_OFFSET (snap_words snap))) as [He|Hne]; cbn [negb].
  2: { apply wp_kret. eauto. }
  apply wp_kbind, wp_lock_sched; [done|]. apply wp_kbind.
  set (k1 := set_k_sched_locked true (set_k_amb a k)).
  apply (wp_kfor (fun pre n k' => restoring snap k1 pre n k')).
  - split; [by destruct k|done|done| |done]. intros i. by rewrite decide_False by set_solver.
  - intros pre i post n k' Hsplit Hr. destruct (rangeN_nodup _ _ _ _ _ Hsplit) as [Hni Hlen].
    apply restore_task_step; try done. assert (i ∈ rangeN 0 132) as Hin by (rewrite Hsplit; set_solver).
    apply elem_of_rangeN in Hin. lia.
  - intros n k' [Hst Hwf Hc Hsl Hn]. apply wp_kbind, wp_unlock_sched, wp_kret. exists n. split; [done|].
    split; [|done|done| |done].
    + rewrite Hst. unfold k1. destruct k as [? [] ?]; by try done.
    + intros i. ksimp. rewrite Hsl. case_decide as Hin; [done|]. unfold restored_slot, cp_at.
      destruct (idx (sn_tasks snap) i) eqn:Hi; [|done]. apply idx_lt in Hi. rewrite (sn_wf_len _ Hsn) in Hi.
      destruct Hin. apply elem_of_rangeN. lia.
Qed.

(** The snapshot of a well-formed scheduler. *)
Lemma cp_at_snapshot s c i : cp_at (snapshot_of s c) i = checkpoint_of <$> task_slot s i.
Proof.
  unfold cp_at, task_slot, snapshot_of, checkpoint_list. cbn [sn_tasks]. rewrite !idx_lookup, list_lookup_fmap.
  by destruct (s_tasks s !! _).
Qed.

Lemma snapshot_of_wf s c : sched_wf s -> snap_wf (snapshot_of s c).
Proof.
  intros Hs. split.
  - unfold snapshot_of, checkpoint_list, lenN. cbn [sn_tasks]. rewrite length_fmap. apply (sched_wf_len _ Hs).
  - intros i cp. rewrite cp_at_snapshot. intros (t & Ht & ->)%fmap_Some. by apply (sched_wf_id _ Hs).
  - intros i cp. rewrite cp_at_snapshot. intros (t & Ht & ->)%fmap_Some. destruct (sched_wf_task _ Hs i t Ht). auto.
Qed.

(** ** Main results *)

(** C29: Checkpoint and restore round-trip.  Capturing a well-formed system returns
    a snapshot and changes nothing but the trace ring.  Restoring that snapshot
    into any well-formed system succeeds: every task present both times gets back
    the state, capabilities and messages it had at the capture and keeps its
    execution context, every other task and the current-task field stay as they
    are, and the count of restored tasks is exact. *)
Theorem snapshot_round_trip snap k :
  kernel_wf k -> sched_small (k_sched k) -> lenN (sn_tasks snap) = 132 ->
  exists s a, capture snap k = Ret (s, set_k_amb a k) /\ traced (k_amb k) a /\
    forall k2, kernel_wf k2 ->
      exists n k3, restore s k2 = Ret (Ok n, k3) /\
        k3 = set_k_amb (k_amb k3) (set_k_sched (k_sched k3) k2) /\
        s_current_task_id (k_sched k3) = s_current_task_id (k_sched k2) /\
        n = lenN (List.filter (fun i => is_some (task_slot (k_sched k) i) && is_some (task_slot (k_sched k2) i)) (rangeN 0 132)) /\
        forall i, task_slot (k_sched k3) i =
          match task_slot (k_sched k) i, task_slot (k_sched k2) i with
          | Some t, Some t2 =>
              Some (mkTask (t_id t2) (t_state t) (t_rsp t2) (t_kstack_top t2) (t_cr3 t2) (t_cap_table t)
                      (t_ipc_buffer t) (t_msg_queue t) (t_fault_registers t2))
          | _, o => o
          end.
Proof.
  intros Hwf Hsm Hlen. destruct (capture_spec snap k Hwf Hsm Hlen) as (a & Ha & Hc).
  set (c := hash FNV_OFFSET (snap_words (snapshot_of (k_sched k) 0))) in *.
  exists (snapshot_of (k_sched k) c), a. split; [done|]. split; [done|]. intros k2 Hwf2.
  destruct (proj1 (wp_run _ _ _) (restore_spec (snapshot_of (k_sched k) c) k2 Hwf2 (snapshot_of_wf _ _ (kw_sched _ Hwf))
    (snapshot_small _ _ Hsm) eq_refl)) as (r & k3 & Hr & Hpost).
  change (sn_checksum _ =? _) with (c =? c) in Hpost. rewrite N.eqb_refl in Hpost. destruct Hpost as (n & -> & [Hst _ Hcur Hsl Hn]).
  exists n, k3. split; [done|]. split; [done|]. split; [done|]. split.
  - rewrite Hn. f_equal. apply List.filter_ext. intros i. unfold restorable. rewrite cp_at_snapshot.
    by destruct (task_slot (k_sched k) i).
  - intros i. rewrite Hsl. unfold restored_slot. rewrite cp_at_snapshot.
    by destruct (task_slot (k_sched k) i), (task_slot (k_sched k2) i).
Qed.


(** ** Examples *)

(** A decision procedure for [sched_small]. *)
Definition cap_smallb (o : option Capability) : bool :=
  match o with Some c => match cap_origin c with Some o => o + 1 <? u64_limit | None => true end | None => true end.
Definition task_smallb (o : option Task) : bool :=
  match o with
  | Some t => forallb cap_smallb (slots (t_cap_table t)) &&
      match t_ipc_buffer t with Some m => msg_len m + 1 <? u64_limit | None => true end
  | None => true
  end.
Definition sched_smallb (s : Scheduler) : bool :=
  match s_current_task_id s with Some t => t + 1 <? u64_limit | None => true end && forallb task_smallb (s_tasks s).

Lemma sched_smallb_sound s : sched_smallb s = true -> sched_small s.
Proof.
  unfold sched_smallb. intros [Hc Ht]%andb_true_iff.
  assert (forall i t, task_slot s i = Some t -> task_smallb (Some t) = true) as Hslot.
  { intros i t Hi. unfold task_slot in Hi. destruct (idx (s_tasks s) i) as [[t'|]|] eqn:He; simplify_eq/=.
    apply idx_elem_of, list_elem_of_In in He. rewrite forallb_forall in Ht. exact (Ht _ He). }
  split.
  - intros t Hcur. rewrite Hcur in Hc. by apply N.ltb_lt.
  - intros i cs c o. unfold cap_of. destruct (task_slot s i) as [t|] eqn:Hi; [|done]. intros [_ Hcap]%cap_at_Some Ho.
    apply Hslot in Hi. cbn [task_smallb] in Hi. apply andb_true_iff in Hi as [Hcaps _]. rewrite forallb_forall in Hcaps.
    apply idx_elem_of, list_elem_of_In in Hcap. specialize (Hcaps _ Hcap). cbn [cap_smallb] in Hcaps. rewrite Ho in Hcaps. by apply N.ltb_lt.
  - intros i t m Hi Hm. apply Hslot in Hi. cbn [task_smallb] in Hi. rewrite Hm in Hi. apply andb_true_iff in Hi as [_ Hi]. by apply N.ltb_lt.
Qed.

(** Two tasks, the first running with a derived serial capability. *)
Definition example_tasks (st1 st2 : TaskState) (cur : N) : Kernel :=
  set_current cur (add_task (example_task 1 st1 [mkCap Serial true true false false 5 (Some 3)])
    (add_task (example_task 2 st2 []) Kernel_init)).

Lemma example_tasks_wf st1 st2 cur : kernel_wf (example_tasks st1 st2 cur).
Proof. apply set_current_wf. repeat (apply add_task_wf; [apply example_task_wf; simpl; lia|]). apply Kernel_init_wf. Qed.

Lemma snapshot_round_trip_witness :
  exists s a, capture SystemSnapshot_new (example_tasks Running Ready 1) = Ret (s, set_k_amb a (example_tasks Running Ready 1)) /\
    traced (k_amb (example_tasks Running Ready 1)) a /\
    forall k2, kernel_wf k2 -> exists n k3, restore s k2 = Ret (Ok n, k3) /\
      s_current_task_id (k_sched k3) = s_current_task_id (k_sched k2).
Proof.
  destruct (snapshot_round_trip SystemSnapshot_new (example_tasks Running Ready 1)) as (s & a & Hc & Ha & Hr).
  - apply example_tasks_wf.
  - apply sched_smallb_sound. vm_compute. reflexivity.
  - reflexivity.
  - exists s, a. split; [exact Hc|]. split; [exact Ha|]. intros k2 Hk2. destruct (Hr k2 Hk2) as (n & k3 & H1 & _ & H2 & _).
    exists n, k3. split; [exact H1|exact H2].
Defined.

(** The snapshot of that system, and the same with the identity of the serial
    capability changed. *)
Definition example_snapshot : SystemSnapshot :=
  let s := snapshot_of (k_sched (example_tasks Running Ready 1)) 0 in
  mkSnapshot (sn_tasks s) (sn_current s) (hash FNV_OFFSET (snap_words s)) true.
Definition example_forged : SystemSnapshot :=
  let s := snapshot_of (k_sched (set_current 1 (add_task (example_task 1 Running [mkCap Serial true true false false 6 (Some 3)])
    (add_task (example_task 2 Ready []) Kernel_init)))) 0 in
  mkSnapshot (sn_tasks s) (sn_current s) (sn_checksum example_snapshot) true.

Lemma example_forged_sched :
  kernel_wf (set_current 1 (add_task (example_task 1 Running [mkCap Serial true true false false 6 (Some 3)])
    (add_task (example_task 2 Ready []) Kernel_init))).
Proof. apply set_current_wf. repeat (apply add_task_wf; [apply example_task_wf; simpl; lia|]). apply Kernel_init_wf. Qed.


(** A restore in a system where another task runs: the task that ran at the
    capture is marked running again, the one that runs is marked ready, and the
    current-task field still names the latter. *)
Definition restored_states (snap : SystemSnapshot) (k : Kernel) : option (option TaskId * option TaskState * option TaskState) :=
  match restore snap k with
  | Ret (Ok _, k) =>
      Some (s_current_task_id (k_sched k), t_state <$> task_slot (k_sched k) 1, t_state <$> task_slot (k_sched k) 2)
  | _ => None
  end.

Lemma restore_stale_current :
  restored_states example_snapshot (example_tasks Ready Running 2) = Some (Some 2, Some Running, Some Ready).
Proof. vm_compute. reflexivity. Qed.

(** The code of a resource does not determine it. *)
Lemma resource_code_collides : resource_code Serial = resource_code (IpcChannel 0x1001).
Proof. reflexivity. Qed.
