(* ===== verification/Dist.v ===== *)
(** * Distribution substrate

    Models [kernel/process/dist.rs]: the registry that routes a service identity
    to a location, the simulated remote node, transparent sends, migration of a
    service's checkpoint and failover to a replica.  The statics [REGISTRY] and
    [REMOTE] are the record [Dist], passed explicitly. *)

From S2P Require Import Prelude Ring Preempt Trace Capability AuditTrail Message Machine Frames.
From S2P Require Import Task Scheduler Kernel Snapshot.
Local Open Scope N_scope.

Abbreviation NodeId := N.
Abbreviation ServiceId := N.
Definition LOCAL_NODE : NodeId := 0.

Inductive Location : Type :=
| Local (task : TaskId)
| Remote (node : NodeId).

Definition MAX_SERVICES : N := 16.

Record ServiceRegistry : Type := mkRegistry { entries : list (option (ServiceId * Location)) }.
Definition ServiceRegistry_new : ServiceRegistry := mkRegistry (replicate 16 None).

(** The entry that names [svc]. *)
Definition names {A} (svc : ServiceId) (e : option (ServiceId * A)) : bool :=
  match e with Some (s, _) => s =? svc | None => false end.

(** [iter().flatten().find(|(s, _)| *s == svc).map(|(_, x)| *x)]. *)
Definition find_service {A} (l : list (option (ServiceId * A))) (svc : ServiceId) : option A :=
  match find_first (names svc) l with Some (Some (_, x)) => Some x | _ => None end.

Definition resolve (self : ServiceRegistry) (svc : ServiceId) : option Location := find_service (entries self) svc.

(** [for e in l.iter_mut() { if e.is_none() { *e = Some(x); return; } }]. *)
Fixpoint put_first_free {A} (l : list (option A)) (x : A) : list (option A) :=
  match l with
  | [] => []
  | None :: l' => Some x :: l'
  | e :: l' => e :: put_first_free l' x
  end.

(** The first loop of [set]: the entry of [svc] gets [loc], if there is one. *)
Fixpoint set_existing {A} (l : list (option (ServiceId * A))) (svc : ServiceId) (loc : A)
  : option (list (option (ServiceId * A))) :=
  match l with
  | [] => None
  | e :: l' =>
      if names svc e then Some (Some (svc, loc) :: l')
      else match set_existing l' svc loc with Some l2 => Some (e :: l2) | None => None end
  end.

Definition registry_set (self : ServiceRegistry) (svc : ServiceId) (loc : Location) : ServiceRegistry :=
  mkRegistry
    match set_existing (entries self) svc loc with
    | Some l => l
    | None => put_first_free (entries self) (svc, loc)
    end.

Record RemoteNode : Type := mkRemote {
  rn_id : NodeId;
  rn_inbox : MessageQueue;
  rn_services : list (option (ServiceId * TaskCheckpoint));
  rn_delivered : N
}.
Definition RemoteNode_new (id : NodeId) : RemoteNode := mkRemote id MessageQueue_new (replicate 16 None) 0.

Definition host (self : RemoteNode) (svc : ServiceId) (cp : TaskCheckpoint) : RemoteNode :=
  mkRemote (rn_id self) (rn_inbox self) (put_first_free (rn_services self) (svc, cp)) (rn_delivered self).

Definition count_caps (t : CapTable) : N := lenN (List.filter is_some (slots t)).

Definition caps_of (self : RemoteNode) (svc : ServiceId) : option N :=
  (fun cp => count_caps (cp_cap_table cp)) <$> find_service (rn_services self) svc.

(** [REGISTRY] and [REMOTE]. *)
Record Dist : Type := mkDist { registry : ServiceRegistry; remote : RemoteNode }.
Definition Dist_init : Dist := mkDist ServiceRegistry_new (RemoteNode_new 1).

Inductive Routed : Type :=
| RoutedLocal (task : TaskId)
| RoutedRemote (node : NodeId)
| RoutedUnknown.

Definition register (svc : ServiceId) (loc : Location) (d : Dist) : Dist :=
  mkDist (registry_set (registry d) svc loc) (remote d).

Definition transport_send (node : NodeId) (msg : Message) (d : Dist) : outcome Dist :=
  if rn_id (remote d) =? node then
    let! (_, inbox) := MessageQueue_enqueue (rn_inbox (remote d)) msg in
    Ret (mkDist (registry d) (mkRemote (rn_id (remote d)) inbox (rn_services (remote d)) (rn_delivered (remote d))))
  else Ret d.

(** [scheduler::current_task_id()]. *)
Definition current_task_id : K (option TaskId) :=
  do* lock_sched in
  let* o := kget (fun k => s_current_task_id (k_sched k)) in
  do* unlock_sched in
  kret o.

(** The message built for a routed send: at most 128 bytes of the payload. *)
Definition routed_message (sender : TaskId) (payload : list N) : outcome Message :=
  let n := N.min (lenN payload) 128 in
  let! src := slice payload 0 n in
  let! msg_payload := copy_at (replicate 128 0) 0 src in
  Ret (mkMessage sender Raw 1 msg_payload n).

Definition route_send (cap : Capability) (payload : list N) (d : Dist) : K (Routed * Dist) :=
  match cap_resource cap with
  | Service svc =>
      match resolve (registry d) svc with
      | None => kret (RoutedUnknown, d)
      | Some loc =>
          let* sender := current_task_id in
          let* msg := klift (routed_message (default usize_max sender) payload) in
          match loc with
          | Local tid =>
              do* lock_sched in
              let* o := kget_task tid in
              do* (match o with
                   | Some t =>
                       let* (_, q) := klift (MessageQueue_enqueue (t_msg_queue t) msg) in
                       kupdate_task tid (set_t_msg_queue q)
                   | None => kret tt
                   end) in
              do* unlock_sched in
              kret (RoutedLocal tid, d)
          | Remote node =>
              let* d' := klift (transport_send node msg d) in
              kret (RoutedRemote node, d')
          end
      end
  | _ => kret (RoutedUnknown, d)
  end.

Definition migrate (svc : ServiceId) (dest : NodeId) (d : Dist) : K (result unit N * Dist) :=
  match resolve (registry d) svc with
  | Some (Local local_tid) =>
      do* lock_sched in
      let* o := kget_task local_tid in
      do* unlock_sched in
      match o with
      | None => kret (Err tt, d)
      | Some t =>
          let checkpoint := checkpoint_of t in
          let caps := count_caps (cp_cap_table checkpoint) in
          let d1 := mkDist (registry d) (host (remote d) svc checkpoint) in
          let d2 := mkDist (registry_set (registry d1) svc (Remote dest)) (remote d1) in
          do* lock_sched in
          do* (if local_tid <? MAX_TASKS then kmod (on_sched (put_slot local_tid None)) else klift Panic) in
          do* unlock_sched in
          kret (Ok caps, d2)
      end
  | _ => kret (Err tt, d)
  end.

(** [while let Some(msg) = inbox.dequeue()]; one unit of fuel per message. *)
Fixpoint pump_loop (fuel : nat) (r : RemoteNode) (count : N) : outcome (N * RemoteNode) :=
  match fuel with
  | O => OutOfFuel
  | S fuel' =>
      let! (o, inbox) := MessageQueue_dequeue (rn_inbox r) in
      match o with
      | None => Ret (count, mkRemote (rn_id r) inbox (rn_services r) (rn_delivered r))
      | Some msg =>
          let! _ := slice (msg_payload msg) 0 (msg_len msg) in
          let! delivered := add64 (rn_delivered r) 1 in
          let! count' := add64 count 1 in
          pump_loop fuel' (mkRemote (rn_id r) inbox (rn_services r) delivered) count'
      end
  end.

(** The inbox holds at most 8 messages. *)
Definition pump_remote (d : Dist) : outcome (N * Dist) :=
  let! (n, r) := pump_loop 9 (remote d) 0 in Ret (n, mkDist (registry d) r).

Definition failover (svc : ServiceId) (replica_tid : TaskId) (d : Dist) : K (result unit N * Dist) :=
  match find_service (rn_services (remote d)) svc with
  | None => kret (Err tt, d)
  | Some cp =>
      let caps := count_caps (cp_cap_table cp) in
      do* lock_sched in
      let* o := kget_task replica_tid in
      match o with
      | None => do* unlock_sched in kret (Err tt, d)
      | Some _ =>
          do* kupdate_task replica_tid (fun t =>
            set_t_msg_queue (cp_msg_queue cp) (set_t_ipc_buffer (cp_ipc_buffer cp)
              (set_t_cap_table (cp_cap_table cp) t))) in
          do* unlock_sched in
          kret (Ok caps, register svc (Local replica_tid) d)
      end
  end.

(** The demonstration: whether migration and failover pass, [None] where it
    reports a failure and returns. *)
Definition dist_demo (service_id : ServiceId) (backing replica : TaskId) (d : Dist) : K (option (bool * option bool) * Dist) :=
  let client_cap := mkCap (Service service_id) true true false false 0 None in
  let d := register service_id (Local backing) d in
  let* (_, d) := route_send client_cap [97; 108; 112; 104; 97] d in
  let* (_, d) := route_send client_cap [98; 101; 116; 97] d in
  let* (r, d) := migrate service_id 1 d in
  match r with
  | Err _ => kret (None, d)
  | Ok migrated_caps =>
      let remote_caps := default usize_max (caps_of (remote d) service_id) in
      let* (_, d) := route_send client_cap [103; 97; 109; 109; 97] d in
      let* (_, d) := route_send client_cap [100; 101; 108; 116; 97] d in
      let* (delivered, d) := klift (pump_remote d) in
      let migration_ok := (migrated_caps =? remote_caps) && (delivered =? 2) in
      let* (f, d) := failover service_id replica d in
      match f with
      | Ok _ =>
          let* (routed, d) := route_send client_cap [101; 112; 115; 105; 108; 111; 110] d in
          kret (Some (migration_ok, Some match routed with RoutedLocal _ => true | _ => false end), d)
      | Err _ => kret (Some (migration_ok, None), d)
      end
  end.

(** ** The routing table *)

Section services.
Context {A : Type}.
Implicit Types (l : list (option (ServiceId * A))) (x : A).

Lemma find_service_cons e l svc :
  find_service (e :: l) svc = if names svc e then match e with Some (_, x) => Some x | None => None end else find_service l svc.
Proof. unfold find_service. cbn [find_first]. by destruct (names svc e), e as [[s x]|]. Qed.

Lemma find_put_free l svc x : find_service l svc = None -> None ∈ l -> find_service (put_first_free l (svc, x)) svc = Some x.
Proof.
  induction l as [|[[s y]|] l IH]; cbn [put_first_free]; rewrite ?find_service_cons; cbn [names]; [set_solver| |].
  - destruct (s =? svc) eqn:Hs; [done|]. intros Hn Hin. apply IH; [done|set_solver].
  - intros _ _. by rewrite N.eqb_refl.
Qed.

Lemma find_put_other l svc svc' x : svc <> svc' -> find_service (put_first_free l (svc, x)) svc' = find_service l svc'.
Proof.
  intros Hne. induction l as [|[[s y]|] l IH]; cbn [put_first_free]; rewrite ?find_service_cons; [done|by rewrite IH|].
  cbn [names]. by rewrite (proj2 (N.eqb_neq _ _) Hne).
Qed.

Lemma find_set_existing l svc x l' :
  set_existing l svc x = Some l' ->
  find_service l' svc = Some x /\ forall svc', svc <> svc' -> find_service l' svc' = find_service l svc'.
Proof.
  revert l'. induction l as [|e l IH]; intros l'; cbn [set_existing]; [done|].
  destruct (names svc e) eqn:Hn.
  - intros [= <-]. rewrite find_service_cons. cbn [names]. rewrite N.eqb_refl. split; [done|]. intros svc' Hne.
    rewrite !find_service_cons. cbn [names]. rewrite (proj2 (N.eqb_neq _ _) Hne). destruct e as [[s y]|]; [|done].
    cbn [names] in *. apply N.eqb_eq in Hn as ->. by rewrite (proj2 (N.eqb_neq _ _) Hne).
  - destruct (set_existing l svc x) as [l2|]; [|done]. intros [= <-]. destruct (IH l2 eq_refl) as [H1 H2].
    rewrite find_service_cons, Hn. split; [done|]. intros svc' Hne. rewrite !find_service_cons. by rewrite H2.
Qed.

Lemma set_existing_None l svc x : set_existing l svc x = None <-> find_service l svc = None.
Proof.
  induction l as [|e l IH]; [done|]. cbn [set_existing]. rewrite find_service_cons.
  destruct (names svc e) eqn:Hn; [by destruct e as [[]|]|]. destruct (set_existing l svc x); naive_solver.
Qed.
End services.

(** [set] routes [svc] to [loc] and nothing else, if it is registered or an
    entry is free. *)
Lemma resolve_set r svc loc svc' :
  is_Some (resolve r svc) \/ None ∈ entries r ->
  resolve (registry_set r svc loc) svc' = if decide (svc = svc') then Some loc else resolve r svc'.
Proof.
  intros Hroom. unfold resolve, registry_set in *. cbn [entries]. destruct (set_existing (entries r) svc loc) as [l|] eqn:He.
  - destruct (find_set_existing _ _ _ _ He) as [H1 H2]. case_decide; subst; auto.
  - apply set_existing_None in He. case_decide as Hd; [subst|by apply find_put_other].
    apply find_put_free; [done|]. rewrite He in Hroom. by destruct Hroom as [[]|].
Qed.

(** ** Sending *)

(** A queue [q'] that took [m], or was full and dropped it. *)
Definition taken (q : MessageQueue) (m : Message) (q' : MessageQueue) : Prop :=
  mq_wf q' /\ mq_contents q' = mq_contents q ++ (if mq_count q <? MSG_QUEUE_CAPACITY then [m] else []).

(** The message of a routed send: from the running task, with at most 128 bytes of
    the payload. *)
Definition wraps (k : Kernel) (payload : list N) (m : Message) : Prop :=
  msg_sender m = default usize_max (s_current_task_id (k_sched k)) /\ msg_tag m = Raw /\ msg_version m = 1 /\
  slice (msg_payload m) 0 (msg_len m) = Ret (take 128 payload).

(** A send that the route leads to the queue of the local task [i]. *)
Definition sent_local (cap : Capability) (payload : list N) (d : Dist) (k : Kernel) (i : TaskId) (t : Task) : Prop :=
  exists m q', wraps k payload m /\ taken (t_msg_queue t) m q' /\
    route_send cap payload d k = Ret ((RoutedLocal i, d), set_k_sched (put_slot i (Some (set_t_msg_queue q' t)) (k_sched k)) k).

(** A send that the route leads to [node]: into the inbox of the remote node, or
    nowhere when that is not its number. *)
Definition sent_remote (cap : Capability) (payload : list N) (d : Dist) (k : Kernel) (node : NodeId) : Prop :=
  exists m d', wraps k payload m /\ route_send cap payload d k = Ret ((RoutedRemote node, d'), k) /\
    registry d' = registry d /\ rn_services (remote d') = rn_services (remote d) /\
    if rn_id (remote d) =? node then taken (rn_inbox (remote d)) m (rn_inbox (remote d')) else d' = d.

Lemma enqueue_taken q m : mq_wf q -> exists r q', MessageQueue_enqueue q m = Ret (r, q') /\ taken q m q'.
Proof.
  intros Hq. unfold taken. destruct (N.ltb_spec (mq_count q) MSG_QUEUE_CAPACITY) as [Hlt|Hge].
  - destruct (mq_enqueue_ok q m Hq Hlt) as (q' & He & Hq' & Hc). eauto 10.
  - exists (Err tt), q. rewrite app_nil_r. split; [|done]. apply mq_enqueue_full; [done|]. pose proof (mq_wf_count _ Hq). lia.
Qed.

Lemma routed_message_wraps k payload :
  exists m, routed_message (default usize_max (s_current_task_id (k_sched k))) payload = Ret m /\ wraps k payload m.
Proof.
  assert (lenN (take 128 payload) = N.min (lenN payload) 128) as Hlen by (unfold lenN; rewrite length_take; lia).
  unfold routed_message. rewrite slice_ok by lia. cbn [obind].
  replace (take _ (drop _ payload)) with (take 128 payload).
  2: { rewrite drop_0. destruct (decide (lenN payload <= 128)) as [Hle|Hgt]; unfold lenN in *; [rewrite !take_ge by lia; done|f_equal; lia]. }
  destruct (copy_at (replicate 128 0) 0 (take 128 payload)) as [l| | |] eqn:Hc.
  2-4: revert Hc; rewrite copy_at_ok; [done|]; unfold lenN in *; simpl; lia.
  cbn [obind]. eexists. split; [done|]. split_and!; [done..|]. cbn [msg_payload msg_len]. rewrite <- Hlen. exact (slice_copy_at _ _ _ _ Hc).
Qed.

Lemma current_task_id_run k : kernel_wf k -> current_task_id k = Ret (s_current_task_id (k_sched k), k).
Proof. intros [_ Hl _]. unfold current_task_id, kbind, lock_sched, kget. rewrite Hl. cbn [obind]. by destruct k as [? [] ?]. Qed.

Lemma route_send_local cap payload d k svc i t :
  kernel_wf k -> cap_resource cap = Service svc -> resolve (registry d) svc = Some (Local i) -> task_slot (k_sched k) i = Some t ->
  sent_local cap payload d k i t.
Proof.
  intros Hwf Hcap Hres Ht. pose proof Hwf as [Hs Hl _]. destruct (routed_message_wraps k payload) as (m & Hm & Hw).
  destruct (enqueue_taken (t_msg_queue t) m (task_wf_queue _ (sched_wf_task _ Hs _ _ Ht))) as (r & q' & He & Hq').
  exists m, q'. split; [done|]. split; [done|]. unfold route_send. rewrite Hcap, Hres.
  unfold kbind at 1. rewrite current_task_id_run by done. cbn [obind]. unfold kbind, klift. rewrite Hm. cbn [obind].
  unfold lock_sched, kget_task, kget. rewrite Hl. cbn [obind]. ksimp. rewrite (get_task_wf _ _ Hs), Ht, He.
  cbn [obind unlock_sched kmod kupdate_task kret]. repeat f_equal. ksimp.
  unfold get_task_mut. rewrite (get_task_wf _ _ Hs), Ht. by destruct k as [? [] ?].
Qed.

Lemma route_send_remote cap payload d k svc node :
  kernel_wf k -> cap_resource cap = Service svc -> resolve (registry d) svc = Some (Remote node) -> mq_wf (rn_inbox (remote d)) ->
  sent_remote cap payload d k node.
Proof.
  intros Hwf Hcap Hres Hq. destruct (routed_message_wraps k payload) as (m & Hm & Hw).
  destruct (enqueue_taken _ m Hq) as (r & q' & He & Hq').
  exists m. unfold route_send. rewrite Hcap, Hres. unfold kbind. rewrite current_task_id_run by done. cbn [obind]. unfold klift. rewrite Hm.
  cbn [obind]. unfold transport_send. rewrite He. destruct (rn_id (remote d) =? node); cbn [obind kret]; eexists; by split_and!.
Qed.

(** ** Migration and failover *)

Section migration.
Context (k : Kernel) (d : Dist) (svc : ServiceId) (tid : TaskId) (t : Task).
Context (Hwf : kernel_wf k) (Hroute : resolve (registry d) svc = Some (Local tid)).
Context (Ht : task_slot (k_sched k) tid = Some t).

(** The state of the distribution layer after a migration. *)
Definition migrated (dest : NodeId) : Dist :=
  mkDist (registry_set (registry d) svc (Remote dest)) (host (remote d) svc (checkpoint_of t)).

Lemma migrate_spec dest :
  migrate svc dest d k =
    Ret ((Ok (count_caps (t_cap_table t)), migrated dest), set_k_sched (put_slot tid None (k_sched k)) k).
Proof.
  destruct Hwf as [Hs Hl _]. unfold migrate. rewrite Hroute. unfold kbind, lock_sched, kget_task, kget. rewrite Hl. cbn [obind].
  ksimp. rewrite (get_task_wf _ _ Hs), Ht. cbn [obind unlock_sched kmod]. ksimp. cbn [obind].
  assert (tid < MAX_TASKS) as Htid by (rewrite <- (sched_wf_len _ Hs); by eapply task_slot_lt).
  rewrite (proj2 (N.ltb_lt _ _) Htid). cbn [obind kmod kret]. repeat f_equal. by destruct k as [? [] ?].
Qed.

Lemma failover_spec d1 k1 replica t2 cp :
  kernel_wf k1 -> find_service (rn_services (remote d1)) svc = Some cp -> task_slot (k_sched k1) replica = Some t2 ->
  failover svc replica d1 k1 =
    Ret ((Ok (count_caps (cp_cap_table cp)), register svc (Local replica) d1),
         set_k_sched (put_slot replica (Some (set_t_msg_queue (cp_msg_queue cp) (set_t_ipc_buffer (cp_ipc_buffer cp)
            (set_t_cap_table (cp_cap_table cp) t2)))) (k_sched k1)) k1).
Proof.
  intros [Hs Hl _] Hcp Ht2. unfold failover. rewrite Hcp. unfold kbind, lock_sched, kget_task, kget. rewrite Hl. cbn [obind].
  ksimp. rewrite (get_task_wf _ _ Hs), Ht2. cbn [obind unlock_sched kmod kupdate_task kret]. repeat f_equal. ksimp.
  unfold get_task_mut. rewrite (get_task_wf _ _ Hs), Ht2. by destruct k1 as [? [] ?].
Qed.

End migration.

(** ** Examples *)

Definition example_service (caps : list Capability) : Kernel :=
  add_task (example_task 3 Ready []) (add_task (example_task 2 Ready []) (add_task (example_task 1 Ready caps) Kernel_init)).

Lemma example_service_wf : kernel_wf (example_service [mkCap Serial true true false false 5 None]).
Proof. repeat (apply add_task_wf; [apply example_task_wf; simpl; lia|]). apply Kernel_init_wf. Qed.

Definition example_dist : Dist := register 7 (Local 1) Dist_init.

(** A client's capability for the service. *)
Definition example_client_cap : Capability := mkCap (Service 7) true true false false 0 None.


(** A service that migrates a second time after it has gained a capability, and
    then fails over: the capabilities its replica gets. *)
Definition second_failover (k : Kernel) (d : Dist) (gained : CapTable) : option (result unit N * result unit N) :=
  match
    (let* (_, d) := migrate 7 1 d in
     let* (_, d) := failover 7 2 d in
     do* kupdate_task 2 (set_t_cap_table gained) in
     let* (m, d) := migrate 7 1 d in
     let* (f, d) := failover 7 3 d in
     kret (m, f)) k
  with
  | Ret (r, _) => Some r
  | _ => None
  end.

(** The second migration carries two capabilities, but the failover restores the
    first checkpoint, with one. *)
Lemma failover_stale :
  second_failover (example_service [mkCap Serial true true false false 5 None]) example_dist
    (t_cap_table (example_task 2 Ready [mkCap Serial true true false false 5 None; mkCap (Service 9) true true false false 6 None]))
  = Some (Ok 2, Ok 1).
Proof. vm_compute. reflexivity. Qed.

(** The demonstration passes on the example system. *)
Definition demo_result (k : Kernel) : option (option (bool * option bool)) :=
  match dist_demo 7 1 2 Dist_init k with Ret ((r, _), _) => Some r | _ => None end.

Lemma dist_demo_passes :
  demo_result (example_service [mkCap Serial true true false false 5 None]) = Some (Some (true, Some true)).
Proof. vm_compute. reflexivity. Qed.
