(* ===== verification/Keyboard.v ===== *)
(** * The keyboard driver

    Models [kernel/drivers/keyboard.rs]: the scancode table, the 64-byte buffer
    shared by the interrupt handler and the readers, [keyboard_isr] and
    [try_read].  The buffer is an instance of the bounded FIFO interface; the
    interrupt-controller acknowledgement is not modelled. *)

From S2P Require Import Prelude Ring.
Local Open Scope N_scope.

(** Set-1 make codes to ASCII; 0 for keys without a character. *)
Definition SCANCODE_MAP : list N :=
  [0; 27; 49; 50; 51; 52; 53; 54; 55; 56; 57; 48; 45; 61; 8;
   9; 113; 119; 101; 114; 116; 121; 117; 105; 111; 112; 91; 93; 10;
   0;
   97; 115; 100; 102; 103; 104; 106; 107; 108; 59; 39; 96;
   0;
   92; 122; 120; 99; 118; 98; 110; 109; 44; 46; 47;
   0;
   42;
   0;
   32;
   0] ++ replicate 10 0 ++ [0; 0; 0; 0; 0; 45; 0; 0; 0; 43; 0; 0; 0; 0; 0; 0; 0; 0; 0; 0] ++ replicate 39 0.

Record KbdBuffer : Type := mkKbd { kb_data : list N; kb_head : N; kb_tail : N; kb_count : N }.
Definition KbdBuffer_new : KbdBuffer := mkKbd (replicate 64 0) 0 0 0.

Definition KbdBuffer_push (self : KbdBuffer) (val : N) : outcome KbdBuffer :=
  if kb_count self <? 64 then
    let! data := arr_set (kb_data self) (kb_tail self) val in
    let! t1 := add64 (kb_tail self) 1 in
    let! count := add64 (kb_count self) 1 in
    Ret (mkKbd data (kb_head self) (t1 mod 64) count)
  else Ret self.

Definition KbdBuffer_pop (self : KbdBuffer) : outcome (option N * KbdBuffer) :=
  if 0 <? kb_count self then
    let! val := arr_get (kb_data self) (kb_head self) in
    let! h1 := add64 (kb_head self) 1 in
    let! count := sub64 (kb_count self) 1 in
    Ret (Some val, mkKbd (kb_data self) (h1 mod 64) (kb_tail self) count)
  else Ret (None, self).

(** [KBD_BUFFER.lock().pop()]. *)
Definition kbd_try_read (buf : KbdBuffer) : outcome (option N * KbdBuffer) := KbdBuffer_pop buf.

(** [KBD_BUFFER] and [KBD_IRQS]. *)
Record Keyboard : Type := mkKeyboard { kd_buffer : KbdBuffer; kd_irqs : N }.
Definition Keyboard_init : Keyboard := mkKeyboard KbdBuffer_new 0.

(** The handler for the byte [scancode] read from port 0x60: break codes and keys
    without a character are dropped. *)
Definition keyboard_isr (scancode : N) (kd : Keyboard) : outcome Keyboard :=
  let! buf :=
    if scancode <? 128 then
      let! ascii := arr_get SCANCODE_MAP scancode in
      if negb (ascii =? 0) then KbdBuffer_push (kd_buffer kd) ascii else Ret (kd_buffer kd)
    else Ret (kd_buffer kd) in
  Ret (mkKeyboard buf (wadd64 (kd_irqs kd) 1)).

(** ** The buffer as a FIFO *)

Definition kbd_ok (q : KbdBuffer) : Prop := ring_ok 64 (kb_data q) (kb_head q) (kb_tail q) (kb_count q).
Definition kbd_contents (q : KbdBuffer) : list N := ring_contents (kb_data q) (kb_head q) (kb_count q).

#[export] Instance KbdBuffer_Fifo : Fifo KbdBuffer N := {
  fifo_capacity := 64;
  fifo_inv := kbd_ok;
  fifo_contents := kbd_contents;
  fifo_enqueue := fun q v => ofmap (fun q' => (kb_count q <? 64, q')) (KbdBuffer_push q v);
  fifo_dequeue := KbdBuffer_pop
}.

#[export] Instance KbdBuffer_FifoLaws : FifoLaws KbdBuffer N.
Proof.
  split; simpl; unfold kbd_ok, kbd_contents.
  - intros q Hq. rewrite (ring_contents_len _ _ _ _ _ Hq). apply Hq.
  - intros q v Hq Hlt. rewrite (ring_contents_len _ _ _ _ _ Hq) in Hlt. pose proof (ring_tail_lt _ _ _ _ _ Hq) as Ht.
    destruct (ring_push _ _ _ _ _ v Hq Hlt) as [Hq' Hc]. assert (65 < u64_limit) by done.
    unfold KbdBuffer_push. rewrite (proj2 (N.ltb_lt _ _) Hlt). rewrite arr_set_ok by (by rewrite (ring_len _ _ _ _ _ Hq)). cbn [obind].
    rewrite !add64_ok by lia. eexists. done.
  - intros q v Hq Hc. rewrite (ring_contents_len _ _ _ _ _ Hq) in Hc. unfold KbdBuffer_push. by rewrite Hc.
  - intros q Hq Hc. pose proof (ring_contents_len _ _ _ _ _ Hq) as Hl. rewrite Hc in Hl. unfold KbdBuffer_pop. by rewrite <- Hl.
  - intros q v l Hq Hc. destruct (ring_pop _ _ _ _ _ _ _ Hq Hc) as (Hpos & Hi & Hq' & Hl). pose proof (ring_head _ _ _ _ _ Hq).
    assert (65 < u64_limit) by done. unfold KbdBuffer_pop. rewrite (proj2 (N.ltb_lt _ _) Hpos), (proj2 (arr_get_Ret _ _ _) Hi). cbn [obind].
    rewrite add64_ok, sub64_ok by lia. eexists. done.
Qed.

Lemma SCANCODE_MAP_len : lenN SCANCODE_MAP = 128.
Proof. reflexivity. Qed.

(** The character of a scancode, if it has one. *)
Definition key_of (scancode : N) : option N :=
  match idx SCANCODE_MAP scancode with Some c => if c =? 0 then None else Some c | None => None end.

(** The handler is total on every scancode: it appends the character of the key
    unless the buffer is full, and counts the interrupt. *)
Lemma keyboard_isr_spec scancode kd :
  kbd_ok (kd_buffer kd) ->
  exists kd', keyboard_isr scancode kd = Ret kd' /\ kbd_ok (kd_buffer kd') /\ kd_irqs kd' = wadd64 (kd_irqs kd) 1 /\
    kbd_contents (kd_buffer kd') =
      match key_of scancode with
      | Some c => if lenN (kbd_contents (kd_buffer kd)) <? 64 then kbd_contents (kd_buffer kd) ++ [c] else kbd_contents (kd_buffer kd)
      | None => kbd_contents (kd_buffer kd)
      end.
Proof.
  intros Hk. unfold keyboard_isr, key_of. destruct (scancode <? 128) eqn:Hlt; bool_to_prop.
  2: { rewrite idx_ge by (by rewrite SCANCODE_MAP_len). by eexists. }
  destruct (arr_get_ok SCANCODE_MAP scancode) as (c & Hc & ->); [by rewrite SCANCODE_MAP_len|]. rewrite Hc. cbn [obind].
  destruct (c =? 0); cbn [negb]; [by eexists|].
  pose proof (fifo_bounded (F := KbdBuffer_Fifo) (kd_buffer kd) Hk) as Hb. simpl in Hb.
  destruct (lenN (kbd_contents (kd_buffer kd)) <? 64) eqn:Hroom; bool_to_prop.
  - destruct (fifo_enqueue_accepts (F := KbdBuffer_Fifo) (kd_buffer kd) c Hk Hroom) as (q' & Hq & Hq' & Hcont). simpl in Hq.
    apply ofmap_Ret in Hq as (q & -> & [= _ ->]). by eexists.
  - pose proof (fifo_enqueue_refuses (F := KbdBuffer_Fifo) (kd_buffer kd) c Hk) as Hr. simpl in Hr. specialize (Hr ltac:(lia)).
    apply ofmap_Ret in Hr as (q & -> & Heq). assert (q = kd_buffer kd) as -> by congruence. by eexists.
Qed.
