(* ===== verification/PipelineSim.v ===== *)
(** * The pipeline simulator

    Models [simulate_pipeline], [hash_event_to_addr] and [event_to_instr] of
    [kernel/arch_sim/mod.rs], and [get_sim_instrs] of [kernel/shell/mod.rs],
    which feeds the simulator from the trace ring.  The simulation loop takes
    fuel, one unit per simulated cycle; [pipeline_exact] shows that twice the
    program length plus five is always enough and gives the result in closed
    form. *)

From S2P Require Import Prelude Text Ring Preempt Trace.
Local Open Scope N_scope.

Inductive InstrKind : Type := Alu | Load | Store | Branch.

Record SimInstr : Type := mkInstr {
  si_kind : InstrKind;
  si_rd : N;
  si_rs1 : N;
  si_rs2 : N
}.

Record PipeStats : Type := mkPipeStats {
  ps_instrs : N;
  ps_cycles : N;
  ps_stalls : N
}.

(** The locals of [simulate_pipeline]. *)
Record Pipeline : Type := mkPipeline {
  pl_if : option SimInstr;
  pl_id : option SimInstr;
  pl_ex : option SimInstr;
  pl_mem : option SimInstr;
  pl_pc : N;
  pl_stats : PipeStats
}.

(** [i.rd != 0 && (i.rd == id_instr.rs1 || i.rd == id_instr.rs2)] for an
    occupied stage. *)
Definition feeds (stage : option SimInstr) (id_instr : SimInstr) : bool :=
  match stage with
  | Some i => negb (si_rd i =? 0) && ((si_rd i =? si_rs1 id_instr) || (si_rd i =? si_rs2 id_instr))
  | None => false
  end.

Definition busy (prog : list SimInstr) (p : Pipeline) : bool :=
  (pl_pc p <? lenN prog) || is_some (pl_if p) || is_some (pl_id p) || is_some (pl_ex p) || is_some (pl_mem p).

(** One iteration of the [while] loop. *)
Definition pipeline_cycle (prog : list SimInstr) (p : Pipeline) : outcome Pipeline :=
  let st := pl_stats p in
  let! cycles := add64 (ps_cycles st) 1 in
  let! instrs := if is_some (pl_mem p) then add64 (ps_instrs st) 1 else Ret (ps_instrs st) in
  let mem_stage := pl_ex p in
  let ex_stage := None in
  let! (ex_stage, id_stage, stall, stalls) :=
    match pl_id p with
    | Some id_instr =>
        let raw_hazard := feeds ex_stage id_instr || feeds mem_stage id_instr in
        if raw_hazard then
          let! stalls := add64 (ps_stalls st) 1 in
          Ret (ex_stage, pl_id p, true, stalls)
        else Ret (Some id_instr, None, false, ps_stalls st)
    | None => Ret (ex_stage, None, false, ps_stalls st)
    end in
  if stall : bool then
    Ret (mkPipeline (pl_if p) id_stage ex_stage mem_stage (pl_pc p) (mkPipeStats instrs cycles stalls))
  else
    let id_stage := pl_if p in
    if pl_pc p <? lenN prog then
      let! i := arr_get prog (pl_pc p) in
      let! pc := add64 (pl_pc p) 1 in
      Ret (mkPipeline (Some i) id_stage ex_stage mem_stage pc (mkPipeStats instrs cycles stalls))
    else Ret (mkPipeline None id_stage ex_stage mem_stage (pl_pc p) (mkPipeStats instrs cycles stalls)).

Fixpoint pipeline_loop (fuel : nat) (prog : list SimInstr) (p : Pipeline) : outcome PipeStats :=
  match fuel with
  | O => OutOfFuel
  | S fuel' =>
      if busy prog p then let! p' := pipeline_cycle prog p in pipeline_loop fuel' prog p'
      else Ret (pl_stats p)
  end.

Definition simulate_pipeline (fuel : nat) (prog : list SimInstr) : outcome PipeStats :=
  let stats := mkPipeStats 0 0 0 in
  if lenN prog =? 0 then Ret stats
  else pipeline_loop fuel prog (mkPipeline None None None None 0 stats).

Definition hash_event_to_addr (event : TraceEvent) : N :=
  let h := foldl (fun h b => wadd64 h b) 0 (as_bytes (te_msg event)) in
  let h := wadd64 (wadd64 h (te_param1 event)) (te_param2 event) in
  let line_idx := h mod 12 in
  line_idx * 64.

(** [h ^= v; h = h.wrapping_mul(0x100000001b3)]. *)
Definition fnv_step (h v : N) : N := wmul64 (N.lxor h v) 0x100000001b3.

Definition event_kind (msg : string) : InstrKind :=
  if bool_decide (msg = "sched_switch_yield" \/ msg = "sched_switch_preempt" \/ msg = "sched_switch_term") then Branch
  else if bool_decide (msg = "ipc_send" \/ msg = "ipc_send_async") then Store
  else if bool_decide (msg = "ipc_receive" \/ msg = "ipc_receive_async") then Load
  else Alu.

Definition event_to_instr (event : TraceEvent) : SimInstr :=
  let h := foldl fnv_step 0xcbf29ce484222325 (as_bytes (te_msg event)) in
  let h := fnv_step h (te_param1 event) in
  let h := fnv_step h (te_param2 event) in
  mkInstr (event_kind (te_msg event)) (N.land h 7 + 1) (N.land (N.shiftr h 3) 7 + 1) (N.land (N.shiftr h 6) 7 + 1).

(** ** Selection of trace events *)

Definition trace_matches (trace_str : list N) (event : TraceEvent) : bool :=
  let msg := as_bytes (te_msg event) in
  if bool_decide (trace_str = as_bytes "all") then true
  else if bool_decide (trace_str = as_bytes "boot") then
    starts_with msg (as_bytes "cap") || starts_with msg (as_bytes "sched")
  else contains msg trace_str.

(** The walk of the ring that fills [matched_events]. *)
Definition matched_events (tr : TraceRing) (trace_name : list N) : outcome (list TraceEvent) :=
  let trace_str := from_utf8_or_empty trace_name in
  let total := tr_next_idx tr in
  let count := N.min total TRACE_BUFFER_SIZE in
  let start := if TRACE_BUFFER_SIZE <? total then total mod TRACE_BUFFER_SIZE else 0 in
  for_each (rangeN 0 (N.to_nat count))
    (fun i matched =>
       let! event := arr_get (tr_buffer tr) ((start + i) mod TRACE_BUFFER_SIZE) in
       Ret (if trace_matches trace_str event && (lenN matched <? 128) then matched ++ [event] else matched)) [].

(** The program used when no event matches. *)
Definition default_instr (i : N) : SimInstr :=
  if i mod 3 =? 0 then mkInstr Load 1 0 0
  else if i mod 3 =? 1 then mkInstr Alu 2 1 0
  else mkInstr Store 0 2 0.

Definition get_sim_instrs (tr : TraceRing) (trace_name : list N) : outcome (list SimInstr) :=
  let! matched := matched_events tr trace_name in
  if lenN matched =? 0 then Ret (default_instr <$> rangeN 0 128)
  else for_each (rangeN 0 128)
         (fun i acc => let! event := arr_get matched (i mod lenN matched) in Ret (acc ++ [event_to_instr event])) [].

(** [line] of the fallback address pattern. *)
Definition default_line (step : N) : N :=
  default 0 (idx [0; 4; 0; 4; 1; 5; 1; 5; 2; 6; 2; 6; 3; 7; 3; 7] step).

(** [seed] of the fallback address pattern. *)
Definition trace_seed (trace_name : list N) : N := foldl (fun seed b => wmul64 (wadd64 seed b) 31) 0 trace_name.

Definition get_sim_addresses (tr : TraceRing) (trace_name : list N) : outcome (list N) :=
  let! matched := matched_events tr trace_name in
  if lenN matched =? 0 then
    let seed := trace_seed trace_name in
    for_each (rangeN 0 128)
      (fun i acc => let! s := add64 (default_line (i mod 16)) seed in Ret (acc ++ [s mod 12 * 64])) []
  else for_each (rangeN 0 128)
         (fun i acc => let! event := arr_get matched (i mod lenN matched) in Ret (acc ++ [hash_event_to_addr event])) [].

(** ** The closed form *)

(** The pairs of adjacent instructions whose second reads what the first
    writes, with [prev] before the first instruction. *)
Fixpoint hazards (prev : option SimInstr) (prog : list SimInstr) : N :=
  match prog with
  | [] => 0
  | i :: prog' => (if feeds prev i then 1 else 0) + hazards (Some i) prog'
  end.

(** The instructions that wait for the execute stage are [q]: the first is being
    decoded, the second fetched, the others are not fetched yet. *)
Record waiting (prog q : list SimInstr) (p : Pipeline) : Prop := {
  waiting_id : pl_id p = q !! 0%nat;
  waiting_if : pl_if p = q !! 1%nat;
  waiting_rest : drop (N.to_nat (pl_pc p)) prog = drop 2 q;
  waiting_pc : pl_pc p <= lenN prog
}.

Definition occupied (o : option SimInstr) : N := if is_some o then 1 else 0.

(** Cycles until the pipeline is empty when nothing stalls. *)
Definition drain (q : list SimInstr) (ex mem : option SimInstr) : N :=
  if is_some (q !! 0%nat) then lenN q + 2
  else if is_some ex then 2 else occupied mem.

Definition final (q : list SimInstr) (ex mem : option SimInstr) (st : PipeStats) : PipeStats :=
  mkPipeStats (ps_instrs st + lenN q + occupied ex + occupied mem)
    (ps_cycles st + drain q ex mem + hazards ex q) (ps_stalls st + hazards ex q).

Definition fits (st : PipeStats) : Prop :=
  ps_instrs st < u64_limit /\ ps_cycles st < u64_limit /\ ps_stalls st < u64_limit.

Lemma hazards_le prev prog : hazards prev prog <= lenN prog.
Proof.
  revert prev. induction prog as [|i prog IH]; intros prev; simpl; [done|]. specialize (IH (Some i)).
  replace (lenN (i :: prog)) with (1 + lenN prog) by (unfold lenN; simpl; lia). case_match; lia.
Qed.

(** An empty pipeline ends the loop. *)
Lemma busy_waiting prog q p :
  waiting prog q p -> busy prog p = is_some (q !! 0%nat) || is_some (pl_ex p) || is_some (pl_mem p).
Proof.
  intros [Hid Hif Hr Hpc]. unfold busy. rewrite Hid, Hif. destruct q as [|i q]; simpl.
  - replace (pl_pc p <? lenN prog) with false; [done|]. symmetry. apply N.ltb_ge.
    apply (f_equal length) in Hr. rewrite length_drop in Hr. simpl in Hr. unfold lenN. lia.
  - by rewrite !orb_true_r.
Qed.

(** The next fetch, when the decode stage advances. *)
Lemma fetch prog i q p :
  waiting prog (i :: q) p ->
  (pl_pc p <? lenN prog) = is_some (q !! 1%nat) /\
  (forall x, q !! 1%nat = Some x -> arr_get prog (pl_pc p) = Ret x /\ drop (N.to_nat (pl_pc p + 1)) prog = drop 2 q).
Proof.
  intros [_ _ Hr Hpc]. simpl in Hr.
  assert (prog !! N.to_nat (pl_pc p) = q !! 1%nat) as Hh.
  { rewrite <- (Nat.add_0_r (N.to_nat (pl_pc p))), <- lookup_drop, Hr. by rewrite lookup_drop. }
  split.
  - destruct (q !! 1%nat) as [x|] eqn:Hq.
    + apply lookup_lt_Some in Hh. apply N.ltb_lt. unfold lenN. lia.
    + apply lookup_ge_None in Hh. apply N.ltb_ge. unfold lenN. lia.
  - intros x Hx. split; [apply arr_get_Ret; by rewrite idx_lookup, Hh|].
    replace (N.to_nat (pl_pc p + 1)) with (N.to_nat (pl_pc p) + 1)%nat by lia.
    by rewrite <- drop_drop, Hr, drop_drop.
Qed.

(** What one cycle does to the back of the pipeline and the counters. *)
Record stepped (p : Pipeline) (ex : option SimInstr) (stall : N) (p' : Pipeline) : Prop := {
  stepped_ex : pl_ex p' = ex;
  stepped_mem : pl_mem p' = pl_ex p;
  stepped_stats : pl_stats p' = mkPipeStats (ps_instrs (pl_stats p) + occupied (pl_mem p))
    (ps_cycles (pl_stats p) + 1) (ps_stalls (pl_stats p) + stall)
}.

Definition room (p : Pipeline) (stall : N) : Prop :=
  ps_instrs (pl_stats p) + occupied (pl_mem p) < u64_limit /\ ps_cycles (pl_stats p) + 1 < u64_limit /\
  ps_stalls (pl_stats p) + stall < u64_limit.

Lemma count_mem st (mem : option SimInstr) :
  ps_instrs st + occupied mem < u64_limit ->
  (if is_some mem then add64 (ps_instrs st) 1 else Ret (ps_instrs st)) = Ret (ps_instrs st + occupied mem).
Proof. intros. destruct mem; simpl; [by apply add64_ok|]. f_equal. unfold occupied. simpl. lia. Qed.

Lemma cycle_advances prog i q p :
  waiting prog (i :: q) p -> lenN prog < u64_limit -> feeds (pl_ex p) i = false -> room p 0 ->
  exists p', pipeline_cycle prog p = Ret p' /\ waiting prog q p' /\ stepped p (Some i) 0 p'.
Proof.
  intros Hw Hlen Hf (Hr1 & Hr2 & Hr3). destruct (fetch _ _ _ _ Hw) as [Hb Hx].
  unfold pipeline_cycle. rewrite (add64_ok (ps_cycles _)), count_mem by done. cbn [obind].
  rewrite (waiting_id _ _ _ Hw). cbn [lookup list_lookup]. rewrite Hf. cbn [feeds orb obind]. rewrite Hb.
  destruct (q !! 1%nat) as [x|] eqn:Hq; cbn [is_some].
  - destruct (Hx x eq_refl) as [-> Hd]. cbn [obind]. apply N.ltb_lt in Hb.
    rewrite add64_ok by lia. cbn [obind]. eexists. split; [done|]. split; split; simpl; try done.
    + by rewrite (waiting_if _ _ _ Hw).
    + lia.
    + f_equal. lia.
  - eexists. split; [done|]. split; split; simpl; try done.
    + by rewrite (waiting_if _ _ _ Hw).
    + rewrite (waiting_rest _ _ _ Hw). apply lookup_ge_None in Hq. rewrite !drop_ge; simpl; lia || done.
    + apply (waiting_pc _ _ _ Hw).
    + f_equal. lia.
Qed.

Lemma cycle_stalls prog i q p :
  waiting prog (i :: q) p -> feeds (pl_ex p) i = true -> room p 1 ->
  exists p', pipeline_cycle prog p = Ret p' /\ waiting prog (i :: q) p' /\ stepped p None 1 p'.
Proof.
  intros Hw Hf (Hr1 & Hr2 & Hr3).
  unfold pipeline_cycle. rewrite (add64_ok (ps_cycles _)), count_mem by done. cbn [obind].
  rewrite (waiting_id _ _ _ Hw). cbn [lookup list_lookup]. rewrite Hf. cbn [feeds orb obind].
  rewrite (add64_ok (ps_stalls _)) by done. cbn [obind]. eexists. split; [done|]. destruct Hw. by split; split.
Qed.

Lemma cycle_drains prog p :
  waiting prog [] p -> room p 0 ->
  exists p', pipeline_cycle prog p = Ret p' /\ waiting prog [] p' /\ stepped p None 0 p'.
Proof.
  intros Hw (Hr1 & Hr2 & Hr3). unfold pipeline_cycle. rewrite (add64_ok (ps_cycles _)), count_mem by done. cbn [obind].
  destruct Hw as [Hid Hif Hr Hpc]. rewrite Hid. cbn [lookup list_lookup obind].
  replace (pl_pc p <? lenN prog) with false.
  2: { symmetry. apply N.ltb_ge. apply (f_equal length) in Hr. rewrite length_drop in Hr. simpl in Hr. unfold lenN. lia. }
  eexists. split; [done|]. split; split; simpl; try done. f_equal. lia.
Qed.

(** The cycles still to come and the counters at the end. *)
Definition remaining (q : list SimInstr) (p : Pipeline) : N := drain q (pl_ex p) (pl_mem p) + hazards (pl_ex p) q.
Definition outlook (q : list SimInstr) (p : Pipeline) : PipeStats := final q (pl_ex p) (pl_mem p) (pl_stats p).

Lemma stepped_outlook q q' p ex stall p' :
  stepped p ex stall p' -> lenN q + occupied (pl_ex p) = lenN q' + occupied ex + occupied (pl_ex p) ->
  drain q (pl_ex p) (pl_mem p) + hazards (pl_ex p) q = 1 + (drain q' ex (pl_ex p) + hazards ex q') ->
  hazards (pl_ex p) q = stall + hazards ex q' ->
  remaining q p = 1 + remaining q' p' /\ outlook q' p' = outlook q p.
Proof.
  intros [Hex Hmem Hst] Hlen Hcyc Hstall. unfold remaining, outlook, final. rewrite Hex, Hmem, Hst.
  cbn [ps_instrs ps_cycles ps_stalls]. split; [lia|]. f_equal; lia.
Qed.

(** Every cycle of a busy pipeline moves it one cycle closer to the end. *)
Lemma cycle_progress prog q p :
  waiting prog q p -> lenN prog < u64_limit -> busy prog p = true -> fits (outlook q p) ->
  exists p' q', pipeline_cycle prog p = Ret p' /\ waiting prog q' p' /\
    remaining q p = 1 + remaining q' p' /\ outlook q' p' = outlook q p.
Proof.
  intros Hw Hlen Hb (Hf1 & Hf2 & Hf3). unfold outlook, final in Hf1, Hf2, Hf3. simpl in Hf1, Hf2, Hf3.
  rewrite (busy_waiting _ _ _ Hw) in Hb. destruct q as [|i q].
  - destruct (cycle_drains _ _ Hw) as (p' & Hc & Hw' & Hs).
    { unfold room. unfold drain in Hf2. simpl in Hf2, Hb. unfold occupied in *. destruct (pl_ex p), (pl_mem p); simpl in *; try done; lia. }
    exists p', []. split; [done|]. split; [done|]. apply (stepped_outlook _ _ _ _ _ _ Hs); [done| |done].
    unfold drain, occupied. simpl in *. destruct (pl_ex p), (pl_mem p); simpl in *; done || lia.
  - destruct (feeds (pl_ex p) i) eqn:Hfd; unfold drain in Hf2; simpl in Hf2, Hf3; rewrite Hfd in Hf2, Hf3.
    + destruct (cycle_stalls _ _ _ _ Hw Hfd) as (p' & Hc & Hw' & Hs); [unfold room; lia|].
      exists p', (i :: q). split; [done|]. split; [done|]. apply (stepped_outlook _ _ _ _ _ _ Hs).
      * unfold occupied. simpl. lia.
      * unfold drain. simpl. rewrite Hfd. lia.
      * simpl. rewrite Hfd. lia.
    + destruct (cycle_advances _ _ _ _ Hw Hlen Hfd) as (p' & Hc & Hw' & Hs); [unfold room; lia|].
      exists p', q. split; [done|]. split; [done|]. apply (stepped_outlook _ _ _ _ _ _ Hs).
      * rewrite lenN_cons. unfold occupied. simpl. lia.
      * unfold drain. simpl. rewrite Hfd, lenN_cons. destruct q; simpl; rewrite ?lenN_cons; change (lenN []) with 0; lia.
      * simpl. rewrite Hfd. lia.
Qed.

Lemma loop_exact fuel prog q p :
  waiting prog q p -> lenN prog < u64_limit -> fits (outlook q p) ->
  (N.to_nat (remaining q p) < fuel)%nat -> pipeline_loop fuel prog p = Ret (outlook q p).
Proof.
  revert q p. induction fuel as [|fuel IH]; intros q p Hw Hlen Hfit Hfuel; [lia|]. simpl.
  destruct (busy prog p) eqn:Hb.
  - destruct (cycle_progress _ _ _ Hw Hlen Hb Hfit) as (p' & q' & -> & Hw' & Hrem & Hout). simpl.
    rewrite <- Hout in Hfit |- *. apply IH; [done..|lia].
  - rewrite (busy_waiting _ _ _ Hw) in Hb. apply orb_false_iff in Hb as [[Hq He]%orb_false_iff Hm].
    destruct q; [|done]. unfold outlook, final, drain, occupied. rewrite He, Hm. simpl. destruct (pl_stats p); simpl.
    f_equal. f_equal; change (lenN []) with 0; lia.
Qed.

(** The first two cycles fill the front of the pipeline. *)
Lemma fill fuel i prog :
  lenN (i :: prog) < u64_limit ->
  exists p, waiting (i :: prog) (i :: prog) p /\ pl_ex p = None /\ pl_mem p = None /\ pl_stats p = mkPipeStats 0 2 0 /\
    simulate_pipeline (S (S fuel)) (i :: prog) = pipeline_loop fuel (i :: prog) p.
Proof.
  intros Hlen. rewrite lenN_cons in Hlen. unfold simulate_pipeline.
  assert ((0 <? lenN (i :: prog)) = true) as H0 by (apply N.ltb_lt; rewrite lenN_cons; lia).
  replace (lenN (i :: prog) =? 0) with false by (symmetry; apply N.eqb_neq; rewrite lenN_cons; lia).
  cbn [pipeline_loop]. unfold busy at 1. cbn [pl_pc]. rewrite H0. cbn [orb].
  unfold pipeline_cycle at 1. cbn [pl_stats ps_cycles pl_mem is_some obind pl_id pl_pc pl_if pl_ex ps_instrs ps_stalls]. rewrite H0.
  change (add64 0 1) with (Ret 1). cbn [obind]. change (arr_get (i :: prog) 0) with (Ret i). cbn [obind].
  unfold busy at 1. cbn [pl_if pl_id pl_ex pl_mem is_some orb]. rewrite orb_true_r. cbn [orb].
  unfold pipeline_cycle at 1. cbn [pl_stats ps_cycles pl_mem is_some obind pl_id pl_pc pl_if pl_ex ps_instrs ps_stalls].
  change (add64 1 1) with (Ret 2). cbn [obind]. destruct prog as [|j prog].
  - eexists. split; [|by repeat split]. by split.
  - replace (1 <? lenN (i :: j :: prog)) with true by (symmetry; apply N.ltb_lt; rewrite !lenN_cons; lia).
    replace (arr_get (i :: j :: prog) 1) with (Ret j) by (symmetry; apply arr_get_Ret; by rewrite idx_lookup). cbn [obind].
    eexists. split; [|by repeat split]. split; try done. cbn [pl_pc]. rewrite !lenN_cons. lia.
Qed.

(** The simulator reaches the end of every program: with at least [2 n + 5] units of
    fuel for [n] instructions it retires all of them, stalls once for every
    instruction that reads the result of the one before it, and takes one cycle
    per instruction and stall plus four to fill and empty the stages. *)
Lemma pipeline_spec fuel prog :
  2 * lenN prog + 4 < u64_limit -> (2 * length prog + 5 <= fuel)%nat ->
  simulate_pipeline fuel prog =
    Ret (if lenN prog =? 0 then mkPipeStats 0 0 0
         else mkPipeStats (lenN prog) (lenN prog + 4 + hazards None prog) (hazards None prog)).
Proof.
  intros Hlen Hfuel. destruct prog as [|i prog]; [done|].
  destruct fuel as [|[|fuel]]; [simpl in Hfuel; lia..|].
  destruct (fill fuel i prog) as (p & Hw & Hex & Hmem & Hst & ->); [lia|].
  pose proof (hazards_le None (i :: prog)) as Hh.
  replace (lenN (i :: prog) =? 0) with false by (symmetry; apply N.eqb_neq; rewrite lenN_cons; lia).
  assert (outlook (i :: prog) p = mkPipeStats (lenN (i :: prog)) (lenN (i :: prog) + 4 + hazards None (i :: prog)) (hazards None (i :: prog))) as Ho.
  { unfold outlook, final. rewrite Hex, Hmem, Hst. unfold occupied, drain. cbn [is_some ps_instrs ps_cycles ps_stalls lookup list_lookup].
    f_equal; lia. }
  rewrite (loop_exact _ _ (i :: prog) p Hw), Ho; [done|lia| |].
  - rewrite Ho. unfold fits. cbn [ps_instrs ps_cycles ps_stalls]. lia.
  - unfold remaining, drain. rewrite Hex. cbn [is_some lookup list_lookup]. unfold lenN in *. simpl length in *. lia.
Qed.

(** A [for] loop that appends one computed element per iteration. *)
Lemma for_each_collect {I A B} (f : I -> outcome A) (g : A -> B) (P : B -> Prop) (l : list I) :
  (forall i, i ∈ l -> exists a, f i = Ret a /\ P (g a)) ->
  exists r, for_each l (fun i acc => let! a := f i in Ret (acc ++ [g a])) [] = Ret r /\ length r = length l /\ Forall P r.
Proof.
  intros Hf. apply (for_each_inv (fun done acc => length acc = length done /\ Forall P acc)); [|done].
  intros d i l' acc -> [Hlen HP]. destruct (Hf i) as (a & -> & Ha); [set_solver|]. simpl. eexists. split; [done|].
  rewrite !length_app, Hlen. split; [done|]. apply Forall_app. auto.
Qed.

Lemma matched_events_ok tr name :
  lenN (tr_buffer tr) = TRACE_BUFFER_SIZE -> exists l, matched_events tr name = Ret l /\ lenN l <= 128.
Proof.
  intros Hlen. apply (for_each_inv (fun _ acc => lenN acc <= 128)); [|done].
  intros d i l' acc _ Hacc. destruct (arr_get_ok (tr_buffer tr)
    (((if TRACE_BUFFER_SIZE <? tr_next_idx tr then tr_next_idx tr mod TRACE_BUFFER_SIZE else 0) + i) mod TRACE_BUFFER_SIZE))
    as (x & _ & ->).
  { rewrite Hlen. by apply N.mod_lt. }
  simpl. eexists. split; [done|]. case_match; [|done]. bool_to_prop. rewrite lenN_app. change (lenN [x]) with 1. lia.
Qed.

(** Registers named by a generated instruction are 1 to 8. *)
Definition sim_register (r : N) : Prop := 1 <= r <= 8.

Lemma land7_register h : sim_register (N.land h 7 + 1).
Proof.
  unfold sim_register. change 7 with (N.ones 3). rewrite N.land_ones. change (2 ^ 3) with 8.
  pose proof (N.mod_lt h 8 ltac:(done)) as H. generalize dependent (h mod 8). lia.
Qed.

Lemma event_to_instr_registers ev :
  sim_register (si_rd (event_to_instr ev)) /\ sim_register (si_rs1 (event_to_instr ev)) /\ sim_register (si_rs2 (event_to_instr ev)).
Proof. repeat split; apply land7_register. Qed.

(** Both generators are total on any ring and name: 128 instructions ... *)
Lemma get_sim_instrs_ok tr name :
  lenN (tr_buffer tr) = TRACE_BUFFER_SIZE -> exists l, get_sim_instrs tr name = Ret l /\ length l = 128%nat.
Proof.
  intros Hlen. destruct (matched_events_ok tr name Hlen) as (l & Hm & Hl). unfold get_sim_instrs. rewrite Hm. cbn [obind].
  case_match eqn:H0; [by eexists|]. bool_to_prop.
  destruct (for_each_collect (fun i => arr_get l (i mod lenN l)) event_to_instr (fun _ => True) (rangeN 0 128)) as (r & -> & Hr & _).
  - intros i _. destruct (arr_get_ok l (i mod lenN l)) as (x & _ & ->); [by apply N.mod_lt|]. eauto.
  - eauto.
Qed.

(** The addresses cannot be made: no event matches the name, and its seed is within
    the last seven numbers below [2^64]. *)
Definition sim_overflows (tr : TraceRing) (name : list N) : bool :=
  match matched_events tr name with Ret [] => u64_limit <=? trace_seed name + 7 | _ => false end.

Lemma default_line_le st : default_line st <= 7.
Proof.
  unfold default_line, idx. case_match; [|simpl; lia]. destruct (_ !! _) as [x|] eqn:Hx; [|simpl; lia].
  apply list_elem_of_lookup_2 in Hx. simpl. set_unfold in Hx. lia.
Qed.

Lemma for_each_panics {I S} (l : list I) (body : I -> S -> outcome S) x s :
  x ∈ l -> (forall s, body x s = Panic) -> (forall y s, body y s = Panic \/ exists s', body y s = Ret s') -> for_each l body s = Panic.
Proof.
  intros Hx Hp Hall. revert s. induction l as [|y l IH]; intros s; [by apply elem_of_nil in Hx|]. cbn [for_each].
  destruct (Hall y s) as [->|[s' Hs]]; [done|]. apply elem_of_cons in Hx as [<-|Hx]; [by rewrite Hp in Hs|]. rewrite Hs. by apply IH.
Qed.

(** ... and 128 addresses, or a panic. *)
Lemma get_sim_addresses_exact tr name :
  lenN (tr_buffer tr) = TRACE_BUFFER_SIZE ->
  if sim_overflows tr name then get_sim_addresses tr name = Panic
  else exists l, get_sim_addresses tr name = Ret l /\ length l = 128%nat.
Proof.
  intros Hlen. destruct (matched_events_ok tr name Hlen) as (l & Hm & Hl). unfold sim_overflows, get_sim_addresses. rewrite Hm. cbn [obind].
  destruct l as [|e l].
  - change (lenN [] =? 0) with true. cbv iota zeta. destruct (N.leb_spec u64_limit (trace_seed name + 7)) as [Hov|Hseed].
    + apply (for_each_panics _ _ 13); [apply elem_of_rangeN; lia|..].
      * intros s. assert (add64 (default_line (13 mod 16)) (trace_seed name) = Panic) as ->; [|done].
        change (default_line (13 mod 16)) with 7. unfold add64. rewrite (proj2 (N.ltb_ge _ _)); [done|lia].
      * intros y s. unfold add64. case_match; [right; by eexists|by left].
    + destruct (for_each_collect (fun i => add64 (default_line (i mod 16)) (trace_seed name)) (fun s => s mod 12 * 64) (fun _ => True) (rangeN 0 128))
        as (r & -> & Hr & _); [|by eauto]. intros i _. pose proof (default_line_le (i mod 16)). rewrite add64_ok by lia. eauto.
  - set (m := e :: l) in *. assert (lenN m <> 0) as Hne by (unfold m, lenN; simpl; lia). rewrite (proj2 (N.eqb_neq _ _) Hne).
    destruct (for_each_collect (fun i => arr_get m (i mod lenN m)) hash_event_to_addr (fun _ => True) (rangeN 0 128)) as (r & -> & Hr & _); [|by eauto].
    intros i _. destruct (arr_get_ok m (i mod lenN m)) as (x & _ & ->); [by apply N.mod_lt|]. eauto.
Qed.

(** The addition of the pattern overflows for some names. *)
Lemma sim_addresses_overflow : sim_overflows TraceRing_init (as_bytes "KUBSVMZZWTFDR") = true.
Proof. vm_compute. reflexivity. Qed.

(** The pipeline simulation terminates with an exact result.  For every trace
    ring and trace name the generated program has 128 instructions, and for every
    program of [n] instructions [2 n + 5] simulated cycles are enough for the loop
    to end: all [n] instructions retire, an instruction stalls once exactly when it
    reads the register the instruction just before it writes, and the cycle count
    is [n + 4] plus the stalls. *)
Theorem pipeline_exact fuel prog tr name :
  2 * lenN prog + 4 < u64_limit -> (2 * length prog + 5 <= fuel)%nat -> lenN (tr_buffer tr) = TRACE_BUFFER_SIZE ->
  (exists gen, get_sim_instrs tr name = Ret gen /\ length gen = 128%nat) /\
  simulate_pipeline fuel prog =
    Ret (if lenN prog =? 0 then mkPipeStats 0 0 0
         else mkPipeStats (lenN prog) (lenN prog + 4 + hazards None prog) (hazards None prog)).
Proof. intros Hlen Hfuel Htr. split; [by apply get_sim_instrs_ok|by apply pipeline_spec]. Qed.

Lemma pipeline_exact_witness :
  (exists gen, get_sim_instrs TraceRing_init [0x61] = Ret gen /\ length gen = 128%nat) /\
  simulate_pipeline 11 [mkInstr Load 1 0 0; mkInstr Alu 2 1 0; mkInstr Store 0 1 0] = Ret (mkPipeStats 3 8 1).
Proof.
  apply (pipeline_exact 11 [mkInstr Load 1 0 0; mkInstr Alu 2 1 0; mkInstr Store 0 1 0]); [done|simpl; lia|reflexivity].
Defined.

(** A dependence on the instruction two places before is never charged: the test
    of the execute stage comes after that stage has been emptied. *)
Lemma pipeline_ignores_distance_two :
  simulate_pipeline 20 [mkInstr Load 1 0 0; mkInstr Alu 2 3 3; mkInstr Alu 4 1 0] = Ret (mkPipeStats 3 7 0).
Proof. reflexivity. Qed.
