(* ===== verification/CacheSim.v ===== *)
(** * The cache simulator

    Models [simulate_cache] of [kernel/arch_sim/mod.rs], a set-associative cache
    with time-stamped lines, and relates it to the textbook definition of
    least-recently-used replacement: each set is the list of its tags, most
    recent first, and a miss in a full set drops the last. *)

From Stdlib Require Import Sorting.Sorted.
From S2P Require Import Prelude Ring.
Local Open Scope N_scope.

Record CacheConfig : Type := mkCacheConfig {
  cfg_assoc : N;
  cfg_num_lines : N;
  cfg_line_bytes : N
}.

Record CacheStats : Type := mkCacheStats {
  cs_accesses : N;
  cs_hits : N;
  cs_misses : N;
  cs_evictions : N
}.

Record SimCacheLine : Type := mkLine {
  cl_valid : bool;
  cl_tag : N;
  cl_lru : N
}.

(** The locals of the loop. *)
Record CacheSim : Type := mkCacheSim {
  sim_cache : list SimCacheLine;
  sim_lru_counter : N;
  sim_stats : CacheStats
}.

(** [a / b] and [a * b] on [u64]/[usize]: a zero divisor and overflow panic. *)
Definition div64 (a b : N) : outcome N := if b =? 0 then Panic else Ret (a / b).
Definition mul64 (a b : N) : outcome N := if a * b <? u64_limit then Ret (a * b) else Panic.

(** [idx < num_lines && cache[idx].valid && cache[idx].tag == tag]; the guard keeps
    the index inside the array of 1024 lines. *)
Definition hits_line (cache : list SimCacheLine) (num_lines tag i : N) : bool :=
  (i <? num_lines) && match idx cache i with Some l => cl_valid l && (cl_tag l =? tag) | None => false end.

(** The search for a line to fill: the first invalid line ends it, otherwise the
    first line with the smallest time stamp is kept. *)
Fixpoint victim_scan (cache : list SimCacheLine) (num_lines : N) (idxs : list N) (lru_idx min_lru : N)
  : option N * N :=
  match idxs with
  | [] => (None, lru_idx)
  | i :: idxs' =>
      if i <? num_lines then
        match idx cache i with
        | Some l =>
            if negb (cl_valid l) then (Some i, lru_idx)
            else if cl_lru l <? min_lru then victim_scan cache num_lines idxs' i (cl_lru l)
            else victim_scan cache num_lines idxs' lru_idx min_lru
        | None => victim_scan cache num_lines idxs' lru_idx min_lru
        end
      else victim_scan cache num_lines idxs' lru_idx min_lru
  end.

Definition with_lru (t : N) (l : SimCacheLine) : SimCacheLine := mkLine (cl_valid l) (cl_tag l) t.
Definition with_tag (tag t : N) (l : SimCacheLine) : SimCacheLine := mkLine (cl_valid l) tag t.

(** The body of the loop over the addresses. *)
Definition cache_access (cfg : CacheConfig) (num_sets num_lines addr : N) (s : CacheSim) : outcome CacheSim :=
  let st := sim_stats s in
  let! accesses := add64 (cs_accesses st) 1 in
  let! lru_counter := add64 (sim_lru_counter s) 1 in
  let! line_addr := div64 addr (cfg_line_bytes cfg) in
  let set_idx := line_addr mod num_sets in
  let tag := line_addr / num_sets in
  let! set_start := mul64 set_idx (cfg_assoc cfg) in
  let! set_end := add64 set_start (cfg_assoc cfg) in
  let set := rangeN set_start (N.to_nat (set_end - set_start)) in
  match find_first (hits_line (sim_cache s) num_lines tag) set with
  | Some i =>
      let! l := arr_get (sim_cache s) i in
      let! hits := add64 (cs_hits st) 1 in
      Ret (mkCacheSim (upd (sim_cache s) i (with_lru lru_counter l)) lru_counter
             (mkCacheStats accesses hits (cs_misses st) (cs_evictions st)))
  | None =>
      let! misses := add64 (cs_misses st) 1 in
      match victim_scan (sim_cache s) num_lines set set_start usize_max with
      | (Some i, _) =>
          if i <? num_lines then
            let! cache := arr_set (sim_cache s) i (mkLine true tag lru_counter) in
            Ret (mkCacheSim cache lru_counter (mkCacheStats accesses (cs_hits st) misses (cs_evictions st)))
          else Ret (mkCacheSim (sim_cache s) lru_counter (mkCacheStats accesses (cs_hits st) misses (cs_evictions st)))
      | (None, lru_idx) =>
          if lru_idx <? num_lines then
            let! l := arr_get (sim_cache s) lru_idx in
            let! evictions := add64 (cs_evictions st) 1 in
            Ret (mkCacheSim (upd (sim_cache s) lru_idx (with_tag tag lru_counter l)) lru_counter
                   (mkCacheStats accesses (cs_hits st) misses evictions))
          else Ret (mkCacheSim (sim_cache s) lru_counter (mkCacheStats accesses (cs_hits st) misses (cs_evictions st)))
      end
  end.

Definition CacheStats_zero : CacheStats := mkCacheStats 0 0 0 0.
Definition CacheSim_init : CacheSim := mkCacheSim (replicate 1024 (mkLine false 0 0)) 0 CacheStats_zero.

Definition simulate_cache (cfg : CacheConfig) (addrs : list N) : outcome CacheStats :=
  if (cfg_assoc cfg =? 0) || (cfg_num_lines cfg =? 0) || (cfg_num_lines cfg <? cfg_assoc cfg) then Ret CacheStats_zero
  else
    let num_sets := cfg_num_lines cfg / cfg_assoc cfg in
    if num_sets =? 0 then Ret CacheStats_zero
    else
      let num_lines := N.min (cfg_num_lines cfg) 1024 in
      let! s := for_each addrs (cache_access cfg num_sets num_lines) CacheSim_init in
      Ret (sim_stats s).

(** ** Least-recently-used replacement, by definition *)

(** One access to a set: whether it hits, whether it evicts, and the new list. *)
Definition lru_access (assoc tag : N) (l : list N) : bool * bool * list N :=
  if bool_decide (tag ∈ l) then (true, false, tag :: List.filter (fun t => negb (t =? tag)) l)
  else if lenN l <? assoc then (false, false, tag :: l)
  else (false, true, tag :: List.removelast l).

Definition bump (b : bool) (n : N) : N := if b then n + 1 else n.

Definition lru_step (assoc line_bytes num_sets : N) (s : gmap N (list N) * CacheStats) (addr : N)
  : gmap N (list N) * CacheStats :=
  let '(sets, st) := s in
  let line_addr := addr / line_bytes in
  let set := line_addr mod num_sets in
  let '(hit, evict, l) := lru_access assoc (line_addr / num_sets) (default [] (sets !! set)) in
  (<[set := l]> sets,
   mkCacheStats (cs_accesses st + 1) (bump hit (cs_hits st)) (bump (negb hit) (cs_misses st)) (bump evict (cs_evictions st))).

Definition lru_stats (assoc line_bytes num_sets : N) (addrs : list N) : CacheStats :=
  snd (foldl (lru_step assoc line_bytes num_sets) (∅, CacheStats_zero) addrs).

(** ** The correspondence *)

Definition line_at (cache : list SimCacheLine) (w : N) : SimCacheLine := default (mkLine false 0 0) (idx cache w).

(** The lines of set [set]. *)
Definition ways (assoc set : N) : list N := rangeN (set * assoc) (N.to_nat assoc).

(** The lines [ws], most recently used first, hold the tags [l] of a set. *)
Record set_repr (cache : list SimCacheLine) (assoc now set : N) (ws l : list N) : Prop := {
  sr_tags : l = (fun w => cl_tag (line_at cache w)) <$> ws;
  sr_order : StronglySorted (fun w w' => cl_lru (line_at cache w') < cl_lru (line_at cache w)) ws;
  sr_valid : forall w, w ∈ ws <-> w ∈ ways assoc set /\ cl_valid (line_at cache w) = true;
  sr_now : forall w, w ∈ ws -> cl_lru (line_at cache w) <= now;
  sr_nodup : NoDup l
}.

Lemma ways_disjoint assoc s s' w : w ∈ ways assoc s -> w ∈ ways assoc s' -> s = s'.
Proof. unfold ways. rewrite !elem_of_rangeN. nia. Qed.

Lemma ways_NoDup assoc s : NoDup (ways assoc s).
Proof. unfold ways, rangeN. apply NoDup_fmap_2; [intros x y; lia|apply NoDup_seq]. Qed.

Lemma ways_length assoc s : lenN (ways assoc s) = assoc.
Proof. unfold ways, rangeN, lenN. rewrite length_fmap, length_seq. lia. Qed.

Lemma sorted_NoDup (f : N -> N) ws : StronglySorted (fun w w' => f w' < f w) ws -> NoDup ws.
Proof.
  induction 1 as [|w ws _ IH Hf]; constructor; [|done].
  intros Hw. rewrite List.Forall_forall in Hf. apply list_elem_of_In in Hw. specialize (Hf w Hw). simpl in Hf. lia.
Qed.

(** The order on the remaining lines does not depend on the one removed. *)
Lemma sorted_remove {A} (R : A -> A -> Prop) l1 x l2 : StronglySorted R (l1 ++ x :: l2) -> StronglySorted R (l1 ++ l2).
Proof.
  induction l1 as [|y l1 IH]; simpl; intros Hs; apply StronglySorted_inv in Hs as [Hs Hf]; [done|].
  constructor; [by apply IH|]. apply Forall_app in Hf as [? Hf]. apply Forall_app. split; [done|]. by apply Forall_cons in Hf as [_ ?].
Qed.

Lemma sorted_ext (f g : N -> N) ws :
  (forall w, w ∈ ws -> f w = g w) ->
  StronglySorted (fun w w' => f w' < f w) ws -> StronglySorted (fun w w' => g w' < g w) ws.
Proof.
  intros Hfg. induction 1 as [|w ws _ IH Hf]; constructor.
  - apply IH. intros. apply Hfg. by right.
  - apply Forall_forall. intros w' Hw'. rewrite Forall_forall in Hf.
    rewrite <- (Hfg w), <- (Hfg w') by set_solver. by apply Hf.
Qed.

Section set.
Context (cache : list SimCacheLine) (assoc now set : N) (ws l : list N).
Hypothesis Hr : set_repr cache assoc now set ws l.

Lemma repr_NoDup : NoDup ws.
Proof. apply (sorted_NoDup (fun w => cl_lru (line_at cache w))), (sr_order _ _ _ _ _ _ Hr). Qed.

(** A tag is in the list exactly when a line of the set holds it. *)
Lemma repr_tag tag :
  tag ∈ l <-> exists w, w ∈ ways assoc set /\ cl_valid (line_at cache w) = true /\ cl_tag (line_at cache w) = tag.
Proof.
  rewrite (sr_tags _ _ _ _ _ _ Hr), list_elem_of_fmap. setoid_rewrite (sr_valid _ _ _ _ _ _ Hr). naive_solver.
Qed.

Lemma repr_length : lenN l = lenN ws.
Proof. rewrite (sr_tags _ _ _ _ _ _ Hr). unfold lenN. by rewrite length_fmap. Qed.

(** The list is full exactly when every line of the set is valid. *)
Lemma repr_full : (forall w, w ∈ ways assoc set -> cl_valid (line_at cache w) = true) -> lenN l = assoc.
Proof.
  intros Hall. rewrite repr_length, <- (ways_length assoc set). unfold lenN. f_equal.
  apply Permutation_length, NoDup_Permutation; [apply repr_NoDup|apply ways_NoDup|].
  intros w. rewrite (sr_valid _ _ _ _ _ _ Hr). naive_solver.
Qed.

Lemma repr_room w : w ∈ ways assoc set -> cl_valid (line_at cache w) = false -> lenN l < assoc.
Proof.
  intros Hw Hv. rewrite repr_length. assert (length (w :: ws) <= length (ways assoc set))%nat as Hle.
  - apply submseteq_length, NoDup_submseteq.
    + constructor; [|apply repr_NoDup]. rewrite (sr_valid _ _ _ _ _ _ Hr). rewrite Hv. naive_solver.
    + intros x [->|Hx]%elem_of_cons; [done|]. by apply (sr_valid _ _ _ _ _ _ Hr).
  - pose proof (ways_length assoc set). unfold lenN in *. simpl in Hle. lia.
Qed.
End set.

(** A line of the set written with the current time becomes its most recent. *)
Lemma set_repr_touch cache assoc now set w1 w2 i tag :
  i ∈ ways assoc set -> i < lenN cache ->
  StronglySorted (fun w w' => cl_lru (line_at cache w') < cl_lru (line_at cache w)) (w1 ++ w2) ->
  (forall w, w ∈ w1 ++ w2 <-> w ∈ ways assoc set /\ w <> i /\ cl_valid (line_at cache w) = true) ->
  (forall w, w ∈ w1 ++ w2 -> cl_lru (line_at cache w) <= now) ->
  NoDup (tag :: ((fun w => cl_tag (line_at cache w)) <$> w1 ++ w2)) ->
  set_repr (upd cache i (mkLine true tag (now + 1))) assoc (now + 1) set (i :: w1 ++ w2)
    (tag :: ((fun w => cl_tag (line_at cache w)) <$> w1 ++ w2)).
Proof.
  intros Hi Hlen Hs Hv Hn Hd.
  assert (line_at (upd cache i (mkLine true tag (now + 1))) i = mkLine true tag (now + 1)) as Hat.
  { unfold line_at. by rewrite idx_upd_eq. }
  assert (forall w, w <> i -> line_at (upd cache i (mkLine true tag (now + 1))) w = line_at cache w) as Hother.
  { intros w Hw. unfold line_at. by rewrite idx_upd_ne. }
  assert (forall w, w ∈ w1 ++ w2 -> w <> i) as Hne by (intros w Hw; by apply Hv in Hw as (_ & ? & _)).
  split.
  - csimpl. rewrite Hat. f_equal. apply list_fmap_ext. intros k w Hw. rewrite Hother; [done|].
    apply Hne. apply list_elem_of_lookup. eauto.
  - constructor.
    + eapply (sorted_ext (fun w => cl_lru (line_at cache w))); [|done]. intros w Hw. by rewrite Hother by auto.
    + apply Forall_forall. intros w Hw. rewrite Hat, Hother by auto. simpl. specialize (Hn w Hw). lia.
  - intros w. rewrite elem_of_cons, Hv. destruct (decide (w = i)) as [->|Hw].
    + rewrite Hat. naive_solver.
    + rewrite Hother by done. naive_solver.
  - intros w [->|Hw]%elem_of_cons; [by rewrite Hat|]. rewrite Hother by auto. specialize (Hn w Hw). lia.
  - done.
Qed.

(** ** The two searches *)

Section search.
Context (cache : list SimCacheLine) (num_lines : N) (Hlines : num_lines <= lenN cache).

Lemma line_in w : w < num_lines -> idx cache w = Some (line_at cache w).
Proof. intros Hw. destruct (idx_is_Some cache w) as [x Hx]; [lia|]. unfold line_at. by rewrite Hx. Qed.

Lemma hits_line_spec tag w :
  w < num_lines -> hits_line cache num_lines tag w = cl_valid (line_at cache w) && (cl_tag (line_at cache w) =? tag).
Proof. intros Hw. unfold hits_line. by rewrite (proj2 (N.ltb_lt _ _) Hw), (line_in _ Hw). Qed.

Lemma victim_scan_empty idxs lru_idx min_lru w :
  Forall (fun i => i < num_lines) idxs -> w ∈ idxs -> cl_valid (line_at cache w) = false ->
  exists i j, victim_scan cache num_lines idxs lru_idx min_lru = (Some i, j) /\ i ∈ idxs /\ cl_valid (line_at cache i) = false.
Proof.
  revert lru_idx min_lru. induction idxs as [|i idxs IH]; intros lru_idx min_lru Hall Hw Hv; [inversion Hw|].
  apply Forall_cons in Hall as [Hi Hall]. simpl. rewrite (proj2 (N.ltb_lt _ _) Hi), (line_in _ Hi).
  destruct (cl_valid (line_at cache i)) eqn:Hvi; simpl; [|exists i, lru_idx; split; [done|]; split; [left|done]].
  assert (w ∈ idxs) as Hw' by (apply elem_of_cons in Hw as [->|?]; [congruence|done]).
  case_match.
  - destruct (IH i (cl_lru (line_at cache i)) Hall Hw' Hv) as (j & j' & -> & Hj & ?). exists j, j'. split; [done|]. split; [by right|done].
  - destruct (IH lru_idx min_lru Hall Hw' Hv) as (j & j' & -> & Hj & ?). exists j, j'. split; [done|]. split; [by right|done].
Qed.

Lemma victim_scan_full idxs lru_idx min_lru v :
  Forall (fun i => i < num_lines /\ cl_valid (line_at cache i) = true) idxs ->
  (forall w, w ∈ idxs -> w <> v -> cl_lru (line_at cache v) < cl_lru (line_at cache w)) ->
  (v ∈ idxs /\ cl_lru (line_at cache v) < min_lru \/ lru_idx = v /\ min_lru = cl_lru (line_at cache v)) ->
  victim_scan cache num_lines idxs lru_idx min_lru = (None, v).
Proof.
  revert lru_idx min_lru. induction idxs as [|i idxs IH]; intros lru_idx min_lru Hall Hmin Hv.
  { destruct Hv as [[Hv _]|[-> _]]; [inversion Hv|done]. }
  apply Forall_cons in Hall as [[Hi Hvi] Hall]. simpl. rewrite (proj2 (N.ltb_lt _ _) Hi), (line_in _ Hi), Hvi. simpl.
  assert (forall w, w ∈ idxs -> w <> v -> cl_lru (line_at cache v) < cl_lru (line_at cache w)) as Hmin'.
  { intros w Hw. apply Hmin. by right. }
  destruct (decide (i = v)) as [->|Hne].
  - case_match eqn:Hlt; [apply IH; auto|]. bool_to_prop. destruct Hv as [[_ ?]|?]; [lia|]. apply IH; auto.
  - specialize (Hmin i ltac:(left) Hne). case_match eqn:Hlt; bool_to_prop; apply IH; auto.
    + left. destruct Hv as [[[->|?]%elem_of_cons _]|[-> ->]]; [done|done|lia].
    + destruct Hv as [[[->|?]%elem_of_cons ?]|?]; [done|auto|auto].
Qed.
End search.

(** ** One access *)

Section access.
Context (cfg : CacheConfig) (num_sets : N).
Local Abbreviation assoc := (cfg_assoc cfg).
Local Abbreviation num_lines := (cfg_num_lines cfg).
Hypothesis Hassoc : 0 < assoc.
Hypothesis Hsets : num_sets = num_lines / assoc.
Hypothesis Hpos : 0 < num_sets.
Hypothesis Hmax : num_lines <= 1024.
Hypothesis Hbytes : 0 < cfg_line_bytes cfg.

Lemma ways_in set w : set < num_sets -> w ∈ ways assoc set -> w < num_lines.
Proof.
  unfold ways. rewrite elem_of_rangeN. intros Hs Hw. pose proof (N.Div0.mul_div_le num_lines assoc). nia.
Qed.

(** What an access leaves behind: line [i] of the set is written. *)
Record accessed (s : CacheSim) (set tag i : N) (hit evict : bool) (s' : CacheSim) : Prop := {
  ac_cache : sim_cache s' = upd (sim_cache s) i (mkLine true tag (sim_lru_counter s + 1));
  ac_way : i ∈ ways assoc set;
  ac_counter : sim_lru_counter s' = sim_lru_counter s + 1;
  ac_stats : sim_stats s' = mkCacheStats (cs_accesses (sim_stats s) + 1) (bump hit (cs_hits (sim_stats s)))
    (bump (negb hit) (cs_misses (sim_stats s))) (bump evict (cs_evictions (sim_stats s)))
}.

(** The counters cannot overflow before the time stamp does. *)
Record counts (s : CacheSim) : Prop := {
  ct_accesses : cs_accesses (sim_stats s) <= sim_lru_counter s;
  ct_hits : cs_hits (sim_stats s) <= sim_lru_counter s;
  ct_misses : cs_misses (sim_stats s) <= sim_lru_counter s;
  ct_evictions : cs_evictions (sim_stats s) <= sim_lru_counter s
}.

Lemma accessed_counts s set tag i hit evict s' : counts s -> accessed s set tag i hit evict s' -> counts s'.
Proof.
  intros [] [_ _ Hc Hst]. split; rewrite Hst, Hc; cbn [cs_accesses cs_hits cs_misses cs_evictions]; try lia;
    unfold bump; case_match; lia.
Qed.

(** The set-level decision of [cache_access]. *)
Definition choose (s : CacheSim) (set tag : N) : option N * (option N * N) :=
  (find_first (hits_line (sim_cache s) num_lines tag) (ways assoc set),
   victim_scan (sim_cache s) num_lines (ways assoc set) (set * assoc) usize_max).

Lemma cache_access_run s addr i hit evict :
  lenN (sim_cache s) = 1024 -> counts s -> sim_lru_counter s + 1 < u64_limit ->
  let set := addr / cfg_line_bytes cfg mod num_sets in
  let tag := addr / cfg_line_bytes cfg / num_sets in
  i ∈ ways assoc set ->
  (hit = true /\ evict = false /\ fst (choose s set tag) = Some i /\ cl_valid (line_at (sim_cache s) i) = true /\ cl_tag (line_at (sim_cache s) i) = tag \/
   hit = false /\ evict = false /\ fst (choose s set tag) = None /\ fst (snd (choose s set tag)) = Some i \/
   hit = false /\ evict = true /\ choose s set tag = (None, (None, i)) /\ cl_valid (line_at (sim_cache s) i) = true) ->
  exists s', cache_access cfg num_sets num_lines addr s = Ret s' /\ accessed s set tag i hit evict s'.
Proof.
  intros Hlen [] Hroom set tag Hi Hcase.
  assert (set < num_sets) as Hset by (apply N.mod_lt; lia).
  pose proof (ways_in _ _ Hset Hi) as Hil. assert (i < lenN (sim_cache s)) as Hic by lia.
  unfold cache_access. rewrite !(add64_ok _ 1) by lia. cbn [obind]. unfold div64.
  replace (cfg_line_bytes cfg =? 0) with false by (symmetry; apply N.eqb_neq; lia). cbn [obind]. fold set tag.
  pose proof (N.Div0.mul_div_le num_lines assoc) as Hml.
  unfold mul64. replace (set * assoc <? u64_limit) with true by (symmetry; apply N.ltb_lt; unfold u64_limit; nia). cbn [obind].
  rewrite add64_ok by (unfold u64_limit; nia). cbn [obind].
  replace (set * assoc + assoc - set * assoc) with assoc by lia. fold (ways assoc set).
  destruct (arr_get_ok (sim_cache s) i Hic) as (li & Hli & Hg).
  assert (line_at (sim_cache s) i = li) as Hat by (unfold line_at; by rewrite Hli).
  unfold choose in Hcase. cbn [fst snd] in Hcase. rewrite Hat in Hcase.
  destruct Hcase as [(-> & -> & -> & Hv & Ht)|[(-> & -> & -> & Hs)|(-> & -> & [= -> ->] & Hv)]].
  - rewrite Hg. cbn [obind]. eexists. split; [done|]. split; try done. simpl. unfold with_lru. by rewrite Hv, Ht.
  - destruct victim_scan as [o j]. simpl in Hs. subst o. rewrite (proj2 (N.ltb_lt _ _) Hil), arr_set_ok by done.
    cbn [obind]. eexists. split; [done|]. by split.
  - rewrite (proj2 (N.ltb_lt _ _) Hil), Hg. cbn [obind]. eexists. split; [done|]. split; try done. simpl. unfold with_tag. by rewrite Hv.
Qed.

(** The branch that [cache_access] takes and the line it writes. *)
Definition decides (s : CacheSim) (set tag i : N) (hit evict : bool) : Prop :=
  hit = true /\ evict = false /\ fst (choose s set tag) = Some i /\ cl_valid (line_at (sim_cache s) i) = true /\ cl_tag (line_at (sim_cache s) i) = tag \/
  hit = false /\ evict = false /\ fst (choose s set tag) = None /\ fst (snd (choose s set tag)) = Some i \/
  hit = false /\ evict = true /\ choose s set tag = (None, (None, i)) /\ cl_valid (line_at (sim_cache s) i) = true.

(** The outcome at set level: [i] is written and the list is the reference's. *)
Definition set_updated (s : CacheSim) (set tag : N) (l : list N) : Prop :=
  exists i hit evict l' ws', lru_access assoc tag l = (hit, evict, l') /\ i ∈ ways assoc set /\ decides s set tag i hit evict /\
    set_repr (upd (sim_cache s) i (mkLine true tag (sim_lru_counter s + 1))) assoc (sim_lru_counter s + 1) set ws' l'.

Section one_set.
Context (s : CacheSim) (set tag : N) (ws l : list N).
Hypothesis Hlen : lenN (sim_cache s) = 1024.
Hypothesis Hset : set < num_sets.
Hypothesis Hr : set_repr (sim_cache s) assoc (sim_lru_counter s) set ws l.

Lemma way_in_cache i : i ∈ ways assoc set -> i < lenN (sim_cache s).
Proof. intros Hi. pose proof (ways_in _ _ Hset Hi). lia. Qed.

Lemma set_hit i :
  find_first (hits_line (sim_cache s) num_lines tag) (ways assoc set) = Some i -> set_updated s set tag l.
Proof.
  intros Hf. destruct (find_first_true _ _ _ Hf) as [Hi Hh].
  rewrite hits_line_spec in Hh by (lia || by apply (ways_in set)). apply andb_prop in Hh as [Hv Ht%N.eqb_eq].
  assert (i ∈ ws) as Hiw by (by apply (sr_valid _ _ _ _ _ _ Hr)).
  apply list_elem_of_split in Hiw as (w1 & w2 & ->). destruct Hr as [Htags Hs Hvalid Hn Hd].
  pose proof (sorted_NoDup (fun w => cl_lru (line_at (sim_cache s) w)) _ Hs) as Hnd.
  rewrite fmap_app, fmap_cons, Ht in Htags. subst l. apply NoDup_app in Hd as (Hd1 & Hd12 & [Hd2 Hd2']%NoDup_cons).
  assert (tag ∉ (fun w => cl_tag (line_at (sim_cache s) w)) <$> w1) as Ht1 by (intros H; apply (Hd12 _ H); left).
  assert (forall k, tag ∉ k -> List.filter (fun t => negb (t =? tag)) k = k) as Hflt.
  { clear. intros k Hk. induction k as [|x k IH]; simpl; [done|]. apply not_elem_of_cons in Hk as [Hx Hk].
    rewrite (proj2 (N.eqb_neq x tag)) by done. simpl. by rewrite IH. }
  exists i, true, false, (tag :: ((fun w => cl_tag (line_at (sim_cache s) w)) <$> w1 ++ w2)), (i :: w1 ++ w2).
  split; [|split; [done|split; [by left|]]].
  - unfold lru_access. rewrite bool_decide_eq_true_2 by set_solver. do 2 f_equal.
    rewrite List.filter_app. simpl. rewrite N.eqb_refl. simpl. by rewrite !Hflt, fmap_app.
  - apply set_repr_touch; [done|by apply way_in_cache|by eapply sorted_remove| | |].
    + apply NoDup_app in Hnd as (Hn1 & Hn12 & [Hn2 _]%NoDup_cons).
      intros w. specialize (Hvalid w). rewrite elem_of_app, elem_of_cons in Hvalid. rewrite elem_of_app.
      split; [intros Hw|intros (? & ? & ?); naive_solver].
      destruct (proj1 Hvalid) as [? ?]; [naive_solver|]. split; [done|]. split; [|done]. intros ->.
      destruct Hw as [Hw|Hw]; [apply (Hn12 _ Hw); left|done].
    + intros w Hw. apply Hn. set_solver.
    + rewrite fmap_app. constructor; [set_solver|]. apply NoDup_app. split; [done|]. split; [|done].
      intros x Hx Hx'. apply (Hd12 _ Hx). by right.
Qed.

Lemma set_miss_tag :
  find_first (hits_line (sim_cache s) num_lines tag) (ways assoc set) = None -> tag ∉ l.
Proof.
  intros Hf Ht. apply (repr_tag _ _ _ _ _ _ Hr) in Ht as (w & Hw & Hv & Ht).
  rewrite find_first_None in Hf. specialize (Hf w Hw). rewrite hits_line_spec in Hf by (lia || by apply (ways_in set)).
  by rewrite Hv, Ht, N.eqb_refl in Hf.
Qed.

Lemma set_fill w :
  find_first (hits_line (sim_cache s) num_lines tag) (ways assoc set) = None ->
  w ∈ ways assoc set -> cl_valid (line_at (sim_cache s) w) = false -> set_updated s set tag l.
Proof.
  intros Hf Hw Hv. pose proof (set_miss_tag Hf) as Htag.
  destruct (victim_scan_empty (sim_cache s) num_lines ltac:(lia) (ways assoc set) (set * assoc) usize_max w) as (i & j & Hsc & Hi & Hvi); [|done..|].
  { apply Forall_forall. intros x. by apply ways_in. }
  exists i, false, false, (tag :: l), (i :: [] ++ ws). split; [|split; [done|split]].
  - unfold lru_access. rewrite bool_decide_eq_false_2 by done.
    by rewrite (proj2 (N.ltb_lt _ _) (repr_room _ _ _ _ _ _ Hr w Hw Hv)).
  - right. left. unfold choose. by rewrite Hf, Hsc.
  - rewrite (sr_tags _ _ _ _ _ _ Hr) in Htag |- *. destruct Hr as [Htags Hs Hvalid Hn Hd].
    apply (set_repr_touch _ _ _ _ []); [done|by apply way_in_cache|done| |done|].
    + intros x. rewrite Hvalid. split; [|naive_solver]. intros [? Hx]. split; [done|]. split; [congruence|done].
    + subst l. by constructor.
Qed.

Lemma set_evict :
  find_first (hits_line (sim_cache s) num_lines tag) (ways assoc set) = None ->
  sim_lru_counter s + 1 < u64_limit ->
  (forall w, w ∈ ways assoc set -> cl_valid (line_at (sim_cache s) w) = true) -> set_updated s set tag l.
Proof.
  intros Hf Hroom Hall. pose proof (set_miss_tag Hf) as Htag. pose proof (repr_full _ _ _ _ _ _ Hr Hall) as Hfull.
  rewrite (repr_length _ _ _ _ _ _ Hr) in Hfull.
  destruct (exists_last (l := ws)) as (w1 & v & ->); [intros ->; unfold lenN in Hfull; simpl in Hfull; lia|].
  destruct Hr as [Htags Hs Hvalid Hn Hd]. pose proof (sorted_NoDup (fun w => cl_lru (line_at (sim_cache s) w)) _ Hs) as Hnd.
  assert (v ∈ ways assoc set) as Hv by (apply Hvalid; set_solver).
  assert (forall w, w ∈ w1 -> cl_lru (line_at (sim_cache s) v) < cl_lru (line_at (sim_cache s) w)) as Hmin.
  { intros w Hw. clear -Hs Hw. induction w1 as [|x w1 IH]; [inversion Hw|]. simpl in Hs.
    apply StronglySorted_inv in Hs as [Hs Hx]. apply elem_of_cons in Hw as [->|Hw]; [|by apply IH].
    rewrite Forall_forall in Hx. apply Hx. set_solver. }
  assert (victim_scan (sim_cache s) num_lines (ways assoc set) (set * assoc) usize_max = (None, v)) as Hsc.
  { apply victim_scan_full; [lia| | |].
    - apply Forall_forall. intros x Hx. split; [by apply (ways_in set)|auto].
    - intros w Hw Hne. apply Hmin. assert (w ∈ w1 ++ [v]) as Hin by (apply Hvalid; auto). set_solver.
    - left. split; [done|]. specialize (Hn v ltac:(set_solver)). unfold usize_max. lia. }
  exists v, false, true, (tag :: ((fun w => cl_tag (line_at (sim_cache s) w)) <$> w1 ++ [])), (v :: w1 ++ []).
  split; [|split; [done|split]].
  - unfold lru_access. rewrite bool_decide_eq_false_2 by done. rewrite Htags at 1. unfold lenN at 1. rewrite length_fmap.
    fold (lenN (w1 ++ [v])). rewrite Hfull, N.ltb_irrefl. rewrite Htags, fmap_app, app_nil_r. simpl. by rewrite removelast_last.
  - right. right. unfold choose. rewrite Hf, Hsc. auto.
  - apply set_repr_touch; [done|by apply way_in_cache|by rewrite app_nil_r; apply (sorted_remove _ w1 v []) in Hs; rewrite app_nil_r in Hs| | |].
    + apply NoDup_app in Hnd as (Hn1 & Hn12 & _). rewrite app_nil_r. intros x. specialize (Hvalid x).
      rewrite elem_of_app, list_elem_of_singleton in Hvalid. split; [|naive_solver].
      intros Hx. destruct (proj1 Hvalid) as [? ?]; [by left|]. split; [done|]. split; [|done]. intros ->. by apply (Hn12 v Hx); left.
    + intros x Hx. apply Hn. set_solver.
    + rewrite app_nil_r. rewrite Htags, fmap_app in Hd, Htag. apply NoDup_app in Hd as (Hd & _ & _). constructor; [set_solver|done].
Qed.

Lemma set_access : sim_lru_counter s + 1 < u64_limit -> set_updated s set tag l.
Proof.
  intros Hroom. destruct (find_first (hits_line (sim_cache s) num_lines tag) (ways assoc set)) as [i|] eqn:Hf; [by eapply set_hit|].
  destruct (find_first (fun w => negb (cl_valid (line_at (sim_cache s) w))) (ways assoc set)) as [w|] eqn:He.
  - apply find_first_true in He as [? ?%negb_true_iff]. by apply (set_fill w).
  - apply set_evict; [done..|]. rewrite find_first_None in He. intros w Hw. by apply negb_false_iff, He.
Qed.
End one_set.

Lemma set_repr_other cache now set ws l i x :
  i ∉ ways assoc set -> set_repr cache assoc now set ws l -> set_repr (upd cache i x) assoc (now + 1) set ws l.
Proof.
  intros Hi [Htags Hs Hvalid Hn Hd].
  assert (forall w, w ∈ ways assoc set -> line_at (upd cache i x) w = line_at cache w) as Heq.
  { intros w Hw. unfold line_at. by rewrite idx_upd_ne by (intros ->; done). }
  assert (forall w, w ∈ ws -> line_at (upd cache i x) w = line_at cache w) as Heq' by (intros w Hw; apply Heq; by apply Hvalid).
  split; [| | | |done].
  - rewrite Htags. apply list_fmap_ext. intros k w Hw. rewrite Heq'; [done|]. apply list_elem_of_lookup. eauto.
  - eapply (sorted_ext (fun w => cl_lru (line_at cache w))); [|done]. intros w Hw. by rewrite Heq'.
  - intros w. rewrite Hvalid. split; intros [Hw ?]; by rewrite Heq in *.
  - intros w Hw. rewrite Heq' by done. specialize (Hn w Hw). lia.
Qed.

(** The simulator's state against the reference state. *)
Record cache_repr (s : CacheSim) (r : gmap N (list N) * CacheStats) : Prop := {
  cr_len : lenN (sim_cache s) = 1024;
  cr_counts : counts s;
  cr_stats : sim_stats s = r.2;
  cr_sets : forall set, set < num_sets ->
    exists ws, set_repr (sim_cache s) assoc (sim_lru_counter s) set ws (default [] (r.1 !! set))
}.

Lemma cache_access_step s r addr :
  cache_repr s r -> sim_lru_counter s + 1 < u64_limit ->
  exists s', cache_access cfg num_sets num_lines addr s = Ret s' /\
    cache_repr s' (lru_step assoc (cfg_line_bytes cfg) num_sets r addr) /\ sim_lru_counter s' = sim_lru_counter s + 1.
Proof.
  intros [Hlen Hc Hst Hsets'] Hroom. destruct r as [sets st]. simpl in Hst, Hsets'.
  set (set := addr / cfg_line_bytes cfg mod num_sets). set (tag := addr / cfg_line_bytes cfg / num_sets).
  assert (set < num_sets) as Hset by (apply N.mod_lt; lia). destruct (Hsets' set Hset) as [ws Hr].
  destruct (set_access s set tag ws _ Hlen Hset Hr Hroom) as (i & hit & evict & l' & ws' & Hl & Hi & Hdec & Hr').
  destruct (cache_access_run s addr i hit evict Hlen Hc Hroom Hi Hdec) as (s' & Hrun & Hacc).
  exists s'. split; [done|]. pose proof (accessed_counts _ _ _ _ _ _ _ Hc Hacc) as Hc'. destruct Hacc as [Hcache _ Hcnt Hst'].
  split; [|done]. unfold lru_step. fold set tag. rewrite Hl. split; simpl.
  - by rewrite Hcache, lenN_upd.
  - done.
  - by rewrite Hst', Hst.
  - intros k Hk. rewrite Hcache, Hcnt. destruct (decide (set = k)) as [<-|Hne].
    + rewrite lookup_insert_eq. by exists ws'.
    + rewrite lookup_insert_ne by done. destruct (Hsets' k Hk) as [wk Hrk]. exists wk. apply set_repr_other; [|done].
      intros Hik. apply Hne. by eapply ways_disjoint.
Qed.

Lemma cache_run addrs s r :
  cache_repr s r -> sim_lru_counter s + lenN addrs < u64_limit ->
  exists s', for_each addrs (cache_access cfg num_sets num_lines) s = Ret s' /\
    sim_stats s' = (foldl (lru_step assoc (cfg_line_bytes cfg) num_sets) r addrs).2.
Proof.
  revert s r. induction addrs as [|addr addrs IH]; intros s r Hr Hroom; simpl.
  - exists s. by destruct Hr.
  - assert (lenN (addr :: addrs) = 1 + lenN addrs) as Hl by (unfold lenN; simpl; lia).
    destruct (cache_access_step s r addr Hr) as (s' & -> & Hr' & Hcnt); [lia|]. simpl. apply IH; [done|lia].
Qed.

Lemma CacheSim_init_repr : cache_repr CacheSim_init (∅, CacheStats_zero).
Proof.
  split; [apply lenN_replicate|by split|done|]. intros set Hset. exists []. cbn [fst]. rewrite lookup_empty. split.
  - done.
  - constructor.
  - intros w. split; [by intros ?%elem_of_nil|]. intros [Hw Hv].
    pose proof (ways_in _ _ Hset Hw). unfold line_at, CacheSim_init in Hv. cbn [sim_cache] in Hv. by rewrite idx_replicate in Hv by lia.
  - by intros w ?%elem_of_nil.
  - constructor.
Qed.
End access.

Lemma cache_lru_spec cfg addrs :
  0 < cfg_line_bytes cfg -> cfg_num_lines cfg <= 1024 -> lenN addrs < u64_limit ->
  simulate_cache cfg addrs =
    Ret (if (cfg_assoc cfg =? 0) || (cfg_num_lines cfg <? cfg_assoc cfg) then CacheStats_zero
         else lru_stats (cfg_assoc cfg) (cfg_line_bytes cfg) (cfg_num_lines cfg / cfg_assoc cfg) addrs).
Proof.
  intros Hb Hm Hl. unfold simulate_cache. destruct (cfg_assoc cfg =? 0) eqn:Ha; [done|]. cbn [orb].
  destruct (cfg_num_lines cfg <? cfg_assoc cfg) eqn:Hlt; [by rewrite orb_true_r|]. bool_to_prop.
  replace (cfg_num_lines cfg =? 0) with false by (symmetry; apply N.eqb_neq; lia). cbn [orb].
  assert (0 < cfg_num_lines cfg / cfg_assoc cfg) as Hpos by (apply N.div_str_pos; lia).
  replace (cfg_num_lines cfg / cfg_assoc cfg =? 0) with false by (symmetry; apply N.eqb_neq; lia).
  rewrite N.min_l by done.
  destruct (cache_run cfg (cfg_num_lines cfg / cfg_assoc cfg) ltac:(lia) eq_refl Hpos Hm Hb addrs CacheSim_init (∅, CacheStats_zero))
    as (s' & -> & Hst).
  - apply CacheSim_init_repr; done || lia.
  - done.
  - cbn [obind]. by rewrite Hst.
Qed.

(** C40: The cache simulator implements least-recently-used replacement.  For every
    configuration with [0 < assoc <= lines <= 1024] and a non-zero line size, and
    every sequence of addresses, the time-stamp implementation reports the same
    accesses, hits, misses and evictions as the definition that keeps each set as a
    list ordered by recency; for a configuration it cannot simulate it reports zero
    everywhere, and it never panics. *)
Theorem cache_is_lru cfg addrs :
  0 < cfg_line_bytes cfg -> cfg_num_lines cfg <= 1024 -> lenN addrs < u64_limit ->
  simulate_cache cfg addrs =
    Ret (if (cfg_assoc cfg =? 0) || (cfg_num_lines cfg <? cfg_assoc cfg) then CacheStats_zero
         else lru_stats (cfg_assoc cfg) (cfg_line_bytes cfg) (cfg_num_lines cfg / cfg_assoc cfg) addrs).
Proof. apply cache_lru_spec. Qed.

Lemma cache_is_lru_witness :
  simulate_cache (mkCacheConfig 2 4 64) [0; 128; 0; 256; 128; 64] = Ret (mkCacheStats 6 1 5 2).
Proof. apply (cache_is_lru (mkCacheConfig 2 4 64) [0; 128; 0; 256; 128; 64]); vm_compute; congruence. Defined.
