(* ===== verification/Service.v ===== *)
(** * Kernel services

    The services of [kernel/shell/mod.rs] (key-value store, log, file system,
    devices, synchronisation) are tasks with one loop each: receive a request,
    check the capability of its sender, act on a private store, point slot 1 of
    the service's own table at the sender and send the reply there.  This file
    holds the loop and what the services share; the request handlers are in
    files of their own.  [Handler] is the contract between the two: a handler
    that meets it answers every request it accepts ([request_served] in [Clients]). *)

From S2P Require Import Prelude Ring Preempt Trace Capability AuditTrail Message Machine Frames.
From S2P Require Import Task Scheduler Kernel Switch Scheduling Spawn Contexts Ipc Rendezvous Messaging.
Local Open Scope N_scope.

(** ** The capability check *)

(** [sched.get_task(sender)] and the scan of its slots for a capability that
    satisfies [allows]. *)
Definition sender_holds (allows : Capability -> bool) (sender : TaskId) : K bool :=
  do* lock_sched in
  let* ot := kget_task sender in
  do* unlock_sched in
  kret match ot with
       | Some task => existsb (fun cap_opt => match cap_opt with Some cap => allows cap | None => false end)
                        (slots (t_cap_table task))
       | None => false
       end.

(** ** Replies *)

Definition reply_capability (base : N) (sender : TaskId) : outcome Capability :=
  let! id := add64 base sender in
  Ret (mkCap (IpcChannel sender) true true false false id None).

(** [my_task.cap_table.slots[1] = Some(Capability { .. })] under the lock. *)
Definition install_reply_channel (me : TaskId) (base : N) (sender : TaskId) : K unit :=
  do* lock_sched in
  let* ot := kget_task me in
  match ot with
  | None => klift Panic
  | Some my_task =>
      let* cap := klift (reply_capability base sender) in
      let* sl := klift (arr_set (slots (t_cap_table my_task)) 1 (Some cap)) in
      do* kupdate_task me (set_t_cap_table (mkCapTable sl)) in
      unlock_sched
  end.

(** ** The loop *)

(** A service: its task, the base of the identities it gives its reply
    channels, the tag of its replies, and its request handler over a private
    store, which returns the bytes to reply. *)
Record Service (St : Type) : Type := mkService {
  sv_task : TaskId;
  sv_base : N;
  sv_tag : IpcTag;
  sv_handle : Message -> St -> K (list N * St)
}.
Arguments mkService {St} _ _ _ _.
Arguments sv_task {St} _.
Arguments sv_base {St} _.
Arguments sv_tag {St} _.
Arguments sv_handle {St} _ _ _.

Section service.
Context `{L : Layout}.

(** One iteration of [loop] in a service's main function. *)
Definition service_round {St} (sv : Service St) (fuel : nat) (st : St) : R St :=
  let+ r := sys_receive_typed fuel in
  match r with
  | Ok msg =>
      let+ (reply, st') := rlift (sv_handle sv msg st) in
      let+ _ := rlift (install_reply_channel (sv_task sv) (sv_base sv) (msg_sender msg)) in
      let+ _ := sys_send_typed fuel 1 (IpcTag_as_u16 (sv_tag sv)) 1 reply in
      rret st'
  | Err _ => let+ _ := yield_cpu in rret st
  end.

Fixpoint service_main {St} (sv : Service St) (rounds fuel : nat) (st : St) : R St :=
  match rounds with
  | O => fun _ => OutOfFuel
  | S rounds' => let+ st' := service_round sv fuel st in service_main sv rounds' fuel st'
  end.

(** [ensure_*_service]: create the service's task unless its slot is taken. *)
Definition ensure_service (me : TaskId) (entry : N) : K unit :=
  do* lock_sched in
  let* present := kget (fun k => is_some (task_slot (k_sched k) me)) in
  do* (if present : bool then kret tt
       else
         let* caps := fun k =>
           match CapTable_insert CapTable_new (mkCap (IpcChannel 64) true true false false 0 None) (k_amb k) with
           | (Ok _, ct, a) => Ret (ct, set_k_amb a k)
           | (Err _, _, _) => Panic
           end in
         let* t := Task_new me entry caps in
         do* kmod (on_sched (put_slot me (Some t))) in
         bump_tasks_spawned) in
  unlock_sched.
End service.

(** ** The contract of a handler *)

(** A request as the kernel builds it. *)
Record request_ok (msg : Message) : Prop := {
  rq_payload : lenN (msg_payload msg) = 128;
  rq_len : msg_len msg <= 128;
  rq_bytes : Forall (fun b => b < 256) (msg_payload msg);
  rq_sender : msg_sender msg < MAX_TASKS
}.

Lemma byte_list l : forallb (fun b => b <? 256) l = true -> Forall (fun b => b < 256) l.
Proof. intros H. rewrite forallb_forall in H. apply List.Forall_forall. intros b Hb. by apply N.ltb_lt, H. Qed.

(** Only the trace ring differs. *)
Definition only_traced (k k' : Kernel) : Prop := exists a, traced (k_amb k) a /\ k' = set_k_amb a k.

(** On a request it accepts the handler returns, takes its store from [inv] to
    [inv'], gives a reply that fits a message, and does not touch the kernel. *)
Class Handler {St} (sv : Service St) (inv inv' : St -> Prop) (accepts : Message -> Prop) : Prop := {
  handler_base : sv_base sv + MAX_TASKS < u64_limit;
  handler_answers msg st k :
    kernel_wf k -> request_ok msg -> accepts msg -> inv st ->
    wp (sv_handle sv msg st) (fun '(reply, st') k' => inv' st' /\ lenN reply <= 128 /\ only_traced k k') k
}.

(** ** Shared lemmas *)

(** Some slot of the task holds a capability that [allows] accepts. *)
Definition holds (allows : Capability -> bool) (s : Scheduler) (id : TaskId) : bool :=
  match task_slot s id with
  | Some t => existsb (fun o => match o with Some cap => allows cap | None => false end) (slots (t_cap_table t))
  | None => false
  end.

Lemma holds_true allows s id :
  sched_wf s ->
  holds allows s id = true <-> exists t i cap, task_slot s id = Some t /\ cap_at (t_cap_table t) i = Some cap /\ allows cap = true.
Proof.
  intros Hs. unfold holds. destruct (task_slot s id) as [t|] eqn:Ht; [|naive_solver].
  rewrite existsb_exists. split.
  - intros (o & Ho & Hc). destruct o as [cap|]; [|done]. apply list_elem_of_In, elem_of_idx in Ho as [i Hi].
    exists t, i, cap. split; [done|]. split; [|done]. apply cap_at_idx; [|done]. apply (sched_wf_task _ Hs _ _ Ht).
  - intros (t' & i & cap & [= <-] & Hc & Ha). exists (Some cap). split; [|done].
    apply cap_at_Some in Hc as [_ Hc]. by apply list_elem_of_In, (idx_elem_of _ i).
Qed.

Lemma set_k_amb_id k : set_k_amb (k_amb k) k = k.
Proof. by destruct k. Qed.

Lemma only_traced_refl k : only_traced k k.
Proof. exists (k_amb k). split; [by repeat split|]. by rewrite set_k_amb_id. Qed.

Lemma only_traced_sched k k' : only_traced k k' -> k_sched k' = k_sched k.
Proof. by intros (a & _ & ->). Qed.

Lemma only_traced_frame k k' : only_traced k k' -> ipc_frame k (k_sched k) (k_ipc_deliveries k) k'.
Proof. intros (a & Ha & ->). by apply ipc_frame_traced. Qed.

#[export] Hint Resolve only_traced_refl : kernel.

Lemma wp_sender_holds allows sender (Q : bool -> Kernel -> Prop) k :
  kernel_wf k -> Q (holds allows (k_sched k) sender) k -> wp (sender_holds allows sender) Q k.
Proof.
  intros [Hs Hl _] HQ. unfold sender_holds, kget_task. apply wp_kbind, wp_lock_sched; [done|].
  apply wp_kbind, wp_kget, wp_kbind, wp_unlock_sched, wp_kret. ksimp. rewrite get_task_wf by done.
  unfold holds in HQ. destruct k. simpl in *. by subst.
Qed.

Lemma wp_ktrace_only m p q (Q : unit -> Kernel -> Prop) k :
  kernel_wf k -> (forall k', kernel_wf k' -> only_traced k k' -> Q tt k') -> wp (ktrace m p q) Q k.
Proof.
  intros [Hs Hl Ha] HQ. apply wp_ktrace. intros a Htr. apply HQ; [by split|]. by exists a.
Qed.

(** ** Reply buffers *)

(** A zeroed buffer of [n] bytes whose first bytes are [pre]; messages have 128. *)
Definition npad (n : nat) (pre : list N) : list N := pre ++ replicate (n - length pre) 0.
Abbreviation zpad := (npad 128).

Lemma npad_len n pre : (length pre <= n)%nat -> lenN (npad n pre) = N.of_nat n.
Proof. intros. unfold npad, lenN. rewrite length_app, length_replicate. lia. Qed.

Lemma npad_copy n a pre src :
  a = lenN pre -> (length pre + length src <= n)%nat -> copy_at (npad n pre) a src = Ret (npad n (pre ++ src)).
Proof.
  intros -> Hlen. rewrite copy_at_ok by (rewrite npad_len; unfold lenN; lia). f_equal. unfold npad.
  replace (N.to_nat (lenN pre)) with (length pre) by (unfold lenN; lia). rewrite take_app_length.
  rewrite <- app_assoc. do 2 f_equal. rewrite drop_app_ge by (unfold lenN; lia). rewrite drop_replicate. f_equal.
  rewrite length_app. unfold lenN. lia.
Qed.

Lemma npad_set n a pre x : a = lenN pre -> (length pre < n)%nat -> arr_set (npad n pre) a x = Ret (npad n (pre ++ [x])).
Proof.
  intros -> Hp. rewrite arr_set_ok by (rewrite npad_len; unfold lenN; lia). f_equal. unfold npad.
  replace (n - length pre)%nat with (S (n - length (pre ++ [x]))) by (rewrite length_app; simpl; lia). apply upd_pad.
Qed.

Lemma npad_slice n a pre : a = lenN pre -> (length pre <= n)%nat -> slice (npad n pre) 0 a = Ret pre.
Proof.
  intros -> Hlen. rewrite slice_ok by (rewrite ?npad_len; unfold lenN; lia). f_equal. unfold npad, lenN.
  rewrite N.sub_0_r, Nat2N.id. apply take_app_length.
Qed.

Lemma zpad_nil : replicate 128 0 = zpad [].
Proof. done. Qed.
Lemma zpad_zero : replicate 128 0 = zpad [0].
Proof. done. Qed.

Lemma zpad_len pre : (length pre <= 128)%nat -> lenN (zpad pre) = 128.
Proof. apply npad_len. Qed.

Lemma zpad_copy a pre src :
  a = lenN pre -> (length pre + length src <= 128)%nat -> copy_at (zpad pre) a src = Ret (zpad (pre ++ src)).
Proof. apply npad_copy. Qed.

Lemma zpad_set a pre x : a = lenN pre -> (length pre < 128)%nat -> arr_set (zpad pre) a x = Ret (zpad (pre ++ [x])).
Proof. apply npad_set. Qed.

Lemma zpad_slice a pre : a = lenN pre -> (length pre <= 128)%nat -> slice (zpad pre) 0 a = Ret pre.
Proof. apply npad_slice. Qed.

(** ** One round *)

(** The service's control block after it has taken the request and pointed its
    reply channel at [sender]. *)
Definition answering (base : N) (sender : TaskId) (t : Task) : Task :=
  set_t_cap_table (mkCapTable (upd (slots (t_cap_table t)) 1
    (Some (mkCap (IpcChannel sender) true true false false (base + sender) None)))) (set_t_ipc_buffer None t).

Lemma answering_wf base sender t : task_wf t -> t_id (answering base sender t) = t_id t /\ task_wf (answering base sender t).
Proof. intros [Hc Hq]. split; [done|]. split; [by apply CapTable_upd_wf|done]. Qed.

Section round.
Context `{L : Layout}.

Lemma install_reply_spec me base sender t k :
  kernel_wf k -> task_slot (k_sched k) me = Some t -> base + sender < u64_limit ->
  exists sl, sl = upd (slots (t_cap_table t)) 1 (Some (mkCap (IpcChannel sender) true true false false (base + sender) None)) /\
  install_reply_channel me base sender k =
    Ret (tt, set_k_sched (get_task_mut (k_sched k) me (set_t_cap_table (mkCapTable sl))) k).
Proof.
  intros [Hs Hl Ha] Ht Hb. eexists. split; [done|].
  unfold install_reply_channel, kbind, lock_sched, kget_task, kget, kupdate_task, unlock_sched, kmod, klift, reply_capability.
  rewrite Hl. cbn [obind]. ksimp. rewrite get_task_wf, Ht by done. cbn [obind]. rewrite add64_ok by done. cbn [obind].
  pose proof (task_wf_caps _ (sched_wf_task _ Hs _ _ Ht)) as Hc. rewrite arr_set_ok by (rewrite Hc; done). cbn [obind].
  destruct k. simpl in *. by subst.
Qed.

(** Taking a delivered request. *)
Lemma receive_delivered n me t msg k :
  kernel_wf k -> s_current_task_id (k_sched k) = Some me -> task_slot (k_sched k) me = Some t ->
  mq_contents (t_msg_queue t) = [] -> t_ipc_buffer t = Some msg ->
  exists k', sys_receive_typed (S n) k = Ret (Done (Ok msg), k') /\
    ipc_frame k (get_task_mut (k_sched k) me (set_t_ipc_buffer None)) (k_ipc_deliveries k) k'.
Proof.
  intros Hk Hcur Ht Hq Hb. destruct (receive_enters (S n) me k Hk Hcur) as (k0 & Hf0 & ->).
  pose proof (ipc_frame_sched _ _ _ _ Hf0) as Hs0. pose proof (ipc_frame_deliveries _ _ _ _ Hf0) as Hd0.
  assert (kernel_wf k0) as Hk0 by by eapply ipc_frame_wf, Hk; [|apply Hk].
  destruct (receive_loop_step n me t k0 Hk0) as (o & s' & k1 & Hr & Hf1 & ->); [by rewrite Hs0|].
  destruct (receives_buffer _ _ _ _ _ msg Hr Hq Hb) as [-> ->]. exists k1. split; [done|].
  unfold receive_count in Hf1. rewrite Hq, Hb, Hs0, Hd0 in Hf1. by eapply ipc_frame_trans.
Qed.

(** The table once the request is answered. *)
Definition answered (me : TaskId) (base : N) (sender : TaskId) (m : Message) (s : Scheduler) : Scheduler :=
  get_task_mut (get_task_mut s me (answering base sender)) sender (handed m).

Lemma answered_slot me base sender m s j :
  sched_wf s -> me <> sender ->
  task_slot (answered me base sender m s) j =
    if decide (me = j) then answering base sender <$> task_slot s j
    else if decide (sender = j) then handed m <$> task_slot s j
    else task_slot s j.
Proof.
  intros Hs Hne. unfold answered.
  assert (sched_wf (get_task_mut s me (answering base sender))) by (apply get_task_mut_wf; [done|]; intros; by apply answering_wf).
  rewrite !get_task_mut_slot by done. repeat case_decide; congruence.
Qed.

Lemma service_round_spec {St} (sv : Service St) inv inv' accepts `{!Handler sv inv inv' accepts} n st msg t tc k :
  kernel_wf k -> depth_ok k -> s_current_task_id (k_sched k) = Some (sv_task sv) ->
  task_slot (k_sched k) (sv_task sv) = Some t -> mq_contents (t_msg_queue t) = [] -> t_ipc_buffer t = Some msg ->
  request_ok msg -> accepts msg -> inv st ->
  sv_task sv <> msg_sender msg -> task_slot (k_sched k) (msg_sender msg) = Some tc -> t_state tc = BlockedOnReceive ->
  exists reply st' m k1 k2 k',
    k_sched k1 = get_task_mut (k_sched k) (sv_task sv) (set_t_ipc_buffer None) /\
    sv_handle sv msg st k1 = Ret ((reply, st'), k2) /\ inv' st' /\
    service_round sv (S n) st k = Ret (Done st', k') /\
    build_message (sv_task sv) (sv_tag sv) 1 reply = Ret m /\ lenN reply <= 128 /\
    ipc_frame k (answered (sv_task sv) (sv_base sv) (msg_sender msg) m (k_sched k)) (wadd64 (k_ipc_deliveries k) 1) k'.
Proof.
  intros Hk Hd Hcur Ht Hq Hb Hreq Hacc Hinv Hne Htc Hst. set (me := sv_task sv) in *. set (c := msg_sender msg) in *.
  pose proof Hk as [Hs _ _]. pose proof (sched_wf_task _ Hs _ _ Ht) as Hwt.
  destruct (receive_delivered n me t msg k Hk Hcur Ht Hq Hb) as (k1 & Hrun1 & Hf1).
  pose proof (ipc_frame_sched _ _ _ _ Hf1) as Hs1.
  assert (kernel_wf k1) as Hk1 by (eapply ipc_frame_wf, Hk; [done|auto with kernel]).
  pose proof (handler_answers msg st k1 Hk1 Hreq Hacc Hinv) as ([reply st'] & k2 & Hrun2 & Hinv' & Hlen & Htr2)%wp_run.
  pose proof (ipc_frame_trans _ _ _ _ _ _ _ Hf1 (only_traced_frame _ _ Htr2)) as Hf2.
  pose proof (only_traced_sched _ _ Htr2) as Hs2. rewrite Hs1 in Hs2, Hf2. rewrite (ipc_frame_deliveries _ _ _ _ Hf1) in Hf2.
  assert (kernel_wf k2) as Hk2 by (eapply ipc_frame_wf, Hk; [done|auto with kernel]).
  destruct (install_reply_spec me (sv_base sv) c (set_t_ipc_buffer None t) k2 Hk2) as (sl & Hsl & Hrun3).
  { rewrite Hs2, get_task_mut_slot, decide_True, Ht by done. done. }
  { pose proof (handler_base (sv := sv)). pose proof (rq_sender _ Hreq) as Hsd. fold c in Hsd. lia. }
  rewrite Hs2 in Hrun3. rewrite get_task_mut_twice in Hrun3 by auto with kernel.
  rewrite (get_task_mut_ext _ _ t _ (answering (sv_base sv) c)) in Hrun3 by (done || by rewrite Hsl).
  set (s3 := get_task_mut (k_sched k) me (answering (sv_base sv) c)) in *. set (k3 := set_k_sched s3 k2) in *.
  assert (sched_wf s3) as Hws3 by (apply get_task_mut_wf; [done|]; intros; by apply answering_wf).
  assert (ipc_frame k s3 (k_ipc_deliveries k) k3) as Hf3.
  { destruct Hf2 as [(a & ->) ? ?]. split; [by exists a|done..]. }
  assert (kernel_wf k3) as Hk3 by by eapply ipc_frame_wf.
  destruct (send_to_waiting_frame n 1 (IpcTag_as_u16 (sv_tag sv)) 1 reply (sv_tag sv) me c tc k3) as (m & k' & Hm & Hrun4 & Hf4).
  - done.
  - by eapply ipc_frame_depth.
  - unfold check_envelope. rewrite (proj2 (N.ltb_ge _ _)) by done. by rewrite from_u16_as_u16.
  - change (k_sched k3) with s3. unfold s3. by rewrite get_task_mut_current.
  - change (k_sched k3) with s3. unfold channel_of, s3. rewrite get_task_mut_slot, decide_True, Ht by done. simpl.
    rewrite cap_at_upd, decide_True by (done || apply Hwt). done.
  - change (k_sched k3) with s3. unfold s3. by rewrite get_task_mut_slot, decide_False.
  - done.
  - exists reply, st', m, k1, k2, k'. repeat (split; [done|]). split.
    + unfold service_round, rbind at 1. rewrite Hrun1. cbn [obind res_bind].
      rewrite (rbind_rlift _ _ _ _ _ Hrun2). rewrite (rbind_rlift _ _ _ _ _ Hrun3). unfold rbind at 1. by rewrite Hrun4.
    + split; [done|]. split; [done|]. rewrite (ipc_frame_deliveries _ _ _ _ Hf3) in Hf4. by eapply ipc_frame_trans.
Qed.
End round.
