(* ===== verification/KvService.v ===== *)
(** * The key-value service

    Models the key-value service of [kernel/shell/mod.rs]: 32 slots of a 16-byte
    key and a 64-byte value, each guarded by [Resource::KVEntry] capabilities.
    [kv_history] relates every reply to the history of requests. *)

From S2P Require Import Prelude Ring Preempt Trace Capability AuditTrail Message Machine Frames.
From S2P Require Import Task Scheduler Kernel Switch Scheduling Spawn Contexts Ipc Rendezvous Messaging Service.
Local Open Scope N_scope.

Record KvSlot : Type := mkKvSlot { kv_key : list N; kv_value : list N }.
Definition KvSlot_new : KvSlot := mkKvSlot (replicate 16 0) (replicate 64 0).

Record KvStore : Type := mkKvStore { kv_slots : list KvSlot }.
Definition KvStore_new : KvStore := mkKvStore (replicate 32 KvSlot_new).

(** A [KVEntry] capability for [slot] with the right asked for, both in the
    resource and in the capability's own rights. *)
Definition kv_allows (slot : N) (require_write : bool) (cap : Capability) : bool :=
  match cap_resource cap with
  | KVEntry cap_slot readable writable =>
      (cap_slot =? slot) && (if require_write then writable && cap_write cap else readable && cap_read cap)
  | _ => false
  end.

Definition check_sender_cap (sender : TaskId) (slot : N) (require_write : bool) : K bool :=
  sender_holds (kv_allows slot require_write) sender.

Definition ensure_kv_service `{L : Layout} (kv_service_main : N) : K unit := ensure_service 82 kv_service_main.

(** A reply of one status byte. *)
Definition status (b : N) : list N := [b].

(** [KVGet], past its checks. *)
Definition kv_read (store : KvStore) (slot : N) : outcome (list N) :=
  let! s := arr_get (kv_slots store) slot in
  let! reply_payload := copy_at (replicate 128 0) 1 (kv_key s) in
  let! reply_payload := copy_at reply_payload 17 (kv_value s) in
  slice reply_payload 0 81.

(** [KVSet], past its checks. *)
Definition kv_write (store : KvStore) (slot : N) (payload : list N) : outcome KvStore :=
  let! key := slice payload 1 17 in
  let! value := slice payload 17 81 in
  let! sl := arr_set (kv_slots store) slot (mkKvSlot key value) in
  Ret (mkKvStore sl).

(** The [match msg.tag] of [kv_service_main]. *)
Definition kv_handle (msg : Message) (store : KvStore) : K (list N * KvStore) :=
  match msg_tag msg with
  | KVGet =>
      if msg_len msg <? 1 then kret (status 2, store)
      else
        let* slot := klift (arr_get (msg_payload msg) 0) in
        if 32 <=? slot then kret (status 2, store)
        else
          let* ok := check_sender_cap (msg_sender msg) slot false in
          if negb ok then kret (status 1, store)
          else let* reply := klift (kv_read store slot) in kret (reply, store)
  | KVSet =>
      if msg_len msg <? 81 then kret (status 2, store)
      else
        let* slot := klift (arr_get (msg_payload msg) 0) in
        if 32 <=? slot then kret (status 2, store)
        else
          let* ok := check_sender_cap (msg_sender msg) slot true in
          if negb ok then kret (status 1, store)
          else let* store' := klift (kv_write store slot (msg_payload msg)) in kret (status 0, store')
  | _ => kret (status 2, store)
  end.

(** [kv_service_main]: task 82, replies tagged [Raw]. *)
Definition kv_service : Service KvStore := mkService 82 8200 Raw kv_handle.

(** ** Specification *)

Record kv_wf (store : KvStore) : Prop := {
  kv_len : lenN (kv_slots store) = 32;
  kv_sizes : forall i s, idx (kv_slots store) i = Some s -> length (kv_key s) = 16%nat /\ length (kv_value s) = 64%nat
}.

Lemma KvStore_new_wf : kv_wf KvStore_new.
Proof.
  split; [done|]. intros i s Hs. apply idx_elem_of, elem_of_replicate in Hs as [-> _]. done.
Qed.

(** The slot a request names. *)
Definition req_slot (msg : Message) : N := default 0 (idx (msg_payload msg) 0).
(** Bytes [a..a+n] of the payload. *)
Definition field (a n : nat) (msg : Message) : list N := take n (drop a (msg_payload msg)).

Definition kv_at (store : KvStore) (i : N) : KvSlot := default KvSlot_new (idx (kv_slots store) i).

(** What the service does with a request, as a function of the sender's rights. *)
Definition kv_result (s : Scheduler) (msg : Message) (store : KvStore) : list N * KvStore :=
  let slot := req_slot msg in
  let may w := holds (kv_allows slot w) s (msg_sender msg) in
  match msg_tag msg with
  | KVGet =>
      if (msg_len msg <? 1) || (32 <=? slot) then (status 2, store)
      else if may false then (0 :: kv_key (kv_at store slot) ++ kv_value (kv_at store slot), store)
      else (status 1, store)
  | KVSet =>
      if (msg_len msg <? 81) || (32 <=? slot) then (status 2, store)
      else if may true then (status 0, mkKvStore (upd (kv_slots store) slot (mkKvSlot (field 1 16 msg) (field 17 64 msg))))
      else (status 1, store)
  | _ => (status 2, store)
  end.

Lemma kv_read_spec store slot :
  kv_wf store -> slot < 32 -> kv_read store slot = Ret (0 :: kv_key (kv_at store slot) ++ kv_value (kv_at store slot)).
Proof.
  intros [Hlen Hsz] Hslot. unfold kv_read, kv_at. destruct (arr_get_ok (kv_slots store) slot) as (s & Hs & ->); [lia|].
  rewrite Hs. cbn [obind from_option id]. destruct (Hsz _ _ Hs) as [Hk Hv].
  destruct s as [key value]. cbn [kv_key kv_value] in *.
  rewrite zpad_zero, (zpad_copy 1) by (done || simpl; lia). cbn [obind].
  rewrite zpad_copy by (rewrite ?lenN_app; unfold lenN; rewrite ?length_app; simpl; lia). cbn [obind].
  apply zpad_slice; unfold lenN; rewrite ?length_app; simpl; rewrite ?length_app; lia.
Qed.

Lemma kv_write_spec store slot msg :
  kv_wf store -> slot < 32 -> lenN (msg_payload msg) = 128 ->
  kv_write store slot (msg_payload msg) = Ret (mkKvStore (upd (kv_slots store) slot (mkKvSlot (field 1 16 msg) (field 17 64 msg)))).
Proof.
  intros [Hlen _] Hslot Hp. unfold kv_write. rewrite !slice_ok by lia. cbn [obind]. by rewrite arr_set_ok by lia.
Qed.

Lemma kv_write_wf store slot msg :
  kv_wf store -> lenN (msg_payload msg) = 128 -> kv_wf (mkKvStore (upd (kv_slots store) slot (mkKvSlot (field 1 16 msg) (field 17 64 msg)))).
Proof.
  intros [Hlen Hsz] Hp. split; simpl; [by rewrite lenN_upd|]. intros i s. rewrite idx_upd. case_decide; [|by apply Hsz].
  intros [= <-]. unfold field, lenN in *. simpl. rewrite !length_take, !length_drop. lia.
Qed.

Lemma kv_result_wf s msg store : kv_wf store -> request_ok msg -> kv_wf (kv_result s msg store).2.
Proof.
  intros Hst [Hp _ _ _]. unfold kv_result. repeat case_match; simpl; try done; by apply kv_write_wf.
Qed.

Lemma kv_result_len s msg store : kv_wf store -> lenN (kv_result s msg store).1 <= 128.
Proof.
  intros [Hlen Hsz]. unfold kv_result. repeat case_match; simpl; try (vm_compute; congruence).
  apply orb_false_iff in H0 as [_ H0]. bool_to_prop. unfold kv_at. destruct (idx_is_Some (kv_slots store) (req_slot msg)) as [x Hx]; [lia|].
  rewrite Hx. simpl. destruct (Hsz _ _ Hx). unfold lenN. simpl. rewrite length_app. lia.
Qed.

Lemma kv_handle_spec msg store k :
  kernel_wf k -> request_ok msg -> kv_wf store -> kv_handle msg store k = Ret (kv_result (k_sched k) msg store, k).
Proof.
  intros Hk [Hp _ _ _] Hst.
  assert (wp (kv_handle msg store) (fun r k' => r = kv_result (k_sched k) msg store /\ k' = k) k) as Hw.
  2: { apply wp_run in Hw as (r & k' & -> & -> & ->). done. }
  unfold kv_handle, kv_result, check_sender_cap.
  destruct (arr_get_ok (msg_payload msg) 0) as (slot & Hslot & Hget); [lia|]. unfold req_slot. rewrite Hslot. cbn [from_option id].
  destruct (msg_tag msg); try by apply wp_kret.
  - destruct (msg_len msg <? 1); cbn [orb]; [by apply wp_kret|]. apply wp_kbind. eapply wp_klift; [done|].
    destruct (32 <=? slot) eqn:H32; [by apply wp_kret|]. bool_to_prop. apply wp_kbind, wp_sender_holds; [done|].
    destruct (holds _ _ _); cbn [negb]; [|by apply wp_kret]. apply wp_kbind. eapply wp_klift; [by apply kv_read_spec|]. by apply wp_kret.
  - destruct (msg_len msg <? 81); cbn [orb]; [by apply wp_kret|]. apply wp_kbind. eapply wp_klift; [done|].
    destruct (32 <=? slot) eqn:H32; [by apply wp_kret|]. bool_to_prop. apply wp_kbind, wp_sender_holds; [done|].
    destruct (holds _ _ _); cbn [negb]; [|by apply wp_kret]. apply wp_kbind. eapply wp_klift; [by apply kv_write_spec|]. by apply wp_kret.
Qed.

#[export] Instance kv_Handler : Handler kv_service kv_wf kv_wf (fun _ => True).
Proof.
  split; [done|]. intros msg st k Hk Hreq _ Hst. unfold wp. simpl. rewrite kv_handle_spec by done.
  pose proof (kv_result_wf (k_sched k) msg st Hst Hreq). pose proof (kv_result_len (k_sched k) msg st Hst).
  destruct (kv_result (k_sched k) msg st). auto with kernel.
Qed.

(** ** The store as a history of authorised writes *)

(** What a request, handled in the system state [s], writes to [slot]. *)
Definition kv_written (slot : N) (ev : Kernel * Message) : option KvSlot :=
  let '(k, msg) := ev in
  if bool_decide (msg_tag msg = KVSet) && (81 <=? msg_len msg) && (req_slot msg =? slot) &&
     holds (kv_allows slot true) (k_sched k) (msg_sender msg)
  then Some (mkKvSlot (field 1 16 msg) (field 17 64 msg)) else None.

(** The last of those writes, or the initial contents. *)
Definition kv_latest (slot : N) (hist : list (Kernel * Message)) : KvSlot :=
  foldl (fun cur ev => default cur (kv_written slot ev)) KvSlot_new hist.

(** The handler run over a sequence of requests. *)
Fixpoint kv_run (hist : list (Kernel * Message)) (store : KvStore) : outcome (list (list N) * KvStore) :=
  match hist with
  | [] => Ret ([], store)
  | (k, msg) :: hist' =>
      let! (r, _) := kv_handle msg store k in
      let! (replies, store') := kv_run hist' r.2 in
      Ret (r.1 :: replies, store')
  end.

Lemma kv_result_at k msg store slot :
  kv_wf store -> request_ok msg -> slot < 32 ->
  kv_at (kv_result (k_sched k) msg store).2 slot = default (kv_at store slot) (kv_written slot (k, msg)).
Proof.
  intros Hst Hreq Hslot. unfold kv_result, kv_written.
  destruct (msg_tag msg) eqn:Htag; try (rewrite bool_decide_eq_false_2 by done; done).
  - rewrite bool_decide_eq_false_2 by done. repeat case_match; done.
  - rewrite bool_decide_eq_true_2 by done. cbn [andb]. rewrite (N.leb_antisym (msg_len msg) 81).
    destruct (msg_len msg <? 81); [done|]. cbn [orb negb andb].
    destruct (req_slot msg =? slot) eqn:Heq; bool_to_prop.
    + rewrite Heq, (proj2 (N.leb_gt _ _) Hslot). cbn [andb]. destruct (holds _ _ _); [|done].
      unfold kv_at. simpl. rewrite idx_upd_eq; [done|]. by rewrite (kv_len _ Hst).
    + cbn [andb from_option]. destruct (32 <=? req_slot msg); [done|]. destruct (holds _ _ _); [|done].
      unfold kv_at. simpl. by rewrite idx_upd_ne.
Qed.

Definition event_ok (ev : Kernel * Message) : Prop := kernel_wf ev.1 /\ request_ok ev.2.

Lemma kv_run_spec hist store :
  Forall event_ok hist -> kv_wf store ->
  exists replies store', kv_run hist store = Ret (replies, store') /\ kv_wf store' /\
    forall slot, slot < 32 -> kv_at store' slot = foldl (fun cur ev => default cur (kv_written slot ev)) (kv_at store slot) hist.
Proof.
  intros Hall. revert store. induction Hall as [|[k msg] hist [Hk Hreq] _ IH]; intros store Hst; simpl in *.
  { exists [], store. auto. }
  rewrite kv_handle_spec by done. cbn [obind].
  destruct (IH (kv_result (k_sched k) msg store).2) as (replies & store' & -> & Hst' & Hat); [by apply kv_result_wf|].
  cbn [obind]. eexists _, store'. split; [done|]. split; [done|]. intros slot Hslot. rewrite Hat by done. f_equal.
  by apply kv_result_at.
Qed.

Lemma kv_at_new slot : slot < 32 -> kv_at KvStore_new slot = KvSlot_new.
Proof. intros. unfold kv_at, KvStore_new. cbn [kv_slots]. by rewrite idx_replicate. Qed.

(** The key-value service answers by capability and history.  After any
    sequence of requests, a [KVGet] of a slot by a task holding a readable
    capability for it returns the key and value of the last [KVSet] of that slot
    by a task holding a writable one, or zeros if there was none; without the
    capability the reply is the status 1 and nothing else, a malformed request or
    another tag gets status 2, and no request other than an authorised [KVSet]
    changes any slot. *)
Theorem kv_history hist k msg :
  Forall event_ok hist -> kernel_wf k -> request_ok msg ->
  exists replies store reply store',
    kv_run hist KvStore_new = Ret (replies, store) /\ kv_handle msg store k = Ret ((reply, store'), k) /\
    (forall slot, slot < 32 -> kv_at store' slot = kv_latest slot (hist ++ [(k, msg)])) /\
    reply =
      let slot := req_slot msg in
      let may w := holds (kv_allows slot w) (k_sched k) (msg_sender msg) in
      match msg_tag msg with
      | KVGet =>
          if (msg_len msg <? 1) || (32 <=? slot) then [2]
          else if may false then 0 :: kv_key (kv_latest slot hist) ++ kv_value (kv_latest slot hist) else [1]
      | KVSet => if (msg_len msg <? 81) || (32 <=? slot) then [2] else if may true then [0] else [1]
      | _ => [2]
      end.
Proof.
  intros Hall Hk Hreq. destruct (kv_run_spec hist KvStore_new Hall KvStore_new_wf) as (replies & store & Hrun & Hst & Hat).
  exists replies, store, (kv_result (k_sched k) msg store).1, (kv_result (k_sched k) msg store).2.
  split; [done|]. split; [rewrite kv_handle_spec by done; by destruct kv_result|]. split.
  - intros slot Hslot. rewrite kv_result_at, Hat, kv_at_new by done. unfold kv_latest. by rewrite foldl_app.
  - unfold kv_result. destruct (msg_tag msg); try done.
    + destruct (msg_len msg <? 1); [done|]. cbn [orb]. destruct (32 <=? req_slot msg) eqn:H32; [done|]. bool_to_prop.
      rewrite Hat, kv_at_new by done. by repeat case_match.
    + by repeat case_match.
Qed.

(** A client holding slot 3 read-write, and a task without capabilities. *)
Definition kv_client : Kernel :=
  add_task (example_task 5 Ready [mkCap (KVEntry 3 true true) true true false false 7 None])
    (add_task (example_task 6 Ready []) Kernel_init).
Definition kv_set (sender : TaskId) : Message := mkMessage sender KVSet 1 (3 :: replicate 80 9 ++ replicate 47 0) 81.
Definition kv_get (sender : TaskId) : Message := mkMessage sender KVGet 1 (3 :: replicate 127 0) 1.

Lemma kv_client_wf : kernel_wf kv_client.
Proof. apply add_task_wf; [apply example_task_wf; simpl; lia|]. apply add_task_wf; [apply example_task_wf; simpl; lia|]. apply Kernel_init_wf. Qed.

Lemma kv_set_ok : request_ok (kv_set 5) /\ request_ok (kv_set 6).
Proof. split; (split; [done|done|by apply byte_list|done]). Qed.

Lemma kv_history_witness :
  exists replies store reply store',
    kv_run [(kv_client, kv_set 5); (kv_client, kv_set 6)] KvStore_new = Ret (replies, store) /\
    kv_handle (kv_get 5) store kv_client = Ret ((reply, store'), kv_client) /\
    (forall slot, slot < 32 -> kv_at store' slot = kv_latest slot [(kv_client, kv_set 5); (kv_client, kv_set 6); (kv_client, kv_get 5)]) /\
    reply = 0 :: replicate 80 9.
Proof.
  apply (kv_history [(kv_client, kv_set 5); (kv_client, kv_set 6)] kv_client (kv_get 5)).
  - destruct kv_set_ok. pose proof kv_client_wf. apply Forall_cons; split; [by split|]. apply Forall_cons; split; [by split|]. constructor.
  - apply kv_client_wf.
  - split; try done. by apply byte_list.
Defined.
