(* ===== verification/LogService.v ===== *)
(** * The log service

    Models the publish/subscribe log of [kernel/shell/mod.rs]: a ring of 128
    entries, one read cursor per task, [LogPublish] and [LogRead] requests
    guarded by [Resource::LogChannel] capabilities.  [log_refines] shows that the
    service behaves as an unbounded log of which each reader sees the last 128
    entries. *)

From S2P Require Import Prelude Ring Preempt Trace Capability AuditTrail Message Machine Frames.
From S2P Require Import Task Scheduler Kernel Switch Scheduling Spawn Contexts Ipc Rendezvous Messaging Service.
Local Open Scope N_scope.

Record LogEntry : Type := mkLogEntry {
  le_tick : N;
  le_producer : TaskId;
  le_kind : N;
  le_msg : list N;
  le_len : N
}.

#[export] Instance LogEntry_eq_dec : EqDecision LogEntry.
Proof. solve_decision. Defined.

Definition LogEntry_new : LogEntry := mkLogEntry 0 0 0 (replicate 64 0) 0.

Definition LOG_CAPACITY : N := 128.

Record LogRingBuffer : Type := mkLogRing { lr_buffer : list LogEntry; lr_write_pos : N }.

Definition LogRingBuffer_new : LogRingBuffer := mkLogRing (replicate 128 LogEntry_new) 0.

Definition LogRingBuffer_push (self : LogRingBuffer) (entry : LogEntry) : outcome LogRingBuffer :=
  let i := lr_write_pos self mod LOG_CAPACITY in
  let! buffer := arr_set (lr_buffer self) i entry in
  let! write_pos := add64 (lr_write_pos self) 1 in
  Ret (mkLogRing buffer write_pos).

(** [LOG] and [CURSORS]. *)
Record LogStore : Type := mkLogStore { ls_log : LogRingBuffer; ls_cursors : list N }.
Definition LogStore_new : LogStore := mkLogStore LogRingBuffer_new (replicate 132 0).

Definition log_allows (kind : N) (require_write : bool) (cap : Capability) : bool :=
  match cap_resource cap with
  | LogChannel cap_kind readable writable =>
      (cap_kind =? kind) && (if require_write then writable && cap_write cap else readable && cap_read cap)
  | _ => false
  end.

Definition check_log_sender_cap (sender : TaskId) (kind : N) (require_write : bool) : K bool :=
  sender_holds (log_allows kind require_write) sender.

Definition ensure_log_service `{L : Layout} (log_service_main : N) : K unit := ensure_service 83 log_service_main.

(** [u64::to_ne_bytes] on a little-endian machine. *)
Definition to_ne_bytes (v : N) : list N := (fun i => N.land (N.shiftr v (8 * i)) 0xFF) <$> rangeN 0 8.

(** [LogPublish], past its checks: the entry and its [push]. *)
Definition log_publish (tick kind : N) (msg : Message) (log : LogRingBuffer) : outcome LogRingBuffer :=
  let! n := sub64 (msg_len msg) 1 in
  let msg_bytes_len := N.min n 64 in
  let! bytes := slice (msg_payload msg) 1 (1 + msg_bytes_len) in
  let! text := copy_at (replicate 64 0) 0 bytes in
  LogRingBuffer_push log (mkLogEntry tick (msg_sender msg) kind text msg_bytes_len).

Definition oldest_valid (log : LogRingBuffer) : N :=
  if LOG_CAPACITY <? lr_write_pos log then lr_write_pos log - LOG_CAPACITY else 0.

(** The search for the next entry of a kind, from the reader's cursor on. *)
Definition log_find (log : LogRingBuffer) (cursor kind : N) : option N :=
  find_first (fun i => match idx (lr_buffer log) (i mod LOG_CAPACITY) with
                       | Some entry => le_kind entry =? kind
                       | None => false
                       end) (rangeN cursor (N.to_nat (lr_write_pos log - cursor))).

Definition log_encode (entry : LogEntry) : outcome (list N) :=
  let reply := replicate 128 0 in
  let! reply := copy_at reply 1 (to_ne_bytes (le_tick entry)) in
  let! reply := copy_at reply 9 (to_ne_bytes (le_producer entry)) in
  let! reply := arr_set reply 17 (le_kind entry) in
  let! reply := copy_at reply 18 (to_ne_bytes (le_len entry)) in
  let! reply := copy_at reply 26 (le_msg entry) in
  slice reply 0 90.

(** [LogRead], past its checks. *)
Definition log_read (sender : TaskId) (kind : N) (st : LogStore) : outcome (list N * LogStore) :=
  let log := ls_log st in
  let oldest := oldest_valid log in
  let! c := arr_get (ls_cursors st) sender in
  let cursor := if c <? oldest then oldest else c in
  match log_find log cursor kind with
  | Some found_idx =>
      let! entry := arr_get (lr_buffer log) (found_idx mod LOG_CAPACITY) in
      let! next := add64 found_idx 1 in
      let! reply := log_encode entry in
      Ret (reply, mkLogStore log (upd (ls_cursors st) sender next))
  | None => Ret ([2], mkLogStore log (upd (ls_cursors st) sender (lr_write_pos log)))
  end.

(** The [match msg.tag] of [log_service_main]. *)
Definition log_handle (msg : Message) (st : LogStore) : K (list N * LogStore) :=
  match msg_tag msg with
  | LogPublish =>
      if msg_len msg <? 1 then kret ([2], st)
      else
        let* kind := klift (arr_get (msg_payload msg) 0) in
        if 16 <=? kind then kret ([3], st)
        else
          let* ok := check_log_sender_cap (msg_sender msg) kind true in
          if negb ok then kret ([1], st)
          else
            let* tick := kget (fun k => st_ticks (stats (am_preempt (k_amb k)))) in
            let* log := klift (log_publish tick kind msg (ls_log st)) in
            kret ([0], mkLogStore log (ls_cursors st))
  | LogRead =>
      if msg_len msg <? 1 then kret ([3], st)
      else
        let* kind := klift (arr_get (msg_payload msg) 0) in
        if 16 <=? kind then kret ([3], st)
        else
          let* ok := check_log_sender_cap (msg_sender msg) kind false in
          if negb ok then kret ([1], st)
          else klift (log_read (msg_sender msg) kind st)
  | _ => kret ([3], st)
  end.

(** [log_service_main]: task 83, replies tagged [LogAck]. *)
Definition log_service : Service LogStore := mkService 83 8300 LogAck log_handle.

(** ** Specification: an unbounded log *)

(** Everything ever published, and the position each task has read up to. *)
Record LogView : Type := mkLogView { lv_history : list LogEntry; lv_cursor : TaskId -> N }.
Definition LogView_new : LogView := mkLogView [] (fun _ => 0).

(** The bytes of a successful [LogRead]. *)
Definition entry_bytes (e : LogEntry) : list N :=
  0 :: to_ne_bytes (le_tick e) ++ to_ne_bytes (le_producer e) ++ [le_kind e] ++ to_ne_bytes (le_len e) ++ le_msg e.

(** The entry a [LogPublish] request appends: at most 64 bytes of text, zero padded. *)
Definition published (tick : N) (msg : Message) : LogEntry :=
  let n := N.to_nat (N.min (msg_len msg - 1) 64) in
  let text := take n (drop 1 (msg_payload msg)) in
  mkLogEntry tick (msg_sender msg) (default 0 (idx (msg_payload msg) 0)) (text ++ replicate (64 - n) 0) (N.min (msg_len msg - 1) 64).

Definition move_cursor (sender : TaskId) (pos : N) (cur : TaskId -> N) : TaskId -> N :=
  fun i => if i =? sender then pos else cur i.

(** Where a reader starts: its cursor, or the oldest entry still retained. *)
Definition read_start (v : LogView) (sender : TaskId) : N := N.max (lv_cursor v sender) (lenN (lv_history v) - LOG_CAPACITY).

(** The first entry of a kind from [read_start] on. *)
Definition next_entry (v : LogView) (sender : TaskId) (kind : N) : option (nat * LogEntry) :=
  list_find (fun e => le_kind e = kind) (drop (N.to_nat (read_start v sender)) (lv_history v)).

Definition log_result (k : Kernel) (msg : Message) (v : LogView) : list N * LogView :=
  let kind := default 0 (idx (msg_payload msg) 0) in
  let may w := holds (log_allows kind w) (k_sched k) (msg_sender msg) in
  match msg_tag msg with
  | LogPublish =>
      if msg_len msg <? 1 then ([2], v)
      else if 16 <=? kind then ([3], v)
      else if may true then
        ([0], mkLogView (lv_history v ++ [published (st_ticks (stats (am_preempt (k_amb k)))) msg]) (lv_cursor v))
      else ([1], v)
  | LogRead =>
      if (msg_len msg <? 1) || (16 <=? kind) then ([3], v)
      else if may false then
        match next_entry v (msg_sender msg) kind with
        | Some (i, e) =>
            (entry_bytes e, mkLogView (lv_history v)
               (move_cursor (msg_sender msg) (read_start v (msg_sender msg) + N.of_nat i + 1) (lv_cursor v)))
        | None => ([2], mkLogView (lv_history v) (move_cursor (msg_sender msg) (lenN (lv_history v)) (lv_cursor v)))
        end
      else ([1], v)
  | _ => ([3], v)
  end.

(** ** Refinement *)

Record log_repr (st : LogStore) (v : LogView) : Prop := {
  lg_len : lenN (lr_buffer (ls_log st)) = LOG_CAPACITY;
  lg_pos : lr_write_pos (ls_log st) = lenN (lv_history v);
  lg_last : holds_last (lr_buffer (ls_log st)) (lv_history v);
  lg_cursors : lenN (ls_cursors st) = MAX_TASKS;
  lg_cursor : forall i, i < MAX_TASKS -> idx (ls_cursors st) i = Some (lv_cursor v i) /\ lv_cursor v i <= lenN (lv_history v);
  lg_text : Forall (fun e => length (le_msg e) = 64%nat) (lv_history v)
}.

Lemma LogStore_new_repr : log_repr LogStore_new LogView_new.
Proof.
  split; try done.
  - intros j Hj. unfold lenN in Hj. simpl in Hj. lia.
  - intros i Hi. split; [|done]. by apply idx_replicate.
Qed.

Lemma to_ne_bytes_length v : length (to_ne_bytes v) = 8%nat.
Proof. done. Qed.

Lemma log_encode_spec e : length (le_msg e) = 64%nat -> log_encode e = Ret (entry_bytes e).
Proof.
  intros Hm. unfold log_encode, entry_bytes.
  pose proof (to_ne_bytes_length (le_tick e)). pose proof (to_ne_bytes_length (le_producer e)).
  pose proof (to_ne_bytes_length (le_len e)).
  set (a := to_ne_bytes (le_tick e)) in *. set (b := to_ne_bytes (le_producer e)) in *. set (c := to_ne_bytes (le_len e)) in *.
  clearbody a b c. rewrite zpad_zero.
  rewrite (zpad_copy 1) by (done || simpl; lia). cbn [obind].
  rewrite (zpad_copy 9) by (unfold lenN; simpl; rewrite ?length_app; simpl; lia). cbn [obind].
  rewrite (zpad_set 17) by (unfold lenN; rewrite ?length_app; simpl; lia). cbn [obind].
  rewrite (zpad_copy 18) by (unfold lenN; rewrite ?length_app; simpl; lia). cbn [obind].
  rewrite (zpad_copy 26) by (unfold lenN; rewrite ?length_app; simpl; lia). cbn [obind].
  rewrite (zpad_slice 90) by (unfold lenN; rewrite ?length_app; simpl; lia). f_equal. simpl. by rewrite <- !app_assoc.
Qed.

Lemma find_first_list_find {A} (P : A -> Prop) `{!forall x, Decision (P x)} (test : N -> bool) (l : list A) a :
  (forall j x, l !! j = Some x -> test (a + N.of_nat j) = bool_decide (P x)) ->
  find_first test (rangeN a (length l)) = (fun '(i, _) => a + N.of_nat i) <$> list_find P l.
Proof.
  revert a. induction l as [|x l IH]; intros a Ht; [done|]. cbn [length]. rewrite rangeN_S. cbn [find_first list_find].
  pose proof (Ht 0%nat x eq_refl) as H0. rewrite N.add_0_r in H0. rewrite H0. case_bool_decide as HP.
  - rewrite decide_True by done. simpl. f_equal. lia.
  - rewrite decide_False by done. rewrite IH.
    + destruct (list_find P l) as [[i y]|]; simpl; [f_equal; lia|done].
    + intros j y Hj. rewrite <- (Ht (S j) y Hj). f_equal. lia.
Qed.

Lemma log_find_spec st v start kind :
  log_repr st v -> start <= lenN (lv_history v) -> lenN (lv_history v) <= start + LOG_CAPACITY ->
  log_find (ls_log st) start kind =
    (fun '(i, _) => start + N.of_nat i) <$> list_find (fun e => le_kind e = kind) (drop (N.to_nat start) (lv_history v)).
Proof.
  intros [Hlen Hpos Hlast _ _ _] Hs Hold. unfold log_find.
  assert (N.to_nat (lr_write_pos (ls_log st) - start) = length (drop (N.to_nat start) (lv_history v))) as ->.
  { rewrite length_drop, Hpos. unfold lenN. lia. }
  apply find_first_list_find. intros j e Hj. rewrite lookup_drop in Hj.
  pose proof (lookup_lt_Some _ _ _ Hj) as Hlt. specialize (Hlast (start + N.of_nat j)). rewrite Hlen in Hlast.
  rewrite Hlast by (unfold lenN in *; lia). rewrite idx_lookup.
  replace (N.to_nat (start + N.of_nat j)) with (N.to_nat start + j)%nat by lia. rewrite Hj.
  destruct (decide (le_kind e = kind)) as [->|Hne].
  - by rewrite bool_decide_eq_true_2, N.eqb_refl.
  - by rewrite bool_decide_eq_false_2, (proj2 (N.eqb_neq _ _)).
Qed.

Lemma move_cursor_repr st v sender pos :
  log_repr st v -> sender < MAX_TASKS -> pos <= lenN (lv_history v) ->
  log_repr (mkLogStore (ls_log st) (upd (ls_cursors st) sender pos)) (mkLogView (lv_history v) (move_cursor sender pos (lv_cursor v))).
Proof.
  intros [] Hs Hp. split; try done; cbn [ls_cursors lv_cursor lv_history].
  - by rewrite lenN_upd.
  - intros i Hi. rewrite idx_upd, lg_cursors0. unfold move_cursor. destruct (i =? sender) eqn:He; bool_to_prop.
    + subst. rewrite decide_True by done. done.
    + rewrite decide_False by naive_solver. auto.
Qed.

Lemma log_read_spec st v sender kind :
  log_repr st v -> sender < MAX_TASKS -> lenN (lv_history v) < u64_limit ->
  exists st', log_read sender kind st =
    Ret (match next_entry v sender kind with Some (_, e) => entry_bytes e | None => [2] end, st') /\
  log_repr st' (mkLogView (lv_history v) (move_cursor sender
    (match next_entry v sender kind with Some (i, _) => read_start v sender + N.of_nat i + 1 | None => lenN (lv_history v) end) (lv_cursor v))).
Proof.
  intros Hr Hs Hroom. pose proof Hr as [Hlen Hpos Hlast Hcl Hc Htext]. destruct (Hc sender Hs) as [Hcur Hle].
  unfold log_read. rewrite (proj2 (arr_get_Ret _ _ _) Hcur). cbn [obind].
  assert ((if lv_cursor v sender <? oldest_valid (ls_log st) then oldest_valid (ls_log st) else lv_cursor v sender) = read_start v sender) as ->.
  { unfold read_start, oldest_valid. rewrite Hpos. repeat case_match; bool_to_prop; unfold LOG_CAPACITY in *; lia. }
  assert (read_start v sender <= lenN (lv_history v) /\ lenN (lv_history v) <= read_start v sender + LOG_CAPACITY) as [Hrs1 Hrs2].
  { unfold read_start, LOG_CAPACITY. lia. }
  rewrite (log_find_spec st v) by done. fold (next_entry v sender kind).
  destruct (next_entry v sender kind) as [[i e]|] eqn:Hn; cbn [fmap option_fmap option_map].
  - unfold next_entry in Hn. apply list_find_Some in Hn as (Hi & _ & _). rewrite lookup_drop in Hi.
    pose proof (lookup_lt_Some _ _ _ Hi) as Hlt.
    assert (idx (lr_buffer (ls_log st)) ((read_start v sender + N.of_nat i) mod LOG_CAPACITY) = Some e) as Hb.
    { rewrite <- Hlen, Hlast by (rewrite ?Hlen; unfold lenN in *; lia). rewrite idx_lookup, <- Hi. f_equal. lia. }
    rewrite (proj2 (arr_get_Ret _ _ _) Hb). cbn [obind]. rewrite add64_ok by (unfold lenN in *; lia). cbn [obind].
    rewrite Forall_forall in Htext. rewrite log_encode_spec by (apply Htext, list_elem_of_lookup; eauto). cbn [obind].
    eexists. split; [done|]. apply move_cursor_repr; [done..|]. unfold lenN in *. lia.
  - eexists. split; [done|]. rewrite <- Hpos. apply move_cursor_repr; [done..|]. rewrite Hpos. lia.
Qed.

Lemma log_publish_spec st v tick msg :
  log_repr st v -> request_ok msg -> 1 <= msg_len msg -> lenN (lv_history v) + 1 < u64_limit ->
  exists log, log_publish tick (default 0 (idx (msg_payload msg) 0)) msg (ls_log st) = Ret log /\
    log_repr (mkLogStore log (ls_cursors st)) (mkLogView (lv_history v ++ [published tick msg]) (lv_cursor v)).
Proof.
  intros [Hlen Hpos Hlast Hcl Hc Htext] [Hp Hl _ _] H1 Hroom. unfold log_publish. rewrite sub64_ok by done. cbn [obind].
  rewrite slice_ok by lia. cbn [obind]. set (n := N.min (msg_len msg - 1) 64).
  replace (N.to_nat (1 + n - 1)) with (N.to_nat n) by lia. change (N.to_nat 1) with 1%nat.
  set (text := take (N.to_nat n) (drop 1 (msg_payload msg))).
  assert (length text = N.to_nat n) as Hn by (unfold text, lenN in *; rewrite length_take, length_drop; lia).
  rewrite copy_at_ok by (rewrite lenN_replicate; unfold lenN; lia). cbn [obind].
  rewrite N.add_0_l. change (take (N.to_nat 0) _) with (@nil N). cbn [app]. rewrite drop_replicate. unfold lenN at 1. rewrite Nat2N.id, Hn.
  unfold LogRingBuffer_push. rewrite arr_set_ok by (rewrite Hlen; by apply N.mod_lt). cbn [obind].
  rewrite Hpos, add64_ok by done. cbn [obind]. eexists. split; [done|].
  split; cbn [ls_log lr_buffer lr_write_pos lv_history lv_cursor ls_cursors].
  - by rewrite lenN_upd.
  - by rewrite lenN_app.
  - rewrite <- Hlen. apply holds_last_push; [by rewrite Hlen|done].
  - done.
  - intros i Hi. destruct (Hc i Hi). split; [done|]. rewrite lenN_app. lia.
  - apply Forall_app. split; [done|]. apply Forall_singleton. unfold published. cbn [le_msg]. fold n text.
    rewrite length_app, length_replicate, Hn. lia.
Qed.

Lemma log_handle_spec msg st v k :
  kernel_wf k -> request_ok msg -> log_repr st v -> lenN (lv_history v) + 1 < u64_limit ->
  exists st', log_handle msg st k = Ret (((log_result k msg v).1, st'), k) /\ log_repr st' (log_result k msg v).2.
Proof.
  intros Hk Hreq Hr Hroom.
  assert (wp (log_handle msg st) (fun r k' => r.1 = (log_result k msg v).1 /\ log_repr r.2 (log_result k msg v).2 /\ k' = k) k) as Hw.
  2: { apply wp_run in Hw as ([reply st'] & k' & -> & Heq & Hr' & ->). simpl in *. subst. by exists st'. }
  destruct (arr_get_ok (msg_payload msg) 0) as (kind & Hkind & Hget); [by rewrite (rq_payload _ Hreq)|].
  unfold log_handle, log_result, check_log_sender_cap. rewrite Hkind. cbn [from_option id].
  destruct (msg_tag msg); try by apply wp_kret.
  - destruct (msg_len msg <? 1) eqn:H1; [by apply wp_kret|]. bool_to_prop. apply wp_kbind. eapply wp_klift; [done|].
    destruct (16 <=? kind); [by apply wp_kret|]. apply wp_kbind, wp_sender_holds; [done|].
    destruct (holds _ _ _); cbn [negb]; [|by apply wp_kret]. apply wp_kbind, wp_kget, wp_kbind.
    destruct (log_publish_spec st v (st_ticks (stats (am_preempt (k_amb k)))) msg Hr Hreq H1 Hroom) as (log & Hlog & Hr').
    rewrite Hkind in Hlog. eapply wp_klift; [done|]. by apply wp_kret.
  - destruct (msg_len msg <? 1) eqn:H1; [by apply wp_kret|]. bool_to_prop. apply wp_kbind. eapply wp_klift; [done|]. cbn [orb].
    destruct (16 <=? kind); [by apply wp_kret|]. apply wp_kbind, wp_sender_holds; [done|].
    destruct (holds _ _ _); cbn [negb]; [|by apply wp_kret].
    destruct (log_read_spec st v (msg_sender msg) kind Hr (rq_sender _ Hreq)) as (st' & Hread & Hr'); [lia|].
    eapply wp_klift; [done|]. destruct (next_entry v (msg_sender msg) kind) as [[i e]|]; done.
Qed.

Lemma log_result_history k msg v : lenN (lv_history (log_result k msg v).2) <= lenN (lv_history v) + 1.
Proof. unfold log_result. repeat case_match; simpl; rewrite ?lenN_app; change (lenN [_]) with 1; lia. Qed.

Lemma log_result_len k msg v : Forall (fun e => length (le_msg e) = 64%nat) (lv_history v) -> lenN (log_result k msg v).1 <= 128.
Proof.
  intros Ht. unfold log_result. repeat case_match; simpl; try (vm_compute; congruence).
  apply list_find_Some in H2 as (Hi & _ & _). rewrite lookup_drop in Hi. rewrite Forall_forall in Ht.
  pose proof (Ht l ltac:(apply list_elem_of_lookup; eauto)) as Hl. unfold entry_bytes, lenN. cbn [length].
  rewrite !length_app, !to_ne_bytes_length. simpl. lia.
Qed.

(** At most [n] entries were published. *)
Definition log_inv (n : N) (st : LogStore) : Prop := exists v, log_repr st v /\ lenN (lv_history v) <= n.

#[export] Instance log_Handler n : TCEq (n + 1 <? u64_limit) true -> Handler log_service (log_inv n) (log_inv (n + 1)) (fun _ => True).
Proof.
  intros Hn%TCEq_eq%N.ltb_lt. split; [done|]. intros msg st k Hk Hreq _ (v & Hr & Hle).
  destruct (log_handle_spec msg st v k Hk Hreq Hr) as (st' & Hrun & Hr'); [lia|]. unfold wp. simpl. rewrite Hrun.
  split; [|split; [apply log_result_len, (lg_text _ _ Hr)|auto with kernel]].
  exists (log_result k msg v).2. split; [done|]. pose proof (log_result_history k msg v). lia.
Qed.

(** The handler, and the specification, over a sequence of requests. *)
Fixpoint log_run (hist : list (Kernel * Message)) (st : LogStore) : outcome (list (list N)) :=
  match hist with
  | [] => Ret []
  | (k, msg) :: hist' =>
      let! (r, _) := log_handle msg st k in
      let! replies := log_run hist' r.2 in
      Ret (r.1 :: replies)
  end.

Fixpoint log_spec (hist : list (Kernel * Message)) (v : LogView) : list (list N) :=
  match hist with
  | [] => []
  | (k, msg) :: hist' => (log_result k msg v).1 :: log_spec hist' (log_result k msg v).2
  end.

Lemma log_run_spec hist st v :
  Forall (fun ev => kernel_wf ev.1 /\ request_ok ev.2) hist -> log_repr st v -> lenN (lv_history v) + lenN hist < u64_limit ->
  log_run hist st = Ret (log_spec hist v).
Proof.
  intros Hall. revert st v. induction Hall as [|[k msg] hist [Hk Hreq] _ IH]; intros st v Hr Hroom; [done|]. simpl in *.
  assert (lenN ((k, msg) :: hist) = 1 + lenN hist) as Hl by (unfold lenN; simpl; lia).
  destruct (log_handle_spec msg st v k Hk Hreq Hr) as (st' & -> & Hr'); [lia|]. cbn [obind snd fst].
  pose proof (log_result_history k msg v). rewrite (IH st' _ Hr') by lia. done.
Qed.

(** The log after a sequence of requests. *)
Definition log_state (hist : list (Kernel * Message)) (v : LogView) : LogView :=
  foldl (fun v '(k, msg) => (log_result k msg v).2) v hist.

Lemma log_spec_app h1 h2 v : log_spec (h1 ++ h2) v = log_spec h1 v ++ log_spec h2 (log_state h1 v).
Proof. revert v. induction h1 as [|[k msg] h1 IH]; intros v; simpl; [done|]. by rewrite IH. Qed.

(** What a reader of [kind] has yet to see of the retained log. *)
Definition unread (v : LogView) (sender : TaskId) (kind : N) : list LogEntry :=
  filter (fun e => le_kind e = kind) (drop (N.to_nat (read_start v sender)) (lv_history v)).

(** A well-formed and authorised [LogRead] of [kind]. *)
Definition reads (k : Kernel) (msg : Message) (kind : N) : Prop :=
  msg_tag msg = LogRead /\ 1 <= msg_len msg /\ idx (msg_payload msg) 0 = Some kind /\ kind < 16 /\
  holds (log_allows kind false) (k_sched k) (msg_sender msg) = true.

Lemma filter_list_find {A} (P : A -> Prop) `{!forall x, Decision (P x)} (l : list A) :
  filter P l = match list_find P l with Some (i, x) => x :: filter P (drop (S i) l) | None => [] end.
Proof.
  induction l as [|x l IH]; [done|]. simpl. rewrite filter_cons. destruct (decide (P x)); [by rewrite drop_0|].
  rewrite IH. by destruct (list_find P l) as [[i y]|].
Qed.

(** One read takes the first unread entry. *)
Lemma log_result_reads k msg kind v :
  reads k msg kind -> lv_cursor v (msg_sender msg) <= lenN (lv_history v) ->
  (log_result k msg v).1 = match unread v (msg_sender msg) kind with e :: _ => entry_bytes e | [] => [2] end /\
  unread (log_result k msg v).2 (msg_sender msg) kind = tail (unread v (msg_sender msg) kind) /\
  lv_cursor (log_result k msg v).2 (msg_sender msg) <= lenN (lv_history (log_result k msg v).2).
Proof.
  intros (Htag & Hlen & Hk & Hkind & Hh) Hc. unfold log_result. rewrite Htag, Hk. cbn [from_option id].
  rewrite (proj2 (N.ltb_ge _ _) Hlen), (proj2 (N.leb_gt _ _) Hkind), Hh. cbn [orb].
  unfold unread at 1 3. rewrite filter_list_find. fold (next_entry v (msg_sender msg) kind).
  assert (read_start v (msg_sender msg) <= lenN (lv_history v)) as Hrs by (unfold read_start; lia).
  destruct (next_entry v (msg_sender msg) kind) as [[i e]|] eqn:Hn; cbn [fst snd lv_cursor lv_history]; unfold unread, read_start at 1, move_cursor;
    cbn [lv_cursor lv_history]; rewrite N.eqb_refl.
  - apply list_find_Some in Hn as (Hi & _ & _). rewrite lookup_drop in Hi. pose proof (lookup_lt_Some _ _ _ Hi) as Hlt.
    split; [done|]. split; [|unfold lenN; lia]. cbn [tail]. rewrite drop_drop. f_equal. f_equal.
    unfold read_start, LOG_CAPACITY in *. lia.
  - split; [done|]. split; [|done]. rewrite drop_ge; [done|]. unfold lenN. lia.
Qed.

Lemma log_spec_reads k msg kind n v :
  reads k msg kind -> lv_cursor v (msg_sender msg) <= lenN (lv_history v) -> length (unread v (msg_sender msg) kind) = n ->
  log_spec (replicate (S n) (k, msg)) v = (entry_bytes <$> unread v (msg_sender msg) kind) ++ [[2]].
Proof.
  intros Hrd. revert v. induction n as [|n IH]; intros v Hc Hn; destruct (log_result_reads k msg kind v Hrd Hc) as (Hr & Hu & Hc').
  - destruct (unread v (msg_sender msg) kind); [|done]. simpl. by rewrite Hr.
  - destruct (unread v (msg_sender msg) kind) as [|e l] eqn:He; [done|].
    change (replicate (S (S n)) (k, msg)) with ((k, msg) :: replicate (S n) (k, msg)). cbn [log_spec]. rewrite Hr, IH by (done || (rewrite Hu; simpl in *; lia)).
    by rewrite Hu.
Qed.

(** In every reachable log the cursors are inside the history. *)
Lemma log_state_cursor hist v i :
  lv_cursor v i <= lenN (lv_history v) -> lv_cursor (log_state hist v) i <= lenN (lv_history (log_state hist v)).
Proof.
  revert v. induction hist as [|[k msg] hist IH]; intros v Hc; [done|]. simpl. apply IH.
  unfold log_result. repeat case_match; cbn [snd lv_cursor lv_history]; try done; try (rewrite lenN_app; lia); unfold move_cursor; case_match; try done; try lia.
  apply list_find_Some in H2 as (Hi & _ & _). rewrite lookup_drop in Hi. apply lookup_lt_Some in Hi. unfold lenN. lia.
Qed.

(** C35: The log service is an unbounded log seen through a window.  For every
    sequence of requests, in any system states, the service returns and its replies
    are those of the specification that keeps the whole history: publishing appends
    the sender's text under its identity and tick, reading returns the first
    retained entry of the kind after the reader's cursor, and each needs the
    matching capability.  In particular a reader that then reads one kind
    repeatedly gets every retained entry of that kind after its cursor, in order
    and once each, and then the empty reply. *)
Theorem log_refines pre k rd kind :
  let v := log_state pre LogView_new in
  let rest := unread v (msg_sender rd) kind in
  let hist := pre ++ replicate (S (length rest)) (k, rd) in
  Forall (fun ev => kernel_wf ev.1 /\ request_ok ev.2) hist -> reads k rd kind -> lenN hist < u64_limit ->
  log_run pre LogStore_new = Ret (log_spec pre LogView_new) /\
  log_run hist LogStore_new = Ret (log_spec pre LogView_new ++ (entry_bytes <$> rest) ++ [[2]]).
Proof.
  intros v rest hist Hall Hrd Hlen. unfold hist in *. rewrite lenN_app in Hlen. split.
  - apply Forall_app in Hall as [Hall _]. apply log_run_spec; [done|apply LogStore_new_repr|]. simpl. unfold lenN at 1. simpl. lia.
  - rewrite (log_run_spec _ _ LogView_new); [|done|apply LogStore_new_repr|rewrite lenN_app; change (lenN (lv_history LogView_new)) with 0; lia].
    rewrite log_spec_app. fold v. do 2 f_equal. apply (log_spec_reads k rd kind); [done| |done]. by apply log_state_cursor.
Qed.

(** A task that publishes and reads kinds 1 and 2. *)
Definition log_client : Kernel :=
  add_task (example_task 5 Ready [mkCap (LogChannel 1 true true) true true false false 7 None; mkCap (LogChannel 2 true true) true true false false 8 None])
    Kernel_init.
Definition log_msg (tag : IpcTag) (kind : N) : Message := mkMessage 5 tag 1 (kind :: 77 :: replicate 126 0) 2.

Lemma log_client_wf : kernel_wf log_client.
Proof. apply add_task_wf; [apply example_task_wf; simpl; lia|]. apply Kernel_init_wf. Qed.

Lemma log_msg_ok tag kind : kind < 256 -> request_ok (log_msg tag kind).
Proof.
  intros Hk. split; [done|done| |done]. apply Forall_cons. split; [done|]. apply Forall_cons. split; [done|].
  by apply Forall_replicate.
Qed.

Lemma log_refines_witness :
  log_run [(log_client, log_msg LogPublish 1); (log_client, log_msg LogPublish 2); (log_client, log_msg LogRead 2); (log_client, log_msg LogRead 2)]
    LogStore_new = Ret [[0]; [0]; entry_bytes (published 0 (log_msg LogPublish 2)); [2]].
Proof.
  apply (log_refines [(log_client, log_msg LogPublish 1); (log_client, log_msg LogPublish 2)] log_client (log_msg LogRead 2) 2).
  - pose proof log_client_wf. pose proof (log_msg_ok LogPublish 1 ltac:(done)). pose proof (log_msg_ok LogPublish 2 ltac:(done)).
    pose proof (log_msg_ok LogRead 2 ltac:(done)). repeat (apply Forall_cons; split; [done|]). by apply Forall_replicate.
  - repeat split; vm_compute; congruence.
  - reflexivity.
Defined.

(** The cursor of a task is shared by all the kinds it reads: after reading the
    entry of kind 2, the older entry of kind 1 is skipped. *)
Lemma log_kind_skipped :
  log_run [(log_client, log_msg LogPublish 1); (log_client, log_msg LogPublish 2); (log_client, log_msg LogRead 2); (log_client, log_msg LogRead 1)]
    LogStore_new = Ret [[0]; [0]; entry_bytes (published 0 (log_msg LogPublish 2)); [2]].
Proof. vm_compute. reflexivity. Qed.
