(* ===== verification/FsService.v ===== *)
(** * The file-system service

    Models the virtual file system of [kernel/shell/mod.rs]: 64 nodes, each a file
    of at most 94 bytes or a directory, named by a mount and an absolute path of at
    most 30 bytes, with the operations mkdir, write, read, ls, delete and stat
    guarded by [Resource::FsNode] capabilities.  The specification the node table
    is shown to implement is a finite map from mount and path to contents. *)

From S2P Require Import Prelude Text Ring Preempt Trace Capability AuditTrail Message Machine Frames.
From S2P Require Import Task Scheduler Kernel Switch Scheduling Spawn Contexts Ipc Rendezvous Messaging Service.
From S2P Require Import LogService.
Local Open Scope N_scope.

Definition FS_MAX_NODES : N := 64.
Definition FS_NAME_LEN : N := 30.
Definition FS_DATA_LEN : N := 94.

Record FsNode : Type := mkFsNode {
  fn_used : bool;
  fn_is_dir : bool;
  fn_name : list N;
  fn_name_len : N;
  fn_data : list N;
  fn_data_len : N;
  fn_mount : N
}.

Definition FsNode_empty : FsNode := mkFsNode false false (replicate 30 0) 0 (replicate 94 0) 0 0.

(** [FS_STORE] and [FS_OPS]. *)
Record FsStore : Type := mkFsStore { fs_nodes : list FsNode; fs_ops : N }.
Definition FsStore_new : FsStore := mkFsStore (replicate 64 FsNode_empty) 0.

(** [&node.name[..node.name_len]] and [&node.data[..node.data_len]]. *)
Definition node_name (node : FsNode) : list N := take (N.to_nat (fn_name_len node)) (fn_name node).
Definition node_data (node : FsNode) : list N := take (N.to_nat (fn_data_len node)) (fn_data node).

Definition find_node (nodes : list FsNode) (mount : N) (name : list N) : option N :=
  position (fun node => fn_used node && (fn_mount node =? mount) && bool_decide (node_name node = name)) nodes.

(** The first node that is not in use. *)
Definition free_node (nodes : list FsNode) : option N := position (fun node => negb (fn_used node)) nodes.

Definition fs_allows (mount : N) (need_write : bool) (cap : Capability) : bool :=
  match cap_resource cap with
  | Capability.FsNode m readable writable =>
      (m =? mount) && (if need_write then writable && cap_write cap else readable && cap_read cap)
  | _ => false
  end.

Definition fs_check_cap (sender : TaskId) (mount : N) (need_write : bool) : K bool :=
  sender_holds (fs_allows mount need_write) sender.

Definition ensure_fs_service `{L : Layout} (fs_service_main : N) : K unit := ensure_service 84 fs_service_main.

(** ** The operations, past the capability check *)

Definition set_nodes (nodes : list FsNode) (store : FsStore) : FsStore := mkFsStore nodes (fs_ops store).

Definition fs_mkdir (mount : N) (name : list N) (store : FsStore) : outcome (list N * FsStore) :=
  let nodes := fs_nodes store in
  if is_some (find_node nodes mount name) then Ret ([4], store)
  else match free_node nodes with
       | Some i =>
           let! node := arr_get nodes i in
           let! nm := copy_at (fn_name node) 0 name in
           Ret ([0], set_nodes (upd nodes i (mkFsNode true true nm (lenN name) (fn_data node) 0 mount)) store)
       | None => Ret ([3], store)
       end.

Definition fs_write (msg : Message) (mount : N) (name : list N) (store : FsStore) : outcome (list N * FsStore) :=
  let nodes := fs_nodes store in
  let! data_len := arr_get (msg_payload msg) 33 in
  if (94 <? data_len) || (msg_len msg <? 34 + data_len) then Ret ([4], store)
  else
    let! data_bytes := slice (msg_payload msg) 34 (34 + data_len) in
    match find_node nodes mount name with
    | Some i =>
        let! node := arr_get nodes i in
        if fn_is_dir node then Ret ([4], store)
        else
          let! data := copy_at (fn_data node) 0 data_bytes in
          Ret ([0], set_nodes (upd nodes i (mkFsNode (fn_used node) (fn_is_dir node) (fn_name node) (fn_name_len node)
                                              data data_len (fn_mount node))) store)
    | None =>
        match free_node nodes with
        | Some i =>
            let! node := arr_get nodes i in
            let! nm := copy_at (fn_name node) 0 name in
            let! data := copy_at (fn_data node) 0 data_bytes in
            Ret ([0], set_nodes (upd nodes i (mkFsNode true false nm (lenN name) data data_len mount)) store)
        | None => Ret ([3], store)
        end
    end.

Definition fs_read (mount : N) (name : list N) (store : FsStore) : outcome (list N) :=
  match find_node (fs_nodes store) mount name with
  | Some i =>
      let! node := arr_get (fs_nodes store) i in
      if fn_is_dir node then Ret [2]
      else
        let! reply := arr_set (replicate 128 0) 1 (fn_data_len node mod 256) in
        let! data := slice (fn_data node) 0 (fn_data_len node) in
        let! reply := copy_at reply 2 data in
        slice reply 0 (2 + fn_data_len node)
  | None => Ret [2]
  end.

Definition fs_delete (mount : N) (name : list N) (store : FsStore) : outcome (list N * FsStore) :=
  match find_node (fs_nodes store) mount name with
  | Some i =>
      let! node := arr_get (fs_nodes store) i in
      Ret ([0], set_nodes (upd (fs_nodes store) i
                  (mkFsNode false (fn_is_dir node) (fn_name node) (fn_name_len node) (fn_data node) (fn_data_len node) (fn_mount node))) store)
  | None => Ret ([2], store)
  end.

Definition fs_stat (mount : N) (name : list N) (store : FsStore) : outcome (list N) :=
  match find_node (fs_nodes store) mount name with
  | Some i =>
      let! node := arr_get (fs_nodes store) i in
      let! reply := arr_set (replicate 128 0) 1 (if fn_is_dir node then 1 else 0) in
      let! reply := copy_at reply 2 (to_ne_bytes (fn_data_len node)) in
      let! reply := arr_set reply 10 (fn_mount node) in
      slice reply 0 11
  | None => Ret [2]
  end.

(** The characters '/' and newline. *)
Definition SLASH : N := 47.
Definition NEWLINE : N := 10.

(** [prefix[..prefix_len]] of [ls]: the directory's path with a trailing slash. *)
Definition ls_prefix (name : list N) : outcome (list N) :=
  if bool_decide (name = [SLASH]) then Ret [SLASH]
  else
    let! last_idx := sub64 (lenN name) 1 in
    let! last := arr_get name last_idx in
    Ret (if last =? SLASH then name else name ++ [SLASH]).

(** The locals [reply], [count] and [out_idx] of [ls]. *)
Record LsState : Type := mkLs { ls_reply : list N; ls_count : N; ls_out : N }.

(** Append the name of a direct child, when it fits. *)
Definition ls_emit (suffix : list N) (s : LsState) : outcome LsState :=
  if existsb (N.eqb SLASH) suffix then Ret s
  else if ls_out s + lenN suffix + 1 <=? 128 then
    let! reply := copy_at (ls_reply s) (ls_out s) suffix in
    let! reply := arr_set reply (ls_out s + lenN suffix) NEWLINE in
    Ret (mkLs reply (ls_count s + 1) (ls_out s + lenN suffix + 1))
  else Ret s.

Definition ls_node (mount : N) (name prefix : list N) (node : FsNode) (s : LsState) : outcome LsState :=
  if fn_used node && (fn_mount node =? mount) then
    let nm := node_name node in
    if starts_with nm prefix && negb (bool_decide (nm = name)) then ls_emit (drop (length prefix) nm) s
    else if bool_decide (name = [SLASH]) && starts_with nm [SLASH] && negb (bool_decide (nm = [SLASH])) then ls_emit (drop 1 nm) s
    else Ret s
  else Ret s.

Definition fs_ls (mount : N) (name : list N) (store : FsStore) : outcome (list N) :=
  let! prefix := ls_prefix name in
  let! s := for_each (fs_nodes store) (ls_node mount name prefix) (mkLs (replicate 128 0) 0 2) in
  let! reply := arr_set (ls_reply s) 0 0 in
  let! reply := arr_set reply 1 (ls_count s mod 256) in
  slice reply 0 (ls_out s).

(** ** The handler *)

(** An operation that needs the right [need_write] on the mount. *)
Definition fs_guarded (sender : TaskId) (mount : N) (need_write : bool) (store : FsStore)
    (op : outcome (list N * FsStore)) : K (list N * FsStore) :=
  let* ok := fs_check_cap sender mount need_write in
  if ok : bool then klift op else kret ([1], store).

Definition keep (store : FsStore) (r : outcome (list N)) : outcome (list N * FsStore) := let! reply := r in Ret (reply, store).

(** The body of [fs_service_main] between the receive and the reply. *)
Definition fs_handle (msg : Message) (store : FsStore) : K (list N * FsStore) :=
  let store := mkFsStore (fs_nodes store) (wadd64 (fs_ops store) 1) in
  if negb (bool_decide (msg_tag msg = FsOp)) then kret ([4], store)
  else if msg_len msg <? 3 then kret ([4], store)
  else
    let* op := klift (arr_get (msg_payload msg) 0) in
    let* mount := klift (arr_get (msg_payload msg) 1) in
    let* name_len := klift (arr_get (msg_payload msg) 2) in
    if (30 <? name_len) || (msg_len msg <? 3 + name_len) then kret ([4], store)
    else
      let* name_bytes := klift (slice (msg_payload msg) 3 (3 + name_len)) in
      do* ktrace "fs_op" op 0 in
      let sender := msg_sender msg in
      match op with
      | 0 => fs_guarded sender mount true store (fs_mkdir mount name_bytes store)
      | 1 => fs_guarded sender mount true store (fs_write msg mount name_bytes store)
      | 2 => fs_guarded sender mount false store (keep store (fs_read mount name_bytes store))
      | 3 => fs_guarded sender mount false store (keep store (fs_ls mount name_bytes store))
      | 4 => fs_guarded sender mount true store (fs_delete mount name_bytes store)
      | 5 => fs_guarded sender mount false store (keep store (fs_stat mount name_bytes store))
      | _ => kret ([4], store)
      end.

(** [fs_service_main]: task 84, replies tagged [FsReply]. *)
Definition fs_service : Service FsStore := mkService 84 84000 FsReply fs_handle.

(** ** Specification: a finite map *)

Inductive FsObj : Type := Dir | File (data : list N).
Abbreviation FsMap := (gmap (N * list N) FsObj).

Definition node_obj (node : FsNode) : FsObj := if fn_is_dir node then Dir else File (node_data node).
Definition node_entry (node : FsNode) : option ((N * list N) * FsObj) :=
  if fn_used node then Some ((fn_mount node, node_name node), node_obj node) else None.
Definition entries (nodes : list FsNode) : list ((N * list N) * FsObj) := omap node_entry nodes.
(** The map a node table stands for. *)
Definition fs_abs (nodes : list FsNode) : FsMap := list_to_map (entries nodes).

Record node_wf (node : FsNode) : Prop := {
  nw_name : lenN (fn_name node) = FS_NAME_LEN;
  nw_name_len : fn_name_len node <= FS_NAME_LEN;
  nw_data : lenN (fn_data node) = FS_DATA_LEN;
  nw_data_len : fn_data_len node <= FS_DATA_LEN;
  nw_dir : fn_is_dir node = true -> fn_data_len node = 0
}.

Record fs_wf (nodes : list FsNode) : Prop := {
  fw_len : lenN nodes = FS_MAX_NODES;
  fw_nodes : Forall node_wf nodes;
  fw_unique : NoDup (entries nodes).*1
}.

Lemma entries_replicate n : entries (replicate n FsNode_empty) = [].
Proof. induction n; [done|]. done. Qed.

Lemma FsStore_new_wf : fs_wf (fs_nodes FsStore_new) /\ fs_abs (fs_nodes FsStore_new) = ∅.
Proof.
  change (fs_nodes FsStore_new) with (replicate 64 FsNode_empty). split.
  - split; [done|by apply Forall_replicate|]. rewrite entries_replicate. constructor.
  - unfold fs_abs. by rewrite entries_replicate.
Qed.

(** A table around one of its nodes. *)
Lemma idx_split {A} (l : list A) i x :
  idx l i = Some x -> exists l1 l2, l = l1 ++ x :: l2 /\ forall y, upd l i y = l1 ++ y :: l2.
Proof.
  intros Hx. pose proof (idx_lt _ _ _ Hx) as Hlt. rewrite idx_lookup in Hx.
  apply list_elem_of_split_length in Hx as (l1 & l2 & -> & Hi). exists l1, l2. split; [done|].
  intros y. unfold upd. rewrite (proj2 (N.ltb_lt _ _) Hlt), Hi, <- (Nat.add_0_r (length l1)). by rewrite insert_app_r.
Qed.

Lemma entries_app l1 l2 : entries (l1 ++ l2) = entries l1 ++ entries l2.
Proof. apply omap_app. Qed.

Lemma entries_middle l1 n l2 : entries (l1 ++ n :: l2) ≡ₚ option_list (node_entry n) ++ entries (l1 ++ l2).
Proof.
  rewrite !entries_app. unfold entries at 2. simpl. destruct (node_entry n) as [e|]; simpl; [|done].
  symmetry. apply Permutation_middle.
Qed.

Lemma entries_cons n l : entries (n :: l) = option_list (node_entry n) ++ entries l.
Proof. unfold entries. simpl. by destruct (node_entry n). Qed.

Lemma entries_length l : (length (entries l) <= length l)%nat.
Proof. induction l as [|n l IH]; [done|]. rewrite entries_cons, length_app. destruct (node_entry n); simpl; lia. Qed.

(** Replacing a node: what the rest of the table stands for, and both maps. *)
Lemma abs_middle l1 n l2 :
  NoDup (entries (l1 ++ n :: l2)).*1 ->
  NoDup (entries (l1 ++ l2)).*1 /\
  fs_abs (l1 ++ n :: l2) = match node_entry n with Some (k, o) => <[k := o]> (fs_abs (l1 ++ l2)) | None => fs_abs (l1 ++ l2) end /\
  (forall k o, node_entry n = Some (k, o) -> fs_abs (l1 ++ l2) !! k = None).
Proof.
  intros Hnd. pose proof (entries_middle l1 n l2) as Hp. unfold fs_abs. rewrite (list_to_map_proper _ _ Hnd Hp).
  rewrite Hp in Hnd. destruct (node_entry n) as [[k o]|]; simpl in *; [|by repeat split].
  apply NoDup_cons in Hnd as [Hk Hnd]. split; [done|]. split; [done|]. intros k' o' [= <- <-]. by apply not_elem_of_list_to_map_1.
Qed.

Lemma wf_middle l1 n l2 n' :
  fs_wf (l1 ++ n :: l2) -> node_wf n' ->
  (forall k o, node_entry n' = Some (k, o) -> fs_abs (l1 ++ l2) !! k = None) -> fs_wf (l1 ++ n' :: l2).
Proof.
  intros [Hlen Hall Hnd] Hn' Hk. destruct (abs_middle _ _ _ Hnd) as (Hrest & _). split.
  - rewrite <- Hlen. unfold lenN. by rewrite !length_app.
  - apply Forall_app in Hall as [H1 [_ H2]%Forall_cons]. apply Forall_app. split; [done|]. by apply Forall_cons.
  - rewrite entries_middle. destruct (node_entry n') as [[k o]|]; simpl; [|done]. constructor; [|done].
    by apply not_elem_of_list_to_map_2, (Hk k o).
Qed.

(** ** Looking up *)

Lemma find_node_Some nodes mount name i :
  fs_wf nodes -> find_node nodes mount name = Some i ->
  exists node l1 l2, arr_get nodes i = Ret node /\ nodes = l1 ++ node :: l2 /\ (forall y, upd nodes i y = l1 ++ y :: l2) /\
    node_wf node /\ fn_used node = true /\ fn_mount node = mount /\ node_name node = name /\
    fs_abs nodes !! (mount, name) = Some (node_obj node) /\ fs_abs (l1 ++ l2) !! (mount, name) = None.
Proof.
  intros Hwf Hf. pose proof Hwf as [_ Hall Hnd]. apply position_Some in Hf as (node & Hi & Hp & _). apply andb_prop in Hp as [Hp Hname%bool_decide_eq_true].
  apply andb_prop in Hp as [Hu Hm%N.eqb_eq]. destruct (idx_split _ _ _ Hi) as (l1 & l2 & Heq & Hupd).
  exists node, l1, l2. assert (node_entry node = Some ((mount, name), node_obj node)) as He by (unfold node_entry; rewrite Hu; congruence).
  rewrite Heq in Hnd. destruct (abs_middle _ _ _ Hnd) as (_ & Habs & Hnone). rewrite He in Habs.
  rewrite Forall_forall in Hall. split; [by apply arr_get_Ret|]. split; [done|]. split; [done|]. split; [by eapply Hall, idx_elem_of|].
  split; [done|]. split; [done|]. split; [done|]. rewrite Heq, Habs, lookup_insert_eq. split; [done|]. by apply (Hnone _ _ He).
Qed.

Lemma find_node_None nodes mount name :
  find_node nodes mount name = None -> fs_abs nodes !! (mount, name) = None.
Proof.
  intros Hf. apply not_elem_of_list_to_map_1. intros Hin.
  apply list_elem_of_fmap in Hin as ([k o] & Hk & Hin). simpl in Hk. subst k.
  apply list_elem_of_omap in Hin as (node & Hn & He). apply elem_of_idx in Hn as [i Hi].
  unfold find_node in Hf. rewrite position_None in Hf. specialize (Hf i node Hi). unfold node_entry in He.
  destruct (fn_used node); [|done]. injection He as <- <- <-. by rewrite N.eqb_refl, bool_decide_eq_true_2 in Hf.
Qed.

Lemma free_node_Some nodes i :
  fs_wf nodes -> free_node nodes = Some i ->
  exists node l1 l2, arr_get nodes i = Ret node /\ nodes = l1 ++ node :: l2 /\ (forall y, upd nodes i y = l1 ++ y :: l2) /\
    node_wf node /\ fs_abs (l1 ++ l2) = fs_abs nodes /\ N.of_nat (size (fs_abs nodes)) < FS_MAX_NODES.
Proof.
  intros [Hlen Hall Hnd] Hf. apply position_Some in Hf as (node & Hi & Hu%negb_true_iff & _).
  destruct (idx_split _ _ _ Hi) as (l1 & l2 & -> & Hupd). exists node, l1, l2.
  destruct (abs_middle _ _ _ Hnd) as (Hnd' & Habs & _). assert (node_entry node = None) as He by (unfold node_entry; by rewrite Hu).
  rewrite He in Habs. rewrite Forall_forall in Hall.
  split; [by apply arr_get_Ret|]. split; [done|]. split; [done|]. split; [apply Hall; set_solver|]. split; [done|].
  rewrite Habs. unfold fs_abs. rewrite map_size_list_to_map by done. rewrite <- Hlen. unfold lenN, entries.
  pose proof (entries_length (l1 ++ l2)) as Hle. unfold entries in Hle. rewrite !length_app in *. simpl. lia.
Qed.

Lemma free_node_None nodes : fs_wf nodes -> free_node nodes = None -> N.of_nat (size (fs_abs nodes)) = FS_MAX_NODES.
Proof.
  intros [Hlen _ Hnd] Hf. unfold fs_abs. rewrite map_size_list_to_map by done. rewrite <- Hlen. unfold lenN. f_equal.
  unfold free_node in Hf. rewrite position_None in Hf. clear -Hf.
  assert (forall n, n ∈ nodes -> fn_used n = true) as Hu by (intros n [i Hi]%elem_of_idx; by apply negb_false_iff, (Hf i)).
  clear Hf. induction nodes as [|n nodes IH]; [done|]. rewrite entries_cons, length_app.
  unfold node_entry. rewrite (Hu n) by left. simpl. f_equal. apply IH. intros. apply Hu. by right.
Qed.

(** ** The operations on the map *)

(** Bytes [a..a+n] of a request. *)
Definition bytes_at (a n : N) (msg : Message) : list N := take (N.to_nat n) (drop (N.to_nat a) (msg_payload msg)).
Definition byte_at (i : N) (msg : Message) : N := default 0 (idx (msg_payload msg) i).
Definition req_name (msg : Message) : list N := bytes_at 3 (byte_at 2 msg) msg.

Definition full (m : FsMap) : bool := N.of_nat (size m) =? FS_MAX_NODES.

Definition spec_mkdir (key : N * list N) (m : FsMap) : list N * FsMap :=
  match m !! key with
  | Some _ => ([4], m)
  | None => if full m then ([3], m) else ([0], <[key := Dir]> m)
  end.

Definition spec_write (msg : Message) (key : N * list N) (m : FsMap) : list N * FsMap :=
  let n := byte_at 33 msg in
  if (94 <? n) || (msg_len msg <? 34 + n) then ([4], m)
  else match m !! key with
       | Some Dir => ([4], m)
       | Some (File _) => ([0], <[key := File (bytes_at 34 n msg)]> m)
       | None => if full m then ([3], m) else ([0], <[key := File (bytes_at 34 n msg)]> m)
       end.

Definition spec_read (key : N * list N) (m : FsMap) : list N :=
  match m !! key with Some (File d) => 0 :: lenN d :: d | _ => [2] end.

Definition spec_delete (key : N * list N) (m : FsMap) : list N * FsMap :=
  match m !! key with Some _ => ([0], delete key m) | None => ([2], m) end.

Definition spec_stat (key : N * list N) (m : FsMap) : list N :=
  match m !! key with
  | Some Dir => 0 :: 1 :: to_ne_bytes 0 ++ [key.1]
  | Some (File d) => 0 :: 0 :: to_ne_bytes (lenN d) ++ [key.1]
  | None => [2]
  end.

(** [s] is the last component of an entry directly under [name]. *)
Definition child_of (m : FsMap) (mount : N) (name prefix s : list N) : Prop :=
  is_Some (m !! (mount, prefix ++ s)) /\ prefix ++ s <> name /\ SLASH ∉ s.

(** The names that fit into a reply from position [out] on, in order. *)
Fixpoint fit (out : N) (kids : list (list N)) : list (list N) :=
  match kids with
  | [] => []
  | s :: kids' => if out + lenN s + 1 <=? 128 then s :: fit (out + lenN s + 1) kids' else fit out kids'
  end.

Definition listing (l : list (list N)) : list N := concat ((fun s => s ++ [NEWLINE]) <$> l).

(** A reply to [ls]: the children that fit, one per line, each once. *)
Definition spec_ls (mount : N) (name : list N) (m : FsMap) (reply : list N) : Prop :=
  exists prefix kids, ls_prefix name = Ret prefix /\ NoDup kids /\ (forall s, s ∈ kids <-> child_of m mount name prefix s) /\
    reply = 0 :: lenN (fit 2 kids) :: listing (fit 2 kids).

(** ** Each operation implements its specification *)

(** The result of an operation on a table with its meaning. *)
Definition implements (nodes : list FsNode) (spec : list N * FsMap) (ops : N) (r : outcome (list N * FsStore)) : Prop :=
  exists nodes', r = Ret (spec.1, mkFsStore nodes' ops) /\ fs_wf nodes' /\ fs_abs nodes' = spec.2.

Lemma copy_front (l src : list N) :
  lenN src <= lenN l ->
  exists l', copy_at l 0 src = Ret l' /\ lenN l' = lenN l /\ take (N.to_nat (lenN src)) l' = src.
Proof.
  intros Hle. rewrite copy_at_ok by lia. eexists. split; [done|]. rewrite N.add_0_l. simpl. unfold lenN in *. rewrite Nat2N.id. split.
  - rewrite length_app, length_drop. lia.
  - apply take_app_length.
Qed.

Lemma node_data_len node : node_wf node -> lenN (node_data node) = fn_data_len node.
Proof. intros [_ _ Hd Hl _]. unfold node_data, lenN in *. rewrite length_take. lia. Qed.

(** A free node filled with a new entry. *)
Lemma fill_free nodes i node nm name dir data dlen mount d :
  fs_wf nodes -> free_node nodes = Some i -> arr_get nodes i = Ret node -> fs_abs nodes !! (mount, name) = None ->
  lenN nm = FS_NAME_LEN -> lenN name <= FS_NAME_LEN -> take (N.to_nat (lenN name)) nm = name ->
  lenN data = FS_DATA_LEN -> dlen <= FS_DATA_LEN -> (dir = true -> dlen = 0) -> take (N.to_nat dlen) data = d ->
  let new := mkFsNode true dir nm (lenN name) data dlen mount in
  fs_wf (upd nodes i new) /\ fs_abs (upd nodes i new) = <[(mount, name) := if dir then Dir else File d]> (fs_abs nodes).
Proof.
  intros Hwf Hf Hget Hnone Hn1 Hn2 Hn3 Hd1 Hd2 Hdir Hd3 new.
  destruct (free_node_Some _ _ Hwf Hf) as (node' & l1 & l2 & _ & -> & Hupd & _ & Habs & _). rewrite Hupd.
  assert (node_entry new = Some ((mount, name), if dir then Dir else File d)) as He.
  { unfold node_entry, new, node_name, node_obj, node_data. simpl. by rewrite Hn3, Hd3. }
  assert (fs_wf (l1 ++ new :: l2)) as Hwf'.
  { eapply wf_middle; [done|by split|]. rewrite He. intros k o [= <- <-]. by rewrite Habs. }
  split; [done|]. destruct (abs_middle l1 new l2 (fw_unique _ Hwf')) as (_ & -> & _). by rewrite He, Habs.
Qed.

Lemma fs_mkdir_implements mount name store :
  fs_wf (fs_nodes store) -> lenN name <= FS_NAME_LEN ->
  implements (fs_nodes store) (spec_mkdir (mount, name) (fs_abs (fs_nodes store))) (fs_ops store) (fs_mkdir mount name store).
Proof.
  intros Hwf Hlen. unfold fs_mkdir, spec_mkdir, implements. destruct store as [nodes ops]. cbn [fs_nodes fs_ops] in *.
  destruct (find_node nodes mount name) as [i|] eqn:Hf; cbn [is_some].
  - destruct (find_node_Some _ _ _ _ Hwf Hf) as (node & l1 & l2 & _ & _ & _ & _ & _ & _ & _ & -> & _). by exists nodes.
  - pose proof (find_node_None _ _ _ Hf) as Hnone. rewrite Hnone. unfold full. destruct (free_node nodes) as [i|] eqn:Hfree.
    + destruct (free_node_Some _ _ Hwf Hfree) as (node & l1 & l2 & Hget & _ & _ & [Hn1 _ Hd1 _ _] & _ & Hsz).
      rewrite Hget. cbn [obind]. destruct (copy_front (fn_name node) name) as (nm & -> & Hnm & Htk); [by rewrite Hn1|]. cbn [obind].
      rewrite (proj2 (N.eqb_neq _ _)) by lia. eexists. split; [done|].
      by apply (fill_free nodes i node nm name true (fn_data node) 0 mount []); rewrite ?Hnm.
    + rewrite (free_node_None _ Hwf Hfree). by exists nodes.
Qed.

(** An entry whose contents change, or that goes away. *)
Lemma replace_node nodes mount name i node new :
  fs_wf nodes -> find_node nodes mount name = Some i -> arr_get nodes i = Ret node -> node_wf new ->
  fn_used new = false \/ node_entry new = Some ((mount, name), node_obj new) ->
  fs_wf (upd nodes i new) /\
  fs_abs (upd nodes i new) = if fn_used new then <[(mount, name) := node_obj new]> (fs_abs nodes) else delete (mount, name) (fs_abs nodes).
Proof.
  intros Hwf Hf Hget Hnew Hcase. pose proof (fw_unique _ Hwf) as Hnd.
  destruct (find_node_Some _ _ _ _ Hwf Hf) as (node' & l1 & l2 & _ & -> & Hupd & _ & Hu & Hm & Hn & _ & Hnone). rewrite Hupd.
  assert (fs_wf (l1 ++ new :: l2)) as Hwf'.
  { eapply wf_middle; [done..|]. intros k o Hk. destruct Hcase as [He|He].
    - unfold node_entry in Hk. by rewrite He in Hk.
    - rewrite He in Hk. by injection Hk as <- <-. }
  split; [done|]. destruct (abs_middle l1 new l2 (fw_unique _ Hwf')) as (_ & -> & _).
  destruct (abs_middle l1 node' l2 Hnd) as (_ & -> & _).
  assert (node_entry node' = Some ((mount, name), node_obj node')) as -> by (unfold node_entry; rewrite Hu; congruence).
  destruct Hcase as [He|He].
  - unfold node_entry. rewrite He. by rewrite delete_insert_id.
  - rewrite He. unfold node_entry in He. destruct (fn_used new); [|done]. by rewrite insert_insert_eq.
Qed.

Lemma fs_write_implements msg mount name store :
  fs_wf (fs_nodes store) -> lenN name <= FS_NAME_LEN -> request_ok msg ->
  implements (fs_nodes store) (spec_write msg (mount, name) (fs_abs (fs_nodes store))) (fs_ops store) (fs_write msg mount name store).
Proof.
  intros Hwf Hlen [Hp Hl _ _]. unfold fs_write, spec_write, implements, byte_at. destruct store as [nodes ops]. cbn [fs_nodes fs_ops] in *.
  destruct (arr_get_ok (msg_payload msg) 33) as (n & Hn & ->); [by rewrite Hp|]. rewrite Hn. cbn [obind from_option id].
  destruct ((94 <? n) || (msg_len msg <? 34 + n)) eqn:Hbad; [by exists nodes|].
  apply orb_false_iff in Hbad as [H94 Hml]. bool_to_prop. rewrite slice_ok by lia. cbn [obind].
  replace (34 + n - 34) with n by lia. fold (bytes_at 34 n msg). set (d := bytes_at 34 n msg).
  assert (lenN d = n) as Hd by (unfold d, bytes_at, lenN in *; rewrite length_take, length_drop; lia).
  assert (forall data, lenN data = FS_DATA_LEN -> exists data', copy_at data 0 d = Ret data' /\ lenN data' = FS_DATA_LEN /\ take (N.to_nat n) data' = d) as Hcopy.
  { intros data Hda. destruct (copy_front data d) as (data' & -> & ? & ?); [unfold FS_DATA_LEN in *; lia|]. exists data'. rewrite <- Hd. split; [done|]. split; [congruence|done]. }
  destruct (find_node nodes mount name) as [i|] eqn:Hf.
  - destruct (find_node_Some _ _ _ _ Hwf Hf) as (node & l1 & l2 & Hget & _ & _ & [Hn1 Hn2 Hd1 _ _] & Hu & Hm & Hname & -> & _).
    rewrite Hget. cbn [obind]. unfold node_obj. destruct (fn_is_dir node) eqn:Hdir; [by exists nodes|].
    destruct (Hcopy _ Hd1) as (data' & -> & Hl' & Htk). cbn [obind]. eexists. split; [done|].
    destruct (replace_node nodes mount name i node (mkFsNode (fn_used node) false (fn_name node) (fn_name_len node) data' n (fn_mount node))) as [? Habs];
      [done..|by split|right; unfold node_entry, node_name in *; simpl; by rewrite Hu, Hm, Hname|].
    split; [done|]. rewrite Habs. simpl. rewrite Hu. unfold node_obj, node_data. simpl. by rewrite Htk.
  - pose proof (find_node_None _ _ _ Hf) as Hnone. rewrite Hnone. unfold full. destruct (free_node nodes) as [i|] eqn:Hfree.
    + destruct (free_node_Some _ _ Hwf Hfree) as (node & l1 & l2 & Hget & _ & _ & [Hn1 _ Hd1 _ _] & _ & Hsz).
      rewrite Hget. cbn [obind]. destruct (copy_front (fn_name node) name) as (nm & -> & Hnm & Htk); [by rewrite Hn1|]. cbn [obind].
      destruct (Hcopy _ Hd1) as (data' & -> & Hl' & Htk'). cbn [obind].
      rewrite (proj2 (N.eqb_neq _ _)) by lia. eexists. split; [done|].
      by apply (fill_free nodes i node nm name false data' n mount d); rewrite ?Hnm.
    + rewrite (free_node_None _ Hwf Hfree). by exists nodes.
Qed.

Lemma fs_delete_implements mount name store :
  fs_wf (fs_nodes store) ->
  implements (fs_nodes store) (spec_delete (mount, name) (fs_abs (fs_nodes store))) (fs_ops store) (fs_delete mount name store).
Proof.
  intros Hwf. unfold fs_delete, spec_delete, implements. destruct store as [nodes ops]. cbn [fs_nodes fs_ops] in *.
  destruct (find_node nodes mount name) as [i|] eqn:Hf.
  - destruct (find_node_Some _ _ _ _ Hwf Hf) as (node & l1 & l2 & Hget & _ & _ & [] & Hu & Hm & Hname & -> & _).
    rewrite Hget. cbn [obind]. eexists. split; [done|].
    by apply (replace_node nodes mount name i node (mkFsNode false (fn_is_dir node) (fn_name node) (fn_name_len node) (fn_data node) (fn_data_len node) (fn_mount node)));
      [..|split|left].
  - rewrite (find_node_None _ _ _ Hf). by exists nodes.
Qed.

Lemma fs_read_spec mount name store :
  fs_wf (fs_nodes store) -> fs_read mount name store = Ret (spec_read (mount, name) (fs_abs (fs_nodes store))).
Proof.
  intros Hwf. unfold fs_read, spec_read. destruct (find_node (fs_nodes store) mount name) as [i|] eqn:Hf.
  - destruct (find_node_Some _ _ _ _ Hwf Hf) as (node & l1 & l2 & Hget & _ & _ & Hw & _ & _ & _ & -> & _).
    rewrite Hget. cbn [obind]. unfold node_obj. destruct (fn_is_dir node); [done|]. pose proof (node_data_len _ Hw) as Hd. destruct Hw as [_ _ Hd1 Hd2 _].
    unfold FS_DATA_LEN in *. rewrite N.mod_small by lia. rewrite zpad_zero, (zpad_set 1) by (done || simpl; lia). cbn [obind].
    rewrite slice_ok by lia. cbn [obind]. rewrite N.sub_0_r. fold (node_data node). change (drop (N.to_nat 0) (fn_data node)) with (fn_data node).
    fold (node_data node). rewrite (zpad_copy 2) by (unfold lenN in *; simpl; lia). cbn [obind].
    rewrite zpad_slice by (unfold lenN in *; rewrite ?length_app; simpl; lia). simpl. by rewrite Hd.
  - by rewrite (find_node_None _ _ _ Hf).
Qed.

Lemma fs_stat_spec mount name store :
  fs_wf (fs_nodes store) ->
  fs_stat mount name store = Ret (spec_stat (mount, name) (fs_abs (fs_nodes store))).
Proof.
  intros Hwf. unfold fs_stat, spec_stat. destruct (find_node (fs_nodes store) mount name) as [i|] eqn:Hf.
  - destruct (find_node_Some _ _ _ _ Hwf Hf) as (node & l1 & l2 & Hget & Hsp & _ & Hw & Hu & Hm & _ & -> & _).
    rewrite Hget. cbn [obind]. pose proof (to_ne_bytes_length (fn_data_len node)) as Hb.
    rewrite zpad_zero, (zpad_set 1) by (done || simpl; lia). cbn [obind].
    rewrite (zpad_copy 2) by (done || simpl; lia). cbn [obind].
    rewrite (zpad_set 10) by (unfold lenN; rewrite ?length_app; simpl; lia). cbn [obind].
    rewrite (zpad_slice 11) by (unfold lenN; rewrite ?length_app; simpl; lia). unfold node_obj. cbn [fst].
    destruct (fn_is_dir node) eqn:Hdir.
    + rewrite (nw_dir _ Hw Hdir). by rewrite Hm.
    + rewrite node_data_len by done. by rewrite Hm.
  - by rewrite (find_node_None _ _ _ Hf).
Qed.

(** ** Listing *)

Lemma starts_with_spec s pat : starts_with s pat = true <-> s = pat ++ drop (length pat) s.
Proof.
  unfold starts_with. rewrite bool_decide_eq_true. split.
  - intros H. rewrite <- (take_drop (length pat) s) at 1. by rewrite H.
  - intros ->. by rewrite take_app_length.
Qed.

Lemma starts_with_app pat s : starts_with (pat ++ s) pat = true.
Proof. apply starts_with_spec. by rewrite drop_app_length. Qed.

Lemma existsb_slash s : existsb (N.eqb SLASH) s = false <-> SLASH ∉ s.
Proof.
  split.
  - intros H Hin. apply list_elem_of_In in Hin. assert (existsb (N.eqb SLASH) s = true); [|congruence].
    apply existsb_exists. exists SLASH. split; [done|]. apply N.eqb_refl.
  - intros H. destruct (existsb (N.eqb SLASH) s) eqn:He; [|done]. apply existsb_exists in He as (x & Hx & <-%N.eqb_eq).
    by apply list_elem_of_In in Hx.
Qed.

(** The last component, for a node directly under [name]. *)
Definition child (mount : N) (name prefix : list N) (node : FsNode) : option (list N) :=
  let nm := node_name node in
  if fn_used node && (fn_mount node =? mount) && starts_with nm prefix && negb (bool_decide (nm = name)) &&
     negb (existsb (N.eqb SLASH) (drop (length prefix) nm))
  then Some (drop (length prefix) nm) else None.

Lemma child_Some mount name prefix node s :
  child mount name prefix node = Some s <->
  fn_used node = true /\ fn_mount node = mount /\ node_name node = prefix ++ s /\ prefix ++ s <> name /\ SLASH ∉ s.
Proof.
  unfold child. split.
  - destruct (_ && _) eqn:H; [|done]. intros [= <-]. apply andb_prop in H as [H Hs]. apply andb_prop in H as [H Hn].
    apply andb_prop in H as [H Hp]. apply andb_prop in H as [Hu Hm]. bool_to_prop.
    apply bool_decide_eq_false in Hn. apply starts_with_spec in Hp. rewrite <- Hp. by rewrite <- existsb_slash.
  - intros (-> & -> & -> & Hn & Hs). rewrite N.eqb_refl, starts_with_app, bool_decide_eq_false_2, drop_app_length by done.
    apply existsb_slash in Hs. by rewrite Hs.
Qed.

Lemma ls_prefix_slash name prefix : ls_prefix name = Ret prefix -> name = [SLASH] -> prefix = [SLASH].
Proof. unfold ls_prefix. intros H ->. rewrite bool_decide_eq_true_2 in H by done. congruence. Qed.

(** The part of [ls_emit] that appends a name. *)
Definition emit (suffix : list N) (s : LsState) : outcome LsState :=
  if ls_out s + lenN suffix + 1 <=? 128 then
    let! reply := copy_at (ls_reply s) (ls_out s) suffix in
    let! reply := arr_set reply (ls_out s + lenN suffix) NEWLINE in
    Ret (mkLs reply (ls_count s + 1) (ls_out s + lenN suffix + 1))
  else Ret s.

Lemma ls_node_child mount name prefix node s :
  ls_prefix name = Ret prefix ->
  ls_node mount name prefix node s = match child mount name prefix node with Some suffix => emit suffix s | None => Ret s end.
Proof.
  intros Hp. unfold ls_node, child. destruct (fn_used node && (fn_mount node =? mount)); [|done]. cbn [andb].
  destruct (starts_with (node_name node) prefix && negb (bool_decide (node_name node = name))) eqn:Hc; cbn [andb].
  - unfold ls_emit, emit. destruct (existsb _ _); done.
  - destruct (decide (name = [SLASH])) as [Hn|Hn]; [|by rewrite (bool_decide_eq_false_2 (name = _))]. rewrite (bool_decide_eq_true_2 (name = _)) by done.
    rewrite (ls_prefix_slash _ _ Hp Hn), Hn in Hc. cbn [andb]. by rewrite Hc.
Qed.

Lemma listing_app l1 l2 : listing (l1 ++ l2) = listing l1 ++ listing l2.
Proof. unfold listing. by rewrite fmap_app, concat_app. Qed.

Lemma listing_one s : listing [s] = s ++ [NEWLINE].
Proof. unfold listing. simpl. by rewrite app_nil_r. Qed.

Lemma lenN_listing_cons s l : lenN (listing (s :: l)) = lenN s + 1 + lenN (listing l).
Proof. change (s :: l) with ([s] ++ l). by rewrite listing_app, listing_one, !lenN_app. Qed.

Lemma fit_snoc out l s :
  fit out (l ++ [s]) = fit out l ++ (if out + lenN (listing (fit out l)) + lenN s + 1 <=? 128 then [s] else []).
Proof.
  revert out. induction l as [|x l IH]; intros out; simpl.
  - change (lenN (listing [])) with 0. rewrite N.add_0_r. by case_match.
  - case_match; [|apply IH]. simpl. rewrite IH, lenN_listing_cons. do 3 f_equal.
    by replace (out + lenN x + 1 + lenN (listing (fit (out + lenN x + 1) l))) with (out + (lenN x + 1 + lenN (listing (fit (out + lenN x + 1) l)))) by lia.
Qed.

Lemma fit_bound out l : out <= 128 -> out + lenN (listing (fit out l)) <= 128.
Proof.
  revert out. induction l as [|x l IH]; intros out Ho; simpl; [change (lenN (listing [])) with 0; lia|].
  case_match; bool_to_prop; [|by apply IH]. rewrite lenN_listing_cons. specialize (IH (out + lenN x + 1)). lia.
Qed.

Lemma listing_count l : lenN l <= lenN (listing l).
Proof. induction l as [|s l IH]; [done|]. rewrite lenN_listing_cons. unfold lenN in *. simpl. lia. Qed.

(** The state of the walk after some children. *)
Definition walked (kids : list (list N)) : LsState :=
  let l := fit 2 kids in mkLs (zpad (0 :: 0 :: listing l)) (lenN l) (2 + lenN (listing l)).

Lemma emit_walked kids s : emit s (walked kids) = Ret (walked (kids ++ [s])).
Proof.
  pose proof (fit_bound 2 kids ltac:(done)) as Hb. unfold emit, walked. cbn [ls_reply ls_count ls_out]. rewrite fit_snoc.
  destruct (2 + lenN (listing (fit 2 kids)) + lenN s + 1 <=? 128) eqn:Hfit; bool_to_prop; [|by rewrite app_nil_r].
  rewrite (zpad_copy (2 + lenN (listing (fit 2 kids)))) by (unfold lenN in *; simpl; lia). cbn [obind].
  rewrite zpad_set by (unfold lenN in *; rewrite ?length_app; simpl; rewrite ?length_app; lia). cbn [obind].
  f_equal. rewrite listing_app, listing_one. f_equal.
  - f_equal. simpl. by rewrite <- app_assoc.
  - by rewrite lenN_app.
  - rewrite !lenN_app. change (lenN [NEWLINE]) with 1. lia.
Qed.

Lemma ls_walk mount name prefix nodes kids :
  ls_prefix name = Ret prefix ->
  for_each nodes (ls_node mount name prefix) (walked kids) = Ret (walked (kids ++ omap (child mount name prefix) nodes)).
Proof.
  intros Hp. revert kids. induction nodes as [|n nodes IH]; intros kids; [by rewrite app_nil_r|].
  cbn [for_each]. rewrite ls_node_child by done. simpl omap. destruct (child mount name prefix n) as [s|].
  - rewrite emit_walked. cbn [obind]. rewrite IH. by rewrite <- app_assoc.
  - cbn [obind]. apply IH.
Qed.

Lemma kids_key mount name prefix nodes s :
  s ∈ omap (child mount name prefix) nodes -> (mount, prefix ++ s) ∈ (entries nodes).*1.
Proof.
  intros (n & Hn & Hc)%list_elem_of_omap. apply child_Some in Hc as (Hu & Hm & Hnm & _ & _).
  apply list_elem_of_fmap. exists ((mount, prefix ++ s), node_obj n). split; [done|].
  apply list_elem_of_omap. exists n. split; [done|]. unfold node_entry. by rewrite Hu, Hm, Hnm.
Qed.

Lemma kids_spec mount name prefix nodes :
  NoDup (entries nodes).*1 ->
  NoDup (omap (child mount name prefix) nodes) /\
  (forall s, s ∈ omap (child mount name prefix) nodes <-> child_of (fs_abs nodes) mount name prefix s).
Proof.
  intros Hnd. split.
  - induction nodes as [|n nodes IH]; [constructor|]. rewrite entries_cons, fmap_app in Hnd. apply NoDup_app in Hnd as (_ & Hd & Hnd).
    simpl. destruct (child mount name prefix n) as [s|] eqn:Hc; [|by apply IH]. constructor; [|by apply IH].
    intros Hs%kids_key. apply (Hd (mount, prefix ++ s)); [|done]. apply child_Some in Hc as (Hu & Hm & Hnm & _ & _).
    unfold node_entry. rewrite Hu, Hm, Hnm. left.
  - intros s. unfold child_of. split.
    + intros Hs. pose proof Hs as (n & Hn & Hc)%list_elem_of_omap. apply child_Some in Hc as (Hu & Hm & Hnm & Hne & Hsl).
      split; [|done]. exists (node_obj n). apply elem_of_list_to_map_1; [done|]. apply list_elem_of_omap. exists n. split; [done|].
      unfold node_entry. by rewrite Hu, Hm, Hnm.
    + intros ([o Ho] & Hne & Hsl). apply elem_of_list_to_map_2, list_elem_of_omap in Ho as (n & Hn & He).
      apply list_elem_of_omap. exists n. split; [done|]. apply child_Some. unfold node_entry in He.
      destruct (fn_used n) eqn:Hu; [|done]. by injection He as Hm Hnm _.
Qed.

Lemma ls_prefix_ok name : name <> [] -> exists prefix, ls_prefix name = Ret prefix.
Proof.
  intros Hne. unfold ls_prefix. case_bool_decide; [by eexists|].
  assert (0 < lenN name) as Hl by (destruct name; [done|]; unfold lenN; simpl; lia).
  rewrite sub64_ok by lia. cbn [obind]. destruct (arr_get_ok name (lenN name - 1)) as (x & _ & ->); [lia|]. by eexists.
Qed.

Lemma fs_ls_spec mount name store :
  fs_wf (fs_nodes store) -> name <> [] ->
  exists reply, fs_ls mount name store = Ret reply /\ lenN reply <= 128 /\ spec_ls mount name (fs_abs (fs_nodes store)) reply.
Proof.
  intros Hwf Hne. destruct (ls_prefix_ok name Hne) as [prefix Hp]. unfold fs_ls. rewrite Hp. cbn [obind].
  change (mkLs (replicate 128 0) 0 2) with (walked []). rewrite ls_walk by done. cbn [obind app].
  set (kids := omap (child mount name prefix) (fs_nodes store)). destruct (kids_spec mount name prefix _ (fw_unique _ Hwf)) as [Hnd Hkids].
  pose proof (fit_bound 2 kids ltac:(done)) as Hb. pose proof (listing_count (fit 2 kids)) as Hc.
  unfold walked. cbn [ls_reply ls_count ls_out]. set (L := listing (fit 2 kids)) in *. set (c := lenN (fit 2 kids)) in *.
  assert (forall a b, lenN (zpad (a :: b :: L)) = 128) as Hz by (intros; apply zpad_len; unfold lenN in *; simpl; lia).
  rewrite arr_set_ok by (by rewrite Hz). cbn [obind].
  assert (forall a b x, upd (zpad (a :: b :: L)) 0 x = zpad (x :: b :: L)) as Hu0.
  { intros. unfold upd. rewrite Hz. done. }
  assert (forall a b x, upd (zpad (a :: b :: L)) 1 x = zpad (a :: x :: L)) as Hu1.
  { intros. unfold upd. rewrite Hz. done. }
  rewrite Hu0, arr_set_ok, Hu1 by (by rewrite Hz). cbn [obind]. rewrite N.mod_small by lia.
  rewrite zpad_slice by (unfold lenN in *; simpl; lia). eexists. split; [done|].
  split; [unfold lenN in *; simpl; lia|]. by exists prefix, kids.
Qed.

(** ** Requests *)

(** The shape every request must have. *)
Definition fs_shaped (msg : Message) : bool :=
  bool_decide (msg_tag msg = FsOp) && (3 <=? msg_len msg) && (byte_at 2 msg <=? 30) && (3 + byte_at 2 msg <=? msg_len msg).

(** An [ls] names a directory. *)
Definition fs_accepts (msg : Message) : Prop := byte_at 0 msg = 3 -> byte_at 2 msg <> 0.

Definition fs_may (s : Scheduler) (msg : Message) (w : bool) : bool := holds (fs_allows (byte_at 1 msg) w) s (msg_sender msg).

(** The request whose handling underflows: a permitted [ls] with an empty path. *)
Definition fs_underflows (s : Scheduler) (msg : Message) : bool :=
  fs_shaped msg && (byte_at 0 msg =? 3) && (byte_at 2 msg =? 0) && fs_may s msg false.

Lemma fs_accepts_runs s msg : fs_accepts msg -> fs_underflows s msg = false.
Proof.
  intros Hacc. unfold fs_underflows. destruct (N.eqb_spec (byte_at 0 msg) 3) as [H3|]; [|by rewrite andb_false_r].
  rewrite (proj2 (N.eqb_neq _ _) (Hacc H3)). by rewrite andb_false_r.
Qed.

(** What the service answers to a request in a system state [s], with the map
    before and after. *)
Definition fs_answers (s : Scheduler) (msg : Message) (m : FsMap) (reply : list N) (m' : FsMap) : Prop :=
  let key := (byte_at 1 msg, req_name msg) in
  let writing r := (reply, m') = if fs_may s msg true then r else ([1], m) in
  let reading r := (reply, m') = if fs_may s msg false then (r, m) else ([1], m) in
  if fs_shaped msg then
    match byte_at 0 msg with
    | 0 => writing (spec_mkdir key m)
    | 1 => writing (spec_write msg key m)
    | 2 => reading (spec_read key m)
    | 3 => m' = m /\ if fs_may s msg false then spec_ls (byte_at 1 msg) (req_name msg) m reply else reply = [1]
    | 4 => writing (spec_delete key m)
    | 5 => reading (spec_stat key m)
    | _ => (reply, m') = ([4], m)
    end
  else (reply, m') = ([4], m).

Lemma spec_read_len key m : (forall d, m !! key = Some (File d) -> lenN d <= FS_DATA_LEN) -> lenN (spec_read key m) <= 128.
Proof.
  intros Hd. unfold spec_read. destruct (m !! key) as [[|d]|]; try (vm_compute; congruence).
  specialize (Hd d eq_refl). unfold lenN, FS_DATA_LEN in *. simpl. lia.
Qed.

Lemma abs_data nodes key d : fs_wf nodes -> fs_abs nodes !! key = Some (File d) -> lenN d <= FS_DATA_LEN.
Proof.
  intros [_ Hall _] Hd. apply elem_of_list_to_map_2, list_elem_of_omap in Hd as (n & Hn & He).
  rewrite Forall_forall in Hall. specialize (Hall n Hn). unfold node_entry, node_obj in He.
  destruct (fn_used n); [|done]. injection He as _ He. destruct (fn_is_dir n); [done|]. injection He as <-.
  rewrite node_data_len by done. by destruct Hall.
Qed.

Lemma wp_fs_guarded sender mount w store op (Q : list N * FsStore -> Kernel -> Prop) k :
  kernel_wf k -> Q ([1], store) k \/ holds (fs_allows mount w) (k_sched k) sender = true ->
  (holds (fs_allows mount w) (k_sched k) sender = true -> exists r, op = Ret r /\ Q r k) ->
  wp (fs_guarded sender mount w store op) Q k.
Proof.
  intros Hk Hno Hyes. unfold fs_guarded, fs_check_cap. apply wp_kbind, wp_sender_holds; [done|].
  destruct (holds (fs_allows mount w) (k_sched k) sender).
  - destruct (Hyes eq_refl) as (r & -> & HQ). by eapply wp_klift.
  - destruct Hno as [Hno|]; [by apply wp_kret|done].
Qed.

(** What a correct answer leaves: the table stays well formed, the reply fits a
    message and only the trace ring of the kernel differs. *)
Definition fs_post (k : Kernel) (msg : Message) (nodes : list FsNode) (r : list N * FsStore) (k' : Kernel) : Prop :=
  fs_wf (fs_nodes r.2) /\ fs_answers (k_sched k) msg (fs_abs nodes) r.1 (fs_abs (fs_nodes r.2)) /\ lenN r.1 <= 128 /\ only_traced k k'.

Lemma implements_reply nodes spec ops r :
  implements nodes spec ops r -> exists p, r = Ret p /\ fs_wf (fs_nodes p.2) /\ p.1 = spec.1 /\ fs_abs (fs_nodes p.2) = spec.2.
Proof. intros (nodes' & -> & Hwf & Habs). by eexists. Qed.

Lemma spec_small_mkdir key m : lenN (spec_mkdir key m).1 <= 128.
Proof. unfold spec_mkdir. repeat case_match; vm_compute; congruence. Qed.
Lemma spec_small_write msg key m : lenN (spec_write msg key m).1 <= 128.
Proof. unfold spec_write. repeat case_match; vm_compute; congruence. Qed.
Lemma spec_small_delete key m : lenN (spec_delete key m).1 <= 128.
Proof. unfold spec_delete. repeat case_match; vm_compute; congruence. Qed.
Lemma spec_small_stat key m : lenN (spec_stat key m) <= 128.
Proof. unfold spec_stat. repeat case_match; vm_compute; congruence. Qed.

(** The six operations, once the request is decoded. *)
Lemma fs_dispatch msg store k k0 name :
  kernel_wf k0 -> only_traced k k0 -> request_ok msg -> fs_underflows (k_sched k) msg = false -> fs_wf (fs_nodes store) ->
  fs_shaped msg = true -> name = req_name msg -> lenN name <= FS_NAME_LEN -> (byte_at 2 msg <> 0 -> name <> []) ->
  let sender := msg_sender msg in let mount := byte_at 1 msg in
  wp (match byte_at 0 msg with
      | 0 => fs_guarded sender mount true store (fs_mkdir mount name store)
      | 1 => fs_guarded sender mount true store (fs_write msg mount name store)
      | 2 => fs_guarded sender mount false store (keep store (fs_read mount name store))
      | 3 => fs_guarded sender mount false store (keep store (fs_ls mount name store))
      | 4 => fs_guarded sender mount true store (fs_delete mount name store)
      | 5 => fs_guarded sender mount false store (keep store (fs_stat mount name store))
      | _ => kret ([4], store)
      end) (fs_post k msg (fs_nodes store)) k0.
Proof.
  intros Hk Htr Hreq Hacc Hwf Hsh -> Hlen Hne sender mount. pose proof (only_traced_sched _ _ Htr) as Hs.
  unfold fs_underflows, fs_may in Hacc. rewrite Hsh in Hacc. cbn [andb] in Hacc.
  unfold fs_post, fs_answers, fs_may. rewrite Hsh, <- Hs. rewrite <- Hs in Hacc. fold mount sender in Hacc |- *.
  assert (forall w op, implements (fs_nodes store) op (fs_ops store) w -> lenN op.1 <= 128 -> exists r, w = Ret r /\
    fs_wf (fs_nodes r.2) /\ (r.1, fs_abs (fs_nodes r.2)) = op /\ lenN r.1 <= 128 /\ only_traced k k0) as Himp.
  { intros w [o1 o2] (r & -> & Hw & H1 & H2)%implements_reply Hl. exists r. simpl in *. subst. done. }
  destruct (decide (byte_at 0 msg < 6)) as [Hlt|Hge].
  2: { assert (exists op, byte_at 0 msg = op /\ 6 <= op) as (op & -> & Hop) by (eexists; split; [done|lia]).
    destruct op as [|[[[| |]|[| |]|]|[[| |]|[| |]|]|]]; try lia; by apply wp_kret. }
  assert (byte_at 0 msg = 0 \/ byte_at 0 msg = 1 \/ byte_at 0 msg = 2 \/ byte_at 0 msg = 3 \/ byte_at 0 msg = 4 \/ byte_at 0 msg = 5)
    as [E|[E|[E|[E|[E|E]]]]] by lia; rewrite E in *; apply wp_fs_guarded; try done;
    try (case (holds _ _ _); [by right|by left]); intros Hmay; rewrite Hmay in *.
  - apply Himp; [by apply fs_mkdir_implements|apply spec_small_mkdir].
  - apply Himp; [by apply fs_write_implements|apply spec_small_write].
  - rewrite fs_read_spec by done. eexists. split; [done|]. split; [done|]. split; [done|]. split; [|done].
    apply spec_read_len. intros d. by apply abs_data.
  - destruct (fs_ls_spec mount (req_name msg) store Hwf) as (reply & -> & Hl & Hls); [apply Hne; intros E2; by rewrite E2 in Hacc|]. eexists. split; [done|]. done.
  - apply Himp; [by apply fs_delete_implements|apply spec_small_delete].
  - rewrite fs_stat_spec by done. eexists. split; [done|]. split; [done|]. split; [done|]. split; [apply spec_small_stat|done].
Qed.

Lemma fs_handle_spec msg store k :
  kernel_wf k -> request_ok msg -> fs_underflows (k_sched k) msg = false -> fs_wf (fs_nodes store) ->
  wp (fs_handle msg store) (fs_post k msg (fs_nodes store)) k.
Proof.
  intros Hk Hreq Hacc Hwf. pose proof Hreq as [Hp Hl _ _].
  assert (forall i, i < 128 -> arr_get (msg_payload msg) i = Ret (byte_at i msg)) as Hget.
  { intros i Hi. destruct (arr_get_ok (msg_payload msg) i) as (x & Hx & ->); [lia|]. unfold byte_at. by rewrite Hx. }
  assert (forall r, fs_shaped msg = false -> fs_nodes r = fs_nodes store -> fs_post k msg (fs_nodes store) ([4], r) k) as Hbad.
  { intros r Hsh Hn. unfold fs_post, fs_answers. rewrite Hsh. simpl. rewrite Hn. split; [done|]. split; [done|]. split; [done|auto with kernel]. }
  unfold fs_handle. set (store' := mkFsStore (fs_nodes store) (wadd64 (fs_ops store) 1)).
  destruct (bool_decide (msg_tag msg = FsOp)) eqn:Htag; cbn [negb].
  2: { apply wp_kret, Hbad; [|done]. unfold fs_shaped. by rewrite Htag. }
  destruct (msg_len msg <? 3) eqn:H3.
  { apply wp_kret, Hbad; [|done]. unfold fs_shaped. by rewrite Htag, (N.leb_antisym (msg_len msg)), H3. }
  do 3 (apply wp_kbind; eapply wp_klift; [by apply Hget|]).
  destruct ((30 <? byte_at 2 msg) || (msg_len msg <? 3 + byte_at 2 msg)) eqn:Hname.
  { apply wp_kret, Hbad; [|done]. unfold fs_shaped. rewrite Htag, !(N.leb_antisym (msg_len msg)), (N.leb_antisym 30), H3. cbn [andb negb].
    rewrite <- negb_orb. by rewrite Hname. }
  apply orb_false_iff in Hname as [H30 Hml]. bool_to_prop. apply wp_kbind. eapply wp_klift; [apply slice_ok; lia|].
  replace (3 + byte_at 2 msg - 3) with (byte_at 2 msg) by lia. fold (bytes_at 3 (byte_at 2 msg) msg). fold (req_name msg).
  assert (lenN (req_name msg) = byte_at 2 msg) as Hn by (unfold req_name, bytes_at, lenN in *; rewrite length_take, length_drop; lia).
  apply wp_kbind, wp_ktrace_only; [done|]. intros k0 Hk0 Htr.
  apply (fs_dispatch msg store' k k0 (req_name msg)); try done.
  - unfold fs_shaped. rewrite Htag. rewrite !(proj2 (N.leb_le _ _)) by lia. done.
  - rewrite Hn. unfold FS_NAME_LEN. lia.
  - intros Hne Hnil. rewrite Hnil in Hn. by apply Hne.
Qed.

(** A permitted [ls] with an empty path underflows [name_len - 1]. *)
Lemma fs_handle_panics msg store k :
  kernel_wf k -> request_ok msg -> fs_underflows (k_sched k) msg = true -> fs_handle msg store k = Panic.
Proof.
  intros Hk [Hp Hl _ _] Hu. unfold fs_underflows, fs_shaped in Hu. apply andb_prop in Hu as [Hu Hmay].
  repeat match goal with H : _ && _ = true |- _ => apply andb_prop in H as [H ?] end. bool_to_prop.
  rename select (byte_at 0 msg = 3) into Hop. rename select (byte_at 2 msg = 0) into Hnil.
  assert (forall i, i < 128 -> arr_get (msg_payload msg) i = Ret (byte_at i msg)) as Hget.
  { intros i Hi. destruct (arr_get_ok (msg_payload msg) i) as (x & Hx & ->); [lia|]. unfold byte_at. by rewrite Hx. }
  unfold fs_handle. rewrite Hu. cbn [negb]. rewrite (proj2 (N.ltb_ge _ _)) by done.
  unfold kbind, klift. rewrite !Hget by done. cbn [obind]. rewrite Hop, Hnil, (proj2 (N.ltb_ge 30 0)), (proj2 (N.ltb_ge _ _)) by lia. cbn [orb].
  rewrite slice_ok by lia. cbn [obind].
  destruct (proj1 (wp_run (ktrace "fs_op" 3 0) (fun _ k' => kernel_wf k' /\ only_traced k k') k)) as ([] & k0 & -> & Hk0 & Htr).
  { apply wp_ktrace_only; [done|]. by intros. }
  cbn [obind]. unfold fs_guarded, kbind.
  destruct (proj1 (wp_run (fs_check_cap (msg_sender msg) (byte_at 1 msg) false) (fun b k' => b = true) k0)) as (b & k1 & -> & ->); [|done].
  unfold fs_check_cap. apply wp_sender_holds; [done|]. unfold fs_may in Hmay. by rewrite (only_traced_sched _ _ Htr).
Qed.

#[export] Instance fs_Handler : Handler fs_service (fun st => fs_wf (fs_nodes st)) (fun st => fs_wf (fs_nodes st)) fs_accepts.
Proof.
  split; [done|]. intros msg st k Hk Hreq Hacc Hst. eapply wp_mono; [by apply fs_handle_spec; [..|apply fs_accepts_runs|]|].
  intros [reply st'] k' (? & _ & ? & ?). done.
Qed.

(** The handler over a sequence of requests, and what the replies must be. *)
Fixpoint fs_run (hist : list (Kernel * Message)) (store : FsStore) : outcome (list (list N) * FsStore) :=
  match hist with
  | [] => Ret ([], store)
  | (k, msg) :: hist' =>
      let! (r, _) := fs_handle msg store k in
      let! (replies, store') := fs_run hist' r.2 in
      Ret (r.1 :: replies, store')
  end.

Fixpoint fs_behaves (hist : list (Kernel * Message)) (replies : list (list N)) (m m' : FsMap) : Prop :=
  match hist, replies with
  | [], [] => m' = m
  | (k, msg) :: hist', reply :: replies' =>
      exists m1, fs_answers (k_sched k) msg m reply m1 /\ fs_behaves hist' replies' m1 m'
  | _, _ => False
  end.

Definition fs_event_ok (ev : Kernel * Message) : Prop := kernel_wf ev.1 /\ request_ok ev.2.
Definition fs_fatal (ev : Kernel * Message) : bool := fs_underflows (k_sched ev.1) ev.2.

Lemma fs_run_spec hist store :
  Forall fs_event_ok hist -> fs_wf (fs_nodes store) ->
  if existsb fs_fatal hist then fs_run hist store = Panic
  else exists replies store', fs_run hist store = Ret (replies, store') /\ fs_wf (fs_nodes store') /\
    fs_behaves hist replies (fs_abs (fs_nodes store)) (fs_abs (fs_nodes store')).
Proof.
  intros Hall. revert store. induction Hall as [|[k msg] hist (Hk & Hreq) _ IH]; intros store Hwf; cbn [existsb fs_run fs_behaves fst snd] in *.
  { by exists [], store. }
  unfold fs_fatal at 1. cbn [fst snd]. destruct (fs_underflows (k_sched k) msg) eqn:Hacc; cbn [orb].
  { by rewrite fs_handle_panics. }
  pose proof (fs_handle_spec msg store k Hk Hreq Hacc Hwf) as (r & k' & -> & Hwf' & Hans & _ & _)%wp_run. cbn [obind].
  specialize (IH r.2 Hwf'). destruct (existsb fs_fatal hist); [by rewrite IH|].
  destruct IH as (replies & store' & -> & Hwf'' & Hb). cbn [obind]. eexists _, store'. split; [done|]. split; [done|].
  by exists (fs_abs (fs_nodes r.2)).
Qed.

(** C32: The file-system service implements a map from mount and path to contents.
    For every sequence of requests, starting with no files, the service panics if
    one of them is a permitted listing with an empty path; otherwise it returns and
    its replies are those of the map: mkdir and write create or overwrite an entry,
    fail with status 4 on a name clash and with status 3 exactly when all 64 nodes
    are used; read and stat report the last contents written; delete removes; ls
    lists each direct child that fits, once.  A request without the capability for
    its mount gets status 1 and has no effect, an ill-formed one status 4. *)
Theorem fs_refines_map hist :
  Forall fs_event_ok hist ->
  if existsb fs_fatal hist then fs_run hist FsStore_new = Panic
  else exists replies store', fs_run hist FsStore_new = Ret (replies, store') /\
    fs_wf (fs_nodes store') /\ fs_behaves hist replies ∅ (fs_abs (fs_nodes store')).
Proof.
  intros Hall. destruct FsStore_new_wf as [Hwf Habs]. pose proof (fs_run_spec hist FsStore_new Hall Hwf) as H.
  by rewrite Habs in H.
Qed.

(** A client of mount 2, and its requests. *)
Definition fs_client : Kernel :=
  add_task (example_task 5 Ready [mkCap (Capability.FsNode 2 true true) true true false false 7 None]) Kernel_init.
Definition fs_msg (op name_len : N) : Message :=
  mkMessage 5 FsOp 1 ([op; 2; name_len; 47; 97] ++ replicate 28 0 ++ [3; 1; 2; 3] ++ replicate 91 0) 37.

Lemma fs_client_wf : kernel_wf fs_client.
Proof. apply add_task_wf; [apply example_task_wf; simpl; lia|]. apply Kernel_init_wf. Qed.

Lemma fs_msg_ok op n : op < 256 -> n < 256 -> fs_event_ok (fs_client, fs_msg op n).
Proof.
  intros Hop Hn. split; [apply fs_client_wf|]. split; [done|done| |done].
  apply Forall_app. split; [repeat (apply Forall_cons; split; [done|]); constructor|]. by apply byte_list.
Qed.

Definition fs_session (last : Message) : list (Kernel * Message) := (fun m => (fs_client, m)) <$> [fs_msg 1 2; fs_msg 2 2; fs_msg 4 2; last].

(** A session that ends by reading the deleted file, and one that ends by listing
    the empty path, which underflows [name_len - 1] and halts the kernel. *)
Lemma fs_refines_map_witness :
  (exists replies store', fs_run (fs_session (fs_msg 2 2)) FsStore_new = Ret (replies, store') /\
    fs_wf (fs_nodes store') /\ fs_behaves (fs_session (fs_msg 2 2)) replies ∅ (fs_abs (fs_nodes store'))) /\
  fs_run (fs_session (fs_msg 3 0)) FsStore_new = Panic.
Proof.
  split.
  - apply (fs_refines_map (fs_session (fs_msg 2 2))). repeat (apply Forall_cons; split; [by apply fs_msg_ok|]). constructor.
  - apply (fs_refines_map (fs_session (fs_msg 3 0))). repeat (apply Forall_cons; split; [by apply fs_msg_ok|]). constructor.
Defined.
