(* ===== verification/SyncService.v ===== *)
(** * The synchronisation service

    Models the semaphores and mutexes of [kernel/shell/mod.rs]: eight objects with
    a count and a queue of at most sixteen waiting tasks, created, acquired and
    released by request.  A blocked acquire gets no reply until a release hands it
    the permit.  [permits_conserved] is the safety property clients rely on. *)

From S2P Require Import Prelude Ring Preempt Trace Capability AuditTrail Message Machine Frames.
From S2P Require Import Task Scheduler Kernel Switch Scheduling Spawn Contexts Ipc Rendezvous Messaging Service.
Local Open Scope N_scope.

Definition SYNC_MAX_OBJ : N := 8.
Definition SYNC_MAX_WAIT : N := 16.

(** [count] is an [i32] that the code never takes below zero. *)
Record SyncObject : Type := mkSync {
  so_used : bool;
  so_is_mutex : bool;
  so_count : N;
  so_waiters : list TaskId;
  so_wait_head : N;
  so_wait_tail : N;
  so_wait_len : N
}.

Definition SyncObject_new : SyncObject := mkSync false false 0 (replicate 16 0) 0 0 0.

Definition set_so_count (v : N) (s : SyncObject) : SyncObject :=
  mkSync (so_used s) (so_is_mutex s) v (so_waiters s) (so_wait_head s) (so_wait_tail s) (so_wait_len s).

Definition SyncObject_enqueue (self : SyncObject) (task_id : TaskId) : outcome (bool * SyncObject) :=
  if so_wait_len self <? SYNC_MAX_WAIT then
    let! waiters := arr_set (so_waiters self) (so_wait_tail self) task_id in
    let! t1 := add64 (so_wait_tail self) 1 in
    let! len := add64 (so_wait_len self) 1 in
    Ret (true, mkSync (so_used self) (so_is_mutex self) (so_count self) waiters (so_wait_head self) (t1 mod SYNC_MAX_WAIT) len)
  else Ret (false, self).

Definition SyncObject_dequeue (self : SyncObject) : outcome (option TaskId * SyncObject) :=
  if 0 <? so_wait_len self then
    let! task_id := arr_get (so_waiters self) (so_wait_head self) in
    let! h1 := add64 (so_wait_head self) 1 in
    let! len := sub64 (so_wait_len self) 1 in
    Ret (Some task_id, mkSync (so_used self) (so_is_mutex self) (so_count self) (so_waiters self) (h1 mod SYNC_MAX_WAIT) (so_wait_tail self) len)
  else Ret (None, self).

(** [SYNC_STORE], [SYNC_ACQ] and [SYNC_REL]. *)
Record SyncStore : Type := mkSyncStore { ss_objects : list SyncObject; ss_acq : N; ss_rel : N }.
Definition SyncStore_new : SyncStore := mkSyncStore (replicate 8 SyncObject_new) 0 0.

Definition put_object (i : N) (o : SyncObject) (st : SyncStore) : SyncStore :=
  mkSyncStore (upd (ss_objects st) i o) (ss_acq st) (ss_rel st).

Definition sync_allows (id : N) (cap : Capability) : bool :=
  match cap_resource cap with SyncObj cap_id => cap_id =? id | _ => false end.

Definition sync_check_cap (sender : TaskId) (id : N) : K bool := sender_holds (sync_allows id) sender.

Definition ensure_sync_service `{L : Layout} (sync_service_main : N) : K unit := ensure_service 86 sync_service_main.

(** [i32] addition. *)
Definition i32_limit : N := 2 ^ 31.
Definition add_i32 (a b : N) : outcome N := if a + b <? i32_limit then Ret (a + b) else Panic.

(** ** The three operations *)

(** [create]: needs no capability. *)
Definition sync_create (msg : Message) (obj_id : N) (st : SyncStore) : outcome (list N * SyncStore) :=
  let! m := arr_get (msg_payload msg) 2 in
  let! initial_count := arr_get (msg_payload msg) 3 in
  let! obj := arr_get (ss_objects st) obj_id in
  if so_used obj then Ret ([2], st)
  else Ret ([0], put_object obj_id (mkSync true (negb (m =? 0)) initial_count (so_waiters obj) 0 0 0) st).

(** [acquire], past the capability check: [None] when the caller must wait. *)
Definition sync_acquire (sender : TaskId) (obj_id : N) (st : SyncStore) : outcome (option (list N) * SyncStore) :=
  let! obj := arr_get (ss_objects st) obj_id in
  if negb (so_used obj) then Ret (Some [2], st)
  else
    let st := mkSyncStore (ss_objects st) (wadd64 (ss_acq st) 1) (ss_rel st) in
    if 0 <? so_count obj then Ret (Some [0], put_object obj_id (set_so_count (so_count obj - 1) obj) st)
    else
      let! (ok, obj') := SyncObject_enqueue obj sender in
      if ok : bool then Ret (None, put_object obj_id obj' st) else Ret (Some [4], st).

(** [release], past the capability check: the reply, and the task to hand the
    permit to. *)
Definition sync_release (obj_id : N) (st : SyncStore) : outcome (list N * option TaskId * SyncStore) :=
  let! obj := arr_get (ss_objects st) obj_id in
  if negb (so_used obj) then Ret ([2], None, st)
  else
    let st := mkSyncStore (ss_objects st) (ss_acq st) (wadd64 (ss_rel st) 1) in
    let! (ow, obj') := SyncObject_dequeue obj in
    match ow with
    | Some waiter_task_id => Ret ([0], Some waiter_task_id, put_object obj_id obj' st)
    | None =>
        let! count := if so_is_mutex obj then Ret 1 else add_i32 (so_count obj) 1 in
        Ret ([0], None, put_object obj_id (set_so_count count obj) st)
    end.

(** The reply to a waiter whose turn has come, or to the sender: point slot 1 at
    it and send without blocking; a failure is only reported on the console. *)
Definition sync_reply (target : TaskId) (bytes : list N) : K unit :=
  do* install_reply_channel 86 86000 target in
  let* _ := sys_send_async 1 (IpcTag_as_u16 SyncReply) 1 bytes in
  kret tt.

(** The body of [sync_service_main] up to the reply: [None] for no reply. *)
Definition sync_handle (msg : Message) (st : SyncStore) : K (option (list N) * SyncStore) :=
  if negb (bool_decide (msg_tag msg = SyncOp)) then kret (Some [2], st)
  else if msg_len msg <? 2 then kret (Some [2], st)
  else
    let* op := klift (arr_get (msg_payload msg) 0) in
    let* obj_id := klift (arr_get (msg_payload msg) 1) in
    do* ktrace "sync_op" op obj_id in
    if 8 <=? obj_id then kret (Some [2], st)
    else
      match op with
      | 0 => let* (r, st') := klift (sync_create msg obj_id st) in kret (Some r, st')
      | 1 =>
          let* ok := sync_check_cap (msg_sender msg) obj_id in
          if negb ok then kret (Some [1], st) else klift (sync_acquire (msg_sender msg) obj_id st)
      | 2 =>
          let* ok := sync_check_cap (msg_sender msg) obj_id in
          if negb ok then kret (Some [1], st)
          else
            let* (r, ow, st') := klift (sync_release obj_id st) in
            do* (match ow with Some waiter => sync_reply waiter [0] | None => kret tt end) in
            kret (Some r, st')
      | _ => kret (Some [2], st)
      end.

(** One iteration of the loop of [sync_service_main]. *)
Definition sync_round `{L : Layout} (fuel : nat) (st : SyncStore) : R SyncStore :=
  let+ r := sys_receive_typed fuel in
  match r with
  | Ok msg =>
      let+ (reply, st') := rlift (sync_handle msg st) in
      let+ _ := rlift (match reply with Some bytes => sync_reply (msg_sender msg) bytes | None => kret tt end) in
      rret st'
  | Err _ => let+ _ := yield_cpu in rret st
  end.

(** ** The wait queue *)

Definition waiting_tasks (o : SyncObject) : list TaskId := ring_contents (so_waiters o) (so_wait_head o) (so_wait_len o).
Definition waiters_ok (o : SyncObject) : Prop := ring_ok SYNC_MAX_WAIT (so_waiters o) (so_wait_head o) (so_wait_tail o) (so_wait_len o).

#[export] Instance SyncObject_Fifo : Fifo SyncObject TaskId := {
  fifo_capacity := SYNC_MAX_WAIT;
  fifo_inv := waiters_ok;
  fifo_contents := waiting_tasks;
  fifo_enqueue := SyncObject_enqueue;
  fifo_dequeue := SyncObject_dequeue
}.

#[export] Instance SyncObject_FifoLaws : FifoLaws SyncObject TaskId.
Proof.
  assert (SYNC_MAX_WAIT + 1 < u64_limit) as Hlim by done. split; simpl; unfold waiters_ok, waiting_tasks.
  - intros q Hq. rewrite (ring_contents_len _ _ _ _ _ Hq). apply Hq.
  - intros q v Hq Hlt. rewrite (ring_contents_len _ _ _ _ _ Hq) in Hlt. pose proof (ring_tail_lt _ _ _ _ _ Hq) as Ht.
    destruct (ring_push _ _ _ _ _ v Hq Hlt) as [Hq' Hc].
    unfold SyncObject_enqueue. rewrite (proj2 (N.ltb_lt _ _) Hlt). rewrite arr_set_ok by (by rewrite (ring_len _ _ _ _ _ Hq)). cbn [obind].
    rewrite !add64_ok by lia. eexists. done.
  - intros q v Hq Hc. rewrite (ring_contents_len _ _ _ _ _ Hq) in Hc. unfold SyncObject_enqueue. by rewrite Hc.
  - intros q Hq Hc. pose proof (ring_contents_len _ _ _ _ _ Hq) as Hl. rewrite Hc in Hl. unfold SyncObject_dequeue. by rewrite <- Hl.
  - intros q v l Hq Hc. destruct (ring_pop _ _ _ _ _ _ _ Hq Hc) as (Hpos & Hi & Hq' & Hl). pose proof (ring_head _ _ _ _ _ Hq).
    unfold SyncObject_dequeue. rewrite (proj2 (N.ltb_lt _ _) Hpos), (proj2 (arr_get_Ret _ _ _) Hi). cbn [obind].
    rewrite add64_ok, sub64_ok by lia. eexists. done.
Qed.

(** ** What a request does to an object *)

Record obj_ok (o : SyncObject) : Prop := {
  ok_waiters : waiters_ok o;
  (** Tasks wait only while no permit is available. *)
  ok_idle : 0 < so_count o -> waiting_tasks o = [];
  ok_tasks : Forall (fun t => t < MAX_TASKS) (waiting_tasks o)
}.

Record store_ok (st : SyncStore) : Prop := {
  sk_len : lenN (ss_objects st) = SYNC_MAX_OBJ;
  sk_objs : Forall obj_ok (ss_objects st)
}.

Lemma SyncStore_new_ok : store_ok SyncStore_new.
Proof. split; [done|]. apply Forall_replicate. split; [by split|done|constructor]. Qed.

Definition sync_op (msg : Message) : N := default 0 (idx (msg_payload msg) 0).
Definition sync_id (msg : Message) : N := default 0 (idx (msg_payload msg) 1).

(** The same object with another count and queue. *)
Definition becomes (o o' : SyncObject) (count : N) (queue : list TaskId) : Prop :=
  so_used o' = so_used o /\ so_is_mutex o' = so_is_mutex o /\ so_count o' = count /\ waiting_tasks o' = queue.

(** The transitions of one object under a request answered with [reply]. *)
Inductive obj_step (msg : Message) (reply : option (list N)) (o o' : SyncObject) : Prop :=
| step_create :
    sync_op msg = 0 -> so_used o = false -> reply = Some [0] -> so_used o' = true ->
    so_is_mutex o' = negb (default 0 (idx (msg_payload msg) 2) =? 0) ->
    so_count o' = default 0 (idx (msg_payload msg) 3) -> waiting_tasks o' = [] -> obj_step msg reply o o'
| step_grant :
    sync_op msg = 1 -> so_used o = true -> reply = Some [0] -> 0 < so_count o ->
    becomes o o' (so_count o - 1) (waiting_tasks o) -> obj_step msg reply o o'
| step_wait :
    sync_op msg = 1 -> so_used o = true -> reply = None -> so_count o = 0 ->
    becomes o o' 0 (waiting_tasks o ++ [msg_sender msg]) -> obj_step msg reply o o'
| step_hand_off w q :
    sync_op msg = 2 -> so_used o = true -> reply = Some [0] -> waiting_tasks o = w :: q ->
    becomes o o' (so_count o) q -> obj_step msg reply o o'
| step_return :
    sync_op msg = 2 -> so_used o = true -> reply = Some [0] -> waiting_tasks o = [] ->
    becomes o o' (if so_is_mutex o then 1 else so_count o + 1) [] -> obj_step msg reply o o'
| step_refused s : reply = Some [s] -> s <> 0 -> o' = o -> obj_step msg reply o o'.

Lemma SyncObject_enqueue_fields o t b o' :
  SyncObject_enqueue o t = Ret (b, o') -> so_used o' = so_used o /\ so_is_mutex o' = so_is_mutex o /\ so_count o' = so_count o.
Proof. unfold SyncObject_enqueue. case_match; intros; run_binds; done. Qed.

Lemma SyncObject_dequeue_fields o w o' :
  SyncObject_dequeue o = Ret (w, o') -> so_used o' = so_used o /\ so_is_mutex o' = so_is_mutex o /\ so_count o' = so_count o.
Proof. unfold SyncObject_dequeue. case_match; intros; run_binds; done. Qed.

(** A request changes the object it names, by a step, and no other. *)
Definition store_step (msg : Message) (reply : option (list N)) (i : N) (st st' : SyncStore) : Prop :=
  exists o o', idx (ss_objects st) i = Some o /\ ss_objects st' = upd (ss_objects st) i o' /\ obj_ok o' /\ obj_step msg reply o o'.

Lemma sync_create_step msg i st r st' :
  store_ok st -> sync_op msg = 0 -> sync_create msg i st = Ret (r, st') -> store_step msg (Some r) i st st'.
Proof.
  intros [Hlen Hall] Hop. unfold sync_create. intros. run_binds. apply arr_get_Ret in Hrun, Hrun0, Hrun1.
  rewrite Forall_forall in Hall. pose proof (Hall _ (idx_elem_of _ _ _ Hrun1)) as Ho.
  destruct (so_used r2) eqn:Hu; simplify_eq.
  - exists r2, r2. split; [done|]. split; [by rewrite upd_id|]. split; [done|]. by apply (step_refused _ _ _ _ 2).
  - eexists r2, _. split; [done|]. split; [done|].
    assert (forall m c, waiting_tasks (mkSync true m c (so_waiters r2) 0 0 0) = []) as Hw by done. split.
    + split; [|done|rewrite Hw; constructor]. destruct Ho as [[] _ _]. by split.
    + apply step_create; try done; simpl; by rewrite ?Hrun, ?Hrun0.
Qed.

Lemma sync_acquire_step msg i st r st' :
  store_ok st -> request_ok msg -> sync_op msg = 1 -> sync_acquire (msg_sender msg) i st = Ret (r, st') -> store_step msg r i st st'.
Proof.
  intros [Hlen Hall] Hreq Hop. unfold sync_acquire. intros. run_binds. apply arr_get_Ret in Hrun. rename r0 into o.
  rewrite Forall_forall in Hall. pose proof (Hall _ (idx_elem_of _ _ _ Hrun)) as [Hw Hidle Htasks].
  destruct (so_used o) eqn:Hu; cbn [negb] in *; simplify_eq.
  2: { exists o, o. split; [done|]. split; [by rewrite upd_id|]. split; [by split|]. by apply (step_refused _ _ _ _ 2). }
  destruct (0 <? so_count o) eqn:Hc; bool_to_prop.
  - simplify_eq. eexists o, _. split; [done|]. split; [done|]. split; [|by apply step_grant].
    split; [done| |done]. simpl. intros _. by apply Hidle.
  - run_binds. destruct r0 as [b o']. pose proof (fifo_bounded (F := SyncObject_Fifo) o Hw) as Hb.
    destruct (decide (lenN (waiting_tasks o) < SYNC_MAX_WAIT)) as [Hlt|Hge].
    + destruct (fifo_enqueue_accepts (F := SyncObject_Fifo) o (msg_sender msg) Hw Hlt) as (o2 & Henq & Hw' & Hcont).
      simpl in Henq, Hcont. rewrite Henq in Hrun0. injection Hrun0 as <- <-. simplify_eq. destruct (SyncObject_enqueue_fields _ _ _ _ Henq) as (? & ? & ?).
      eexists o, _. split; [done|]. split; [done|]. split; [split; [done|lia|]|].
      { rewrite Hcont. apply Forall_app. split; [done|]. apply Forall_singleton, Hreq. }
      apply step_wait; try done; [lia|]. repeat split; try done. lia.
    + pose proof (fifo_enqueue_refuses (F := SyncObject_Fifo) o (msg_sender msg) Hw) as Henq. simpl in Henq, Hb, Hge.
      rewrite Henq in Hrun0 by lia. injection Hrun0 as <- <-. simplify_eq. exists o, o. split; [done|]. split; [by rewrite upd_id|]. split; [by split|].
      by apply (step_refused _ _ _ _ 4).
Qed.

Lemma sync_release_step msg i st r ow st' :
  store_ok st -> sync_op msg = 2 -> sync_release i st = Ret (r, ow, st') -> store_step msg (Some r) i st st'.
Proof.
  intros [Hlen Hall] Hop. unfold sync_release. intros. run_binds. apply arr_get_Ret in Hrun. rename r0 into o.
  rewrite Forall_forall in Hall. pose proof (Hall _ (idx_elem_of _ _ _ Hrun)) as [Hw Hidle Htasks].
  destruct (so_used o) eqn:Hu; cbn [negb] in *; simplify_eq.
  2: { exists o, o. split; [done|]. split; [by rewrite upd_id|]. split; [by split|]. by apply (step_refused _ _ _ _ 2). }
  run_binds. destruct r0 as [w o']. destruct (waiting_tasks o) as [|x q] eqn:Hq.
  - pose proof (fifo_dequeue_nil (F := SyncObject_Fifo) o Hw Hq) as Hd. simpl in Hd. rewrite Hd in Hrun0. injection Hrun0 as <- <-. run_binds.
    eexists o, _. split; [done|]. split; [done|]. split; [split; [done|done|change (Forall (fun t => t < MAX_TASKS) (waiting_tasks o)); by rewrite Hq]|].
    apply step_return; try done. repeat split; try done.
    destruct (so_is_mutex o); [by simplify_eq|]. unfold add_i32 in Hrun0. simpl. case_match; by simplify_eq.
  - destruct (fifo_dequeue_cons (F := SyncObject_Fifo) o x q Hw Hq) as (o2 & Hd & Hw' & Hcont). simpl in Hd, Hcont.
    rewrite Hd in Hrun0. injection Hrun0 as <- <-. simplify_eq. destruct (SyncObject_dequeue_fields _ _ _ Hd) as (? & ? & ?).
    eexists o, _. split; [done|]. split; [done|]. split; [split; [done| |]|by eapply step_hand_off].
    + intros Hpos. specialize (Hidle ltac:(lia)). congruence.
    + by apply Forall_cons in Htasks as [_ ?].
Qed.

(** ** Every request is such a step *)

Lemma kbind_Ret {A B} (m : K A) (f : A -> K B) k r :
  kbind m f k = Ret r <-> exists a k1, m k = Ret (a, k1) /\ f a k1 = Ret r.
Proof.
  unfold kbind. rewrite obind_Ret. split.
  - intros ([a k1] & ? & ?). eauto.
  - intros (a & k1 & ? & ?). exists (a, k1). eauto.
Qed.

Lemma klift_Ret {A} (o : outcome A) k a k' : klift o k = Ret (a, k') <-> o = Ret a /\ k' = k.
Proof. unfold klift. rewrite obind_Ret. split; [intros (x & ? & [= <- <-])|intros [-> ->]]; eauto. Qed.

Lemma store_step_ok msg reply i st st' : store_ok st -> store_step msg reply i st st' -> store_ok st'.
Proof.
  intros [Hlen Hall] (o & o' & Hi & Heq & Ho' & _). split; rewrite Heq; [by rewrite lenN_upd|].
  apply Forall_forall. intros x [j Hj]%elem_of_idx. rewrite idx_upd in Hj. case_decide; [by simplify_eq|].
  rewrite Forall_forall in Hall. by eapply Hall, idx_elem_of.
Qed.

Lemma sync_handle_step msg st k reply st' k' :
  store_ok st -> request_ok msg -> sync_handle msg st k = Ret ((reply, st'), k') ->
  store_step msg reply (sync_id msg) st st' \/ (exists s, reply = Some [s] /\ s <> 0 /\ st' = st).
Proof.
  intros Hst Hreq. unfold sync_handle.
  assert (forall s, s <> 0 -> kret (Some [s], st) k = Ret ((reply, st'), k') ->
    store_step msg reply (sync_id msg) st st' \/ (exists s, reply = Some [s] /\ s <> 0 /\ st' = st)) as Hbad.
  { intros s Hs [= <- <- _]. right. by exists s. }
  case_match; [by apply Hbad|]. case_match; [by apply Hbad|].
  intros (op & k1 & [Hop ->]%klift_Ret & H')%kbind_Ret. apply kbind_Ret in H' as (id & k1 & [Hid ->]%klift_Ret & H').
  apply arr_get_Ret in Hop, Hid. assert (sync_op msg = op) as Eop by (unfold sync_op; by rewrite Hop).
  assert (sync_id msg = id) as Eid by (unfold sync_id; by rewrite Hid). rewrite <- Eid, <- Eop in H'. clear Hbad.
  apply kbind_Ret in H' as ([] & k2 & _ & H').
  assert (forall s k2, s <> 0 -> kret (Some [s], st) k2 = Ret ((reply, st'), k') ->
    store_step msg reply (sync_id msg) st st' \/ (exists s, reply = Some [s] /\ s <> 0 /\ st' = st)) as Hbad.
  { intros s k3 Hs [= <- <- _]. right. by exists s. }
  destruct (8 <=? sync_id msg); [by apply (Hbad 2 k2)|].
  destruct (decide (sync_op msg = 0)) as [E|]; [|destruct (decide (sync_op msg = 1)) as [E|]; [|destruct (decide (sync_op msg = 2)) as [E|]]].
  - rewrite E in H'. apply kbind_Ret in H' as ([r st1] & k3 & [Hc ->]%klift_Ret & [= <- <- _]). left. by apply sync_create_step.
  - rewrite E in H'. apply kbind_Ret in H' as (ok & k3 & _ & H'). destruct ok; [|by apply (Hbad 1 k3)].
    apply klift_Ret in H' as [Hc _]. left. by apply sync_acquire_step.
  - rewrite E in H'. apply kbind_Ret in H' as (ok & k3 & _ & H'). destruct ok; [|by apply (Hbad 1 k3)]. cbn [negb] in H'.
    apply kbind_Ret in H' as ([[r ow] st1] & k4 & [Hc _]%klift_Ret & H'). apply kbind_Ret in H' as ([] & k5 & _ & [= <- <- _]).
    left. by eapply sync_release_step.
  - apply (Hbad 2 k2); [done|]. destruct (sync_op msg) as [|[[]|[]|]]; done.
Qed.

(** ** Permits *)

Fixpoint remove_one (t : TaskId) (l : list TaskId) : list TaskId :=
  match l with
  | [] => []
  | x :: l' => if x =? t then l' else x :: remove_one t l'
  end.

(** The permits of an object that have been given out: the tasks that were told
    they hold one, and the number that went to tasks that could not be told. *)
Record Permits : Type := mkPermits { held : list TaskId; lost : N }.
Definition no_permits : Permits := mkPermits [] 0.

(** An answer to task [w] lands in its queue. *)
Definition answerable (s : Scheduler) (w : TaskId) : bool :=
  match task_slot s w with
  | Some t => negb (state_is Terminated t) && (lenN (mq_contents (t_msg_queue t)) <? MSG_QUEUE_CAPACITY)
  | None => false
  end.

Definition give (s : Scheduler) (w : TaskId) (p : Permits) : Permits :=
  if answerable s w then mkPermits (w :: held p) (lost p) else mkPermits (held p) (lost p + 1).

(** The permits of object [i] after a request in a system state [s]: an acquire
    answered 0 gives its sender one, a release answered 0 takes one from its sender
    and gives it to the first task waiting on the object [o]. *)
Definition permits_after (i : N) (s : Scheduler) (msg : Message) (o : SyncObject) (reply : option (list N)) (p : Permits) : Permits :=
  if (sync_id msg =? i) && bool_decide (reply = Some [0]) then
    match sync_op msg with
    | 1 => give s (msg_sender msg) p
    | 2 =>
        let p' := mkPermits (remove_one (msg_sender msg) (held p)) (lost p) in
        match waiting_tasks o with w :: _ => give s w p' | [] => p' end
    | _ => p
    end
  else p.

(** States of the service under any requests, from any tasks in any system
    states, in which only tasks that hold a permit of object [i] release it. *)
Inductive reaches (i : N) (st : SyncStore) (p : Permits) : SyncStore -> Permits -> Prop :=
| reaches_refl : reaches i st p st p
| reaches_step st1 p1 k msg reply st2 k' o :
    reaches i st p st1 p1 -> request_ok msg -> sync_handle msg st1 k = Ret ((reply, st2), k') ->
    idx (ss_objects st1) i = Some o ->
    (sync_id msg = i -> sync_op msg = 2 -> reply = Some [0] -> msg_sender msg ∈ held p1) ->
    reaches i st p st2 (permits_after i (k_sched k) msg o reply p1).

Lemma remove_one_len t l : t ∈ l -> lenN l = 1 + lenN (remove_one t l).
Proof.
  induction l as [|x l IH]; [by intros ?%elem_of_nil|]. simpl. destruct (x =? t) eqn:E; bool_to_prop.
  - intros _. apply lenN_cons.
  - intros [->|Hin]%elem_of_cons; [done|]. rewrite !lenN_cons, IH by done. lia.
Qed.

(** The permits given out. *)
Definition out (p : Permits) : N := lenN (held p) + lost p.

Lemma give_out s w p : out (give s w p) = 1 + out p.
Proof. unfold give, out. destruct (answerable s w); simpl; rewrite ?lenN_cons; lia. Qed.

(** Object [i] has [c] permits in total, given out or free. *)
Record accounted (i c : N) (mutex : bool) (st : SyncStore) (p : Permits) : Prop := {
  ac_store : store_ok st;
  ac_permits : exists o, idx (ss_objects st) i = Some o /\ so_used o = true /\ so_is_mutex o = mutex /\ out p + so_count o = c
}.

Lemma accounted_step i c mutex st p msg reply st' k k' o :
  (mutex = true -> c <= 1) -> accounted i c mutex st p -> request_ok msg -> sync_handle msg st k = Ret ((reply, st'), k') ->
  idx (ss_objects st) i = Some o ->
  (sync_id msg = i -> sync_op msg = 2 -> reply = Some [0] -> msg_sender msg ∈ held p) ->
  accounted i c mutex st' (permits_after i (k_sched k) msg o reply p).
Proof.
  intros Hmc [Hst (o1 & Hi & Hu & Hm & Hsum)] Hreq Hrun Ho Hdisc. rewrite Ho in Hi. simplify_eq.
  destruct (sync_handle_step _ _ _ _ _ _ Hst Hreq Hrun) as [Hstep|(s & -> & Hs & ->)].
  2: { unfold permits_after. rewrite bool_decide_eq_false_2, andb_false_r by congruence. split; [done|]. by exists o1. }
  pose proof (store_step_ok _ _ _ _ _ Hst Hstep) as Hst'. destruct Hstep as (x & x' & Hx & Heq & Hx' & Hstep). split; [done|].
  unfold permits_after. rewrite Heq. destruct (decide (sync_id msg = i)) as [Hid|Hne].
  2: { rewrite (proj2 (N.eqb_neq _ _) Hne). exists o1. rewrite idx_upd_ne by done. done. }
  rewrite Hid in *. rewrite N.eqb_refl. cbn [andb]. rewrite Ho in Hx. simplify_eq. exists x'.
  rewrite idx_upd_eq by (by eapply idx_lt). split; [done|].
  assert (sync_op msg = 2 -> reply = Some [0] -> out p = 1 + out (mkPermits (remove_one (msg_sender msg) (held p)) (lost p))) as Hback.
  { intros Hop Hr. unfold out. cbn [held lost]. rewrite (remove_one_len _ _ (Hdisc eq_refl Hop Hr)). lia. }
  destruct Hstep as [? ?|Hop _ -> Hc (Hu' & Hm' & Hc' & _)|Hop _ -> Hc (Hu' & Hm' & Hc' & _)|w q Hop _ -> Hq (Hu' & Hm' & Hc' & _)|Hop _ -> Hq (Hu' & Hm' & Hc' & _)|s -> Hs ->].
  - congruence.
  - rewrite bool_decide_eq_true_2, Hop, give_out by done. split; [congruence|]. split; [done|lia].
  - rewrite bool_decide_eq_false_2 by done. split; [congruence|]. split; [done|lia].
  - rewrite bool_decide_eq_true_2, Hop, Hq by done. specialize (Hback Hop eq_refl).
    cbv zeta. rewrite give_out. split; [congruence|]. split; [done|lia].
  - rewrite bool_decide_eq_true_2, Hop, Hq by done. specialize (Hback Hop eq_refl).
    cbv zeta. split; [congruence|]. split; [done|]. destruct (so_is_mutex x); [specialize (Hmc eq_refl); lia|lia].
  - rewrite bool_decide_eq_false_2 by congruence. done.
Qed.

(** ** Every request is answered *)

(** The service's task is running. *)
Record service_ready (k : Kernel) : Prop := {
  rd_wf : kernel_wf k;
  rd_depth : depth_ok k;
  rd_current : s_current_task_id (k_sched k) = Some 86;
  rd_task : is_Some (task_slot (k_sched k) 86)
}.

(** The answer [bytes] to task [w]: it is last in the queue of an answerable task,
    and otherwise no queue changes. *)
Definition answer_lands (w : TaskId) (bytes : list N) (k : Kernel) : Prop :=
  exists k', sync_reply w bytes k = Ret (tt, k') /\
    if answerable (k_sched k) w then
      exists t t' m, task_slot (k_sched k) w = Some t /\ task_slot (k_sched k') w = Some t' /\ carries m 86 SyncReply 1 bytes /\
        mq_contents (t_msg_queue t') = mq_contents (t_msg_queue t) ++ [m]
    else forall j, t_msg_queue <$> task_slot (k_sched k') j = t_msg_queue <$> task_slot (k_sched k) j.

Lemma sync_reply_lands w bytes k :
  service_ready k -> w < MAX_TASKS -> lenN bytes <= 128 -> answer_lands w bytes k.
Proof.
  intros [Hk Hd Hcur [t Ht]] Htg Hlen. unfold answer_lands, sync_reply.
  destruct (install_reply_spec 86 86000 w t k Hk Ht) as (sl & Hsl & Hrun); [assert (86000 + MAX_TASKS < u64_limit) by done; lia|].
  set (s1 := get_task_mut (k_sched k) 86 (set_t_cap_table (mkCapTable sl))) in *. pose proof Hk as [Hs Hl Ha].
  pose proof (task_wf_caps _ (sched_wf_task _ Hs _ _ Ht)) as Hc.
  assert (sched_wf s1) as Hs1.
  { apply (get_task_mut_wf (k_sched k)); [done|]. intros u [Hcu Hqu]. split; [done|]. split; [|done].
    rewrite Hsl. by apply CapTable_upd_wf. }
  assert (kernel_wf (set_k_sched s1 k)) as Hk1 by by split.
  assert (check_envelope (IpcTag_as_u16 SyncReply) 1 bytes = Ok SyncReply) as Henv.
  { unfold check_envelope. by rewrite (proj2 (N.ltb_ge _ _)). }
  assert (s_current_task_id s1 = Some 86) as Hcur1 by (unfold s1; by rewrite get_task_mut_current).
  assert (forall j, task_slot s1 j = if decide (86 = j) then set_t_cap_table (mkCapTable sl) <$> task_slot (k_sched k) j else task_slot (k_sched k) j) as Hslot
    by (intros j; apply get_task_mut_slot; done).
  assert (channel_of s1 86 1 = Ok w) as Hch.
  { unfold channel_of. rewrite Hslot, decide_True, Ht by done. cbn [fmap option_fmap option_map t_cap_table set_t_cap_table].
    unfold cap_at. cbn [slots]. rewrite Hsl, idx_upd_eq by (unfold CapTable_wf in Hc; rewrite Hc; done). done. }
  assert (answerable (k_sched k) w = answerable s1 w) as ->.
  { unfold answerable. rewrite Hslot. case_decide; [|done]. by destruct (task_slot (k_sched k) w). }
  pose proof (sys_send_async_spec 86 1 (IpcTag_as_u16 SyncReply) 1 bytes SyncReply (set_k_sched s1 k) Hk1 Hd Henv Hcur1)
    as (r & k' & Hrun' & m & s' & Hm & Hsent & Hf)%wp_run. exists k'.
  split; [apply kbind_Ret; exists tt, (set_k_sched s1 k); split; [done|]; apply kbind_Ret; by exists r, k'|].
  rewrite (ipc_frame_sched _ _ _ _ Hf). change (k_sched (set_k_sched s1 k)) with s1 in Hsent.
  assert (forall j, t_msg_queue <$> task_slot s1 j = t_msg_queue <$> task_slot (k_sched k) j) as Hqs.
  { intros j. rewrite Hslot. case_decide; [|done]. by destruct (task_slot (k_sched k) j). }
  unfold answerable. destruct Hsent as [e He|tgt Hc' Hdead|tgt u Hc' Hu Hnt Hfull|tgt u q Hc' Hu Hnt Hq Hqc]; [congruence|..];
    rewrite Hch in Hc'; injection Hc' as <-.
  - destruct (task_slot s1 w) as [u|]; [|done]. unfold state_is. by rewrite (Hdead u eq_refl).
  - rewrite Hu, Hfull. by rewrite andb_false_r.
  - assert (lenN (mq_contents q) <= MSG_QUEUE_CAPACITY) as Hb by (apply (fifo_bounded (F := MessageQueue_Fifo) q Hq)).
    rewrite Hqc, lenN_app in Hb. rewrite Hu. rewrite (proj2 (N.ltb_lt _ _)) by (unfold lenN in Hb |- *; simpl in Hb; lia).
    replace (state_is Terminated u) with false by (symmetry; unfold state_is; by destruct (t_state u)). cbn [negb andb].
    specialize (Hqs w). rewrite Hu in Hqs. destruct (task_slot (k_sched k) w) as [t0|]; [|done]. injection Hqs as Hqs.
    exists t0, (queued q u), m. split; [done|]. split; [rewrite get_task_mut_slot, decide_True, Hu by done; done|].
    split; [by eapply build_message_carries|]. rewrite <- Hqs, <- Hqc. unfold queued. by destruct (state_is _ u).
Qed.

(** The object a request names can be released once more without overflow. *)
Definition releasable (msg : Message) (st : SyncStore) : Prop :=
  forall o, idx (ss_objects st) (sync_id msg) = Some o -> so_count o + 1 < i32_limit.

Lemma sync_handle_returns msg st k :
  service_ready k -> store_ok st -> request_ok msg -> releasable msg st ->
  exists r k', sync_handle msg st k = Ret (r, k').
Proof.
  intros Hk [Hlen Hall] Hreq Hrel. pose proof (rd_wf _ Hk) as Hwf.
  destruct (arr_get_ok (msg_payload msg) 0) as (op & Hop & Hg0); [by rewrite (rq_payload _ Hreq)|].
  destruct (arr_get_ok (msg_payload msg) 1) as (id & Hid & Hg1); [by rewrite (rq_payload _ Hreq)|].
  destruct (arr_get_ok (msg_payload msg) 2) as (b2 & _ & Hg2); [by rewrite (rq_payload _ Hreq)|].
  destruct (arr_get_ok (msg_payload msg) 3) as (b3 & _ & Hg3); [by rewrite (rq_payload _ Hreq)|].
  cut (wp (sync_handle msg st) (fun _ _ => True) k); [intros (r & k' & ? & _)%wp_run; by exists r, k'|].
  unfold sync_handle. case_match; [by apply wp_kret|]. case_match; [by apply wp_kret|].
  apply wp_kbind. eapply wp_klift; [done|]. apply wp_kbind. eapply wp_klift; [done|].
  apply wp_kbind, wp_ktrace_only; [done|]. intros k1 Hk1 Htr.
  assert (service_ready k1) as Hr1.
  { destruct Hk as [_ Hd Hc Hs]. pose proof (only_traced_frame _ _ Htr) as Hf. split; [done|by eapply ipc_frame_depth|..]; by rewrite (only_traced_sched _ _ Htr). }
  destruct (8 <=? id) eqn:H8; [by apply wp_kret|]. bool_to_prop.
  destruct (arr_get_ok (ss_objects st) id) as (o & Ho & Hgo); [rewrite Hlen; done|].
  unfold releasable, sync_id in Hrel. rewrite Hid in Hrel. specialize (Hrel o Ho).
  rewrite Forall_forall in Hall. pose proof (Hall _ (idx_elem_of _ _ _ Ho)) as [Hw Hidle Htasks].
  destruct (decide (op = 0)) as [->|]; [|destruct (decide (op = 1)) as [->|]; [|destruct (decide (op = 2)) as [->|]]].
  - unfold sync_create. rewrite Hg2, Hg3. cbn [obind]. rewrite Hgo. cbn [obind]. destruct (so_used o); by apply wp_kret.
  - apply wp_kbind, wp_sender_holds; [done|]. case_match; [by apply wp_kret|]. unfold sync_acquire. rewrite Hgo. cbn [obind].
    case_match; [done|]. case_match; [done|].
    destruct (decide (lenN (waiting_tasks o) < SYNC_MAX_WAIT)) as [Hlt|Hge].
    + destruct (fifo_enqueue_accepts (F := SyncObject_Fifo) o (msg_sender msg) Hw Hlt) as (o2 & Henq & _ & _). simpl in Henq. by rewrite Henq.
    + pose proof (fifo_enqueue_refuses (F := SyncObject_Fifo) o (msg_sender msg) Hw) as Henq.
      pose proof (fifo_bounded (F := SyncObject_Fifo) o Hw) as Hb. simpl in Henq, Hb. by rewrite Henq by lia.
  - apply wp_kbind, wp_sender_holds; [done|]. case_match; [by apply wp_kret|]. unfold sync_release. rewrite Hgo. cbn [obind].
    apply wp_kbind. case_match; [by eapply wp_klift; [done|]|]. destruct (waiting_tasks o) as [|x q] eqn:Hq.
    + pose proof (fifo_dequeue_nil (F := SyncObject_Fifo) o Hw Hq) as Hd. simpl in Hd. rewrite Hd. cbn [obind].
      unfold add_i32. rewrite (proj2 (N.ltb_lt _ _) Hrel). destruct (so_is_mutex o); eapply wp_klift; done.
    + destruct (fifo_dequeue_cons (F := SyncObject_Fifo) o x q Hw Hq) as (o2 & Hd & _ & _). simpl in Hd. rewrite Hd. cbn [obind].
      eapply wp_klift; [done|]. apply Forall_cons in Htasks as [Hx _].
      destruct (sync_reply_lands x [0] k1 Hr1 Hx) as (k2 & Hrun & _); [done|]. apply wp_kbind. unfold wp at 1. by rewrite Hrun.
  - destruct op as [|[[]|[]|]]; by apply wp_kret.
Qed.

Lemma reaches_accounted i c mutex st p st' p' :
  (mutex = true -> c <= 1) -> accounted i c mutex st p -> reaches i st p st' p' -> accounted i c mutex st' p'.
Proof. intros Hm Ha. induction 1 as [|st1 p1 k msg reply st2 k' o _ IH Hreq Hrun Ho Hdisc]; [done|]. by eapply accounted_step. Qed.

(** C33: Permits are conserved.  Let an object have [c] permits and no waiters; if
    it is a mutex, let it have been created with at most one.  After any sequence
    of requests by any tasks, in which only holders release that object, the
    permits held by tasks that were told so, the permits lost on tasks that could
    not be told, and the free permits add up to [c]; so such a mutex never has two
    holders.  Tasks wait only while no permit is free, and the service answers every
    further request on the object.  An answer lands last in the queue of a task that
    is alive with room in its queue, and nowhere otherwise. *)
Theorem permits_conserved i st o st' p' :
  store_ok st -> idx (ss_objects st) i = Some o -> so_used o = true -> waiting_tasks o = [] ->
  so_count o + 1 < i32_limit -> (so_is_mutex o = true -> so_count o <= 1) ->
  reaches i st no_permits st' p' ->
  (exists o', idx (ss_objects st') i = Some o' /\ lenN (held p') + lost p' + so_count o' = so_count o /\
     (so_is_mutex o = true -> lenN (held p') <= 1) /\ (waiting_tasks o' <> [] -> so_count o' = 0)) /\
  (forall k msg, service_ready k -> request_ok msg -> sync_id msg = i -> exists r k', sync_handle msg st' k = Ret (r, k')) /\
  (forall k w, service_ready k -> w < MAX_TASKS -> answer_lands w [0] k).
Proof.
  intros Hst Ho Hu Hw Hc Hm Hr.
  assert (accounted i (so_count o) (so_is_mutex o) st no_permits) as Ha by (split; [done|]; by exists o).
  pose proof (reaches_accounted _ _ _ _ _ _ _ Hm Ha Hr) as [Hst' (o' & Ho' & Hu' & Hm' & Hsum)]. unfold out in Hsum.
  pose proof Hst' as [_ Hall]. rewrite Forall_forall in Hall. pose proof (Hall _ (idx_elem_of _ _ _ Ho')) as [_ Hidle _]. split; [|split].
  - exists o'. split; [done|]. split; [done|]. split.
    + intros Hmx. specialize (Hm Hmx). lia.
    + intros Hq. destruct (decide (0 < so_count o')) as [Hpos|]; [by rewrite Hidle in Hq|lia].
  - intros k msg Hk Hreq Hid. apply sync_handle_returns; [done..|]. unfold releasable. rewrite Hid. intros x Hx. simplify_eq. lia.
  - intros k w Hk Hlt. by apply sync_reply_lands.
Qed.

(** Two tasks with a capability for mutex 3, and the running service. *)
Definition sync_system (st5 st6 : TaskState) : Kernel :=
  let caps := [mkCap (SyncObj 3) true true false false 7 None] in
  set_current 86 (add_task (example_task 5 st5 caps) (add_task (example_task 6 st6 caps) (add_task (example_task 86 Running []) Kernel_init))).
Definition sync_msg (sender op : N) : Message := mkMessage sender SyncOp 1 ([op; 3; 1; 1] ++ replicate 124 0) 4.
Definition sync_mutex : SyncStore := put_object 3 (mkSync true true 1 (replicate 16 0) 0 0 0) SyncStore_new.

Lemma sync_msg_ok sender op : sender < MAX_TASKS -> op < 256 -> request_ok (sync_msg sender op).
Proof.
  intros Hs Hop. split; [done|done| |done]. apply Forall_cons. split; [done|]. by apply byte_list.
Qed.

Lemma sync_mutex_ok : store_ok sync_mutex.
Proof.
  split; [done|]. apply Forall_forall. intros o [j Hj]%elem_of_idx. unfold sync_mutex, put_object in Hj. cbn [ss_objects] in Hj.
  rewrite idx_upd in Hj. case_decide.
  - injection Hj as <-. split; [by split|done|constructor].
  - pose proof SyncStore_new_ok as [_ Hall]. rewrite Forall_forall in Hall. by eapply Hall, idx_elem_of.
Qed.

(** What a request leaves in the store, for a given system. *)
Definition sync_next (k : Kernel) (msg : Message) (st : SyncStore) : option (option (list N) * SyncStore) :=
  match sync_handle msg st k with Ret (r, _) => Some r | _ => None end.

Lemma reaches_next i st p st1 p1 k msg reply st2 o :
  reaches i st p st1 p1 -> request_ok msg -> sync_next k msg st1 = Some (reply, st2) -> idx (ss_objects st1) i = Some o ->
  (sync_id msg = i -> sync_op msg = 2 -> reply = Some [0] -> msg_sender msg ∈ held p1) ->
  reaches i st p st2 (permits_after i (k_sched k) msg o reply p1).
Proof.
  unfold sync_next. intros Hr Hreq Hn. destruct (sync_handle msg st1 k) as [[r k']| | |] eqn:He; [|done..].
  injection Hn as ->. intros. by eapply reaches_step.
Qed.

Definition mutex_at (count h t len : N) (w : list TaskId) (acq rel : N) : SyncStore :=
  mkSyncStore (upd (replicate 8 SyncObject_new) 3 (mkSync true true count w h t len)) acq rel.

(** Task 5 takes the mutex, task 6 waits for it, task 5 releases it when task 6
    has terminated. *)
Lemma sync_contended :
  reaches 3 sync_mutex no_permits (mutex_at 0 0 1 1 (6 :: replicate 15 0) 2 0) (mkPermits [5] 0).
Proof.
  pose proof (reaches_next 3 sync_mutex no_permits sync_mutex no_permits (sync_system Ready Ready) (sync_msg 5 1) (Some [0]) (mutex_at 0 0 0 0 (replicate 16 0) 1 0) (mkSync true true 1 (replicate 16 0) 0 0 0)
    (reaches_refl _ _ _) (sync_msg_ok 5 1 ltac:(done) ltac:(done)) ltac:(vm_compute; reflexivity) ltac:(reflexivity) ltac:(done)) as H1.
  exact (reaches_next 3 sync_mutex no_permits _ (mkPermits [5] 0) (sync_system Ready Ready) (sync_msg 6 1) None _ (mkSync true true 0 (replicate 16 0) 0 0 0)
    H1 (sync_msg_ok 6 1 ltac:(done) ltac:(done)) ltac:(vm_compute; reflexivity) ltac:(reflexivity) ltac:(done)).
Qed.

Lemma sync_abandoned :
  reaches 3 sync_mutex no_permits (mutex_at 0 1 1 0 (6 :: replicate 15 0) 2 1) (mkPermits [] 1).
Proof.
  exact (reaches_next 3 sync_mutex no_permits _ (mkPermits [5] 0) (sync_system Ready Terminated) (sync_msg 5 2) (Some [0]) _ (mkSync true true 0 (6 :: replicate 15 0) 0 1 1)
    sync_contended (sync_msg_ok 5 2 ltac:(done) ltac:(done)) ltac:(vm_compute; reflexivity) ltac:(reflexivity) ltac:(intros; left)).
Qed.

Lemma permits_conserved_witness :
  (exists o', idx (ss_objects (mutex_at 0 0 1 1 (6 :: replicate 15 0) 2 0)) 3 = Some o' /\ lenN [5] + 0 + so_count o' = 1 /\
     (true = true -> lenN [5] <= 1) /\ (waiting_tasks o' <> [] -> so_count o' = 0)) /\
  exists o', idx (ss_objects (mutex_at 0 1 1 0 (6 :: replicate 15 0) 2 1)) 3 = Some o' /\ 0 + 1 + so_count o' = 1.
Proof.
  split.
  - apply (permits_conserved 3 sync_mutex (mkSync true true 1 (replicate 16 0) 0 0 0) _ (mkPermits [5] 0)); try done.
    + apply sync_mutex_ok.
    + apply sync_contended.
  - destruct (permits_conserved 3 sync_mutex (mkSync true true 1 (replicate 16 0) 0 0 0) (mutex_at 0 1 1 0 (6 :: replicate 15 0) 2 1) (mkPermits [] 1))
      as [(o' & H1 & H2 & _) _]; try done; [apply sync_mutex_ok|apply sync_abandoned|]. by exists o'.
Defined.

(** A permit handed to a waiter that has terminated is lost: the release succeeds,
    nobody is told, and the mutex stays taken with nobody waiting. *)
Lemma permit_lost_with_waiter :
  sync_next (sync_system Ready Terminated) (sync_msg 5 2) (mutex_at 0 0 1 1 (6 :: replicate 15 0) 2 0) =
    Some (Some [0], mutex_at 0 1 1 0 (6 :: replicate 15 0) 2 1).
Proof. vm_compute. reflexivity. Qed.

(** A mutex may be created with two permits, and then two tasks hold it. *)
Definition mutex_of_two : option (option (list N) * option (list N) * option (list N)) :=
  let create := mkMessage 5 SyncOp 1 ([0; 3; 1; 2] ++ replicate 124 0) 4 in
  match sync_next (sync_system Ready Ready) create SyncStore_new with
  | Some (r0, st) =>
      match sync_next (sync_system Ready Ready) (sync_msg 5 1) st with
      | Some (r1, st) =>
          match sync_next (sync_system Ready Ready) (sync_msg 6 1) st with Some (r2, _) => Some (r0, r1, r2) | None => None end
      | None => None
      end
  | None => None
  end.

Lemma mutex_two_holders : mutex_of_two = Some (Some [0], Some [0], Some [0]).
Proof. vm_compute. reflexivity. Qed.
