(* ===== verification/SyncDemo.v ===== *)
(** * The synchronisation demonstration

    The two tasks of [run_sync_demo] in [kernel/shell/mod.rs] under every
    interleaving.  Each increments a shared counter [n] times by a load and a
    store that other tasks may come between; [sync_demo_guarded_task] brackets
    them by requests to the synchronisation service, [sync_demo_unguarded_task]
    does not.  [guarded_counter_exact]: with the mutex no increment is lost and
    every run ends.  [unguarded_loses]: without it, half of them can be. *)

From S2P Require Import Prelude Ring Capability Message Task Scheduler Kernel SyncService.
Local Open Scope N_scope.

(** ** The steps of the tasks *)

(** Where a task is in its loop, with the rounds left after this one: between
    rounds, waiting for the reply to its acquire, past it, after its load of the
    counter, after its store. *)
Inductive Phase : Type :=
| Between (n : nat)
| Waiting (n : nat)
| Entered (n : nat)
| Loaded (n : nat) (val : N)
| Stored (n : nat).

(** Task 78 is [false], task 79 is [true]. *)
Definition worker_id (i : bool) : TaskId := if i then 79 else 78.

Record Demo : Type := mkDemo { dm_store : SyncStore; dm_counter : N; dm_phase : bool -> Phase }.

Definition set_phase (i : bool) (p : Phase) (f : bool -> Phase) : bool -> Phase := fun j => if Bool.eqb i j then p else f j.

(** The permit handed to a waiting task ends its receive. *)
Definition hand_over (w : option TaskId) (f : bool -> Phase) : bool -> Phase :=
  fun j =>
    match w with
    | Some t => if t =? worker_id j then match f j with Waiting n => Entered n | p => p end else f j
    | None => f j
    end.

(** One step of task [i].  The replies of the service are not looked at: any reply
    to the acquire lets the task go on. *)
Inductive guarded_step (i : bool) (s : Demo) : Demo -> Prop :=
| step_acquire n r st :
    dm_phase s i = Between (S n) -> sync_acquire (worker_id i) 7 (dm_store s) = Ret (r, st) ->
    guarded_step i s (mkDemo st (dm_counter s) (set_phase i (match r with Some _ => Entered n | None => Waiting n end) (dm_phase s)))
| step_load n :
    dm_phase s i = Entered n ->
    guarded_step i s (mkDemo (dm_store s) (dm_counter s) (set_phase i (Loaded n (dm_counter s)) (dm_phase s)))
| step_store n val val' :
    dm_phase s i = Loaded n val -> add64 val 1 = Ret val' ->
    guarded_step i s (mkDemo (dm_store s) val' (set_phase i (Stored n) (dm_phase s)))
| step_release n r w st :
    dm_phase s i = Stored n -> sync_release 7 (dm_store s) = Ret (r, w, st) ->
    guarded_step i s (mkDemo st (dm_counter s) (hand_over w (set_phase i (Between n) (dm_phase s)))).

(** Without the service. *)
Inductive unguarded_step (i : bool) (s : Demo) : Demo -> Prop :=
| step_load_free n :
    dm_phase s i = Between (S n) ->
    unguarded_step i s (mkDemo (dm_store s) (dm_counter s) (set_phase i (Loaded n (dm_counter s)) (dm_phase s)))
| step_store_free n val val' :
    dm_phase s i = Loaded n val -> add64 val 1 = Ret val' ->
    unguarded_step i s (mkDemo (dm_store s) val' (set_phase i (Between n) (dm_phase s))).

Definition unguarded_run (s s' : Demo) : Prop := rtc (fun s s' => exists i, unguarded_step i s s') s s'.

(** ** The mutex *)

(** Object 7 is a mutex with [count] permits on which [q] wait. *)
Definition mutex_is (st : SyncStore) (count : N) (q : list TaskId) : Prop :=
  exists o, idx (ss_objects st) 7 = Some o /\ so_used o = true /\ so_is_mutex o = true /\ so_count o = count /\ waiters_ok o /\ waiting_tasks o = q.

Lemma put_mutex st o o' count q : idx (ss_objects st) 7 = Some o -> so_used o' = true -> so_is_mutex o' = true -> so_count o' = count -> waiters_ok o' ->
  waiting_tasks o' = q -> mutex_is (put_object 7 o' st) count q.
Proof.
  intros Hi. exists o'. split; [|done]. unfold put_object. cbn [ss_objects]. apply idx_upd_eq. by eapply idx_lt.
Qed.

Lemma acquire_free st t : mutex_is st 1 [] -> exists st', sync_acquire t 7 st = Ret (Some [0], st') /\ mutex_is st' 0 [].
Proof.
  intros (o & Hi & Hu & Hm & Hc & Hw & Hq). unfold sync_acquire. rewrite (proj2 (arr_get_Ret _ _ _) Hi). cbn [obind]. rewrite Hu, Hc. cbn.
  eexists. split; [done|]. by eapply put_mutex.
Qed.

Lemma acquire_taken st t q : mutex_is st 0 q -> lenN q < SYNC_MAX_WAIT -> exists st', sync_acquire t 7 st = Ret (None, st') /\ mutex_is st' 0 (q ++ [t]).
Proof.
  intros (o & Hi & Hu & Hm & Hc & Hw & Hq) Hl. unfold sync_acquire. rewrite (proj2 (arr_get_Ret _ _ _) Hi). cbn [obind]. rewrite Hu, Hc. cbn [negb N.ltb N.compare].
  destruct (fifo_enqueue_accepts (F := SyncObject_Fifo) o t Hw) as (o2 & He & Hw' & Hcont); [simpl; by rewrite Hq|]. simpl in He, Hcont. rewrite He.
  destruct (SyncObject_enqueue_fields _ _ _ _ He) as (Hu' & Hm' & Hc'). eexists. split; [reflexivity|].
  eapply put_mutex; [done|congruence|congruence|congruence|done|congruence].
Qed.

Lemma release_last st : mutex_is st 0 [] -> exists st', sync_release 7 st = Ret ([0], None, st') /\ mutex_is st' 1 [].
Proof.
  intros (o & Hi & Hu & Hm & Hc & Hw & Hq). unfold sync_release. rewrite (proj2 (arr_get_Ret _ _ _) Hi). cbn [obind]. rewrite Hu. cbn [negb].
  pose proof (fifo_dequeue_nil (F := SyncObject_Fifo) o Hw Hq) as Hd. simpl in Hd. rewrite Hd. cbn [obind]. rewrite Hm. cbn [obind].
  eexists. split; [reflexivity|]. by eapply put_mutex.
Qed.

Lemma release_next st w q : mutex_is st 0 (w :: q) -> exists st', sync_release 7 st = Ret ([0], Some w, st') /\ mutex_is st' 0 q.
Proof.
  intros (o & Hi & Hu & Hm & Hc & Hw & Hq). unfold sync_release. rewrite (proj2 (arr_get_Ret _ _ _) Hi). cbn [obind]. rewrite Hu. cbn [negb].
  destruct (fifo_dequeue_cons (F := SyncObject_Fifo) o w q Hw Hq) as (o2 & Hd & Hw' & Hcont). simpl in Hd, Hcont. rewrite Hd. cbn [obind].
  destruct (SyncObject_dequeue_fields _ _ _ Hd) as (Hu' & Hm' & Hc').
  eexists. split; [reflexivity|]. eapply put_mutex; [done|congruence|congruence|congruence|done|done].
Qed.

(** ** The invariant *)

Definition idle (p : Phase) : Prop := exists n, p = Between n.
Definition waits (p : Phase) : Prop := exists n, p = Waiting n.
Definition inside (p : Phase) : Prop := match p with Entered _ | Loaded _ _ | Stored _ => True | _ => False end.

(** The increments a task has still to make. *)
Definition remaining (p : Phase) : N :=
  match p with Between n | Stored n => N.of_nat n | Waiting n | Entered n | Loaded n _ => N.of_nat n + 1 end.

(** The permit is free and nobody is inside or waiting, or one task is inside and
    the other is between rounds or in the queue. *)
Inductive lock_inv (s : Demo) : Prop :=
| lock_free : (forall i, idle (dm_phase s i)) -> mutex_is (dm_store s) 1 [] -> lock_inv s
| lock_held i : inside (dm_phase s i) -> idle (dm_phase s (negb i)) -> mutex_is (dm_store s) 0 [] -> lock_inv s
| lock_contended i :
    inside (dm_phase s i) -> waits (dm_phase s (negb i)) -> mutex_is (dm_store s) 0 [worker_id (negb i)] -> lock_inv s.

Record demo_inv (total : N) (s : Demo) : Prop := {
  di_lock : lock_inv s;
  di_loaded : forall i n val, dm_phase s i = Loaded n val -> val = dm_counter s;
  di_count : dm_counter s + remaining (dm_phase s false) + remaining (dm_phase s true) = total
}.

Lemma set_phase_eq i p f : set_phase i p f i = p.
Proof. unfold set_phase. by rewrite Bool.eqb_reflx. Qed.
Lemma set_phase_other i p f : set_phase i p f (negb i) = f (negb i).
Proof. by destruct i. Qed.

(** A sum over the two tasks, seen from task [i]. *)
Lemma remaining_sum (f : bool -> Phase) i :
  remaining (f false) + remaining (f true) = remaining (f i) + remaining (f (negb i)).
Proof. destruct i; cbn [negb]; lia. Qed.

Lemma each_task (P : bool -> Prop) i : P i -> P (negb i) -> forall j, P j.
Proof. intros H1 H2 j. destruct i, j; done. Qed.

(** The task that moves is [i]; when it is inside, the other is not. *)
Lemma lock_inside s i : lock_inv s -> inside (dm_phase s i) ->
  (idle (dm_phase s (negb i)) /\ mutex_is (dm_store s) 0 []) \/
  (waits (dm_phase s (negb i)) /\ mutex_is (dm_store s) 0 [worker_id (negb i)]).
Proof.
  intros [Hidle _|j Hj Ho Hm|j Hj Ho Hm] Hi.
  - destruct (Hidle i) as [n Hn]. by rewrite Hn in Hi.
  - destruct (decide (i = j)) as [->|Hne]; [by left|]. assert (negb j = i) as Hji by (by destruct i, j). rewrite Hji in Ho.
    destruct Ho as [n Hn]. by rewrite Hn in Hi.
  - destruct (decide (i = j)) as [->|Hne]; [by right|]. assert (negb j = i) as Hji by (by destruct i, j). rewrite Hji in Ho.
    destruct Ho as [n Hn]. by rewrite Hn in Hi.
Qed.

Lemma lock_between s i n : lock_inv s -> dm_phase s i = Between n ->
  (idle (dm_phase s (negb i)) /\ mutex_is (dm_store s) 1 []) \/ (inside (dm_phase s (negb i)) /\ mutex_is (dm_store s) 0 []).
Proof.
  intros [Hidle Hm|j Hj Ho Hm|j Hj Ho Hm] Hi; [by left| |];
    (assert (negb i = j) as Hij by (destruct (decide (i = j)) as [->|]; [by rewrite Hi in Hj|by destruct i, j])).
  - right. by rewrite Hij.
  - assert (negb j = i) as Hji by (by subst j; destruct i). rewrite Hji, Hi in Ho. by destruct Ho.
Qed.

(** The other task keeps its phase, and the loads of the others stay current when
    the counter does not change or the other is not inside. *)
Lemma loaded_set s i p c :
  (forall n val, p = Loaded n val -> val = c) -> (c = dm_counter s \/ ~ inside (dm_phase s (negb i))) ->
  (forall j n val, dm_phase s j = Loaded n val -> val = dm_counter s) ->
  forall j n val, set_phase i p (dm_phase s) j = Loaded n val -> val = c.
Proof.
  intros Hp Hc Hl j n val. destruct (decide (j = i)) as [->|Hne]; [rewrite set_phase_eq; apply Hp|].
  assert (j = negb i) as -> by (by destruct i, j). rewrite set_phase_other. intros Hj.
  destruct Hc as [->|Hno]; [by eapply Hl|]. rewrite Hj in Hno. by destruct (Hno I).
Qed.

Lemma idle_outside p : idle p -> ~ inside p.
Proof. by intros [n ->] []. Qed.
Lemma waits_outside p : waits p -> ~ inside p.
Proof. by intros [n ->] []. Qed.

Lemma count_set s i p c total :
  dm_counter s + remaining (dm_phase s false) + remaining (dm_phase s true) = total ->
  dm_counter s + remaining (dm_phase s i) = c + remaining p ->
  c + remaining (set_phase i p (dm_phase s) false) + remaining (set_phase i p (dm_phase s) true) = total.
Proof.
  rewrite <- !N.add_assoc, (remaining_sum _ i), (remaining_sum (set_phase _ _ _) i), set_phase_eq, set_phase_other. lia.
Qed.

(** A task that stays inside. *)
Lemma lock_moves s i p c : lock_inv s -> inside (dm_phase s i) -> inside p -> lock_inv (mkDemo (dm_store s) c (set_phase i p (dm_phase s))).
Proof.
  intros Hl Hi Hp. destruct (lock_inside s i Hl Hi) as [[Ho Hm]|[Ho Hm]];
    [apply (lock_held _ i)|apply (lock_contended _ i)]; cbn [dm_store dm_phase]; rewrite ?set_phase_eq, ?set_phase_other; done.
Qed.

Lemma acquire_keeps total i s n r st :
  demo_inv total s -> dm_phase s i = Between (S n) -> sync_acquire (worker_id i) 7 (dm_store s) = Ret (r, st) ->
  demo_inv total (mkDemo st (dm_counter s) (set_phase i (match r with Some _ => Entered n | None => Waiting n end) (dm_phase s))).
Proof.
  intros [Hlock Hload Hcount] Hi Ha. split; cbn [dm_store dm_counter dm_phase].
  - destruct (lock_between s i _ Hlock Hi) as [[Ho Hm]|[Ho Hm]].
    + destruct (acquire_free _ (worker_id i) Hm) as (st' & Ha' & Hm'). rewrite Ha in Ha'. injection Ha' as -> ->.
      apply (lock_held _ i); cbn [dm_store dm_phase]; [by rewrite set_phase_eq|by rewrite set_phase_other|done].
    + destruct (acquire_taken _ (worker_id i) [] Hm) as (st' & Ha' & Hm'); [done|]. rewrite Ha in Ha'. injection Ha' as -> ->.
      apply (lock_contended _ (negb i)); cbn [dm_store dm_phase]; rewrite ?negb_involutive; [by rewrite set_phase_other|rewrite set_phase_eq; by eexists|done].
  - apply loaded_set; [by destruct r|by left|done].
  - apply count_set; [done|]. rewrite Hi. destruct r; cbn [remaining]; lia.
Qed.

Lemma release_keeps total i s n r w st :
  demo_inv total s -> dm_phase s i = Stored n -> sync_release 7 (dm_store s) = Ret (r, w, st) ->
  demo_inv total (mkDemo st (dm_counter s) (hand_over w (set_phase i (Between n) (dm_phase s)))).
Proof.
  intros [Hlock Hload Hcount] Hi Hr. assert (inside (dm_phase s i)) as Hin by by rewrite Hi.
  pose proof (loaded_set s i (Between n) (dm_counter s) ltac:(done) ltac:(by left) Hload) as Hload'.
  pose proof (count_set s i (Between n) (dm_counter s) total Hcount ltac:(by rewrite Hi)) as Hcount'.
  destruct (lock_inside s i Hlock Hin) as [[Ho Hm]|[[m Ho] Hm]].
  - destruct (release_last _ Hm) as (st' & Hr' & Hm'). rewrite Hr in Hr'. injection Hr' as -> -> ->. split; [|done|done].
    apply lock_free; [|done]. apply (each_task _ i); cbn; [rewrite set_phase_eq; by eexists|by rewrite set_phase_other].
  - destruct (release_next _ _ _ Hm) as (st' & Hr' & Hm'). rewrite Hr in Hr'. injection Hr' as -> -> ->.
    set (f := hand_over _ _). assert (f i = Between n) as Hfi by (unfold f, hand_over; rewrite set_phase_eq; by destruct i).
    assert (f (negb i) = Entered m) as Hfo by (unfold f, hand_over; rewrite set_phase_other, N.eqb_refl, Ho; done).
    split; cbn [dm_store dm_counter dm_phase].
    + apply (lock_held _ (negb i)); cbn [dm_store dm_phase]; rewrite ?negb_involutive; [by rewrite Hfo|rewrite Hfi; by eexists|done].
    + apply (each_task (fun j => forall n val, f j = Loaded n val -> val = dm_counter s) i); [by rewrite Hfi|by rewrite Hfo].
    + rewrite <- N.add_assoc, (remaining_sum _ i), set_phase_eq, set_phase_other, Ho in Hcount'.
      rewrite <- N.add_assoc, (remaining_sum f i), Hfi, Hfo. exact Hcount'.
Qed.

Lemma step_keeps total i s s' : demo_inv total s -> guarded_step i s s' -> demo_inv total s'.
Proof.
  intros Hinv [n r st Hi Ha|n Hi|n val val' Hi Hv|n r w st Hi Hr]; [by eapply acquire_keeps| | |by eapply release_keeps];
    destruct Hinv as [Hlock Hload Hcount]; (assert (inside (dm_phase s i)) as Hin by by rewrite Hi).
  - split; [by apply lock_moves|apply loaded_set; [by intros ? ? [= _ <-]|by left|done]|].
    apply count_set; [done|]. by rewrite Hi.
  - apply add64_Ret in Hv as [-> _]. rewrite (Hload i n val Hi) in *. split; [by apply lock_moves|apply loaded_set; [done| |done]|].
    + right. destruct (lock_inside s i Hlock Hin) as [[Ho _]|[Ho _]]; [by apply idle_outside|by apply waits_outside].
    + apply count_set; [done|]. rewrite Hi. cbn [remaining dm_counter]. lia.
Qed.

(** ** Progress and termination *)

(** Unless both tasks are through, one of them can move. *)
Lemma guarded_progress total s : total < u64_limit -> demo_inv total s -> (exists i, dm_phase s i <> Between 0) -> exists i s', guarded_step i s s'.
Proof.
  intros Ht [Hlock Hload Hcount] [j Hj].
  assert (forall i, inside (dm_phase s i) -> exists s', guarded_step i s s') as Hinside.
  { intros i Hi. destruct (dm_phase s i) as [n|n|n|n val|n] eqn:Hp; try done.
    - eexists. by eapply step_load.
    - eexists. eapply step_store; [done|]. rewrite (Hload i n val Hp). apply add64_ok.
      rewrite <- N.add_assoc, (remaining_sum _ i), Hp in Hcount. cbn [remaining] in Hcount. lia.
    - destruct (lock_inside s i Hlock ltac:(by rewrite Hp)) as [[_ Hm]|[_ Hm]];
        [destruct (release_last _ Hm) as (st & Hr & _)|destruct (release_next _ _ _ Hm) as (st & Hr & _)]; eexists; by eapply step_release. }
  destruct Hlock as [Hidle Hm|i Hi _ _|i Hi _ _]; [|by exists i; apply Hinside|by exists i; apply Hinside].
  destruct (Hidle j) as [[|n] Hn]; [by rewrite Hn in Hj|]. destruct (acquire_free _ (worker_id j) Hm) as (st & Ha & _).
  exists j. eexists. by eapply step_acquire.
Qed.

(** The steps a task can still take, at most. *)
Definition work (p : Phase) : nat :=
  match p with Between n => 5 * n | Stored n => 5 * n + 1 | Loaded n _ => 5 * n + 2 | Entered n => 5 * n + 3 | Waiting n => 5 * n + 4 end.

Lemma guarded_works i s s' : guarded_step i s s' ->
  (work (dm_phase s' false) + work (dm_phase s' true) < work (dm_phase s false) + work (dm_phase s true))%nat.
Proof.
  assert (forall f, work (f false) + work (f true) = work (f i) + work (f (negb i)))%nat as Hsum by (intros f; destruct i; cbn [negb]; lia).
  assert (forall w f j, work (hand_over w f j) <= work (f j))%nat as Hhand.
  { intros w f j. unfold hand_over. destruct w as [t|]; [|done]. destruct (t =? worker_id j); [|done]. destruct (f j); cbn; lia. }
  intros [n r st Hi Ha|n Hi|n val val' Hi Hv|n r w st Hi Hr]; cbn [dm_phase]; rewrite !Hsum, ?set_phase_eq, ?set_phase_other, Hi.
  - destruct r; cbn [work]; lia.
  - cbn [work]. lia.
  - cbn [work]. lia.
  - pose proof (Hhand w (set_phase i (Between n) (dm_phase s)) i) as H1. pose proof (Hhand w (set_phase i (Between n) (dm_phase s)) (negb i)) as H2.
    rewrite set_phase_eq in H1. rewrite set_phase_other in H2. cbn [work] in *. lia.
Qed.

(** ** The two runs *)

Definition start (st : SyncStore) (n : nat) : Demo := mkDemo st 0 (fun _ => Between n).
Definition any_step (s s' : Demo) : Prop := exists i, guarded_step i s s'.

Lemma guarded_runs m s s' total : nsteps any_step m s s' -> demo_inv total s ->
  demo_inv total s' /\ (m + work (dm_phase s' false) + work (dm_phase s' true) <= work (dm_phase s false) + work (dm_phase s true))%nat.
Proof.
  induction 1 as [s|m s1 s2 s3 [i Hstep] _ IH]; intros Hinv; [split; [done|lia]|].
  destruct (IH (step_keeps _ _ _ _ Hinv Hstep)) as [Hinv' Hw]. pose proof (guarded_works _ _ _ Hstep). split; [done|lia].
Qed.

(** A task that has no work left is through its rounds. *)
Lemma no_work p : work p = 0%nat -> p = Between 0.
Proof. destruct p as [[]| | | |]; cbn; (done || lia). Qed.

(** Either both tasks are through, or a step is possible. *)
Lemma through_or_step total s : total < u64_limit -> demo_inv total s -> (forall i, dm_phase s i = Between 0) \/ exists s', any_step s s'.
Proof.
  intros Ht Hinv. destruct (decide (work (dm_phase s false) = 0%nat)) as [Hf|Hf], (decide (work (dm_phase s true) = 0%nat)) as [Ht'|Ht'];
    [left; apply (each_task _ false); by apply no_work|right..];
    (destruct (guarded_progress total s Ht Hinv) as (i & s' & Hs); [|by exists s', i]);
    [exists true; intros H; by rewrite H in Ht'|exists false; intros H; by rewrite H in Hf..].
Qed.

(** Every state reached can be run to the end. *)
Lemma guarded_finishes total s : total < u64_limit -> demo_inv total s ->
  exists m s', nsteps any_step m s s' /\ forall i, dm_phase s' i = Between 0.
Proof.
  intros Ht. remember (work (dm_phase s false) + work (dm_phase s true))%nat as w eqn:Hw. revert s Hw.
  induction (lt_wf w) as [w _ IH]. intros s -> Hinv. destruct (through_or_step total s Ht Hinv) as [Hd|(s1 & i & Hs)].
  - exists 0%nat, s. split; [apply nsteps_O|done].
  - destruct (IH _ (guarded_works _ _ _ Hs) s1 eq_refl (step_keeps _ _ _ _ Hinv Hs)) as (m & s2 & Hr & Hd).
    exists (S m), s2. split; [|done]. eapply nsteps_l; [by exists i|done].
Qed.

Lemma start_inv st n : mutex_is st 1 [] -> demo_inv (2 * N.of_nat n) (start st n).
Proof. intros Hm. split; [apply lock_free; [by eexists|done]|done|cbn; lia]. Qed.

(** C34: The mutex protects the counter.  Two tasks each increment the counter [n]
    times, acquiring the mutex of the synchronisation service before the load and
    releasing it after the store, and nothing restricts how their steps
    interleave.  From every state a run reaches, a run to the end exists; no run
    has more than [10 n] steps; and a run that can take no further step has both
    tasks through all their rounds, the counter at exactly [2 n], and the mutex
    free with nobody waiting. *)
Theorem guarded_counter_exact st n m s :
  mutex_is st 1 [] -> 2 * N.of_nat n < u64_limit -> nsteps any_step m (start st n) s ->
  (m <= 10 * n)%nat /\
  (exists m' s', nsteps any_step m' s s' /\ forall i, dm_phase s' i = Between 0) /\
  ((forall s', ~ any_step s s') ->
     dm_counter s = 2 * N.of_nat n /\ (forall i, dm_phase s i = Between 0) /\ mutex_is (dm_store s) 1 []).
Proof.
  intros Hm Hn Hrun. destruct (guarded_runs _ _ _ _ Hrun (start_inv st n Hm)) as [Hinv Hw]. split; [cbn in Hw; lia|].
  split; [by apply (guarded_finishes _ _ Hn)|]. intros Hstop.
  destruct (through_or_step _ s Hn Hinv) as [Hdone|[s' Hs']]; [|by destruct (Hstop s')].
  destruct Hinv as [Hlock _ Hcount]. rewrite !Hdone in Hcount. cbn [remaining] in Hcount. split; [lia|]. split; [done|].
  destruct Hlock as [_ ?|i Hi _ _|i Hi _ _]; [done|by rewrite Hdone in Hi|by rewrite Hdone in Hi].
Qed.

(** Without the mutex, every pair of increments can count once. *)
Lemma unguarded_loses n : forall s, (forall i, dm_phase s i = Between n) -> dm_counter s + N.of_nat n < u64_limit ->
  exists s', unguarded_run s s' /\ (forall i, dm_phase s' i = Between 0) /\ dm_counter s' = dm_counter s + N.of_nat n.
Proof.
  induction n as [|n IH]; intros s Hs Hlim; [exists s; split; [apply rtc_refl|]; split; [done|lia]|].
  set (c := dm_counter s). assert (add64 c 1 = Ret (c + 1)) as Hadd by (apply add64_ok; lia).
  set (s1 := mkDemo (dm_store s) c (set_phase false (Loaded n c) (dm_phase s))).
  set (s2 := mkDemo (dm_store s) c (set_phase true (Loaded n c) (dm_phase s1))).
  set (s3 := mkDemo (dm_store s) (c + 1) (set_phase false (Between n) (dm_phase s2))).
  set (s4 := mkDemo (dm_store s) (c + 1) (set_phase true (Between n) (dm_phase s3))).
  destruct (IH s4) as (s' & Hrun & Hd & Hc); [by intros []|cbn; lia|]. exists s'. split; [|split; [done|rewrite Hc; cbn; lia]].
  eapply rtc_l; [exists false; apply (step_load_free false s n); apply Hs|].
  eapply rtc_l; [exists true; apply (step_load_free true s1 n); apply Hs|].
  eapply rtc_l; [exists false; by apply (step_store_free false s2 n c)|].
  eapply rtc_l; [exists true; by apply (step_store_free true s3 n c)|]. exact Hrun.
Qed.

(** The store after the request that creates the mutex. *)
Definition demo_store : SyncStore :=
  match sync_create (mkMessage 64 SyncOp 1 ([0; 7; 1; 1] ++ replicate 124 0) 128) 7 SyncStore_new with Ret (_, st) => st | _ => SyncStore_new end.

Lemma demo_store_free : mutex_is demo_store 1 [].
Proof. eexists. do 4 (split; [reflexivity|]). split; [|reflexivity]. split; vm_compute; (reflexivity || discriminate). Qed.

(** A task through its rounds takes no step. *)
Lemma through_stops s : (forall i, dm_phase s i = Between 0) -> forall s', ~ any_step s s'.
Proof. intros Hd s' [i Hs]. destruct Hs as [n r st Hi|n Hi|n val val' Hi|n r w st Hi]; by rewrite Hd in Hi. Qed.

Lemma guarded_counter_exact_witness :
  exists m s, nsteps any_step m (start demo_store 100) s /\ (m <= 1000)%nat /\ dm_counter s = 200 /\ mutex_is (dm_store s) 1 [].
Proof.
  destruct (guarded_finishes (2 * N.of_nat 100) _ ltac:(reflexivity) (start_inv demo_store 100 demo_store_free)) as (m & s & Hrun & Hd).
  destruct (guarded_counter_exact demo_store 100 m s demo_store_free ltac:(reflexivity) Hrun) as (Hm & _ & Hend).
  destruct (Hend (through_stops s Hd)) as (Hc & _ & Hfree). exists m, s. split; [exact Hrun|]. split; [exact Hm|]. split; [exact Hc|exact Hfree].
Defined.
