(* ===== verification/Spinlock.v ===== *)
(** * The spin lock

    [Spinlock] and [SpinlockGuard] of [kernel/drivers/serial.rs], used by any number
    of processors whose code is interrupted at any point.  The steps are the atomic
    operations of the source; a processor is a stack of contexts, the interrupt
    handlers above what they interrupted, and only the top one runs.
    [spinlock_exclusive]: one context at a time has the guard, whatever the
    interleaving.  [handler_spins_forever]: a handler that waits for a lock its own
    processor holds never gets it. *)

From S2P Require Import Prelude.

(** ** The steps *)

Record Spinlock (T : Type) : Type := mkSpinlock { sl_lock : bool; sl_data : T }.
Arguments mkSpinlock {T} _ _.
Arguments sl_lock {T} _.
Arguments sl_data {T} _.

Definition Spinlock_new {T} (data : T) : Spinlock T := mkSpinlock false data.

(** [self.lock.swap(true)]. *)
Definition swap_true {T} (l : Spinlock T) : bool * Spinlock T := (sl_lock l, mkSpinlock true (sl_data l)).

(** [SpinlockGuard::drop]. *)
Definition guard_drop {T} (l : Spinlock T) : Spinlock T := mkSpinlock false (sl_data l).

(** A context is elsewhere, in the loop of [lock], or has the guard. *)
Inductive Ctx : Type := Elsewhere | Spinning | Holding.

Record Machines (T : Type) : Type := mkMachines { ms_lock : Spinlock T; ms_cpus : list (list Ctx) }.
Arguments mkMachines {T} _ _.
Arguments ms_lock {T} _.
Arguments ms_cpus {T} _.

Section spinlock.
Context {T : Type}.
Implicit Types (s : Machines T).

(** Processor [i] takes a step that turns its stack into [stack]. *)
Definition moved (i : nat) (l : Spinlock T) (stack : list Ctx) s : Machines T := mkMachines l (<[i := stack]> (ms_cpus s)).

(** One turn of [while self.lock.swap(true) { spin }]. *)
Definition lock_turn (l : Spinlock T) : Ctx * Spinlock T :=
  let '(taken, l') := swap_true l in (if taken then Spinning else Holding, l').

(** [try_lock]: the guard, or nothing. *)
Definition try_lock (l : Spinlock T) : Ctx * Spinlock T :=
  let '(taken, l') := swap_true l in (if taken then Elsewhere else Holding, l').

Inductive step (i : nat) s : Machines T -> Prop :=
| step_call rest : ms_cpus s !! i = Some (Elsewhere :: rest) -> step i s (moved i (ms_lock s) (Spinning :: rest) s)
| step_turn rest : ms_cpus s !! i = Some (Spinning :: rest) ->
    step i s (moved i (lock_turn (ms_lock s)).2 ((lock_turn (ms_lock s)).1 :: rest) s)
| step_try rest : ms_cpus s !! i = Some (Elsewhere :: rest) ->
    step i s (moved i (try_lock (ms_lock s)).2 ((try_lock (ms_lock s)).1 :: rest) s)
| step_access rest f : ms_cpus s !! i = Some (Holding :: rest) ->
    step i s (moved i (mkSpinlock (sl_lock (ms_lock s)) (f (sl_data (ms_lock s)))) (Holding :: rest) s)
| step_drop rest : ms_cpus s !! i = Some (Holding :: rest) -> step i s (moved i (guard_drop (ms_lock s)) (Elsewhere :: rest) s)
| step_interrupt stack : ms_cpus s !! i = Some stack -> step i s (moved i (ms_lock s) (Elsewhere :: stack) s)
| step_return c rest : ms_cpus s !! i = Some (Elsewhere :: c :: rest) -> step i s (moved i (ms_lock s) (c :: rest) s).

Definition runs s s' : Prop := rtc (fun s s' => exists i, step i s s') s s'.

(** [n] processors, none of them near the lock. *)
Definition boot (n : nat) (data : T) : Machines T := mkMachines (Spinlock_new data) (replicate n [Elsewhere]).

(** ** Exclusion *)

Definition is_holding (c : Ctx) : bool := match c with Holding => true | _ => false end.
Definition holding (stack : list Ctx) : nat := length (List.filter is_holding stack).
Definition holders s : nat := foldr Nat.add 0%nat (holding <$> ms_cpus s).

Lemma holders_moved i l stack stack' s :
  ms_cpus s !! i = Some stack -> (holders (moved i l stack' s) + holding stack = holders s + holding stack')%nat.
Proof.
  unfold holders, moved. cbn [ms_cpus]. generalize (ms_cpus s) as cpus. intros cpus. revert i. induction cpus as [|c cpus IH]; intros [|i] Hi; try done.
  - injection Hi as <-. change (<[0%nat := stack']> (c :: cpus)) with (stack' :: cpus). rewrite !fmap_cons. cbn [foldr]. lia.
  - specialize (IH i Hi). change (<[S i := stack']> (c :: cpus)) with (c :: <[i := stack']> cpus). rewrite !fmap_cons. cbn [foldr]. lia.
Qed.

(** The flag says whether somebody has the guard. *)
Definition flag s : nat := if sl_lock (ms_lock s) then 1 else 0.

Lemma step_flag i s s' : holders s = flag s -> step i s s' -> holders s' = flag s'.
Proof.
  intros Hinv Hs. destruct Hs as [rest Hi|rest Hi|rest Hi|rest f Hi|rest Hi|stack Hi|c rest Hi];
    match goal with |- holders (moved _ ?l ?st _) = _ => pose proof (holders_moved i l _ st s Hi) as Hm end;
    unfold flag, moved, holding, lock_turn, try_lock, swap_true, guard_drop in *; cbn [ms_lock sl_lock fst snd] in *;
    destruct (sl_lock (ms_lock s)); cbn [List.filter is_holding length] in *; lia.
Qed.

Lemma boot_flag n d : holders (boot n d) = flag (boot n d).
Proof. unfold holders, boot, flag. cbn [ms_cpus ms_lock Spinlock_new sl_lock]. induction n as [|n IH]; [done|]. cbn [replicate]. rewrite fmap_cons. cbn [foldr]. rewrite IH. done. Qed.

Lemma runs_flag s s' : runs s s' -> holders s = flag s -> holders s' = flag s'.
Proof. induction 1 as [|s1 s2 s3 [i Hs] _ IH]; [done|]. intros Hf. apply IH. by eapply step_flag. Qed.

Lemma holding_pos st : Holding ∈ st -> (1 <= holding st)%nat.
Proof.
  intros (a & b & ->)%list_elem_of_split. unfold holding. rewrite List.filter_app, length_app. cbn [List.filter is_holding length]. lia.
Qed.

(** Where the guard is, nobody else has it. *)
Lemma one_holder s i j si sj : holders s = flag s -> ms_cpus s !! i = Some si -> ms_cpus s !! j = Some sj -> i <> j ->
  Holding ∈ si -> Holding ∉ sj.
Proof.
  intros Hf Hi Hj Hne Hsi Hsj. pose proof (holders_moved i (ms_lock s) si [] s Hi) as H1.
  assert (ms_cpus (moved i (ms_lock s) [] s) !! j = Some sj) as Hj' by (unfold moved; cbn [ms_cpus]; by rewrite list_lookup_insert_ne).
  pose proof (holders_moved j (ms_lock s) sj [] _ Hj') as H2. pose proof (holding_pos si Hsi). pose proof (holding_pos sj Hsj).
  unfold flag in Hf. change (holding []) with 0%nat in *. destruct (sl_lock _); lia.
Qed.

(** C21: The spin lock excludes.  Any number of processors use the lock, through
    [lock] or [try_lock], interrupted at any point by handlers that use it too.  In
    every state they reach the flag is set exactly when one context has the guard,
    no two contexts have it, the protected data is changed only by the context that
    has it, and a context that waits gets the guard with its next turn whenever
    nobody has it. *)
Theorem spinlock_exclusive n (d : T) s :
  runs (boot n d) s ->
  holders s = (if sl_lock (ms_lock s) then 1 else 0)%nat /\
  (forall i s', step i s s' -> sl_data (ms_lock s') <> sl_data (ms_lock s) -> exists rest, ms_cpus s !! i = Some (Holding :: rest) /\ holders s = 1%nat) /\
  (forall i rest, ms_cpus s !! i = Some (Spinning :: rest) -> holders s = 0%nat ->
     exists s', step i s s' /\ ms_cpus s' !! i = Some (Holding :: rest)).
Proof.
  intros Hrun. pose proof (runs_flag _ _ Hrun (boot_flag n d)) as Hf. split; [done|]. split.
  - intros i s' Hs Hd. destruct Hs as [|rest Hi|rest Hi|rest f Hi| | |]; try done. exists rest. split; [done|].
    pose proof (holders_moved i (ms_lock s) _ [] s Hi) as Hm. unfold flag in Hf. unfold holding in Hm. cbn [List.filter is_holding length] in Hm. destruct (sl_lock _); lia.
  - intros i rest Hi H0. unfold flag in Hf. destruct (sl_lock (ms_lock s)) eqn:Hl; [lia|]. eexists. split; [by apply step_turn|].
    unfold moved, lock_turn, swap_true. cbn [ms_cpus fst snd]. rewrite Hl. apply list_lookup_insert_eq. by eapply lookup_lt_Some.
Qed.

(** ** Handlers *)

(** On processor [i] a context waits for the lock that a context below it has. *)
Definition waits_for_itself (i : nat) (below : list Ctx) s : Prop :=
  exists above, ms_cpus s !! i = Some (above ++ Spinning :: below) /\ Holding ∈ below.

(** It waits for ever: the context that has the guard does not run. *)
Lemma spins_on i j below s s' : holders s = flag s -> waits_for_itself i below s -> step j s s' -> waits_for_itself i below s'.
Proof.
  intros Hf (above & Hi & Hb) Hs. assert (sl_lock (ms_lock s) = true) as Hl.
  { pose proof (holders_moved i (ms_lock s) _ [] s Hi) as Hm. pose proof (holding_pos (above ++ Spinning :: below) ltac:(set_solver)) as Hp.
    unfold flag in Hf. change (holding []) with 0%nat in Hm. destruct (sl_lock (ms_lock s)); [done|lia]. }
  destruct (decide (j = i)) as [->|Hne].
  2: { destruct Hs; exists above; unfold moved; cbn [ms_cpus]; by rewrite list_lookup_insert_ne. }
  assert (forall l above', waits_for_itself i below (moved i l (above' ++ Spinning :: below) s)) as Hkeep.
  { intros l above'. exists above'. split; [|done]. unfold moved. cbn [ms_cpus]. apply list_lookup_insert_eq. by eapply lookup_lt_Some. }
  destruct Hs as [rest Hj|rest Hj|rest Hj|rest f Hj|rest Hj|stack Hj|c rest Hj]; rewrite Hi in Hj; injection Hj as Hj; unfold lock_turn, try_lock, swap_true; rewrite ?Hl; cbn [fst snd].
  - destruct above as [|a above]; [done|]. injection Hj as -> <-. apply (Hkeep _ (Spinning :: above)).
  - destruct above as [|a above]; simplify_eq/=; [apply (Hkeep _ [])|apply (Hkeep _ (Spinning :: above))].
  - destruct above as [|a above]; [done|]. injection Hj as -> <-. apply (Hkeep _ (Elsewhere :: above)).
  - destruct above as [|a above]; [done|]. injection Hj as -> <-. apply (Hkeep _ (Holding :: above)).
  - destruct above as [|a above]; [done|]. injection Hj as -> <-. apply (Hkeep _ (Elsewhere :: above)).
  - subst stack. apply (Hkeep _ (Elsewhere :: above)).
  - destruct above as [|a [|b above]]; [done| |]; simplify_eq/=; [apply (Hkeep _ [])|apply (Hkeep _ (c :: above))].
Qed.

Lemma handler_spins_forever i below s s' : holders s = flag s -> waits_for_itself i below s -> runs s s' -> waits_for_itself i below s'.
Proof.
  intros Hf Hw Hrun. induction Hrun as [|s1 s2 s3 [j Hs] _ IH]; [done|]. apply IH; [by eapply step_flag|by eapply spins_on].
Qed.
End spinlock.

(** Two processors: the first has the guard, the second waits. *)
Lemma spinlock_exclusive_witness :
  exists s, runs (boot 2 0%nat) s /\ ms_cpus s = [[Holding]; [Spinning]] /\ holders s = 1%nat.
Proof.
  assert (runs (boot 2 0%nat) (mkMachines (mkSpinlock true 0%nat) [[Holding]; [Spinning]])) as Hrun.
  { eapply rtc_l; [exists 0%nat; by apply (step_try 0 (boot 2 0%nat) [])|]. eapply rtc_l; [exists 1%nat; by eapply step_call|]. apply rtc_refl. }
  exists (mkMachines (mkSpinlock true 0%nat) [[Holding]; [Spinning]]). split; [exact Hrun|]. split; [reflexivity|].
  exact (proj1 (spinlock_exclusive 2 0%nat _ Hrun)).
Defined.

(** The first processor takes the guard, is interrupted, and the handler asks for
    it. *)
Lemma handler_deadlock : exists s, runs (boot 1 0%nat) s /\ forall s', runs s s' -> waits_for_itself 0 [Holding] s'.
Proof.
  exists (mkMachines (mkSpinlock true 0%nat) [[Spinning; Holding]]). split.
  - eapply rtc_l; [exists 0%nat; by apply (step_try 0 (boot 1 0%nat) [])|]. eapply rtc_l; [exists 0%nat; by eapply step_interrupt|].
    eapply rtc_l; [exists 0%nat; by eapply step_call|]. apply rtc_refl.
  - intros s' Hr. eapply handler_spins_forever; [| |exact Hr]; [reflexivity|]. exists []. split; [reflexivity|]. set_solver.
Qed.
