(* ===== verification/Serial.v ===== *)
(** * The serial port

    Models [kernel/drivers/serial.rs]: the COM1 driver and [_print], the function
    behind [print!].  The port instructions act on a device the kernel does not
    define: [PortDevice] is the interface of the [in] and [out] instructions and
    [Uart16550] states the documented behaviour of a 16550 at a base port that
    the driver relies on.  [print_exact] is proved against that interface;
    [Chip] is a concrete device that satisfies it. *)

From S2P Require Import Prelude Ring Preempt.
Local Open Scope N_scope.

(** ** Ports *)

(** [inb] and [outb] on a device with state [D]. *)
Class PortDevice (D : Type) : Type := {
  inb : N -> D -> N * D;
  outb : N -> N -> D -> D
}.

(** [a + b] on [u16]. *)
Definition add16 (a b : N) : outcome N := if a + b <? 2 ^ 16 then Ret (a + b) else Panic.

Record SerialPort : Type := mkSerialPort { port : N }.

Definition CR : N := 13.
Definition LF : N := 10.

Section driver.
Context `{PortDevice D}.

Definition outb_at (self : SerialPort) (offset value : N) (d : D) : outcome D :=
  let! p := add16 (port self) offset in Ret (outb p value d).

Definition SerialPort_init (self : SerialPort) (d : D) : outcome D :=
  let! d := outb_at self 1 0x00 d in
  let! d := outb_at self 3 0x80 d in
  let! d := outb_at self 0 0x01 d in
  let! d := outb_at self 1 0x00 d in
  let! d := outb_at self 3 0x03 d in
  let! d := outb_at self 2 0xC7 d in
  outb_at self 4 0x0B d.

Definition send (self : SerialPort) (byte : N) (d : D) : D := outb (port self) byte d.

Fixpoint write_string (self : SerialPort) (s : list N) (d : D) : D :=
  match s with
  | [] => d
  | byte :: s' =>
      let d := if byte =? LF then send self CR d else d in
      write_string self s' (send self byte d)
  end.

Definition serial_try_read (self : SerialPort) (d : D) : outcome (option N * D) :=
  let! p5 := add16 (port self) 5 in
  let '(lsr, d) := inb p5 d in
  if N.land lsr 1 =? 0 then Ret (None, d)
  else
    let! p0 := add16 (port self) 0 in
    let '(b, d) := inb p0 d in
    Ret (Some b, d).
End driver.

Definition SERIAL1 : SerialPort := mkSerialPort 0x3F8.

(** ** The console *)

(** The buffer a [REDIRECT_TARGET] points to, its limit and the length written
    so far. *)
Record Redirect : Type := mkRedirect { rd_buf : list N; rd_max_len : N; rd_written : N }.

(** [RedirectWriter::write_str].  A copy past the end of the buffer is undefined
    and modelled as a panic. *)
Definition RedirectWriter_write_str (s : list N) (r : Redirect) : outcome Redirect :=
  let! room := sub64 (rd_max_len r) (rd_written r) in
  let to_copy := N.min (lenN s) room in
  if 0 <? to_copy then
    let! buf := copy_at (rd_buf r) (rd_written r) (take (N.to_nat to_copy) s) in
    let! written := add64 (rd_written r) to_copy in
    Ret (mkRedirect buf (rd_max_len r) written)
  else Ret r.

(** What [_print] uses: the device behind [SERIAL1], [REDIRECT_TARGET] and the
    preemption state. *)
Record Console (D : Type) : Type := mkConsole {
  co_device : D;
  co_redirect : option Redirect;
  co_preempt : PreemptState
}.
Arguments mkConsole {D} _ _ _.
Arguments co_device {D} _.
Arguments co_redirect {D} _.
Arguments co_preempt {D} _.

(** [_print]; [args] is the sequence of strings [write_fmt] passes to
    [write_str]. *)
Definition print_args `{PortDevice D} (args : list (list N)) (c : Console D) : outcome (Console D) :=
  let preempt := enter_critical (co_preempt c) in
  match co_redirect c with
  | Some r =>
      let! r' := for_each args RedirectWriter_write_str r in
      Ret (mkConsole (co_device c) (Some r') (exit_critical preempt))
  | None =>
      let d' := foldl (fun d s => write_string SERIAL1 s d) (co_device c) args in
      Ret (mkConsole d' None (exit_critical preempt))
  end.

(** ** The device *)

(** A 16550 at [base], by what its registers do: the bytes received and not yet
    read, the bytes transmitted, the line-control register, the divisor latch,
    the interrupt-enable register, and how many more bytes the transmitter takes
    before it drops one. *)
Class Uart16550 (D : Type) `{PortDevice D} (base : N) : Type := {
  uart_rx : D -> list N;
  uart_tx : D -> list N;
  uart_dlab : D -> bool;
  uart_divisor : D -> N * N;
  uart_ier : D -> N;
  uart_room : D -> N
}.
Arguments uart_rx {D _} base {_} _.
Arguments uart_tx {D _} base {_} _.
Arguments uart_dlab {D _} base {_} _.
Arguments uart_divisor {D _} base {_} _.
Arguments uart_ier {D _} base {_} _.
Arguments uart_room {D _} base {_} _.

(** The registers other than the ones listed keep their value. *)
Definition same_lines {D} `{Uart16550 D base} (d d' : D) : Prop :=
  uart_tx base d' = uart_tx base d /\ uart_rx base d' = uart_rx base d /\ uart_room base d' = uart_room base d.
Definition same_control {D} `{Uart16550 D base} (d d' : D) : Prop :=
  uart_dlab base d' = uart_dlab base d /\ uart_divisor base d' = uart_divisor base d /\ uart_ier base d' = uart_ier base d.

(** Bit 7 of the line-control register gives access to the divisor latch at the
    first two ports; otherwise they are the data and interrupt-enable
    registers.  Bit 0 of the line-status register says that a byte waits. *)
Class Uart16550Laws (D : Type) `{Uart16550 D base} : Prop := {
  uart_lsr d lsr d' : inb (base + 5) d = (lsr, d') ->
    N.testbit lsr 0 = negb (bool_decide (uart_rx base d = [])) /\ same_lines d d' /\ same_control d d';
  uart_rbr d b l : uart_dlab base d = false -> uart_rx base d = b :: l ->
    exists d', inb base d = (b, d') /\ uart_rx base d' = l /\ uart_tx base d' = uart_tx base d /\
      uart_room base d' = uart_room base d /\ same_control d d';
  uart_thr d b : uart_dlab base d = false ->
    uart_rx base (outb base b d) = uart_rx base d /\ same_control d (outb base b d) /\
    (0 < uart_room base d ->
     uart_tx base (outb base b d) = uart_tx base d ++ [b] /\ uart_room base d <= uart_room base (outb base b d) + 1);
  uart_dll d b : uart_dlab base d = true ->
    same_lines d (outb base b d) /\ uart_dlab base (outb base b d) = true /\
    uart_divisor base (outb base b d) = (b, snd (uart_divisor base d)) /\ uart_ier base (outb base b d) = uart_ier base d;
  uart_port1 d b :
    same_lines d (outb (base + 1) b d) /\ uart_dlab base (outb (base + 1) b d) = uart_dlab base d /\
    (if uart_dlab base d
     then uart_divisor base (outb (base + 1) b d) = (fst (uart_divisor base d), b) /\ uart_ier base (outb (base + 1) b d) = uart_ier base d
     else uart_ier base (outb (base + 1) b d) = b /\ uart_divisor base (outb (base + 1) b d) = uart_divisor base d);
  uart_lcr d b :
    same_lines d (outb (base + 3) b d) /\ uart_dlab base (outb (base + 3) b d) = N.testbit b 7 /\
    uart_divisor base (outb (base + 3) b d) = uart_divisor base d /\ uart_ier base (outb (base + 3) b d) = uart_ier base d;
  uart_fcr d b : N.testbit b 1 = true ->
    uart_rx base (outb (base + 2) b d) = [] /\ uart_tx base (outb (base + 2) b d) = uart_tx base d /\ same_control d (outb (base + 2) b d);
  uart_mcr d b : same_lines d (outb (base + 4) b d) /\ same_control d (outb (base + 4) b d)
}.

(** ** The driver on a 16550 *)

(** The bytes on the wire for a string: a carriage return before each newline. *)
Definition crlf (s : list N) : list N := s ≫= (fun b => if b =? LF then [CR; LF] else [b]).

Lemma crlf_app s t : crlf (s ++ t) = crlf s ++ crlf t.
Proof. apply bind_app. Qed.

Lemma crlf_byte b s : crlf (b :: s) = (if b =? LF then [CR] else []) ++ b :: crlf s.
Proof.
  unfold crlf. cbn [mbind list_bind]. destruct (b =? LF) eqn:Hb; bool_to_prop; [by subst|done].
Qed.

Section uart.
Context {D : Type} `{P : PortDevice D} (base : N) `{U : !Uart16550 D base} `{UL : !Uart16550Laws D}.
Implicit Types (d : D).

(** The transmitter takes [s]: [d'] has sent it after what [d] had sent. *)
Record transmits (s : list N) (d d' : D) : Prop := {
  tr_tx : uart_tx base d' = uart_tx base d ++ s;
  tr_room : uart_room base d <= uart_room base d' + lenN s;
  tr_rx : uart_rx base d' = uart_rx base d;
  tr_control : same_control d d'
}.

Lemma transmits_nil d : transmits [] d d.
Proof. split; [by rewrite app_nil_r|lia|done|by repeat split]. Qed.

Lemma transmits_trans s1 s2 d1 d2 d3 : transmits s1 d1 d2 -> transmits s2 d2 d3 -> transmits (s1 ++ s2) d1 d3.
Proof.
  intros [Ht1 Hr1 Hx1 (Hc1 & Hc2 & Hc3)] [Ht2 Hr2 Hx2 (Hc4 & Hc5 & Hc6)]. split.
  - by rewrite Ht2, Ht1, app_assoc.
  - rewrite lenN_app. lia.
  - congruence.
  - repeat split; congruence.
Qed.

Lemma transmits_room s s' d d' : transmits s d d' -> lenN (s ++ s') <= uart_room base d -> lenN s' <= uart_room base d'.
Proof. intros [_ Hr _ _]. rewrite lenN_app. lia. Qed.

Lemma transmits_dlab s d d' : transmits s d d' -> uart_dlab base d' = uart_dlab base d.
Proof. intros [_ _ _ (? & _)]. done. Qed.

Lemma send_spec b d : uart_dlab base d = false -> 0 < uart_room base d -> transmits [b] d (send (mkSerialPort base) b d).
Proof. intros Hd Hr. destruct (uart_thr d b Hd) as (? & ? & Ht). destruct (Ht Hr). by split. Qed.

(** Whatever room there is, writing leaves the input and the settings alone. *)
Lemma write_string_frame s : forall d,
  uart_dlab base d = false ->
  uart_rx base (write_string (mkSerialPort base) s d) = uart_rx base d /\ same_control d (write_string (mkSerialPort base) s d).
Proof.
  assert (forall b d, uart_dlab base d = false -> uart_rx base (send (mkSerialPort base) b d) = uart_rx base d /\
    same_control d (send (mkSerialPort base) b d)) as Hsend by (intros b d Hd; by destruct (uart_thr d b Hd) as (? & ? & _)).
  induction s as [|b s IH]; intros d Hd; [by repeat split|]. cbn [write_string].
  assert (exists d1, (if b =? LF then send (mkSerialPort base) CR d else d) = d1 /\ uart_rx base d1 = uart_rx base d /\ same_control d d1)
    as (d1 & -> & Hx1 & (Hc1 & Hc2 & Hc3)).
  { destruct (b =? LF); eexists; (split; [reflexivity|]); [by apply Hsend|by repeat split]. }
  destruct (Hsend b d1) as (Hx2 & (Hc4 & Hc5 & Hc6)); [congruence|].
  destruct (IH (send (mkSerialPort base) b d1)) as (Hx3 & (Hc7 & Hc8 & Hc9)); [congruence|]. repeat split; congruence.
Qed.

Lemma write_string_spec s : forall d,
  uart_dlab base d = false -> lenN (crlf s) <= uart_room base d -> transmits (crlf s) d (write_string (mkSerialPort base) s d).
Proof.
  induction s as [|b s IH]; intros d Hd Hr; [apply transmits_nil|]. rewrite crlf_byte in *. cbn [write_string].
  assert (transmits (if b =? LF then [CR] else []) d (if b =? LF then send (mkSerialPort base) CR d else d)) as Hcr.
  { destruct (b =? LF); [|apply transmits_nil]. apply send_spec; [done|]. rewrite lenN_app in Hr. change (lenN [CR]) with 1 in Hr. lia. }
  set (d1 := if b =? LF then _ else d) in *. pose proof (transmits_room _ _ _ _ Hcr Hr) as Hr1. rewrite lenN_cons in Hr1.
  assert (transmits [b] d1 (send (mkSerialPort base) b d1)) as Hb.
  { apply send_spec; [by rewrite (transmits_dlab _ _ _ Hcr)|lia]. }
  eapply transmits_trans; [done|]. eapply (transmits_trans [b]); [done|]. apply IH.
  - by rewrite (transmits_dlab _ _ _ Hb), (transmits_dlab _ _ _ Hcr).
  - pose proof (tr_room _ _ _ Hb) as Hr2. change (lenN [b]) with 1 in Hr2. lia.
Qed.

(** A read takes the oldest byte waiting, if there is one, and disturbs nothing
    else. *)
Lemma serial_try_read_spec d :
  base + 5 < 2 ^ 16 -> uart_dlab base d = false ->
  exists d', serial_try_read (mkSerialPort base) d = Ret (head (uart_rx base d), d') /\
    uart_rx base d' = tail (uart_rx base d) /\ uart_tx base d' = uart_tx base d /\
    uart_room base d' = uart_room base d /\ same_control d d'.
Proof.
  intros Hb Hd. unfold serial_try_read, add16. simpl port. rewrite (proj2 (N.ltb_lt _ _)) by lia. cbn [obind].
  destruct (inb (base + 5) d) as [lsr d1] eqn:Hl. destruct (uart_lsr _ _ _ Hl) as (Hbit & (Ht & Hx & Hr) & (Hc1 & Hc2 & Hc3)).
  assert ((N.land lsr 1 =? 0) = negb (N.testbit lsr 0)) as ->.
  { change 1 with (N.ones 1). rewrite N.land_ones. change (2 ^ 1) with 2. rewrite <- N.bit0_mod. by destruct (N.testbit lsr 0). }
  rewrite Hbit, negb_involutive. destruct (uart_rx base d) as [|b l] eqn:Hrx.
  - rewrite bool_decide_true by done. exists d1. rewrite Hx. by repeat split.
  - rewrite bool_decide_false by done. rewrite (proj2 (N.ltb_lt _ _)) by lia. cbn [obind]. rewrite N.add_0_r.
    destruct (uart_rbr d1 b l) as (d2 & -> & Hx2 & Ht2 & Hr2 & (Hc4 & Hc5 & Hc6)); [congruence..|].
    exists d2. split_and!; simpl; try done; repeat split; congruence.
Qed.

(** Initialisation leaves the data registers selected, 115200 baud (divisor 1),
    interrupts off and no stale input, and transmits nothing. *)
Lemma SerialPort_init_spec d :
  base + 5 < 2 ^ 16 ->
  exists d', SerialPort_init (mkSerialPort base) d = Ret d' /\
    uart_dlab base d' = false /\ uart_divisor base d' = (1, 0) /\ uart_rx base d' = [] /\ uart_tx base d' = uart_tx base d /\
    (uart_dlab base d = false -> uart_ier base d' = 0).
Proof.
  intros Hb. unfold SerialPort_init, outb_at, add16. simpl port.
  rewrite !(proj2 (N.ltb_lt _ _)) by lia. cbn [obind]. rewrite N.add_0_r. eexists. split; [reflexivity|].
  set (d1 := outb (base + 1) 0 d). destruct (uart_port1 d 0) as ((Ht1 & _) & Hd1 & Hi1). fold d1 in Ht1, Hd1, Hi1.
  set (d2 := outb (base + 3) 0x80 d1). destruct (uart_lcr d1 0x80) as ((Ht2 & _) & Hd2 & _ & Hi2). fold d2 in Ht2, Hd2, Hi2.
  set (d3 := outb base 1 d2). destruct (uart_dll d2 1 Hd2) as ((Ht3 & _) & Hd3 & Hv3 & Hi3). fold d3 in Ht3, Hd3, Hv3, Hi3.
  set (d4 := outb (base + 1) 0 d3). destruct (uart_port1 d3 0) as ((Ht4 & _) & Hd4 & Hi4). fold d4 in Ht4, Hd4, Hi4.
  rewrite Hd3 in Hi4. destruct Hi4 as [Hv4 Hi4].
  set (d5 := outb (base + 3) 3 d4). destruct (uart_lcr d4 3) as ((Ht5 & _) & Hd5 & Hv5 & Hi5). fold d5 in Ht5, Hd5, Hv5, Hi5.
  set (d6 := outb (base + 2) 0xC7 d5). destruct (uart_fcr d5 0xC7) as (Hx6 & Ht6 & (Hd6 & Hv6 & Hi6)); [done|]. fold d6 in Hx6, Ht6, Hd6, Hv6, Hi6.
  destruct (uart_mcr d6 0x0B) as ((Ht7 & Hx7 & _) & (Hd7 & Hv7 & Hi7)).
  change (N.testbit 3 7) with false in Hd5. split_and!; [congruence| |congruence..|].
  - rewrite Hv7, Hv6, Hv5, Hv4, Hv3. done.
  - intros Hd. rewrite Hd in Hi1. destruct Hi1 as [Hi1 _]. congruence.
Qed.
End uart.

(** ** A chip *)

(** A 16550 with a bounded transmit buffer and no line: what is written beyond
    the buffer is dropped. *)
Record Chip : Type := mkChip {
  ch_rx : list N; ch_tx : list N; ch_lcr : N; ch_div : N * N; ch_ier : N; ch_room : N
}.

#[export] Instance Chip_PortDevice : PortDevice Chip := {
  inb p c :=
    if p =? 0x3FD then ((if bool_decide (ch_rx c = []) then 0x60 else 0x61), c)
    else if (p =? 0x3F8) && negb (N.testbit (ch_lcr c) 7)
    then (default 0 (head (ch_rx c)), mkChip (tail (ch_rx c)) (ch_tx c) (ch_lcr c) (ch_div c) (ch_ier c) (ch_room c))
    else (0, c);
  outb p v c :=
    let dlab := N.testbit (ch_lcr c) 7 in
    if p =? 0x3F8 then
      if dlab then mkChip (ch_rx c) (ch_tx c) (ch_lcr c) (v, snd (ch_div c)) (ch_ier c) (ch_room c)
      else if ch_room c =? 0 then c
      else mkChip (ch_rx c) (ch_tx c ++ [v]) (ch_lcr c) (ch_div c) (ch_ier c) (ch_room c - 1)
    else if p =? 0x3F9 then
      if dlab then mkChip (ch_rx c) (ch_tx c) (ch_lcr c) (fst (ch_div c), v) (ch_ier c) (ch_room c)
      else mkChip (ch_rx c) (ch_tx c) (ch_lcr c) (ch_div c) v (ch_room c)
    else if p =? 0x3FB then mkChip (ch_rx c) (ch_tx c) v (ch_div c) (ch_ier c) (ch_room c)
    else if p =? 0x3FA then
      mkChip (if N.testbit v 1 then [] else ch_rx c) (ch_tx c) (ch_lcr c) (ch_div c) (ch_ier c) (ch_room c)
    else c
}.

#[export] Instance Chip_Uart : Uart16550 Chip 0x3F8 := {
  uart_rx := ch_rx;
  uart_tx := ch_tx;
  uart_dlab c := N.testbit (ch_lcr c) 7;
  uart_divisor := ch_div;
  uart_ier := ch_ier;
  uart_room := ch_room
}.

#[export] Instance Chip_UartLaws : Uart16550Laws Chip.
Proof.
  split; unfold same_lines, same_control; simpl.
  - intros d lsr d' [= <- <-]. split; [|by repeat split]. by case_bool_decide.
  - intros d b l Hd Hx. rewrite Hd, Hx. eexists. split; [reflexivity|]. simpl. by rewrite Hd.
  - intros d b Hd. rewrite Hd. destruct (ch_room d =? 0) eqn:H0; bool_to_prop; simpl; rewrite Hd; split_and!; try done; intros; [lia|].
    split; [done|lia].
  - intros d b Hd. rewrite Hd. simpl. by rewrite Hd.
  - intros d b. destruct (N.testbit (ch_lcr d) 7) eqn:Hd; simpl; by rewrite Hd.
  - intros d b. by repeat split.
  - intros d b ->. by repeat split.
  - intros d b. by repeat split.
Qed.

(** ** Printing *)

(** A redirect whose buffer has its full length. *)
Definition redirect_ok (r : Redirect) : Prop :=
  lenN (rd_buf r) = rd_max_len r /\ rd_written r <= rd_max_len r /\ rd_max_len r < u64_limit.

Definition captured (r : Redirect) : list N := take (N.to_nat (rd_written r)) (rd_buf r).

Lemma write_str_spec s r :
  redirect_ok r ->
  exists r', RedirectWriter_write_str s r = Ret r' /\ redirect_ok r' /\ rd_max_len r' = rd_max_len r /\
    captured r' = take (N.to_nat (rd_max_len r)) (captured r ++ s).
Proof.
  intros (Hb & Hw & Hm). unfold RedirectWriter_write_str, captured. rewrite sub64_ok by done. cbn [obind].
  set (w := N.to_nat (rd_written r)). set (m := N.to_nat (rd_max_len r)).
  assert (length (take w (rd_buf r)) = w) as Hl by (rewrite length_take; unfold lenN in Hb; lia).
  assert (take m (take w (rd_buf r) ++ s) = take w (rd_buf r) ++ take (m - w) s) as ->.
  { rewrite take_app, Hl, (take_ge _ m) by lia. done. }
  destruct (0 <? _) eqn:H0; bool_to_prop.
  - set (c := N.min (lenN s) (rd_max_len r - rd_written r)) in *.
    assert (lenN (take (N.to_nat c) s) = c) as Hc by (unfold lenN in *; rewrite length_take; lia).
    rewrite copy_at_ok by lia. cbn [obind]. rewrite add64_ok by lia. cbn [obind]. eexists. split; [reflexivity|].
    unfold redirect_ok. cbn [rd_buf rd_max_len rd_written]. rewrite Hc. fold w. split_and!; [|lia..|done|].
    + rewrite !lenN_app, Hc. unfold lenN in *. rewrite Hl, length_drop. lia.
    + rewrite app_assoc. rewrite take_app_le by (rewrite length_app, Hl; unfold lenN in *; lia).
      rewrite take_ge by (rewrite length_app, Hl; unfold lenN in *; lia). f_equal.
      destruct (decide (lenN s <= rd_max_len r - rd_written r)); [|f_equal; lia]. rewrite !take_ge; [done|unfold lenN in *; lia..].
  - exists r. split_and!; [done..|]. fold w. destruct s as [|b s]; [by rewrite take_nil, app_nil_r|].
    rewrite lenN_cons in H0. replace (m - w)%nat with 0%nat by lia. by rewrite take_0, app_nil_r.
Qed.

Lemma redirect_args_spec args : forall r,
  redirect_ok r ->
  exists r', for_each args RedirectWriter_write_str r = Ret r' /\ redirect_ok r' /\ rd_max_len r' = rd_max_len r /\
    captured r' = take (N.to_nat (rd_max_len r)) (captured r ++ mjoin args).
Proof.
  induction args as [|s args IH]; intros r Hr; cbn [for_each mjoin list_join].
  - exists r. split_and!; [done..|]. rewrite app_nil_r, take_ge; [done|]. destruct Hr as (? & ? & ?).
    unfold captured. rewrite length_take. lia.
  - destruct (write_str_spec s r Hr) as (r1 & -> & Hr1 & Hm1 & Hc1). cbn [obind].
    destruct (IH r1 Hr1) as (r2 & -> & Hr2 & Hm2 & Hc2). exists r2. split_and!; [done..|congruence|].
    rewrite Hc2, Hc1, Hm1, app_assoc. rewrite take_app, take_take, Nat.min_id, (take_app _ (mjoin args)).
    f_equal. f_equal. rewrite length_take. lia.
Qed.

Lemma crlf_mjoin args : crlf (mjoin args) = mjoin (crlf <$> args).
Proof. induction args as [|s args IH]; [done|]. simpl. by rewrite crlf_app, IH. Qed.

Section print.
Context {D : Type} `{P : PortDevice D} `{U : !Uart16550 D 0x3F8} `{UL : !Uart16550Laws D}.

Lemma write_args_spec args : forall d : D,
  uart_dlab 0x3F8 d = false -> lenN (crlf (mjoin args)) <= uart_room 0x3F8 d ->
  transmits 0x3F8 (crlf (mjoin args)) d (foldl (fun d s => write_string SERIAL1 s d) d args).
Proof.
  induction args as [|s args IH]; intros d Hd Hr; [by apply transmits_nil|]. cbn [foldl mjoin list_join] in *.
  rewrite crlf_app in *.
  assert (transmits 0x3F8 (crlf s) d (write_string SERIAL1 s d)) as Hs.
  { apply write_string_spec; [done..|]. rewrite lenN_app in Hr. lia. }
  eapply transmits_trans; [done|]. apply IH; [by rewrite (transmits_dlab _ _ _ _ Hs)|by eapply transmits_room].
Qed.

(** Printing is exact.  [print!] always completes and restores the
    preemption state.  With no redirect it sends the formatted text, a carriage
    return before each newline, and touches neither the input nor the line
    settings, provided the transmitter has room for it (the driver does not wait
    for the transmitter).  With a redirect it sends nothing and appends the text
    to the buffer, cut at the buffer's limit. *)
Theorem print_exact (args : list (list N)) (c : Console D) :
  ps_preempt_count (co_preempt c) < u64_limit ->
  match co_redirect c with
  | None => uart_dlab 0x3F8 (co_device c) = false /\ lenN (crlf (mjoin args)) <= uart_room 0x3F8 (co_device c)
  | Some r => redirect_ok r
  end ->
  exists c', print_args args c = Ret c' /\ co_preempt c' = co_preempt c /\
    match co_redirect c, co_redirect c' with
    | None, None => transmits 0x3F8 (crlf (mjoin args)) (co_device c) (co_device c')
    | Some r, Some r' =>
        co_device c' = co_device c /\ redirect_ok r' /\ captured r' = take (N.to_nat (rd_max_len r)) (captured r ++ mjoin args)
    | _, _ => False
    end.
Proof.
  intros Hp Hc. unfold print_args. destruct (co_redirect c) as [r|].
  - destruct (redirect_args_spec args r Hc) as (r' & -> & Hr' & _ & Hcap). eexists. split; [reflexivity|].
    split; [by apply exit_enter_critical|]. done.
  - destruct Hc as [Hd Hr]. eexists. split; [reflexivity|]. split; [by apply exit_enter_critical|]. by apply write_args_spec.
Qed.
End print.

Definition example_console (redirect : option Redirect) : Console Chip :=
  mkConsole (mkChip [65] [] 3 (1, 0) 0 16) redirect PreemptState_init.

Lemma print_exact_witness :
  exists c', print_args [[72; 105]; [10]] (example_console None) = Ret c' /\
    co_preempt c' = PreemptState_init /\
    match co_redirect c' with
    | None => transmits 0x3F8 [72; 105; 13; 10] (co_device (example_console None)) (co_device c')
    | Some _ => False
    end.
Proof.
  destruct (print_exact [[72; 105]; [10]] (example_console None)) as (c' & ? & ? & ?).
  - done.
  - by split.
  - by exists c'.
Defined.

(** The driver writes without waiting for the transmitter: a byte written when
    it is full is lost. *)
Lemma send_unpolled : ch_tx (write_string SERIAL1 [72; 105] (mkChip [] [] 3 (1, 0) 0 1)) = [72].
Proof. reflexivity. Qed.
