(* ===== verification/Console.v ===== *)
(** * The console's line editor

    Models the command history and the line editors of the console:
    [History], [read_line_with_history] ([kernel/shell/mod.rs]), [read_byte] and
    [read_line] ([kernel/drivers/serial.rs]).  Input is the sequence of results
    of polling the serial port; at each [None] the task yields and polls again.
    Output is the bytes handed to [print!].  [line_editor_exact] relates the
    editor to a reference on lists and to what a terminal shows. *)

From S2P Require Import Prelude Ring Serial.
Local Open Scope N_scope.

(** ** History *)

Record History : Type := mkHistory { h_buffer : list (list N); h_lens : list N; h_head : N; h_count : N }.

Definition History_new : History := mkHistory (replicate 16 (replicate 128 0)) (replicate 16 0) 0 0.

(** The newest entry equals [cmd]. *)
Definition repeats_last (self : History) (cmd : list N) : outcome bool :=
  if 0 <? h_count self then
    let! a := add64 (h_head self) 15 in
    let last_idx := a mod 16 in
    let! last_len := arr_get (h_lens self) last_idx in
    if last_len =? lenN cmd then
      let! row := arr_get (h_buffer self) last_idx in
      let! last := slice row 0 last_len in
      Ret (bool_decide (last = cmd))
    else Ret false
  else Ret false.

Definition History_push (self : History) (cmd : list N) : outcome History :=
  if lenN cmd =? 0 then Ret self
  else
    let! dup := repeats_last self cmd in
    if dup then Ret self
    else
      let idx := h_head self in
      let to_copy := N.min (lenN cmd) 128 in
      let! row := arr_get (h_buffer self) idx in
      let! src := slice cmd 0 to_copy in
      let! row := copy_at row 0 src in
      let! buffer := arr_set (h_buffer self) idx row in
      let! lens := arr_set (h_lens self) idx to_copy in
      let! next := add64 idx 1 in
      let! count := if h_count self <? 16 then add64 (h_count self) 1 else Ret (h_count self) in
      Ret (mkHistory buffer lens (next mod 16) count).

Definition History_get (self : History) (steps_back : N) : outcome (option (list N)) :=
  if (steps_back =? 0) || (h_count self <? steps_back) then Ret None
  else
    let! a := add64 (h_head self) 16 in
    let! b := sub64 a steps_back in
    let idx := b mod 16 in
    let! len := arr_get (h_lens self) idx in
    let! row := arr_get (h_buffer self) idx in
    let! cmd := slice row 0 len in
    Ret (Some cmd).

(** ** Input *)

(** [read_byte]: poll, yielding after each poll that finds nothing.  [None] when
    the polls run out: the task is still waiting. *)
Fixpoint read_byte (polls : list (option N)) : option (N * list (option N)) :=
  match polls with
  | [] => None
  | Some val :: rest => Some (val, rest)
  | None :: rest => read_byte rest
  end.

(** ** The editor *)

(** The buffer and the local variables of [read_line_with_history], and what it
    has printed. *)
Record Editor : Type := mkEditor {
  ed_buf : list N;
  ed_n : N;
  ed_back : N;
  ed_draft : list N;
  ed_draft_len : N;
  ed_echo : list N
}.

Definition Editor_start (buf : list N) : Editor := mkEditor buf 0 0 (replicate 128 0) 0 [].

Definition echo (s : list N) (e : Editor) : Editor :=
  mkEditor (ed_buf e) (ed_n e) (ed_back e) (ed_draft e) (ed_draft_len e) (ed_echo e ++ s).
Definition set_text (buf : list N) (n : N) (e : Editor) : Editor :=
  mkEditor buf n (ed_back e) (ed_draft e) (ed_draft_len e) (ed_echo e).
Definition set_back (back : N) (e : Editor) : Editor :=
  mkEditor (ed_buf e) (ed_n e) back (ed_draft e) (ed_draft_len e) (ed_echo e).
Definition set_draft (draft : list N) (len : N) (e : Editor) : Editor :=
  mkEditor (ed_buf e) (ed_n e) (ed_back e) draft len (ed_echo e).

(** The bytes of a [u8] printed [as char]. *)
Definition char_bytes (c : N) : list N :=
  if c <? 128 then [c] else [N.lor 0xC0 (N.shiftr c 6); N.lor 0x80 (N.land c 0x3F)].

(** Back one column, blank it, back again. *)
Definition ERASE : list N := [8; 32; 8].

Definition erase_line (e : Editor) : Editor := echo (mjoin (replicate (N.to_nat (ed_n e)) ERASE)) e.

(** [buf[..cmd.len()].copy_from_slice(cmd); n = cmd.len()]. *)
Definition put_line (cmd : list N) (e : Editor) : outcome Editor :=
  let! buf := copy_at (ed_buf e) 0 cmd in Ret (set_text buf (lenN cmd) e).

(** [for &c in &buf[..n] { print!("{}", c as char) }]. *)
Definition show_line (e : Editor) : outcome Editor :=
  let! line := slice (ed_buf e) 0 (ed_n e) in Ret (echo (line ≫= char_bytes) e).

Definition key_erase (e : Editor) : outcome Editor :=
  if 0 <? ed_n e then
    let! n := sub64 (ed_n e) 1 in Ret (echo ERASE (set_text (ed_buf e) n e))
  else Ret e.

(** [n < buf.len()]: store the byte and show it. *)
Definition insert_char (b : N) (e : Editor) : outcome Editor :=
  if ed_n e <? lenN (ed_buf e) then
    let! buf := arr_set (ed_buf e) (ed_n e) b in
    let! n := add64 (ed_n e) 1 in
    Ret (set_back 0 (echo (char_bytes b) (set_text buf n e)))
  else Ret e.

Definition key_up (hist : History) (e : Editor) : outcome Editor :=
  if (0 <? h_count hist) && (ed_back e <? h_count hist) then
    let! e :=
      if ed_back e =? 0 then
        let! line := slice (ed_buf e) 0 (ed_n e) in
        let! draft := copy_at (ed_draft e) 0 line in
        Ret (set_draft draft (ed_n e) e)
      else Ret e in
    let! back := add64 (ed_back e) 1 in
    let e := erase_line (set_back back e) in
    let! o := History_get hist back in
    match o with
    | Some cmd => let! e := put_line cmd e in show_line e
    | None => Ret e
    end
  else Ret e.

Definition key_down (hist : History) (e : Editor) : outcome Editor :=
  if 0 <? ed_back e then
    let! back := sub64 (ed_back e) 1 in
    let e := erase_line (set_back back e) in
    let! e :=
      if back =? 0 then let! draft := slice (ed_draft e) 0 (ed_draft_len e) in put_line draft e
      else
        let! o := History_get hist back in
        match o with Some cmd => put_line cmd e | None => Ret e end in
    show_line e
  else Ret e.

Definition ESC : N := 0x1b.
Definition BRACKET : N := 91.
Definition is_end (b : N) : bool := (b =? LF) || (b =? CR).
Definition is_erase (b : N) : bool := (b =? 0x08) || (b =? 0x7F).
Definition is_printable (b : N) : bool := (0x20 <=? b) && (b <=? 0x7E).

(** The loop of [read_line_with_history].  [Ret None]: waiting for input. *)
Fixpoint edit_loop (fuel : nat) (hist : History) (e : Editor) (polls : list (option N))
  : outcome (option (Editor * list (option N))) :=
  match fuel with
  | O => OutOfFuel
  | S fuel' =>
      match read_byte polls with
      | None => Ret None
      | Some (b, polls) =>
          if is_end b then Ret (Some (echo [CR; LF] e, polls))
          else if is_erase b then let! e := key_erase e in edit_loop fuel' hist e polls
          else if b =? ESC then
            match read_byte polls with
            | None => Ret None
            | Some (next1, polls) =>
                if next1 =? BRACKET then
                  match read_byte polls with
                  | None => Ret None
                  | Some (next2, polls) =>
                      let! e :=
                        if next2 =? 65 then key_up hist e
                        else if next2 =? 66 then key_down hist e
                        else Ret e in
                      edit_loop fuel' hist e polls
                  end
                else edit_loop fuel' hist e polls
            end
          else if is_printable b then let! e := insert_char b e in edit_loop fuel' hist e polls
          else edit_loop fuel' hist e polls
      end
  end.

Definition read_line_with_history (fuel : nat) (hist : History) (buf : list N) (polls : list (option N)) :
  outcome (option (Editor * list (option N))) := edit_loop fuel hist (Editor_start buf) polls.

(** One iteration of [shell_main] up to [dispatch]: the line read, which is not
    remembered when it is empty.  The prompt is not modelled. *)
Definition shell_command (fuel : nat) (hist : History) (line_buf : list N) (polls : list (option N))
  : outcome (option (list N * History * Editor * list (option N))) :=
  let! o := read_line_with_history fuel hist line_buf polls in
  match o with
  | None => Ret None
  | Some (e, polls) =>
      if ed_n e =? 0 then Ret (Some ([], hist, e, polls))
      else
        let! line := slice (ed_buf e) 0 (ed_n e) in
        let! hist := History_push hist line in
        Ret (Some (line, hist, e, polls))
  end.

(** [serial::read_line], the editor without history; it has no [back] to reset
    in [insert_char]. *)
Fixpoint read_line (fuel : nat) (e : Editor) (polls : list (option N)) : outcome (option (Editor * list (option N))) :=
  match fuel with
  | O => OutOfFuel
  | S fuel' =>
      match read_byte polls with
      | None => Ret None
      | Some (b, polls) =>
          if is_end b then Ret (Some (echo [CR; LF] e, polls))
          else if is_erase b then let! e := key_erase e in read_line fuel' e polls
          else if is_printable b then let! e := insert_char b e in read_line fuel' e polls
          else read_line fuel' e polls
      end
  end.

(** ** The history as a list *)

Definition history_slot (self : History) (s : N) : N := (h_head self + 16 - s) mod 16.
Definition history_entry (self : History) (s : N) : list N :=
  take (N.to_nat (default 0 (idx (h_lens self) (history_slot self s))))
       (default [] (idx (h_buffer self) (history_slot self s))).

(** The stored commands, newest first. *)
Definition history_list (self : History) : list (list N) := history_entry self <$> rangeN 1 (N.to_nat (h_count self)).

Record history_ok (self : History) : Prop := {
  ho_buffer : lenN (h_buffer self) = 16;
  ho_lens : lenN (h_lens self) = 16;
  ho_rows i row : idx (h_buffer self) i = Some row -> lenN row = 128;
  ho_len i len : idx (h_lens self) i = Some len -> len <= 128;
  ho_head : h_head self < 16;
  ho_count : h_count self <= 16
}.

Lemma History_new_ok : history_ok History_new.
Proof.
  split; try done.
  - intros i row H. rewrite idx_lookup in H. by apply lookup_replicate in H as [-> _].
  - intros i len H. rewrite idx_lookup in H. by apply lookup_replicate in H as [-> _].
Qed.

Lemma history_list_lookup self k :
  history_list self !! k = if decide (N.of_nat k < h_count self) then Some (history_entry self (N.of_nat k + 1)) else None.
Proof.
  unfold history_list, rangeN. rewrite !list_lookup_fmap. case_decide.
  - rewrite lookup_seq_lt by lia. simpl. f_equal. f_equal. lia.
  - by rewrite lookup_seq_ge by lia.
Qed.

Lemma history_list_length self : length (history_list self) = N.to_nat (h_count self).
Proof. unfold history_list, rangeN. by rewrite !length_fmap, length_seq. Qed.

(** The slot of an entry is inside both arrays. *)
Lemma history_at self s :
  history_ok self ->
  exists len row, arr_get (h_lens self) (history_slot self s) = Ret len /\ arr_get (h_buffer self) (history_slot self s) = Ret row /\
    len <= 128 /\ lenN row = 128 /\ history_entry self s = take (N.to_nat len) row.
Proof.
  intros [Hb Hl Hr Hn _ _]. pose proof (N.mod_lt (h_head self + 16 - s) 16 ltac:(done)) as Hs. fold (history_slot self s) in Hs.
  destruct (arr_get_ok (h_lens self) (history_slot self s)) as (len & Hlen & Hgl); [by rewrite Hl|].
  destruct (arr_get_ok (h_buffer self) (history_slot self s)) as (row & Hrow & Hgr); [by rewrite Hb|].
  exists len, row. split_and!; [done..|by eapply Hn|by eapply Hr|]. unfold history_entry. by rewrite Hlen, Hrow.
Qed.

Lemma history_entry_len self s : history_ok self -> lenN (history_entry self s) <= 128.
Proof.
  intros Hs. destruct (history_at self s Hs) as (len & row & _ & _ & ? & ? & ->). unfold lenN in *. rewrite length_take. lia.
Qed.

Lemma slice_prefix {A} (l : list A) n : n <= lenN l -> slice l 0 n = Ret (take (N.to_nat n) l).
Proof. intros. rewrite slice_ok by lia. by rewrite N.sub_0_r, drop_0. Qed.

Lemma History_get_spec self s :
  history_ok self -> History_get self s = Ret (if s =? 0 then None else history_list self !! (N.to_nat s - 1)%nat).
Proof.
  intros Hs. unfold History_get. rewrite history_list_lookup. pose proof (ho_head _ Hs). pose proof (ho_count _ Hs).
  destruct (s =? 0) eqn:Hz; bool_to_prop; [done|]. cbn [orb].
  destruct (h_count self <? s) eqn:Hc; bool_to_prop; [by rewrite decide_False by lia|].
  rewrite decide_True by lia. assert (64 < u64_limit) by done.
  destruct (history_at self s Hs) as (len & row & Hl & Hr & ? & ? & He). unfold history_slot in Hl, Hr. rewrite add64_ok by lia.
  cbn [obind]. rewrite sub64_ok by lia. cbn [obind]. rewrite Hl, Hr. cbn [obind].
  rewrite slice_prefix by lia. cbn [obind]. rewrite <- He. do 2 f_equal. f_equal. lia.
Qed.

Lemma repeats_last_spec self cmd :
  history_ok self -> repeats_last self cmd = Ret (bool_decide (head (history_list self) = Some cmd)).
Proof.
  intros Hs. unfold repeats_last. rewrite head_lookup, history_list_lookup. pose proof (ho_head _ Hs).
  destruct (0 <? h_count self) eqn:Hc; bool_to_prop; [|by rewrite decide_False by lia].
  rewrite decide_True by lia. assert (64 < u64_limit) by done. rewrite add64_ok by lia. cbn [obind].
  destruct (history_at self 1 Hs) as (len & row & Hl & Hr & ? & Hrow & He).
  unfold history_slot in Hl, Hr. replace (h_head self + 16 - 1) with (h_head self + 15) in * by lia. rewrite Hl. cbn [obind].
  change (N.of_nat 0 + 1) with 1. rewrite He.
  assert (lenN (take (N.to_nat len) row) = len) as Ht by (unfold lenN in *; rewrite length_take; lia).
  destruct (len =? lenN cmd) eqn:Hlen; bool_to_prop.
  - rewrite Hr. cbn [obind]. rewrite slice_prefix by lia. cbn [obind]. f_equal. apply bool_decide_ext. split; congruence.
  - rewrite bool_decide_false; [done|]. intros [= <-]. done.
Qed.

(** A command is remembered in front, cut at 128 bytes, with 16 kept; an empty
    command or a repetition of the newest one is not. *)
Definition remembered (l : list (list N)) (cmd : list N) : list (list N) :=
  if bool_decide (cmd = [] \/ head l = Some cmd) then l else take 16 (take 128 cmd :: l).

Lemma history_slot_next self self' k :
  h_head self < 16 -> h_head self' = (h_head self + 1) mod 16 -> k < 16 ->
  history_slot self' (k + 1) = if decide (k = 0) then h_head self else history_slot self k.
Proof.
  intros Hh Hn Hk. unfold history_slot. rewrite Hn. set (h := h_head self) in *.
  assert ((h + 1) mod 16 + 16 - (k + 1) = (h + 1) mod 16 + (15 - k)) as -> by lia.
  rewrite N.Div0.add_mod_idemp_l. case_decide.
  - subst. replace (h + 1 + (15 - 0)) with (h + 1 * 16) by lia. rewrite N.Div0.mod_add. by apply N.mod_small.
  - f_equal. lia.
Qed.

Lemma history_slot_ne self k : h_head self < 16 -> 0 < k < 16 -> history_slot self k <> h_head self.
Proof.
  intros Hh Hk Heq. unfold history_slot in Heq. set (h := h_head self) in *.
  destruct (decide (k <= h)).
  - replace (h + 16 - k) with (h - k + 1 * 16) in Heq by lia. rewrite N.Div0.mod_add, N.mod_small in Heq by lia. lia.
  - rewrite N.mod_small in Heq by lia. lia.
Qed.

Lemma History_push_spec self cmd :
  history_ok self ->
  exists self', History_push self cmd = Ret self' /\ history_ok self' /\
    history_list self' = remembered (history_list self) cmd.
Proof.
  intros Hs. unfold History_push, remembered. destruct (lenN cmd =? 0) eqn:Hz; bool_to_prop.
  { assert (cmd = []) as -> by (destruct cmd; [done|rewrite lenN_cons in Hz; lia]).
    rewrite bool_decide_true by auto. by exists self. }
  rewrite repeats_last_spec by done. cbn [obind]. case_bool_decide as Hd; [rewrite bool_decide_true by auto; by exists self|].
  rewrite bool_decide_false by (intros [->|?]; [by apply Hz|done]).
  pose proof Hs as [Hb Hl Hr Hn Hh Hc]. assert (64 < u64_limit) by done. set (len := N.min (lenN cmd) 128).
  destruct (arr_get_ok (h_buffer self) (h_head self)) as (row & Hrow & ->); [by rewrite Hb|]. cbn [obind].
  rewrite slice_prefix by lia. cbn [obind]. set (src := take (N.to_nat len) cmd).
  assert (lenN src = len) as Hsrc by (unfold src, lenN in *; rewrite length_take; lia).
  pose proof (Hr _ _ Hrow) as Hlr. rewrite copy_at_ok by lia. cbn [obind]. change (N.to_nat 0) with 0%nat. rewrite take_0, N.add_0_l, app_nil_l.
  set (row' := src ++ _). assert (lenN row' = 128) as Hrow' by (unfold row', lenN in *; rewrite length_app, length_drop; lia).
  rewrite !arr_set_ok by (by rewrite ?Hb, ?Hl). cbn [obind]. rewrite add64_ok by lia. cbn [obind].
  assert ((if h_count self <? 16 then add64 (h_count self) 1 else Ret (h_count self)) = Ret (N.min (h_count self + 1) 16)) as ->.
  { destruct (h_count self <? 16) eqn:H16; bool_to_prop; [rewrite add64_ok by lia|]; f_equal; lia. }
  cbn [obind]. eexists. split; [reflexivity|]. split.
  - split; cbn [h_buffer h_lens h_head h_count]; rewrite ?lenN_upd; [done..| | | |lia].
    + intros i r. rewrite idx_upd. case_decide; [congruence|apply Hr].
    + intros i n. rewrite idx_upd. case_decide; [intros; simplify_eq; lia|apply Hn].
    + by apply N.mod_lt.
  - set (self' := mkHistory _ _ _ _). apply list_eq. intros k. rewrite history_list_lookup. cbn [h_count self'].
    destruct (decide (k < 16)%nat) as [Hk|Hk].
    2: { rewrite decide_False by lia. symmetry. apply lookup_ge_None. rewrite length_take. lia. }
    rewrite lookup_take_lt by done. unfold history_entry. rewrite (history_slot_next self self') by (done || lia).
    unfold self'. cbn [h_buffer h_lens]. destruct k as [|k].
    + rewrite decide_True, decide_True by lia. rewrite !idx_upd_eq by (by rewrite ?Hb, ?Hl). simpl. f_equal.
      unfold row'. rewrite take_app_le by (unfold lenN in *; lia). rewrite take_ge by (unfold lenN in *; lia). unfold src, len.
      destruct (decide (lenN cmd <= 128)); [rewrite !take_ge by (unfold lenN in *; lia)|f_equal; lia]. done.
    + rewrite lookup_cons_ne_0, Nat.pred_succ by done. rewrite (history_list_lookup self k).
      rewrite (decide_False (P := N.of_nat (S k) = 0)) by lia. rewrite !idx_upd_ne by (symmetry; apply history_slot_ne; lia).
      replace (N.of_nat (S k)) with (N.of_nat k + 1) by lia. unfold history_entry. repeat case_decide; (done || lia).
Qed.

(** ** A terminal *)

(** One line of a terminal: what is left of the cursor and what is from it on.
    A backspace moves the cursor, a character overwrites. *)
Record Terminal : Type := mkTerminal { tm_left : list N; tm_right : list N }.

Definition term_byte (tm : Terminal) (b : N) : Terminal :=
  if b =? 8 then
    match last (tm_left tm) with
    | Some c => mkTerminal (take (length (tm_left tm) - 1) (tm_left tm)) (c :: tm_right tm)
    | None => tm
    end
  else mkTerminal (tm_left tm ++ [b]) (tail (tm_right tm)).

(** After the output [s] the line shows [text] up to the cursor and blanks
    beyond. *)
Definition shows (s text : list N) : Prop :=
  exists pad, foldl term_byte (mkTerminal [] []) s = mkTerminal text (replicate pad 32).

Definition printable (l : list N) : Prop := Forall (fun b => is_printable b = true) l.

Lemma shows_char s t c : is_printable c = true -> shows s t -> shows (s ++ char_bytes c) (t ++ [c]).
Proof.
  unfold is_printable, shows. intros Hc (pad & Hs). bool_to_prop. unfold char_bytes.
  rewrite (proj2 (N.ltb_lt _ _)) by lia. exists (pad - 1)%nat. rewrite foldl_app, Hs. cbn [foldl]. unfold term_byte.
  rewrite (proj2 (N.eqb_neq _ _)) by lia. f_equal. simpl. destruct pad; simpl; [done|]. by rewrite Nat.sub_0_r.
Qed.

Lemma shows_line line : forall s t, printable line -> shows s t -> shows (s ++ (line ≫= char_bytes)) (t ++ line).
Proof.
  induction line as [|c line IH]; intros s t Hp Hs; [by rewrite !app_nil_r|].
  apply Forall_cons in Hp as [Hc Hp]. cbn [mbind list_bind]. rewrite app_assoc.
  replace (t ++ c :: line) with ((t ++ [c]) ++ line) by by rewrite <- app_assoc.
  by apply IH, shows_char.
Qed.

Lemma shows_erase s t c : shows s (t ++ [c]) -> shows (s ++ ERASE) t.
Proof.
  intros (pad & Hs). exists (S pad). rewrite foldl_app, Hs. unfold ERASE. cbn [foldl]. unfold term_byte at 3.
  cbn [N.eqb Pos.eqb tm_left]. rewrite last_snoc, length_app, Nat.add_sub, take_app_length.
  unfold term_byte at 2. cbn [N.eqb Pos.eqb tm_left tm_right tail]. unfold term_byte. cbn [N.eqb Pos.eqb tm_left tm_right].
  by rewrite last_snoc, length_app, Nat.add_sub, take_app_length.
Qed.

Lemma shows_erase_all t : forall s, shows s t -> shows (s ++ mjoin (replicate (length t) ERASE)) [].
Proof.
  induction t as [|c t IH] using rev_ind; intros s Hs; [by rewrite app_nil_r|].
  rewrite length_app, Nat.add_1_r. cbn [replicate mjoin list_join]. rewrite app_assoc. by apply IH, (shows_erase _ _ c).
Qed.

(** ** The editor on lists *)

(** The bytes typed. *)
Definition typed (polls : list (option N)) : list N := omap id polls.

(** The line being edited, how far back in the history it was taken from, and
    the line that was being typed before the history was visited. *)
Record Line : Type := mkLine { ln_text : list N; ln_back : nat; ln_draft : list N }.

Definition line_erase (l : Line) : Line := mkLine (take (length (ln_text l) - 1) (ln_text l)) (ln_back l) (ln_draft l).
Definition line_insert (b : N) (l : Line) : Line :=
  if bool_decide (length (ln_text l) < 128)%nat then mkLine (ln_text l ++ [b]) 0 (ln_draft l) else l.
Definition line_up (hist : list (list N)) (l : Line) : Line :=
  match hist !! ln_back l with
  | Some cmd => mkLine cmd (S (ln_back l)) (if bool_decide (ln_back l = 0%nat) then ln_text l else ln_draft l)
  | None => l
  end.
Definition line_down (hist : list (list N)) (l : Line) : Line :=
  match ln_back l with
  | O => l
  | S O => mkLine (ln_draft l) 0 (ln_draft l)
  | S (S back) => mkLine (default [] (hist !! back)) (S back) (ln_draft l)
  end.

(** The line entered by the bytes typed, up to the newline, and the bytes left;
    [None] while there is no newline. *)
Fixpoint edited (hist : list (list N)) (l : Line) (bytes : list N) : option (list N * list N) :=
  match bytes with
  | [] => None
  | b :: bytes =>
      if is_end b then Some (ln_text l, bytes)
      else if is_erase b then edited hist (line_erase l) bytes
      else if b =? ESC then
        match bytes with
        | [] => None
        | next1 :: bytes =>
            if next1 =? BRACKET then
              match bytes with
              | [] => None
              | next2 :: bytes =>
                  edited hist (if next2 =? 65 then line_up hist l else if next2 =? 66 then line_down hist l else l) bytes
              end
            else edited hist l bytes
        end
      else if is_printable b then edited hist (line_insert b l) bytes
      else edited hist l bytes
  end.

(** ** Refinement *)

Lemma read_byte_spec polls :
  match read_byte polls with
  | None => typed polls = []
  | Some (b, rest) => typed polls = b :: typed rest /\ (length rest < length polls)%nat
  end.
Proof.
  induction polls as [|[b|] polls IH]; [done|by split; simpl; [|lia]|]. simpl.
  destruct (read_byte polls) as [[b rest]|]; [|done]. destruct IH. split; [done|lia].
Qed.

(** The state of the editor represents the line, and the terminal shows it. *)
Record edits (hist : list (list N)) (e : Editor) (l : Line) : Prop := {
  es_buf : lenN (ed_buf e) = 128;
  es_n : ed_n e = lenN (ln_text l);
  es_text : take (length (ln_text l)) (ed_buf e) = ln_text l;
  es_back : ed_back e = N.of_nat (ln_back l);
  es_hist : (ln_back l <= length hist)%nat;
  es_draft_buf : lenN (ed_draft e) = 128;
  es_draft_len : ed_draft_len e = lenN (ln_draft l);
  es_draft : take (length (ln_draft l)) (ed_draft e) = ln_draft l;
  es_printable : printable (ln_text l);
  es_draft_printable : printable (ln_draft l);
  es_shows : shows (ed_echo e) (ln_text l)
}.

Lemma edits_start hist buf : lenN buf = 128 -> edits hist (Editor_start buf) (mkLine [] 0 []).
Proof. intros Hb. split; simpl; try done; try lia; try constructor. by exists 0%nat. Qed.

Lemma prefix_bound {A} (pre l : list A) : take (length pre) l = pre -> lenN pre <= lenN l.
Proof. intros Hp. unfold lenN. rewrite <- Hp, length_take. lia. Qed.

Lemma edits_fits hist e l : edits hist e l -> lenN (ln_text l) <= 128 /\ lenN (ln_draft l) <= 128.
Proof.
  intros []. split; [rewrite <- es_buf0|rewrite <- es_draft_buf0]; by apply prefix_bound.
Qed.

Lemma slice_text {A} (l pre : list A) : take (length pre) l = pre -> slice l 0 (lenN pre) = Ret pre.
Proof. intros Hp. rewrite slice_prefix by by apply prefix_bound. unfold lenN. by rewrite Nat2N.id, Hp. Qed.

(** The line is erased on the screen and replaced by [text]. *)
Lemma replace_line_spec text t e :
  lenN (ed_buf e) = 128 -> ed_n e = lenN t -> shows (ed_echo e) t -> printable text -> lenN text <= 128 ->
  exists buf s, (let! e' := put_line text (erase_line e) in show_line e') =
      Ret (mkEditor buf (lenN text) (ed_back e) (ed_draft e) (ed_draft_len e) s) /\
    lenN buf = 128 /\ take (length text) buf = text /\ shows s text.
Proof.
  intros Hb Hn Hs Hp Hl. unfold put_line, erase_line. cbn [ed_buf echo]. rewrite copy_at_ok by lia. cbn [obind].
  change (N.to_nat 0) with 0%nat. rewrite take_0, N.add_0_l, app_nil_l. set (buf := text ++ _).
  assert (take (length text) buf = text) as Ht by apply take_app_length.
  unfold show_line, set_text. cbn [ed_buf ed_n echo]. rewrite slice_text by done. cbn [obind]. eexists buf, _. split; [reflexivity|].
  split_and!; [|done|].
  - unfold buf, lenN in *. rewrite length_app, length_drop. lia.
  - rewrite Hn. unfold lenN. rewrite Nat2N.id. apply (shows_line text _ []); [done|]. by apply shows_erase_all.
Qed.

Section keys.
Context (hist : History) (Hhist : history_ok hist) (Hprint : Forall printable (history_list hist)).
Let H := history_list hist.

Lemma history_line k cmd : H !! k = Some cmd -> printable cmd /\ lenN cmd <= 128.
Proof.
  intros Hk. split; [by eapply Forall_lookup_1|]. unfold H in Hk. rewrite history_list_lookup in Hk.
  case_decide; [|done]. injection Hk as <-. by apply history_entry_len.
Qed.

Lemma key_erase_spec e l : edits H e l -> exists e', key_erase e = Ret e' /\ edits H e' (line_erase l).
Proof.
  intros He. pose proof He as [Hb Hn Ht]. unfold key_erase, line_erase. rewrite Hn. destruct l as [t back draft]. simpl in *.
  destruct t as [|c t _] using rev_ind; [by exists e|]. rewrite lenN_app. change (lenN [c]) with 1.
  rewrite (proj2 (N.ltb_lt _ _)) by lia. rewrite sub64_ok by lia. cbn [obind]. eexists. split; [reflexivity|].
  rewrite length_app in *. simpl length in *. rewrite Nat.add_sub, take_app_length.
  split; simpl; try done.
  - lia.
  - apply (f_equal (take (length t))) in Ht. rewrite take_take, take_app_length, Nat.min_l in Ht by lia. done.
  - by apply Forall_app in es_printable0 as [? _].
  - by eapply shows_erase.
Qed.

Lemma insert_char_spec b e l : is_printable b = true -> edits H e l -> exists e', insert_char b e = Ret e' /\ edits H e' (line_insert b l).
Proof.
  intros Hpb He. pose proof He as [Hb Hn Ht]. pose proof (edits_fits _ _ _ He) as [Hl _]. unfold insert_char, line_insert. rewrite Hn, Hb.
  destruct (lenN (ln_text l) <? 128) eqn:Hlt; bool_to_prop.
  2: { rewrite bool_decide_false by (unfold lenN in *; lia). by exists e. }
  rewrite bool_decide_true by (unfold lenN in *; lia). assert (256 < u64_limit) by done.
  rewrite arr_set_ok by lia. cbn [obind]. rewrite add64_ok by lia. cbn [obind]. eexists. split; [reflexivity|].
  split; simpl; try done.
  - by rewrite lenN_upd.
  - by rewrite lenN_app.
  - unfold upd. rewrite (proj2 (N.ltb_lt _ _)) by lia. rewrite length_app. simpl. rewrite Nat.add_1_r.
    unfold lenN in *. rewrite Nat2N.id. rewrite (take_S_r _ _ b); [|by apply list_lookup_insert_eq; lia].
    by rewrite take_insert_ge, Ht by lia.
  - lia.
  - apply Forall_app. by repeat constructor.
  - by apply shows_char.
Qed.

Lemma key_up_spec e l : edits H e l -> exists e', key_up hist e = Ret e' /\ edits H e' (line_up H l).
Proof.
  intros He. pose proof He as [Hb Hn Ht Hk Hh Hdb Hdl Hd Hp Hdp Hs]. pose proof (edits_fits _ _ _ He) as [Hl1 Hl2].
  unfold key_up, line_up. rewrite Hk. unfold H. rewrite history_list_lookup.
  pose proof (ho_count _ Hhist). destruct ((0 <? h_count hist) && (N.of_nat (ln_back l) <? h_count hist)) eqn:Hc.
  2: { rewrite decide_False by (intros ?; apply andb_false_iff in Hc as [?|?]; bool_to_prop; lia). by exists e. }
  bool_to_prop. rewrite decide_True by done. set (cmd := history_entry hist (N.of_nat (ln_back l) + 1)).
  assert (H !! ln_back l = Some cmd) as Hcmd by (unfold H; by rewrite history_list_lookup, decide_True).
  destruct (history_line _ _ Hcmd) as [Hcp Hcl]. assert (64 < u64_limit) by done.
  set (draft' := if bool_decide (ln_back l = 0%nat) then ln_text l else ln_draft l).
  assert (exists dbuf, (if N.of_nat (ln_back l) =? 0 then
        let! line := slice (ed_buf e) 0 (ed_n e) in
        let! draft := copy_at (ed_draft e) 0 line in Ret (set_draft draft (ed_n e) e) else Ret e) = Ret (set_draft dbuf (lenN draft') e) /\
      lenN dbuf = 128 /\ take (length draft') dbuf = draft' /\ printable draft' /\ lenN draft' <= 128) as (dbuf & -> & Hdb' & Hd' & Hdp' & Hdl').
  { unfold draft'. destruct (ln_back l) as [|back]; simpl.
    - rewrite Hn, slice_text by done. cbn [obind]. rewrite copy_at_ok by lia. cbn [obind]. eexists. split; [reflexivity|].
      change (N.to_nat 0) with 0%nat. rewrite take_0, N.add_0_l, app_nil_l. split_and!; [|apply take_app_length|done..].
      unfold lenN in *. rewrite length_app, length_drop. lia.
    - exists (ed_draft e). split_and!; [|done..]. rewrite <- Hdl. by destruct e. }
  cbn [obind]. rewrite add64_ok by (simpl; lia). cbn [obind]. change (ed_back (set_draft dbuf (lenN draft') e)) with (ed_back e).
  rewrite Hk, (History_get_spec _ _ Hhist). rewrite (proj2 (N.eqb_neq _ _)) by lia.
  replace (N.to_nat (N.of_nat (ln_back l) + 1) - 1)%nat with (ln_back l) by lia. fold H. rewrite Hcmd. cbn [obind].
  destruct (replace_line_spec cmd (ln_text l) (set_back (N.of_nat (ln_back l) + 1) (set_draft dbuf (lenN draft') e)))
    as (buf & s & -> & Hb2 & Ht2 & Hs2); [done..|].
  eexists. split; [reflexivity|]. split; simpl; try done; [lia|]. apply lookup_lt_Some in Hcmd. lia.
Qed.

Lemma key_down_spec e l : edits H e l -> exists e', key_down hist e = Ret e' /\ edits H e' (line_down H l).
Proof.
  intros He. pose proof He as [Hb Hn Ht Hk Hh Hdb Hdl Hd Hp Hdp Hs]. pose proof (edits_fits _ _ _ He) as [Hl1 Hl2].
  unfold key_down, line_down. rewrite Hk. destruct (ln_back l) as [|back] eqn:Hbk; [by exists e|].
  rewrite (proj2 (N.ltb_lt _ _)) by lia. rewrite sub64_ok by lia. cbn [obind].
  replace (N.of_nat (S back) - 1) with (N.of_nat back) by lia.
  destruct back as [|back].
  - change (N.of_nat 0 =? 0) with true. cbv iota. change (ed_draft (erase_line _)) with (ed_draft e).
    change (ed_draft_len (erase_line _)) with (ed_draft_len e). rewrite Hdl, slice_text by done. cbn [obind].
    destruct (replace_line_spec (ln_draft l) (ln_text l) (set_back (N.of_nat 0) e)) as (buf & s & -> & Hb2 & Ht2 & Hs2); [done..|].
    eexists. split; [reflexivity|]. split; simpl; (done || lia).
  - rewrite (proj2 (N.eqb_neq _ _)) by lia. rewrite (History_get_spec _ _ Hhist), (proj2 (N.eqb_neq _ _)) by lia.
    replace (N.to_nat (N.of_nat (S back)) - 1)%nat with back by lia. fold H.
    destruct (lookup_lt_is_Some_2 H back) as [cmd Hcmd]; [lia|]. rewrite Hcmd. cbn [obind default from_option id].
    destruct (history_line _ _ Hcmd) as [Hcp Hcl].
    destruct (replace_line_spec cmd (ln_text l) (set_back (N.of_nat (S back)) e)) as (buf & s & -> & Hb2 & Ht2 & Hs2); [done..|].
    eexists. split; [reflexivity|]. split; simpl; (done || lia).
Qed.
End keys.

(** ** The editor is exact *)

(** The relation between a run of the editor and the reference. *)
Definition edit_result (o : option (list N * list N)) (r : option (Editor * list (option N))) : Prop :=
  match o, r with
  | None, None => True
  | Some (text, rest), Some (e, polls) =>
      lenN (ed_buf e) = 128 /\ ed_n e = lenN text /\ take (length text) (ed_buf e) = text /\ printable text /\
      typed polls = rest /\ exists shown, ed_echo e = shown ++ [CR; LF] /\ shows shown text
  | _, _ => False
  end.

Lemma edits_done hist e l polls : edits hist e l -> edit_result (Some (ln_text l, typed polls)) (Some (echo [CR; LF] e, polls)).
Proof. intros []. simpl. split_and!; try done. by eexists. Qed.

Lemma edit_loop_spec hist fuel : history_ok hist -> Forall printable (history_list hist) -> forall polls e l,
  (length polls < fuel)%nat -> edits (history_list hist) e l ->
  exists r, edit_loop fuel hist e polls = Ret r /\ edit_result (edited (history_list hist) l (typed polls)) r.
Proof.
  intros Hh Hp. induction fuel as [|fuel IH]; intros polls e l Hf He; [lia|]. cbn [edit_loop].
  pose proof (read_byte_spec polls) as Hr. destruct (read_byte polls) as [[b p1]|]; [|rewrite Hr; by eexists].
  destruct Hr as [-> Hl1]. cbn [edited]. destruct (is_end b); [eexists; split; [reflexivity|]; by eapply edits_done|].
  destruct (is_erase b).
  { destruct (key_erase_spec hist e l He) as (e' & -> & He'). cbn [obind]. apply IH; [lia|done]. }
  destruct (b =? ESC).
  - pose proof (read_byte_spec p1) as Hr. destruct (read_byte p1) as [[b1 p2]|]; [|rewrite Hr; by eexists]. destruct Hr as [-> Hl2].
    destruct (b1 =? BRACKET); [|apply IH; [lia|done]].
    pose proof (read_byte_spec p2) as Hr. destruct (read_byte p2) as [[b2 p3]|]; [|rewrite Hr; by eexists]. destruct Hr as [-> Hl3].
    destruct (b2 =? 65); [|destruct (b2 =? 66)].
    + destruct (key_up_spec hist Hh Hp e l He) as (e' & -> & He'). cbn [obind]. apply IH; [lia|done].
    + destruct (key_down_spec hist Hh Hp e l He) as (e' & -> & He'). cbn [obind]. apply IH; [lia|done].
    + cbn [obind]. apply IH; [lia|done].
  - destruct (is_printable b) eqn:Hb; [|apply IH; [lia|done]].
    destruct (insert_char_spec hist b e l Hb He) as (e' & -> & He'). cbn [obind]. apply IH; [lia|done].
Qed.

(** A line of the editor without history: escape sequences are ordinary bytes. *)
Fixpoint edited_plain (l : Line) (bytes : list N) : option (list N * list N) :=
  match bytes with
  | [] => None
  | b :: bytes =>
      if is_end b then Some (ln_text l, bytes)
      else if is_erase b then edited_plain (line_erase l) bytes
      else if is_printable b then edited_plain (line_insert b l) bytes
      else edited_plain l bytes
  end.

Lemma read_line_spec fuel : forall polls e l,
  (length polls < fuel)%nat -> edits [] e l ->
  exists r, read_line fuel e polls = Ret r /\ edit_result (edited_plain l (typed polls)) r.
Proof.
  induction fuel as [|fuel IH]; intros polls e l Hf He; [lia|]. cbn [read_line].
  pose proof (read_byte_spec polls) as Hr. destruct (read_byte polls) as [[b p1]|]; [|rewrite Hr; by eexists].
  destruct Hr as [-> Hl1]. cbn [edited_plain]. destruct (is_end b); [eexists; split; [reflexivity|]; by eapply edits_done|].
  destruct (is_erase b).
  { destruct (key_erase_spec History_new e l He) as (e' & -> & He'). cbn [obind]. apply IH; [lia|done]. }
  destruct (is_printable b) eqn:Hb; [|apply IH; [lia|done]].
  destruct (insert_char_spec History_new b e l Hb He) as (e' & -> & He'). cbn [obind]. apply IH; [lia|done].
Qed.

Lemma remembered_printable l cmd : Forall printable l -> printable cmd -> Forall printable (remembered l cmd).
Proof.
  intros Hl Hc. unfold remembered. case_bool_decide; [done|]. apply Forall_take. constructor; [|done]. by apply Forall_take.
Qed.

(** C38: The console reads commands faithfully.  On any input, in any
    interleaving with the polls that find nothing, reading a command completes
    as soon as a newline has been typed (and waits until then).  The line read
    is the one given by the list-level editor: typed characters appended up to
    128, erasures removed, the arrow keys replacing the line by the history's
    entries and restoring the draft.  At the newline the terminal shows exactly
    that line, the input after the newline is left, and the history remembers
    the line as its newest entry. *)
Theorem line_editor_exact hist buf polls :
  history_ok hist -> Forall printable (history_list hist) -> lenN buf = 128 ->
  exists r, shell_command (S (length polls)) hist buf polls = Ret r /\
    match edited (history_list hist) (mkLine [] 0 []) (typed polls), r with
    | None, None => True
    | Some (text, rest), Some (line, hist', e, polls') =>
        line = text /\ typed polls' = rest /\ (exists shown, ed_echo e = shown ++ [CR; LF] /\ shows shown text) /\
        history_ok hist' /\ Forall printable (history_list hist') /\
        history_list hist' = remembered (history_list hist) text
    | _, _ => False
    end.
Proof.
  intros Hh Hp Hb. unfold shell_command, read_line_with_history.
  destruct (edit_loop_spec hist (S (length polls)) Hh Hp polls (Editor_start buf) (mkLine [] 0 [])) as (r & -> & Hr);
    [lia|by apply edits_start|]. cbn [obind].
  destruct (edited _ _ _) as [[text rest]|], r as [[e polls']|]; try done; [|by eexists].
  destruct Hr as (Hbuf & Hn & Ht & Hpt & Hrest & Hshow). rewrite Hn.
  destruct (lenN text =? 0) eqn:Hz; bool_to_prop.
  - assert (text = []) as -> by (destruct text; [done|rewrite lenN_cons in Hz; lia]). eexists. split; [reflexivity|].
    split_and!; try done.
  - rewrite slice_text by done. cbn [obind]. destruct (History_push_spec hist text Hh) as (hist' & -> & Hh' & Hl).
    cbn [obind]. eexists. split; [reflexivity|]. split_and!; try done. rewrite Hl. by apply remembered_printable.
Qed.

(** "ls", erased once, an arrow up into a history of "help", and a newline. *)
Definition example_history : History :=
  mkHistory (<[0%nat := [104; 101; 108; 112] ++ replicate 124 0]> (replicate 16 (replicate 128 0)))
    (<[0%nat := 4]> (replicate 16 0)) 1 1.
Definition example_polls : list (option N) := [Some 108; None; Some 115; Some 127; Some ESC; Some BRACKET; None; Some 65; Some LF; Some 33].

Lemma example_history_ok : history_ok example_history.
Proof.
  split; try done.
  - intros i row Hr. rewrite idx_lookup in Hr. unfold example_history in Hr. cbn [h_buffer] in Hr.
    apply list_lookup_insert_Some in Hr as [(_ & <- & _)|[_ Hr]]; [done|]. by apply lookup_replicate in Hr as [-> _].
  - intros i len Hr. rewrite idx_lookup in Hr. unfold example_history in Hr. cbn [h_lens] in Hr.
    apply list_lookup_insert_Some in Hr as [(_ & <- & _)|[_ Hr]]; [done|]. by apply lookup_replicate in Hr as [-> _].
Qed.

Lemma line_editor_exact_witness :
  exists r, shell_command (S (length example_polls)) example_history (replicate 128 0) example_polls = Ret r /\
    match r with
    | Some (line, hist', e, polls') =>
        line = [104; 101; 108; 112] /\ typed polls' = [33] /\
        (exists shown, ed_echo e = shown ++ [CR; LF] /\ shows shown [104; 101; 108; 112]) /\
        history_ok hist' /\ Forall printable (history_list hist') /\ history_list hist' = [[104; 101; 108; 112]]
    | None => False
    end.
Proof.
  apply (line_editor_exact example_history (replicate 128 0) example_polls).
  - apply example_history_ok.
  - by repeat constructor.
  - done.
Defined.
