(* ===== verification/CommandLine.v ===== *)
(** * Command lines

    Models how the console takes a command line apart ([kernel/shell/mod.rs]):
    [tokenize], which splits a line into at most three words and a remainder, and
    [parse_usize].  [lexes] is the declarative account of the first. *)

From S2P Require Import Prelude Ring.
Local Open Scope N_scope.

Definition SPACE : N := 32.

(** ** [tokenize] *)

(** [while idx < line.len() && p(line[idx]) { idx += 1; }]. *)
Fixpoint scan (fuel : nat) (p : N -> bool) (line : list N) (idx : N) : outcome N :=
  match fuel with
  | O => OutOfFuel
  | S fuel' =>
      if idx <? lenN line then
        let! b := arr_get line idx in
        if p b then let! idx := add64 idx 1 in scan fuel' p line idx else Ret idx
      else Ret idx
  end.

(** [while end > idx && line[end - 1] == b' ' { end -= 1; }]. *)
Fixpoint scan_back (fuel : nat) (line : list N) (idx end_ : N) : outcome N :=
  match fuel with
  | O => OutOfFuel
  | S fuel' =>
      if idx <? end_ then
        let! e := sub64 end_ 1 in
        let! b := arr_get line e in
        if b =? SPACE then scan_back fuel' line idx e else Ret end_
      else Ret end_
  end.

Definition is_space (b : N) : bool := b =? SPACE.

(** The second loop of [tokenize]: up to three words. *)
Fixpoint take_words (fuel : nat) (line : list N) (idx count : N) (tokens : list (option (list N)))
  : outcome (N * N * list (option (list N))) :=
  match fuel with
  | O => OutOfFuel
  | S fuel' =>
      if (idx <? lenN line) && (count <? 3) then
        let start := idx in
        let! idx := scan (S (length line)) (fun b => negb (is_space b)) line idx in
        let! word := slice line start idx in
        let! tokens := arr_set tokens count (Some word) in
        let! count := add64 count 1 in
        let! idx := scan (S (length line)) is_space line idx in
        take_words fuel' line idx count tokens
      else Ret (idx, count, tokens)
  end.

Definition tokenize (line : list N) (tokens : list (option (list N))) : outcome (N * list (option (list N))) :=
  let! idx := scan (S (length line)) is_space line 0 in
  let! (idx, count, tokens) := take_words 4 line idx 0 tokens in
  if idx <? lenN line then
    let! end_ := scan_back (S (length line)) line idx (lenN line) in
    if idx <? end_ then
      let! text := slice line idx end_ in
      let! tokens := arr_set tokens 3 (Some text) in
      let! count := add64 count 1 in
      Ret (count, tokens)
    else Ret (count, tokens)
  else Ret (count, tokens).

(** ** [parse_usize] *)

Definition is_digit (b : N) : bool := (48 <=? b) && (b <=? 57).

Fixpoint parse_digits (tok : list N) (val : N) : result unit N :=
  match tok with
  | [] => Ok val
  | b :: tok' =>
      if negb (is_digit b) then Err tt
      else
        match checked_mul val 10 with
        | Some v => match checked_add v (b - 48) with Some new_val => parse_digits tok' new_val | None => Err tt end
        | None => Err tt
        end
  end.

(** The message printed for a bad number is not modelled. *)
Definition parse_usize (tok : list N) : result unit N := if lenN tok =? 0 then Err tt else parse_digits tok 0.

(** ** Words of a line *)

Definition blank (l : list N) : Prop := Forall (fun b => b = SPACE) l.
Definition is_word (w : list N) : Prop := w <> [] /\ Forall (fun b => b <> SPACE) w.
Definition trimmed (l : list N) : Prop := l <> [] /\ head l <> Some SPACE /\ last l <> Some SPACE.
(** A word ends where the line ends or a space follows. *)
Definition word_end (rest : list N) : Prop := rest = [] \/ head rest = Some SPACE.

(** A line is at most [n] words separated by spaces, then what is left without
    the spaces around it. *)
Inductive lexes : nat -> list N -> list (list N) -> Prop :=
| lex_blank n gap : blank gap -> lexes n gap []
| lex_word n gap w rest toks :
    blank gap -> is_word w -> word_end rest -> lexes n rest toks -> lexes (S n) (gap ++ w ++ rest) (w :: toks)
| lex_rest gap text trail : blank gap -> trimmed text -> blank trail -> lexes 0 (gap ++ text ++ trail) [text].

Lemma lexes_words_le n line toks : lexes n line toks -> Forall (fun w => lenN w <= lenN line) toks.
Proof.
  induction 1 as [|n gap w rest toks Hg Hw He _ IH|gap text trail Hg Ht Htr]; [constructor|constructor|by repeat constructor; rewrite !lenN_app; lia].
  - rewrite !lenN_app. lia.
  - eapply Forall_impl; [done|]. intros w' Hw'. rewrite !lenN_app. cbv beta in Hw'. lia.
Qed.

(** The same as a function. *)
Fixpoint prefix_while (p : N -> bool) (l : list N) : list N :=
  match l with [] => [] | b :: l' => if p b then b :: prefix_while p l' else [] end.
Definition drop_while (p : N -> bool) (l : list N) : list N := drop (length (prefix_while p l)) l.
Definition not_space (b : N) : bool := negb (is_space b).
Definition trim_end (l : list N) : list N := reverse (drop_while is_space (reverse l)).

Fixpoint lex (n : nat) (line : list N) : list (list N) :=
  match drop_while is_space line with
  | [] => []
  | l => match n with O => [trim_end l] | S n' => prefix_while not_space l :: lex n' (drop_while not_space l) end
  end.

Lemma prefix_while_split p l : l = prefix_while p l ++ drop_while p l.
Proof.
  unfold drop_while. induction l as [|b l IH]; [done|]. simpl. destruct (p b); simpl; [by f_equal|done].
Qed.

Lemma prefix_while_all p l : Forall (fun b => p b = true) (prefix_while p l).
Proof. induction l as [|b l IH]; simpl; [constructor|]. destruct (p b) eqn:Hp; by constructor. Qed.

Lemma drop_while_head p l b : head (drop_while p l) = Some b -> p b = false.
Proof.
  unfold drop_while. induction l as [|c l IH]; [done|]. simpl. destruct (p c) eqn:Hp; simpl; [done|]. by intros [= <-].
Qed.

(** A prefix that satisfies [p], then something that does not start with it. *)
Lemma while_app p l r :
  Forall (fun b => p b = true) l -> (forall b, head r = Some b -> p b = false) ->
  prefix_while p (l ++ r) = l /\ drop_while p (l ++ r) = r.
Proof.
  intros Hl Hr. assert (prefix_while p (l ++ r) = l) as Hp.
  { induction Hl as [|b l Hb _ IH]; simpl; [|by rewrite Hb, IH].
    destruct r as [|b r]; [done|]. simpl. by rewrite (Hr b). }
  split; [done|]. unfold drop_while. by rewrite Hp, drop_app_length.
Qed.

Lemma is_space_true b : is_space b = true <-> b = SPACE.
Proof. apply N.eqb_eq. Qed.
Lemma is_space_false b : is_space b = false <-> b <> SPACE.
Proof. apply N.eqb_neq. Qed.
Lemma not_space_true b : not_space b = true <-> b <> SPACE.
Proof. unfold not_space. rewrite negb_true_iff. apply is_space_false. Qed.

Lemma blank_spaces l : blank l <-> Forall (fun b => is_space b = true) l.
Proof. apply Forall_iff. intros b. symmetry. apply is_space_true. Qed.
Lemma word_chars l : Forall (fun b => b <> SPACE) l <-> Forall (fun b => not_space b = true) l.
Proof. apply Forall_iff. intros b. symmetry. apply not_space_true. Qed.

Lemma trim_end_app text trail : blank trail -> last text <> Some SPACE -> trim_end (text ++ trail) = text.
Proof.
  intros Ht Hl. unfold trim_end. rewrite reverse_app. destruct (while_app is_space (reverse trail) (reverse text)) as [_ ->].
  - by apply Forall_reverse, blank_spaces.
  - intros b Hb. apply is_space_false. intros ->. apply Hl. by rewrite <- head_reverse.
  - apply reverse_involutive.
Qed.

Lemma trim_end_split l : exists trail, blank trail /\ l = trim_end l ++ trail /\ last (trim_end l) <> Some SPACE.
Proof.
  exists (reverse (prefix_while is_space (reverse l))). split_and!.
  - apply Forall_reverse, blank_spaces, prefix_while_all.
  - unfold trim_end. by rewrite <- reverse_app, <- prefix_while_split, reverse_involutive.
  - unfold trim_end. rewrite last_reverse. intros Hh%drop_while_head. done.
Qed.

(** The relation and the function agree. *)
Lemma lexes_lex n line toks : lexes n line toks <-> toks = lex n line.
Proof.
  split.
  - induction 1 as [n gap Hg|n gap w rest toks Hg [Hne Hw] He _ IH|gap text trail Hg (Hne & Hh & Hl) Ht].
    + destruct (while_app is_space gap []) as [_ Hd]; [by apply blank_spaces|done|]. rewrite app_nil_r in Hd.
      destruct n; simpl; by rewrite Hd.
    + destruct (while_app is_space gap (w ++ rest)) as [_ Hd]; [by apply blank_spaces| |].
      { intros b Hb. destruct w as [|c w]; [done|]. injection Hb as <-. by apply is_space_false; apply Forall_cons in Hw as [? _]. }
      destruct (while_app not_space w rest) as [Hp Hd2]; [by apply word_chars| |].
      { intros b Hb. destruct He as [->|He]; [done|]. rewrite He in Hb. by injection Hb as <-. }
      cbn [lex]. rewrite Hd. destruct w as [|c w]; [done|]. cbn [app] in *. by rewrite Hp, Hd2, <- IH.
    + destruct (while_app is_space gap (text ++ trail)) as [_ Hd]; [by apply blank_spaces| |].
      { intros b Hb. destruct text as [|c text]; [done|]. injection Hb as <-. apply is_space_false. intros ->. by apply Hh. }
      cbn [lex]. rewrite Hd. pose proof (trim_end_app text trail Ht Hl). destruct text as [|c text]; [done|]. cbn [app] in *. congruence.
  - intros ->. revert line. induction n as [|n IH]; intros line.
    + cbn [lex]. pose proof (prefix_while_split is_space line) as Hs. pose proof (drop_while_head is_space line) as Hh.
      destruct (drop_while is_space line) as [|b l] eqn:Hd.
      { apply lex_blank, blank_spaces. rewrite Hs, app_nil_r. apply prefix_while_all. }
      destruct (trim_end_split (b :: l)) as (trail & Ht & Hl & Hlast). rewrite Hs, Hl at 1. apply lex_rest; [by apply blank_spaces, prefix_while_all| |done].
      specialize (Hh b eq_refl). apply is_space_false in Hh.
      destruct (trim_end (b :: l)) as [|c t] eqn:Htr.
      { exfalso. apply Hh. simpl in Hl. subst trail. by apply Forall_cons in Ht as [? _]. }
      split; [done|]. split; [|done]. injection Hl as <- _. simpl. congruence.
    + cbn [lex]. pose proof (prefix_while_split is_space line) as Hs. pose proof (drop_while_head is_space line) as Hh.
      destruct (drop_while is_space line) as [|b l] eqn:Hd.
      { apply lex_blank, blank_spaces. rewrite Hs, app_nil_r. apply prefix_while_all. }
      specialize (Hh b eq_refl). pose proof (prefix_while_split not_space (b :: l)) as Hw.
      rewrite Hs, Hw at 1. apply lex_word; [by apply blank_spaces, prefix_while_all| | |apply IH].
      * split; [|apply word_chars, prefix_while_all]. cbn [prefix_while]. unfold not_space at 1. by rewrite Hh.
      * pose proof (drop_while_head not_space (b :: l)) as Hr. destruct (drop_while not_space (b :: l)) as [|c r]; [by left|right].
        specialize (Hr c eq_refl). simpl. f_equal. by apply is_space_true, negb_false_iff.
Qed.

(** ** [tokenize] against the words *)

(** [k] words of what is left and the suffix they leave. *)
Fixpoint split_words (n : nat) (l : list N) : list (list N) * list N :=
  match n, l with
  | O, _ => ([], l)
  | _, [] => ([], [])
  | S n', _ => let '(ws, r) := split_words n' (drop_while is_space (drop_while not_space l)) in (prefix_while not_space l :: ws, r)
  end.

Lemma split_words_S n l : l <> [] ->
  split_words (S n) l =
    let '(ws, r) := split_words n (drop_while is_space (drop_while not_space l)) in (prefix_while not_space l :: ws, r).
Proof. by destruct l. Qed.

Definition filled (toks : list (list N)) : list (option (list N)) := (Some <$> toks) ++ replicate (4 - length toks) None.

Lemma filled_snoc toks w : (length toks < 4)%nat -> arr_set (filled toks) (lenN toks) (Some w) = Ret (filled (toks ++ [w])).
Proof.
  intros Hl. assert (lenN (filled toks) = 4) as H4 by (unfold filled, lenN; rewrite length_app, length_fmap, length_replicate; lia).
  rewrite arr_set_ok by (rewrite H4; unfold lenN; lia). f_equal. unfold filled.
  replace (4 - length toks)%nat with (S (4 - length (toks ++ [w]))) by (rewrite length_app; simpl; lia).
  replace (lenN toks) with (lenN (Some <$> toks)) by (unfold lenN; by rewrite length_fmap). by rewrite upd_pad, fmap_app.
Qed.

Section scans.
Context (line : list N) (Hlen : lenN line < u64_limit).

Lemma drop_idx i b : idx line i = Some b -> drop (N.to_nat i) line = b :: drop (N.to_nat (i + 1)) line.
Proof. intros Hb. rewrite idx_lookup in Hb. rewrite (drop_S _ _ _ Hb). f_equal. f_equal. lia. Qed.

Lemma scan_spec p fuel : forall i,
  i <= lenN line -> (N.to_nat (lenN line - i) < fuel)%nat ->
  scan fuel p line i = Ret (i + lenN (prefix_while p (drop (N.to_nat i) line))).
Proof.
  induction fuel as [|fuel IH]; intros i Hi Hf; [lia|]. cbn [scan]. destruct (i <? lenN line) eqn:Hlt; bool_to_prop.
  - destruct (arr_get_ok line i Hlt) as (b & Hb & ->). cbn [obind]. rewrite (drop_idx _ _ Hb). cbn [prefix_while].
    destruct (p b); [|by rewrite N.add_0_r]. rewrite add64_ok by lia. cbn [obind]. rewrite IH by lia.
    rewrite lenN_cons. f_equal. lia.
  - rewrite drop_ge by (unfold lenN in *; lia). simpl. by rewrite N.add_0_r.
Qed.

(** A scan from [i] splits the rest of the line. *)
Lemma scan_split p i :
  i <= lenN line ->
  exists j, scan (S (length line)) p line i = Ret j /\ i <= j <= lenN line /\
    slice line i j = Ret (prefix_while p (drop (N.to_nat i) line)) /\
    drop (N.to_nat j) line = drop_while p (drop (N.to_nat i) line).
Proof.
  intros Hi. rewrite scan_spec by (unfold lenN in *; lia). set (l := drop (N.to_nat i) line). eexists. split; [reflexivity|].
  pose proof (prefix_while_split p l) as Hs. assert (lenN (prefix_while p l) + lenN (drop_while p l) = lenN line - i) as Hl.
  { rewrite <- lenN_app, <- Hs. unfold l, lenN. rewrite length_drop. lia. }
  split; [lia|]. split.
  - rewrite slice_ok by lia. fold l. f_equal. replace (_ - i) with (lenN (prefix_while p l)) by lia.
    unfold lenN. rewrite Nat2N.id. rewrite Hs at 2. apply take_app_length.
  - rewrite N2Nat.inj_add, <- drop_drop. fold l. unfold drop_while, lenN. by rewrite Nat2N.id.
Qed.

Lemma scan_back_spec i fuel : forall e,
  i <= e <= lenN line -> (N.to_nat (e - i) < fuel)%nat ->
  exists j, scan_back fuel line i e = Ret j /\ i <= j <= e /\
    trim_end (take (N.to_nat (e - i)) (drop (N.to_nat i) line)) = take (N.to_nat (j - i)) (drop (N.to_nat i) line).
Proof.
  induction fuel as [|fuel IH]; intros e He Hf; [lia|]. cbn [scan_back]. destruct (i <? e) eqn:Hlt; bool_to_prop.
  2: { exists e. split; [done|]. split; [lia|]. replace (N.to_nat (e - i)) with 0%nat by lia. by rewrite take_0. }
  rewrite sub64_ok by lia. cbn [obind]. destruct (arr_get_ok line (e - 1)) as (b & Hb & ->); [lia|]. cbn [obind].
  assert (take (N.to_nat (e - i)) (drop (N.to_nat i) line) = take (N.to_nat (e - 1 - i)) (drop (N.to_nat i) line) ++ [b]) as Htk.
  { replace (N.to_nat (e - i)) with (S (N.to_nat (e - 1 - i))) by lia. apply take_S_r. rewrite lookup_drop.
    rewrite idx_lookup in Hb. rewrite <- Hb. f_equal. lia. }
  destruct (b =? SPACE) eqn:Hs; bool_to_prop.
  - subst b. destruct (IH (e - 1)) as (j & -> & Hj & Ht); [lia..|]. exists j. split; [done|]. split; [lia|].
    rewrite Htk. rewrite <- Ht. unfold trim_end. by rewrite reverse_snoc.
  - exists e. split; [done|]. split; [lia|]. rewrite Htk. rewrite <- (app_nil_r (_ ++ [b])) at 1. apply trim_end_app; [constructor|].
    rewrite last_snoc. congruence.
Qed.

Lemma take_words_spec fuel : forall i toks,
  (3 - length toks < fuel)%nat -> (length toks <= 3)%nat -> i <= lenN line ->
  let '(ws, r) := split_words (3 - length toks) (drop (N.to_nat i) line) in
  exists j, take_words fuel line i (lenN toks) (filled toks) = Ret (j, lenN (toks ++ ws), filled (toks ++ ws)) /\
    j <= lenN line /\ drop (N.to_nat j) line = r.
Proof.
  induction fuel as [|fuel IH]; intros i toks Hf Ht Hi; [lia|]. cbn [take_words].
  destruct (i <? lenN line) eqn:Hlt; bool_to_prop.
  2: { rewrite drop_ge by (unfold lenN in *; lia). destruct (3 - length toks)%nat; cbn [split_words andb]; exists i; rewrite app_nil_r;
       (split; [done|]; split; [done|]; apply drop_ge; unfold lenN in *; lia). }
  cbn [andb]. destruct (lenN toks <? 3) eqn:H3; bool_to_prop.
  2: { replace (3 - length toks)%nat with 0%nat by (unfold lenN in *; lia). cbn [split_words]. exists i. by rewrite app_nil_r. }
  destruct (scan_split (fun b => negb (is_space b)) i Hi) as (j1 & -> & Hj1 & Hw & Hd1). cbn [obind]. rewrite Hw. cbn [obind].
  rewrite filled_snoc by (unfold lenN in *; lia). cbn [obind]. assert (8 < u64_limit) by done. rewrite add64_ok by (unfold lenN in *; lia). cbn [obind].
  destruct (scan_split is_space j1) as (j2 & -> & Hj2 & _ & Hd2); [lia|]. cbn [obind].
  set (l := drop (N.to_nat i) line) in *. set (w := prefix_while (fun b => negb (is_space b)) l) in *.
  specialize (IH j2 (toks ++ [w])). rewrite length_app, lenN_app in IH. simpl length in IH. change (lenN [w]) with 1 in IH.
  destruct (idx_is_Some line i Hlt) as [b Hb]. assert (exists l', l = b :: l') as [l' El] by (eexists; by apply drop_idx).
  replace (3 - length toks)%nat with (S (3 - (length toks + 1))) by (unfold lenN in *; lia). rewrite split_words_S by by rewrite El.
  rewrite Hd2, Hd1 in IH. fold not_space in IH. destruct (split_words _ _) as [ws r].
  destruct IH as (j & -> & Hj & Hr); [unfold lenN in *; lia..|]. exists j. by rewrite <- app_assoc.
Qed.
End scans.

Definition no_lead (l : list N) : Prop := forall b, head l = Some b -> is_space b = false.

Lemma split_words_no_lead n : forall l, no_lead l -> no_lead (snd (split_words n l)).
Proof.
  induction n as [|n IH]; intros l Hl; [done|]. destruct l as [|b l]; [done|]. rewrite split_words_S by done.
  specialize (IH (drop_while is_space (drop_while not_space (b :: l)))). destruct (split_words n _) as [ws r]. simpl in *.
  apply IH. intros c. apply drop_while_head.
Qed.

Lemma split_words_length n : forall l,
  (length (fst (split_words n l)) <= n)%nat /\ (snd (split_words n l) <> [] -> length (fst (split_words n l)) = n).
Proof.
  induction n as [|n IH]; intros l; [done|]. destruct l as [|b l]; [simpl; split; [lia|done]|]. rewrite split_words_S by done.
  specialize (IH (drop_while is_space (drop_while not_space (b :: l)))). destruct (split_words n _) as [ws r]. simpl in *.
  destruct IH as [? IH]. split; [lia|]. intros Hr. by rewrite IH.
Qed.

Lemma lex_split n : forall line,
  lex n line = let '(ws, r) := split_words n (drop_while is_space line) in ws ++ match r with [] => [] | _ => [trim_end r] end.
Proof.
  induction n as [|n IH]; intros line; cbn [lex].
  - by destruct (drop_while is_space line).
  - destruct (drop_while is_space line) as [|b l]; [done|]. rewrite split_words_S, IH by done. by destruct (split_words n _).
Qed.

(** What remains is trimmed, and not empty. *)
Lemma trim_end_nonempty l : no_lead l -> l <> [] -> trim_end l <> [].
Proof.
  intros Hn Hl Ht. destruct (trim_end_split l) as (trail & Hb & Hs & _). rewrite Ht in Hs. simpl in Hs. subst trail.
  destruct l as [|b l]; [done|]. apply Forall_cons in Hb as [-> _]. by specialize (Hn SPACE eq_refl).
Qed.

Lemma tokenize_lex line :
  lenN line < u64_limit -> tokenize line (replicate 4 None) = Ret (lenN (lex 3 line), filled (lex 3 line)).
Proof.
  intros Hlen. unfold tokenize. destruct (scan_split line Hlen is_space 0) as (i & -> & Hi & _ & Hd); [lia|]. cbn [obind].
  change (N.to_nat 0) with 0%nat in Hd. rewrite drop_0 in Hd.
  pose proof (take_words_spec line Hlen 4 i [] ltac:(simpl; lia) ltac:(simpl; lia) ltac:(lia)) as Hw. rewrite Hd in Hw. simpl length in Hw.
  change (3 - 0)%nat with 3%nat in Hw. rewrite lex_split. pose proof (split_words_length 3 (drop_while is_space line)) as Hl.
  pose proof (split_words_no_lead 3 (drop_while is_space line) (drop_while_head is_space line)) as Hn.
  destruct (split_words 3 _) as [ws r]. destruct Hw as (j & Hrun & Hj & Hr). change (lenN (@nil (list N))) with 0 in Hrun.
  change (filled []) with (replicate 4 (@None (list N))) in Hrun. rewrite Hrun. cbn [obind fst snd app] in *.
  assert (8 < u64_limit) by done.
  assert (lenN r = lenN line - j) as Hlr by (rewrite <- Hr; unfold lenN; rewrite length_drop; lia).
  destruct (j <? lenN line) eqn:Hlt; bool_to_prop.
  2: { destruct r; [by rewrite app_nil_r|]. rewrite lenN_cons in Hlr. lia. }
  destruct (scan_back_spec line Hlen j (S (length line)) (lenN line)) as (e & -> & He & Ht); [lia|unfold lenN; lia|]. cbn [obind].
  rewrite Hr in Ht. rewrite take_ge in Ht by (unfold lenN in *; lia).
  destruct r as [|b r]; [change (lenN (@nil N)) with 0 in Hlr; lia|]. pose proof (trim_end_nonempty _ Hn ltac:(done)) as Hne.
  rewrite Ht in Hne. destruct (j <? e) eqn:Hje; bool_to_prop.
  2: { exfalso. apply Hne. replace (N.to_nat (e - j)) with 0%nat by lia. apply take_0. }
  rewrite slice_ok by lia. cbn [obind]. rewrite Hr, <- Ht.
  pose proof (filled_snoc ws (trim_end (b :: r)) ltac:(lia)) as Hset. destruct Hl as [_ Hl]. specialize (Hl ltac:(done)).
  assert (lenN ws = 3) as Hws by (unfold lenN; lia). rewrite Hws in *. rewrite Hset. cbn [obind]. rewrite add64_ok by lia. cbn [obind].
  rewrite lenN_app, Hws. done.
Qed.

(** Command lines are taken apart as described.  [tokenize] never fails; what
    it returns is the one decomposition of the line into at most three words
    separated by spaces followed by the remainder without the spaces around it,
    with the unused slots left empty. *)
Theorem tokenize_exact line :
  lenN line < u64_limit ->
  exists toks, tokenize line (replicate 4 None) = Ret (lenN toks, (Some <$> toks) ++ replicate (4 - length toks) None) /\
    lexes 3 line toks /\ (forall toks', lexes 3 line toks' -> toks' = toks).
Proof.
  intros Hlen. exists (lex 3 line). split; [by apply tokenize_lex|]. split; [by apply lexes_lex|]. intros toks'. apply lexes_lex.
Qed.

(** "kv set 3 a b ". *)
Lemma tokenize_exact_witness :
  exists toks, tokenize [107; 118; 32; 115; 101; 116; 32; 51; 32; 97; 32; 98; 32] (replicate 4 None)
      = Ret (lenN toks, (Some <$> toks) ++ replicate (4 - length toks) None) /\
    lexes 3 [107; 118; 32; 115; 101; 116; 32; 51; 32; 97; 32; 98; 32] toks /\
    (forall toks', lexes 3 [107; 118; 32; 115; 101; 116; 32; 51; 32; 97; 32; 98; 32] toks' -> toks' = toks).
Proof. apply tokenize_exact. reflexivity. Defined.

(** ** Numbers *)

Definition decimal_value (ds : list N) : N := foldl (fun v b => v * 10 + (b - 48)) 0 ds.

Lemma decimal_value_ge ds : forall v, v <= foldl (fun v b => v * 10 + (b - 48)) v ds.
Proof. induction ds as [|b ds IH]; intros v; [done|]. simpl. specialize (IH (v * 10 + (b - 48))). lia. Qed.

Lemma parse_digits_spec tok : forall val,
  parse_digits tok val =
    let v := foldl (fun v b => v * 10 + (b - 48)) val tok in
    if forallb is_digit tok && (bool_decide (tok = []) || (v <? u64_limit)) then Ok v else Err tt.
Proof.
  induction tok as [|b tok IH]; intros val; [done|]. cbn [parse_digits forallb foldl].
  destruct (is_digit b); [|done]. cbn [negb andb]. rewrite bool_decide_false by done. cbn [orb].
  unfold checked_mul, checked_add. pose proof (decimal_value_ge tok (val * 10 + (b - 48))) as Hge.
  destruct (val * 10 <? u64_limit) eqn:H1; bool_to_prop.
  2: { rewrite (proj2 (N.ltb_ge _ _)) by lia. by rewrite andb_false_r. }
  destruct (val * 10 + (b - 48) <? u64_limit) eqn:H2; bool_to_prop.
  2: { rewrite (proj2 (N.ltb_ge _ _)) by lia. by rewrite andb_false_r. }
  rewrite IH. cbv zeta. case_bool_decide as Ht; [|done]. subst tok. simpl. by rewrite (proj2 (N.ltb_lt _ _) H2).
Qed.

(** Numbers are parsed exactly.  [parse_usize] accepts a token if and only if
    it is a non-empty string of digits whose decimal value fits 64 bits, and
    then returns that value; no overflow is possible on the way. *)
Theorem parse_usize_exact tok :
  parse_usize tok =
    if negb (bool_decide (tok = [])) && forallb is_digit tok && (decimal_value tok <? u64_limit)
    then Ok (decimal_value tok) else Err tt.
Proof.
  unfold parse_usize. destruct tok as [|b tok]; [done|]. rewrite lenN_cons, (proj2 (N.eqb_neq _ _)) by lia.
  rewrite parse_digits_spec. cbv zeta. by rewrite !bool_decide_false by done.
Qed.
