(* ===== verification/DevService.v ===== *)
(** * The device service

    Models the device service of [kernel/shell/mod.rs]: device 0 is the serial
    port, device 1 the keyboard, each guarded by [Resource::Device] capabilities.
    A read drains up to 120 waiting bytes, a write sends text to the serial port. *)

From S2P Require Import Prelude Ring Text Preempt Trace Capability AuditTrail Message Machine Frames.
From S2P Require Import Task Scheduler Kernel Switch Scheduling Spawn Contexts Ipc Rendezvous Messaging Service.
From S2P Require Import Keyboard Serial.
Local Open Scope N_scope.

(** The devices, and [DEV_OPS]. *)
Record DevStore (D : Type) : Type := mkDevStore { dv_serial : D; dv_keyboard : KbdBuffer; dv_ops : N }.
Arguments mkDevStore {D} _ _ _.
Arguments dv_serial {D} _.
Arguments dv_keyboard {D} _.
Arguments dv_ops {D} _.

Definition dev_allows (id : N) (require_write : bool) (cap : Capability) : bool :=
  match cap_resource cap with
  | Device cap_id readable writable =>
      (cap_id =? id) && (if require_write then writable && cap_write cap else readable && cap_read cap)
  | _ => false
  end.

Definition dev_check_cap (sender : TaskId) (id : N) (require_write : bool) : K bool :=
  sender_holds (dev_allows id require_write) sender.

Definition ensure_device_service `{L : Layout} (dev_service_main : N) : K unit := ensure_service 85 dev_service_main.

(** [while read_len < 120 { if let Some(b) = read() { reply[2 + read_len] = b;
    read_len += 1; } else { break; } }] for either device. *)
Fixpoint drain {S} (read : S -> outcome (option N * S)) (fuel : nat) (reply : list N) (read_len : N) (s : S)
  : outcome (list N * N * S) :=
  match fuel with
  | O => OutOfFuel
  | Datatypes.S fuel' =>
      if read_len <? 120 then
        let! (o, s) := read s in
        match o with
        | Some b =>
            let! pos := add64 2 read_len in
            let! reply := arr_set reply pos b in
            let! read_len := add64 read_len 1 in
            drain read fuel' reply read_len s
        | None => Ret (reply, read_len, s)
        end
      else Ret (reply, read_len, s)
  end.

(** The reply to a read: status 0, the count and the bytes, or status 2. *)
Definition read_reply {S} (read : S -> outcome (option N * S)) (s : S) : outcome (list N * S) :=
  let! (reply, read_len, s) := drain read 121 (replicate 128 0) 0 s in
  if 0 <? read_len then
    let! reply := arr_set reply 0 0 in
    let! reply := arr_set reply 1 (read_len mod 256) in
    let! reply_len := add64 2 read_len in
    let! r := slice reply 0 reply_len in
    Ret (r, s)
  else Ret ([2], s).

Section handler.
Context `{P : PortDevice D}.

Definition dev_read (dev_id : N) (st : DevStore D) : outcome (list N * DevStore D) :=
  if dev_id =? 0 then
    let! (r, d) := read_reply (serial_try_read SERIAL1) (dv_serial st) in Ret (r, mkDevStore d (dv_keyboard st) (dv_ops st))
  else
    let! (r, q) := read_reply kbd_try_read (dv_keyboard st) in Ret (r, mkDevStore (dv_serial st) q (dv_ops st)).

Definition dev_write (msg : Message) (dev_id : N) (st : DevStore D) : outcome (list N * DevStore D) :=
  let! write_len := arr_get (msg_payload msg) 2 in
  if (120 <? write_len) || (msg_len msg <? 3 + write_len) then Ret ([3], st)
  else
    let! write_bytes := slice (msg_payload msg) 3 (3 + write_len) in
    if dev_id =? 0 then
      Ret ([0], mkDevStore (write_string SERIAL1 (from_utf8_or_empty write_bytes) (dv_serial st)) (dv_keyboard st) (dv_ops st))
    else Ret ([3], st).

Definition dev_handle (msg : Message) (st : DevStore D) : K (list N * DevStore D) :=
  let st := mkDevStore (dv_serial st) (dv_keyboard st) (wadd64 (dv_ops st) 1) in
  if negb (bool_decide (msg_tag msg = DevOp)) then kret ([3], st)
  else if msg_len msg <? 2 then kret ([3], st)
  else
    let* op := klift (arr_get (msg_payload msg) 0) in
    let* dev_id := klift (arr_get (msg_payload msg) 1) in
    do* ktrace "dev_op" op dev_id in
    if negb (dev_id =? 0) && negb (dev_id =? 1) then kret ([3], st)
    else match op with
    | 0 =>
        let* ok := dev_check_cap (msg_sender msg) dev_id false in
        if negb ok then kret ([1], st) else klift (dev_read dev_id st)
    | 1 =>
        let* ok := dev_check_cap (msg_sender msg) dev_id true in
        if negb ok then kret ([1], st) else klift (dev_write msg dev_id st)
    | _ => kret ([3], st)
    end.

(** [dev_service_main]: task 85, replies tagged [DevReply]. *)
Definition dev_service : Service (DevStore D) := mkService 85 85000 DevReply dev_handle.
End handler.

(** ** Draining a device *)

(** [contents s] is the input waiting in [s], which satisfies [inv]; a read takes
    its first byte. *)
Definition reads {S} (inv : S -> Prop) (contents : S -> list N) (read : S -> outcome (option N * S)) (same : S -> S -> Prop) : Prop :=
  forall s, inv s -> exists s', read s = Ret (head (contents s), s') /\ inv s' /\ contents s' = tail (contents s) /\ same s s'.

Lemma upd_first {A} (x y : A) l : upd (x :: l) 0 y = y :: l.
Proof. unfold upd. by rewrite lenN_cons, (proj2 (N.ltb_lt _ _)) by lia. Qed.
Lemma upd_second {A} (x y z : A) l : upd (x :: y :: l) 1 z = x :: z :: l.
Proof. unfold upd. by rewrite !lenN_cons, (proj2 (N.ltb_lt _ _)) by lia. Qed.

Section drain.
Context {S : Type} (inv : S -> Prop) (contents : S -> list N) (read : S -> outcome (option N * S)) (same : S -> S -> Prop).
Context `{!PreOrder same} (Hread : reads inv contents read same).

Lemma drain_spec fuel : forall pre s,
  inv s -> (length pre <= 120)%nat -> (120 - length pre < fuel)%nat ->
  let n := (120 - length pre)%nat in
  exists s', drain read fuel (zpad (0 :: 0 :: pre)) (lenN pre) s =
      Ret (zpad (0 :: 0 :: pre ++ take n (contents s)), lenN (pre ++ take n (contents s)), s') /\
    inv s' /\ contents s' = drop n (contents s) /\ same s s'.
Proof.
  induction fuel as [|fuel IH]; intros pre s Hs Hp Hf; [lia|]. cbn [drain]. destruct (lenN pre <? 120) eqn:Hlt; bool_to_prop.
  2: { replace (120 - length pre)%nat with 0%nat by (unfold lenN in *; lia). rewrite take_0, drop_0, app_nil_r. by exists s. }
  destruct (Hread s Hs) as (s1 & -> & Hs1 & Hc1 & Hsame1). cbn [obind]. assert (256 < u64_limit) by done.
  replace (120 - length pre)%nat with (Datatypes.S (120 - (length pre + 1))) by (unfold lenN in *; lia).
  destruct (contents s) as [|b l]; cbn [head tail] in *.
  - rewrite take_nil, drop_nil, app_nil_r. by exists s1.
  - rewrite add64_ok by lia. cbn [obind].
    rewrite zpad_set by (rewrite ?lenN_cons; simpl; lia). cbn [obind]. rewrite add64_ok by lia. cbn [obind].
    specialize (IH (pre ++ [b]) s1 Hs1). rewrite length_app, lenN_app, Hc1 in IH. simpl length in IH. change (lenN [b]) with 1 in IH.
    destruct IH as (s' & Hrun & Hs' & Hc' & Hsame); [unfold lenN in *; lia..|]. exists s'.
    cbn [app take drop] in *. rewrite <- (app_assoc pre [b]) in Hrun. rewrite Hrun. split_and!; [done..|]. by etrans.
Qed.

(** The reply to a read carries the first (up to 120) bytes waiting. *)
Definition read_bytes (l : list N) : list N :=
  if bool_decide (l = []) then [2] else 0 :: N.of_nat (length (take 120 l)) :: take 120 l.

Lemma read_reply_spec s :
  inv s -> exists s', read_reply read s = Ret (read_bytes (contents s), s') /\ inv s' /\ contents s' = drop 120 (contents s) /\ same s s'.
Proof.
  intros Hs. unfold read_reply. destruct (drain_spec 121 [] s Hs ltac:(simpl; lia) ltac:(simpl; lia)) as (s' & Hrun & Hs' & Hc & Hsame).
  change (replicate 128 0) with (zpad [0; 0]). simpl length in *. change (120 - 0)%nat with 120%nat in *. change (lenN (@nil N)) with 0 in Hrun.
  rewrite Hrun. cbn [obind app]. exists s'. split; [|done]. unfold read_bytes.
  assert (length (take 120 (contents s)) <= 120)%nat as Hl by (rewrite length_take; lia).
  case_bool_decide as Hnil; [by rewrite Hnil|]. set (t := take 120 (contents s)) in *.
  assert (0 < length t)%nat by (unfold t; destruct (contents s); [done|simpl; lia]).
  rewrite (proj2 (N.ltb_lt _ _)) by (unfold lenN; lia). assert (256 < u64_limit) by done.
  unfold npad at 1. cbn [length app].
  rewrite arr_set_ok by (rewrite !lenN_cons; lia). cbn [obind]. rewrite arr_set_ok by (rewrite lenN_upd, !lenN_cons; lia). cbn [obind].
  rewrite add64_ok by (unfold lenN; lia). cbn [obind].
  rewrite N.mod_small by (unfold lenN; lia).
  rewrite upd_first, upd_second.
  change (0 :: lenN t :: t ++ replicate _ 0) with (zpad (0 :: lenN t :: t)).
  rewrite zpad_slice; [done|by rewrite !lenN_cons; lia|simpl; lia].
Qed.
End drain.

(** ** What the service does *)

Inductive DevEffect : Type := NoEffect | ReadSerial | ReadKeys | Sent (text : list N).

Definition dev_data (msg : Message) : list N :=
  take (N.to_nat (default 0 (idx (msg_payload msg) 2))) (drop 3 (msg_payload msg)).

(** The reply and the effect of a request, from the sender's rights and the input
    waiting at the two devices. *)
Definition dev_spec (s : Scheduler) (msg : Message) (serial_in keys_in : list N) : list N * DevEffect :=
  let op := default 0 (idx (msg_payload msg) 0) in
  let id := default 0 (idx (msg_payload msg) 1) in
  let len := default 0 (idx (msg_payload msg) 2) in
  let may w := holds (dev_allows id w) s (msg_sender msg) in
  if negb (bool_decide (msg_tag msg = DevOp)) || (msg_len msg <? 2) || (1 <? id) then ([3], NoEffect)
  else match op with
  | 0 =>
      if negb (may false) then ([1], NoEffect)
      else if id =? 0 then (read_bytes serial_in, ReadSerial) else (read_bytes keys_in, ReadKeys)
  | 1 =>
      if negb (may true) then ([1], NoEffect)
      else if (120 <? len) || (msg_len msg <? 3 + len) then ([3], NoEffect)
      else if id =? 0 then ([0], Sent (from_utf8_or_empty (dev_data msg))) else ([3], NoEffect)
  | _ => ([3], NoEffect)
  end.

Section spec.
Context {D : Type} `{P : PortDevice D} `{U : !Uart16550 D 0x3F8} `{UL : !Uart16550Laws D}.

Definition dev_wf (st : DevStore D) : Prop := uart_dlab 0x3F8 (dv_serial st) = false /\ kbd_ok (dv_keyboard st).

(** A read changes only the input of its device, a write only the output of the
    serial port. *)
Definition dev_effect (eff : DevEffect) (st st' : DevStore D) : Prop :=
  match eff with
  | NoEffect => dv_serial st' = dv_serial st /\ dv_keyboard st' = dv_keyboard st
  | ReadSerial =>
      dv_keyboard st' = dv_keyboard st /\ uart_rx 0x3F8 (dv_serial st') = drop 120 (uart_rx 0x3F8 (dv_serial st)) /\
      uart_tx 0x3F8 (dv_serial st') = uart_tx 0x3F8 (dv_serial st)
  | ReadKeys => dv_serial st' = dv_serial st /\ kbd_contents (dv_keyboard st') = drop 120 (kbd_contents (dv_keyboard st))
  | Sent text =>
      dv_keyboard st' = dv_keyboard st /\ uart_rx 0x3F8 (dv_serial st') = uart_rx 0x3F8 (dv_serial st) /\
      (lenN (crlf text) <= uart_room 0x3F8 (dv_serial st) ->
       uart_tx 0x3F8 (dv_serial st') = uart_tx 0x3F8 (dv_serial st) ++ crlf text)
  end.

Definition uart_kept (d d' : D) : Prop := uart_tx 0x3F8 d' = uart_tx 0x3F8 d.
#[local] Instance uart_kept_PreOrder : PreOrder uart_kept.
Proof. split; [done|]. intros d1 d2 d3. unfold uart_kept. congruence. Qed.

Lemma serial_reads : reads (fun d : D => uart_dlab 0x3F8 d = false) (uart_rx 0x3F8) (serial_try_read SERIAL1) uart_kept.
Proof.
  intros d Hd. destruct (serial_try_read_spec 0x3F8 d) as (d' & Hr & Hx & Ht & _ & (Hc & _)); [done..|].
  exists d'. split_and!; [done|congruence|done..].
Qed.

Definition any_queue (q q' : KbdBuffer) : Prop := True.
#[local] Instance any_queue_PreOrder : PreOrder any_queue.
Proof. by split. Qed.

Lemma kbd_reads : reads kbd_ok kbd_contents kbd_try_read any_queue.
Proof.
  intros q Hq. destruct (kbd_contents q) as [|b l] eqn:Hc.
  - exists q. split_and!; [by apply (fifo_dequeue_nil (F := KbdBuffer_Fifo))|done..].
  - destruct (fifo_dequeue_cons (F := KbdBuffer_Fifo) q b l Hq Hc) as (q' & Hr & Hq' & Hc'). by exists q'.
Qed.

Lemma dev_read_spec dev st :
  dev_wf st -> dev = 0 \/ dev = 1 ->
  exists st', dev_read dev st = Ret ((if dev =? 0 then read_bytes (uart_rx 0x3F8 (dv_serial st)) else read_bytes (kbd_contents (dv_keyboard st))), st') /\
    dev_wf st' /\ dev_effect (if dev =? 0 then ReadSerial else ReadKeys) st st' /\ dv_ops st' = dv_ops st.
Proof.
  intros [Hd Hk] [-> | ->]; unfold dev_read; simpl.
  - destruct (read_reply_spec _ _ _ _ serial_reads (dv_serial st) Hd) as (d' & -> & Hd' & Hx & Ht). cbn [obind]. by eexists.
  - destruct (read_reply_spec _ _ _ _ kbd_reads (dv_keyboard st) Hk) as (q' & -> & Hq' & Hx & _). cbn [obind]. by eexists.
Qed.

Lemma dev_write_spec msg dev st :
  dev_wf st -> request_ok msg -> dev = 0 \/ dev = 1 ->
  let len := default 0 (idx (msg_payload msg) 2) in
  let r := if (120 <? len) || (msg_len msg <? 3 + len) then ([3], NoEffect)
           else if dev =? 0 then ([0], Sent (from_utf8_or_empty (dev_data msg))) else ([3], NoEffect) in
  exists st', dev_write msg dev st = Ret (r.1, st') /\ dev_wf st' /\ dev_effect r.2 st st' /\ dv_ops st' = dv_ops st.
Proof.
  intros Hst Hreq Hid. pose proof Hst as [Hd Hk]. destruct Hreq as [Hp _ _ _]. unfold dev_write, dev_data.
  destruct (arr_get_ok (msg_payload msg) 2) as (len & Hlen & ->); [lia|]. rewrite Hlen. cbn [obind from_option id].
  destruct ((120 <? len) || (msg_len msg <? 3 + len)) eqn:Hbad; [by exists st|].
  apply orb_false_iff in Hbad as [H120 _]. bool_to_prop. rewrite slice_ok by lia. cbn [obind].
  replace (3 + len - 3) with len by lia. change (N.to_nat 3) with 3%nat. set (text := from_utf8_or_empty _).
  destruct Hid as [-> | ->]; simpl; [|by exists st]. eexists. split; [reflexivity|].
  destruct (write_string_frame 0x3F8 text (dv_serial st) Hd) as (Hx & (Hc & _)). split; [|split; [|done]].
  - split; [exact (eq_trans Hc Hd)|done].
  - split_and!; [done..|]. intros Hr. by apply (tr_tx _ _ _ _ (write_string_spec 0x3F8 text (dv_serial st) Hd Hr)).
Qed.

(** The handler always returns; its reply and effect are those of [dev_spec]. *)
Lemma dev_handle_spec msg st k :
  kernel_wf k -> request_ok msg -> dev_wf st ->
  let r := dev_spec (k_sched k) msg (uart_rx 0x3F8 (dv_serial st)) (kbd_contents (dv_keyboard st)) in
  wp (dev_handle msg st)
    (fun '(reply, st') k' => reply = r.1 /\ dev_wf st' /\ dev_effect r.2 st st' /\ dv_ops st' = wadd64 (dv_ops st) 1 /\ only_traced k k') k.
Proof.
  intros Hk Hreq Hst. pose proof Hreq as [Hp _ _ _]. unfold dev_handle, dev_spec.
  set (st1 := mkDevStore _ _ _). assert (dev_wf st1) as Hst1 by done.
  assert (forall r : list N * DevEffect, r.2 = NoEffect -> forall k', only_traced k k' ->
    wp (kret (r.1, st1)) (fun '(reply, st') k' => reply = r.1 /\ dev_wf st' /\ dev_effect r.2 st st' /\
      dv_ops st' = wadd64 (dv_ops st) 1 /\ only_traced k k') k') as Hret.
  { intros r Hr k' Ht. apply wp_kret. by rewrite Hr. }
  destruct (bool_decide (msg_tag msg = DevOp)); cbn [negb orb]; [|apply (Hret ([3], NoEffect)); auto with kernel].
  destruct (msg_len msg <? 2); cbn [orb]; [apply (Hret ([3], NoEffect)); auto with kernel|].
  destruct (arr_get_ok (msg_payload msg) 0) as (op & Hop & Hget0); [lia|]. destruct (arr_get_ok (msg_payload msg) 1) as (dev & Hid & Hget1); [lia|].
  rewrite Hop, Hid. cbn [from_option id]. apply wp_kbind. eapply wp_klift; [done|]. apply wp_kbind. eapply wp_klift; [done|].
  apply wp_kbind, wp_ktrace_only; [done|]. intros k1 Hk1 Htr. rewrite <- (only_traced_sched _ _ Htr).
  assert (negb (dev =? 0) && negb (dev =? 1) = (1 <? dev)) as ->.
  { destruct dev as [|[]]; done. }
  destruct (1 <? dev) eqn:H1; bool_to_prop; [by apply (Hret ([3], NoEffect))|]. assert (dev = 0 \/ dev = 1) as Hid01 by lia.
  destruct op as [|[?|?|]]; try (by apply (Hret ([3], NoEffect))).
  - apply wp_kbind, wp_sender_holds; [done|]. destruct (holds _ _ _); cbn [negb]; [|by apply (Hret ([1], NoEffect))].
    destruct (dev_read_spec dev st1 Hst1 Hid01) as (st' & Hrun & Hw & He & Ho). eapply wp_klift; [done|].
    destruct Hid01 as [-> | ->]; by split_and!.
  - apply wp_kbind, wp_sender_holds; [done|]. destruct (holds _ _ _); cbn [negb]; [|by apply (Hret ([1], NoEffect))].
    destruct (dev_write_spec msg dev st1 Hst1 Hreq Hid01) as (st' & Hrun & Hw & He & Ho). eapply wp_klift; [done|]. by split_and!.
Qed.

Lemma read_bytes_len l : lenN (read_bytes l) <= 128.
Proof. unfold read_bytes. case_bool_decide; [vm_compute; congruence|]. rewrite !lenN_cons. unfold lenN. rewrite length_take. lia. Qed.

Lemma dev_spec_len s msg rx keys : lenN (dev_spec s msg rx keys).1 <= 128.
Proof. unfold dev_spec. repeat case_match; simpl; (apply read_bytes_len || (vm_compute; congruence)). Qed.

#[export] Instance dev_Handler : Handler dev_service dev_wf dev_wf (fun _ => True).
Proof.
  split; [done|]. intros msg st k Hk Hreq _ Hst. eapply wp_mono; [by apply dev_handle_spec|].
  intros [reply st'] k' (-> & ? & _ & _ & ?). split_and!; [done| |done]. apply dev_spec_len.
Qed.
End spec.
