(* ===== verification/Clients.v ===== *)
(** * Clients of the services

    Models how the console reaches the kernel services ([kernel/shell/mod.rs]):
    the capability table it is created with ([root_caps], [load]), the search
    for a channel, and [send_fs_msg], [send_dev_msg] and [send_sync_msg], which
    send a request and wait for the reply.  [request_served] composes a client
    with any service that meets the [Handler] contract. *)

From S2P Require Import Prelude Ring Preempt Trace Capability AuditTrail Message Machine Frames.
From S2P Require Import Task Scheduler Kernel Switch Scheduling Spawn Contexts Ipc Rendezvous Messaging Service.
From S2P Require Import KvService FsService SyncService Keyboard Serial DevService.
Local Open Scope N_scope.

(** ** The console's capabilities *)

Definition root_cap (r : Resource) (read write grant : bool) : Capability := mkCap r read write grant false 0 None.

(** The insertions of [root_caps] before and after the swap, in order. *)
Definition ROOT_FIRST : list Capability := [
  root_cap Serial false true true;
  root_cap (Capability.Service 1) true true false;
  root_cap (IpcChannel 65) true true true].
Definition ROOT_REST : list Capability := [
  root_cap (KVEntry 0 true true) true true true;
  root_cap (KVEntry 1 true false) true false true;
  root_cap (KVEntry 2 false true) false true true;
  root_cap (IpcChannel 82) true true true;
  root_cap (LogChannel 0 true true) true true true;
  root_cap (LogChannel 1 true false) true false true;
  root_cap (IpcChannel 83) true true true;
  root_cap (Capability.FsNode 0 true true) true true true;
  root_cap (IpcChannel 84) true true true;
  root_cap (Device 0 true true) true true true;
  root_cap (Device 1 true true) true true true;
  root_cap (IpcChannel 85) true true true;
  root_cap (IpcChannel 86) true true true].

(** [let _ = caps.insert(..)]. *)
Definition insert_all (l : list Capability) (st : CapTable * Ambient) : CapTable * Ambient :=
  foldl (fun '(ct, a) cap => let '(_, ct', a') := CapTable_insert ct cap a in (ct', a')) st l.

Definition root_caps (a : Ambient) : outcome (CapTable * Ambient) :=
  let '(caps, a) := insert_all ROOT_FIRST (CapTable_new, a) in
  let! tmp := arr_get (slots caps) 1 in
  let! s2 := arr_get (slots caps) 2 in
  let! sl := arr_set (slots caps) 1 s2 in
  let! sl := arr_set sl 2 tmp in
  Ret (insert_all ROOT_REST (mkCapTable sl, a)).

Definition SHELL : TaskId := 64.

Section clients.
Context `{L : Layout}.

(** [load]: the console's task. *)
Definition load (shell_main : N) : K unit :=
  do* lock_sched in
  let* caps := fun k => let! (ct, a) := root_caps (k_amb k) in Ret (ct, set_k_amb a k) in
  let* t := Task_new SHELL shell_main caps in
  do* kmod (on_sched (put_slot SHELL (Some t))) in
  unlock_sched.

(** ** Requests *)

(** [get_shell_caps]. *)
Definition get_shell_caps : K (list (option Capability)) :=
  do* lock_sched in
  let* ot := kget_task SHELL in
  do* unlock_sched in
  klift match ot with Some t => Ret (slots (t_cap_table t)) | None => Panic end.

Definition is_channel_to (target : TaskId) (o : option Capability) : bool :=
  match o with
  | Some cap => match cap_resource cap with IpcChannel target_task => target_task =? target | _ => false end
  | None => false
  end.

(** The loop of [send_fs_msg] and its siblings over the console's slots. *)
Definition shell_channel (target : TaskId) : K (option N) :=
  let* sl := get_shell_caps in kret (position (is_channel_to target) sl).

(** Send, wait for the reply, check its tag. *)
Definition call_service (fuel : nat) (cap_idx : N) (tag reply_tag : IpcTag) (payload : list N) : R (result IpcError (list N)) :=
  let+ r := sys_send_typed fuel cap_idx (IpcTag_as_u16 tag) 1 payload in
  match r with
  | Err e => rret (Err e)
  | Ok _ =>
      let+ r := sys_receive_typed fuel in
      match r with
      | Err e => rret (Err e)
      | Ok reply =>
          if bool_decide (msg_tag reply = reply_tag) then rret (Ok (msg_payload reply)) else rret (Err InvalidTag)
      end
  end.

(** [ensure_*_service], find the channel, encode, call. *)
Definition send_msg (fuel : nat) (ensure : K unit) (target : TaskId) (tag reply_tag : IpcTag) (encode : outcome (list N))
  : R (result IpcError (list N)) :=
  let+ _ := rlift ensure in
  let+ o := rlift (shell_channel target) in
  match o with
  | None => rret (Err NoCapability)
  | Some cap_idx => let+ payload := rlift (klift encode) in call_service fuel cap_idx tag reply_tag payload
  end.

Definition fs_payload (op mount : N) (path data : list N) : outcome (list N) :=
  let! payload := arr_set (replicate 128 0) 0 op in
  let! payload := arr_set payload 1 mount in
  let name_len := N.min (lenN path) 30 in
  let! payload := arr_set payload 2 name_len in
  let! name := slice path 0 name_len in
  let! payload := copy_at payload 3 name in
  let data_len := N.min (lenN data) 94 in
  let! payload := arr_set payload 33 data_len in
  let! bytes := slice data 0 data_len in
  copy_at payload 34 bytes.

Definition send_fs_msg (fuel : nat) (fs_service_main op mount : N) (path data : list N) : R (result IpcError (list N)) :=
  send_msg fuel (ensure_fs_service fs_service_main) 84 FsOp FsReply (fs_payload op mount path data).

Definition dev_payload (op dev_id : N) (data : list N) : outcome (list N) :=
  let! payload := arr_set (replicate 128 0) 0 op in
  let! payload := arr_set payload 1 dev_id in
  let write_len := N.min (lenN data) 120 in
  let! payload := arr_set payload 2 write_len in
  let! bytes := slice data 0 write_len in
  copy_at payload 3 bytes.

Definition send_dev_msg (fuel : nat) (dev_service_main op dev_id : N) (data : list N) : R (result IpcError (list N)) :=
  send_msg fuel (ensure_device_service dev_service_main) 85 DevOp DevReply (dev_payload op dev_id data).

Definition sync_payload (op obj_id is_mutex count : N) : outcome (list N) :=
  let! payload := arr_set (replicate 128 0) 0 op in
  let! payload := arr_set payload 1 obj_id in
  let! payload := arr_set payload 2 is_mutex in
  arr_set payload 3 count.

Definition send_sync_msg (fuel : nat) (sync_service_main op obj_id is_mutex count : N) : R (result IpcError (list N)) :=
  send_msg fuel (ensure_sync_service sync_service_main) 86 SyncOp SyncReply (sync_payload op obj_id is_mutex count).
End clients.

(** ** The root table *)

(** Identities in the order of insertion. *)
Fixpoint stamped (n : N) (l : list Capability) : list Capability :=
  match l with [] => [] | cap :: l' => with_id cap n :: stamped (wadd64 n 1) l' end.

(** A table filled from the front. *)
Definition front (cs : list Capability) : CapTable := mkCapTable ((Some <$> cs) ++ replicate (32 - length cs) None).

Lemma front_insert cs cap a :
  (length cs < 32)%nat ->
  exists a', CapTable_insert (front cs) cap a = (Ok (lenN cs), front (cs ++ [with_id cap (am_next_cap_id a)]), a') /\
    am_next_cap_id a' = wadd64 (am_next_cap_id a) 1.
Proof.
  intros Hl. unfold CapTable_insert, front, next_cap_id. cbn [slots].
  assert (lenN (Some <$> cs) = lenN cs) as Hlen by (unfold lenN; by rewrite length_fmap).
  replace (32 - length cs)%nat with (S (31 - length cs)) by lia.
  rewrite (position_least is_none _ (lenN cs) None).
  - eexists. rewrite <- Hlen, upd_pad. replace (31 - length cs)%nat with (32 - length (cs ++ [with_id cap (am_next_cap_id a)]))%nat
      by (rewrite length_app; simpl; lia). rewrite fmap_app. split; [reflexivity|]. by autorewrite with ambient.
  - rewrite <- Hlen, idx_lookup. unfold lenN. by rewrite Nat2N.id, lookup_app_r, Nat.sub_diag.
  - done.
  - intros j y Hj Hy. rewrite <- Hlen in Hj. rewrite idx_app_l, idx_lookup, list_lookup_fmap in Hy by done.
    by destruct (cs !! N.to_nat j); simplify_eq/=.
Qed.

Lemma insert_all_spec l : forall cs a,
  (length cs + length l <= 32)%nat ->
  exists a', insert_all l (front cs, a) = (front (cs ++ stamped (am_next_cap_id a) l), a') /\
    am_next_cap_id a' = Nat.iter (length l) (fun n => wadd64 n 1) (am_next_cap_id a).
Proof.
  induction l as [|cap l IH]; intros cs a Hl; simpl in *; [rewrite app_nil_r; by eexists|].
  destruct (front_insert cs cap a) as (a1 & Hi & Hn); [lia|]. unfold insert_all in IH |- *. cbn [foldl]. rewrite Hi.
  destruct (IH (cs ++ [with_id cap (am_next_cap_id a)]) a1) as (a2 & -> & Hn2); [rewrite length_app; simpl; lia|].
  exists a2. rewrite <- app_assoc, Hn. split; [done|]. rewrite Hn2, Hn. symmetry. apply (Nat.iter_succ_r (length l) (fun n => wadd64 n 1)).
Qed.

(** The console starts with these sixteen capabilities, in this order; the
    identities show the swap of the second and third insertion. *)
Definition root_table (n : N) : list Capability :=
  [with_id (root_cap Serial false true true) n;
   with_id (root_cap (IpcChannel 65) true true true) (wadd64 (wadd64 n 1) 1);
   with_id (root_cap (Capability.Service 1) true true false) (wadd64 n 1)] ++
  stamped (wadd64 (wadd64 (wadd64 n 1) 1) 1) ROOT_REST.

Lemma swap_slots (c0 c1 c2 : option Capability) (sl := c0 :: c1 :: c2 :: replicate 29 None) :
  arr_get sl 1 = Ret c1 /\ arr_get sl 2 = Ret c2 /\ arr_set sl 1 c2 = Ret (c0 :: c2 :: c2 :: replicate 29 None) /\
  arr_set (c0 :: c2 :: c2 :: replicate 29 None) 2 c1 = Ret (c0 :: c2 :: c1 :: replicate 29 None).
Proof. vm_compute. done. Qed.

Lemma root_caps_spec a : exists a', root_caps a = Ret (front (root_table (am_next_cap_id a)), a').
Proof.
  unfold root_caps. change CapTable_new with (front []).
  destruct (insert_all_spec ROOT_FIRST [] a) as (a1 & -> & Hn); [simpl; lia|]. cbn [app ROOT_FIRST stamped].
  set (n := am_next_cap_id a) in *. simpl in Hn. unfold front at 1 2 3. cbn [slots length Nat.sub fmap list_fmap app].
  edestruct swap_slots as (H1 & H2 & H3 & H4). rewrite H1. cbn [obind]. rewrite H2. cbn [obind]. rewrite H3. cbn [obind]. rewrite H4. cbn [obind].
  match goal with |- context [mkCapTable (?c0 :: ?c1 :: ?c2 :: ?l)] =>
    change (mkCapTable (c0 :: c1 :: c2 :: l)) with (front (take 3 (root_table n))) end.
  destruct (insert_all_spec ROOT_REST (take 3 (root_table n)) a1) as (a2 & -> & _); [simpl; lia|]. exists a2. by rewrite Hn.
Qed.

(** Stamping identities leaves the preemption state alone. *)
Lemma insert_all_preempt l : forall st, am_preempt (insert_all l st).2 = am_preempt st.2.
Proof.
  induction l as [|cap l IH]; intros [ct a]; [done|]. cbn [insert_all foldl].
  destruct (CapTable_insert ct cap a) as [[r ct'] a'] eqn:Hi. etransitivity; [apply (IH (ct', a'))|]. cbn [snd].
  unfold CapTable_insert in Hi. destruct (next_cap_id a) as [id a1] eqn:Hn. injection Hn as _ <-.
  destruct (position is_none (slots ct)); injection Hi as _ _ <-; [|done].
  edestruct log_trace_traced as (-> & _). done.
Qed.

Lemma root_caps_preempt a ct a' : root_caps a = Ret (ct, a') -> am_preempt a' = am_preempt a.
Proof.
  unfold root_caps. pose proof (insert_all_preempt ROOT_FIRST (CapTable_new, a)) as H1. destruct (insert_all ROOT_FIRST _) as [caps a1].
  intros Hr. do 4 (apply obind_Ret in Hr as (? & _ & Hr)).
  apply (f_equal (fun o => match o with Ret x => am_preempt x.2 | _ => am_preempt a' end)) in Hr. cbv beta iota in Hr.
  rewrite insert_all_preempt in Hr. cbn [snd] in *. congruence.
Qed.

(** The console's channels to the services are where its comments say. *)
Lemma root_channels n :
  position (is_channel_to 65) (slots (front (root_table n))) = Some 1 /\
  position (is_channel_to 82) (slots (front (root_table n))) = Some 6 /\
  position (is_channel_to 83) (slots (front (root_table n))) = Some 9 /\
  position (is_channel_to 84) (slots (front (root_table n))) = Some 11 /\
  position (is_channel_to 85) (slots (front (root_table n))) = Some 14 /\
  position (is_channel_to 86) (slots (front (root_table n))) = Some 15.
Proof. by repeat split. Qed.

(** ** A request and its reply *)

Lemma build_message_zpad sender tag version payload :
  lenN payload <= 128 -> build_message sender tag version payload = Ret (mkMessage sender tag version (zpad payload) (lenN payload)).
Proof.
  intros Hl. unfold build_message. rewrite zpad_nil, (zpad_copy 0) by (done || unfold lenN in *; simpl; lia). done.
Qed.

Lemma zpad_bytes l : Forall (fun b => b < 256) l -> Forall (fun b => b < 256) (zpad l).
Proof. intros Hl. apply Forall_app. split; [done|]. by apply Forall_replicate. Qed.

Lemma sent_request_ok sender tag version payload :
  lenN payload <= 128 -> Forall (fun b => b < 256) payload -> sender < MAX_TASKS ->
  request_ok (mkMessage sender tag version (zpad payload) (lenN payload)).
Proof.
  intros Hl Hb Hs. split; simpl; [apply zpad_len; unfold lenN in *; lia|done|by apply zpad_bytes|done].
Qed.

Section served.
Context `{L : Layout} {St : Type} (sv : Service St) (inv inv' : St -> Prop) (accepts : Message -> Prop).
Context `{!Handler sv inv inv' accepts}.

(** The request a client builds. *)
Definition request (c : TaskId) (tag : IpcTag) (payload : list N) : Message := mkMessage c tag 1 (zpad payload) (lenN payload).

(** A call hands its request to the waiting service and pauses; resumed with a
    message in its buffer, it returns that message's payload if the tag is
    right. *)
Lemma call_service_pauses n ci tag rtag payload c s tc ts k :
  kernel_wf k -> depth_ok k -> s_current_task_id (k_sched k) = Some c ->
  task_slot (k_sched k) c = Some tc -> nothing_pending tc ->
  (forall j tj, task_slot (k_sched k) j = Some tj -> t_state tj <> BlockedOnSend c) ->
  channel_of (k_sched k) c ci = Ok s -> s <> c ->
  task_slot (k_sched k) s = Some ts -> t_state ts = BlockedOnReceive -> lenN payload <= 128 ->
  exists k1,
    ipc_frame k (get_task_mut (get_task_mut (k_sched k) s (handed (request c tag payload))) c (set_t_state BlockedOnReceive))
      (wadd64 (k_ipc_deliveries k) 1) k1 /\
    forall y k2, yield_cpu k1 = Ret (Paused y, k2) ->
      exists resume, call_service (S (S n)) ci tag rtag payload k = Ret (Paused resume, k2) /\
        forall k5 t5 m, kernel_wf k5 -> task_slot (k_sched k5) c = Some t5 ->
          mq_contents (t_msg_queue t5) = [] -> t_ipc_buffer t5 = Some m ->
          exists k6, resume k5 = Ret (Done (if bool_decide (msg_tag m = rtag) then Ok (msg_payload m) else Err InvalidTag), k6).
Proof.
  intros Hk Hd Hcur Htc Hp Hnone Hch Hne Hts Hst Hl. pose proof Hk as [Hs _ _].
  destruct (send_to_waiting_frame (S n) ci (IpcTag_as_u16 tag) 1 payload tag c s ts k) as (m & k0 & Hm & Hrun0 & Hf0); [done..| |done|done|done|done|].
  { unfold check_envelope. rewrite (proj2 (N.ltb_ge _ _)) by done. by rewrite from_u16_as_u16. }
  rewrite build_message_zpad in Hm by done. injection Hm as <-. fold (request c tag payload) in Hf0.
  pose proof (ipc_frame_sched _ _ _ _ Hf0) as Hs0.
  assert (kernel_wf k0) as Hk0 by (eapply ipc_frame_wf, Hk; [done|auto with kernel]).
  destruct (receive_blocks n c tc k0 Hk0) as (k1 & Hf1 & Hpause).
  - by rewrite Hs0, get_task_mut_current.
  - by rewrite Hs0, get_task_mut_slot, decide_False.
  - done.
  - intros j tj. rewrite Hs0, get_task_mut_slot by done. case_decide as Hj; [|by apply Hnone].
    subst j. rewrite Hts. by intros [= <-].
  - rewrite Hs0, (ipc_frame_deliveries _ _ _ _ Hf0) in Hf1. exists k1. split; [by eapply ipc_frame_trans|].
    intros y k2 Hy. destruct (Hpause y k2 Hy) as (resume & Hrun & Hres).
    unfold call_service, rbind at 1. rewrite Hrun0. cbn [obind res_bind].
    unfold rbind. rewrite Hrun. cbn [obind res_bind]. eexists. split; [reflexivity|].
    intros k5 t5 m Hk5 Ht5 Hq5 Hb5. destruct (Hres k5 t5 m) as (k6 & Hk6 & _); [done..|]. exists k6. simpl. rewrite Hk6. simpl.
    by case_bool_decide.
Qed.

End served.

(** ** Requests as the services see them *)

Lemma zpad_more pre k : (length pre + k <= 128)%nat -> zpad pre = zpad (pre ++ replicate k 0).
Proof.
  intros Hl. unfold npad. rewrite <- app_assoc, <- replicate_add, length_app, length_replicate. do 2 f_equal. lia.
Qed.

Lemma slice_min {A} (l : list A) n : slice l 0 (N.min (lenN l) n) = Ret (take (N.to_nat n) l).
Proof.
  rewrite slice_ok by lia. rewrite N.sub_0_r, drop_0. f_equal. destruct (decide (lenN l <= n)).
  - rewrite !take_ge; [done|unfold lenN in *; lia..].
  - f_equal. lia.
Qed.

(** The file-system request carries the first 30 bytes of the path and the first
    94 of the data, where [fs_handle] looks for them. *)
Lemma fs_payload_spec op mount path data :
  let name := take 30 path in
  fs_payload op mount path data =
    Ret (zpad (op :: mount :: lenN name :: name ++ replicate (30 - length name) 0 ++ N.min (lenN data) 94 :: take 94 data)).
Proof.
  intros name. unfold fs_payload. rewrite !slice_min. change (N.to_nat 30) with 30%nat. change (N.to_nat 94) with 94%nat. fold name.
  assert (length name <= 30)%nat as Hn by (unfold name; rewrite length_take; lia).
  assert (N.min (lenN path) 30 = lenN name) as -> by (unfold name, lenN; rewrite length_take; lia).
  rewrite zpad_nil. rewrite (zpad_set 0) by (done || simpl; lia). cbn [obind app].
  rewrite (zpad_set 1) by (done || simpl; lia). cbn [obind app]. rewrite (zpad_set 2) by (done || simpl; lia). cbn [obind app].
  rewrite (zpad_copy 3) by (done || simpl; lia). cbn [obind]. rewrite (zpad_more _ (30 - length name)) by (simpl; lia).
  assert (length (take 94 data) <= 94)%nat by (rewrite length_take; lia).
  rewrite (zpad_set 33) by (unfold lenN; rewrite ?length_app, ?length_replicate; simpl; rewrite ?length_app, ?length_replicate; lia).
  cbn [obind]. rewrite (zpad_copy 34) by (unfold lenN; rewrite ?length_app, ?length_replicate; simpl; rewrite ?length_app, ?length_replicate; simpl; lia).
  do 2 f_equal. cbn [app]. by rewrite <- !app_assoc.
Qed.

Lemma dev_payload_spec op dev_id data :
  dev_payload op dev_id data = Ret (zpad (op :: dev_id :: N.min (lenN data) 120 :: take 120 data)).
Proof.
  unfold dev_payload. rewrite slice_min. change (N.to_nat 120) with 120%nat. assert (length (take 120 data) <= 120)%nat by (rewrite length_take; lia).
  rewrite zpad_nil, (zpad_set 0) by (done || simpl; lia). cbn [obind app].
  rewrite (zpad_set 1) by (done || simpl; lia). cbn [obind app]. rewrite (zpad_set 2) by (done || simpl; lia). cbn [obind app].
  by rewrite (zpad_copy 3) by (done || simpl; lia).
Qed.

Lemma sync_payload_spec op obj_id is_mutex count :
  sync_payload op obj_id is_mutex count = Ret (zpad [op; obj_id; is_mutex; count]).
Proof. reflexivity. Qed.

(** ** The console and the file-system service *)

(** The console, running, and the file-system service, waiting. *)
Definition fs_system : Kernel :=
  set_current SHELL (add_task (example_task SHELL Running (root_table 1))
    (add_task (example_task 84 BlockedOnReceive [mkCap (IpcChannel SHELL) true true false false 40 None]) Kernel_init)).

Lemma fs_system_wf : kernel_wf fs_system.
Proof. apply set_current_wf. repeat (apply add_task_wf; [apply example_task_wf; simpl; lia|]). apply Kernel_init_wf. Qed.

Lemma fs_system_no_senders j tj : task_slot (k_sched fs_system) j = Some tj -> t_state tj <> BlockedOnSend SHELL.
Proof.
  change (k_sched fs_system) with (set_s_current_task_id (Some SHELL)
    (put_slot SHELL (Some (example_task SHELL Running (root_table 1)))
      (put_slot 84 (Some (example_task 84 BlockedOnReceive [mkCap (IpcChannel SHELL) true true false false 40 None])) Scheduler_init))).
  change (task_slot (set_s_current_task_id ?o ?s) j) with (task_slot s j).
  rewrite !task_slot_put by done. repeat destruct (decide _); intros; simplify_eq; [done..|].
  exfalso. unfold task_slot in *. destruct (idx _ j) as [o|] eqn:Ho; [|done].
  apply idx_elem_of, elem_of_replicate_inv in Ho. by subst.
Qed.


(** The whole exchange, run: the console's call pauses and switches to the
    service, the service answers, and the call returns status 0. *)
Definition fs_exchange (k : Kernel) : option (option TaskId * option N) :=
  match send_fs_msg (L := example_layout) 5 0x9000 0 0 [47; 97] [] k with
  | Ret (Paused resume, k2) =>
      match service_round (L := example_layout) fs_service 5 FsStore_new k2 with
      | Ret (Done _, k4) =>
          match resume (set_current SHELL k4) with
          | Ret (Done (Ok reply), _) => Some (s_current_task_id (k_sched k2), head reply)
          | _ => None
          end
      | _ => None
      end
  | _ => None
  end.

Lemma fs_exchange_runs : fs_exchange fs_system = Some (Some 84, Some 0).
Proof. vm_compute. reflexivity. Qed.
