(* ===== verification/Toctou.v ===== *)
(** * The validate-and-use experiment

    Models the preemption experiment of [kernel/boot/main.rs]
    ([ipc_toctou_experiment]): a capability is validated, a window is opened in
    which timer ticks land while an adversary waits to revoke it, and the
    capability is read again.  First the window is preemptible, then it is a
    non-preemptible region.  [toctou_demonstrated] proves both outcomes for
    every placement of the ticks and every behaviour of the other tasks that
    respects the demonstration's own slots. *)

From S2P Require Import Prelude Ring Preempt Trace Capability AuditTrail Message Machine Frames.
From S2P Require Import Task Scheduler Kernel Switch Scheduling Spawn Contexts Timer.
Local Open Scope N_scope.

Definition PREEMPT_VICTIM : TaskId := 93.
Definition PREEMPT_SERVER : TaskId := 94.

(** [sched.get_task_mut(VICTIM).unwrap()] and an operation on its table. *)
Definition victim_caps {A} (op : CapTable -> Ambient -> A * CapTable * Ambient) : K A :=
  let* o := kget_task PREEMPT_VICTIM in
  match o with Some t => kcaps PREEMPT_VICTIM t op | None => klift Panic end.

Definition install_victim_cap : K (N * N) :=
  do* lock_sched in
  let* _ := victim_caps (fun ct => CapTable_kernel_revoke ct 0) in
  let* r := victim_caps (fun ct => CapTable_insert ct (mkCap (IpcChannel PREEMPT_SERVER) true true false false 0 None)) in
  match r with
  | Err _ => klift Panic
  | Ok slot =>
      let* o := victim_caps (fun ct a => let '(r, a') := CapTable_get ct slot a in (r, ct, a')) in
      match o with
      | None => klift Panic
      | Some cap => do* unlock_sched in kret (slot, cap_id cap)
      end
  end.

Definition victim_cap_id (slot : N) : K (option N) :=
  do* lock_sched in
  let* o := kget_task PREEMPT_VICTIM in
  match o with
  | None => do* unlock_sched in kret None
  | Some t => let* oc := kcap_get t slot in do* unlock_sched in kret (cap_id <$> oc)
  end.

Section experiment.
Context `{L : Layout}.

(** One turn of a spinning loop: undisturbed, or interrupted by the timer.  If the
    interrupt gives the processor away, [away] is what the other tasks do before
    the loop gets it back. *)
Inductive Turn : Type := Quiet | Tick (away : Kernel -> Kernel).

Definition turn (ev : Turn) : K unit :=
  match ev with
  | Quiet => kret tt
  | Tick away => let* switched := timer_isr in if switched : bool then kmod away else kret tt
  end.

(** [spin_until_window_tick] over the turns of its loop; [OutOfFuel]: still
    spinning when they end. *)
Fixpoint spin_until_window_tick (turns : list Turn) (spins : N) : K N :=
  let* window_ticks := kget (fun k => ps_window_ticks (am_preempt (k_amb k))) in
  if (window_ticks =? 0) && (spins <? 200000000) then
    match turns with
    | [] => fun _ => OutOfFuel
    | ev :: turns' => do* turn ev in spin_until_window_tick turns' (spins + 1)
    end
  else kret window_ticks.

(** What one half of the experiment observes: the capability at validation and at
    use, whether the adversary fired, and the ticks in the window. *)
Record Race : Type := mkRace { rc_validated : option N; rc_at_use : option N; rc_fired : bool; rc_ticks : N }.

Definition vulnerable_window (turns : list Turn) : K Race :=
  let* (slot, _) := install_victim_cap in
  do* kmod (on_preempt (arm_adversary PREEMPT_VICTIM slot)) in
  do* kmod (on_preempt reset_window_ticks) in
  let* validated := victim_cap_id slot in
  do* kmod (on_preempt enter_ipc_window) in
  let* wt_vuln := spin_until_window_tick turns 0 in
  do* kmod (on_preempt exit_ipc_window) in
  let* at_use := victim_cap_id slot in
  let* fired := kget (fun k => adversary_fired_in_window (am_preempt (k_amb k))) in
  kret (mkRace validated at_use fired wt_vuln).

Definition guarded_window (turns : list Turn) : K Race :=
  let* (slot2, _) := install_victim_cap in
  do* kmod (on_preempt (arm_adversary PREEMPT_VICTIM slot2)) in
  do* kmod (on_preempt reset_window_ticks) in
  do* kmod (on_preempt enter_critical) in
  let* validated2 := victim_cap_id slot2 in
  do* kmod (on_preempt enter_ipc_window) in
  let* wt_guard := spin_until_window_tick turns 0 in
  do* kmod (on_preempt exit_ipc_window) in
  let* at_use2 := victim_cap_id slot2 in
  do* kmod (on_preempt exit_critical) in
  let* fired2 := kget (fun k => adversary_fired_in_window (am_preempt (k_amb k))) in
  kret (mkRace validated2 at_use2 fired2 wt_guard).

Definition ipc_toctou_experiment (turns1 turns2 : list Turn) : K (Race * Race) :=
  do* kmod (on_machine (on_cpu sti)) in
  let* vulnerable := vulnerable_window turns1 in
  let* guarded := guarded_window turns2 in
  do* kmod (on_preempt disarm_adversary) in
  kret (vulnerable, guarded).
End experiment.

(** ** What the experiment looks at *)

Definition victim_table (k : Kernel) : option CapTable := t_cap_table <$> task_slot (k_sched k) PREEMPT_VICTIM.

(** The preemption state without its statistics. *)
Record mode : Type := mkMode {
  md_armed : bool; md_depth : N; md_window : bool; md_revoke : N; md_revoke_task : N; md_fired : bool
}.
Definition mode_of (p : PreemptState) : mode :=
  mkMode (ps_armed p) (ps_preempt_count p) (ps_in_ipc_window p) (ps_pending_revoke p) (ps_pending_revoke_task p) (ps_revoke_fired p).
Definition kmode (k : Kernel) : mode := mode_of (am_preempt (k_amb k)).
Definition window_ticks (k : Kernel) : N := ps_window_ticks (am_preempt (k_amb k)).

(** Other tasks may do anything that keeps the kernel well formed, the victim's
    table and the mode, and does not lose the ticks counted in the window. *)
Record respects (k k' : Kernel) : Prop := {
  rs_wf : kernel_wf k';
  rs_victim : victim_table k' = victim_table k;
  rs_mode : kmode k' = kmode k;
  rs_ticks : window_ticks k <> 0 -> window_ticks k' <> 0
}.

Definition turn_ok (ev : Turn) : Prop :=
  match ev with Quiet => True | Tick away => forall k, kernel_wf k -> respects k (away k) end.

(** ** Rescheduling *)

(** The tables of all tasks agree. *)
Definition same_tables (s s' : Scheduler) : Prop :=
  forall j, t_cap_table <$> task_slot s' j = t_cap_table <$> task_slot s j.

Lemma handoff_tables c n s : c <> Some n -> same_tables s (handoff c n s).
Proof.
  intros Hcn j. rewrite handoff_slot by done. repeat case_decide; destruct (task_slot s j); try done. simpl. unfold slept. by case_match.
Qed.

Lemma save_rsp_frame c rsp k :
  sched_wf (k_sched k) ->
  let k' := save_rsp (SaveTask c) rsp k in
  sched_wf (k_sched k') /\ same_tables (k_sched k) (k_sched k') /\ k' = set_k_sched (k_sched k') k.
Proof.
  intros [Hlen Hid Hwf]. simpl. destruct (task_slot (k_sched k) c) as [t|] eqn:Ht; [|split; [done|]; split; [done|]; unfold on_sched; by rewrite Ht].
  pose proof (task_slot_lt _ _ _ Ht) as Hc. split; [split|split].
  - by rewrite put_slot_len.
  - intros i ti. rewrite task_slot_put by done. case_decide; [|apply Hid]. intros [= <-]. subst. simpl. by apply Hid.
  - intros i ti. rewrite task_slot_put by done. case_decide; [|apply Hwf]. intros [= <-]. destruct (Hwf _ _ Ht). by split.
  - intros j. rewrite task_slot_put by done. case_decide; [subst; by rewrite Ht|done].
  - unfold on_sched. by rewrite Ht.
Qed.

Section reschedule.
Context `{L : Layout}.

Lemma preempt_reschedule_frame k :
  kernel_wf k ->
  exists sw k', preempt_reschedule k = Ret (sw, k') /\ kernel_wf k' /\ same_tables (k_sched k) (k_sched k') /\
    kmode k' = kmode k /\ window_ticks k' = window_ticks k.
Proof.
  intros Hk. pose proof (preempt_plan_spec k Hk) as (plan & k1 & Hrun & Hp)%wp_run.
  unfold preempt_reschedule, kbind. rewrite Hrun. cbn [obind].
  assert (plan = no_switch /\ k1 = k -> exists sw k', perform_switch preempt_resume (on_preempt note_preemption) plan k1 = Ret (sw, k') /\
    kernel_wf k' /\ same_tables (k_sched k) (k_sched k') /\ kmode k' = kmode k /\ window_ticks k' = window_ticks k) as Hnone.
  { intros [-> ->]. by exists false, k. }
  destruct (current_idx (k_sched k)) as [c|] eqn:Hc; [|by apply Hnone].
  destruct (yield_choice (k_sched k)) as [[curr n]|] eqn:Hy; [|by apply Hnone].
  destruct (yield_choice_spec _ _ _ Hy) as (Hcur & Hne & _). rewrite Hc in Hcur. subst curr.
  destruct Hp as (a & tn & (Ha & _) & Htn & -> & ->). pose proof Hk as [Hs Hl Hau].
  unfold perform_switch. cbn [pl_save pl_rsp]. destruct (t_rsp tn =? 0).
  - eexists false, _. split; [reflexivity|]. split; [split; [by apply handoff_wf|done..]|]. split; [by apply handoff_tables|].
    unfold kmode, window_ticks. ksimp. by rewrite Ha.
  - unfold kbind, kmod, kret. cbn [obind]. set (k2 := on_preempt note_preemption _). destruct (call_switch_context _ _ _) as [old mc].
    assert (sched_wf (k_sched (set_k_machine mc k2))) as Hs2 by by apply handoff_wf.
    destruct (save_rsp_frame c old (set_k_machine mc k2) Hs2) as (Hs3 & Ht3 & He).
    eexists true, _. split; [reflexivity|]. rewrite He. split; [by split|]. split; [|split].
    + intros j. ksimp. rewrite (Ht3 j). by apply (handoff_tables (Some c) n).
    + unfold kmode, k2. ksimp. by rewrite Ha.
    + unfold window_ticks, k2. ksimp. by rewrite Ha.
Qed.
End reschedule.

(** ** The victim's capability *)

Lemma wp_victim_caps {A} (op : CapTable -> Ambient -> A * CapTable * Ambient) t r ct a (Q : A -> Kernel -> Prop) k :
  sched_wf (k_sched k) -> task_slot (k_sched k) PREEMPT_VICTIM = Some t -> op (t_cap_table t) (k_amb k) = (r, ct, a) ->
  Q r (set_k_amb a (on_sched (fun s => get_task_mut s PREEMPT_VICTIM (set_t_cap_table ct)) k)) -> wp (victim_caps op) Q k.
Proof.
  intros Hs Ht Hop HQ. unfold victim_caps, kget_task. apply wp_kbind, wp_kget. rewrite get_task_wf, Ht by done. by eapply wp_kcaps.
Qed.

(** The table holds [cap] in [slot]. *)
Definition victim_holds (k : Kernel) (slot : N) (cap : Capability) : Prop :=
  exists ct, victim_table k = Some ct /\ cap_at ct slot = Some cap.

Lemma install_victim_cap_spec k :
  kernel_wf k -> is_Some (victim_table k) ->
  wp install_victim_cap (fun '(slot, id) k' => kernel_wf k' /\ am_preempt (k_amb k') = am_preempt (k_amb k) /\
    slot < MAX_CAPS /\ exists cap, victim_holds k' slot cap /\ cap_id cap = id) k.
Proof.
  intros Hk [ct0 Hct]. pose proof Hk as [Hs Hl Ha]. unfold victim_table in Hct.
  destruct (task_slot (k_sched k) PREEMPT_VICTIM) as [t|] eqn:Ht; [|done].
  pose proof (sched_wf_task _ Hs _ _ Ht) as Hwt. pose proof (task_wf_caps _ Hwt) as Hc0.
  unfold install_victim_cap. apply wp_kbind, wp_lock_sched; [done|]. apply wp_kbind.
  destruct (CapTable_kernel_revoke_spec (t_cap_table t) 0 (k_amb k) Hc0) as (ct1 & a1 & Hrev & Hc1 & (Hp1 & _) & Hat1).
  eapply wp_victim_caps; [done..|]. apply wp_kbind.
  set (s1 := get_task_mut (k_sched k) PREEMPT_VICTIM (set_t_cap_table ct1)).
  assert (sched_wf s1) as Hs1 by (apply get_task_mut_wf; [done|]; intros ? []; split; [done|by split]).
  assert (task_slot s1 PREEMPT_VICTIM = Some (set_t_cap_table ct1 t)) as Ht1 by (unfold s1; by rewrite get_task_mut_slot, decide_True, Ht).
  set (cap := mkCap (IpcChannel PREEMPT_SERVER) true true false false 0 None).
  destruct (CapTable_insert_spec ct1 cap a1 Hc1) as (r & ct2 & a2 & Hins & Hc2 & (Hp2 & _) & Hr).
  eapply (wp_victim_caps _ (set_t_cap_table ct1 t)); [done..|]. destruct r as [slot|].
  2: { exfalso. destruct Hr as (_ & _ & Hfull). destruct (Hfull 0) as [x Hx]; [done|]. rewrite Hat1, decide_True in Hx by done. done. }
  destruct Hr as (_ & Hslot & _ & _ & Hat2). ksimp.
  set (s2 := get_task_mut s1 PREEMPT_VICTIM (set_t_cap_table ct2)).
  assert (sched_wf s2) as Hs2 by (apply get_task_mut_wf; [done|]; intros ? []; split; [done|by split]).
  assert (task_slot s2 PREEMPT_VICTIM = Some (set_t_cap_table ct2 t)) as Ht2 by (unfold s2; by rewrite get_task_mut_slot, decide_True, Ht1).
  destruct (CapTable_get_spec ct2 slot a2) as (a3 & Hget & (Hp3 & _)). apply wp_kbind.
  eapply (wp_victim_caps _ (set_t_cap_table ct2 t) (cap_at ct2 slot) ct2 a3); [done..| |].
  { cbn [t_cap_table set_t_cap_table]. ksimp. by rewrite Hget. }
  rewrite Hat2, decide_True by done. apply wp_kbind, wp_unlock_sched, wp_kret. ksimp.
  split; [split; ksimp; [|done..]|split; [|split; [done|]]].
  - apply get_task_mut_wf; [done|]. intros ? []. split; [done|by split].
  - simpl in Hp2; congruence.
  - eexists. split; [|done]. exists ct2. split; [|by rewrite Hat2, decide_True].
    pose proof (get_task_mut_slot s2 PREEMPT_VICTIM (set_t_cap_table ct2) PREEMPT_VICTIM Hs2) as He.
    rewrite decide_True, Ht2 in He by done. exact (f_equal (fmap t_cap_table) He).
Qed.

Lemma victim_cap_id_spec slot (Q : option N -> Kernel -> Prop) k :
  kernel_wf k ->
  (forall a, traced (k_amb k) a -> Q (cap_id <$> (ct ← victim_table k; cap_at ct slot)) (set_k_amb a k)) ->
  wp (victim_cap_id slot) Q k.
Proof.
  intros [Hs Hl Ha] HQ. unfold victim_cap_id, kget_task. apply wp_kbind, wp_lock_sched; [done|]. apply wp_kbind, wp_kget. ksimp.
  rewrite get_task_wf by done. unfold victim_table in HQ.
  assert (forall a, set_k_sched_locked false (set_k_amb a (set_k_sched_locked true k)) = set_k_amb a k) as Hun.
  { intros a. destruct k. simpl in *. by subst. }
  destruct (task_slot (k_sched k) PREEMPT_VICTIM) as [t|]; simpl in HQ.
  - apply wp_kbind, wp_kcap_get. intros a Htr. apply wp_kbind, wp_unlock_sched, wp_kret. rewrite Hun. by apply HQ.
  - apply wp_kbind, wp_unlock_sched, wp_kret. specialize (HQ (k_amb k) ltac:(reflexivity)). destruct k. simpl in *. by subst.
Qed.

(** ** One tick *)

Section ticks.
Context `{L : Layout}.

(** The adversary is waiting for [slot] and ticks may act. *)
Definition armed_mode (slot : N) : mode := mkMode true 0 true slot PREEMPT_VICTIM false.
(** It has struck. *)
Definition struck_mode : mode := mkMode true 0 true NO_REVOKE PREEMPT_VICTIM true.

Lemma tick_fires slot k ct :
  kernel_wf k -> kmode k = armed_mode slot -> slot < MAX_CAPS -> victim_table k = Some ct ->
  exists sw k' ct', timer_isr k = Ret (sw, k') /\ kernel_wf k' /\ kmode k' = struck_mode /\
    window_ticks k' = wadd64 (window_ticks k) 1 /\ victim_table k' = Some ct' /\ cap_at ct' slot = None.
Proof.
  intros Hk Hm Hslot Hct. pose proof Hk as [Hs Hl Ha]. unfold victim_table in Hct.
  destruct (task_slot (k_sched k) PREEMPT_VICTIM) as [t|] eqn:Ht; [|done]. injection Hct as <-.
  injection Hm as Har Hdep Hwin Hrev Htask Hfired.
  set (k1 := on_preempt (fun p => count_window_tick (count_tick p)) k).
  assert (exists k2 ct2 , maybe_fire_adversary k1 = Ret (tt, k2) /\ kernel_wf k2 /\ kmode k2 = struck_mode /\
    window_ticks k2 = wadd64 (window_ticks k) 1 /\ victim_table k2 = Some ct2 /\ cap_at ct2 slot = None) as (k2 & ct2 & Hf & Hk2 & Hm2 & Hw2 & Hv2 & Hc2).
  { pose proof (task_wf_caps _ (sched_wf_task _ Hs _ _ Ht)) as Hc0.
    destruct (CapTable_kernel_revoke_spec (t_cap_table t) slot (k_amb k1) Hc0) as (ct1 & a1 & Hop & Hc1 & (Hp1 & _) & Hat).
    assert (wp maybe_fire_adversary (fun _ k2 => kernel_wf k2 /\ kmode k2 = struck_mode /\ window_ticks k2 = wadd64 (window_ticks k) 1 /\
      victim_table k2 = Some ct1) k1) as Hw.
    { unfold maybe_fire_adversary, kget_task. apply wp_kbind, wp_kget.
      change (ps_pending_revoke (am_preempt (k_amb k1))) with (ps_pending_revoke (am_preempt (k_amb k))). rewrite Hrev.
      rewrite (proj2 (N.eqb_neq _ _)); [|intros ->; by apply (N.lt_irrefl 32), (N.lt_trans _ NO_REVOKE)].
      apply wp_kbind, wp_kget. change (ps_pending_revoke_task (am_preempt (k_amb k1))) with (ps_pending_revoke_task (am_preempt (k_amb k))).
      rewrite Htask. apply wp_kbind. unfold wp at 1, try_lock_sched. change (k_sched_locked k1) with (k_sched_locked k). rewrite Hl. cbn [negb].
      apply wp_kbind, wp_kget. ksimp. change (k_sched k1) with (k_sched k). rewrite get_task_wf, Ht by done. apply wp_kbind, wp_kbind. eapply wp_kcaps; [exact Hop|].
      apply wp_kmod, wp_unlock_sched. split_and!.
      - split; ksimp; [|done..]. apply get_task_mut_wf; [done|]. intros ? []. split; [done|by split].
      - unfold kmode. ksimp. rewrite Hp1. unfold k1, mode_of. ksimp. simpl. by rewrite Har, Hdep, Hwin, Htask.
      - unfold window_ticks. ksimp. simpl. rewrite Hp1. done.
      - unfold victim_table. ksimp. change (k_sched k1) with (k_sched k). by rewrite get_task_mut_slot, decide_True, Ht. }
    apply wp_run in Hw as ([] & k2 & Hrun & H1 & H2 & H3 & H4). exists k2, ct1. split_and!; [done..|]. by rewrite Hat, decide_True. }
  destruct (preempt_reschedule_frame k2 Hk2) as (sw & k3 & Hrun3 & Hk3 & Htab & Hm3 & Hw3).
  exists sw, k3, ct2. split.
  - unfold timer_isr, on_tick_should_switch, kbind, kmod, kget, kret. cbn [obind]. ksimp. simpl. rewrite Hwin. cbn [obind]. ksimp. simpl.
    rewrite Har. simpl. unfold in_critical. simpl. rewrite Hdep. simpl. 
    change (set_k_amb _ (set_k_amb _ k)) with k1. rewrite Hf. cbn [obind]. done.
  - split_and!; [done|congruence|congruence| |done]. unfold victim_table in *. rewrite <- Hv2. apply Htab.
Qed.

(** ** The window *)

(** A tick lands before the loop gives up. *)
Definition tick_lands (turns : list Turn) : Prop :=
  exists n away post, turns = replicate n Quiet ++ Tick away :: post /\ N.of_nat n < 200000000.

Lemma spin_ended turns spins k : window_ticks k <> 0 -> spin_until_window_tick turns spins k = Ret (window_ticks k, k).
Proof.
  intros Hw. unfold window_ticks in *. destruct turns; simpl; unfold kbind, kget; cbn [obind]; by rewrite (proj2 (N.eqb_neq _ _) Hw).
Qed.

Lemma spin_quiet n turns : forall spins k,
  window_ticks k = 0 -> spins + N.of_nat n < 200000000 ->
  spin_until_window_tick (replicate n Quiet ++ turns) spins k = spin_until_window_tick turns (spins + N.of_nat n) k.
Proof.
  induction n as [|n IH]; intros spins k Hw Hs; [by rewrite N.add_0_r|]. cbn [replicate app spin_until_window_tick].
  unfold kbind at 1, kget. cbn [obind]. fold (window_ticks k). rewrite Hw, (proj2 (N.ltb_lt _ _)) by lia. simpl.
  unfold kbind, kret. cbn [obind]. rewrite IH by (done || lia). f_equal. lia.
Qed.

Lemma spin_tick away post spins k :
  window_ticks k = 0 -> spins < 200000000 ->
  spin_until_window_tick (Tick away :: post) spins k =
    let! (_, k') := turn (Tick away) k in spin_until_window_tick post (spins + 1) k'.
Proof.
  intros Hw Hs. cbn [spin_until_window_tick]. unfold kbind at 1, kget. cbn [obind]. fold (window_ticks k).
  by rewrite Hw, (proj2 (N.ltb_lt _ _) Hs).
Qed.

(** A preemptible window: the capability is gone when the loop ends. *)
Lemma spin_vulnerable slot turns k ct :
  kernel_wf k -> kmode k = armed_mode slot -> slot < MAX_CAPS -> victim_table k = Some ct -> window_ticks k = 0 ->
  Forall turn_ok turns -> tick_lands turns ->
  wp (spin_until_window_tick turns 0) (fun wt k' => wt <> 0 /\ kernel_wf k' /\ kmode k' = struck_mode /\
    exists ct', victim_table k' = Some ct' /\ cap_at ct' slot = None) k.
Proof.
  intros Hk Hm Hslot Hct Hw Hok (n & away & post & -> & Hn). unfold wp. rewrite spin_quiet by (done || lia). rewrite N.add_0_l.
  apply Forall_app in Hok as [_ [Haway _]%Forall_cons]. simpl in Haway.
  destruct (tick_fires slot k ct Hk Hm Hslot Hct) as (sw & k1 & ct1 & Hrun & Hk1 & Hm1 & Hw1 & Hv1 & Hc1).
  rewrite spin_tick by done. cbn [turn]. unfold kbind at 1. rewrite Hrun. cbn [obind]. rewrite Hw in Hw1.
  destruct sw; unfold kmod, kret; cbn [obind].
  - destruct (Haway k1 Hk1) as [Hk2 Hv2 Hm2 Ht2]. rewrite Hw1 in Ht2. rewrite spin_ended by by apply Ht2.
    split; [by apply Ht2|]. split; [done|]. split; [congruence|]. exists ct1. split; [congruence|done].
  - rewrite spin_ended by by rewrite Hw1. split; [by rewrite Hw1|]. split; [done|]. split; [done|]. by exists ct1.
Qed.

(** A non-preemptible window: ticks land and change nothing that matters. *)
Lemma spin_guarded turns k :
  kernel_wf k -> md_depth (kmode k) <> 0 -> md_window (kmode k) = true -> window_ticks k = 0 -> tick_lands turns ->
  wp (spin_until_window_tick turns 0) (fun wt k' => wt <> 0 /\ kernel_wf k' /\ kmode k' = kmode k /\ victim_table k' = victim_table k) k.
Proof.
  intros Hk Hd Hwin Hw (n & away & post & -> & Hn). unfold wp. rewrite spin_quiet by (done || lia). rewrite N.add_0_l.
  rewrite spin_tick by done. cbn [turn]. unfold kbind at 1. rewrite deferred_tick_spec.
  2: { left. unfold in_critical. change (md_depth (kmode k)) with (ps_preempt_count (am_preempt (k_amb k))) in Hd. by rewrite (proj2 (N.eqb_neq _ _) Hd). }
  cbn [obind]. unfold kret. cbn [obind]. set (k1 := on_preempt deferred_tick k).
  assert (kmode k1 = kmode k /\ window_ticks k1 = wadd64 (window_ticks k) 1) as [Hm1 Hw1].
  { unfold kmode, window_ticks, k1, mode_of. ksimp. unfold deferred_tick, tick_counters. simpl in Hwin. rewrite Hwin.
    destruct (ps_armed (am_preempt (k_amb k))) eqn:Har; simpl; by rewrite Har, Hwin. }
  rewrite Hw in Hw1. rewrite spin_ended by by rewrite Hw1. split; [by rewrite Hw1|]. split; [by apply on_preempt_wf|]. done.
Qed.
End ticks.

(** ** The experiment *)

Section results.
Context `{L : Layout}.

Lemma wp_on_preempt f (Q : unit -> Kernel -> Prop) k : kernel_wf k -> (kernel_wf (on_preempt f k) -> Q tt (on_preempt f k)) -> wp (kmod (on_preempt f)) Q k.
Proof. intros Hk HQ. apply wp_kmod, HQ. by apply on_preempt_wf. Qed.

(** Between demonstrations: preemption armed, no region open. *)
Definition idle_mode (k : Kernel) : Prop := md_armed (kmode k) = true /\ md_depth (kmode k) = 0.

Lemma vulnerable_window_spec turns k :
  kernel_wf k -> is_Some (victim_table k) -> idle_mode k -> Forall turn_ok turns -> tick_lands turns ->
  wp (vulnerable_window turns) (fun r k' => kernel_wf k' /\ is_Some (victim_table k') /\ idle_mode k' /\
    exists v wt, wt <> 0 /\ r = mkRace (Some v) None true wt) k.
Proof.
  intros Hk Hv [Har Hdep] Hok Hland. unfold vulnerable_window. apply wp_kbind.
  eapply wp_mono; [by apply install_victim_cap_spec|]. intros [slot id] k1 (Hk1 & Hp1 & Hslot & cap & (ct & Hct & Hcap) & Hid).
  apply wp_kbind, wp_on_preempt; [done|]. intros Hk2. apply wp_kbind, wp_on_preempt; [done|]. intros Hk3.
  apply wp_kbind, victim_cap_id_spec; [done|]. intros a (Ha & _).
  change (victim_table (on_preempt reset_window_ticks _)) with (victim_table k1). rewrite Hct. cbn [mbind option_bind]. rewrite Hcap.
  set (k4 := set_k_amb a _). assert (kernel_wf k4) as Hk4 by by destruct Hk3.
  apply wp_kbind, wp_on_preempt; [done|]. intros Hk5. set (k5 := on_preempt enter_ipc_window k4) in *. apply wp_kbind.
  eapply wp_mono; [apply (spin_vulnerable slot turns k5 ct)|]; try done.
  - unfold kmode, k5, k4. ksimp. rewrite Ha. ksimp. rewrite Hp1. unfold kmode in Har, Hdep. unfold mode_of, armed_mode in *. simpl in *. by rewrite Har, Hdep.
  - unfold window_ticks, k5, k4. ksimp. simpl. by rewrite Ha.
  - intros wt k6 (Hwt & Hk6 & Hm6 & ct6 & Hct6 & Hcap6). apply wp_kbind, wp_on_preempt; [done|]. intros Hk7.
    apply wp_kbind, victim_cap_id_spec; [done|]. intros a7 (Ha7 & _). change (victim_table (on_preempt exit_ipc_window k6)) with (victim_table k6).
    rewrite Hct6. cbn [mbind option_bind]. rewrite Hcap6. apply wp_kbind, wp_kget, wp_kret.
    change (k_amb (set_k_amb a7 ?k)) with a7. rewrite Ha7. unfold kmode, mode_of in Hm6. injection Hm6 as H1 H2 H3 H4 H5 H6.
    split; [by destruct Hk7|]. split; [exists ct6; exact Hct6|]. split.
    + unfold idle_mode, kmode. change (k_amb (set_k_amb a7 ?k)) with a7. rewrite Ha7. done.
    + eexists _, wt. split; [done|]. unfold adversary_fired_in_window. simpl. by rewrite H6.
Qed.

Lemma guarded_window_spec turns k :
  kernel_wf k -> is_Some (victim_table k) -> idle_mode k -> tick_lands turns ->
  wp (guarded_window turns) (fun r k' => kernel_wf k' /\ idle_mode k' /\
    exists u wt, wt <> 0 /\ r = mkRace (Some u) (Some u) false wt) k.
Proof.
  intros Hk Hv [Har Hdep] Hland. unfold guarded_window. apply wp_kbind.
  eapply wp_mono; [by apply install_victim_cap_spec|]. intros [slot id] k1 (Hk1 & Hp1 & Hslot & cap & (ct & Hct & Hcap) & Hid).
  apply wp_kbind, wp_on_preempt; [done|]. intros Hk2. apply wp_kbind, wp_on_preempt; [done|]. intros Hk3.
  apply wp_kbind, wp_on_preempt; [done|]. intros Hk3'. apply wp_kbind, victim_cap_id_spec; [done|]. intros a (Ha & _).
  change (victim_table (on_preempt enter_critical _)) with (victim_table k1). rewrite Hct. cbn [mbind option_bind]. rewrite Hcap.
  set (k4 := set_k_amb a _). assert (kernel_wf k4) as Hk4 by by destruct Hk3'.
  apply wp_kbind, wp_on_preempt; [done|]. intros Hk5. set (k5 := on_preempt enter_ipc_window k4) in *. apply wp_kbind.
  assert (kmode k5 = mkMode true 1 true slot PREEMPT_VICTIM false) as Hm5.
  { unfold kmode, k5, k4. ksimp. rewrite Ha. ksimp. rewrite Hp1. unfold kmode in Har, Hdep. unfold mode_of in *. simpl in *. by rewrite Har, Hdep. }
  eapply wp_mono; [apply (spin_guarded turns k5)|]; try done; rewrite ?Hm5; try done.
  { unfold window_ticks, k5, k4. ksimp. simpl. by rewrite Ha. }
  intros wt k6 (Hwt & Hk6 & Hm6 & Hct6). apply wp_kbind, wp_on_preempt; [done|]. intros Hk7.
  apply wp_kbind, victim_cap_id_spec; [done|]. intros a7 (Ha7 & _). change (victim_table (on_preempt exit_ipc_window k6)) with (victim_table k6).
  rewrite Hct6. change (victim_table k5) with (victim_table k1). rewrite Hct. cbn [mbind option_bind]. rewrite Hcap.
  set (k8 := set_k_amb a7 _). assert (kernel_wf k8) as Hk8 by by destruct Hk7.
  apply wp_kbind, wp_on_preempt; [done|]. intros Hk9. apply wp_kbind, wp_kget, wp_kret.
  unfold kmode, mode_of in Hm6. injection Hm6 as H1 H2 H3 H4 H5 H6.
  split; [done|]. split.
  - unfold idle_mode, kmode, k8. ksimp. rewrite Ha7. simpl. by rewrite H1, H2.
  - eexists _, wt. split; [done|]. unfold adversary_fired_in_window, k8. ksimp. rewrite Ha7. simpl. by rewrite H6.
Qed.

(** C22: The check-to-use race exists under preemption and non-preemptible regions
    remove it.  Run the experiment with preemption armed, with timer ticks landing
    at any turn of its loops and the other tasks doing anything that respects its
    slots.  It always completes.  In the preemptible window the capability that
    was validated is gone at use and the adversary has fired.  In the
    non-preemptible window a tick lands as well, and the capability is the one
    validated, with the adversary never fired. *)
Theorem toctou_demonstrated turns1 turns2 k :
  kernel_wf k -> is_Some (victim_table k) -> idle_mode k ->
  Forall turn_ok turns1 -> tick_lands turns1 -> tick_lands turns2 ->
  exists v u wt1 wt2 k',
    ipc_toctou_experiment turns1 turns2 k =
      Ret ((mkRace (Some v) None true wt1, mkRace (Some u) (Some u) false wt2), k') /\
    wt1 <> 0 /\ wt2 <> 0 /\ kernel_wf k' /\ idle_mode k' /\ md_revoke (kmode k') = NO_REVOKE.
Proof.
  intros Hk Hv Hi Hok H1 H2.
  assert (wp (ipc_toctou_experiment turns1 turns2) (fun r k' => exists v u wt1 wt2,
    r = (mkRace (Some v) None true wt1, mkRace (Some u) (Some u) false wt2) /\
    wt1 <> 0 /\ wt2 <> 0 /\ kernel_wf k' /\ idle_mode k' /\ md_revoke (kmode k') = NO_REVOKE) k) as Hw.
  { unfold ipc_toctou_experiment. apply wp_kbind, wp_kmod, wp_kbind. eapply wp_mono; [apply vulnerable_window_spec|]; try done.
    { by apply cli_kernel_wf. }
    intros r k1 (Hk1 & Hv1 & Hi1 & v & wt1 & Hwt1 & ->). apply wp_kbind. eapply wp_mono; [by apply guarded_window_spec|].
    intros r k2 (Hk2 & Hi2 & u & wt2 & Hwt2 & ->). apply wp_kbind, wp_on_preempt; [done|]. intros Hk3. apply wp_kret.
    by exists v, u, wt1, wt2. }
  apply wp_run in Hw as (r & k' & Hrun & v & u & wt1 & wt2 & -> & Hrest). by exists v, u, wt1, wt2, k'.
Qed.
End results.

(** The driver, a busy task and the two containers of the demonstration. *)
Definition demo_system : Kernel :=
  on_preempt (set_armed true) (set_current 90 (add_task (example_task 90 Running [])
    (add_task (example_task 91 Ready []) (add_task (example_task PREEMPT_VICTIM Terminated [])
      (add_task (example_task PREEMPT_SERVER Terminated []) Kernel_init))))).

Lemma demo_system_wf : kernel_wf demo_system.
Proof.
  apply on_preempt_wf, set_current_wf. repeat (apply add_task_wf; [apply example_task_wf; simpl; lia|]). apply Kernel_init_wf.
Qed.

Lemma toctou_demonstrated_witness :
  exists v u wt1 wt2 k',
    ipc_toctou_experiment (L := example_layout) [Quiet; Tick (fun k => k)] [Tick (fun k => k)] demo_system =
      Ret ((mkRace (Some v) None true wt1, mkRace (Some u) (Some u) false wt2), k') /\
    wt1 <> 0 /\ wt2 <> 0 /\ kernel_wf k' /\ idle_mode k' /\ md_revoke (kmode k') = NO_REVOKE.
Proof.
  apply toctou_demonstrated.
  - apply demo_system_wf.
  - eexists. vm_compute. reflexivity.
  - split; reflexivity.
  - constructor; [exact I|]. constructor; [|constructor]. intros k Hk. split; [exact Hk|reflexivity|reflexivity|]. intros H. exact H.
  - exists 1%nat, (fun k => k), []. split; reflexivity.
  - exists 0%nat, (fun k => k), []. split; reflexivity.
Defined.
