(* ===== verification/Descriptors.v ===== *)
(** * Descriptor tables and interrupt controllers

    Models the tables the kernel hands to the processor: the segment descriptors
    and TSS of [kernel/arch/x86_64/gdt.rs], the interrupt gates, the PIC remapping
    and the PIT rate of [kernel/interrupts/mod.rs].  The tables are read back with
    the processor's own field layout: [gates_exact] shows which vectors lead
    where, and that the system call is the only gate a user program can enter. *)

From S2P Require Import Prelude Ring Spawn.
Local Open Scope N_scope.

(** ** Segments *)

(** The other selectors are in [Spawn]. *)
Definition TSS_SELECTOR : N := 0x28.

Definition segment (access flags : N) : N := N.lor (N.shiftl access 40) (N.shiftl (N.land flags 0x0f) 52).

(** [size_of::<Tss>()]: packed fields of 4, 3 * 8, 8, 7 * 8, 8, 2 and 2 bytes. *)
Definition TSS_SIZE : N := 4 + 3 * 8 + 8 + 7 * 8 + 8 + 2 + 2.

(** The two words of the TSS descriptor. *)
Definition tss_low (tss_base tss_limit : N) : N :=
  N.lor (N.lor (N.lor (N.lor (N.lor (N.land tss_limit 0xffff)
    (N.shiftl (N.land tss_base 0xffff) 16))
    (N.shiftl (N.land (N.shiftr tss_base 16) 0xff) 32))
    (N.shiftl 0x89 40))
    (N.shiftl (N.land (N.shiftr tss_limit 16) 0xf) 48))
    (N.shiftl (N.land (N.shiftr tss_base 24) 0xff) 56).
Definition tss_high (tss_base : N) : N := N.land (N.shiftr tss_base 32) 0xffffffff.

(** [GDTS], the [rsp0] fields of [TSSS] and [GDT], one row per processor. *)
Record Gdt : Type := mkGdt { gd_tables : list (list N); gd_rsp0 : list N; gd_boot : list N }.
Definition Gdt_init : Gdt := mkGdt (replicate 4 (replicate 7 0)) (replicate 4 0) (replicate 7 0).

Definition KSTACK_SIZE : N := 16 * 1024.

(** [init_cpu], with the addresses of [TSSS[cpu_id]] and [KERNEL_STACKS[cpu_id]];
    the instructions that load the registers are not modelled. *)
Definition init_cpu (tss_base kstack : N) (cpu_id : N) (g : Gdt) : outcome Gdt :=
  let tss_limit := TSS_SIZE - 1 in
  let! gdt := arr_get (gd_tables g) cpu_id in
  let! gdt := arr_set gdt 1 (segment 0x9a 0x2) in
  let! gdt := arr_set gdt 2 (segment 0x92 0x0) in
  let! gdt := arr_set gdt 3 (segment 0xfa 0x2) in
  let! gdt := arr_set gdt 4 (segment 0xf2 0x0) in
  let! gdt := arr_set gdt 5 (tss_low tss_base tss_limit) in
  let! gdt := arr_set gdt 6 (tss_high tss_base) in
  let! tables := arr_set (gd_tables g) cpu_id gdt in
  let! kstack_top := add64 kstack KSTACK_SIZE in
  let! rsp0 := arr_set (gd_rsp0 g) cpu_id (N.ldiff kstack_top 0xf) in
  Ret (mkGdt tables rsp0 (if cpu_id =? 0 then gdt else gd_boot g)).

(** ** Gates *)

Record IdtEntry : Type := mkIdtEntry {
  ie_offset_low : N; ie_selector : N; ie_ist : N; ie_type_attr : N; ie_offset_mid : N; ie_offset_high : N; ie_zero : N
}.

Definition IdtEntry_empty : IdtEntry := mkIdtEntry 0 0 0 0 0 0 0.

Definition IdtEntry_new (handler_addr selector dpl : N) : IdtEntry :=
  mkIdtEntry (N.land handler_addr 0xffff) selector 0 (N.lor 0x8e (N.shiftl (N.land dpl 0x3) 5))
    (N.land (N.shiftr handler_addr 16) 0xffff) (N.land (N.shiftr handler_addr 32) 0xffffffff) 0.

Definition IDT_ENTRIES : N := 256.
Definition IDT_new : list IdtEntry := replicate 256 IdtEntry_empty.

Definition set_handler_dpl (vector handler_addr selector dpl : N) (idt : list IdtEntry) : outcome (list IdtEntry) :=
  arr_set idt vector (IdtEntry_new handler_addr selector dpl).
Definition set_handler (vector handler_addr selector : N) (idt : list IdtEntry) : outcome (list IdtEntry) :=
  set_handler_dpl vector handler_addr selector 0 idt.

Definition TIMER_VECTOR : N := 0x20.

(** The addresses of the entry stubs. *)
Record Handlers : Type := mkHandlers {
  hd_divide_error : N; hd_invalid_opcode : N; hd_double_fault : N; hd_general_protection : N; hd_page_fault : N;
  hd_timer : N; hd_keyboard : N; hd_ipi : N; hd_syscall : N
}.

Definition init_idt (h : Handlers) (cs : N) (idt : list IdtEntry) : outcome (list IdtEntry) :=
  let! idt := set_handler 0 (hd_divide_error h) cs idt in
  let! idt := set_handler 6 (hd_invalid_opcode h) cs idt in
  let! idt := set_handler 8 (hd_double_fault h) cs idt in
  let! idt := set_handler 13 (hd_general_protection h) cs idt in
  let! idt := set_handler 14 (hd_page_fault h) cs idt in
  let! idt := set_handler TIMER_VECTOR (hd_timer h) cs idt in
  let! idt := set_handler 0x21 (hd_keyboard h) cs idt in
  let! idt := set_handler 0x40 (hd_ipi h) cs idt in
  set_handler_dpl 0x80 (hd_syscall h) cs 3 idt.

(** ** Interrupt controllers *)

(** The port writes of [init_pic], in order. *)
Definition init_pic : list (N * N) :=
  [(0x20, 0x11); (0xA0, 0x11); (0x21, 0x20); (0xA1, 0x28); (0x21, 0x04); (0xA1, 0x02); (0x21, 0x01); (0xA1, 0x01);
   (0x21, 0xFC); (0xA1, 0xFF)].

(** [init_pit]: a zero rate divides by zero; the divisor is cut to 16 bits. *)
Definition init_pit (hz : N) : outcome (list (N * N)) :=
  if hz =? 0 then Panic
  else
    let divisor := 1193182 / hz in
    let div := divisor mod 2 ^ 16 in
    Ret [(0x43, 0x36); (0x40, N.land div 0xFF); (0x40, N.shiftr div 8)].

(** ** The processor's view *)

(** [w] bits of [a] from bit [lo]. *)
Definition bits (a lo w : N) : N := N.land (N.shiftr a lo) (N.ones w).

Record SegmentView : Type := mkSegmentView { sg_present : bool; sg_dpl : N; sg_code_data : bool; sg_type : N; sg_long : bool }.
Definition segment_view (d : N) : SegmentView :=
  mkSegmentView (N.testbit d 47) (bits d 45 2) (N.testbit d 44) (bits d 40 4) (N.testbit d 53).

Definition tss_view_base (lo hi : N) : N :=
  N.lor (N.lor (bits lo 16 24) (N.shiftl (bits lo 56 8) 24)) (N.shiftl (bits hi 0 32) 32).
Definition tss_view_limit (lo : N) : N := N.lor (bits lo 0 16) (N.shiftl (bits lo 48 4) 16).

Definition gate_present (e : IdtEntry) : bool := N.testbit (ie_type_attr e) 7.
Definition gate_dpl (e : IdtEntry) : N := bits (ie_type_attr e) 5 2.
Definition gate_type (e : IdtEntry) : N := bits (ie_type_attr e) 0 4.
Definition gate_offset (e : IdtEntry) : N :=
  N.lor (N.lor (ie_offset_low e) (N.shiftl (ie_offset_mid e) 16)) (N.shiftl (ie_offset_high e) 32).

(** ** Bit fields *)

Lemma testbit_ones w n : N.testbit (N.ones w) n = (n <? w).
Proof.
  destruct (n <? w) eqn:H; bool_to_prop; [by apply N.ones_spec_low|by apply N.ones_spec_high].
Qed.

Lemma testbit_shiftl a k n : N.testbit (N.shiftl a k) n = (k <=? n) && N.testbit a (n - k).
Proof.
  destruct (k <=? n) eqn:H; bool_to_prop; [by apply N.shiftl_spec_high'|by apply N.shiftl_spec_low].
Qed.

Lemma testbit_bits a lo w n : N.testbit (bits a lo w) n = (n <? w) && N.testbit a (n + lo).
Proof. unfold bits. by rewrite N.land_spec, testbit_ones, N.shiftr_spec', andb_comm. Qed.

Lemma testbit_above a n w : a < 2 ^ w -> w <= n -> N.testbit a n = false.
Proof.
  intros Ha Hw. destruct (decide (a = 0)) as [->|]; [apply N.bits_0|]. apply N.bits_above_log2.
  apply (N.lt_le_trans _ w); [|done]. apply N.log2_lt_pow2; lia.
Qed.

Create Rewrite HintDb testbits.
#[export] Hint Rewrite N.lor_spec N.land_spec N.shiftr_spec' testbit_ones testbit_shiftl testbit_bits : testbits.

(** Compares two words bit by bit, splitting on the comparisons of positions. *)
Ltac by_bits :=
  apply N.bits_inj; intros n; autorewrite with testbits;
  repeat match goal with
  | |- context [?a <? ?b] => destruct (a <? b) eqn:?
  | |- context [?a <=? ?b] => destruct (a <=? b) eqn:?
  end; bool_to_prop; cbn [andb orb];
  rewrite ?andb_true_r, ?andb_false_r, ?orb_false_r, ?orb_false_l; try (exfalso; lia); try (f_equal; lia);
  try (symmetry; eapply testbit_above; [eassumption|lia]).

(** The address of a gate, split over its three fields, is recovered. *)
Lemma gate_offset_new addr sel dpl : addr < 2 ^ 64 -> gate_offset (IdtEntry_new addr sel dpl) = addr.
Proof.
  intros Ha. unfold gate_offset, IdtEntry_new. cbn [ie_offset_low ie_offset_mid ie_offset_high].
  change 0xffff with (N.ones 16). change 0xffffffff with (N.ones 32). by_bits.
Qed.

(** The low [m] bits of [x], placed at bit [k] of a word. *)
Definition place (x m k : N) : N := N.shiftl (N.land x (N.ones m)) k.

Lemma bits_lor a b lo w : bits (N.lor a b) lo w = N.lor (bits a lo w) (bits b lo w).
Proof. unfold bits. by rewrite N.shiftr_lor, N.land_lor_distr_l. Qed.

Lemma bits_place_out x m k lo w : k + m <= lo \/ lo + w <= k -> bits (place x m k) lo w = 0.
Proof.
  intros H. apply N.bits_inj. intros n. unfold place. rewrite N.bits_0. autorewrite with testbits.
  destruct (n <? w) eqn:?, (k <=? n + lo) eqn:?, (n + lo - k <? m) eqn:?; bool_to_prop; cbn [andb]; rewrite ?andb_false_r; try done. lia.
Qed.

Lemma bits_place_in x m k lo w : lo <= k -> k + m <= lo + w -> bits (place x m k) lo w = place x m (k - lo).
Proof.
  intros H1 H2. apply N.bits_inj. intros n. unfold place. autorewrite with testbits.
  destruct (n <? w) eqn:?, (k <=? n + lo) eqn:?, (n + lo - k <? m) eqn:?, (k - lo <=? n) eqn:?, (n - (k - lo) <? m) eqn:?;
    bool_to_prop; cbn [andb]; rewrite ?andb_false_r; try done; try lia. f_equal. f_equal. lia.
Qed.

Create Rewrite HintDb fields.
#[export] Hint Rewrite bits_lor : fields.
#[export] Hint Rewrite bits_place_out using lia : fields.
#[export] Hint Rewrite bits_place_in using lia : fields.
#[export] Hint Rewrite N.lor_0_l N.lor_0_r : fields.

Lemma tss_low_fields base limit :
  tss_low base limit = N.lor (N.lor (N.lor (N.lor (N.lor (place limit 16 0) (place base 16 16)) (place (N.shiftr base 16) 8 32))
    (place 0x89 8 40)) (place (N.shiftr limit 16) 4 48)) (place (N.shiftr base 24) 8 56).
Proof. unfold tss_low, place. by rewrite (N.shiftl_0_r (N.land limit _)). Qed.

(** The TSS descriptor names the TSS: base and limit are recovered. *)
Lemma tss_base_recovered base limit : base < 2 ^ 64 -> tss_view_base (tss_low base limit) (tss_high base) = base.
Proof.
  intros Hb. unfold tss_view_base. rewrite tss_low_fields.
  assert (tss_high base = place (N.shiftr base 32) 32 0) as -> by (unfold tss_high, place; by rewrite N.shiftl_0_r).
  autorewrite with fields. unfold place. simpl N.sub. rewrite !N.shiftl_0_r. by_bits.
Qed.

Lemma tss_limit_recovered base limit : limit < 2 ^ 20 -> tss_view_limit (tss_low base limit) = limit.
Proof.
  intros Hl. unfold tss_view_limit. rewrite tss_low_fields. autorewrite with fields. unfold place. simpl N.sub.
  rewrite !N.shiftl_0_r. by_bits.
Qed.

(** ** The segment table *)

Definition gdt_ok (g : Gdt) : Prop :=
  lenN (gd_tables g) = 4 /\ lenN (gd_rsp0 g) = 4 /\ (forall i row, idx (gd_tables g) i = Some row -> lenN row = 7).

Lemma Gdt_init_ok : gdt_ok Gdt_init.
Proof. split_and!; [done..|]. intros i row H. rewrite idx_lookup in H. by apply lookup_replicate in H as [-> _]. Qed.

Lemma row_of_seven {A} (l : list A) : lenN l = 7 -> exists x0 x1 x2 x3 x4 x5 x6, l = [x0; x1; x2; x3; x4; x5; x6].
Proof. unfold lenN. intros H. do 7 (destruct l as [|? l]; [simpl in H; lia|]). destruct l; [by repeat eexists|simpl in H; lia]. Qed.

(** The table of processor [cpu]: its selectors name kernel code and data at level
    0, user code and data at level 3 and the processor's TSS; [rsp0] is its own
    stack, aligned; the other processors keep theirs. *)
Lemma init_cpu_spec tss_base kstack cpu g :
  gdt_ok g -> tss_base < 2 ^ 64 -> kstack + KSTACK_SIZE < u64_limit -> cpu < 4 ->
  exists g' row, init_cpu tss_base kstack cpu g = Ret g' /\ gdt_ok g' /\
    (forall i, idx (gd_tables g') i = if decide (cpu = i) then Some row else idx (gd_tables g) i) /\
    idx (gd_rsp0 g') cpu = Some (N.ldiff (kstack + KSTACK_SIZE) 0xf) /\
    segment_view <$> idx row (N.shiftr KERNEL_CODE 3) = Some (mkSegmentView true 0 true 0xa true) /\
    segment_view <$> idx row (N.shiftr KERNEL_DATA 3) = Some (mkSegmentView true 0 true 0x2 false) /\
    segment_view <$> idx row (N.shiftr USER_CODE 3) = Some (mkSegmentView true 3 true 0xa true) /\
    segment_view <$> idx row (N.shiftr USER_DATA 3) = Some (mkSegmentView true 3 true 0x2 false) /\
    exists lo hi, idx row (N.shiftr TSS_SELECTOR 3) = Some lo /\ idx row (N.shiftr TSS_SELECTOR 3 + 1) = Some hi /\
      tss_view_base lo hi = tss_base /\ tss_view_limit lo = TSS_SIZE - 1.
Proof.
  intros (Ht & Hr & Hrows) Hb Hk Hcpu. unfold init_cpu.
  destruct (arr_get_ok (gd_tables g) cpu) as (row0 & Hrow0 & ->); [lia|]. cbn [obind].
  destruct (row_of_seven row0 (Hrows _ _ Hrow0)) as (x0 & x1 & x2 & x3 & x4 & x5 & x6 & ->).
  set (row := [x0; segment 0x9a 0x2; segment 0x92 0x0; segment 0xfa 0x2; segment 0xf2 0x0; tss_low tss_base (TSS_SIZE - 1); tss_high tss_base]).
  do 6 (rewrite arr_set_ok by done; cbn [obind]).
  match goal with |- context [arr_set (gd_tables g) cpu ?r] => change r with row end.
  rewrite arr_set_ok by lia. cbn [obind]. rewrite add64_ok by done. cbn [obind]. rewrite arr_set_ok by lia. cbn [obind].
  eexists _, row. split; [reflexivity|]. split.
  { unfold gdt_ok. cbn [gd_tables gd_rsp0]. rewrite !lenN_upd. split_and!; [done..|]. intros i r. rewrite idx_upd.
    case_decide; [by intros [= <-]|apply Hrows]. }
  cbn [gd_tables gd_rsp0]. split.
  { intros i. rewrite idx_upd. destruct (decide (cpu = i)); [subst; by rewrite decide_True by (split; [done|lia])|by rewrite decide_False by tauto]. }
  split; [apply idx_upd_eq; lia|]. do 4 (split; [reflexivity|]).
  exists (tss_low tss_base (TSS_SIZE - 1)), (tss_high tss_base). split_and!; [done..|by apply tss_base_recovered|by apply tss_limit_recovered].
Qed.

(** A fifth processor has no row. *)
Lemma init_cpu_panics tss_base kstack cpu g : gdt_ok g -> 4 <= cpu -> init_cpu tss_base kstack cpu g = Panic.
Proof. intros (Ht & _) Hc. unfold init_cpu, arr_get. by rewrite idx_ge by lia. Qed.

(** ** The gates *)

(** The handler of a vector. *)
Definition handler_of (h : Handlers) (v : N) : option N :=
  match v with
  | 0 => Some (hd_divide_error h)
  | 6 => Some (hd_invalid_opcode h)
  | 8 => Some (hd_double_fault h)
  | 13 => Some (hd_general_protection h)
  | 14 => Some (hd_page_fault h)
  | 0x20 => Some (hd_timer h)
  | 0x21 => Some (hd_keyboard h)
  | 0x40 => Some (hd_ipi h)
  | 0x80 => Some (hd_syscall h)
  | _ => None
  end.

(** [int v] at privilege level [cpl] is let through by the gate. *)
Definition gate_admits (cpl : N) (e : IdtEntry) : bool := gate_present e && (cpl <=? gate_dpl e).

Lemma gate_attr_new addr sel dpl :
  dpl = 0 \/ dpl = 3 ->
  gate_present (IdtEntry_new addr sel dpl) = true /\ gate_type (IdtEntry_new addr sel dpl) = 0xE /\ gate_dpl (IdtEntry_new addr sel dpl) = dpl.
Proof. by intros [-> | ->]. Qed.

Lemma init_idt_gates h cs :
  exists idt, init_idt h cs IDT_new = Ret idt /\ lenN idt = 256 /\
    forall v, v < 256 -> idx idt v = Some (match handler_of h v with
      | Some addr => IdtEntry_new addr cs (if v =? 0x80 then 3 else 0)
      | None => IdtEntry_empty
      end).
Proof.
  unfold init_idt, set_handler, set_handler_dpl. do 9 (rewrite arr_set_ok by (rewrite ?lenN_upd; done); cbn [obind]).
  eexists. split; [reflexivity|]. split; [by rewrite !lenN_upd|]. intros v Hv.
  rewrite !idx_upd, !lenN_upd. change (lenN IDT_new) with 256.
  assert (idx IDT_new v = Some IdtEntry_empty) as Hnew by (apply idx_replicate; done).
  repeat (destruct (decide _) as [[<- _]|?]; [reflexivity|]). rewrite Hnew. f_equal.
  assert (handler_of h v = None) as ->; [|done].
  unfold handler_of. repeat case_match; try done; exfalso; subst; naive_solver.
Qed.

(** C23: The interrupt gates are the intended ones.  After initialisation each of
    the nine vectors the kernel uses has a present interrupt gate that leads to
    exactly its entry stub in the kernel's code segment, every other vector is
    absent, and the gate of the system call is the only one that a program at
    privilege level 3 can enter with an [int] instruction. *)
Theorem gates_exact h cs :
  (forall v addr, handler_of h v = Some addr -> addr < 2 ^ 64) ->
  exists idt, init_idt h cs IDT_new = Ret idt /\
    forall v, v < 256 -> exists e, idx idt v = Some e /\
      gate_present e = is_some (handler_of h v) /\
      (forall addr, handler_of h v = Some addr -> gate_offset e = addr /\ ie_selector e = cs /\ gate_type e = 0xE) /\
      gate_admits 3 e = (v =? 0x80).
Proof.
  intros Hh. destruct (init_idt_gates h cs) as (idt & Hrun & _ & Hv). exists idt. split; [done|]. intros v Hlt.
  rewrite (Hv v Hlt). eexists. split; [reflexivity|]. unfold gate_admits.
  destruct (handler_of h v) as [addr|] eqn:Hv0.
  - destruct (gate_attr_new addr cs (if v =? 0x80 then 3 else 0)) as (Hp & Ht & Hd); [destruct (v =? 0x80); auto|].
    rewrite Hp, Hd. split; [done|]. split; [|by destruct (v =? 0x80)]. intros ? [= <-].
    split; [apply gate_offset_new; by eapply Hh|]. done.
  - split; [done|]. split; [done|]. cbn. destruct (v =? 0x80) eqn:He; [|done]. bool_to_prop. by subst.
Qed.

Lemma gates_exact_witness :
  exists idt, init_idt (mkHandlers 1 2 3 4 5 6 7 8 0xffffffff80001234) 8 IDT_new = Ret idt /\
    forall v, v < 256 -> exists e, idx idt v = Some e /\
      gate_present e = is_some (handler_of (mkHandlers 1 2 3 4 5 6 7 8 0xffffffff80001234) v) /\
      (forall addr, handler_of (mkHandlers 1 2 3 4 5 6 7 8 0xffffffff80001234) v = Some addr ->
         gate_offset e = addr /\ ie_selector e = 8 /\ gate_type e = 0xE) /\
      gate_admits 3 e = (v =? 0x80).
Proof.
  apply gates_exact. intros v addr H. unfold handler_of in H. repeat (case_match; try done); injection H as <-; done.
Defined.

(** ** Controllers *)

(** At 100 Hz the timer divisor fits; below 19 Hz it is cut. *)
Lemma init_pit_100 : init_pit 100 = Ret [(0x43, 0x36); (0x40, 155); (0x40, 46)].
Proof. reflexivity. Qed.
Lemma init_pit_exact hz :
  19 <= hz -> exists lo hi, init_pit hz = Ret [(0x43, 0x36); (0x40, lo); (0x40, hi)] /\ lo < 256 /\ hi < 256 /\ lo + 256 * hi = 1193182 / hz.
Proof.
  intros Hh. unfold init_pit. rewrite (proj2 (N.eqb_neq _ _)) by lia. set (d := 1193182 / hz).
  assert (d < 2 ^ 16) as Hd.
  { unfold d. apply (N.le_lt_trans _ (1193182 / 19)); [apply N.div_le_compat_l; lia|done]. }
  rewrite N.mod_small by done. eexists _, _. split; [reflexivity|]. change 0xFF with (N.ones 8).
  rewrite N.land_ones, N.shiftr_div_pow2. change (2 ^ 8) with 256. pose proof (N.mod_lt d 256 ltac:(done)).
  split; [done|]. split; [apply N.Div0.div_lt_upper_bound; lia|]. pose proof (N.div_mod d 256 ltac:(done)). lia.
Qed.

(** The documentation of [init_pic] says that only IRQ0 stays unmasked; the mask
    leaves IRQ0 and IRQ1. *)
Lemma init_pic_mask : last init_pic = Some (0xA1, 0xFF) /\ (0x21, N.lnot (N.lor (N.shiftl 1 0) (N.shiftl 1 1)) 8) ∈ init_pic.
Proof. split; [done|]. vm_compute. set_solver. Qed.
