(* ===== verification/Apic.v ===== *)
(** * The local APIC

    Models [kernel/arch/x86_64/apic.rs]: enabling, the identity register and
    inter-processor interrupts, and [ipi_isr] of [kernel/interrupts/mod.rs].  The
    registers are a device behind memory reads and writes ([LapicDevice]);
    [Lapic] states what the driver relies on. *)

From S2P Require Import Prelude Ring Serial Descriptors.
Local Open Scope N_scope.

(** [Lapic::read] and [Lapic::write] at a register offset. *)
Class LapicDevice (D : Type) : Type := {
  lapic_read : N -> D -> N * D;
  lapic_write : N -> N -> D -> D
}.

(** [v << k] on [u32]: the bits shifted out are lost. *)
Definition shl32 (v k : N) : N := N.shiftl v k mod 2 ^ 32.

Section driver.
Context `{LapicDevice D}.

Definition enable_lapic (d : D) : D :=
  let '(svr, d) := lapic_read 0xF0 d in
  lapic_write 0xF0 (N.lor (N.lor svr (N.shiftl 1 8)) 0xFF) d.

Definition lapic_id (d : D) : N * D := let '(v, d) := lapic_read 0x20 d in (N.shiftr v 24, d).

(** [while (lapic.read(0x300) & (1 << 12)) != 0 { spin }]. *)
Fixpoint wait_delivered (fuel : nat) (d : D) : outcome D :=
  match fuel with
  | O => OutOfFuel
  | S fuel' =>
      let '(icr, d) := lapic_read 0x300 d in
      if N.land icr (N.shiftl 1 12) =? 0 then Ret d else wait_delivered fuel' d
  end.

Definition send_ipi (fuel : nat) (dest_lapic_id vector : N) (d : D) : outcome D :=
  let! d := wait_delivered fuel d in
  let d := lapic_write 0x310 (shl32 dest_lapic_id 24) d in
  Ret (lapic_write 0x300 (N.lor vector (N.shiftl 1 14)) d).

(** [ipi_isr]: acknowledge and count in [IPI_ACK_COUNT]. *)
Definition ipi_isr (st : D * N) : D * N := (lapic_write 0xB0 0 (fst st), wadd64 (snd st) 1).
End driver.

(** What the driver relies on: the delivery of an interrupt that was sent ends
    after finitely many reads of the command register, and a write of the low
    command word sends the interrupt described by the two words. *)
Class Lapic (D : Type) `{LapicDevice D} : Type := {
  lapic_sent : D -> list (N * N);
  lapic_busy : D -> nat;
  lapic_dest : D -> N;
  lapic_read_icr d icr d' : lapic_read 0x300 d = (icr, d') ->
    N.testbit icr 12 = negb (bool_decide (lapic_busy d = 0%nat)) /\ lapic_sent d' = lapic_sent d /\
    lapic_dest d' = lapic_dest d /\ lapic_busy d' = (lapic_busy d - 1)%nat;
  lapic_write_dest v d :
    lapic_sent (lapic_write 0x310 v d) = lapic_sent d /\ lapic_dest (lapic_write 0x310 v d) = bits v 24 8 /\
    lapic_busy (lapic_write 0x310 v d) = lapic_busy d;
  lapic_write_cmd v d : lapic_busy d = 0%nat ->
    lapic_sent (lapic_write 0x300 v d) = lapic_sent d ++ [(lapic_dest d, bits v 0 8)]
}.

Lemma land_bit a k : (N.land a (N.shiftl 1 k) =? 0) = negb (N.testbit a k).
Proof.
  destruct (N.testbit a k) eqn:Hb; cbn [negb].
  - apply N.eqb_neq. intros H. apply (f_equal (fun x => N.testbit x k)) in H. autorewrite with testbits in H.
    by rewrite Hb, N.bits_0, N.leb_refl, N.sub_diag in H.
  - apply N.eqb_eq, N.bits_inj. intros n. autorewrite with testbits. rewrite N.bits_0.
    destruct (decide (n = k)) as [->|Hn]; [by rewrite Hb|]. destruct (k <=? n) eqn:Hk; bool_to_prop; cbn [andb]; [|by rewrite andb_false_r].
    replace (N.testbit 1 (n - k)) with false; [by rewrite andb_false_r|]. symmetry. change 1 with (N.ones 1). rewrite testbit_ones. apply N.ltb_ge. lia.
Qed.

Section sent.
Context {D : Type} `{LD : LapicDevice D} `{LP : !Lapic D}.

Lemma wait_delivered_spec fuel : forall d : D,
  (lapic_busy d < fuel)%nat ->
  exists d', wait_delivered fuel d = Ret d' /\ lapic_busy d' = 0%nat /\ lapic_sent d' = lapic_sent d.
Proof.
  induction fuel as [|fuel IH]; intros d Hf; [lia|]. cbn [wait_delivered]. destruct (lapic_read 0x300 d) as [icr d1] eqn:Hr.
  destruct (lapic_read_icr _ _ _ Hr) as (Hbit & Hs & _ & Hb). rewrite land_bit, Hbit, negb_involutive.
  case_bool_decide as H0; [exists d1; split_and!; [done|lia|done]|].
  destruct (IH d1) as (d2 & -> & Hb2 & Hs2); [lia|]. exists d2. split_and!; [done..|congruence].
Qed.

(** Sending waits for the previous interrupt and then sends exactly one, with the
    given vector, to the given processor. *)
Lemma send_ipi_spec fuel dest vector (d : D) :
  (lapic_busy d < fuel)%nat -> dest < 256 -> vector < 256 ->
  exists d', send_ipi fuel dest vector d = Ret d' /\ lapic_sent d' = lapic_sent d ++ [(dest, vector)].
Proof.
  intros Hf Hd Hv. unfold send_ipi. destruct (wait_delivered_spec fuel d Hf) as (d1 & -> & Hb1 & Hs1). cbn [obind].
  eexists. split; [reflexivity|]. destruct (lapic_write_dest (shl32 dest 24) d1) as (Hs2 & Hd2 & Hb2).
  rewrite lapic_write_cmd, Hs2, Hd2, Hs1 by congruence. do 3 f_equal.
  - unfold shl32. rewrite N.mod_small; [|rewrite N.shiftl_mul_pow2; change (2 ^ 32) with (256 * 2 ^ 24); nia].
    assert (dest < 2 ^ 8) by done. by_bits.
  - assert (vector < 2 ^ 8) by done. rewrite bits_lor. change (N.shiftl 1 14) with (place 1 1 14). rewrite bits_place_out by (right; done).
    rewrite N.lor_0_r. by_bits.
Qed.
End sent.

(** The interrupt goes to the vector whose gate is the IPI stub. *)
Lemma ipi_vector_has_gate h : handler_of h 0x40 = Some (hd_ipi h).
Proof. reflexivity. Qed.

(** A device with these laws: the words written, and a count of reads until the
    interrupt in delivery is accepted. *)
Module Model.
Record Unit_ : Type := mkUnit { un_sent : list (N * N); un_busy : nat; un_dest : N; un_regs : N -> N }.

#[export] Instance unit_device : LapicDevice Unit_ := {
  lapic_read reg d :=
    if reg =? 0x300 then
      (if bool_decide (un_busy d = 0%nat) then 0 else N.shiftl 1 12,
       mkUnit (un_sent d) (un_busy d - 1) (un_dest d) (un_regs d))
    else (un_regs d reg, d);
  lapic_write reg v d :=
    if reg =? 0x300 then mkUnit (un_sent d ++ [(un_dest d, bits v 0 8)]) 3 (un_dest d) (un_regs d)
    else if reg =? 0x310 then mkUnit (un_sent d) (un_busy d) (bits v 24 8) (un_regs d)
    else mkUnit (un_sent d) (un_busy d) (un_dest d) (fun r => if r =? reg then v else un_regs d r)
}.

#[export, refine] Instance unit_laws : Lapic Unit_ := {
  lapic_sent := un_sent; lapic_busy := un_busy; lapic_dest := un_dest
}.
Proof.
  - intros d icr d' [= <- <-]. split_and!; [|done..]. by case_bool_decide.
  - done.
  - done.
Defined.
End Model.
