(* ===== verification/Boot.v ===== *)
(** * Boot and the demonstration tasks

    Models [kernel/boot/main.rs]: the two ways [_start] launches the scheduler,
    the loaders that place the demonstration tasks, the tasks themselves, and the
    watchdog that restarts a crashing service.  [start_shell_spec] follows the
    boot processor into the console; [watchdog_exact] shows what the watchdog task
    does for every behaviour of the other tasks at its yields. *)

From S2P Require Import Prelude Ring Preempt Trace Capability AuditTrail Message Machine Frames.
From S2P Require Import Task Scheduler Kernel Switch Scheduling Spawn Contexts Ipc Rendezvous Messaging.
From S2P Require Import Authority Propagation Delegation Paging AddressSpace UserMemory Userspace Syscall.
From S2P Require Import Clients Toctou.
Local Open Scope N_scope.

Definition HARNESS_CRASHER : TaskId := 100.
Definition HARNESS_DEAD : TaskId := 101.
Definition HARNESS_PROBE : TaskId := 102.
Definition HARNESS_WORKER_BASE : TaskId := 103.
Definition WORKER_COUNT : N := 16.
Definition HARNESS_SECURITY : TaskId := 119.
Definition HARNESS_SERVICE : TaskId := 123.
Definition HARNESS_WATCHDOG : TaskId := 124.
Definition MAX_RESTARTS : N := 2.
Definition HARNESS_PERSIST : TaskId := 125.
Definition DIST_DRIVER : TaskId := 128.
Definition DIST_BACKING : TaskId := 129.
Definition DIST_REPLICA : TaskId := 130.
Definition PREEMPT_DRIVER : TaskId := 90.
Definition PREEMPT_BUSY_A : TaskId := 91.
Definition PREEMPT_BUSY_B : TaskId := 92.

(** The addresses of the entry functions, and of [FRAGILE_INCARNATION]. *)
Class BootImage : Type := {
  shell_main : N; task_crasher_entry : N; task_dead_target_entry : N; task_probe_entry : N; task_worker_entry : N;
  task_security_demo_entry : N; task_fragile_service_entry : N; task_watchdog_entry : N;
  task_persistence_demo_entry : N; task_dist_demo_entry : N; dist_scratch_entry : N; task_preempt_demo_entry : N;
  task_busy_a_entry : N; task_busy_b_entry : N; task_park_entry : N;
  FRAGILE_INCARNATION : N
}.

(** A capability minted by the kernel; its identity is stamped on insertion. *)
Definition minted (r : Resource) (read write grant : bool) : Capability := mkCap r read write grant false 0 None.

(** [CapTable::new()] and the insertions [l]. *)
Definition kcaps_new (l : list Capability) : K CapTable :=
  fun k => let '(ct, a) := insert_all l (CapTable_new, k_amb k) in Ret (ct, set_k_amb a k).

Definition fragile_service_caps : K CapTable := kcaps_new [minted Serial false true false].
Definition dist_service_caps : K CapTable :=
  kcaps_new [minted Serial false true false; minted (Capability.Service 1) true true false].

Section boot.
Context `{L : Layout} `{BI : BootImage}.

(** ** Loading *)

(** [sched.tasks[id] = Some(Task::new(TaskId(id), entry, caps))]. *)
Definition place_task (id : TaskId) (entry : N) (caps : CapTable) : K unit :=
  let* t := Task_new id entry caps in
  kmod (on_sched (put_slot id (Some t))).

Definition load_harness_demo : K unit :=
  do* lock_sched in
  do* place_task HARNESS_CRASHER task_crasher_entry CapTable_new in
  do* place_task HARNESS_DEAD task_dead_target_entry CapTable_new in
  let* probe_caps := kcaps_new [minted (IpcChannel HARNESS_DEAD) true true false] in
  do* place_task HARNESS_PROBE task_probe_entry probe_caps in
  do* kfor (rangeN 0 (N.to_nat WORKER_COUNT))
        (fun i _ => place_task (HARNESS_WORKER_BASE + i) task_worker_entry CapTable_new) tt in
  unlock_sched.

Definition load_security_demo : K unit :=
  do* lock_sched in
  do* place_task HARNESS_SECURITY task_security_demo_entry CapTable_new in
  unlock_sched.

Definition load_watchdog_demo : K unit :=
  do* lock_sched in
  let* caps := fragile_service_caps in
  do* place_task HARNESS_SERVICE task_fragile_service_entry caps in
  do* place_task HARNESS_WATCHDOG task_watchdog_entry CapTable_new in
  unlock_sched.

Definition load_persistence_demo : K unit :=
  do* lock_sched in
  do* place_task HARNESS_PERSIST task_persistence_demo_entry CapTable_new in
  unlock_sched.

Definition load_distribution_demo : K unit :=
  do* lock_sched in
  do* place_task DIST_DRIVER task_dist_demo_entry CapTable_new in
  let* caps := dist_service_caps in
  do* place_task DIST_BACKING dist_scratch_entry caps in
  do* place_task DIST_REPLICA dist_scratch_entry CapTable_new in
  unlock_sched.

Definition load_preemption_demo : K unit :=
  do* lock_sched in
  do* place_task PREEMPT_DRIVER task_preempt_demo_entry CapTable_new in
  do* place_task PREEMPT_BUSY_A task_busy_a_entry CapTable_new in
  do* place_task PREEMPT_BUSY_B task_busy_b_entry CapTable_new in
  do* place_task PREEMPT_VICTIM task_park_entry CapTable_new in
  do* place_task PREEMPT_SERVER task_park_entry CapTable_new in
  unlock_sched.

(** [_start] from the choice of [SHELL_MODE] on.  The port writes of [init_pic]
    and [init_pit] are in [Descriptors]. *)
Definition start_shell : R unit :=
  let+ _ := rlift (kmod (on_preempt (set_armed false))) in
  let+ _ := rlift (load shell_main) in
  let+ _ := rlift (kmod (on_machine (on_cpu sti))) in
  yield_cpu.

Definition load_demos : K unit :=
  do* load_harness_demo in
  do* load_security_demo in
  do* load_watchdog_demo in
  do* load_persistence_demo in
  do* load_distribution_demo in
  load_preemption_demo.

Definition start_demo `{BL : Blobs} : R unit :=
  let+ init_task := rlift (
    let* cap_table_init := kcaps_new [minted Serial false true true] in
    spawn_init_task 1 cap_table_init) in
  let+ _ := rlift (do* lock_sched in do* kmod (on_sched (put_slot 1 (Some init_task))) in unlock_sched) in
  let+ _ := rlift load_demos in
  let+ _ := rlift (kmod (on_machine (on_cpu sti))) in
  yield_cpu.

(** ** The tasks *)

(** [for _ in 0..n { yield_cpu(); }]. *)
Fixpoint yields (n : nat) : R unit :=
  match n with
  | O => rret tt
  | S n' => let+ _ := yield_cpu in yields n'
  end.

(** [loop { yield_cpu(); }], for [fuel] turns. *)
Fixpoint yield_forever (fuel : nat) : R bool :=
  match fuel with
  | O => fun _ => OutOfFuel
  | S fuel' => let+ _ := yield_cpu in yield_forever fuel'
  end.

(** A volatile read of [p]: nothing if the current address space maps the page,
    else a page fault with the registers [frame]. *)
Definition volatile_read (frame : ExceptionFrame) (p : N) : K (option bool) :=
  let* mapped := kget (fun k => is_some (translate (k_mem k) hhdm_offset (current_pml4_paddr (k_cpu k)) p)) in
  if mapped : bool then kret None
  else let* b := exception_dispatch frame 14 in kret (Some b).

(** A task ends with the result of the terminating switch: whether another task
    now runs. *)
Definition task_crasher (fuel : nat) (frame : ExceptionFrame) : R bool :=
  let+ r := rlift (volatile_read frame 0xdeadbeef0000) in
  match r with Some b => rret b | None => yield_forever fuel end.

Definition task_dead_target : R bool := rlift terminate_current_task.

(** [task_probe]: the result its [match] inspects, and the end of the task. *)
Definition task_probe (fuel : nat) : R (result IpcError unit * bool) :=
  let+ _ := yields 4 in
  let+ r := sys_send_typed fuel 0 (IpcTag_as_u16 Ping) 1 [112; 105; 110; 103] in
  let+ b := rlift terminate_current_task in
  rret (r, b).

Definition task_security_demo (scratch_entry : N) : R bool :=
  let+ _ := yields 2 in
  let+ _ := rlift (security_demo scratch_entry) in
  rlift terminate_current_task.

Definition task_worker : R bool :=
  let+ _ := yields 3 in
  let+ _ := rlift (do* lock_sched in let* id := kget (fun k => s_current_task_id (k_sched k)) in do* unlock_sched in kret id) in
  rlift terminate_current_task.

Definition task_park : R bool := rlift terminate_current_task.

(** ** The watchdog and its service *)

(** [AtomicUsize] statics are words of memory. *)
Definition atomic_load (a : N) : K N := kget (fun k => mem_rd (k_mem k) a).
Definition fetch_add (a n : N) : K N :=
  fun k => let v := mem_rd (k_mem k) a in Ret (v, set_mem (mem_wr (k_mem k) a (wadd64 v n)) k).

Definition task_fragile_service (fuel : nat) (frame : ExceptionFrame) : R bool :=
  let+ inc := rlift (fetch_add FRAGILE_INCARNATION 1) in
  let+ _ := yield_cpu in
  if inc <? MAX_RESTARTS then
    let+ r := rlift (volatile_read frame 0x12345678) in
    match r with Some b => rret b | None => yield_forever fuel end
  else yield_forever fuel.

(** [task_is_terminated]; the watchdog has the same test inline. *)
Definition task_is_terminated (slot : TaskId) : K bool :=
  do* lock_sched in
  let* o := kget_task slot in
  do* unlock_sched in
  kret match o with Some t => state_is Terminated t | None => true end.

Inductive Verdict : Type :=
| Watching
| Restarted
| GaveUp (switched : bool)
| Recovered (switched : bool).

(** One turn of the loop of [task_watchdog], after the yield. *)
Definition watchdog_round (restarts : N) : K (N * Verdict) :=
  let* terminated := task_is_terminated HARNESS_SERVICE in
  if terminated : bool then
    if restarts <? MAX_RESTARTS then
      let* restarts := klift (add64 restarts 1) in
      do* lock_sched in
      let* caps := fragile_service_caps in
      do* place_task HARNESS_SERVICE task_fragile_service_entry caps in
      do* unlock_sched in
      kret (restarts, Restarted)
    else
      let* b := terminate_current_task in kret (restarts, GaveUp b)
  else
    let* inc := atomic_load FRAGILE_INCARNATION in
    if MAX_RESTARTS <? inc then let* b := terminate_current_task in kret (restarts, Recovered b)
    else kret (restarts, Watching).

Fixpoint watchdog_loop (fuel : nat) (restarts : N) : R Verdict :=
  match fuel with
  | O => fun _ => OutOfFuel
  | S fuel' =>
      let+ _ := yield_cpu in
      let+ (restarts, v) := rlift (watchdog_round restarts) in
      match v with
      | Watching | Restarted => watchdog_loop fuel' restarts
      | GaveUp _ | Recovered _ => rret v
      end
  end.
Definition task_watchdog (fuel : nat) : R Verdict := watchdog_loop fuel 0.
End boot.

(** ** Placing tasks *)

Section placing.
Context `{L : Layout}.

Definition fresh_task (i : TaskId) (ct : CapTable) (k : Kernel) : Task :=
  mkTask i Ready (stack_hi i - 72) (stack_hi i) (current_pml4_paddr (k_cpu k)) ct None MessageQueue_new None.

Definition placed (i : TaskId) (entry : N) (ct : CapTable) (k : Kernel) : Kernel :=
  on_sched (put_slot i (Some (fresh_task i ct k))) (spawned (mem_pushes (k_mem k) (stack_hi i) (kernel_frame entry)) k).

Lemma place_task_spec i entry ct k :
  stacks_fit -> i < MAX_TASKS -> place_task i entry ct k = Ret (tt, placed i entry ct k).
Proof. intros Hfit Hi. unfold place_task, kbind. by rewrite Task_new_spec. Qed.

Lemma wp_place_task i entry ct (Q : unit -> Kernel -> Prop) k :
  stacks_fit -> i < MAX_TASKS -> Q tt (placed i entry ct k) -> wp (place_task i entry ct) Q k.
Proof. intros. unfold wp. by rewrite place_task_spec. Qed.

Lemma wp_kcaps_new l (Q : CapTable -> Kernel -> Prop) k :
  (length l <= 32)%nat ->
  (forall a, am_next_cap_id a = Nat.iter (length l) (fun n => wadd64 n 1) (am_next_cap_id (k_amb k)) ->
     Q (front (stamped (am_next_cap_id (k_amb k)) l)) (set_k_amb a k)) ->
  wp (kcaps_new l) Q k.
Proof.
  intros Hl HQ. unfold wp, kcaps_new. change CapTable_new with (front []).
  destruct (insert_all_spec l [] (k_amb k)) as (a & -> & Ha); [simpl; lia|]. by apply HQ.
Qed.

Lemma front_wf cs : (length cs <= 32)%nat -> CapTable_wf (front cs).
Proof. intros H. unfold CapTable_wf, front, lenN, MAX_CAPS. cbn [slots]. rewrite length_app, length_fmap, length_replicate. lia. Qed.

Lemma stamped_length l : forall n, length (stamped n l) = length l.
Proof. induction l as [|x l IH]; intros n; simpl; [done|]. by rewrite IH. Qed.

Lemma placed_wf i entry ct k :
  i < MAX_TASKS -> CapTable_wf ct -> kernel_wf k -> kernel_wf (placed i entry ct k).
Proof.
  intros Hi Hct [Hs Hl Ha]. split; unfold placed, spawned, set_mem; ksimp; [|done..].
  apply put_slot_wf; [done|]. intros t ?. simplify_eq. split; [done|]. split; [done|apply MessageQueue_new_wf].
Qed.

Lemma placed_slot i entry ct k j :
  sched_wf (k_sched k) -> i < MAX_TASKS ->
  task_slot (k_sched (placed i entry ct k)) j = if decide (i = j) then Some (fresh_task i ct k) else task_slot (k_sched k) j.
Proof.
  intros Hs Hi. unfold placed, spawned, set_mem. ksimp. rewrite task_slot_put; [done|]. by rewrite (sched_wf_len _ Hs).
Qed.
End placing.

(** ** Launching the console *)

Section launch.
Context `{L : Layout} `{BI : BootImage}.

Lemma load_spec main k :
  kernel_wf k -> stacks_fit ->
  exists a, am_preempt a = am_preempt (k_amb k) /\
    load main k = Ret (tt, placed SHELL main (front (root_table (am_next_cap_id (k_amb k)))) (set_k_amb a k)).
Proof.
  intros [Hs Hl Ha] Hfit. destruct (root_caps_spec (k_amb k)) as [a Hr]. exists a. split; [by eapply root_caps_preempt|].
  unfold load, kbind, lock_sched. rewrite Hl. cbn [obind]. ksimp. rewrite Hr. cbn [obind].
  rewrite Task_new_spec by done. cbn [obind kmod unlock_sched]. f_equal. f_equal.
  destruct k. simpl in *. by subst.
Qed.

(** The boot stack: room for a switch frame, outside the task stacks. *)
Definition on_boot_stack (k : Kernel) : Prop :=
  64 <= r_rsp (k_cpu k) < u64_limit /\
  (r_rsp (k_cpu k) <= task_stacks \/ task_stacks + MAX_TASKS * STACK_SIZE + 64 <= r_rsp (k_cpu k)).

(** The first switch of the boot processor, into the only ready task. *)
Lemma first_switch k i t c entry :
  kernel_wf k -> stacks_fit -> i < MAX_TASKS -> s_current_task_id (k_sched k) = None ->
  (forall j, task_slot (k_sched k) j = if decide (i = j) then Some t else None) ->
  t_state t = Ready -> t_rsp t = stack_hi i - 72 -> on_boot_stack k ->
  holds_words (k_mem k) (t_rsp t) (frame_words (fresh_cpu entry c) kernel_task_trampoline) ->
  exists resume k1, yield_cpu k = Ret (Paused resume, k1) /\
    k_sched k1 = handoff None i (k_sched k) /\ k_sched_locked k1 = false /\ k_audit k1 = k_audit k /\ k_frames k1 = k_frames k /\
    resumes_as (fresh_cpu entry c) kernel_task_trampoline (stack_hi i - 8) (k_cpu k1).
Proof.
  intros Hk Hfit Hi Hcur Hslot Hst Hrsp [[Hb1 Hb2] Hb3] Hw.
  assert (yield_choice (k_sched k) = Some (None, i)) as Hch.
  { unfold yield_choice. assert (current_idx (k_sched k) = None) as -> by (unfold current_idx; by rewrite Hcur).
    pose proof (first_ready_spec (k_sched k)) as Hf. destruct (first_ready _) as [j|].
    - destruct Hf as [_ (tj & Htj & _)%ready_at_Some]. rewrite Hslot in Htj. case_decide; by simplify_eq.
    - exfalso. specialize (Hf i Hi). unfold ready_at in Hf. rewrite Hslot, decide_True in Hf by done. unfold state_is in Hf.
      by rewrite Hst in Hf. }
  pose proof (stack_hi_ge i) as Hge. pose proof (stack_hi_fits i Hfit Hi) as Hlt. pose proof Hfit as [Hf1 Hf2].
  assert (stack_hi i <= task_stacks + MAX_TASKS * STACK_SIZE /\ task_stacks + 72 <= stack_hi i) as [Hh1 Hh2].
  { unfold stack_hi, stack_lo, STACK_SIZE, MAX_TASKS in *. nia. }
  unfold yield_cpu, yield_switch. unfold kbind at 1. cbn [kmod obind]. set (k0 := on_machine (on_cpu cli) k).
  pose proof (yield_plan_spec k0 (cli_kernel_wf k _ Hk)) as Hp. change (k_sched k0) with (k_sched k) in Hp. rewrite Hch in Hp.
  apply wp_run in Hp as (plan & k1 & Hrun & a & tn & Htr & Htn & -> & ->). rewrite Hslot, decide_True in Htn by done. simplify_eq.
  unfold kbind at 1. rewrite Hrun. cbn [obind]. unfold perform_switch. cbn [pl_save pl_rsp save_area].
  rewrite (proj2 (N.eqb_neq _ _)) by (rewrite Hrsp; lia). unfold kbind, kmod. cbn [obind]. ksimp. rewrite Hrsp in *.
  set (plan := mkPlan _ _ _ _). set (mc := on_cpu (load_task_context plan) (k_machine k0)).
  destruct (load_task_context_regs plan (mc_cpu (k_machine k0))) as [Hsp _].
  assert (r_rsp (mc_cpu mc) = r_rsp (k_cpu k)) as Hsp' by exact Hsp.
  pose proof (call_switch_context_resumes yield_resume (stack_hi i - 72) mc (fresh_cpu entry c) kernel_task_trampoline) as Hres.
  rewrite Hsp' in Hres. specialize (Hres Hb1 Hb2 ltac:(lia) Hw ltac:(lia)).
  destruct (call_switch_context yield_resume (stack_hi i - 72) mc) as [old mc'] eqn:Hc. cbn [obind kret].
  eexists _, _. split; [reflexivity|]. destruct Hk. split_and!; [done..|]. unfold save_rsp, k_cpu. ksimp.
  replace (stack_hi i - 8) with (stack_hi i - 72 + 64) by lia. exact Hres.
Qed.

(** Launching the console.  From a scheduler with no task and a boot stack
    outside the task stacks, the shell-mode end of [_start] switches to the
    console: it is the only task and the running one, it holds exactly the root
    capabilities, and the processor enters [shell_main] through the trampoline on
    the console's own stack with interrupts enabled. *)
Lemma start_shell_spec k :
  kernel_wf k -> stacks_fit -> on_boot_stack k -> s_current_task_id (k_sched k) = None ->
  (forall j, task_slot (k_sched k) j = None) ->
  exists resume k1 t, start_shell k = Ret (Paused resume, k1) /\ kernel_wf k1 /\ k_frames k1 = k_frames k /\
    s_current_task_id (k_sched k1) = Some SHELL /\
    (forall j, task_slot (k_sched k1) j = if decide (SHELL = j) then Some t else None) /\
    t_state t = Running /\ t_cap_table t = front (root_table (am_next_cap_id (k_amb k))) /\
    r_rip (k_cpu k1) = kernel_task_trampoline /\
    let c := mc_cpu (run_trampoline (k_machine k1)) in
    r_rip c = shell_main /\ interrupts_enabled c = true /\ r_rsp c = t_kstack_top t - 8.
Proof.
  intros Hk Hfit Hboot Hcur Hempty. unfold start_shell. rewrite (rbind_rlift (kmod _) _ _ _ _ eq_refl).
  set (k0 := on_preempt (set_armed false) k). assert (kernel_wf k0) as Hk0 by by destruct Hk.
  destruct (load_spec shell_main k0 Hk0 Hfit) as (a & _ & Hload). rewrite (rbind_rlift _ _ _ _ _ Hload).
  set (ct := front _) in *. set (ka := set_k_amb a k0) in *. assert (kernel_wf ka) as Hka by by destruct Hk0.
  rewrite (rbind_rlift (kmod _) _ _ _ _ eq_refl). set (k2 := on_machine (on_cpu sti) _).
  assert (kernel_wf k2) as Hk2.
  { apply cli_kernel_wf, placed_wf; [done|by apply front_wf; simpl; lia|done]. }
  assert (forall j, task_slot (k_sched k2) j = if decide (SHELL = j) then Some (fresh_task SHELL ct ka) else None) as Hslot.
  { intros j. change (k_sched k2) with (k_sched (placed SHELL shell_main ct ka)). rewrite placed_slot by (done || apply Hka).
    case_decide; [done|]. apply Hempty. }
  destruct (first_switch k2 SHELL _ (k_cpu k) shell_main Hk2 Hfit eq_refl Hcur Hslot eq_refl eq_refl Hboot) as (f & k1 & Hy & Hs & Hl & Hau & Hfr & Hres).
  { apply kernel_frame_words. }
  exists f, k1, (set_t_state Running (fresh_task SHELL ct ka)). rewrite Hy. split; [done|].
  assert (sched_wf (k_sched k1)) as Hs1 by (rewrite Hs; apply handoff_wf; [done|apply Hk2]).
  destruct (trampoline_enters _ _ _ _ Hres) as (H1 & H2 & H3). split; [split; [done..|rewrite Hau; apply Hk2]|].
  split; [by rewrite Hfr|]. split; [by rewrite Hs|]. split; [|split_and!; try done; apply Hres].
  intros j. rewrite Hs, handoff_slot by done. rewrite Hslot. repeat case_decide; done.
Qed.
End launch.

(** ** Loading the demonstrations *)

(** A task to load: slot, entry function, capabilities. *)
Definition Entry : Type := TaskId * N * list Capability.
Definition entry_id (e : Entry) : TaskId := e.1.1.

Section loading.
Context `{L : Layout} `{BI : BootImage}.

(** The task is there, ready, with these capabilities, and its first switch
    reaches its entry function. *)
Definition loaded (k : Kernel) (e : Entry) : Prop :=
  let '(i, entry, caps) := e in
  exists t n, task_slot (k_sched k) i = Some t /\ t_state t = Ready /\ t_cap_table t = front (stamped n caps) /\
    forall c, suspended k i (fresh_cpu entry c) kernel_task_trampoline.

(** From [k0] the tasks [es] have been loaded and nothing else has changed in the
    table; [b]: the scheduler lock. *)
Record loads (es : list Entry) (b : bool) (k0 k : Kernel) : Prop := {
  ls_wf : sched_wf (k_sched k);
  ls_locked : k_sched_locked k = b;
  ls_audit : k_audit k = k_audit k0;
  ls_current : s_current_task_id (k_sched k) = s_current_task_id (k_sched k0);
  ls_loaded e : e ∈ es -> loaded k e;
  ls_others j : j ∉ entry_id <$> es -> task_slot (k_sched k) j = task_slot (k_sched k0) j;
  ls_suspended j c r : j ∉ entry_id <$> es -> suspended k0 j c r -> suspended k j c r
}.

Lemma loads_nil k : kernel_wf k -> loads [] false k k.
Proof. intros []. split; try done. intros e []%elem_of_nil. Qed.

Lemma loads_lock es b b' k0 k : loads es b k0 k -> loads es b' k0 (set_k_sched_locked b' k).
Proof. intros []. by split. Qed.

Lemma loads_amb es b k0 k a : loads es b k0 k -> loads es b k0 (set_k_amb a k).
Proof. intros []. by split. Qed.

(** Placing a task leaves every other suspended context alone. *)
Lemma placed_suspended i entry ct k j c r :
  sched_wf (k_sched k) -> i < MAX_TASKS -> i <> j -> suspended k j c r -> suspended (placed i entry ct k) j c r.
Proof.
  intros Hs Hi Hij (t & Ht & H1 & H2 & H3 & H4). exists t. rewrite placed_slot, decide_False by done.
  split_and!; [done..|]. intros n v Hn. rewrite <- (H4 n v Hn). apply mem_pushes_outside.
  - change (lenN _) with 9. pose proof (stack_hi_ge i) as Hge. unfold STACK_SIZE in Hge. lia.
  - change (lenN _) with 9. pose proof (stacks_disjoint i j Hij) as Hd. pose proof (idx_lt _ _ _ Hn) as Hlt. change (lenN _) with 8 in Hlt.
    pose proof (eq_refl : stack_hi i = stack_lo i + STACK_SIZE). unfold STACK_SIZE in *. lia.
Qed.

Lemma placed_loaded i entry n caps k :
  stacks_fit -> sched_wf (k_sched k) -> i < MAX_TASKS -> loaded (placed i entry (front (stamped n caps)) k) (i, entry, caps).
Proof.
  intros Hfit Hs Hi. exists (fresh_task i (front (stamped n caps)) k), n. rewrite placed_slot, decide_True by done.
  split_and!; [done..|]. intros c. eapply Task_new_suspended; [done..|by rewrite (sched_wf_len _ Hs)|by apply Task_new_spec].
Qed.

Lemma not_in_snoc j es i entry caps :
  j ∉ (entry_id <$> (es ++ [(i, entry, caps)])) -> (j ∉ (entry_id <$> es)) /\ i <> j.
Proof.
  rewrite fmap_app. intros [H1 H2]%not_elem_of_app. split; [done|]. intros ->. apply H2. by apply list_elem_of_singleton.
Qed.

Lemma loads_place es b k0 k i entry n caps :
  stacks_fit -> i < MAX_TASKS -> (length caps <= 32)%nat -> i ∉ entry_id <$> es -> loads es b k0 k ->
  loads (es ++ [(i, entry, caps)]) b k0 (placed i entry (front (stamped n caps)) k).
Proof.
  intros Hfit Hi Hlen Hfresh [Hs Hl Ha Hc Hld Ho Hsus]. split.
  - unfold placed, spawned, set_mem. ksimp. apply put_slot_wf; [done|]. intros t ?. simplify_eq. split; [done|].
    split; [|apply MessageQueue_new_wf]. apply front_wf. by rewrite stamped_length.
  - done.
  - done.
  - done.
  - intros e [He| ->%list_elem_of_singleton]%elem_of_app; [|by apply placed_loaded].
    assert (i <> entry_id e) as Hne by (intros ->; by apply Hfresh, list_elem_of_fmap_2). destruct e as [[j en] cs].
    destruct (Hld _ He) as (t & m & Ht & H1 & H2 & H3). exists t, m. rewrite placed_slot, decide_False by done.
    split_and!; [done..|]. intros c. by apply placed_suspended.
  - intros j [Hj Hne]%not_in_snoc. rewrite placed_slot, decide_False by done. by apply Ho.
  - intros j c r [Hj Hne]%not_in_snoc Hsu. apply placed_suspended; [done..|]. by apply Hsus.
Qed.

Lemma wp_load es k0 k i entry n caps (Q : unit -> Kernel -> Prop) :
  stacks_fit -> loads es true k0 k -> i < MAX_TASKS -> (length caps <= 32)%nat -> i ∉ entry_id <$> es ->
  (forall k', loads (es ++ [(i, entry, caps)]) true k0 k' -> Q tt k') ->
  wp (place_task i entry (front (stamped n caps))) Q k.
Proof. intros Hfit Hl Hi Hc Hn HQ. apply wp_place_task; [done..|]. by apply HQ, loads_place. Qed.

Lemma wp_load_bare es k0 k i entry (Q : unit -> Kernel -> Prop) :
  stacks_fit -> loads es true k0 k -> i < MAX_TASKS -> i ∉ entry_id <$> es ->
  (forall k', loads (es ++ [(i, entry, [])]) true k0 k' -> Q tt k') -> wp (place_task i entry CapTable_new) Q k.
Proof. intros Hfit Hl Hi Hn HQ. change CapTable_new with (front (stamped 0 [])). eapply wp_load; try done. simpl. lia. Qed.

Lemma wp_load_caps es k0 k l (Q : CapTable -> Kernel -> Prop) :
  loads es true k0 k -> (length l <= 32)%nat ->
  (forall n k', loads es true k0 k' -> Q (front (stamped n l)) k') -> wp (kcaps_new l) Q k.
Proof. intros Hl Hlen HQ. apply wp_kcaps_new; [done|]. intros a _. by apply HQ, loads_amb. Qed.

Lemma wp_load_lock es k0 k (Q : unit -> Kernel -> Prop) :
  loads es false k0 k -> (forall k', loads es true k0 k' -> Q tt k') -> wp lock_sched Q k.
Proof. intros Hl HQ. apply wp_lock_sched; [apply Hl|]. by eapply HQ, loads_lock. Qed.

Lemma wp_load_unlock es k0 k (Q : unit -> Kernel -> Prop) :
  loads es true k0 k -> (forall k', loads es false k0 k' -> Q tt k') -> wp unlock_sched Q k.
Proof. intros Hl HQ. apply wp_unlock_sched. by eapply HQ, loads_lock. Qed.

(** The demonstration's tasks, in loading order. *)
Definition harness_tasks : list Entry :=
  [(HARNESS_CRASHER, task_crasher_entry, []); (HARNESS_DEAD, task_dead_target_entry, []);
   (HARNESS_PROBE, task_probe_entry, [minted (IpcChannel HARNESS_DEAD) true true false])] ++
  ((fun i => (HARNESS_WORKER_BASE + i, task_worker_entry, [])) <$> rangeN 0 16).
Definition demo_tasks : list Entry :=
  harness_tasks ++
  [(HARNESS_SECURITY, task_security_demo_entry, []);
   (HARNESS_SERVICE, task_fragile_service_entry, [minted Serial false true false]);
   (HARNESS_WATCHDOG, task_watchdog_entry, []);
   (HARNESS_PERSIST, task_persistence_demo_entry, []);
   (DIST_DRIVER, task_dist_demo_entry, []);
   (DIST_BACKING, dist_scratch_entry, [minted Serial false true false; minted (Capability.Service 1) true true false]);
   (DIST_REPLICA, dist_scratch_entry, []);
   (PREEMPT_DRIVER, task_preempt_demo_entry, []); (PREEMPT_BUSY_A, task_busy_a_entry, []);
   (PREEMPT_BUSY_B, task_busy_b_entry, []); (PREEMPT_VICTIM, task_park_entry, []);
   (PREEMPT_SERVER, task_park_entry, [])].

Ltac load_step :=
  lazymatch goal with
  | |- wp (kbind _ _) _ _ => apply wp_kbind
  | |- wp (kret _) _ _ => apply wp_kret
  | H : loads _ _ _ ?k |- wp lock_sched _ ?k => eapply wp_load_lock; [exact H|clear H; intros ? H]
  | H : loads _ _ _ ?k |- wp unlock_sched _ ?k => eapply wp_load_unlock; [exact H|clear H; intros ? H]
  | H : loads _ _ _ ?k |- wp (kcaps_new _) _ ?k => eapply wp_load_caps; [exact H|simpl; lia|clear H; intros ? ? H]
  | H : loads _ _ _ ?k |- wp (place_task _ _ CapTable_new) _ ?k =>
      eapply wp_load_bare; [done|exact H|reflexivity|apply (bool_decide_unpack _); vm_compute; exact I|clear H; intros ? H]
  | H : loads _ _ _ ?k |- wp (place_task _ _ _) _ ?k =>
      eapply wp_load; [done|exact H|reflexivity|simpl; lia|apply (bool_decide_unpack _); vm_compute; exact I|clear H; intros ? H]
  end.

(** Loading the demonstrations fills exactly their slots. *)
Lemma load_demos_spec k : kernel_wf k -> stacks_fit -> wp load_demos (fun _ k' => loads demo_tasks false k k') k.
Proof.
  intros Hk Hfit. pose proof (loads_nil k Hk) as H. unfold load_demos, load_harness_demo, load_security_demo, load_watchdog_demo,
    load_persistence_demo, load_distribution_demo, load_preemption_demo, fragile_service_caps, dist_service_caps.
  change (rangeN 0 (N.to_nat WORKER_COUNT)) with [0; 1; 2; 3; 4; 5; 6; 7; 8; 9; 10; 11; 12; 13; 14; 15]. cbn [kfor].
  repeat load_step. exact H.
Qed.
End loading.

(** ** Endings *)

Section ending.
Context `{L : Layout}.

(** The table when task [dead] has ended and the next ready task was chosen. *)
Definition ended (dead : TaskId) (s : Scheduler) : Scheduler :=
  let s1 := buried dead s in
  match next_ready_from s1 ((dead + 1) mod MAX_TASKS) with Some n => handoff None n s1 | None => s1 end.

Lemma ended_slot dead s :
  dead < MAX_TASKS -> task_slot (ended dead s) dead = set_t_state Terminated <$> task_slot s dead.
Proof.
  intros Hd. assert (task_slot (buried dead s) dead = set_t_state Terminated <$> task_slot s dead) as Hb by by rewrite buried_slot, decide_True.
  unfold ended. destruct (next_ready_from _ _) as [n|] eqn:Hn; [|done]. rewrite handoff_slot by done. rewrite Hb.
  destruct (decide (n = dead)) as [->|]; [|by rewrite decide_False].
  assert (ready_at (buried dead s) dead = true) as Hr.
  { pose proof (next_ready_spec (buried dead s) dead Hd) as Hspec. rewrite Hn in Hspec. apply Hspec. }
  apply ready_at_Some in Hr as (t & Ht & Hst). rewrite Hb in Ht. destruct (task_slot s dead); by simplify_eq/=.
Qed.

Lemma wp_terminate dead t k :
  kernel_wf k -> s_current_task_id (k_sched k) = Some dead -> task_slot (k_sched k) dead = Some t ->
  wp terminate_current_task (fun _ k' => kernel_wf k' /\ k_sched k' = ended dead (k_sched k)) k.
Proof.
  intros Hk Hcur Ht. unfold terminate_current_task. apply wp_kbind, wp_kmod, wp_kbind. set (k0 := on_machine (on_cpu cli) k).
  eapply wp_mono; [apply (terminate_plan_spec k0 dead t); [by apply cli_kernel_wf|done..]|]. change (k_sched k0) with (k_sched k).
  assert (sched_wf (buried dead (k_sched k))) as Hb by apply buried_wf, Hk. destruct Hk as [Hs Hl Ha].
  intros plan k1 Hp. unfold ended. destruct (next_ready_from _ _) as [n|].
  - destruct Hp as (a & tn & _ & _ & -> & ->). unfold perform_switch. cbn [pl_save pl_rsp]. case_match.
    + apply wp_kret. split; [|done]. split; ksimp; [by apply handoff_wf|done..].
    + apply wp_kbind, wp_kmod, wp_kbind, wp_kmod, wp_kbind, wp_kmod, wp_kret. ksimp.
      destruct (call_switch_context _ _ _) as [old mc]. split; [|done]. split; unfold save_rsp; ksimp; [by apply handoff_wf|done..].
  - destruct Hp as [-> ->]. apply wp_kret. split; [|done]. by split.
Qed.
End ending.

(** ** The probe *)

(** A send to a task that has ended, or was never there, returns at once. *)
Lemma send_to_gone `{L : Layout} n ci tag version payload t cur target k :
  kernel_wf k -> depth_ok k -> check_envelope tag version payload = Ok t -> s_current_task_id (k_sched k) = Some cur ->
  channel_of (k_sched k) cur ci = Ok target ->
  t_state <$> task_slot (k_sched k) target = None \/ t_state <$> task_slot (k_sched k) target = Some Terminated ->
  exists k', sys_send_typed (S n) ci tag version payload k = Ret (Done (Err TargetGone), k') /\
    ipc_frame k (get_task_mut (k_sched k) cur (set_t_ipc_buffer None)) (k_ipc_deliveries k) k'.
Proof.
  intros Hk Hd Hc Hcur Hch Hgone. destruct (sys_send_typed_enters (S n) ci tag version payload t cur k Hk Hc Hcur) as (m & k1 & _ & Hf1 & ->).
  assert (kernel_wf k1) as Hk1 by (eapply ipc_frame_wf; [done|apply Hk|done]).
  assert (depth_ok k1) as Hd1 by (unfold depth_ok; by rewrite (if_depth _ _ _ _ Hf1)).
  assert (k_sched k1 = k_sched k /\ k_ipc_deliveries k1 = k_ipc_deliveries k) as [Hs1 Hi1] by (destruct Hf1 as [(a & ->) _ _]; done).
  destruct (send_loop_step n cur ci m k1 Hk1 Hd1) as (k2 & Hf2 & ->). rewrite Hs1 in Hf2 |- *.
  assert (send_effect (k_sched k) cur ci m = (Ok Gone, k_sched k)) as Heff.
  { unfold send_effect. rewrite Hch. by destruct Hgone as [-> | ->]. }
  rewrite Heff in Hf2 |- *. cbn [fst snd deliveries_after] in *.
  assert (kernel_wf k2) as Hk2 by (eapply ipc_frame_wf; [done|apply Hk|done]).
  destruct (send_gone_spec cur k2 Hk2) as (k3 & -> & Hf3). exists k3. split; [done|].
  assert (k_sched k2 = k_sched k /\ k_ipc_deliveries k2 = k_ipc_deliveries k1) as [Hs2 Hi2] by (destruct Hf2 as [(a & ->) _ _]; done).
  rewrite Hs2, Hi2, Hi1 in Hf3. eapply ipc_frame_trans; [|exact Hf3]. eapply ipc_frame_trans; [exact Hf1|]. exact Hf2.
Qed.

(** ** The watchdog *)

Section watchdog.
Context `{L : Layout} `{BI : BootImage}.

Definition is_dead (s : Scheduler) (id : TaskId) : bool :=
  match get_task s id with Some t => state_is Terminated t | None => true end.
Definition incarnations (k : Kernel) : N := mem_rd (k_mem k) FRAGILE_INCARNATION.

(** One round of the watchdog: the kernel it found, its decision, the kernel it
    left. *)
Record Round : Type := mkRound { rd_before : Kernel; rd_verdict : Verdict; rd_after : Kernel }.

(** Running a task: after each suspension the other tasks do the next element of
    [es] and switch back to it.  The value is [None] when the task is suspended and
    [es] is used up. *)
Fixpoint drive {A} (es : list (Kernel -> Kernel)) (o : outcome (Res A * Kernel)) : outcome (option A * Kernel) :=
  let! (r, k) := o in
  match r, es with
  | Done a, _ => Ret (Some a, k)
  | Paused _, [] => Ret (None, k)
  | Paused resume, e :: es' => drive es' (resume (e k))
  end.

(** The rounds [rs] from [k] on, each after a yield: one that returns at once, or
    one that suspends the task and is resumed by the other tasks.  At the end the
    other tasks have [es'] left and the kernel is [k']. *)
Inductive rounds : list (Kernel -> Kernel) -> Kernel -> list Round -> list (Kernel -> Kernel) -> Kernel -> Prop :=
| rounds_nil es k : rounds es k [] es k
| rounds_alone es k r rs es' k' :
    yield_cpu k = Ret (Done tt, rd_before r) -> rounds es (rd_after r) rs es' k' -> rounds es k (r :: rs) es' k'
| rounds_resumed e es k resume k1 r rs es' k' :
    yield_cpu k = Ret (Paused resume, k1) -> resume (e k1) = Ret (Done tt, rd_before r) ->
    rounds es (rd_after r) rs es' k' -> rounds (e :: es) k (r :: rs) es' k'.

(** The watchdog is running, in a well-formed kernel whose tasks all have a stack
    to run on. *)
Record on_watch (k : Kernel) : Prop := {
  ow_wf : kernel_wf k;
  ow_current : s_current_task_id (k_sched k) = Some HARNESS_WATCHDOG;
  ow_slot : is_Some (task_slot (k_sched k) HARNESS_WATCHDOG);
  ow_stacks i t : task_slot (k_sched k) i = Some t -> t_rsp t <> 0
}.

(** What other tasks may do: anything that keeps the kernel well formed and comes
    back to the watchdog. *)
Definition comes_back (e : Kernel -> Kernel) : Prop := forall k, kernel_wf k -> on_watch (e k).

Definition service_entry : Entry := (HARNESS_SERVICE, task_fragile_service_entry, [minted Serial false true false]).

Definition round_ok (r : Round) : Prop :=
  let k := rd_before r in let k' := rd_after r in
  match rd_verdict r with
  | Watching => is_dead (k_sched k) HARNESS_SERVICE = false /\ incarnations k <= MAX_RESTARTS /\ k' = k
  | Restarted => is_dead (k_sched k) HARNESS_SERVICE = true /\ loads [service_entry] false k k' /\
      exists t, task_slot (k_sched k') HARNESS_SERVICE = Some t /\
        t_cap_table t = front [with_id (minted Serial false true false) (am_next_cap_id (k_amb k))] /\
        t_rsp t = stack_hi HARNESS_SERVICE - 72
  | GaveUp _ => is_dead (k_sched k) HARNESS_SERVICE = true /\ k_sched k' = ended HARNESS_WATCHDOG (k_sched k)
  | Recovered _ => is_dead (k_sched k) HARNESS_SERVICE = false /\ MAX_RESTARTS < incarnations k /\
      k_sched k' = ended HARNESS_WATCHDOG (k_sched k)
  end.

Lemma task_is_terminated_run i k : kernel_wf k -> task_is_terminated i k = Ret (is_dead (k_sched k) i, k).
Proof.
  intros [Hs Hl Ha]. unfold task_is_terminated, kbind, lock_sched, unlock_sched, kget_task, kget, kmod, kret. rewrite Hl. cbn [obind].
  ksimp. f_equal. f_equal. destruct k. simpl in *. by subst.
Qed.

Lemma watchdog_round_spec restarts k :
  on_watch k -> stacks_fit -> restarts <= MAX_RESTARTS ->
  wp (watchdog_round restarts) (fun '(r, v) k' => kernel_wf k' /\ round_ok (mkRound k v k') /\
    match v with
    | Watching => r = restarts
    | Restarted => r = restarts + 1 /\ r <= MAX_RESTARTS
    | GaveUp _ => restarts = MAX_RESTARTS
    | Recovered _ => True
    end) k.
Proof.
  intros [Hk Hcur [tw Htw] _] Hfit Hr. unfold watchdog_round. apply wp_kbind. unfold wp at 1. rewrite task_is_terminated_run by done.
  destruct (is_dead (k_sched k) HARNESS_SERVICE) eqn:Hd.
  - destruct (restarts <? MAX_RESTARTS) eqn:Hlt; bool_to_prop.
    + apply wp_kbind. assert (MAX_RESTARTS + 1 < u64_limit) by done. eapply wp_klift; [apply add64_ok; lia|].
      apply wp_kbind, wp_lock_sched; [apply Hk|]. apply wp_kbind, wp_kcaps_new; [simpl; lia|]. intros a _. ksimp.
      apply wp_kbind, wp_place_task; [done..|]. apply wp_kbind, wp_unlock_sched, wp_kret.
      match goal with |- kernel_wf ?k' /\ _ => assert (loads [service_entry] false k k') as Hl end.
      { eapply loads_lock. apply (loads_place [] true); [done|done|simpl; lia|apply not_elem_of_nil|].
        eapply loads_amb, loads_lock, loads_nil, Hk. }
      split; [split; [apply Hl|apply Hl|rewrite (ls_audit _ _ _ _ Hl); apply Hk]|]. split; [|lia].
      split; [done|]. split; [exact Hl|].
      exists (fresh_task HARNESS_SERVICE (front (stamped (am_next_cap_id (k_amb k)) [minted Serial false true false])) (set_k_amb a (set_k_sched_locked true k))).
      split; [|done]. cbn [rd_after rd_before].
      pose proof (placed_slot HARNESS_SERVICE task_fragile_service_entry (front (stamped (am_next_cap_id (k_amb k)) [minted Serial false true false]))
        (set_k_amb a (set_k_sched_locked true k)) HARNESS_SERVICE (kw_sched _ Hk) eq_refl) as Hp. by rewrite decide_True in Hp.
    + apply wp_kbind. eapply wp_mono; [by apply (wp_terminate HARNESS_WATCHDOG tw)|]. intros b k' [Hk' Hs']. apply wp_kret.
      split; [done|]. split; [done|]. lia.
  - apply wp_kbind, wp_kget. destruct (MAX_RESTARTS <? _) eqn:Hlt; bool_to_prop.
    + apply wp_kbind. eapply wp_mono; [by apply (wp_terminate HARNESS_WATCHDOG tw)|]. intros b k' [Hk' Hs']. apply wp_kret. done.
    + apply wp_kret. done.
Qed.

Definition restarted (r : Round) : bool := match rd_verdict r with Restarted => true | _ => false end.
Definition watching (r : Round) : bool := match rd_verdict r with Watching => true | _ => false end.
Definition exits (r : Round) : bool := match rd_verdict r with GaveUp _ | Recovered _ => true | _ => false end.
Definition gave_up (r : Round) : bool := match rd_verdict r with GaveUp _ => true | _ => false end.

Definition count (f : Round -> bool) (rs : list Round) : N := lenN (List.filter f rs).

Lemma count_cons f r rs : count f (r :: rs) = (if f r then 1 else 0) + count f rs.
Proof. unfold count, lenN. simpl. destruct (f r); simpl; lia. Qed.

(** The watchdog is still running after a round that does not end it. *)
Lemma round_on_watch k v k' :
  on_watch k -> kernel_wf k' -> round_ok (mkRound k v k') -> (v = Watching \/ v = Restarted) -> on_watch k'.
Proof.
  intros [Hk Hcur Hslot Hst] Hk' Hok [-> | ->]; [destruct Hok as (_ & _ & Heq); cbn [rd_after rd_before] in Heq; by subst|].
  destruct Hok as (_ & Hl & t & Ht & _ & Hrsp). cbn [rd_before rd_after] in *.
  assert (forall j, j <> HARNESS_SERVICE -> task_slot (k_sched k') j = task_slot (k_sched k) j) as Ho.
  { intros j Hj. apply (ls_others _ _ _ _ Hl). simpl. by intros ->%list_elem_of_singleton. }
  split; [done|by rewrite (ls_current _ _ _ _ Hl)|by rewrite Ho|]. intros i ti. destruct (decide (i = HARNESS_SERVICE)) as [->|Hi].
  - rewrite Ht. intros [= <-]. rewrite Hrsp. pose proof (stack_hi_ge HARNESS_SERVICE) as Hge. unfold STACK_SIZE in Hge. lia.
  - rewrite Ho by done. apply Hst.
Qed.

Lemma on_watch_restore b k : on_watch k -> on_watch (restore_interrupts b k).
Proof. intros [Hk ? ? ?]. split; [by apply restore_interrupts_wf|by rewrite restore_interrupts_sched..]. Qed.

(** A yield of the watchdog returns at once with nothing changed, or suspends it in
    a well-formed kernel. *)
Lemma yield_on_watch k :
  on_watch k -> yield_cpu k = Ret (Done tt, k) \/ exists resume k1, yield_cpu k = Ret (Paused resume, k1) /\ kernel_wf k1.
Proof.
  intros [Hk Hcur Hslot Hst]. destruct (yield_choice (k_sched k)) as [[c n]|] eqn:Hch; [right|left; by apply yield_cpu_alone].
  unfold yield_cpu, yield_switch. unfold kbind at 1. cbn [kmod obind]. set (k0 := on_machine (on_cpu cli) k).
  pose proof (yield_plan_spec k0 (cli_kernel_wf k _ Hk)) as Hp. change (k_sched k0) with (k_sched k) in Hp. rewrite Hch in Hp.
  apply wp_run in Hp as (plan & k1 & Hrun & a & tn & Htr & Htn & -> & ->). unfold kbind at 1. rewrite Hrun. cbn [obind].
  unfold perform_switch. cbn [pl_save pl_rsp]. rewrite (proj2 (N.eqb_neq _ _)) by eauto. unfold kbind, kmod. cbn [obind].
  destruct (call_switch_context _ _ _) as [old mc]. cbn [obind kret]. eexists _, _. split; [reflexivity|].
  apply yield_choice_spec in Hch as (_ & Hcn & _). destruct Hk as [Hs Hl Ha].
  pose proof (handoff_wf c n _ Hcn Hs) as Hh. destruct c as [i|]; cbn [save_area save_rsp]; [|by split].
  split; [|done|done]. unfold on_sched. ksimp. destruct (task_slot _ i) as [t|] eqn:Ht; [|done].
  apply put_slot_wf; [done|]. intros ? [= <-]. destruct (sched_wf_task _ Hh _ _ Ht). split; [exact (sched_wf_id _ Hh _ _ Ht)|by split].
Qed.

(** How a run of the watchdog stands after the rounds [rs]. *)
Definition run_ends (fuel : nat) (rs : list Round) (es' : list (Kernel -> Kernel)) (k' : Kernel) (o : outcome (option Verdict * Kernel)) : Prop :=
  match o with
  | Ret (Some v, k2) => k2 = k' /\ exists before last, rs = before ++ [last] /\ rd_verdict last = v /\ exits last = true /\ count exits before = 0
  | Ret (None, k2) => count exits rs = 0 /\ es' = [] /\ exists resume, yield_cpu k' = Ret (Paused resume, k2)
  | OutOfFuel => count exits rs = 0 /\ length rs = fuel
  | Panic | Hang => False
  end.

Lemma run_ends_cons fuel r rs es' k' o : exits r = false -> run_ends fuel rs es' k' o -> run_ends (S fuel) (r :: rs) es' k' o.
Proof.
  intros Hr. destruct o as [[[v|] k2]| | |]; simpl; try done; rewrite ?count_cons, ?Hr; simpl.
  - intros (-> & b & l & -> & Hv & Hl & Hb). split; [done|]. exists (r :: b), l. by rewrite count_cons, Hr.
  - done.
  - intros [-> ->]. done.
Qed.

(** The body of the loop after the yield. *)
Definition watchdog_turn (fuel : nat) (restarts : N) : R Verdict :=
  let+ (restarts, v) := rlift (watchdog_round restarts) in
  match v with
  | Watching | Restarted => watchdog_loop fuel restarts
  | GaveUp _ | Recovered _ => rret v
  end.

Definition loop_ok (fuel : nat) : Prop := forall es restarts k,
  on_watch k -> restarts <= MAX_RESTARTS -> Forall comes_back es ->
  exists rs es' k', rounds es k rs es' k' /\ Forall round_ok rs /\
    restarts + count restarted rs <= MAX_RESTARTS /\
    (count gave_up rs <> 0 -> restarts + count restarted rs = MAX_RESTARTS) /\
    (count exits rs = 0 -> count restarted rs + count watching rs = lenN rs) /\
    run_ends fuel rs es' k' (drive es (watchdog_loop fuel restarts k)).

Lemma turn_spec fuel es restarts k :
  stacks_fit -> loop_ok fuel -> on_watch k -> restarts <= MAX_RESTARTS -> Forall comes_back es ->
  exists r rs es' k', rd_before r = k /\ rounds es (rd_after r) rs es' k' /\ Forall round_ok (r :: rs) /\
    restarts + count restarted (r :: rs) <= MAX_RESTARTS /\
    (count gave_up (r :: rs) <> 0 -> restarts + count restarted (r :: rs) = MAX_RESTARTS) /\
    (count exits (r :: rs) = 0 -> count restarted (r :: rs) + count watching (r :: rs) = lenN (r :: rs)) /\
    run_ends (S fuel) (r :: rs) es' k' (drive es (watchdog_turn fuel restarts k)).
Proof.
  intros Hfit IH Hk Hr Hes. pose proof (watchdog_round_spec restarts k Hk Hfit Hr) as Hw.
  apply wp_run in Hw as ([n v] & k2 & Hrun & Hk2 & Hok & Hv). unfold watchdog_turn. rewrite (rbind_rlift _ _ _ _ _ Hrun).
  exists (mkRound k v k2). assert (forall r rs, lenN (r :: rs) = 1 + lenN (A := Round) rs) as Hlen by (intros; unfold lenN; simpl; lia).
  destruct v as [| |b|b].
  - subst n. destruct (IH es restarts k2) as (rs & es' & k' & H1 & H2 & H3 & H4 & H5 & H6); [by eapply round_on_watch; eauto|done..|].
    exists rs, es', k'. rewrite !count_cons, Hlen. simpl. split_and!; [done|done|by constructor|lia|lia|lia|by apply run_ends_cons].
  - destruct Hv as [-> Hv]. destruct (IH es (restarts + 1) k2) as (rs & es' & k' & H1 & H2 & H3 & H4 & H5 & H6); [by eapply round_on_watch; eauto|done..|].
    exists rs, es', k'. rewrite !count_cons, Hlen. simpl. split_and!; [done|done|by constructor|lia|lia|lia|by apply run_ends_cons].
  - exists [], es, k2. unfold count, lenN. simpl. split_and!; [done|apply rounds_nil|constructor; [exact Hok|apply Forall_nil_2]|lia|lia|lia|].
    destruct es; (split; [done|]); by exists [], (mkRound k (GaveUp b) k2).
  - exists [], es, k2. unfold count, lenN. simpl. split_and!; [done|apply rounds_nil|constructor; [exact Hok|apply Forall_nil_2]|lia|lia|lia|].
    destruct es; (split; [done|]); by exists [], (mkRound k (Recovered b) k2).
Qed.

Lemma watchdog_loop_spec fuel : stacks_fit -> loop_ok fuel.
Proof.
  intros Hfit. induction fuel as [|fuel IH]; intros es restarts k Hk Hr Hes.
  { exists [], es, k. unfold count, lenN. simpl. split_and!; [apply rounds_nil|constructor|lia|lia|lia|]. by destruct es. }
  change (watchdog_loop (S fuel) restarts) with (rbind yield_cpu (fun _ => watchdog_turn fuel restarts)).
  destruct (yield_on_watch k Hk) as [Hy|(y & k1 & Hy & Hk1)].
  - destruct (turn_spec fuel es restarts k Hfit IH Hk Hr Hes) as (r & rs & es' & k' & H0 & H1 & H2).
    exists (r :: rs), es', k'. split; [by eapply rounds_alone; [rewrite H0|]|]. unfold rbind. rewrite Hy. exact H2.
  - destruct (rbind_yield (watchdog_turn fuel restarts) k y k1 Hy) as (resume & -> & Hres).
    destruct es as [|e es].
    { exists [], [], k. unfold count, lenN. simpl. split_and!; [apply rounds_nil|constructor|lia|lia|lia|done|done|by exists y]. }
    apply Forall_cons in Hes as [He Hes]. cbn [drive obind]. rewrite Hres. set (k2 := restore_interrupts _ _).
    destruct (turn_spec fuel es restarts k2 Hfit IH) as (r & rs & es' & k' & H0 & H1 & H2); [by apply on_watch_restore, He|done..|].
    exists (r :: rs), es', k'. split; [|exact H2]. eapply rounds_resumed; [exact Hy| |exact H1]. rewrite H0.
    unfold yield_cpu in Hy. apply obind_Ret in Hy as ([[] kx] & _ & Hy); [|done]. by injection Hy as <- _.
Qed.

(** C19: The watchdog task recovers its service a bounded number of times.  Run it
    for [fuel] turns of its loop, the other tasks doing anything that comes back to
    it at each of its yields.  It never panics and never hangs, and each of its
    rounds does one of four things: it leaves a live service that has not settled
    alone, changing nothing; it replaces a dead one by a fresh task at the service's
    entry, with one newly minted serial capability, changing no other task; it ends
    because the service is alive after its last crash; or it ends because the
    service is dead and was restarted twice.  Over the whole run it restarts the
    service at most twice and gives up only after exactly two restarts.  It runs on,
    or waits at a yield, only while at most two of its rounds found anything but a
    live unsettled service: the third such round ends it. *)
Theorem watchdog_exact fuel es k :
  on_watch k -> stacks_fit -> Forall comes_back es ->
  exists rs es' k', rounds es k rs es' k' /\ Forall round_ok rs /\
    count restarted rs <= 2 /\ (count gave_up rs <> 0 -> count restarted rs = 2) /\
    (count exits rs = 0 -> lenN rs <= 2 + count watching rs) /\
    run_ends fuel rs es' k' (drive es (task_watchdog fuel k)).
Proof.
  intros Hk Hfit Hes. destruct (watchdog_loop_spec fuel Hfit es 0 k Hk ltac:(done) Hes) as (rs & es' & k' & H1 & H2 & H3 & H4 & H5 & H6).
  unfold MAX_RESTARTS in *. exists rs, es', k'. split_and!; [done|done|lia|lia|lia|done].
Qed.
End watchdog.

(** ** Examples *)

#[local] Instance example_image : BootImage := {|
  shell_main := 0xffffffff80100000; task_crasher_entry := 0xffffffff80100100; task_dead_target_entry := 0xffffffff80100200;
  task_probe_entry := 0xffffffff80100300; task_worker_entry := 0xffffffff80100400; task_security_demo_entry := 0xffffffff80100500;
  task_fragile_service_entry := 0xffffffff80100600; task_watchdog_entry := 0xffffffff80100700;
  task_persistence_demo_entry := 0xffffffff80100800; task_dist_demo_entry := 0xffffffff80100900; dist_scratch_entry := 0xffffffff80100a00;
  task_preempt_demo_entry := 0xffffffff80100b00; task_busy_a_entry := 0xffffffff80100c00; task_busy_b_entry := 0xffffffff80100d00;
  task_park_entry := 0xffffffff80100e00; FRAGILE_INCARNATION := 0xffffffff80180000
|}.

(** The processor at the end of [_start], on the boot stack. *)
Definition booting : Kernel := on_machine (on_cpu (set_r_rsp 0xffffffff80008000)) Kernel_init.

(** The service dies before every round. *)
Definition dies (k : Kernel) : Kernel :=
  set_current HARNESS_WATCHDOG (add_task (example_task HARNESS_WATCHDOG Running [])
    (add_task (example_task HARNESS_SERVICE Terminated []) (set_k_sched Scheduler_init k))).

Lemma dies_slot k i :
  task_slot (k_sched (dies k)) i =
    if decide (HARNESS_WATCHDOG = i) then Some (example_task HARNESS_WATCHDOG Running [])
    else if decide (HARNESS_SERVICE = i) then Some (example_task HARNESS_SERVICE Terminated []) else None.
Proof.
  change (k_sched (dies k)) with (k_sched (dies Kernel_init)). unfold dies, set_current, add_task, on_sched. ksimp.
  change (task_slot (set_s_current_task_id _ ?s) ?j) with (task_slot s j). rewrite task_slot_put by done.
  case_decide as H; change (t_id (example_task ?i ?st ?c)) with i in H; [by rewrite decide_True|rewrite decide_False by done].
  rewrite task_slot_put by done.
  case_decide as H2; change (t_id (example_task ?i ?st ?c)) with i in H2; [by rewrite decide_True|rewrite decide_False by done].
  apply task_slot_init.
Qed.

Lemma dies_comes_back : comes_back dies.
Proof.
  intros k [_ Hl Ha]. split.
  - apply set_current_wf, add_task_wf; [apply example_task_wf; simpl; lia|]. apply add_task_wf; [apply example_task_wf; simpl; lia|].
    by split; [apply Scheduler_init_wf|..].
  - done.
  - rewrite dies_slot. by rewrite decide_True.
  - intros i t. rewrite dies_slot. repeat case_decide; by intros [= <-].
Qed.

(** The watchdog over a service that dies before every round: two restarts, then
    it gives up. *)
Lemma watchdog_exact_witness :
  match drive [dies; dies] (task_watchdog (L := example_layout) 5 (dies booting)) with Ret (Some (GaveUp _), _) => True | _ => False end /\
  exists rs es' k', rounds (L := example_layout) [dies; dies] (dies booting) rs es' k' /\ Forall (round_ok (L := example_layout)) rs /\
    count restarted rs <= 2 /\ (count gave_up rs <> 0 -> count restarted rs = 2) /\
    (count exits rs = 0 -> lenN rs <= 2 + count watching rs) /\
    run_ends (L := example_layout) 5 rs es' k' (drive [dies; dies] (task_watchdog (L := example_layout) 5 (dies booting))).
Proof.
  split; [vm_compute; exact I|].
  apply (watchdog_exact (L := example_layout)).
  - apply dies_comes_back, cli_kernel_wf, Kernel_init_wf.
  - done.
  - repeat (apply Forall_cons; split; [apply dies_comes_back|]). by apply Forall_nil.
Defined.

(** *** The demonstration, run *)

(** Suspended tasks, and one step of the whole system: the running task continues
    until it gives the processor away or ends. *)
Definition Pool : Type := gmap N (Res bool).

Definition system_step (program : TaskId -> R bool) (st : Pool * Kernel) : outcome (Pool * Kernel) :=
  let '(pool, k) := st in
  match s_current_task_id (k_sched k) with
  | None => Ret st
  | Some i =>
      let m := match pool !! i with Some (Paused resume) => resume | _ => program i end in
      let! (r, k') := m k in
      Ret (match r with Done _ => delete i pool | Paused _ => <[i := r]> pool end, k')
  end.

Fixpoint system_run (program : TaskId -> R bool) (n : nat) (st : Pool * Kernel) : outcome (Pool * Kernel) :=
  match n with
  | O => Ret st
  | S n' => let! st' := system_step program st in system_run program n' st'
  end.

Definition watchdog_program (i : TaskId) : R bool :=
  if i =? HARNESS_SERVICE then task_fragile_service (L := example_layout) 20 (mkExceptionFrame 0 0 0 0 0 0 0 0 0 0 0 0 0 0 0 14 0 0 8 2 0 16)
  else let+ _ := task_watchdog (L := example_layout) 20 in rret true.

(** Boot with the two tasks and run [n] steps; observe whether service and
    watchdog have ended, the incarnations, the faults and the tasks created. *)
Definition watchdog_demo (n : nat) : option (bool * bool * N * N * N) :=
  match load_watchdog_demo (L := example_layout) booting with
  | Ret (_, k) =>
      match yield_cpu (L := example_layout) k with
      | Ret (_, k1) =>
          match system_run watchdog_program n (∅, k1) with
          | Ret (_, k2) => Some (is_dead (k_sched k2) HARNESS_SERVICE, is_dead (k_sched k2) HARNESS_WATCHDOG,
                                 incarnations k2, k_faults_caught k2, k_tasks_spawned k2)
          | _ => None
          end
      | _ => None
      end
  | _ => None
  end.

(** Two crashes, two restarts, a stable third incarnation; the watchdog sees it
    and ends. *)
Example watchdog_demo_recovers : watchdog_demo 10 = Some (false, true, 3, 2, 4).
Proof. vm_compute. reflexivity. Qed.
