(* ===== verification/Reports.v ===== *)
(** * What the console prints

    The print macros of [kernel/shell/mod.rs] as reports (level, format string,
    arguments), the text [core::fmt] makes of them, the listing of the trace ring
    and the line-by-line comparison of the [watch] command.  [decimal_parses] ties
    the numbers printed to the numbers the console reads. *)

From S2P Require Import Prelude Ring Text Preempt Trace Capability Message.
From S2P Require Import Keyboard Serial Console CommandLine.
Local Open Scope N_scope.

(** ** Reports *)

(** The arguments of a format string. *)
Inductive Arg : Type :=
| Num (n : N) | Str (bytes : list N) | Error (e : IpcError) | Flag (b : bool) | Origin (o : option N).
Inductive Level : Type := OkLevel | FailLevel | InfoLevel | PassLevel | CmdLevel | VulnLevel | WarnLevel | LineLevel | RawLevel
| CaptureOn | CaptureOff.

(** One print macro: its level, its format string and its arguments. *)
Record Report : Type := mkReport { rp_level : Level; rp_format : string; rp_args : list Arg }.

Definition print_ok (f : string) (l : list Arg) : Report := mkReport OkLevel f l.
Definition print_fail (f : string) (l : list Arg) : Report := mkReport FailLevel f l.
Definition print_info (f : string) (l : list Arg) : Report := mkReport InfoLevel f l.
Definition print_cmd (f : string) (l : list Arg) : Report := mkReport CmdLevel f l.
Definition print_pass (f : string) (l : list Arg) : Report := mkReport PassLevel f l.
Definition print_vuln (f : string) (l : list Arg) : Report := mkReport VulnLevel f l.
Definition print_warn (f : string) (l : list Arg) : Report := mkReport WarnLevel f l.

(** [println!] and [print!]. *)
Definition println (f : string) (l : list Arg) : Report := mkReport LineLevel f l.
Definition print (f : string) (l : list Arg) : Report := mkReport RawLevel f l.

(** [REDIRECT_TARGET] set to the buffer of [watch], and cleared. *)
Definition capture_on : Report := mkReport CaptureOn "" [].
Definition capture_off : Report := mkReport CaptureOff "" [].

(** ** Formatting *)

(** The digits of [v] in base [b], most significant first. *)
Fixpoint digits (fuel : nat) (b v : N) : list N :=
  match fuel with
  | O => []
  | S fuel' => if v <? b then [v] else digits fuel' b (v / b) ++ [v mod b]
  end.
Definition digit_char (d : N) : N := if d <? 10 then 48 + d else 87 + d.
Definition decimal (v : N) : list N := digit_char <$> digits (S (N.to_nat (N.size v))) 10 v.
Definition hexadecimal (v : N) : list N := as_bytes "0x" ++ (digit_char <$> digits (S (N.to_nat (N.size v))) 16 v).

(** The derived [Debug] of [IpcError]. *)
Definition error_name (e : IpcError) : string :=
  match e with
  | NoCapability => "NoCapability" | TargetGone => "TargetGone" | PayloadTooLarge => "PayloadTooLarge"
  | InvalidTag => "InvalidTag" | BadVersion => "BadVersion" | NoContext => "NoContext"
  | QueueFull => "QueueFull" | NoMessage => "NoMessage"
  end.

(** One placeholder; [spec] is what follows its colon. *)
Definition arg_text (spec : list N) (a : Arg) : list N :=
  match a with
  | Num n =>
      if bool_decide (spec = as_bytes "#x") then hexadecimal n
      else if bool_decide (spec = as_bytes "02") then replicate (2 - length (decimal n)) 48 ++ decimal n
      else if bool_decide (spec = as_bytes "<3") then decimal n ++ replicate (3 - length (decimal n)) SPACE
      else decimal n
  | Str bytes => bytes
  | Error e => as_bytes (error_name e)
  | Flag b => as_bytes (if b then "true" else "false")
  | Origin o => match o with Some n => as_bytes "Some(" ++ decimal n ++ as_bytes ")" | None => as_bytes "None" end
  end.

(** [format_args!]: [spec] is the placeholder being read. *)
Fixpoint format (spec : option (list N)) (f : list N) (args : list Arg) : list N :=
  match f, spec with
  | [], _ => []
  | b :: f', None => if b =? 123 then format (Some []) f' args else b :: format None f' args
  | b :: f', Some s =>
      if b =? 125 then
        match args with a :: args' => arg_text s a ++ format None f' args' | [] => format None f' [] end
      else format (Some (if b =? 58 then [] else s ++ [b])) f' args
  end.

Definition coloured (colour prefix : string) (text : list N) : list N :=
  [ESC] ++ as_bytes colour ++ as_bytes prefix ++ text ++ [ESC] ++ as_bytes "[0m" ++ [LF].

(** The bytes a print macro sends to [_print]. *)
Definition report_text (r : Report) : list N :=
  let text := format None (as_bytes (rp_format r)) (rp_args r) in
  match rp_level r with
  | CmdLevel => coloured "[0m" "[CMD]   " text
  | OkLevel => coloured "[32m" "[OK]    " text
  | FailLevel => coloured "[31m" "[FAIL]  " text
  | PassLevel => coloured "[36m" "[PASS]  " text
  | VulnLevel => coloured "[33m" "[VULN]  " text
  | InfoLevel => coloured "[37m" "[INFO]  " text
  | WarnLevel => coloured "[33m" "[WARN]  " text
  | LineLevel => text ++ [LF]
  | RawLevel => text
  | CaptureOn | CaptureOff => []
  end.

(** ** The trace listing *)

Definition op_name (names : list string) (p : N) : Arg := Str (as_bytes (default "unknown"%string (names !! N.to_nat p))).

(** The line of [print_trace_summary] for one event. *)
Definition event_line (ev : TraceEvent) : Report :=
  let tick := Num (te_tick ev) in
  let p1 := Num (te_param1 ev) in
  let p2 := Num (te_param2 ev) in
  let msg := te_msg ev in
  if bool_decide (msg ∈ ["sched_switch_yield"; "sched_switch_preempt"; "sched_switch_term"]%string) then
    let switch_type :=
      if bool_decide (msg = "sched_switch_yield"%string) then "yield"%string
      else if bool_decide (msg = "sched_switch_preempt"%string) then "preempt"%string else "term"%string in
    print_info "  [{}] sched: switch ({}) task {} -> task {}" [tick; Str (as_bytes switch_type); p1; p2]
  else if bool_decide (msg ∈ ["ipc_send"; "ipc_send_async"]%string) then
    let is_async := if bool_decide (msg = "ipc_send_async"%string) then " (async)"%string else ""%string in
    print_info "  [{}] ipc: send{} cap_slot={}, tag={}" [tick; Str (as_bytes is_async); p1; p2]
  else if bool_decide (msg ∈ ["ipc_receive"; "ipc_receive_async"]%string) then
    let is_async := if bool_decide (msg = "ipc_receive_async"%string) then " (async)"%string else ""%string in
    print_info "  [{}] ipc: receive{} by task {}" [tick; Str (as_bytes is_async); p1]
  else if bool_decide (msg = "cpu_exception"%string) then
    print_info "  [{}] fault: exception vector {} at rip={:#x}" [tick; p1; p2]
  else if bool_decide (msg = "cap_insert"%string) then print_info "  [{}] cap: insert id={} at slot {}" [tick; p1; p2]
  else if bool_decide (msg = "cap_lookup"%string) then print_info "  [{}] cap: lookup slot {}, cap id {}" [tick; p1; p2]
  else if bool_decide (msg = "cap_revoke"%string) then
    print_info "  [{}] cap: revoke/remove slot {}, cap id {}" [tick; p1; p2]
  else if bool_decide (msg = "fs_op"%string) then
    print_info "  [{}] fs: op {} status={}"
      [tick; op_name ["mkdir"; "write"; "read"; "ls"; "delete"; "stat"]%string (te_param1 ev); p2]
  else if bool_decide (msg = "dev_op"%string) then
    print_info "  [{}] dev: op {} status={}" [tick; op_name ["read"; "write"]%string (te_param1 ev); p2]
  else if bool_decide (msg = "sync_op"%string) then
    print_info "  [{}] sync: op {} status={}" [tick; op_name ["create"; "acquire"; "release"]%string (te_param1 ev); p2]
  else print_info "  [{}] {}: param1={}, param2={}" [tick; Str (as_bytes msg); p1; p2].

Definition print_trace_summary (tr : TraceRing) : outcome (list Report) :=
  let! (total, events, overflowed) := trace_summary tr in
  Ret (print_ok "trace: {} events captured" [Num total] :: (event_line <$> events) ++
       if overflowed then [print_warn "  [trace ring buffer overflowed: oldest events overwritten]" []] else []).

(** ** The comparison of [watch] *)

Definition not_lf (b : N) : bool := negb (b =? LF).

(** [&buf[pos..end]] up to the next line feed, and the position after it. *)
Definition next_line (buf : list N) (pos : N) : outcome (list N * N) :=
  let! end_ := scan (S (length buf)) not_lf buf pos in
  let! line := slice buf pos end_ in
  let! pos' := add64 end_ (if end_ <? lenN buf then 1 else 0) in
  Ret (line, pos').

(** [if l.ends_with(b"\r") { &l[..l.len() - 1] } else { l }]. *)
Definition strip_cr (l : list N) : list N := if bool_decide (last l = Some CR) then take (length l - 1) l else l.

(** One line of output: highlighted if it is different. *)
Definition diff_line (different : bool) (l : list N) : list N :=
  if utf8_valid l then
    if different then [ESC] ++ as_bytes "[33m* " ++ l ++ [ESC] ++ as_bytes "[0m" ++ [LF] else as_bytes "  " ++ l ++ [LF]
  else [].

(** The loop of [print_diffed_buffers], with what it has printed. *)
Fixpoint diff_loop (fuel : nat) (cur prev : list N) (cur_pos prev_pos : N) (out : list N) : outcome (list N) :=
  match fuel with
  | O => OutOfFuel
  | S fuel' =>
      if cur_pos <? lenN cur then
        let! (cur_line, cur_pos) := next_line cur cur_pos in
        let! (prev_line, prev_pos) :=
          if prev_pos <? lenN prev then let! (l, p) := next_line prev prev_pos in Ret (Some l, p) else Ret (None, prev_pos) in
        let clean_cur := strip_cr cur_line in
        let is_different := match strip_cr <$> prev_line with Some p => negb (bool_decide (clean_cur = p)) | None => true end in
        diff_loop fuel' cur prev cur_pos prev_pos (out ++ diff_line is_different clean_cur)
      else Ret out
  end.

(** What a report does to the buffer of [watch]; the flag says whether prints go
    there. *)
Definition capture_step (r : Report) (s : bool * Redirect) : outcome (bool * Redirect) :=
  let '(redirected, d) := s in
  match rp_level r with
  | CaptureOn => Ret (true, mkRedirect (rd_buf d) 1024 0)
  | CaptureOff => Ret (false, d)
  | _ => if redirected then let! d' := RedirectWriter_write_str (report_text r) d in Ret (true, d') else Ret (false, d)
  end.

(** The statics [WATCH_BUF_CUR], [WATCH_BUF_PREV] and their lengths. *)
Record WatchState : Type := mkWatchState { wt_cur : list N; wt_prev : list N; wt_len_cur : N; wt_len_prev : N }.

Definition print_diffed_buffers (w : WatchState) : outcome (list N) :=
  let! cur := slice (wt_cur w) 0 (wt_len_cur w) in
  let! prev := slice (wt_prev w) 0 (wt_len_prev w) in
  diff_loop (S (length cur)) cur prev 0 0 [].

(** ** Numbers *)

Lemma digits_value fuel b v : 1 < b -> v < b ^ N.of_nat fuel ->
  foldl (fun a d => a * b + d) 0 (digits fuel b v) = v /\ Forall (fun d => d < b) (digits fuel b v) /\ (fuel <> 0%nat -> digits fuel b v <> []).
Proof.
  intros Hb. revert v. induction fuel as [|fuel IH]; intros v Hv; [change (b ^ N.of_nat 0) with 1 in Hv; cbn; split; [lia|by split; [apply Forall_nil_2|]]|].
  cbn [digits]. destruct (v <? b) eqn:Hlt; bool_to_prop; [cbn [foldl]; split; [lia|split; [by repeat constructor|done]]|].
  rewrite Nat2N.inj_succ, N.pow_succ_r' in Hv. destruct (IH (v / b)) as (Hf & Hd & _); [by apply N.Div0.div_lt_upper_bound|].
  rewrite foldl_app, Hf. cbn [foldl]. pose proof (N.div_mod v b ltac:(lia)). split; [lia|]. split; [|intros _; by destruct (digits fuel b (v / b))].
  apply Forall_app. split; [done|]. apply Forall_singleton. apply N.mod_lt. lia.
Qed.

Lemma foldl_decimal l : forall a, Forall (fun d => d < 10) l ->
  foldl (fun v b => v * 10 + (b - 48)) a (digit_char <$> l) = foldl (fun v d => v * 10 + d) a l /\ forallb is_digit (digit_char <$> l) = true.
Proof.
  induction l as [|d l IH]; intros a Hl; [done|]. inversion Hl as [|? ? Hd Hl']; subst. cbn [fmap list_fmap foldl forallb].
  unfold digit_char at 1 3. rewrite (proj2 (N.ltb_lt _ _) Hd). replace (48 + d - 48) with d by lia.
  destruct (IH (a * 10 + d) Hl') as [-> ->]. split; [done|]. unfold is_digit. rewrite !(proj2 (N.leb_le _ _)) by lia. done.
Qed.

Lemma size_bound v b : 2 <= b -> v < b ^ N.of_nat (S (N.to_nat (N.size v))).
Proof.
  intros Hb. rewrite Nat2N.inj_succ, N2Nat.id. apply N.lt_le_trans with (2 ^ N.size v); [apply N.size_gt|].
  transitivity (b ^ N.size v); [by apply N.pow_le_mono_l|]. apply N.pow_le_mono_r; lia.
Qed.

(** A number printed in decimal is read back. *)
Lemma decimal_parses v : v < u64_limit -> parse_usize (decimal v) = Ok v.
Proof.
  intros Hv. rewrite parse_usize_exact. unfold decimal, decimal_value.
  destruct (digits_value (S (N.to_nat (N.size v))) 10 v ltac:(lia) (size_bound v 10 ltac:(lia))) as (Hf & Hd & Hne).
  destruct (foldl_decimal _ 0 Hd) as [-> ->]. rewrite Hf, (proj2 (N.ltb_lt _ _) Hv), bool_decide_false; [done|].
  intros ?%fmap_nil_inv. by apply Hne.
Qed.

(** ** Lines *)

(** The text between line feeds; a final line feed ends the last line. *)
Fixpoint split_lines (cur s : list N) : list (list N) :=
  match s with
  | [] => if bool_decide (cur = []) then [] else [cur]
  | b :: s' => if not_lf b then split_lines (cur ++ [b]) s' else cur :: split_lines [] s'
  end.

(** The lines [watch] compares. *)
Definition watch_lines (s : list N) : list (list N) := strip_cr <$> split_lines [] s.

Lemma split_lines_prefix s : forall cur, cur ++ s <> [] ->
  split_lines cur s = (cur ++ prefix_while not_lf s) :: split_lines [] (drop (S (length (prefix_while not_lf s))) s).
Proof.
  induction s as [|b s IH]; intros cur Hne; cbn [split_lines prefix_while].
  - rewrite app_nil_r in *. by rewrite bool_decide_false.
  - destruct (not_lf b) eqn:Hb; [|by rewrite app_nil_r]. rewrite IH by (by destruct cur). rewrite <- app_assoc. done.
Qed.

Lemma next_line_spec buf pos :
  lenN buf < u64_limit -> pos < lenN buf ->
  exists pos', next_line buf pos = Ret (prefix_while not_lf (drop (N.to_nat pos) buf), pos') /\ pos < pos' <= lenN buf /\
    drop (N.to_nat pos') buf = drop (S (length (prefix_while not_lf (drop (N.to_nat pos) buf)))) (drop (N.to_nat pos) buf).
Proof.
  intros Hlen Hpos. unfold next_line. destruct (scan_split buf Hlen not_lf pos ltac:(lia)) as (j & -> & Hj & Hs & Hd). cbn [obind]. rewrite Hs. cbn [obind].
  destruct (j <? lenN buf) eqn:Hlt; bool_to_prop; rewrite add64_ok by lia; cbn [obind]; eexists; (split; [reflexivity|]); (split; [lia|]).
  - replace (N.to_nat (j + 1)) with (N.to_nat j + 1)%nat by lia. rewrite <- drop_drop, Hd. unfold drop_while. rewrite drop_drop. f_equal. lia.
  - replace (S _) with (length (prefix_while not_lf (drop (N.to_nat pos) buf)) + 1)%nat by lia. rewrite <- drop_drop.
    change (drop (length (prefix_while not_lf ?x)) ?x) with (drop_while not_lf x). rewrite <- Hd, N.add_0_r.
    rewrite !drop_ge; [done|simpl; lia|unfold lenN in *; lia].
Qed.

(** Line by line: highlighted unless the previous run has the same line there. *)
Fixpoint diff_lines (cur prev : list (list N)) : list N :=
  match cur with
  | [] => []
  | c :: cur' => diff_line (negb (bool_decide (head prev = Some c))) c ++ diff_lines cur' (tail prev)
  end.

Lemma diff_loop_spec cur prev fuel : lenN cur < u64_limit -> lenN prev < u64_limit -> forall cp pp out,
  cp <= lenN cur -> pp <= lenN prev -> (N.to_nat (lenN cur - cp) < fuel)%nat ->
  diff_loop fuel cur prev cp pp out =
    Ret (out ++ diff_lines (watch_lines (drop (N.to_nat cp) cur)) (watch_lines (drop (N.to_nat pp) prev))).
Proof.
  intros Hc Hp. induction fuel as [|fuel IH]; intros cp pp out Hcp Hpp Hf; [lia|]. cbn [diff_loop].
  destruct (cp <? lenN cur) eqn:Hlt; bool_to_prop.
  2: { rewrite (drop_ge cur) by (unfold lenN in *; lia). simpl. by rewrite app_nil_r. }
  destruct (next_line_spec cur cp Hc Hlt) as (cp' & -> & Hcp' & Hdc). cbn [obind].
  assert (forall buf p, p < lenN buf -> watch_lines (drop (N.to_nat p) buf) =
    strip_cr (prefix_while not_lf (drop (N.to_nat p) buf)) :: watch_lines (drop (S (length (prefix_while not_lf (drop (N.to_nat p) buf)))) (drop (N.to_nat p) buf))) as Hw.
  { intros buf p Hb. unfold watch_lines. rewrite split_lines_prefix; [done|]. intros He. apply (f_equal length) in He. simpl in He.
    rewrite length_drop in He. unfold lenN in *. lia. }
  rewrite (Hw cur cp Hlt), <- Hdc. cbn [diff_lines]. destruct (pp <? lenN prev) eqn:Hlp; bool_to_prop.
  - destruct (next_line_spec prev pp Hp Hlp) as (pp' & -> & Hpp' & Hdp). cbn [obind]. rewrite IH by lia.
    rewrite (Hw prev pp Hlp), <- Hdp, <- app_assoc. cbn [head tail fmap option_fmap option_map].
    do 5 f_equal. apply bool_decide_ext. split; [by intros ->|by intros [= ->]].
  - cbn [obind]. rewrite IH by lia. rewrite (drop_ge prev) by (unfold lenN in *; lia). simpl. by rewrite <- app_assoc.
Qed.

Lemma diff_lines_at cur : forall prev,
  diff_lines cur prev = concat (imap (fun i l => diff_line (negb (bool_decide (prev !! i = Some l))) l) cur).
Proof.
  induction cur as [|c cur IH]; intros prev; [done|]. cbn [diff_lines imap concat]. rewrite IH. f_equal; [by destruct prev|].
  f_equal. apply imap_ext. intros i x _. by destruct prev.
Qed.

(** The comparison is exact.  [print_diffed_buffers] always completes; it prints
    every line of the current output that is text, in order, and highlights exactly
    those that differ from the line of the same number of the previous output. *)
Lemma watch_diff_exact w :
  wt_len_cur w <= lenN (wt_cur w) -> wt_len_prev w <= lenN (wt_prev w) -> lenN (wt_cur w) < u64_limit -> lenN (wt_prev w) < u64_limit ->
  let cur := watch_lines (take (N.to_nat (wt_len_cur w)) (wt_cur w)) in
  let prev := watch_lines (take (N.to_nat (wt_len_prev w)) (wt_prev w)) in
  print_diffed_buffers w = Ret (concat (imap (fun i l => diff_line (negb (bool_decide (prev !! i = Some l))) l) cur)).
Proof.
  intros Hc Hp Hlc Hlp cur prev. unfold print_diffed_buffers. rewrite !slice_ok by lia. cbn [obind].
  rewrite !N.sub_0_r, !drop_0. rewrite diff_loop_spec; [by rewrite <- diff_lines_at|..]; unfold lenN in *; rewrite ?length_take; lia.
Qed.
