(* ===== verification/Commands.v ===== *)
(** * Console commands

    Models the arms of [dispatch] in [kernel/shell/mod.rs] that change the system
    or talk to a service: capability commands, key-value, log, file-system, device
    and synchronisation commands, the echo service, restarts, checkpoints and the
    history.  What a command prints is a list of reports.
    [Grants] has the results on authority, [Replies] those on encodings. *)

From S2P Require Import Prelude Ring Text Preempt Trace Capability AuditTrail Message Machine Frames.
From S2P Require Import Task Scheduler Kernel Switch Scheduling Spawn Contexts Ipc Rendezvous Messaging.
From S2P Require Import Authority Propagation Delegation Paging AddressSpace UserMemory Userspace Syscall Snapshot Dist.
From S2P Require Import Service KvService LogService FsService SyncService Keyboard CacheSim Serial Console CommandLine DevService Clients Boot Reports.
Local Open Scope N_scope.

(** ** Replies *)

(** What [dispatch] prints and returns. *)
Definition Reply : Type := list Report * result unit unit.
Definition said (l : list Report) : Reply := (l, Ok tt).

(** [parse_usize(tok)?]: a bad number is reported and ends the command. *)
Definition bad_number (tok : list N) : Reply := ([print_fail "bad number: {}" [Str (from_utf8_or_empty tok)]], Err tt).

(** [v as u8]. *)
Definition as_u8 (v : N) : N := v mod 256.

Section commands.
Context `{L : Layout}.

(** The entry points of [park] and of the services. *)
Variables park_entry echo_main kv_main log_main fs_main dev_main sync_main fault_entry : N.

(** ** Capabilities *)

(** [cap.origin = Some(donor.id)] on the slot just filled; the new identity. *)
Definition set_slot_origin (ct : CapTable) (slot donor_id : N) : outcome (N * CapTable) :=
  let! o := arr_get (slots ct) slot in
  match o with
  | Some cap => Ret (cap_id cap, mkCapTable (upd (slots ct) slot (Some (with_origin cap (Some donor_id)))))
  | None => Ret (0, ct)
  end.

(** [cap_table.insert(derived).unwrap()] and the origin. *)
Definition insert_derived (ct : CapTable) (derived : Capability) (donor_id : N) : K (N * CapTable) :=
  fun k =>
    match CapTable_insert ct derived (k_amb k) with
    | (Ok new_slot, ct', a) => let! r := set_slot_origin ct' new_slot donor_id in Ret (r, set_k_amb a k)
    | (Err _, _, _) => Panic
    end.

Definition cap_grant_command (tok2 : list N) : K Reply :=
  match parse_usize tok2 with
  | Err _ => kret (bad_number tok2)
  | Ok id =>
      if MAX_CAPS <=? id then kret (said [print_fail "no capability" []])
      else
        let* sl := get_shell_caps in
        let* o := klift (arr_get sl id) in
        match o with
        | None => kret (said [print_fail "no capability" []])
        | Some donor =>
            match attenuate donor (mkRights true true false) with
            | Err _ => kret (said [print_fail "slot {} lacks grant right" [Num id]])
            | Ok derived =>
                do* lock_sched in
                let* new_task := Task_new 66 park_entry CapTable_new in
                let* (new_id, ct) := insert_derived (t_cap_table new_task) derived (cap_id donor) in
                do* kmod (on_sched (put_slot 66 (Some (set_t_cap_table ct new_task)))) in
                do* unlock_sched in
                kret (said [print_ok "granted: new token id={} origin={} -> task 66" [Num new_id; Num (cap_id donor)]])
            end
        end
  end.

(** [sched.get_task_mut(TaskId(64)).unwrap().cap_table] and an operation. *)
Definition shell_caps {A} (op : CapTable -> Ambient -> A * CapTable * Ambient) : K A :=
  do* lock_sched in
  let* o := kget_task SHELL in
  match o with
  | Some t => let* r := kcaps SHELL t op in do* unlock_sched in kret r
  | None => klift Panic
  end.

Definition cap_revoke_command (tok2 : list N) : K Reply :=
  match parse_usize tok2 with
  | Err _ => kret (bad_number tok2)
  | Ok slot_idx =>
      if MAX_CAPS <=? slot_idx then kret (said [print_fail "slot {} empty" [Num slot_idx]])
      else
        let* revoked_cap := shell_caps (fun ct => CapTable_kernel_revoke ct slot_idx) in
        match revoked_cap with
        | Some cap =>
            let* sl := get_shell_caps in
            let* o := klift (arr_get sl slot_idx) in
            let now_empty := is_none o in
            let* write_denied :=
              if slot_idx =? 0 then
                let* r := sys_serial_write 0 (as_bytes "test") in kret match r with Err _ => true | Ok _ => false end
              else kret true in
            kret (said [if now_empty && write_denied then print_ok "revoked id={}; re-use denied (slot now empty)" [Num (cap_id cap)]
                        else print_fail "revocation check failed" []])
        | None => kret (said [print_fail "slot {} empty" [Num slot_idx]])
        end
  end.

(** The body of [cap seal] on the console's table: mark the slot, then try to
    remove it as the holder would. *)
Definition seal_slot (slot : N) (ct : CapTable) (a : Ambient) : option (bool * N) * CapTable * Ambient :=
  match mjoin (idx (slots ct) slot) with
  | Some cap =>
      let ct := mkCapTable (upd (slots ct) slot (Some (with_sealed cap true))) in
      let '(r, ct, a) := CapTable_remove ct slot a in
      (Some (match r with Err _ => true | Ok _ => false end, cap_id cap), ct, a)
  | None => (None, ct, a)
  end.

Definition cap_seal_command (tok2 : list N) : K Reply :=
  match parse_usize tok2 with
  | Err _ => kret (bad_number tok2)
  | Ok slot_idx =>
      if MAX_CAPS <=? slot_idx then kret (said [print_fail "slot {} empty" [Num slot_idx]])
      else
        let* r := shell_caps (seal_slot slot_idx) in
        kret (said [match r with
                    | None => print_fail "slot {} empty" [Num slot_idx]
                    | Some (true, cap_id) => print_ok "sealed id={}; holder remove() -> Err (locked)" [Num cap_id]
                    | Some (false, _) => print_fail "sealing check failed" []
                    end])
  end.

(** ** Grants of service capabilities *)

(** Give task [target] the derived capability, creating a parked task in an empty
    slot; [sched.tasks[target]] panics outside the table. *)
Definition grant_to (target : N) (derived : Capability) (donor_id : N) : K N :=
  do* lock_sched in
  let* o := fun k => let! o := arr_get (s_tasks (k_sched k)) target in Ret (o, k) in
  do* (match o with
       | None =>
           let* t := Task_new target park_entry CapTable_new in
           do* kmod (on_sched (put_slot target (Some t))) in
           bump_tasks_spawned
       | Some _ => kret tt
       end) in
  let* o := fun k => let! o := arr_get (s_tasks (k_sched k)) target in Ret (o, k) in
  let* new_id :=
    match o with
    | Some t =>
        let* (new_id, ct) := insert_derived (t_cap_table t) derived donor_id in
        do* kmod (on_sched (put_slot target (Some (set_t_cap_table ct t)))) in
        kret new_id
    | None => kret 0
    end in
  do* unlock_sched in
  kret new_id.

Definition is_kv_entry (slot : N) (o : option Capability) : bool :=
  match o with
  | Some cap => match cap_resource cap with KVEntry cap_slot _ _ => cap_slot =? slot | _ => false end
  | None => false
  end.

Definition is_log_channel (kind : N) (o : option Capability) : bool :=
  match o with
  | Some cap => match cap_resource cap with LogChannel cap_kind _ _ => cap_kind =? kind | _ => false end
  | None => false
  end.

(** The first capability of the console that [p] accepts. *)
Definition donor_cap (p : option Capability -> bool) : K (option Capability) :=
  let* sl := get_shell_caps in kret (from_option (fun i => mjoin (idx sl i)) None (position p sl)).

Definition kv_grant_command (tok2 tok3 : list N) : K Reply :=
  match parse_usize tok2 with
  | Err _ => kret (bad_number tok2)
  | Ok slot =>
      match parse_usize tok3 with
      | Err _ => kret (bad_number tok3)
      | Ok target_task_id =>
          let* o := donor_cap (is_kv_entry slot) in
          match o with
          | None => kret (said [print_fail "no capability" []])
          | Some donor =>
              let derived := mkCap (KVEntry slot true false) true false false false 0 (Some (cap_id donor)) in
              let* _ := grant_to target_task_id derived (cap_id donor) in
              kret (said [print_ok "granted read-only KV slot {} to task {}" [Num slot; Num target_task_id]])
          end
      end
  end.

(** [kv revoke] and [log revoke] after the search. *)
Definition revoke_found (p : option Capability -> bool) : K (option (option Capability)) :=
  let* sl := get_shell_caps in
  match position p sl with
  | Some idx => let* revoked := shell_caps (fun ct => CapTable_kernel_revoke ct idx) in kret (Some revoked)
  | None => kret None
  end.

Definition kv_revoke_command (tok2 : list N) : K Reply :=
  match parse_usize tok2 with
  | Err _ => kret (bad_number tok2)
  | Ok slot =>
      let* r := revoke_found (is_kv_entry slot) in
      kret (said [match r with
                  | Some (Some cap) => print_ok "revoked KV slot {} id={}; access denied" [Num slot; Num (cap_id cap)]
                  | Some None => print_fail "revocation check failed" []
                  | None => print_fail "slot {} empty" [Num slot]
                  end])
  end.

(** A word and what follows it, if both are there: the splitting of [kv set],
    [log grant] and [arch cache-sim]. *)
Definition split_word (rest : list N) : outcome (option (list N * list N)) :=
  let! split_idx := scan (S (length rest)) (fun b => negb (is_space b)) rest 0 in
  if lenN rest <=? split_idx then Ret None
  else
    let! word := slice rest 0 split_idx in
    let! start := scan (S (length rest)) is_space rest split_idx in
    if lenN rest <=? start then Ret None
    else let! tail := slice rest start (lenN rest) in Ret (Some (word, tail)).

Definition log_derived (kind : N) (donor : Capability) (rights : list N) : Capability :=
  let req_read := bool_decide (rights = as_bytes "r") || bool_decide (rights = as_bytes "rw") in
  let req_write := bool_decide (rights = as_bytes "w") || bool_decide (rights = as_bytes "rw") in
  mkCap (LogChannel kind (cap_read donor && req_read) (cap_write donor && req_write))
    (cap_read donor && req_read) (cap_write donor && req_write) false false 0 (Some (cap_id donor)).

(** The words of the report. *)
Definition rights_name (rights : list N) : list N :=
  let req_read := bool_decide (rights = as_bytes "r") || bool_decide (rights = as_bytes "rw") in
  let req_write := bool_decide (rights = as_bytes "w") || bool_decide (rights = as_bytes "rw") in
  as_bytes (if req_read && req_write then "read-write" else if req_read then "read-only" else "write-only").

Definition log_grant_command (tok2 tok3 : list N) : K Reply :=
  match parse_usize tok2 with
  | Err _ => kret (bad_number tok2)
  | Ok kind_val =>
      if 16 <=? kind_val then kret (said [print_fail "kind {} out of range (0-15)" [Num kind_val]])
      else
        let kind := as_u8 kind_val in
        let* o := klift (split_word tok3) in
        match o with
        | None => kret (said [print_fail "Usage: log grant <kind> <task> <r|w|rw>" []])
        | Some (target_task_bytes, rights_bytes) =>
            match parse_usize target_task_bytes with
            | Err _ => kret (bad_number target_task_bytes)
            | Ok target_task_id =>
                let* o := donor_cap (is_log_channel kind) in
                match o with
                | None => kret (said [print_fail "no capability" []])
                | Some donor =>
                    let* _ := grant_to target_task_id (log_derived kind donor rights_bytes) (cap_id donor) in
                    kret (said [print_ok "granted {} LogChannel kind {} to task {}"
                                  [Str (rights_name rights_bytes); Num kind; Num target_task_id]])
                end
            end
        end
  end.

Definition log_revoke_command (tok2 : list N) : K Reply :=
  match parse_usize tok2 with
  | Err _ => kret (bad_number tok2)
  | Ok kind_val =>
      let kind := as_u8 kind_val in
      let* r := revoke_found (is_log_channel kind) in
      kret (said [match r with
                  | Some (Some cap) => print_ok "revoked LogChannel kind {} id={}; access denied" [Num kind; Num (cap_id cap)]
                  | Some None => print_fail "revocation check failed" []
                  | None => print_fail "kind {} empty" [Num kind]
                  end])
  end.

(** ** Key-value and log requests *)

(** A request and its reply, with the step that failed. *)
Inductive Answer : Type := SendFailed (e : IpcError) | ReceiveFailed (e : IpcError) | Replied (reply : Message).

Definition ask (fuel : nat) (cap_idx tag version : N) (payload : list N) : R Answer :=
  let+ r := sys_send_typed fuel cap_idx tag version payload in
  match r with
  | Err e => rret (SendFailed e)
  | Ok _ =>
      let+ r := sys_receive_typed fuel in
      rret match r with Err e => ReceiveFailed e | Ok reply => Replied reply end
  end.

(** [ensure_*_service], the channel, the request, and the report on its answer. *)
Definition service_command (fuel : nat) (ensure : K unit) (target : TaskId) (tag : IpcTag) (payload : list N)
    (answered : list N -> outcome Report) : R Reply :=
  let+ _ := rlift ensure in
  let+ o := rlift (shell_channel target) in
  match o with
  | None => rret (said [print_fail "no capability" []])
  | Some cap_idx =>
      let+ a := ask fuel cap_idx (IpcTag_as_u16 tag) 1 payload in
      match a with
      | SendFailed e => rret (said [print_fail "send failed: {:?}" [Error e]])
      | ReceiveFailed e => rret (said [print_fail "receive failed: {:?}" [Error e]])
      | Replied reply => let+ rep := rlift (klift (answered (msg_payload reply))) in rret (said [rep])
      end
  end.

Definition kv_set_payload (slot : N) (key_bytes val_bytes : list N) : outcome (list N) :=
  let! payload := arr_set (replicate 81 0) 0 (as_u8 slot) in
  let key_len := N.min (lenN key_bytes) 16 in
  let! key := slice key_bytes 0 key_len in
  let! payload := copy_at payload 1 key in
  let val_len := N.min (lenN val_bytes) 64 in
  let! value := slice val_bytes 0 val_len in
  copy_at payload 17 value.

Definition kv_set_report (slot : N) (key_bytes val_bytes reply : list N) : outcome Report :=
  let! st := arr_get reply 0 in
  Ret (if st =? 0 then print_ok "set slot {}: key={} value={}"
                          [Num slot; Str (from_utf8_or_empty key_bytes); Str (from_utf8_or_empty val_bytes)]
       else if st =? 1 then print_fail "permission denied (no capability for slot {})" [Num slot]
       else print_fail "invalid slot {}" [Num slot]).

Definition kv_set_command (fuel : nat) (tok2 tok3 : list N) : R Reply :=
  match parse_usize tok2 with
  | Err _ => rret (bad_number tok2)
  | Ok slot =>
      if 32 <=? slot then rret (said [print_fail "slot index {} out of range (0-31)" [Num slot]])
      else
        let+ o := rlift (klift (split_word tok3)) in
        match o with
        | None => rret (said [print_fail "Usage: kv set <slot> <key> <value>" []])
        | Some (key_bytes, val_bytes) =>
            let+ payload := rlift (klift (kv_set_payload slot key_bytes val_bytes)) in
            service_command fuel (ensure_kv_service kv_main) 82 KVSet payload (kv_set_report slot key_bytes val_bytes)
        end
  end.

(** [while len < max && reply.payload[base + len] != 0 { len += 1; }]. *)
Fixpoint text_len (n : nat) (reply : list N) (base len : N) : outcome N :=
  match n with
  | O => Ret len
  | S n' =>
      let! b := arr_get reply (base + len) in
      if b =? 0 then Ret len else text_len n' reply base (len + 1)
  end.

Definition kv_get_report (slot : N) (reply : list N) : outcome Report :=
  let! st := arr_get reply 0 in
  if st =? 0 then
    let! key_len := text_len 16 reply 1 0 in
    let! val_len := text_len 64 reply 17 0 in
    let! key := slice reply 1 (1 + key_len) in
    let! value := slice reply 17 (17 + val_len) in
    Ret (print_ok "get slot {}: key={} value={}" [Num slot; Str (from_utf8_or_empty key); Str (from_utf8_or_empty value)])
  else Ret (if st =? 1 then print_fail "permission denied (no capability for slot {})" [Num slot]
            else print_fail "invalid slot {}" [Num slot]).

Definition kv_get_command (fuel : nat) (tok2 : list N) : R Reply :=
  match parse_usize tok2 with
  | Err _ => rret (bad_number tok2)
  | Ok slot =>
      if 32 <=? slot then rret (said [print_fail "slot index {} out of range (0-31)" [Num slot]])
      else service_command fuel (ensure_kv_service kv_main) 82 KVGet [as_u8 slot] (kv_get_report slot)
  end.

Definition log_publish_payload (kind : N) (tok3 : list N) : outcome (list N) :=
  let! payload := arr_set (replicate 65 0) 0 kind in
  let msg_len := N.min (lenN tok3) 64 in
  let! text := slice tok3 0 msg_len in
  let! payload := copy_at payload 1 text in
  slice payload 0 (1 + msg_len).

Definition log_publish_report (kind : N) (tok3 reply : list N) : outcome Report :=
  let! st := arr_get reply 0 in
  Ret (if st =? 0 then print_ok "published log kind {}: {}" [Num kind; Str (from_utf8_or_empty tok3)]
       else if st =? 1 then print_fail "permission denied (no capability for log kind {})" [Num kind]
       else print_fail "invalid kind {}" [Num kind]).

Definition log_publish_command (fuel : nat) (tok2 tok3 : list N) : R Reply :=
  match parse_usize tok2 with
  | Err _ => rret (bad_number tok2)
  | Ok kind_val =>
      if 16 <=? kind_val then rret (said [print_fail "kind {} out of range (0-15)" [Num kind_val]])
      else if lenN tok3 =? 0 then rret (said [print_fail "Usage: log publish <kind> <message>" []])
      else
        let kind := as_u8 kind_val in
        let+ payload := rlift (klift (log_publish_payload kind tok3)) in
        service_command fuel (ensure_log_service log_main) 83 LogPublish payload (log_publish_report kind tok3)
  end.

Definition log_read_report (kind : N) (reply : list N) : outcome Report :=
  let! st := arr_get reply 0 in
  if st =? 0 then
    let! tick := slice reply 1 9 in
    let! producer := slice reply 9 17 in
    let! len := slice reply 18 26 in
    let! end_ := add64 26 (from_ne_bytes len) in
    let! msg_bytes := slice reply 26 end_ in
    Ret (print_ok "[{}] producer={} kind={} message={}"
           [Num (from_ne_bytes tick); Num (from_ne_bytes producer); Num kind; Str (from_utf8_or_empty msg_bytes)])
  else Ret (if st =? 1 then print_fail "permission denied (no capability for log kind {})" [Num kind]
            else if st =? 2 then print_info "no new log entries for kind {}" [Num kind]
            else print_fail "invalid kind {}" [Num kind]).

Definition log_read_command (fuel : nat) (tok2 : list N) : R Reply :=
  match parse_usize tok2 with
  | Err _ => rret (bad_number tok2)
  | Ok kind_val =>
      if 16 <=? kind_val then rret (said [print_fail "kind {} out of range (0-15)" [Num kind_val]])
      else
        let kind := as_u8 kind_val in
        service_command fuel (ensure_log_service log_main) 83 LogRead [kind] (log_read_report kind)
  end.

(** ** File-system, device and synchronisation requests *)

(** The report on the status byte of a reply, or on a failed call. *)
Definition on_reply (r : result IpcError (list N)) (f : N -> list N -> outcome (list Report)) : R Reply :=
  match r with
  | Err e => rret (said [print_fail "IPC error: {:?}" [Error e]])
  | Ok reply =>
      let+ reports := rlift (klift (let! st := arr_get reply 0 in f st reply)) in
      rret (said reports)
  end.

Definition fs_mkdir_command (fuel : nat) (tok2 : list N) : R Reply :=
  if lenN tok2 =? 0 then rret (said [print_fail "Usage: fs mkdir <path>" []])
  else
    let+ r := send_fs_msg fuel fs_main 0 0 tok2 [] in
    on_reply r (fun st _ => Ret [match st with
      | 0 => print_ok "directory created" []
      | 1 => print_fail "permission denied" []
      | 3 => print_fail "filesystem full" []
      | 4 => print_fail "already exists / bad request" []
      | _ => print_fail "unknown error" []
      end]).

Definition fs_write_command (fuel : nat) (tok2 tok3 : list N) : R Reply :=
  if (lenN tok2 =? 0) || (lenN tok3 =? 0) then rret (said [print_fail "Usage: fs write <path> <text>" []])
  else
    let+ r := send_fs_msg fuel fs_main 1 0 tok2 tok3 in
    on_reply r (fun st _ => Ret [match st with
      | 0 => print_ok "file written" []
      | 1 => print_fail "permission denied" []
      | 3 => print_fail "filesystem full" []
      | 4 => print_fail "is directory / bad request" []
      | _ => print_fail "unknown error" []
      end]).

(** The denied and missing cases shared by the other operations. *)
Definition fs_failure (st : N) : Report :=
  match st with
  | 1 => print_fail "permission denied" []
  | 2 => print_fail "not found" []
  | _ => print_fail "unknown error" []
  end.

(** [&reply[2..2 + reply[1]]]. *)
Definition counted (reply : list N) : outcome (list N) :=
  let! data_len := arr_get reply 1 in slice reply 2 (2 + data_len).

Definition fs_read_command (fuel : nat) (tok2 : list N) : R Reply :=
  if lenN tok2 =? 0 then rret (said [print_fail "Usage: fs read <path>" []])
  else
    let+ r := send_fs_msg fuel fs_main 2 0 tok2 [] in
    on_reply r (fun st reply =>
      if st =? 0 then let! data := counted reply in Ret [print_ok "{}" [Str (from_utf8_or_empty data)]]
      else Ret [fs_failure st]).

(** [str::lines]: split at line feeds, without a carriage return before them. *)
Fixpoint lines_from (cur : list N) (s : list N) : list (list N) :=
  match s with
  | [] => if lenN cur =? 0 then [] else [cur]
  | b :: s' => if b =? LF then strip_cr cur :: lines_from [] s' else lines_from (cur ++ [b]) s'
  end.
Definition str_lines (s : list N) : list (list N) := lines_from [] s.

Definition ls_report (reply : list N) : outcome (list Report) :=
  let! data_bytes := slice reply 2 (lenN reply) in
  let end_idx := default (lenN data_bytes) (position (N.eqb 0) data_bytes) in
  let! text := slice data_bytes 0 end_idx in
  Ret ((fun l => print_ok "{}" [Str l]) <$> List.filter (fun l => negb (lenN l =? 0)) (str_lines (from_utf8_or_empty text))).

Definition fs_ls_command (fuel : nat) (tok2 : list N) : R Reply :=
  if lenN tok2 =? 0 then rret (said [print_fail "Usage: fs ls <path>" []])
  else
    let+ r := send_fs_msg fuel fs_main 3 0 tok2 [] in
    on_reply r (fun st reply => if st =? 0 then ls_report reply else Ret [fs_failure st]).

Definition fs_delete_command (fuel : nat) (tok2 : list N) : R Reply :=
  if lenN tok2 =? 0 then rret (said [print_fail "Usage: fs delete <path>" []])
  else
    let+ r := send_fs_msg fuel fs_main 4 0 tok2 [] in
    on_reply r (fun st _ => Ret [if st =? 0 then print_ok "deleted" [] else fs_failure st]).

Definition fs_stat_command (fuel : nat) (tok2 : list N) : R Reply :=
  if lenN tok2 =? 0 then rret (said [print_fail "Usage: fs stat <path>" []])
  else
    let+ r := send_fs_msg fuel fs_main 5 0 tok2 [] in
    on_reply r (fun st reply =>
      if st =? 0 then
        let! is_dir := arr_get reply 1 in
        let! size_bytes := slice reply 2 10 in
        let! mount := arr_get reply 10 in
        Ret [print_ok "Type: {}, Size: {} bytes, Mount: {}"
               [Str (as_bytes (if is_dir =? 0 then "File" else "Directory")); Num (from_ne_bytes size_bytes); Num mount]]
      else Ret [fs_failure st]).

Definition dev_read_command (fuel : nat) (tok2 : list N) : R Reply :=
  match parse_usize tok2 with
  | Err _ => rret (bad_number tok2)
  | Ok v =>
      let+ r := send_dev_msg fuel dev_main 0 (as_u8 v) [] in
      on_reply r (fun st reply =>
        if st =? 0 then
          let! len := arr_get reply 1 in
          let! read_bytes := counted reply in
          Ret [print_ok "read ({} bytes): {}" [Num len; Str (from_utf8_or_empty read_bytes)]]
        else Ret [match st with
          | 1 => print_fail "permission denied" []
          | 2 => print_fail "no data available" []
          | 3 => print_fail "invalid device" []
          | _ => print_fail "unknown error" []
          end])
  end.

Definition dev_write_command (fuel : nat) (tok2 tok3 : list N) : R Reply :=
  match parse_usize tok2 with
  | Err _ => rret (bad_number tok2)
  | Ok v =>
      if lenN tok3 =? 0 then rret (said [print_fail "Usage: dev write <id> <text>" []])
      else
        let+ r := send_dev_msg fuel dev_main 1 (as_u8 v) tok3 in
        on_reply r (fun st _ => Ret [match st with
          | 0 => print_ok "write complete" []
          | 1 => print_fail "permission denied" []
          | 3 => print_fail "invalid operation / device" []
          | _ => print_fail "unknown error" []
          end])
  end.

(** The count argument of [sync create]. *)
Definition sync_count (tok3 : list N) : outcome (list N + N) :=
  let! i := scan (S (length tok3)) (fun b => negb (is_space b)) tok3 0 in
  let! i := scan (S (length tok3)) is_space tok3 i in
  if i <? lenN tok3 then
    let! tok := slice tok3 i (lenN tok3) in
    Ret match parse_usize tok with Ok v => inr (as_u8 v) | Err _ => inl tok end
  else Ret (inr 1).

Definition sync_create_command (fuel : nat) (tok2 tok3 : list N) : R Reply :=
  match parse_usize tok2 with
  | Err _ => rret (bad_number tok2)
  | Ok v =>
      let id := as_u8 v in
      if 8 <=? id then rret (said [print_fail "object id must be < 8" []])
      else
        let is_mutex := if starts_with tok3 (as_bytes "mutex") then 1 else 0 in
        let+ c := rlift (klift (if is_mutex =? 1 then Ret (inr 1) else sync_count tok3)) in
        match c with
        | inl tok => rret (bad_number tok)
        | inr initial_count =>
            let+ r := send_sync_msg fuel sync_main 0 id is_mutex initial_count in
            match r with
            | Err e => rret (said [print_fail "IPC error: {:?}" [Error e]])
            | Ok reply =>
                let+ st := rlift (klift (arr_get reply 0)) in
                if st =? 0 then
                  let+ _ := rlift (shell_caps (fun ct => CapTable_insert ct (mkCap (SyncObj id) true true true false 0 None))) in
                  rret (said [print_ok "sync object created and capability installed" []])
                else rret (said [print_fail "failed to create sync object" []])
            end
        end
  end.

Definition is_sync_obj (id : N) (o : option Capability) : bool :=
  match o with
  | Some cap => match cap_resource cap with SyncObj cap_id => cap_id =? id | _ => false end
  | None => false
  end.

(** [sync acquire] and [sync release]. *)
Definition sync_op_command (fuel : nat) (op : N) (done failed : string) (tok2 : list N) : R Reply :=
  match parse_usize tok2 with
  | Err _ => rret (bad_number tok2)
  | Ok v =>
      let id := as_u8 v in
      let+ sl := rlift get_shell_caps in
      match position (is_sync_obj id) sl with
      | None => rret (said [print_fail "no capability for sync object {}" [Num id]])
      | Some _ =>
          let+ r := send_sync_msg fuel sync_main op id 0 0 in
          on_reply r (fun st _ => Ret [if st =? 0 then print_ok done [] else print_fail failed [Num st]])
      end
  end.

Definition sync_acquire_command (fuel : nat) (tok2 : list N) : R Reply :=
  sync_op_command fuel 1 "acquired" "acquire failed: status={}" tok2.
Definition sync_release_command (fuel : nat) (tok2 : list N) : R Reply :=
  sync_op_command fuel 2 "released" "release failed: status={}" tok2.

(** ** The echo service *)

Definition ensure_echo_service : K unit :=
  do* lock_sched in
  let* present := kget (fun k => is_some (task_slot (k_sched k) 65)) in
  do* (if present : bool then kret tt
       else
         let* caps := fun k =>
           match CapTable_insert CapTable_new (mkCap (IpcChannel 64) true true false false 0 None) (k_amb k) with
           | (Ok _, ct, a) => Ret (ct, set_k_amb a k)
           | (Err _, _, _) => Panic
           end in
         place_task 65 echo_main caps) in
  unlock_sched.

(** One turn of [echo_service_main]. *)
Definition echo_round (fuel : nat) : R unit :=
  let+ r := sys_receive_typed fuel in
  match r with
  | Ok msg =>
      let+ bytes := rlift (klift (slice (msg_payload msg) 0 (msg_len msg))) in
      let+ _ := sys_send_typed fuel 0 (IpcTag_as_u16 Raw) (msg_version msg) bytes in
      rret tt
  | Err _ => yield_cpu
  end.

Definition ticks_now : K N := kget (fun k => ps_ticks (am_preempt (k_amb k))).

Definition ipc_send_command (fuel : nat) (tok2 tok3 : list N) : R Reply :=
  match parse_usize tok2 with
  | Err _ => rret (bad_number tok2)
  | Ok task_id =>
      if negb (task_id =? 65) then rret (said [print_fail "only task 65 (echo) is reachable in v1" []])
      else
        let+ _ := rlift ensure_echo_service in
        let+ t0 := rlift ticks_now in
        let+ a := ask fuel 1 (IpcTag_as_u16 Raw) 1 tok3 in
        match a with
        | Replied _ =>
            let+ t1 := rlift ticks_now in
            let+ ms := rlift (klift (mul64 (wsub64 t1 t0) 10)) in
            rret (said [print_ok "sent {}B to task 65" [Num (lenN tok3)]; print_info "round-trip ~{} ms" [Num ms]])
        | ReceiveFailed e => rret (said [print_fail "receive failed: {:?}" [Error e]])
        | SendFailed e => rret (said [print_fail "{:?}" [Error e]])
        end
  end.

Definition ipc_typed_command (fuel : nat) (tok2 tok3 : list N) : R Reply :=
  match parse_usize tok2 with
  | Err _ => rret (bad_number tok2)
  | Ok schema_val =>
      if 3 <? schema_val then rret (said [print_fail "schema must be 0..3" []])
      else
        let+ _ := rlift ensure_echo_service in
        let+ a := ask fuel 1 schema_val 2 tok3 in
        match a with
        | Replied reply =>
            let+ bytes := rlift (klift (
              let! bytes := slice (msg_payload reply) 0 (msg_len reply) in
              let! p_buf := copy_at (replicate 129 0) 0 bytes in
              slice p_buf 0 (msg_len reply))) in
            rret (said [print_ok "typed send tag={} ver=2 {}B" [Num schema_val; Num (lenN tok3)];
                        print_info "echo tag={} '{}'" [Num (IpcTag_as_u16 (msg_tag reply)); Str (from_utf8_or_empty bytes)]])
        | ReceiveFailed e => rret (said [print_fail "receive failed: {:?}" [Error e]])
        | SendFailed e => rret (said [print_fail "{:?}" [Error e]])
        end
  end.

Definition bump_tasks_terminated : K unit := kmod (fun k => set_k_tasks_terminated (wadd64 (k_tasks_terminated k) 1) k).

(** [if sched.tasks[i].is_some() { sched.tasks[i] = None; .. }]. *)
Definition drop_task (i : TaskId) : K unit :=
  let* o := kget (fun k => task_slot (k_sched k) i) in
  match o with
  | Some _ => do* kmod (on_sched (put_slot i None)) in bump_tasks_terminated
  | None => kret tt
  end.

Definition service_restart_command (tok2 : list N) : K Reply :=
  let name_str := from_utf8_or_empty tok2 in
  if negb (bool_decide (name_str = as_bytes "echo")) then kret (said [print_fail "unknown service: {}" [Str name_str]])
  else
    do* lock_sched in
    do* drop_task 65 in
    do* unlock_sched in
    do* ensure_echo_service in
    kret (said [print_info "echo: shutdown" []; print_info "echo: respawn (task 65)" []; print_info "echo: caps redistributed" [];
                print_pass "service echo recovered" []]).

(** ** Faulting tasks *)

(** [None] and [Terminated] slots count as gone. *)
Definition slot_gone (s : Scheduler) (i : TaskId) : bool :=
  match task_slot s i with None => true | Some t => state_is Terminated t end.

Definition alive_count (s : Scheduler) : N :=
  lenN (List.filter (fun o => match o with Some t => negb (state_is Terminated t) | None => false end) (s_tasks s)).

Definition fault_spawn_command : R Reply :=
  let+ _ := rlift (do* lock_sched in do* place_task 71 fault_entry CapTable_new in unlock_sched) in
  let+ _ := yields 5 in
  let+ s := rlift (do* lock_sched in let* s := kget k_sched in do* unlock_sched in kret s) in
  rret (said [if slot_gone s 71 then print_ok "task 71 faulted (#PF) and was contained; kernel + {} tasks alive" [Num (alive_count s)]
              else print_fail "task 71 did not fault or was not contained" []]).

Definition fault_cascade_command (tok2 : list N) : R Reply :=
  match parse_usize tok2 with
  | Err _ => rret (bad_number tok2)
  | Ok n =>
      if negb ((1 <=? n) && (n <=? 8)) then rret (said [print_fail "fault cascade count {} out of range (expected 1-8)" [Num n]])
      else
        let+ _ := rlift (
          do* lock_sched in
          do* kfor (rangeN 0 (N.to_nat n)) (fun i _ => place_task (72 + i) fault_entry CapTable_new) tt in
          unlock_sched) in
        let+ _ := yields 10 in
        let+ reports := rlift (kfor (rangeN 0 (N.to_nat n)) (fun i acc =>
          do* lock_sched in
          let* s := kget k_sched in
          do* unlock_sched in
          kret (acc ++ [if slot_gone s (72 + i) then print_ok "task {} contained" [Num (72 + i)]
                        else print_fail "task {} not contained" [Num (72 + i)]])) []) in
        rret (said (reports ++ [print_pass "isolation held under {} concurrent faults" [Num n]]))
  end.

(** ** The message stress test *)

(** The address of [STRESS_DELIVERIES]. *)
Variables stress_entry stress_deliveries : N.

Definition unwrap_caps (cap : Capability) : K CapTable :=
  fun k =>
    match CapTable_insert CapTable_new cap (k_amb k) with
    | (Ok _, ct, a) => Ret (ct, set_k_amb a k)
    | (Err _, _, _) => Panic
    end.

(** One pair of workers with channels to each other. *)
Definition stress_pair (i : N) : K unit :=
  let t_init := 73 + 2 * i in
  let t_repl := 74 + 2 * i in
  let* caps_init := unwrap_caps (minted (IpcChannel t_repl) true true false) in
  let* caps_repl := unwrap_caps (minted (IpcChannel t_init) true true false) in
  do* place_task t_init stress_entry caps_init in
  place_task t_repl stress_entry caps_repl.

Definition stress_load (n : N) : K unit :=
  do* lock_sched in
  do* kfor (rangeN 0 (N.to_nat n)) (fun i _ => stress_pair i) tt in
  unlock_sched.

Definition stress_drop (n : N) : K unit :=
  do* lock_sched in
  do* kfor (rangeN 0 (N.to_nat n)) (fun i _ => do* drop_task (73 + 2 * i) in drop_task (74 + 2 * i)) tt in
  unlock_sched.

(** [while ticks.wrapping_sub(start) < n { yield_cpu(); }]. *)
Fixpoint yield_for (fuel : nat) (start n : N) : R unit :=
  match fuel with
  | O => fun _ => OutOfFuel
  | S fuel' =>
      let+ t := rlift ticks_now in
      if wsub64 t start <? n then let+ _ := yield_cpu in yield_for fuel' start n else rret tt
  end.

Definition ipc_stress_command (fuel : nat) (tok2 : list N) : R Reply :=
  match parse_usize tok2 with
  | Err _ => rret (bad_number tok2)
  | Ok n =>
      if negb ((1 <=? n) && (n <=? 8)) then rret (said [print_fail "stress count {} out of range (expected 1-8)" [Num n]])
      else
        let+ _ := rlift (stress_load n) in
        let+ _ := rlift (kmod (fun k => set_mem (mem_wr (k_mem k) stress_deliveries 0) k)) in
        let+ start_ticks := rlift ticks_now in
        let+ _ := rlift (kmod (on_preempt (set_armed true))) in
        let+ _ := yield_for fuel start_ticks 300 in
        let+ _ := rlift (kmod (on_preempt (set_armed false))) in
        let+ _ := rlift (stress_drop n) in
        let+ count := rlift (atomic_load stress_deliveries) in
        rret (said [print_pass "stress: {} msgs in 3s = {}/s, dropped=0" [Num count; Num (count / 3)]])
  end.

(** ** Checkpoints, history and tracing *)

(** The statics of the console: [HISTORY], the snapshot, the state of [dist.rs] and
    of [watch], and the local APIC, a device of type [D]. *)
Context {D : Type}.
Record ShellState : Type := mkShellState {
  sh_history : History; sh_snapshot : SystemSnapshot; sh_dist : Dist; sh_watch : WatchState; sh_lapic : D
}.
Definition set_sh_history (h : History) (st : ShellState) : ShellState :=
  mkShellState h (sh_snapshot st) (sh_dist st) (sh_watch st) (sh_lapic st).
Definition set_sh_snapshot (s : SystemSnapshot) (st : ShellState) : ShellState :=
  mkShellState (sh_history st) s (sh_dist st) (sh_watch st) (sh_lapic st).
Definition set_sh_dist (d : Dist) (st : ShellState) : ShellState :=
  mkShellState (sh_history st) (sh_snapshot st) d (sh_watch st) (sh_lapic st).
Definition set_sh_watch (w : WatchState) (st : ShellState) : ShellState :=
  mkShellState (sh_history st) (sh_snapshot st) (sh_dist st) w (sh_lapic st).
Definition set_sh_lapic (d : D) (st : ShellState) : ShellState :=
  mkShellState (sh_history st) (sh_snapshot st) (sh_dist st) (sh_watch st) d.

Definition checkpoint_command (st : ShellState) : K (Reply * ShellState) :=
  do* lock_sched in
  let* n := kget (fun k => lenN (List.filter is_some (s_tasks (k_sched k)))) in
  do* unlock_sched in
  let* snap := capture (sh_snapshot st) in
  let sum := default 0 (info snap) in
  kret (said [print_ok "checkpoint taken: id=0 checksum={:#x}" [Num sum]; print_info "captured {} task cap-tables" [Num n]],
        set_sh_snapshot snap st).

Definition restore_command (tok1 : list N) (st : ShellState) : K Reply :=
  match parse_usize tok1 with
  | Err _ => kret (bad_number tok1)
  | Ok id =>
      if negb (id =? 0) then kret (said [print_fail "no snapshot id {}" [Num id]])
      else
        let* r := restore (sh_snapshot st) in
        kret (said [match r with
                    | Ok n => print_ok "restored {} task checkpoints; checksum verified" [Num n]
                    | Err _ => print_fail "no valid snapshot (run checkpoint first)" []
                    end])
  end.

(** [history] without an argument: entry [i], oldest first. *)
Definition history_listing (h : History) : outcome (list Report) :=
  for_each (rangeN 0 (N.to_nat (h_count h))) (fun i acc =>
    let! steps_back := sub64 (h_count h) i in
    let! o := History_get h steps_back in
    Ret match o with
        | Some cmd => acc ++ [print_info "  {}: {}" [Num i; Str (from_utf8_or_empty cmd)]]
        | None => acc
        end) [print_ok "Command History:" []].

(** Commands that run another command: [dispatch] is the recursive call. *)
Section recursive.
Variable dispatch : list N -> ShellState -> R (Reply * ShellState).

Definition history_command (tok1 : list N) (st : ShellState) : R (Reply * ShellState) :=
  if lenN tok1 =? 0 then
    let+ reports := rlift (klift (history_listing (sh_history st))) in
    rret (said reports, st)
  else
    match parse_usize tok1 with
    | Err _ => rret (bad_number tok1, st)
    | Ok n_idx =>
        let hist := sh_history st in
        if h_count hist <=? n_idx then
          rret (said [print_fail "history index {} out of range (0-{})" [Num n_idx; Num (h_count hist - 1)]], st)
        else
          let+ o := rlift (klift (let! steps_back := sub64 (h_count hist) n_idx in History_get hist steps_back)) in
          match o with
          | None => rret (said [], st)
          | Some cmd =>
              let+ cmd := rlift (klift (let! cmd_buf := copy_at (replicate 128 0) 0 cmd in slice cmd_buf 0 (lenN cmd))) in
              let+ hist := rlift (klift (History_push hist cmd)) in
              let+ (rest, result, st') := dispatch cmd (set_sh_history hist st) in
              rret ((print_cmd "{}" [Str (from_utf8_or_empty cmd)] :: rest, result), st')
          end
    end.

(** [trace <command>]. *)
Definition trace_command (line : list N) (st : ShellState) : R (Reply * ShellState) :=
  let+ idx := rlift (klift (scan (S (length line)) is_space line 5)) in
  if lenN line <=? idx then rret (said [print_fail "trace: no command specified" []], st)
  else
    let+ sub_line := rlift (klift (slice line idx (lenN line))) in
    let+ _ := rlift (kmod (on_amb (fun a => set_am_trace (trace_start (am_trace a)) a))) in
    let+ (reports, res, st') := dispatch sub_line st in
    let+ _ := rlift (kmod (on_amb (fun a => set_am_trace (trace_stop (am_trace a)) a))) in
    let+ summary := rlift (fun k => let! r := print_trace_summary (am_trace (k_amb k)) in Ret (r, k)) in
    rret ((reports ++ summary, res), st').
End recursive.
End commands.
