(* ===== verification/Grants.v ===== *)
(** * Authority of the console commands

    What [cap grant], [cap revoke], [cap seal], [kv grant], [log grant] and their
    siblings of [Commands] do to the capability tables.  [console_grants_exact] gives
    the capability each grant creates and when it panics; the lemmas after it show
    where the commands do not do what they report. *)

From S2P Require Import Prelude Ring Text Preempt Trace Capability AuditTrail Message Machine Frames.
From S2P Require Import Task Scheduler Kernel Switch Scheduling Spawn Contexts Ipc Rendezvous Messaging.
From S2P Require Import Authority Propagation Delegation Paging AddressSpace UserMemory Userspace Syscall Snapshot.
From S2P Require Import Service KvService LogService FsService SyncService Console CommandLine DevService Clients Boot Reports Commands.
Local Open Scope N_scope.

(** ** Vocabulary *)

(** Slot [i] of task [j] holds [c]. *)
Definition holds_cap (s : Scheduler) (j i : N) (c : Capability) : Prop :=
  exists t, task_slot s j = Some t /\ cap_at (t_cap_table t) i = Some c.

(** The flags of a log channel allow what the rights of the capability claim. *)
Definition coherent (c : Capability) : Prop :=
  match cap_resource c with
  | LogChannel _ readable writable => (cap_read c = true -> readable = true) /\ (cap_write c = true -> writable = true)
  | _ => True
  end.

(** ** Reading the console's table *)

Lemma get_shell_caps_run k t :
  kernel_wf k -> task_slot (k_sched k) SHELL = Some t -> get_shell_caps k = Ret (slots (t_cap_table t), k).
Proof.
  intros [Hs Hl Ha] Ht. unfold get_shell_caps, kbind, lock_sched, unlock_sched, kget_task, kget, kmod, klift. rewrite Hl. cbn [obind].
  ksimp. rewrite get_task_wf, Ht by done. cbn [obind]. f_equal. f_equal. destruct k. simpl in *. by subst.
Qed.

Lemma donor_cap_run p k t :
  kernel_wf k -> task_slot (k_sched k) SHELL = Some t ->
  donor_cap p k = Ret (from_option (fun i => mjoin (idx (slots (t_cap_table t)) i)) None (position p (slots (t_cap_table t))), k).
Proof. intros Hk Ht. unfold donor_cap, kbind. rewrite (get_shell_caps_run k t) by done. done. Qed.

(** A donor found by [p] is held by the console and accepted by [p]. *)
Lemma donor_cap_held p k t d :
  kernel_wf k -> task_slot (k_sched k) SHELL = Some t -> donor_cap p k = Ret (Some d, k) ->
  (exists slot, holds_cap (k_sched k) SHELL slot d) /\ p (Some d) = true.
Proof.
  intros Hk Ht. rewrite (donor_cap_run p k t) by done. intros [= Hd]. destruct (position p _) as [i|] eqn:Hp; [|done]. simpl in Hd.
  apply position_Some in Hp as (x & Hx & Hpx & _). rewrite Hx in Hd. simpl in Hd. subst x. split; [|done].
  exists i, t. split; [done|]. apply cap_at_idx; [|done]. eapply task_wf_caps, sched_wf_task; [apply Hk|exact Ht].
Qed.

(** ** Installing a derived capability *)

Section granting.
Context `{L : Layout}.
Variable park_entry : N.

(** [with_origin] on the slot the insertion chose. *)
Lemma set_slot_origin_spec ct i c donor_id :
  CapTable_wf ct -> cap_at ct i = Some c ->
  exists ct', set_slot_origin ct i donor_id = Ret (cap_id c, ct') /\ CapTable_wf ct' /\
    forall j, cap_at ct' j = if decide (i = j) then Some (with_origin c (Some donor_id)) else cap_at ct j.
Proof.
  intros Hwf Hc. pose proof Hc as [Hi Hidx]%cap_at_Some. unfold set_slot_origin, arr_get. rewrite Hidx. cbn [obind].
  eexists. split; [done|]. split; [by apply CapTable_upd_wf|]. intros j. by apply cap_at_upd.
Qed.

Definition granted_cap (derived : Capability) (id donor_id : N) : Capability := with_origin (with_id derived id) (Some donor_id).

(** Either the table is full and the kernel panics, or the derived capability is
    in a slot that was free, with a fresh identity and its origin. *)
Lemma insert_derived_spec ct derived donor_id k :
  CapTable_wf ct ->
  (insert_derived ct derived donor_id k = Panic /\ forall i, i < MAX_CAPS -> is_Some (cap_at ct i)) \/
  exists a ct' i, insert_derived ct derived donor_id k = Ret ((am_next_cap_id (k_amb k), ct'), set_k_amb a k) /\
    CapTable_wf ct' /\ cap_at ct i = None /\ (forall j, j < i -> is_Some (cap_at ct j)) /\
    forall j, cap_at ct' j = if decide (i = j) then Some (granted_cap derived (am_next_cap_id (k_amb k)) donor_id) else cap_at ct j.
Proof.
  intros Hwf. destruct (CapTable_insert_spec ct derived (k_amb k) Hwf) as (r & ct1 & a & Hins & Hwf1 & _ & Hr).
  unfold insert_derived. rewrite Hins. destruct r as [i|[]].
  - right. destruct Hr as (_ & Hi & Hfree & Hfirst & Hat). pose proof (Hat i) as Hati. rewrite decide_True in Hati by done.
    destruct (set_slot_origin_spec ct1 i _ donor_id Hwf1 Hati) as (ct2 & -> & Hwf2 & Hat2). cbn [obind].
    exists a, ct2, i. split_and!; [done..|]. intros j. rewrite Hat2, Hat. by repeat case_decide.
  - left. split; [done|]. apply Hr.
Qed.

(** The tables after task [target] got [c]: the only change. *)
Record gained (s s' : Scheduler) (target : N) (c : Capability) : Prop := {
  gn_new : exists i, holds_cap s' target i c /\ forall c', ~ holds_cap s target i c';
  gn_only j i c' : holds_cap s' j i c' -> holds_cap s j i c' \/ (j = target /\ c' = c);
  gn_kept j i c' : holds_cap s j i c' -> holds_cap s' j i c'
}.

Lemma put_table_gained s target t ct' i c :
  sched_wf s -> target < MAX_TASKS -> t_id t = target -> task_wf t -> CapTable_wf ct' ->
  (task_slot s target = Some t \/ task_slot s target = None /\ t_cap_table t = CapTable_new) ->
  cap_at (t_cap_table t) i = None ->
  (forall j, cap_at ct' j = if decide (i = j) then Some c else cap_at (t_cap_table t) j) ->
  gained s (put_slot target (Some (set_t_cap_table ct' t)) s) target c.
Proof.
  intros Hs Hlt Hid Htwf Hwf Hslot Hfree Hat.
  assert (forall j, task_slot (put_slot target (Some (set_t_cap_table ct' t)) s) j =
    if decide (target = j) then Some (set_t_cap_table ct' t) else task_slot s j) as Hput.
  { intros j. rewrite task_slot_put; [done|]. by rewrite (sched_wf_len _ Hs). }
  split.
  - exists i. split.
    + exists (set_t_cap_table ct' t). rewrite Hput, decide_True by done. split; [done|]. cbn [t_cap_table set_t_cap_table].
      by rewrite Hat, decide_True.
    + intros c' (t' & Ht' & Hc'). destruct Hslot as [Ht|[Hnone _]]; congruence.
  - intros j i' c' (t' & Ht' & Hc'). rewrite Hput in Ht'. destruct (decide (target = j)) as [<-|]; [|left; by exists t'].
    simplify_eq. cbn [t_cap_table set_t_cap_table] in Hc'. rewrite Hat in Hc'. destruct (decide (i = i')) as [<-|]; [right; by simplify_eq|].
    left. destruct Hslot as [Ht|[_ Hnew]]; [by exists t|]. rewrite Hnew in Hc'. apply cap_at_Some in Hc' as [_ Hidx].
    by apply idx_elem_of, elem_of_replicate in Hidx as [? _].
  - intros j i' c' (t' & Ht' & Hc'). destruct (decide (target = j)) as [<-|Hne].
    + destruct Hslot as [Ht|[Hnone _]]; [|congruence]. simplify_eq. exists (set_t_cap_table ct' t). rewrite Hput, decide_True by done.
      split; [done|]. cbn [t_cap_table set_t_cap_table]. rewrite Hat, decide_False; [done|]. intros ->. congruence.
    + exists t'. by rewrite Hput, decide_False.
Qed.

Lemma arr_get_tasks s i :
  sched_wf s -> i < MAX_TASKS -> arr_get (s_tasks s) i = Ret (task_slot s i).
Proof.
  intros Hs Hi. destruct (arr_get_ok (s_tasks s) i) as (o & Ho & ->); [by rewrite (sched_wf_len _ Hs)|].
  unfold task_slot. by rewrite Ho.
Qed.

Lemma put_slot_twice i o o' s : put_slot i o (put_slot i o' s) = put_slot i o s.
Proof. unfold put_slot, set_s_tasks. simpl. by rewrite upd_upd_eq. Qed.

(** No free slot. *)
Definition full_table (s : Scheduler) (j : N) : Prop := forall i, i < MAX_CAPS -> exists c, holds_cap s j i c.

(** [kv grant] and [log grant] to a task of the table: the kernel panics if its
    table is full; else it gains exactly the granted capability. *)
Lemma grant_to_spec target derived donor_id k :
  kernel_wf k -> stacks_fit -> target < MAX_TASKS ->
  match grant_to park_entry target derived donor_id k with
  | Ret (id, k') => id = am_next_cap_id (k_amb k) /\ kernel_wf k' /\
      gained (k_sched k) (k_sched k') target (granted_cap derived id donor_id)
  | Panic => full_table (k_sched k) target
  | Hang | OutOfFuel => False
  end.
Proof.
  intros [Hs Hl Ha] Hfit Hlt. unfold grant_to. unfold kbind at 1, lock_sched. rewrite Hl. cbn [obind]. unfold kbind at 1. ksimp.
  rewrite arr_get_tasks by done. cbn [obind]. destruct (task_slot (k_sched k) target) as [t|] eqn:Ht.
  - unfold kbind at 1, kret at 1. cbn [obind]. unfold kbind at 1. ksimp. rewrite arr_get_tasks, Ht by done. cbn [obind].
    pose proof (sched_wf_task _ Hs _ _ Ht) as Htw. destruct (insert_derived_spec (t_cap_table t) derived donor_id (set_k_sched_locked true k))
      as [[Hp Hfull]|(a & ct' & i & Hins & Hwf & Hfree & _ & Hat)]; [apply Htw|unfold kbind; rewrite Hp|].
    { cbn [obind]. intros i [c Hc]%Hfull. by exists c, t. }
    unfold kbind. rewrite Hins. cbn [obind kmod kret unlock_sched]. split; [done|]. unfold on_sched. ksimp. split.
    + split; ksimp; [|done..]. apply put_slot_wf; [done|]. intros t' ?. simplify_eq. split; [exact (sched_wf_id _ Hs _ _ Ht)|].
      destruct Htw. by split.
    + eapply put_table_gained; eauto. exact (sched_wf_id _ Hs _ _ Ht).
  - unfold kbind at 1. unfold kbind at 1. rewrite Task_new_spec by done. cbn [obind]. set (t := mkTask _ _ _ _ _ _ _ _ _).
    unfold kbind at 1, kmod at 1, bump_tasks_spawned, kmod at 1. cbn [obind]. unfold kbind at 1. unfold on_sched, spawned, set_mem. ksimp.
    assert (task_wf t) as Htw by (split; [done|apply MessageQueue_new_wf]).
    assert (sched_wf (put_slot target (Some t) (k_sched k))) as Hs1.
    { apply put_slot_wf; [done|]. intros t' ?. by simplify_eq. }
    assert (task_slot (put_slot target (Some t) (k_sched k)) target = Some t) as Ht1.
    { rewrite task_slot_put, decide_True; [done..|]. by rewrite (sched_wf_len _ Hs). }
    rewrite arr_get_tasks, Ht1 by done. cbn [obind].
    match goal with |- context [kbind _ _ ?k1] => set (k2 := k1) end.
    destruct (insert_derived_spec (t_cap_table t) derived donor_id k2) as [[_ Hfull]|(a & ct' & i & Hins & Hwf & Hfree & _ & Hat)]; [apply Htw|..].
    { exfalso. by destruct (Hfull 0 eq_refl). }
    unfold kbind. rewrite Hins. cbn [obind kmod kret unlock_sched]. split; [done|].
    unfold on_sched. ksimp. unfold k2. ksimp. rewrite put_slot_twice. split.
    + split; ksimp; [|done..]. apply put_slot_wf; [done|]. intros t' ?. simplify_eq. split; [done|]. destruct Htw. by split.
    + eapply put_table_gained; eauto.
Qed.

Lemma grant_to_panics target derived donor_id k :
  kernel_wf k -> MAX_TASKS <= target -> grant_to park_entry target derived donor_id k = Panic.
Proof.
  intros [Hs Hl Ha] Hlt. unfold grant_to, kbind, lock_sched. rewrite Hl. cbn [obind]. ksimp. unfold arr_get.
  by rewrite idx_ge by by rewrite (sched_wf_len _ Hs).
Qed.

(** The slot a grant filled was free. *)
Lemma gained_not_full s s' target c : gained s s' target c -> ~ full_table s target.
Proof.
  intros [(i & (t & Ht & Hc) & Hfree) _ _] Hfull. apply cap_at_Some in Hc as [Hi _]. destruct (Hfull i Hi) as [c' Hc']. by destruct (Hfree c').
Qed.

Lemma split_word_spec rest :
  lenN rest < u64_limit ->
  exists o, split_word rest = Ret o.
Proof.
  intros Hl. unfold split_word. destruct (scan_split rest Hl not_space 0) as (i & Hi & Hbi & Hsi & _); [lia|].
  change (fun b => negb (is_space b)) with not_space. rewrite Hi. cbn [obind]. case_match; [by eexists|]. rewrite Hsi. cbn [obind].
  destruct (scan_split rest Hl is_space i) as (j & -> & Hbj & _); [lia|]. cbn [obind]. case_match; [by eexists|].
  rewrite slice_ok by lia. by eexists.
Qed.

(** ** What the commands ask for *)

(** [cap grant]: the capability in the slot named, if it carries the grant right. *)
Definition cap_grant_donor (s : Scheduler) (tok2 : list N) : option Capability :=
  match parse_usize tok2 with
  | Ok id => match cap_of s SHELL id with Some donor => if cap_grant donor then Some donor else None | None => None end
  | Err _ => None
  end.

(** The first capability of the console that [p] accepts. *)
Definition console_first (s : Scheduler) (p : option Capability -> bool) : option Capability :=
  match task_slot s SHELL with
  | Some t => from_option (fun i => mjoin (idx (slots (t_cap_table t)) i)) None (position p (slots (t_cap_table t)))
  | None => None
  end.

(** A grant a command asks for: the target, the capability to derive, the donor. *)
Record GrantRequest : Type := mkGrantRequest { gq_target : N; gq_derived : Capability; gq_donor : Capability }.

Definition log_grant_request (s : Scheduler) (tok2 tok3 : list N) : option GrantRequest :=
  match parse_usize tok2, split_word tok3 with
  | Ok kind, Ret (Some (word, rights)) =>
      match parse_usize word, console_first s (is_log_channel kind) with
      | Ok target, Some donor => if kind <? 16 then Some (mkGrantRequest target (log_derived kind donor rights) donor) else None
      | _, _ => None
      end
  | _, _ => None
  end.

Definition kv_grant_request (s : Scheduler) (tok2 tok3 : list N) : option GrantRequest :=
  match parse_usize tok2, parse_usize tok3 with
  | Ok slot, Ok target =>
      match console_first s (is_kv_entry slot) with
      | Some donor => Some (mkGrantRequest target (mkCap (KVEntry slot true false) true false false false 0 (Some (cap_id donor))) donor)
      | None => None
      end
  | _, _ => None
  end.

(** A command that makes the grant [q]: the donor is the console's; the kernel
    panics when the target is outside the table or its table is full; else the
    target gains exactly the derived capability, with a fresh identity and the donor
    as its origin.  A command that makes none changes nothing. *)
Definition grants (k : Kernel) (m : K Reply) (q : option GrantRequest) : Prop :=
  match q with
  | None => exists r, m k = Ret (r, k)
  | Some (mkGrantRequest target derived donor) =>
      (exists slot, holds_cap (k_sched k) SHELL slot donor) /\
      (MAX_TASKS <= target \/ full_table (k_sched k) target -> m k = Panic) /\
      (target < MAX_TASKS -> ~ full_table (k_sched k) target -> exists r k', m k = Ret (r, k') /\ kernel_wf k' /\
         gained (k_sched k) (k_sched k') target (granted_cap derived (am_next_cap_id (k_amb k)) (cap_id donor)))
  end.

(** The tables after [cap grant]: task 66 starts anew with [c] alone. *)
Definition only_66_gets (s s' : Scheduler) (c : Capability) : Prop :=
  forall j i c', holds_cap s' j i c' <-> if decide (j = 66) then i = 0 /\ c' = c else holds_cap s j i c'.

(** ** The commands *)

Lemma console_first_run p k t :
  kernel_wf k -> task_slot (k_sched k) SHELL = Some t -> donor_cap p k = Ret (console_first (k_sched k) p, k).
Proof. intros Hk Ht. rewrite (donor_cap_run p k t) by done. unfold console_first. by rewrite Ht. Qed.

(** A command that comes down to [grant_to] on the request. *)
Lemma grant_to_grants k t m q (reply : Reply) :
  kernel_wf k -> stacks_fit -> task_slot (k_sched k) SHELL = Some t ->
  m k = match q with
        | Some q => (let* _ := grant_to park_entry (gq_target q) (gq_derived q) (cap_id (gq_donor q)) in kret reply) k
        | None => Ret (reply, k)
        end ->
  (forall q', q = Some q' -> exists p, console_first (k_sched k) p = Some (gq_donor q')) ->
  grants k m q.
Proof.
  intros Hk Hfit Ht Hm Hq. unfold grants. destruct q as [[target derived donor]|]; [|by exists reply].
  cbn [gq_target gq_derived gq_donor] in Hm. destruct (Hq _ eq_refl) as [p Hd]. cbn [gq_donor] in Hd.
  assert (donor_cap p k = Ret (Some donor, k)) as Hrun by (by rewrite (console_first_run p k t), Hd).
  split; [by destruct (donor_cap_held p k t donor Hk Ht Hrun)|]. rewrite Hm. unfold kbind.
  destruct (decide (target < MAX_TASKS)) as [Hlt|Hge]; [|split; [|done]; intros _; by rewrite grant_to_panics by (done || lia)].
  pose proof (grant_to_spec target derived (cap_id donor) k Hk Hfit Hlt) as Hg.
  destruct (grant_to park_entry target derived (cap_id donor) k) as [[id k']| | |]; try done; cbn [obind kret].
  destruct Hg as (-> & Hwf & Hgain). split; [intros [?|Hfull]; [lia|by destruct (gained_not_full _ _ _ _ Hgain)]|]. intros _ _. eauto.
Qed.

Lemma log_grant_spec tok2 tok3 k t :
  kernel_wf k -> stacks_fit -> task_slot (k_sched k) SHELL = Some t -> lenN tok3 < u64_limit ->
  grants k (log_grant_command park_entry tok2 tok3) (log_grant_request (k_sched k) tok2 tok3).
Proof.
  intros Hk Hfit Ht Hlen. destruct (split_word_spec tok3 Hlen) as [o Ho]. unfold log_grant_command, log_grant_request. rewrite Ho.
  destruct (parse_usize tok2) as [kind|]; [|by eapply grant_to_grants].
  destruct (N.leb_spec 16 kind) as [Hbig|Hsmall].
  - rewrite (proj2 (N.ltb_ge _ _) Hbig). destruct o as [[word rights]|]; [|by eapply grant_to_grants].
    destruct (parse_usize word); [|by eapply grant_to_grants]. destruct (console_first _ _); by eapply grant_to_grants.
  - rewrite (proj2 (N.ltb_lt _ _) Hsmall). assert (as_u8 kind = kind) as Hu by (apply N.mod_small; lia). rewrite Hu.
    destruct o as [[word rights]|]; [|by eapply grant_to_grants]. destruct (parse_usize word) as [target|] eqn:Hw.
    + destruct (console_first (k_sched k) (is_log_channel kind)) as [donor|] eqn:Hd;
        (eapply grant_to_grants; [done..| |naive_solver]); unfold kbind at 1, klift; cbn [obind]; rewrite Hw; unfold kbind at 1;
        by rewrite (console_first_run _ k t), Hd by done.
    + eapply grant_to_grants; [done..| |done]. unfold kbind at 1, klift. cbn [obind]. by rewrite Hw.
Qed.

Lemma kv_grant_spec tok2 tok3 k t :
  kernel_wf k -> stacks_fit -> task_slot (k_sched k) SHELL = Some t ->
  grants k (kv_grant_command park_entry tok2 tok3) (kv_grant_request (k_sched k) tok2 tok3).
Proof.
  intros Hk Hfit Ht. unfold kv_grant_command, kv_grant_request. destruct (parse_usize tok2) as [slot|]; [|by eapply grant_to_grants].
  destruct (parse_usize tok3) as [target|]; [|by eapply grant_to_grants].
  destruct (console_first (k_sched k) (is_kv_entry slot)) as [donor|] eqn:Hd;
    (eapply grant_to_grants; [done..| |naive_solver]); unfold kbind at 1; by rewrite (console_first_run _ k t), Hd by done.
Qed.

Lemma cap_grant_spec tok2 k t :
  kernel_wf k -> stacks_fit -> task_slot (k_sched k) SHELL = Some t ->
  match cap_grant_donor (k_sched k) tok2 with
  | None => exists r, cap_grant_command park_entry tok2 k = Ret (r, k)
  | Some d => exists r k', cap_grant_command park_entry tok2 k = Ret (r, k') /\ kernel_wf k' /\
      only_66_gets (k_sched k) (k_sched k')
        (mkCap (cap_resource d) (cap_read d) (cap_write d) false false (am_next_cap_id (k_amb k)) (Some (cap_id d)))
  end.
Proof.
  intros Hk Hfit Ht. unfold cap_grant_command, cap_grant_donor, cap_of. rewrite Ht. destruct (parse_usize tok2) as [id|]; [|by eexists].
  pose proof (task_wf_caps _ (sched_wf_task _ (kw_sched _ Hk) _ _ Ht)) as Hct. unfold cap_at. rewrite N.ltb_antisym.
  destruct (MAX_CAPS <=? id) eqn:Hid; cbn [negb]; [by eexists|]. bool_to_prop.
  destruct (arr_get_ok (slots (t_cap_table t)) id) as (o & Ho & Hget); [by rewrite Hct|]. rewrite Ho. cbn [mjoin option_join].
  assert (forall (f : option Capability -> K Reply), (let* sl := get_shell_caps in let* o := klift (arr_get sl id) in f o) k = f o k) as Hrun.
  { intros f. unfold kbind, klift. rewrite (get_shell_caps_run k t) by done. cbn [obind]. by rewrite Hget. }
  destruct o as [d|]; [|rewrite Hrun; by eexists]. destruct (cap_grant d) eqn:Hg; [|rewrite Hrun; unfold attenuate; rewrite Hg; by eexists].
  setoid_rewrite Hrun. unfold attenuate. rewrite Hg. cbn [negb].
  apply wp_run. destruct Hk as [Hs Hl Ha]. apply wp_kbind, wp_lock_sched; [done|]. apply wp_kbind. unfold wp at 1. rewrite Task_new_spec by done.
  set (t6 := mkTask _ _ _ _ _ _ _ _ _). apply wp_kbind. match goal with |- wp (insert_derived _ ?c _) _ ?kk => set (derived := c); set (k1 := kk) end.
  destruct (insert_derived_spec (t_cap_table t6) derived (cap_id d) k1) as [[_ Hfull]|(a & ct' & i & Hins & Hwf & Hfree & Hfirst & Hati)];
    [done|exfalso; by destruct (Hfull 0 eq_refl)|].
  unfold wp at 1. rewrite Hins. apply wp_kbind, wp_kmod, wp_kbind, wp_unlock_sched, wp_kret. unfold k1, spawned, set_mem. ksimp. split.
  - split; ksimp; [|done..]. apply put_slot_wf; [done|]. intros t' ?. simplify_eq. split; [done|]. split; [done|apply MessageQueue_new_wf].
  - assert (granted_cap derived (am_next_cap_id (k_amb k1)) (cap_id d) =
      mkCap (cap_resource d) (cap_read d) (cap_write d) false false (am_next_cap_id (k_amb k)) (Some (cap_id d))) as Hnew.
    { unfold granted_cap, derived, with_id, with_origin. simpl. by rewrite !andb_true_r. }
    assert (i = 0) as -> by (destruct (decide (i = 0)) as [|Hn]; [done|]; by destruct (Hfirst 0 ltac:(lia))).
    intros j i c. unfold holds_cap. rewrite task_slot_put by by rewrite (sched_wf_len _ Hs).
    destruct (decide (66 = j)) as [<-|Hne]; [rewrite (decide_True (P := 66 = 66)) by done|by rewrite (decide_False (P := j = 66)) by congruence].
    split.
    + intros (t' & Ht' & Hc). simplify_eq. cbn [t_cap_table set_t_cap_table] in Hc. rewrite Hati in Hc. destruct (decide (0 = i)) as [<-|]; [split; [done|congruence]|].
      exfalso. apply cap_at_Some in Hc as [_ Hidx]. by apply idx_elem_of, elem_of_replicate in Hidx as [? _].
    + intros [-> ->]. eexists. split; [done|]. cbn [t_cap_table set_t_cap_table]. by rewrite Hati, Hnew.
Qed.

(** A capability [log grant] derives allows no access the donor does not. *)
Lemma log_derived_within kind d rights id w :
  is_log_channel kind (Some d) = true -> coherent d ->
  log_allows kind w (granted_cap (log_derived kind d rights) id (cap_id d)) = true -> log_allows kind w d = true.
Proof.
  unfold is_log_channel, coherent, log_allows, granted_cap, log_derived. simpl. destruct (cap_resource d) eqn:Hr; try done.
  rewrite N.eqb_refl. intros -> [Hcr Hcw]. destruct w, (cap_read d), (cap_write d); simpl; naive_solver.
Qed.

(** ** Sealing *)

(** [cap seal] of an occupied slot always succeeds: the slot keeps its capability,
    now sealed, which the holder cannot remove; no other slot changes. *)
Lemma seal_slot_spec i ct c a :
  CapTable_wf ct -> cap_at ct i = Some c ->
  exists ct' a', seal_slot i ct a = (Some (true, cap_id c), ct', a') /\ CapTable_wf ct' /\
    (forall j, cap_at ct' j = if decide (i = j) then Some (with_sealed c true) else cap_at ct j) /\
    forall a2, exists a3, CapTable_remove ct' i a2 = (Err tt, ct', a3).
Proof.
  intros Hwf Hc. pose proof Hc as [Hi Hidx]%cap_at_Some. unfold seal_slot. rewrite Hidx. cbn [mjoin option_join].
  set (ct1 := mkCapTable _). assert (forall a2, CapTable_remove ct1 i a2 = (Err tt, ct1, a2)) as Hrem.
  { intros a2. unfold CapTable_remove. rewrite (proj2 (N.leb_gt _ _) Hi). unfold ct1. cbn [slots].
    rewrite idx_upd_eq by by rewrite Hwf. done. }
  rewrite Hrem. exists ct1, a. split; [done|]. split; [by apply CapTable_upd_wf|]. split; [|eauto]. intros j. by apply cap_at_upd.
Qed.
End granting.

(** ** What the other commands do *)

(** The console as the boot sequence leaves it. *)
Definition console_system : Kernel :=
  match load (L := example_layout) 0x1000 Kernel_init with Ret (_, k) => set_current SHELL k | _ => Kernel_init end.

Lemma console_system_ok : exists t, kernel_wf console_system /\ task_slot (k_sched console_system) SHELL = Some t.
Proof.
  destruct (load_spec (L := example_layout) 0x1000 Kernel_init Kernel_init_wf example_stacks_fit) as (a & _ & Ha).
  set (k1 := placed (L := example_layout) SHELL _ _ _) in Ha.
  assert (console_system = set_current SHELL k1) as -> by (unfold console_system; by rewrite Ha). eexists. split.
  - apply set_current_wf, placed_wf; [reflexivity|apply front_wf; simpl; lia|]. destruct Kernel_init_wf. by split.
  - unfold set_current, on_sched. change (task_slot (k_sched (set_k_sched (set_s_current_task_id _ ?s) _)) ?j) with (task_slot s j).
    unfold k1. rewrite placed_slot; [by rewrite decide_True|apply Kernel_init_wf|reflexivity].
Qed.

Definition run_k {A} (m : K A) (k : Kernel) : Kernel := match m k with Ret (_, k') => k' | _ => k end.
Definition reply_of {A} (m : K (list Report * A)) (k : Kernel) : option (list Report) :=
  match m k with Ret ((l, _), _) => Some l | _ => None end.

(** [kv grant] gives away a read right the console does not have: its capability
    for slot 2 is write-only. *)
Example kv_grant_amplifies :
  let k' := run_k (kv_grant_command (L := example_layout) 0x2000 (as_bytes "2") (as_bytes "70")) console_system in
  holds (kv_allows 2 false) (k_sched console_system) SHELL = false /\ holds (kv_allows 2 false) (k_sched k') 70 = true.
Proof. vm_compute. split; reflexivity. Qed.

(** [log grant] does not look at the flags of its donor: a capability that names the
    read right, for a channel that is not readable, makes one that reads. *)
Lemma log_grant_ignores_flags :
  let d := mkCap (LogChannel 0 false true) true true true false 1 None in
  log_allows 0 false d = false /\ log_allows 0 false (log_derived 0 d (as_bytes "r")) = true.
Proof. vm_compute. split; reflexivity. Qed.

(** A task number outside the table halts the machine. *)
Example kv_grant_out_of_range :
  kv_grant_command (L := example_layout) 0x2000 (as_bytes "0") (as_bytes "132") console_system = Panic.
Proof. vm_compute. reflexivity. Qed.

(** [cap revoke] reports that reuse is denied, and the capability derived from the
    revoked one stays usable. *)
Definition is_serial (c : Capability) : bool := bool_decide (cap_resource c = Serial).

Example cap_revoke_keeps_derived :
  let k1 := run_k (cap_grant_command (L := example_layout) 0x2000 (as_bytes "0")) console_system in
  reply_of (cap_revoke_command (as_bytes "0")) k1 = Some [print_ok "revoked id={}; re-use denied (slot now empty)" [Num 1]] /\
  holds is_serial (k_sched (run_k (cap_revoke_command (as_bytes "0")) k1)) 66 = true.
Proof. vm_compute. split; reflexivity. Qed.

(** [log revoke] cuts its argument to a byte: kind 256 revokes kind 0. *)
Example log_revoke_truncates :
  holds (log_allows 0 true) (k_sched console_system) SHELL = true /\
  holds (log_allows 0 true) (k_sched (run_k (log_revoke_command (as_bytes "256")) console_system)) SHELL = false.
Proof. vm_compute. split; reflexivity. Qed.

(** Rights that are none of [r], [w] and [rw] are reported as write-only and grant
    nothing. *)
Example log_grant_reports_write :
  let m := log_grant_command (L := example_layout) 0x2000 (as_bytes "0") (as_bytes "70 x") in
  reply_of m console_system = Some [print_ok "granted {} LogChannel kind {} to task {}" [Str (as_bytes "write-only"); Num 0; Num 70]] /\
  holds (log_allows 0 true) (k_sched (run_k m console_system)) 70 = false.
Proof. vm_compute. split; reflexivity. Qed.

(** Five worker pairs take the slot of the key-value service, and the clean-up
    removes the task in it. *)
Example stress_takes_service :
  let k1 := run_k (ensure_kv_service (L := example_layout) 0x3000) console_system in
  let k2 := run_k (stress_load (L := example_layout) 0x4000 5) k1 in
  (t_cap_table <$> task_slot (k_sched k2) 82) <> (t_cap_table <$> task_slot (k_sched k1) 82) /\
  task_slot (k_sched (run_k (stress_drop 5) k2)) 82 = None.
Proof. vm_compute. split; [discriminate|reflexivity]. Qed.

(** ** A command that runs itself *)

Definition history_zero : list N := as_bytes "history 0".
Definition only_entry : History := match History_push History_new history_zero with Ret h => h | _ => History_new end.

(** [history 0] as the first command of a session never returns: the entry it
    names is itself.  [dispatch] is any dispatcher that has the arm; its number
    bounds the nesting. *)
Lemma history_runs_itself {D} (dispatch : nat -> list N -> ShellState -> R (Reply * ShellState (D := D))) snap dist watch lapic :
  (forall line st k, dispatch O line st k = OutOfFuel) ->
  (forall n st k, dispatch (S n) history_zero st k = history_command (dispatch n) (as_bytes "0") st k) ->
  forall n k, dispatch n history_zero (mkShellState only_entry snap dist watch lapic) k = OutOfFuel.
Proof.
  intros H0 HS. induction n as [|n IH]; intros k; [apply H0|]. rewrite HS.
  assert (history_command (dispatch n) (as_bytes "0") (mkShellState only_entry snap dist watch lapic) k =
    rbind (dispatch n history_zero (mkShellState only_entry snap dist watch lapic))
      (fun '(rest, result, st') => rret ((print_cmd "{}" [Str (from_utf8_or_empty history_zero)] :: rest, result), st')) k) as ->
    by (vm_compute; reflexivity).
  unfold rbind. by rewrite IH.
Qed.

(** C5: The console's grants are exact.  [cap grant] never panics: it gives task 66,
    started anew and with nothing else, the capability in the slot named, with the
    rights that one has and without the grant right, if that one has the grant right;
    otherwise it changes nothing.  [log grant] and [kv grant] panic exactly when the
    task named is outside the table or has no free slot; else that task gains exactly
    one capability, with a fresh identity, derived from the first capability of the
    console for the log or slot named and recording it as its origin, and no other
    capability changes; a command that names none changes nothing.  A log capability
    derived from one whose flags agree with its rights allows only what that one
    allows; a key-value capability is always readable, and never writable or
    grantable. *)
Theorem console_grants_exact `{L : Layout} park_entry tok2 tok3 k t :
  kernel_wf k -> stacks_fit -> task_slot (k_sched k) SHELL = Some t -> lenN tok3 < u64_limit ->
  match cap_grant_donor (k_sched k) tok2 with
  | None => exists r, cap_grant_command park_entry tok2 k = Ret (r, k)
  | Some d => exists r k', cap_grant_command park_entry tok2 k = Ret (r, k') /\ kernel_wf k' /\
      only_66_gets (k_sched k) (k_sched k')
        (mkCap (cap_resource d) (cap_read d) (cap_write d) false false (am_next_cap_id (k_amb k)) (Some (cap_id d)))
  end /\
  grants k (log_grant_command park_entry tok2 tok3) (log_grant_request (k_sched k) tok2 tok3) /\
  grants k (kv_grant_command park_entry tok2 tok3) (kv_grant_request (k_sched k) tok2 tok3) /\
  forall kind d rights id w, is_log_channel kind (Some d) = true -> coherent d ->
    log_allows kind w (granted_cap (log_derived kind d rights) id (cap_id d)) = true -> log_allows kind w d = true.
Proof.
  intros Hk Hfit Ht Hlen. split; [by apply (cap_grant_spec _ _ _ t)|]. split; [by apply (log_grant_spec _ _ _ _ t)|].
  split; [by apply (kv_grant_spec _ _ _ _ t)|]. apply log_derived_within.
Qed.

Lemma console_grants_exact_witness :
  let k := console_system in
  (exists r k', log_grant_command (L := example_layout) 0x2000 (as_bytes "0") (as_bytes "70 r") k = Ret (r, k') /\
     gained (k_sched k) (k_sched k') 70 (mkCap (LogChannel 0 true false) true false false false 17 (Some 8))) /\
  log_grant_command (L := example_layout) 0x2000 (as_bytes "0") (as_bytes "132 r") k = Panic.
Proof.
  destruct console_system_ok as (t & Hk & Ht). cbv zeta. split.
  - destruct (console_grants_exact (L := example_layout) 0x2000 (as_bytes "0") (as_bytes "70 r") console_system t Hk example_stacks_fit Ht eq_refl)
      as (_ & Hlog & _).
    assert (log_grant_request (k_sched console_system) (as_bytes "0") (as_bytes "70 r") =
      Some (mkGrantRequest 70 (mkCap (LogChannel 0 true false) true false false false 0 (Some 8))
        (mkCap (LogChannel 0 true true) true true true false 8 None))) as Hq by (vm_compute; reflexivity).
    rewrite Hq in Hlog. destruct Hlog as (_ & _ & Hgo). destruct Hgo as (r & k' & Hrun & _ & Hg); [reflexivity| |].
    + intros Hfull. destruct (Hfull 0 eq_refl) as (c & t' & Ht' & _).
      assert (task_slot (k_sched console_system) 70 = None) as Hn by (vm_compute; reflexivity). congruence.
    + exists r, k'. split; [exact Hrun|exact Hg].
  - destruct (console_grants_exact (L := example_layout) 0x2000 (as_bytes "0") (as_bytes "132 r") console_system t Hk example_stacks_fit Ht eq_refl)
      as (_ & Hlog & _).
    assert (exists d c, log_grant_request (k_sched console_system) (as_bytes "0") (as_bytes "132 r") = Some (mkGrantRequest 132 c d)) as (d & c & Hq)
      by (eexists _, _; vm_compute; reflexivity).
    rewrite Hq in Hlog. destruct Hlog as (_ & Hp & _). apply Hp. left. vm_compute. discriminate.
Defined.
