(* ===== verification/Replies.v ===== *)
(** * Encodings of the console's requests

    What a [kv set] or [log publish] stores and what the [kv get] or [log read]
    that follows shows: [kv_round_trip] and [log_round_trip] take the bytes typed
    through the request, the service, the reply and the report. *)

From S2P Require Import Prelude Ring Text Preempt Trace Capability AuditTrail Message Machine Frames.
From S2P Require Import Task Scheduler Kernel Switch Scheduling Spawn Contexts Ipc Rendezvous Messaging.
From S2P Require Import UserMemory Service KvService LogService FsService SyncService Console CommandLine DevService Clients Boot Reports Commands.
Local Open Scope N_scope.

Definition nonzero (b : N) : bool := negb (b =? 0).

(** What is left of a text in a zero-padded field of [n] bytes. *)
Definition shown (n : nat) (text : list N) : list N := prefix_while nonzero (take n text).

(** ** Fields *)

Lemma npad_more n pre k : (length pre + k <= n)%nat -> npad n pre = npad n (pre ++ replicate k 0).
Proof.
  intros Hl. unfold npad. rewrite <- app_assoc, <- replicate_add, length_app, length_replicate. do 2 f_equal. lia.
Qed.

Lemma npad_length n pre : (length pre <= n)%nat -> length (npad n pre) = n.
Proof. intros. unfold npad. rewrite length_app, length_replicate. lia. Qed.

Lemma prefix_while_npad n l : prefix_while nonzero (npad n l) = prefix_while nonzero l.
Proof.
  unfold npad. generalize (n - length l)%nat as m. intros m. induction l as [|b l IH]; simpl; [by destruct m|].
  by destruct (nonzero b); rewrite ?IH.
Qed.

Lemma take_length_le {A} n (l : list A) : (length (take n l) <= n)%nat.
Proof. rewrite length_take. lia. Qed.

(** The loop that measures a field. *)
Lemma text_len_spec n : forall reply base len,
  base + len + N.of_nat n <= lenN reply ->
  text_len n reply base len = Ret (len + lenN (prefix_while nonzero (take n (drop (N.to_nat (base + len)) reply)))).
Proof.
  induction n as [|n IH]; intros reply base len Hl; cbn [text_len]; [rewrite take_0; simpl; by rewrite N.add_0_r|].
  destruct (arr_get_ok reply (base + len)) as (b & Hb & ->); [lia|]. cbn [obind]. rewrite idx_lookup in Hb. rewrite (drop_S _ _ _ Hb).
  cbn [take prefix_while]. unfold nonzero at 1. destruct (b =? 0); cbn [negb]; [by rewrite N.add_0_r|].
  rewrite IH by lia. f_equal. rewrite lenN_cons. replace (N.to_nat (base + (len + 1))) with (S (N.to_nat (base + len))) by lia. lia.
Qed.

(** Reading a field of [n] bytes at [base]. *)
Lemma field_text n reply base (F : list N) :
  base + N.of_nat n <= lenN reply -> take n (drop (N.to_nat base) reply) = F ->
  text_len n reply base 0 = Ret (lenN (prefix_while nonzero F)) /\
  slice reply base (base + lenN (prefix_while nonzero F)) = Ret (prefix_while nonzero F).
Proof.
  intros Hl <-. rewrite text_len_spec by lia. rewrite N.add_0_r, N.add_0_l. split; [done|].
  set (F := take n _). pose proof (prefix_while_split nonzero F) as Hs.
  assert (lenN (prefix_while nonzero F) <= N.of_nat n) as Hle.
  { apply (f_equal length) in Hs. rewrite length_app in Hs. unfold F, lenN in *. rewrite length_take in Hs. lia. }
  set (p := prefix_while nonzero F) in *. clearbody p. rewrite slice_ok by lia. f_equal.
  replace (N.to_nat (base + lenN p - base)) with (length p) by (unfold lenN; lia).
  transitivity (take (length p) F); [|rewrite Hs; apply take_app_length].
  unfold F. rewrite take_take. f_equal. unfold lenN in Hle. lia.
Qed.

(** ** The key-value commands *)

Definition kv_fields (key value : list N) : list N := npad 16 (take 16 key) ++ npad 64 (take 64 value).

Lemma kv_fields_length key value : length (kv_fields key value) = 80%nat.
Proof. unfold kv_fields. by rewrite length_app, !npad_length by apply take_length_le. Qed.

Lemma kv_set_payload_spec slot key value :
  slot < 256 -> kv_set_payload slot key value = Ret (slot :: kv_fields key value).
Proof.
  intros Hs. unfold kv_set_payload, kv_fields, as_u8. rewrite N.mod_small, !slice_min by done.
  change (N.to_nat 16) with 16%nat. change (N.to_nat 64) with 64%nat.
  pose proof (take_length_le 16 key) as Hk. pose proof (take_length_le 64 value) as Hv.
  set (k := take 16 key) in *. set (v := take 64 value) in *. change (replicate 81 0) with (npad 81 []).
  rewrite (npad_set 81 0) by (done || simpl; lia). cbn [obind app]. rewrite (npad_copy 81 1) by (done || simpl; lia). cbn [obind app].
  rewrite (npad_more 81 (slot :: k) (16 - length k)) by (simpl; lia). cbn [app].
  rewrite (npad_copy 81 17) by (unfold lenN; simpl; rewrite ?length_app, ?length_replicate; lia). f_equal.
  assert (length ((slot :: k ++ replicate (16 - length k) 0) ++ v) = (17 + length v)%nat) as Hl.
  { rewrite length_app. cbn [length]. rewrite length_app, length_replicate. lia. }
  unfold npad at 1. rewrite Hl. unfold npad. cbn [app]. rewrite <- !app_assoc. do 4 f_equal.
Qed.

Lemma kv_get_report_spec slot key value :
  kv_get_report slot (zpad (0 :: kv_fields key value)) =
    Ret (print_ok "get slot {}: key={} value={}"
           [Num slot; Str (from_utf8_or_empty (shown 16 key)); Str (from_utf8_or_empty (shown 64 value))]).
Proof.
  pose proof (kv_fields_length key value) as Hlen. set (reply := zpad (0 :: kv_fields key value)).
  assert (lenN reply = 128) as Hr by (apply zpad_len; simpl; lia).
  set (K := npad 16 (take 16 key)). set (V := npad 64 (take 64 value)).
  assert (length K = 16%nat /\ length V = 64%nat) as [HK HV] by (split; apply npad_length, take_length_le).
  assert (exists Z, reply = 0 :: K ++ V ++ Z) as [Z HZ] by (eexists; unfold reply, npad at 1; cbn [app]; unfold kv_fields; by rewrite <- app_assoc).
  assert (take 16 (drop (N.to_nat 1) reply) = K) as Hk by (rewrite HZ; by apply take_app_length').
  assert (take 64 (drop (N.to_nat 17) reply) = V) as Hv.
  { rewrite HZ. change (N.to_nat 17) with (S 16). cbn [drop]. rewrite drop_app_length' by done. by apply take_app_length'. }
  unfold kv_get_report. assert (arr_get reply 0 = Ret 0) as -> by (rewrite HZ; done). cbn [obind N.eqb].
  destruct (field_text 16 reply 1 _ ltac:(rewrite Hr; done) Hk) as [-> Hks].
  destruct (field_text 64 reply 17 _ ltac:(rewrite Hr; done) Hv) as [-> Hvs]. cbn [obind]. rewrite Hks. cbn [obind]. rewrite Hvs. cbn [obind].
  unfold K, V. by rewrite !prefix_while_npad.
Qed.

(** The fields the service cuts out of the request are those the console wrote. *)
Lemma kv_request_fields slot key value :
  field 1 16 (request SHELL KVSet (slot :: kv_fields key value)) = npad 16 (take 16 key) /\
  field 17 64 (request SHELL KVSet (slot :: kv_fields key value)) = npad 64 (take 64 value).
Proof.
  unfold field, request. cbn [msg_payload]. unfold npad at 1 3. cbn [app]. unfold kv_fields. rewrite <- app_assoc.
  pose proof (npad_length 16 _ (take_length_le 16 key)) as HK. pose proof (npad_length 64 _ (take_length_le 64 value)) as HV.
  split; [by apply take_app_length'|]. cbn [drop]. rewrite drop_app_length' by done. by apply take_app_length'.
Qed.

Lemma kv_fields_bytes slot key value :
  slot < 256 -> Forall (fun b => b < 256) key -> Forall (fun b => b < 256) value ->
  Forall (fun b => b < 256) (slot :: kv_fields key value).
Proof.
  intros Hs Hk Hv. constructor; [done|]. apply Forall_app. split; apply Forall_app; (split; [by apply Forall_take|by apply Forall_replicate]).
Qed.

(** The service's side of the exchange. *)
Lemma kv_set_served slot key value store k :
  kernel_wf k -> kv_wf store -> slot < 32 -> Forall (fun b => b < 256) key -> Forall (fun b => b < 256) value ->
  holds (kv_allows slot true) (k_sched k) SHELL = true ->
  kv_handle (request SHELL KVSet (slot :: kv_fields key value)) store k =
    Ret ((status 0, mkKvStore (upd (kv_slots store) slot (mkKvSlot (npad 16 (take 16 key)) (npad 64 (take 64 value))))), k).
Proof.
  intros Hk Hst Hslot Hkey Hval Hw. assert (lenN (slot :: kv_fields key value) = 81) as H81 by (unfold lenN; simpl; by rewrite kv_fields_length).
  rewrite kv_handle_spec; [|done| |done].
  2: { apply sent_request_ok; [rewrite H81; done|apply kv_fields_bytes; [lia|done..]|done]. }
  destruct (kv_request_fields slot key value) as [HK HV]. unfold kv_result. rewrite HK, HV. cbn [msg_tag msg_len msg_sender request]. rewrite H81.
  change (req_slot _) with slot. rewrite (proj2 (N.leb_gt 32 slot)) by done. rewrite Hw. done.
Qed.

Lemma kv_get_served slot store k :
  kernel_wf k -> kv_wf store -> slot < 32 -> holds (kv_allows slot false) (k_sched k) SHELL = true ->
  kv_handle (request SHELL KVGet [slot]) store k =
    Ret ((0 :: kv_key (kv_at store slot) ++ kv_value (kv_at store slot), store), k).
Proof.
  intros Hk Hst Hslot Hr. rewrite kv_handle_spec; [|done| |done].
  2: { apply sent_request_ok; [done|by constructor; [lia|]|done]. }
  unfold kv_result. cbn [msg_tag msg_len msg_sender request]. change (req_slot _) with slot.
  rewrite (proj2 (N.leb_gt 32 slot)) by done. rewrite Hr. done.
Qed.

(** C36: What [kv set] stores is what [kv get] shows.  Whatever key and value are
    typed for one of the 32 slots, if the console may write the slot when the first
    request is served and may read it when the second is, the service accepts the
    first, and the reply to the second is shown as the key and the value, cut to
    the 16 and 64 bytes of their fields and at the first zero byte. *)
Theorem kv_round_trip slot key value store k1 k2 :
  kernel_wf k1 -> kernel_wf k2 -> kv_wf store -> slot < 32 ->
  Forall (fun b => b < 256) key -> Forall (fun b => b < 256) value ->
  holds (kv_allows slot true) (k_sched k1) SHELL = true -> holds (kv_allows slot false) (k_sched k2) SHELL = true ->
  exists payload store' reply,
    kv_set_payload slot key value = Ret payload /\
    kv_handle (request SHELL KVSet payload) store k1 = Ret ((status 0, store'), k1) /\
    kv_handle (request SHELL KVGet [slot]) store' k2 = Ret ((reply, store'), k2) /\
    kv_get_report slot (zpad reply) =
      Ret (print_ok "get slot {}: key={} value={}"
             [Num slot; Str (from_utf8_or_empty (shown 16 key)); Str (from_utf8_or_empty (shown 64 value))]).
Proof.
  intros Hk1 Hk2 Hst Hslot Hkey Hval Hw Hr. eexists _, _, _. split; [apply kv_set_payload_spec; lia|].
  split; [by apply kv_set_served|]. rewrite kv_get_served; [|done| |done..].
  2: { pose proof (kv_fields_length key value). destruct Hst as [Hlen Hsz]. split; simpl; [by rewrite lenN_upd|].
       intros i s. rewrite idx_upd. case_decide; [|by apply Hsz]. intros [= <-]. cbn [kv_key kv_value]. by rewrite !npad_length by apply take_length_le. }
  split; [done|]. unfold kv_at. cbn [kv_slots]. rewrite idx_upd_eq by (destruct Hst; lia). apply kv_get_report_spec.
Qed.

(** ** The log commands *)

(** The bytes of a number below [256 ^ n], least significant first. *)
Fixpoint le_bytes (n : nat) (v : N) : list N :=
  match n with O => [] | S n' => N.land v 0xFF :: le_bytes n' (N.shiftr v 8) end.

Lemma to_ne_bytes_le v : to_ne_bytes v = le_bytes 8 v.
Proof. unfold to_ne_bytes. cbn [le_bytes]. by rewrite !N.shiftr_shiftr. Qed.

Lemma from_le_bytes n : forall v, v < 256 ^ N.of_nat n -> from_ne_bytes (le_bytes n v) = v.
Proof.
  induction n as [|n IH]; intros v Hv; [simpl in *; lia|]. cbn [le_bytes from_ne_bytes foldr]. change 0xFF with (N.ones 8).
  rewrite N.land_ones, N.shiftr_div_pow2. change (2 ^ 8) with 256. rewrite Nat2N.inj_succ, N.pow_succ_r' in Hv.
  fold (from_ne_bytes (le_bytes n (v / 256))). rewrite IH by (apply N.Div0.div_lt_upper_bound; lia). pose proof (N.Div0.div_mod v 256). lia.
Qed.

Lemma from_to_ne_bytes v : v < u64_limit -> from_ne_bytes (to_ne_bytes v) = v.
Proof. intros Hv. rewrite to_ne_bytes_le. by apply from_le_bytes. Qed.

Lemma slice_mid {A} (pre src suf : list A) : slice (pre ++ src ++ suf) (lenN pre) (lenN pre + lenN src) = Ret src.
Proof.
  rewrite slice_ok by (rewrite ?lenN_app; lia). f_equal. unfold lenN. rewrite Nat2N.id, drop_app_length.
  apply take_app_length'. lia.
Qed.

Lemma log_publish_payload_spec kind text :
  log_publish_payload kind text = Ret (kind :: take 64 text).
Proof.
  unfold log_publish_payload. rewrite slice_min. change (N.to_nat 64) with 64%nat. pose proof (take_length_le 64 text) as Ht.
  change (replicate 65 0) with (npad 65 []). rewrite (npad_set 65 0) by (done || simpl; lia). cbn [obind app].
  rewrite (npad_copy 65 1) by (done || simpl; lia). cbn [obind app].
  replace (1 + N.min (lenN text) 64) with (lenN (kind :: take 64 text)); [apply npad_slice; simpl; lia|].
  rewrite lenN_cons. unfold lenN. rewrite length_take. lia.
Qed.

(** A published text is read back as its first 64 bytes, with the tick and the
    producer of its entry. *)
Lemma log_round_trip tick kind text :
  tick < u64_limit ->
  exists payload reply,
    log_publish_payload kind text = Ret payload /\
    log_encode (published tick (request SHELL LogPublish payload)) = Ret reply /\
    log_read_report kind (zpad reply) =
      Ret (print_ok "[{}] producer={} kind={} message={}"
             [Num tick; Num SHELL; Num kind; Str (from_utf8_or_empty (take 64 text))]).
Proof.
  intros Htick. rewrite log_publish_payload_spec. pose proof (take_length_le 64 text) as Ht.
  set (t := take 64 text) in *. clearbody t. eexists _, _. split; [done|].
  assert (published tick (request SHELL LogPublish (kind :: t)) = mkLogEntry tick SHELL kind (npad 64 t) (lenN t)) as ->.
  { unfold published, request. cbn [msg_len msg_payload msg_sender]. rewrite lenN_cons.
    assert (N.min (1 + lenN t - 1) 64 = lenN t) as -> by (unfold lenN; lia). unfold npad. cbn [app drop].
    replace (N.to_nat (lenN t)) with (length t) by (unfold lenN; lia). by rewrite drop_0, take_app_length. }
  rewrite log_encode_spec by (by apply npad_length). split; [done|]. unfold entry_bytes. cbn [le_tick le_producer le_kind le_len le_msg].
  pose proof (to_ne_bytes_length tick) as Ha. pose proof (to_ne_bytes_length SHELL) as Hb. pose proof (to_ne_bytes_length (lenN t)) as Hc.
  pose proof (from_to_ne_bytes tick Htick) as Hfa. pose proof (from_to_ne_bytes SHELL eq_refl) as Hfb.
  pose proof (from_to_ne_bytes (lenN t) ltac:(unfold lenN, u64_limit; lia)) as Hfc.
  set (a := to_ne_bytes tick) in *. set (b := to_ne_bytes SHELL) in *. set (c := to_ne_bytes (lenN t)) in *. clearbody a b c.
  set (reply := zpad _). assert (lenN reply = 128) as Hlen.
  { apply zpad_len. cbn [length]. rewrite !length_app, npad_length by done. simpl. lia. }
  assert (exists Z, reply = 0 :: a ++ b ++ [kind] ++ c ++ t ++ Z) as [Z HZ].
  { eexists. unfold reply, npad. cbn [app]. rewrite <- !app_assoc. cbn [app]. rewrite <- !app_assoc. reflexivity. }
  unfold log_read_report. assert (arr_get reply 0 = Ret 0) as -> by (by rewrite HZ). cbn [obind N.eqb].
  assert (forall pre src suf x y, reply = pre ++ src ++ suf -> x = lenN pre -> y = x + lenN src -> slice reply x y = Ret src) as Hsl.
  { intros pre src suf x y -> -> ->. apply slice_mid. }
  rewrite (Hsl [0] a (b ++ [kind] ++ c ++ t ++ Z)) by (rewrite ?HZ; unfold lenN; rewrite ?Ha; done). cbn [obind].
  rewrite (Hsl (0 :: a) b ([kind] ++ c ++ t ++ Z)) by (rewrite ?HZ; unfold lenN; simpl; rewrite ?Ha, ?Hb; done). cbn [obind].
  rewrite (Hsl (0 :: a ++ b ++ [kind]) c (t ++ Z)) by (rewrite ?HZ; unfold lenN; simpl; rewrite <- ?app_assoc, ?length_app, ?Ha, ?Hb, ?Hc; done).
  cbn [obind]. rewrite Hfc, add64_ok by (change u64_limit with 18446744073709551616; unfold lenN; lia). cbn [obind].
  rewrite (Hsl (0 :: a ++ b ++ [kind] ++ c) t Z).
  2-4: rewrite ?HZ; unfold lenN; simpl; rewrite <- ?app_assoc, ?length_app; cbn [length app]; rewrite ?length_app, <- ?app_assoc, ?Ha, ?Hb, ?Hc; done.
  cbn [obind]. by rewrite Hfa, Hfb.
Qed.

(** A console with its boot capabilities. *)
Definition console_kernel : Kernel := add_task (example_task SHELL Running (root_table 1)) Kernel_init.

Lemma kv_round_trip_witness :
  exists payload store' reply,
    kv_set_payload 0 (as_bytes "name") (as_bytes "runix") = Ret payload /\
    kv_handle (request SHELL KVSet payload) KvStore_new console_kernel = Ret ((status 0, store'), console_kernel) /\
    kv_handle (request SHELL KVGet [0]) store' console_kernel = Ret ((reply, store'), console_kernel) /\
    kv_get_report 0 (zpad reply) =
      Ret (print_ok "get slot {}: key={} value={}" [Num 0; Str (as_bytes "name"); Str (as_bytes "runix")]).
Proof.
  assert (kernel_wf console_kernel) as Hk by (apply add_task_wf; [apply example_task_wf; simpl; lia|apply Kernel_init_wf]).
  apply (kv_round_trip 0 (as_bytes "name") (as_bytes "runix") KvStore_new console_kernel console_kernel); try done.
  - apply KvStore_new_wf.
  - by repeat constructor.
  - by repeat constructor.
Defined.
