(* ===== verification/Listings.v ===== *)
(** * Listings of the console

    The arms of [dispatch] in [kernel/shell/mod.rs] that only look: help, the
    capability listing and audit trail, the task and service listings, statistics,
    devices and the two simulators.  [listings_only_look] proves that they print
    and change nothing; [cache_sim_exact] that the cache simulator does, or panics
    on the trace names whose addresses overflow. *)

From S2P Require Import Prelude Ring Text Preempt Trace Capability AuditTrail Message Machine Frames.
From S2P Require Import Task Scheduler Kernel Switch Scheduling Spawn Contexts Paging AddressSpace.
From S2P Require Import PipelineSim CacheSim CommandLine Clients Reports Commands Grants.
Local Open Scope N_scope.

(** ** Help *)

(** A token against a byte string. *)
Definition is_tok (tok : list N) (s : string) : bool := bool_decide (tok = as_bytes s).

(** The first entry whose name is the token. *)
Fixpoint lookup_tok {A} (tok : list N) (l : list (string * A)) : option (string * A) :=
  match l with
  | [] => None
  | (s, x) :: l' => if is_tok tok s then Some (s, x) else lookup_tok tok l'
  end.

Definition info_lines (l : list string) : list Report := (fun s => print_info s []) <$> l.

Definition help_overview : list string := [
  "Group A: help, cap list, cap grant <id>, cap revoke <id>, cap seal <id>, cap audit";
  "Group B: sched info, sched timeslice, sched preempt-race";
  "Group C: fault spawn, fault cascade <n>";
  "Group D: ipc send <task_id> <message>, ipc typed <schema> <payload>, ipc stress <n>, service list, service restart <name>";
  "Group E: checkpoint, restore <id>, migrate <service> <node>";
  "Group F: history [<n>], trace <command>, perf, watch <command> <interval>";
  "Group G: kv set <slot> <key> <value>, kv get <slot> <key>, kv grant <slot> <task>, kv revoke <slot>";
  "Group H: log publish <kind> <message>, log read <kind>, log grant <kind> <task> <r|w|rw>, log revoke <kind>, log tail";
  "Group I: fs mkdir/write/read/ls/delete/stat, dev list/read/write, arch cache-sim/pipeline-sim, bench all, sync create/acquire/release/demo";
  "Group J: smp info/ping";
  "Type 'help <command> [<subcommand>]' for details on a specific command."]%string.

(** The groups whose help depends on a subcommand: the summary and the entries. *)
Definition help_groups : list (string * list (string * list string)) := [
  ("cap", [
    ("", ["cap subcommands: list, grant, revoke, seal, audit."; "Type 'help cap <subcommand>' for details."]);
    ("list", ["cap list - List all capabilities currently held by the shell task."]);
    ("grant", ["cap grant <slot_idx> - Attenuate rights of slot_idx and grant derived capability to task 66."]);
    ("revoke", ["cap revoke <slot_idx> - Revoke capability in slot_idx and deny subsequent reuse."]);
    ("seal", ["cap seal <slot_idx> - Permanently seal a capability slot, preventing its removal."]);
    ("audit", ["cap audit - Print the kernel capability grant/revoke audit log trail."])]);
  ("sched", [
    ("", ["sched subcommands: info, timeslice, preempt-race."; "Type 'help sched <subcommand>' for details."]);
    ("info", ["sched info - List all system tasks, their privilege levels (ring 0/3), and states."]);
    ("timeslice", ["sched timeslice - Run a 2-second time-slicing test with two preemptible kernel tasks."]);
    ("preempt-race", ["sched preempt-race - Demonstrate capability validate-use atomicity vs preemption TOCTOU."])]);
  ("fault", [
    ("", ["fault subcommands: spawn, cascade."; "Type 'help fault <subcommand>' for details."]);
    ("spawn", ["fault spawn - Spawn task 71 which performs an unmapped memory read (#PF)."]);
    ("cascade", ["fault cascade <n> - Spawn n faulting tasks in parallel (1-8) to test fault containment."])]);
  ("ipc", [
    ("", ["ipc subcommands: send, typed, stress."; "Type 'help ipc <subcommand>' for details."]);
    ("send", ["ipc send <task_id> <message> - Send a raw Rendezvous message to the echo task (65)."]);
    ("typed", ["ipc typed <schema> <payload> - Send a Rendezvous message with tag (0-3) and version 2."]);
    ("stress", ["ipc stress <n> - Spawn n worker pairs (1-8) ping-ponging messages for 3 seconds."])]);
  ("service", [
    ("", ["service subcommands: list, restart."; "Type 'help service <subcommand>' for details."]);
    ("list", ["service list - List all standing ecosystem service tasks and message queue states."]);
    ("restart", ["service restart <name> - Restart the named service (v1: echo)."])])]%string.

Definition help_commands : list (string * list string) := [
  ("help", ["help [<command> [<subcommand>]] - Display help information for commands."]);
  ("checkpoint", ["checkpoint - Capture an in-memory snapshot of all active task capability states."]);
  ("restore", ["restore <id> - Restore task states from in-memory snapshot slot (v1: 0)."]);
  ("migrate", ["migrate <service> <node> - Demonstrate network-transparent IPC, migration, and replica failover."]);
  ("history", ["history [<n>] - Show command history or re-run command at index n."]);
  ("trace", ["trace <command> - Run command with kernel path instrumentation and print call trace."]);
  ("perf", ["perf - Print live kernel performance and health statistics."]);
  ("watch", ["watch <command> <interval> - Re-run command every N ticks and diff the output."]);
  ("kv", [
    "kv set <slot> <key> <value> - Write to KV slot using write capability.";
    "kv get <slot> <key> - Read from KV slot using read capability.";
    "kv grant <slot> <task> - Transfer read-only KV capability to task.";
    "kv revoke <slot> - Revoke shell's capability for KV slot."]);
  ("log", [
    "log publish <kind> <message> - Publish an event to the log service.";
    "log read <kind> - Read next unread event of given kind from log service.";
    "log grant <kind> <task> <r|w|rw> - Transfer derived log channel capability to task.";
    "log revoke <kind> - Revoke shell's capability for event log kind.";
    "log tail - Continuously read and display all readable kinds every tick."]);
  ("fs", [
    "fs mkdir <path> - Create a new directory.";
    "fs write <path> <text> - Create or write data to a file.";
    "fs read <path> - Read data from a file.";
    "fs ls <path> - List contents of a directory.";
    "fs delete <path> - Delete a file or directory.";
    "fs stat <path> - Display metadata for a path."]);
  ("dev", [
    "dev list - List all available hardware devices.";
    "dev read <id> - Read from a device.";
    "dev write <id> <text> - Write text to a device."]);
  ("arch", [
    "arch cache-sim <trace> <assoc> <lines> - Simulate set-associative LRU cache.";
    "arch pipeline-sim <trace> - Simulate 5-stage in-order pipeline with hazard stalls."]);
  ("bench", ["bench <ipc|sched|cap|fs|all> - Run performance benchmarks."]);
  ("smp", [
    "smp info - Print information about active CPU cores.";
    "smp ping - Send an IPI ping to secondary AP core and check acknowledgment."]);
  ("sync", [
    "sync create <id> <mutex|sem> <count> - Create a new mutex or semaphore.";
    "sync acquire <id> - Acquire a lock or decrement semaphore permit.";
    "sync release <id> - Release a lock or increment semaphore permit.";
    "sync demo - Run a preemption race condition demo with guarded and unguarded counters."])]%string.

Definition help_command (tok1 tok2 : list N) : Reply :=
  if lenN tok1 =? 0 then said (info_lines help_overview)
  else
    match lookup_tok tok1 help_groups with
    | Some (group, subs) =>
        match lookup_tok tok2 subs with
        | Some (_, lines) => said (info_lines lines)
        | None => said [print_fail ("unknown " ++ group ++ " subcommand: {}") [Str (from_utf8_or_empty tok2)]]
        end
    | None =>
        match lookup_tok tok1 help_commands with
        | Some (_, lines) => said (info_lines lines)
        | None => said [print_fail "unknown command group: {}" [Str (from_utf8_or_empty tok1)]]
        end
    end.

(** ** Capabilities *)

(** The line of [cap list] for the capability in slot [i]. *)
Definition cap_line (i : N) (cap : Capability) : Report :=
  let head := [Num i; Num (cap_id cap)] in
  let own := [Flag (cap_read cap); Flag (cap_write cap)] in
  let tail := [Flag (cap_grant cap); Flag (cap_sealed cap); Origin (cap_origin cap)] in
  match cap_resource cap with
  | Serial => print_ok "slot {}: id={} Serial r={} w={} g={} sealed={} origin={:?}" (head ++ own ++ tail)
  | IpcChannel target =>
      print_ok "slot {}: id={} IpcChannel(task {}) r={} w={} g={} sealed={} origin={:?}" (head ++ [Num target] ++ own ++ tail)
  | Service id => print_ok "slot {}: id={} Service(#{}) r={} w={} g={} sealed={} origin={:?}" (head ++ [Num id] ++ own ++ tail)
  | MemoryMapping _ _ _ => print_ok "slot {}: id={} Memory r={} w={} g={} sealed={} origin={:?}" (head ++ own ++ tail)
  | KVEntry slot readable writable =>
      print_ok "slot {}: id={} KVEntry(slot {}) r={} w={} g={} sealed={} origin={:?}" (head ++ [Num slot; Flag readable; Flag writable] ++ tail)
  | LogChannel kind readable writable =>
      print_ok "slot {}: id={} LogChannel(kind {}) r={} w={} g={} sealed={} origin={:?}" (head ++ [Num kind; Flag readable; Flag writable] ++ tail)
  | FsNode mount readable writable =>
      print_ok "slot {}: id={} FsNode(mount {}) r={} w={} g={} sealed={} origin={:?}" (head ++ [Num mount; Flag readable; Flag writable] ++ tail)
  | Device id readable writable =>
      print_ok "slot {}: id={} Device(id {}) r={} w={} g={} sealed={} origin={:?}" (head ++ [Num id; Flag readable; Flag writable] ++ tail)
  | SyncObj id => print_ok "slot {}: id={} SyncObj(id {}) g={} sealed={} origin={:?}" (head ++ [Num id] ++ tail)
  end.

(** The lines for the slots from [i] on. *)
Fixpoint cap_lines (i : N) (l : list (option Capability)) : list Report :=
  match l with
  | [] => []
  | Some cap :: l' => cap_line i cap :: cap_lines (i + 1) l'
  | None :: l' => cap_lines (i + 1) l'
  end.

Definition cap_list_command : K Reply :=
  let* slots := get_shell_caps in
  let lines := cap_lines 0 slots in
  kret (said (lines ++ [print_info "no ambient authority: {} capabilities, nothing else reachable" [Num (lenN lines)]])).

(** The derived [Debug] of [Resource] and [AuditKind]. *)
Definition debug_field (name : string) (v : Arg) : list N := as_bytes (name ++ ": ") ++ arg_text [] v.
Definition braces (name : string) (fields : list (list N)) : list N :=
  as_bytes (name ++ " { ") ++ mjoin (imap (fun i f => (if decide (i = 0%nat) then [] else as_bytes ", ") ++ f) fields) ++ as_bytes " }".

Definition resource_debug (r : Resource) : list N :=
  match r with
  | Serial => as_bytes "Serial"
  | IpcChannel t => braces "IpcChannel" [as_bytes "target_task: TaskId(" ++ decimal t ++ as_bytes ")"]
  | MemoryMapping start size writeable =>
      braces "MemoryMapping" [debug_field "start_vaddr" (Num start); debug_field "size" (Num size); debug_field "writeable" (Flag writeable)]
  | Service id => braces "Service" [debug_field "id" (Num id)]
  | KVEntry slot r w => braces "KVEntry" [debug_field "slot" (Num slot); debug_field "readable" (Flag r); debug_field "writable" (Flag w)]
  | LogChannel kind r w => braces "LogChannel" [debug_field "kind" (Num kind); debug_field "readable" (Flag r); debug_field "writable" (Flag w)]
  | FsNode mount r w => braces "FsNode" [debug_field "mount" (Num mount); debug_field "readable" (Flag r); debug_field "writable" (Flag w)]
  | Device id r w => braces "Device" [debug_field "id" (Num id); debug_field "readable" (Flag r); debug_field "writable" (Flag w)]
  | SyncObj id => braces "SyncObj" [debug_field "id" (Num id)]
  end.

Definition kind_debug (kd : AuditKind) : list N :=
  as_bytes match kd with Grant => "Grant" | Revoke => "Revoke" | RevokePropagated => "RevokePropagated" end.

(** The line of [audit::dump] for entry [i]. *)
Definition audit_line (e : N * AuditEvent) : Report :=
  let '(i, ev) := e in
  let place := [Num (ev_target ev); Num (ev_slot ev); Str (resource_debug (ev_resource ev))] in
  if ev_actor ev =? KERNEL_ACTOR then
    println "  #{:<3} {:?}: actor=kernel target=task{} slot={} resource={:?}" ([Num i; Str (kind_debug (ev_kind ev))] ++ place)
  else
    println "  #{:<3} {:?}: actor=task{} target=task{} slot={} resource={:?}"
      ([Num i; Str (kind_debug (ev_kind ev)); Num (ev_actor ev)] ++ place).

(** [audit::dump] and the line after it. *)
Definition cap_audit_command : K Reply :=
  fun k =>
    let! d := audit_dump (k_audit k) in
    Ret (said (println "[audit] capability trail: {} event(s) recorded, {} dropped (ring capacity {})."
                 [Num (ad_total d); Num (ad_dropped d); Num AUDIT_CAPACITY] ::
               (audit_line <$> ad_lines d) ++ [print_info "audit trail above" []]), k).

(** ** Tasks and services *)

Definition state_str (st : TaskState) : string :=
  match st with
  | Running => "run" | Ready => "ready" | BlockedOnReceive => "recv" | BlockedOnSend _ => "send" | Terminated => "term"
  end.

(** The [TaskInfo] of a task, printed. *)
Definition task_line (pml4 : N) (t : Task) : Report :=
  let ring := if negb (t_cr3 t =? pml4) then 3 else 0 in
  print_ok "task {}: ring{} {}" [Num (t_id t); Num ring; Str (as_bytes (state_str (t_state t)))].

Definition sched_info_command : K Reply :=
  do* lock_sched in
  let* pml4 := kget (fun k => current_pml4_paddr (k_cpu k)) in
  let* tasks := kget (fun k => s_tasks (k_sched k)) in
  let* ticks := ticks_now in
  let* armed := kget (fun k => is_armed (am_preempt (k_amb k))) in
  do* unlock_sched in
  kret (said ((task_line pml4 <$> omap (fun o => o) tasks) ++ [print_info "ticks={} armed={}" [Num ticks; Flag armed]])).

Definition service_targets : list (N * string) := [(1, "init"); (2, "logger"); (3, "ramfs"); (4, "demo"); (65, "echo")]%string.

Definition service_line (s : Scheduler) (e : N * string) : list Report :=
  match get_task s e.1 with
  | Some task =>
      [print_ok "service {} (task {}): {}, caps={}, queue={}"
         [Str (as_bytes e.2); Num e.1; Str (as_bytes (state_str (t_state task)));
          Num (lenN (List.filter is_some (slots (t_cap_table task)))); Num (mq_count (t_msg_queue task))]]
  | None => []
  end.

Definition service_list_command : K Reply :=
  do* lock_sched in
  let* s := kget k_sched in
  do* unlock_sched in
  let found := concat (service_line s <$> service_targets) in
  kret (said (if lenN found =? 0 then [print_info "no standing services; spawn via ipc/echo" []] else found)).

Definition perf_command : K Reply :=
  let* st := kget (fun k => stats (am_preempt (k_amb k))) in
  let* k := kget (fun k => k) in
  kret (said [
    print_ok "Kernel Performance & Health Stats:" [];
    print_info "  Ticks elapsed:       {}" [Num (st_ticks st)];
    print_info "  Preemptions:         {}" [Num (st_preemptions st)];
    print_info "  Deferred preempts:   {}" [Num (st_deferred st)];
    print_info "  IPC messages:        {}" [Num (k_ipc_deliveries k)];
    print_info "  Faults caught:       {}" [Num (k_faults_caught k)];
    print_info "  Tasks spawned:       {}" [Num (k_tasks_spawned k)];
    print_info "  Tasks terminated:    {}" [Num (k_tasks_terminated k)]]).

(** ** Devices *)

Definition access_str (readable writable : bool) : string :=
  if readable && writable then "rw" else if readable then "r" else if writable then "w" else "none".

(** [has_serial] and [has_kbd] after a slot. *)
Definition device_access (acc : string * string) (o : option Capability) : string * string :=
  match o with
  | Some cap =>
      match cap_resource cap with
      | Device id readable writable =>
          if id =? 0 then (access_str readable writable, acc.2)
          else if id =? 1 then (acc.1, access_str readable writable) else acc
      | _ => acc
      end
  | None => acc
  end.

Definition dev_list_command : K Reply :=
  let* slots := get_shell_caps in
  let '(has_serial, has_kbd) := foldl device_access ("no", "no")%string slots in
  kret (said [print_ok "Devices:" []; print_info "  0: serial (caps: {})" [Str (as_bytes has_serial)];
              print_info "  1: keyboard (caps: {})" [Str (as_bytes has_kbd)]]).

(** ** The simulators *)

Definition the_trace : K TraceRing := kget (fun k => am_trace (k_amb k)).

Definition USAGE_CACHE : Report := print_fail "Usage: arch cache-sim <trace> <assoc> <lines>" [].

Definition cache_report (stats : CacheStats) : outcome (list Report) :=
  let! hit_rate := if 0 <? cs_accesses stats then let! h := mul64 (cs_hits stats) 100 in div64 h (cs_accesses stats) else Ret 0 in
  Ret [print_ok "Cache Sim Results:" [];
       print_info "  Accesses:    {}" [Num (cs_accesses stats)];
       print_info "  Hits:        {}" [Num (cs_hits stats)];
       print_info "  Misses:      {}" [Num (cs_misses stats)];
       print_info "  Evictions:   {}" [Num (cs_evictions stats)];
       print_info "  Hit Rate:    {}%" [Num hit_rate]].

Definition cache_sim_command (tok2 tok3 : list N) : K Reply :=
  if (lenN tok2 =? 0) || (lenN tok3 =? 0) then kret (said [USAGE_CACHE])
  else
    let* o := klift (split_word tok3) in
    match o with
    | None => kret (said [USAGE_CACHE])
    | Some (assoc_tok, lines_tok) =>
        match parse_usize assoc_tok with
        | Err _ => kret (bad_number assoc_tok)
        | Ok assoc =>
            match parse_usize lines_tok with
            | Err _ => kret (bad_number lines_tok)
            | Ok lines =>
                if 1024 <? lines then kret (said [print_fail "too many lines, maximum is 1024" []])
                else
                  let* tr := the_trace in
                  let* addrs := klift (get_sim_addresses tr tok2) in
                  let* stats := klift (simulate_cache (mkCacheConfig assoc lines 64) addrs) in
                  let* reports := klift (cache_report stats) in
                  kret (said reports)
            end
        end
    end.

Definition pipeline_report (stats : PipeStats) : outcome (list Report) :=
  let! cpi_hundreds := if 0 <? ps_instrs stats then let! c := mul64 (ps_cycles stats) 100 in div64 c (ps_instrs stats) else Ret 100 in
  Ret [print_ok "Pipeline Sim Results:" [];
       print_info "  Instructions: {}" [Num (ps_instrs stats)];
       print_info "  Cycles:       {}" [Num (ps_cycles stats)];
       print_info "  Stalls:       {}" [Num (ps_stalls stats)];
       print_info "  CPI:          {}.{:02}" [Num (cpi_hundreds / 100); Num (cpi_hundreds mod 100)]].

(** 261 rounds are enough for the 128 instructions of a trace. *)
Definition pipeline_sim_command (tok2 : list N) : K Reply :=
  if lenN tok2 =? 0 then kret (said [print_fail "Usage: arch pipeline-sim <trace>" []])
  else
    let* tr := the_trace in
    let* instrs := klift (get_sim_instrs tr tok2) in
    let* stats := klift (simulate_pipeline 261 instrs) in
    let* reports := klift (pipeline_report stats) in
    kret (said reports).

(** ** Processors *)

(** The multiprocessor response of the bootloader. *)
Record Processor : Type := mkProcessor { mp_processor_id : N; mp_lapic_id : N }.
Record MpResponse : Type := mkMpResponse { mp_bsp_lapic_id : N; mp_cpus : list Processor }.

Definition smp_info (resp : option MpResponse) : Reply :=
  match resp with
  | Some r =>
      said ([print_ok "Symmetric Multiprocessing (SMP) Info:" [];
             print_info "  BSP LAPIC ID: {}" [Num (mp_bsp_lapic_id r)];
             print_info "  Total CPUs detected: {}" [Num (lenN (mp_cpus r))]] ++
            ((fun cpu => print_info "  - CPU {}: LAPIC ID {}, {}"
               [Num (mp_processor_id cpu); Num (mp_lapic_id cpu);
                Str (as_bytes (if mp_lapic_id cpu =? mp_bsp_lapic_id r then "BSP (Bootstrap)" else "AP (Application)"))]) <$> mp_cpus r))
  | None => said [print_fail "No multiprocessor response from bootloader." []]
  end.

(** ** What the listings show *)

(** [cap list] names every capability the console holds, with its slot. *)
Lemma cap_lines_exact l : forall i,
  cap_lines i l = omap (fun '(j, o) => cap_line j <$> o) (imap (fun n (o : option Capability) => (i + N.of_nat n, o)) l).
Proof.
  induction l as [|o l IH]; intros i; [done|]. cbn [imap omap list_omap cap_lines]. rewrite N.add_0_r.
  rewrite (imap_ext _ (fun n (o : option Capability) => (i + 1 + N.of_nat n, o))) by (intros; simpl; f_equal; lia).
  rewrite <- IH. by destruct o.
Qed.

Lemma lru_stats_bounds assoc line_bytes num_sets addrs :
  let st := lru_stats assoc line_bytes num_sets addrs in cs_accesses st = lenN addrs /\ cs_hits st <= lenN addrs.
Proof.
  unfold lru_stats. assert (forall s, cs_hits s.2 <= cs_accesses s.2 ->
    let s' := foldl (lru_step assoc line_bytes num_sets) s addrs in
    cs_accesses s'.2 = cs_accesses s.2 + lenN addrs /\ cs_hits s'.2 <= cs_accesses s'.2) as H.
  { induction addrs as [|a addrs IH]; intros [sets st] Hs; [simpl in *; unfold lenN; simpl; split; lia|]. cbn [foldl].
    destruct (IH (lru_step assoc line_bytes num_sets (sets, st) a)) as [Ha Hh].
    { unfold lru_step. destruct (lru_access _ _ _) as [[h e] l]. simpl in *. unfold bump. case_match; lia. }
    split; [|done]. rewrite Ha, lenN_cons. unfold lru_step. destruct (lru_access _ _ _) as [[h e] l]. simpl. lia. }
  destruct (H (∅, CacheStats_zero)) as [Ha Hh]; [done|]. simpl in Ha. split; [done|]. simpl in Hh. by rewrite Ha in Hh.
Qed.

Lemma cache_report_ok st : cs_hits st * 100 < u64_limit -> exists r, cache_report st = Ret r.
Proof.
  intros H. unfold cache_report, mul64, div64. rewrite (proj2 (N.ltb_lt _ _) H). destruct (0 <? cs_accesses st) eqn:Ha; [|by eexists].
  bool_to_prop. cbn [obind]. rewrite (proj2 (N.eqb_neq _ _)) by lia. by eexists.
Qed.

Section listings.
Context (k : Kernel) (t : Task).
Context (Hk : kernel_wf k) (Ht : task_slot (k_sched k) SHELL = Some t) (Htr : lenN (tr_buffer (am_trace (k_amb k))) = TRACE_BUFFER_SIZE).

(** The simulation is run, and its addresses cannot be made. *)
Definition cache_overflows (tr : TraceRing) (tok2 tok3 : list N) : bool :=
  negb ((lenN tok2 =? 0) || (lenN tok3 =? 0)) &&
  match split_word tok3 with
  | Ret (Some (assoc_tok, lines_tok)) =>
      match parse_usize assoc_tok, parse_usize lines_tok with
      | Ok _, Ok lines => negb (1024 <? lines) && sim_overflows tr tok2
      | _, _ => false
      end
  | _ => false
  end.

Lemma cache_sim_exact tok2 tok3 :
  lenN tok3 < u64_limit ->
  if cache_overflows (am_trace (k_amb k)) tok2 tok3 then cache_sim_command tok2 tok3 k = Panic
  else exists r, cache_sim_command tok2 tok3 k = Ret (r, k).
Proof.
  intros Hlen. unfold cache_overflows, cache_sim_command. destruct ((_ =? 0) || _); [by eexists|]. cbn [negb andb]. unfold kbind, klift.
  destruct (split_word_spec tok3 Hlen) as [o ->]. cbn [obind]. destruct o as [[assoc_tok lines_tok]|]; [|by eexists].
  destruct (parse_usize assoc_tok) as [assoc|]; [|by eexists]. destruct (parse_usize lines_tok) as [lines|]; [|by eexists].
  destruct (1024 <? lines) eqn:Hlines; [by eexists|]. bool_to_prop. cbn [negb andb]. unfold the_trace, kget. cbn [obind].
  pose proof (get_sim_addresses_exact _ tok2 Htr) as Hsim. destruct (sim_overflows _ tok2); [by rewrite Hsim|].
  destruct Hsim as (addrs & -> & Hal). cbn [obind].
  rewrite cache_lru_spec by (cbn; unfold lenN; rewrite ?Hal; done). cbn [obind cfg_assoc cfg_num_lines cfg_line_bytes].
  assert (forall st, cs_hits st <= 128 -> exists r, (let! a := (let! a := cache_report st in Ret (a, k)) in let '(r, k') := a in kret (said r) k') = Ret (r, k)) as Hrep.
  { intros st Hst. destruct (cache_report_ok st) as [r ->]; [unfold u64_limit; lia|]. by eexists. }
  apply Hrep. case_match; [simpl; lia|]. destruct (lru_stats_bounds assoc 64 (lines / assoc) addrs) as [_ Hh].
  unfold lenN in Hh. rewrite Hal in Hh. done.
Qed.

Lemma pipeline_sim_looks tok2 : exists r, pipeline_sim_command tok2 k = Ret (r, k).
Proof.
  unfold pipeline_sim_command. case_match; [by eexists|]. unfold kbind, klift, the_trace, kget. cbn [obind].
  destruct (get_sim_instrs_ok _ tok2 Htr) as (l & -> & Hl). cbn [obind].
  rewrite pipeline_spec by (unfold lenN, u64_limit; rewrite Hl; lia). cbn [obind]. pose proof (hazards_le None l) as Hh.
  rewrite (proj2 (N.eqb_neq (lenN l) 0)) by (unfold lenN; rewrite Hl; done). unfold pipeline_report. cbn [ps_instrs ps_cycles ps_stalls].
  rewrite (proj2 (N.ltb_lt 0 (lenN l))) by (unfold lenN; rewrite Hl; done). unfold mul64, div64.
  rewrite (proj2 (N.ltb_lt ((lenN l + 4 + hazards None l) * 100) u64_limit)) by (unfold lenN, u64_limit in *; rewrite Hl in *; lia).
  cbn [obind]. rewrite (proj2 (N.eqb_neq (lenN l) 0)) by (unfold lenN; rewrite Hl; done). by eexists.
Qed.

(** The arms that list. *)
Definition listings (tok2 : list N) : list (K Reply) :=
  [cap_list_command; cap_audit_command; sched_info_command; service_list_command; perf_command; dev_list_command; pipeline_sim_command tok2].

Lemma listings_only_look tok2 c : c ∈ listings tok2 -> exists reply, c k = Ret (reply, k).
Proof.
  intros Hc. pose proof (get_shell_caps_run k t Hk Ht) as Hcaps. pose proof (kw_unlocked _ Hk) as Hl.
  assert (set_k_sched_locked false (set_k_sched_locked true k) = k) as Hlock by (destruct k; simpl in *; by subst).
  unfold listings in Hc. rewrite !elem_of_cons, elem_of_nil in Hc. destruct Hc as [->|[->|[->|[->|[->|[->|[->|[]]]]]]]].
  - unfold cap_list_command, kbind. rewrite Hcaps. cbn [obind]. by eexists.
  - destruct (kw_audit _ Hk) as [h Hh]. unfold cap_audit_command. rewrite (audit_dump_repr _ h Hh). by eexists.
  - unfold sched_info_command, ticks_now, kbind, lock_sched, unlock_sched, kget, kmod. rewrite Hl. cbn [obind]. eexists. unfold kret. by rewrite Hlock.
  - unfold service_list_command, kbind, lock_sched, unlock_sched, kget, kmod. rewrite Hl. cbn [obind]. eexists. unfold kret. by rewrite Hlock.
  - by eexists.
  - unfold dev_list_command, kbind. rewrite Hcaps. cbn [obind]. destruct (foldl _ _ _) as [a b]. by eexists.
  - apply pipeline_sim_looks.
Qed.
End listings.
