(* ===== verification/Demos.v ===== *)
(** * Demonstrations and measurements of the console

    The arms of [dispatch] in [kernel/shell/mod.rs] that start tasks and watch
    them: time slicing, the validate-and-use race, the never-yielding user task,
    migration, the benchmarks, the inter-processor ping, [log tail] and [watch],
    with the tasks they start.  Where a command polls a device, the successive
    results are an argument. *)

From S2P Require Import Prelude Ring Text Preempt Trace Capability AuditTrail Message Machine Frames.
From S2P Require Import Task Scheduler Kernel Switch Scheduling Spawn Contexts Timer Toctou Ipc Rendezvous Messaging.
From S2P Require Import Authority Propagation Delegation Paging AddressSpace UserMemory Userspace Syscall Snapshot Dist.
From S2P Require Import Service KvService LogService FsService SyncService Keyboard CacheSim Serial Console CommandLine DevService Clients Apic Boot.
From S2P Require Import Reports Commands Grants Listings.
Local Open Scope N_scope.

Section demos.
Context `{L : Layout}.

(** ** Waiting for tasks *)

(** [sched.tasks[i]] holds a task that has not terminated. *)
Definition is_active (s : Scheduler) (i : TaskId) : bool :=
  match task_slot s i with Some t => negb (state_is Terminated t) | None => false end.

Definition peek_sched {A} (f : Scheduler -> A) : K A :=
  do* lock_sched in
  let* s := kget k_sched in
  do* unlock_sched in
  kret (f s).

(** [loop { if none of [ids] is active { break; } yield_cpu(); }]. *)
Fixpoint await_tasks (fuel : nat) (ids : list TaskId) : R unit :=
  match fuel with
  | O => fun _ => OutOfFuel
  | S fuel' =>
      let+ active := rlift (peek_sched (fun s => existsb (is_active s) ids)) in
      if active : bool then let+ _ := yield_cpu in await_tasks fuel' ids else rret tt
  end.

Definition atomic_store (a v : N) : K unit := kmod (fun k => set_mem (mem_wr (k_mem k) a v) k).
Definition arm (b : bool) : K unit := kmod (on_preempt (set_armed b)).
Definition read_stats : K Stats := kget (fun k => stats (am_preempt (k_amb k))).

(** ** Time slicing *)

(** The addresses of [COUNTER_A] and [COUNTER_B], and the entries of the tasks. *)
Variables counter_a counter_b timeslice_entry_a timeslice_entry_b park_entry : N.

(** The loop of a counting task over its turns: it ends [budget] ticks after [start]. *)
Fixpoint count_loop (turns : list Turn) (budget counter start : N) : K unit :=
  let* _ := fetch_add counter 1 in
  let* t := ticks_now in
  if budget <=? wsub64 t start then kret tt
  else
    match turns with
    | [] => fun _ => OutOfFuel
    | ev :: turns' => do* turn ev in count_loop turns' budget counter start
    end.

Definition timeslice_task (counter : N) (turns : list Turn) : K bool :=
  do* kmod (on_machine (on_cpu sti)) in
  let* start := ticks_now in
  do* count_loop turns 200 counter start in
  terminate_current_task.

Fixpoint timeslice_wait (fuel : nat) (start_tick : N) : R unit :=
  match fuel with
  | O => fun _ => OutOfFuel
  | S fuel' =>
      let+ finished := rlift (peek_sched (fun s => slot_gone s 67 && slot_gone s 68)) in
      if finished : bool then rret tt
      else
        let+ t := rlift ticks_now in
        if 400 <=? wsub64 t start_tick then rret tt else let+ _ := yield_cpu in timeslice_wait fuel' start_tick
  end.

Definition timeslice_command (fuel : nat) : R Reply :=
  let+ _ := rlift (
    do* atomic_store counter_a 0 in
    do* atomic_store counter_b 0 in
    do* lock_sched in
    do* place_task 67 timeslice_entry_a CapTable_new in
    do* place_task 68 timeslice_entry_b CapTable_new in
    unlock_sched) in
  let+ start_tick := rlift ticks_now in
  let+ _ := rlift (arm true) in
  let+ _ := timeslice_wait fuel start_tick in
  let+ _ := rlift (arm false) in
  let+ a := rlift (atomic_load counter_a) in
  let+ b := rlift (atomic_load counter_b) in
  let+ st := rlift read_stats in
  let counts := [Num a; Num b; Num (st_preemptions st)] in
  rret (said [if (0 <? a) && (0 <? b) then print_pass "time-sliced: A={} B={} preemptions={}; cooperative could not run B" counts
              else print_fail "timeslice test failed: A={}, B={}, preemptions={}" counts]).

(** ** The race *)

(** A fresh task 69 with one channel; the identity of the channel. *)
Definition race_victim : K N :=
  let* t := Task_new 69 park_entry CapTable_new in
  let* ct := unwrap_caps (minted (IpcChannel 70) true true false) in
  let* o := klift (arr_get (slots ct) 0) in
  let* id := klift match o with Some cap => Ret (cap_id cap) | None => Panic end in
  do* lock_sched in
  do* kmod (on_sched (put_slot 69 (Some (set_t_cap_table ct t)))) in
  do* unlock_sched in
  kret id.

(** The wait for a tick in the window, at most 100 ticks long. *)
Fixpoint await_window (turns : list Turn) (start_ticks : N) : K unit :=
  let* st := read_stats in
  if st_window_ticks st <? 1 then
    if 100 <=? wsub64 (st_ticks st) start_ticks then kret tt
    else
      match turns with
      | [] => fun _ => OutOfFuel
      | ev :: turns' => do* turn ev in await_window turns' start_ticks
      end
  else kret tt.

Definition cap_at_use : K (option Capability) :=
  peek_sched (fun s => match task_slot s 69 with Some t => cap_at (t_cap_table t) 0 | None => None end).

(** Both stages: open the window, wait, close it. *)
Definition race_window (turns : Kernel -> list Turn) : K unit :=
  do* kmod (on_preempt enter_ipc_window) in
  let* start_ticks := ticks_now in
  let* evs := kget turns in
  do* await_window evs start_ticks in
  kmod (on_preempt exit_ipc_window).

Definition preempt_race_command (turns : Kernel -> list Turn) : K Reply :=
  let* id := race_victim in
  do* arm true in
  do* kmod (on_preempt (arm_adversary 69 0)) in
  do* kmod (on_preempt reset_window_ticks) in
  do* race_window turns in
  let* at_use := cap_at_use in
  let* fired := kget (fun k => adversary_fired_in_window (am_preempt (k_amb k))) in
  let first := if is_none at_use && fired then print_vuln "validated id={}; revoker ran mid-window; cap GONE at use" [Num id]
               else print_fail "vulnerable stage of race did not trigger" [] in
  let* _ := race_victim in
  do* kmod (on_preempt (arm_adversary 69 0)) in
  do* kmod (on_preempt reset_window_ticks) in
  do* kmod (on_preempt enter_critical) in
  do* race_window turns in
  do* kmod (on_preempt exit_critical) in
  let* at_use2 := cap_at_use in
  let* fired2 := kget (fun k => adversary_fired_in_window (am_preempt (k_amb k))) in
  let second := if is_some at_use2 && negb fired2 then print_pass "non-preemptible region: tick landed but revoker deferred; cap intact" []
                else print_fail "guarded stage of race failed" [] in
  do* kmod (on_preempt disarm_adversary) in
  do* arm false in
  kret (said [first; second]).

(** ** The never-yielding user task *)

Definition preempt_user_command `{B : Blobs} (fuel : nat) : R Reply :=
  let+ originally_armed := rlift (kget (fun k => is_armed (am_preempt (k_amb k)))) in
  let+ st := rlift read_stats in
  let+ _ := rlift (
    do* lock_sched in
    let* t := spawn_preempt_user_task 72 CapTable_new in
    do* kmod (on_sched (put_slot 72 (Some t))) in
    unlock_sched) in
  let+ _ := rlift (arm true) in
  let+ _ := yield_for fuel (st_ticks st) 50 in
  let+ _ := rlift (arm originally_armed) in
  let+ _ := rlift (
    do* lock_sched in
    do* kmod (on_sched (put_slot 72 None)) in
    do* bump_tasks_terminated in
    unlock_sched) in
  let+ st' := rlift read_stats in
  let diff := wsub64 (st_preemptions st') (st_preemptions st) in
  rret (said [print_info "preemption armed. running never-yielding user task..." [];
              print_ok "preemption-user demo complete." []; print_info "  preemptions observed: {}" [Num diff]]).

(** ** Migration *)

(** The output of [dist::demo] itself is not modelled. *)
Definition migrate_command (tok1 tok2 : list N) (d : Dist) : K (Reply * Dist) :=
  match parse_usize tok1 with
  | Err _ => kret (bad_number tok1, d)
  | Ok service_id =>
      match parse_usize tok2 with
      | Err _ => kret (bad_number tok2, d)
      | Ok node_id =>
          if negb (service_id =? 1) || negb (node_id =? 1) then kret (said [print_fail "v1 supports: migrate 1 1" []], d)
          else
            do* lock_sched in
            let* caps := kcaps_new [minted Serial false true false; minted (Capability.Service 1) true true false] in
            do* place_task 75 park_entry caps in
            do* place_task 76 park_entry CapTable_new in
            do* unlock_sched in
            let* (_, d) := dist_demo 1 75 76 d in
            kret (said [print_pass "service 1 migrated node0->node1, capability stable" []], d)
      end
  end.

(** ** Benchmarks *)

Variables echo_main fs_main sync_main bench_sched_entry bench_contend_entry : N.

(** [let _ = f();], [n] times. *)
Fixpoint repeat_r {A} (n : nat) (f : R A) : R unit :=
  match n with O => rret tt | S n' => let+ _ := f in repeat_r n' f end.

(** The ticks since [start], at least one. *)
Definition elapsed_ticks (start : N) : K N :=
  let* t := ticks_now in
  let elapsed := wsub64 t start in
  kret (if elapsed =? 0 then 1 else elapsed).

(** A send and a receive whose results are ignored. *)
Definition exchange (fuel : nat) (cap_idx : N) (tag : IpcTag) (payload : list N) : R unit :=
  let+ _ := sys_send_typed fuel cap_idx (IpcTag_as_u16 tag) 1 payload in
  let+ _ := sys_receive_typed fuel in
  rret tt.

Definition run_bench_ipc (fuel : nat) : R (list Report) :=
  let+ _ := rlift (ensure_echo_service echo_main) in
  let+ o := rlift (shell_channel 65) in
  match o with
  | None => rret [print_fail "no cap to echo service" []]
  | Some cap_idx =>
      let iters := 1000 in
      let+ start_ticks := rlift ticks_now in
      let+ _ := repeat_r (N.to_nat iters) (exchange fuel cap_idx Raw (replicate 16 0x55)) in
      let+ elapsed := rlift (elapsed_ticks start_ticks) in
      rret [print_ok "Benchmark IPC Latency:" [];
            print_info "  Roundtrips:         {}" [Num iters];
            print_info "  Elapsed ticks:      {}" [Num elapsed];
            print_info "  Roundtrips/sec:     {}" [Num (iters * 100 / elapsed)]]
  end.

(** The task of the scheduler benchmark; [counter] is [BENCH_SCHED_COUNTER]. *)
Definition bench_sched_task_entry (counter : N) : K bool :=
  let* _ := fetch_add counter 1 in
  terminate_current_task.

(** Tasks [base .. base + n] with the same entry and capabilities, each counted. *)
Definition place_workers (base : TaskId) (n : N) (entry : N) (caps : CapTable) : K unit :=
  do* lock_sched in
  do* kfor (rangeN 0 (N.to_nat n)) (fun i _ => do* place_task (base + i) entry caps in bump_tasks_spawned) tt in
  unlock_sched.

Definition run_bench_sched (fuel : nat) (counter : N) : R (list Report) :=
  let+ start_ticks := rlift ticks_now in
  let+ _ := rlift (atomic_store counter 0) in
  let k := 20 in
  let+ _ := rlift (place_workers 110 k bench_sched_entry CapTable_new) in
  let+ _ := await_tasks fuel (rangeN 110 (N.to_nat k)) in
  let+ elapsed := rlift (elapsed_ticks start_ticks) in
  rret [print_ok "Benchmark Scheduler Throughput:" [];
        print_info "  Spawned tasks:      {}" [Num k];
        print_info "  Elapsed ticks:      {}" [Num elapsed];
        print_info "  Switches/sec:       {}" [Num (k * 100 / elapsed)]].

Definition set_tracing (b : bool) : K unit := kmod (on_amb (fun a => set_am_trace (set_tr_active b (am_trace a)) a)).

Definition run_bench_cap : K (list Report) :=
  do* ensure_fs_service fs_main in
  let* initial_tracing := kget (fun k => tr_active (am_trace (k_amb k))) in
  do* set_tracing false in
  let iters := 10000 in
  let* start_ticks := ticks_now in
  do* lock_sched in
  let* o := kget_task SHELL in
  let* task := klift match o with Some t => Ret t | None => Panic end in
  do* kfor (rangeN 0 (N.to_nat iters)) (fun _ _ => let* _ := kcap_get task 0 in kret tt) tt in
  do* unlock_sched in
  do* set_tracing initial_tracing in
  let* elapsed := elapsed_ticks start_ticks in
  kret [print_ok "Benchmark Capability Lookup:" [];
        print_info "  Iterations:         {}" [Num iters];
        print_info "  Elapsed ticks:      {}" [Num elapsed];
        print_info "  Lookups/sec:        {}" [Num (iters * 100 / elapsed)]].

Definition run_bench_fs (fuel : nat) : R (list Report) :=
  let+ _ := rlift (ensure_fs_service fs_main) in
  let iters := 500 in
  let path := as_bytes "/bench_temp" in
  let data := as_bytes "some data to write to fs during benchmarking" in
  let+ start_ticks := rlift ticks_now in
  let+ _ := repeat_r (N.to_nat iters) (
    let+ _ := send_fs_msg fuel fs_main 1 0 path data in
    send_fs_msg fuel fs_main 2 0 path []) in
  let+ elapsed := rlift (elapsed_ticks start_ticks) in
  rret [print_ok "Benchmark Filesystem Throughput:" [];
        print_info "  Iterations (W+R):   {}" [Num iters];
        print_info "  Elapsed ticks:      {}" [Num elapsed];
        print_info "  Ops/sec:            {}" [Num (iters * 2 * 100 / elapsed)]].

Definition BENCH_CONTEND_ITERS : N := 600.

(** The body of a contending task; [obj] is [BENCH_CONTEND_OBJ]. *)
Definition bench_contend_task (fuel : nat) (obj : N) : R bool :=
  let+ obj_id := rlift (atomic_load obj) in
  let+ _ := repeat_r (N.to_nat BENCH_CONTEND_ITERS) (
    let+ _ := exchange fuel 1 SyncOp [1; obj_id; 0; 0] in
    exchange fuel 1 SyncOp [2; obj_id; 0; 0]) in
  rlift terminate_current_task.

(** The capabilities of tasks that share synchronisation object [id]. *)
Definition sync_worker_caps (id : N) : K CapTable :=
  kcaps_new [minted (SyncObj id) true true false; minted (IpcChannel 86) true true false].

Definition run_bench_contend (fuel : nat) (obj n obj_id : N) : R (list Report) :=
  let+ _ := rlift (ensure_sync_service sync_main) in
  let+ _ := rlift (atomic_store obj obj_id) in
  let+ _ := send_sync_msg fuel sync_main 0 obj_id 1 1 in
  let+ caps := rlift (sync_worker_caps obj_id) in
  let+ start_ticks := rlift ticks_now in
  let+ _ := rlift (place_workers 90 n bench_contend_entry caps) in
  let+ _ := await_tasks fuel (rangeN 90 (N.to_nat n)) in
  let+ elapsed := rlift (elapsed_ticks start_ticks) in
  let+ elapsed_ms := rlift (klift (mul64 elapsed 10)) in
  let total_ops := n * BENCH_CONTEND_ITERS * 2 in
  let+ us := rlift (klift (mul64 elapsed_ms 1000)) in
  rret [print_ok "Benchmark Lock Contention (N={}):" [Num n];
        print_info "  Tasks:              {}" [Num n];
        print_info "  Acquire+Release ops:{}" [Num total_ops];
        print_info "  Elapsed ticks:      {}" [Num elapsed];
        print_info "  Avg op latency(us): {}" [Num (us / total_ops)]].

(** [core::mem::size_of] of the four types, as laid out by the compiler. *)
Record Sizes : Type := mkSizes { sz_task : N; sz_cap_table : N; sz_queue : N; sz_message : N }.

Definition bench_mem (sz : Sizes) : list Report := [
  print_ok "Benchmark Per-Task Memory Footprint:" [];
  print_info "  size_of::<Task>():         {} bytes" [Num (sz_task sz)];
  print_info "  size_of::<CapTable>():     {} bytes" [Num (sz_cap_table sz)];
  print_info "  size_of::<MessageQueue>(): {} bytes" [Num (sz_queue sz)];
  print_info "  size_of::<Message>():      {} bytes" [Num (sz_message sz)];
  print_info "  kernel stack per task:     {} bytes" [Num STACK_SIZE];
  print_info "  MAX_TASKS:                 {}" [Num MAX_TASKS]].

(** The addresses of [BENCH_SCHED_COUNTER] and [BENCH_CONTEND_OBJ]. *)
Variables bench_sched_counter bench_contend_obj : N.

Definition bench_command (fuel : nat) (sz : Sizes) (tok1 tok2 : list N) : R Reply :=
  let+ reports :=
    if is_tok tok1 "ipc" then run_bench_ipc fuel
    else if is_tok tok1 "sched" then run_bench_sched fuel bench_sched_counter
    else if is_tok tok1 "cap" then rlift run_bench_cap
    else if is_tok tok1 "fs" then run_bench_fs fuel
    else if is_tok tok1 "mem" then rret (bench_mem sz)
    else if is_tok tok1 "contend" then
      let (failed, n) := match parse_usize tok2 with Ok n => ([], n) | Err _ => ((bad_number tok2).1, 2) end in
      let n := N.max 1 (N.min n 16) in
      let obj_id := if n <=? 2 then 2 else if n <=? 4 then 3 else if n <=? 8 then 4 else 5 in
      let+ reports := run_bench_contend fuel bench_contend_obj n obj_id in rret (failed ++ reports)
    else if is_tok tok1 "all" then
      let+ r1 := run_bench_ipc fuel in
      let+ r2 := run_bench_sched fuel bench_sched_counter in
      let+ r3 := rlift run_bench_cap in
      let+ r4 := run_bench_fs fuel in
      rret (r1 ++ r2 ++ r3 ++ r4)
    else rret [print_fail "Usage: bench <ipc|sched|cap|fs|mem|contend <n>|all>" []] in
  rret (said (print_info "Running benchmarks (preemption disarmed for stability)..." [] :: reports)).

(** ** The ping of another processor *)

Section ping.
Context `{LapicDevice D}.

(** The loop that waits for [IPI_ACK_COUNT] to grow; [loads] are the values it
    reads.  Acknowledged or not, after at most ten million of them. *)
Fixpoint await_ack (loads : list N) (spins prev_ack : N) : outcome bool :=
  if spins <? 10000000 then
    match loads with
    | [] => OutOfFuel
    | curr_ack :: loads' => if prev_ack <? curr_ack then Ret true else await_ack loads' (spins + 1) prev_ack
    end
  else Ret false.

(** [final_ack] is the count read for the report. *)
Definition smp_ping (fuel : nat) (resp : option MpResponse) (prev_ack : N) (loads : list N) (final_ack : N) (d : D) : outcome (Reply * D) :=
  match resp with
  | None => Ret (said [print_fail "No multiprocessor response from bootloader." []], d)
  | Some r =>
      match find_first (fun cpu => negb (mp_lapic_id cpu =? mp_bsp_lapic_id r)) (mp_cpus r) with
      | None => Ret (said [print_fail "No secondary AP core detected to ping." []], d)
      | Some ap =>
          let sending := print_info "Sending IPI (vector 0x40) to AP CPU {} (LAPIC ID {})..." [Num (mp_processor_id ap); Num (mp_lapic_id ap)] in
          let! d := send_ipi fuel (mp_lapic_id ap) 0x40 d in
          let! acked := await_ack loads 0 prev_ack in
          Ret (said [sending; if acked : bool then print_ok "IPI Acknowledged! Ack count: {}" [Num final_ack]
                              else print_fail "IPI Ping Timeout. No acknowledgment from AP core." []], d)
      end
  end.
End ping.

(** ** [log tail] *)

Variable log_main : N.

(** [readable_kinds] after a slot. *)
Definition mark_readable (acc : list bool) (o : option Capability) : outcome (list bool) :=
  match o with
  | Some cap =>
      match cap_resource cap with
      | LogChannel kind readable _ => if readable && cap_read cap then arr_set acc kind true else Ret acc
      | _ => Ret acc
      end
  | None => Ret acc
  end.

(** The entries of one kind that are unread, at most [n] of them. *)
Fixpoint tail_kind (n fuel : nat) (cap_idx kind : N) (out : list Report) : R (list Report) :=
  match n with
  | O => fun _ => OutOfFuel
  | S n' =>
      let+ a := ask fuel cap_idx (IpcTag_as_u16 LogRead) 1 [kind] in
      match a with
      | Replied reply =>
          let+ st := rlift (klift (arr_get (msg_payload reply) 0)) in
          if st =? 0 then
            let+ line := rlift (klift (
              let! tick := slice (msg_payload reply) 1 9 in
              let! producer := slice (msg_payload reply) 9 17 in
              let! len := slice (msg_payload reply) 18 26 in
              let! end_ := add64 26 (from_ne_bytes len) in
              let! msg_bytes := slice (msg_payload reply) 26 end_ in
              Ret (print_info "  [{}] prod={} kind={} message={}"
                     [Num (from_ne_bytes tick); Num (from_ne_bytes producer); Num kind; Str (from_utf8_or_empty msg_bytes)]))) in
            tail_kind n' fuel cap_idx kind (out ++ [line])
          else rret out
      | _ => rret out
      end
  end.

(** The readable kinds in turn; [Err]: the channel is gone. *)
Fixpoint tail_kinds (n fuel : nat) (kinds : list N) (readable : list bool) (out : list Report) : R (result (list Report) (list Report)) :=
  match kinds with
  | [] => rret (Ok out)
  | kind :: kinds' =>
      let+ r := rlift (klift (arr_get readable kind)) in
      if negb r then tail_kinds n fuel kinds' readable out
      else
        let+ o := rlift (shell_channel 83) in
        match o with
        | None => rret (Err (out ++ [print_fail "no capability" []]))
        | Some cap_idx =>
            let+ out := tail_kind n fuel cap_idx kind out in
            tail_kinds n fuel kinds' readable out
        end
  end.

Definition KEY_q : N := 113.
Definition KEY_Q : N := 81.

(** The loop; [key] is what [try_read] of the serial port returns in a state. *)
Fixpoint tail_loop (rounds n fuel : nat) (key : Kernel -> option N) (readable : list bool) (last_tick : N) (out : list Report) : R (list Report) :=
  match rounds with
  | O => fun _ => OutOfFuel
  | S rounds' =>
      let+ current_tick := rlift ticks_now in
      if negb (current_tick =? last_tick) then
        let+ pressed := rlift (kget key) in
        if bool_decide (pressed = Some KEY_q \/ pressed = Some KEY_Q) then rret (out ++ [print_ok "log tail stopped" []])
        else
          let+ r := tail_kinds n fuel (rangeN 0 16) readable out in
          match r with
          | Err out => rret out
          | Ok out => let+ _ := yield_cpu in tail_loop rounds' n fuel key readable current_tick out
          end
      else let+ _ := yield_cpu in tail_loop rounds' n fuel key readable last_tick out
  end.

Definition log_tail_command (rounds n fuel : nat) (key : Kernel -> option N) : R Reply :=
  let+ slots := rlift get_shell_caps in
  let+ readable := rlift (klift (for_each slots (fun o acc => mark_readable acc o) (replicate 16 false))) in
  let+ _ := rlift (ensure_log_service log_main) in
  let+ last_tick := rlift ticks_now in
  let+ out := tail_loop rounds n fuel key readable last_tick [print_info "tailing log kinds (press 'q' to quit)..." []] in
  rret (said out).

(** ** [watch] *)

(** Where the [n]th word of the line starts. *)
Fixpoint word_start (n : nat) (line : list N) (idx : N) : outcome N :=
  let! idx := scan (S (length line)) is_space line idx in
  match n with
  | O => Ret idx
  | S n' => let! idx := scan (S (length line)) not_space line idx in word_start n' line idx
  end.

(** The command to run and the interval. *)
Definition watch_args (line : list N) (count : N) (tokens : list (option (list N))) : outcome (option (list N * list N)) :=
  let token i := match mjoin (tokens !! i) with Some t => Ret t | None => Panic end in
  if count =? 4 then
    let! end_ := token 2%nat in
    let! start_idx := word_start 1 line 0 in
    let! end_start := word_start 2 line 0 in
    let! end_idx := add64 end_start (lenN end_) in
    let! sub_cmd := slice line start_idx end_idx in
    let! interval := token 3%nat in
    Ret (Some (sub_cmd, interval))
  else if count =? 3 then
    let! sub_cmd := token 1%nat in
    let! interval := token 2%nat in
    Ret (Some (sub_cmd, interval))
  else Ret None.

(** The wait between two runs: whether a key ended it. *)
Fixpoint watch_wait (fuel : nat) (key : Kernel -> option N) (interval wait_start last_tick : N) : R bool :=
  match fuel with
  | O => fun _ => OutOfFuel
  | S fuel' =>
      let+ t := rlift ticks_now in
      if wsub64 t wait_start <? interval then
        let+ pressed := rlift (if negb (t =? last_tick) then kget key else kret None) in
        if is_some pressed then rret true
        else let+ _ := yield_cpu in watch_wait fuel' key interval wait_start t
      else rret false
  end.

Definition CLEAR_SCREEN : list N := [ESC] ++ as_bytes "[2J" ++ [ESC] ++ as_bytes "[H".

Section watch.
Context {D : Type}.
Variable dispatch : list N -> ShellState (D := D) -> R (Reply * ShellState (D := D)).

(** One run of the command: its output, captured and compared with that of the
    run before. *)
Definition watch_round (sub_cmd : list N) (interval : N) (st : ShellState) : R (list Report * ShellState (D := D)) :=
  let w := sh_watch st in
  let+ (reports, _, st) := dispatch sub_cmd (set_sh_watch (mkWatchState (wt_cur w) (wt_prev w) 0 (wt_len_prev w)) st) in
  let+ (_, d) := rlift (klift (for_each reports capture_step (true, mkRedirect (wt_cur w) 1024 0))) in
  let w := mkWatchState (rd_buf d) (wt_prev (sh_watch st)) (rd_written d) (wt_len_prev (sh_watch st)) in
  let+ diff := rlift (klift (print_diffed_buffers w)) in
  let+ prev := rlift (klift (let! cur := slice (wt_cur w) 0 (wt_len_cur w) in copy_at (wt_prev w) 0 cur)) in
  let header := print "[INFO]  watch: {} (every {} ticks, press any key to exit){}"
                  [Str (from_utf8_or_empty sub_cmd); Num interval; Str [LF]] in
  rret ([capture_on] ++ reports ++ [capture_off; print "{}" [Str CLEAR_SCREEN]; header; print "{}" [Str diff]],
        set_sh_watch (mkWatchState (wt_cur w) prev (wt_len_cur w) (wt_len_cur w)) st).

Fixpoint watch_loop (rounds fuel : nat) (key : Kernel -> option N) (sub_cmd : list N) (interval : N) (out : list Report) (st : ShellState)
  : R (Reply * ShellState (D := D)) :=
  match rounds with
  | O => fun _ => OutOfFuel
  | S rounds' =>
      let+ (reports, st) := watch_round sub_cmd interval st in
      let out := out ++ reports in
      let+ wait_start := rlift ticks_now in
      let+ pressed := watch_wait fuel key interval wait_start wait_start in
      if pressed : bool then rret (said (out ++ [print "{}" [Str [LF]]]), st)
      else watch_loop rounds' fuel key sub_cmd interval out st
  end.

Definition watch_command (rounds fuel : nat) (key : Kernel -> option N) (line : list N) (count : N) (tokens : list (option (list N))) (st : ShellState)
  : R (Reply * ShellState (D := D)) :=
  let+ o := rlift (klift (watch_args line count tokens)) in
  match o with
  | None => rret (said [print_fail "Usage: watch <command> <interval>" []], st)
  | Some (sub_cmd, interval_tok) =>
      match parse_usize interval_tok with
      | Err _ => rret (bad_number interval_tok, st)
      | Ok interval =>
          let w := sh_watch st in
          watch_loop rounds fuel key sub_cmd interval [] (set_sh_watch (mkWatchState (wt_cur w) (wt_prev w) (wt_len_cur w) 0) st)
      end
  end.
End watch.

(** ** The synchronisation demonstration *)

(** The entries of the tasks. *)
Variables sync_guarded_entry sync_unguarded_entry : N.

(** Read the counter, spin, write it back incremented; the spin may be interrupted. *)
Definition slow_increment (turns : Kernel -> list Turn) (counter : N) : K unit :=
  let* val := atomic_load counter in
  let* evs := kget turns in
  do* kfor evs (fun ev _ => turn ev) tt in
  let* val' := klift (add64 val 1) in
  atomic_store counter val'.

(** [counter] is [BENCH_SYNC_COUNTER]. *)
Definition sync_demo_guarded_task (fuel : nat) (turns : Kernel -> list Turn) (counter : N) : R bool :=
  let+ _ := repeat_r 100 (
    let+ _ := exchange fuel 1 SyncOp [1; 7; 0; 0] in
    let+ _ := rlift (slow_increment turns counter) in
    exchange fuel 1 SyncOp [2; 7; 0; 0]) in
  rlift terminate_current_task.

Definition sync_demo_unguarded_task (turns : Kernel -> list Turn) (counter : N) : R bool :=
  let+ _ := repeat_r 100 (rlift (slow_increment turns counter)) in
  rlift terminate_current_task.

(** Two tasks 78 and 79, and the wait until both are gone. *)
Definition run_pair (fuel : nat) (entry : N) (caps : CapTable) : R unit :=
  let+ _ := rlift (do* lock_sched in do* place_task 78 entry caps in do* place_task 79 entry caps in unlock_sched) in
  await_tasks fuel [78; 79].

Definition run_sync_demo (fuel : nat) (counter : N) : R (list Report) :=
  let+ _ := rlift (atomic_store counter 0) in
  let+ _ := send_sync_msg fuel sync_main 0 7 1 1 in
  let+ caps := rlift (sync_worker_caps 7) in
  let+ originally_preempt := rlift (kget (fun k => is_armed (am_preempt (k_amb k)))) in
  let+ _ := rlift (arm true) in
  let+ _ := run_pair fuel sync_guarded_entry caps in
  let+ guarded_final := rlift (atomic_load counter) in
  let+ _ := rlift (atomic_store counter 0) in
  let+ _ := run_pair fuel sync_unguarded_entry CapTable_new in
  let+ _ := rlift (arm originally_preempt) in
  let+ unguarded_final := rlift (atomic_load counter) in
  rret [print_info "Starting Sync Demo..." [];
        print_ok "Guarded run final counter: {} (Expected: 200)" [Num guarded_final];
        print_ok "Unguarded run final counter: {} (Expected: < 200 due to race condition)" [Num unguarded_final]].
End demos.
