(* ===== verification/Dispatch.v ===== *)
(** * The command interpreter

    [dispatch] of [kernel/shell/mod.rs]: a line is split into tokens and the arm
    for the first two runs.  The arms are those of [Commands], [Listings] and
    [Demos].  [console_looks]: lines other than the commands that act change
    nothing.  [watch_zero_forever], [cache_sim_panics] and [history_zero_forever] are
    inputs on which the console does not return to its prompt. *)

From S2P Require Import Prelude Ring Text Preempt Trace Capability AuditTrail Message Machine Frames.
From S2P Require Import Task Scheduler Kernel Switch Scheduling Spawn Contexts Timer Toctou Ipc Rendezvous Messaging.
From S2P Require Import Authority Propagation Delegation Paging AddressSpace UserMemory Userspace Syscall Snapshot Dist.
From S2P Require Import Service KvService LogService FsService SyncService Keyboard PipelineSim CacheSim Serial Console CommandLine DevService Clients Apic Boot.
From S2P Require Import Reports Commands Grants Listings Demos.
Local Open Scope N_scope.

(** The entry points of the tasks the console starts, and its static counters. *)
Class ConsoleImage : Type := {
  ci_park : N; ci_echo_main : N; ci_kv_main : N; ci_log_main : N; ci_fs_main : N; ci_dev_main : N; ci_sync_main : N;
  ci_fault : N; ci_stress : N; ci_timeslice_a : N; ci_timeslice_b : N; ci_bench_sched : N; ci_bench_contend : N;
  ci_guarded : N; ci_unguarded : N;
  STRESS_DELIVERIES : N; COUNTER_A : N; COUNTER_B : N; BENCH_SCHED_COUNTER : N; BENCH_CONTEND_OBJ : N; BENCH_SYNC_COUNTER : N;
  ci_sizes : Sizes
}.

(** What the commands observe of the world in a state: the serial port, the timer
    during a spinning loop, the bootloader and the acknowledgements of other
    processors. *)
Record World : Type := mkWorld {
  wd_key : Kernel -> option N;
  wd_turns : Kernel -> list Turn;
  wd_mp : option MpResponse;
  wd_acks : Kernel -> N;
  wd_ack_loads : Kernel -> list N;
  wd_final_acks : Kernel -> N
}.

Section dispatch.
Context `{L : Layout} `{B : Blobs} `{CI : ConsoleImage} `{LapicDevice D}.
Variable W : World.

(** Fuel for blocking operations and polling loops. *)
Variable fuel : nat.

Definition unknown (group : string) (tok : list N) : Reply :=
  said [print_fail ("unknown " ++ group ++ " subcommand: {}") [Str (from_utf8_or_empty tok)]].

Definition kv_arm (tok1 tok2 tok3 : list N) : R Reply :=
  if is_tok tok1 "set" then kv_set_command ci_kv_main fuel tok2 tok3
  else if is_tok tok1 "get" then kv_get_command ci_kv_main fuel tok2
  else if is_tok tok1 "grant" then rlift (kv_grant_command ci_park tok2 tok3)
  else if is_tok tok1 "revoke" then rlift (kv_revoke_command tok2)
  else rret (unknown "kv" tok1).

Definition fs_arm (tok1 tok2 tok3 : list N) : R Reply :=
  if is_tok tok1 "mkdir" then fs_mkdir_command ci_fs_main fuel tok2
  else if is_tok tok1 "write" then fs_write_command ci_fs_main fuel tok2 tok3
  else if is_tok tok1 "read" then fs_read_command ci_fs_main fuel tok2
  else if is_tok tok1 "ls" then fs_ls_command ci_fs_main fuel tok2
  else if is_tok tok1 "delete" then fs_delete_command ci_fs_main fuel tok2
  else if is_tok tok1 "stat" then fs_stat_command ci_fs_main fuel tok2
  else rret (unknown "fs" tok1).

Definition dev_arm (tok1 tok2 tok3 : list N) : R Reply :=
  if is_tok tok1 "list" then rlift dev_list_command
  else if is_tok tok1 "read" then dev_read_command ci_dev_main fuel tok2
  else if is_tok tok1 "write" then dev_write_command ci_dev_main fuel tok2 tok3
  else rret (unknown "dev" tok1).

Definition arch_arm (tok1 tok2 tok3 : list N) : K Reply :=
  if is_tok tok1 "cache-sim" then cache_sim_command tok2 tok3
  else if is_tok tok1 "pipeline-sim" then pipeline_sim_command tok2
  else kret (unknown "arch" tok1).

Definition smp_arm (tok1 : list N) (st : ShellState (D := D)) : K (Reply * ShellState (D := D)) :=
  if is_tok tok1 "info" then kret (smp_info (wd_mp W), st)
  else if is_tok tok1 "ping" then
    let* prev := kget (wd_acks W) in
    let* loads := kget (wd_ack_loads W) in
    let* final := kget (wd_final_acks W) in
    let* (reply, d) := klift (smp_ping fuel (wd_mp W) prev loads final (sh_lapic st)) in
    kret (reply, set_sh_lapic d st)
  else kret (said [print_fail "Usage: smp <info|ping>" []], st).

Definition sync_arm (tok1 tok2 tok3 : list N) : R Reply :=
  if is_tok tok1 "create" then sync_create_command ci_sync_main fuel tok2 tok3
  else if is_tok tok1 "acquire" then sync_acquire_command ci_sync_main fuel tok2
  else if is_tok tok1 "release" then sync_release_command ci_sync_main fuel tok2
  else if is_tok tok1 "demo" then
    let+ reports := run_sync_demo ci_sync_main ci_guarded ci_unguarded fuel BENCH_SYNC_COUNTER in rret (said reports)
  else rret (unknown "sync" tok1).

Definition log_arm (tok1 tok2 tok3 : list N) : R Reply :=
  if is_tok tok1 "publish" then log_publish_command ci_log_main fuel tok2 tok3
  else if is_tok tok1 "read" then log_read_command ci_log_main fuel tok2
  else if is_tok tok1 "grant" then rlift (log_grant_command ci_park tok2 tok3)
  else if is_tok tok1 "revoke" then rlift (log_revoke_command tok2)
  else if is_tok tok1 "tail" then log_tail_command ci_log_main fuel fuel fuel (wd_key W)
  else rret (unknown "log" tok1).

(** The default arm. *)
Definition unknown_command (line : list N) : Reply :=
  said ((if utf8_valid line then [print_fail "unknown command: {}" [Str line]] else []) ++ [print_info "try: help" []]).

(** The arms that leave the statics of the console alone. *)
Definition plain_arm (line tok0 tok1 tok2 tok3 : list N) : R Reply :=
  let on s t := is_tok tok0 s && is_tok tok1 t in
  if is_tok tok0 "help" then rret (help_command tok1 tok2)
  else if on "cap" "list" then rlift cap_list_command
  else if on "cap" "grant" then rlift (cap_grant_command ci_park tok2)
  else if on "cap" "revoke" then rlift (cap_revoke_command tok2)
  else if on "cap" "seal" then rlift (cap_seal_command tok2)
  else if on "cap" "audit" then rlift cap_audit_command
  else if on "sched" "info" then rlift sched_info_command
  else if on "sched" "timeslice" then timeslice_command COUNTER_A COUNTER_B ci_timeslice_a ci_timeslice_b fuel
  else if on "sched" "preempt-race" then rlift (preempt_race_command ci_park (wd_turns W))
  else if on "sched" "preempt-user" then preempt_user_command fuel
  else if on "fault" "spawn" then fault_spawn_command ci_fault
  else if on "fault" "cascade" then fault_cascade_command ci_fault tok2
  else if on "ipc" "send" then ipc_send_command ci_echo_main fuel tok2 tok3
  else if on "ipc" "typed" then ipc_typed_command ci_echo_main fuel tok2 tok3
  else if on "ipc" "stress" then ipc_stress_command ci_stress STRESS_DELIVERIES fuel tok2
  else if on "service" "list" then rlift service_list_command
  else if on "service" "restart" then rlift (service_restart_command ci_echo_main tok2)
  else if is_tok tok0 "perf" then rlift perf_command
  else if is_tok tok0 "kv" then kv_arm tok1 tok2 tok3
  else if is_tok tok0 "fs" then fs_arm tok1 tok2 tok3
  else if is_tok tok0 "dev" then dev_arm tok1 tok2 tok3
  else if is_tok tok0 "arch" then rlift (arch_arm tok1 tok2 tok3)
  else if is_tok tok0 "bench" then
    bench_command ci_echo_main ci_fs_main ci_sync_main ci_bench_sched ci_bench_contend BENCH_SCHED_COUNTER BENCH_CONTEND_OBJ fuel ci_sizes tok1 tok2
  else if is_tok tok0 "sync" then sync_arm tok1 tok2 tok3
  else if is_tok tok0 "log" then log_arm tok1 tok2 tok3
  else rret (unknown_command line).

(** [dispatch]; [depth] bounds the commands that run commands. *)
Fixpoint dispatch (depth : nat) (line : list N) (st : ShellState (D := D)) : R (Reply * ShellState (D := D)) :=
  match depth with
  | O => fun _ => OutOfFuel
  | S depth' =>
      let+ (count, tokens) := rlift (klift (tokenize line (replicate 4 None))) in
      if count =? 0 then rret (said [], st)
      else
        let tok i := default [] (mjoin (tokens !! i)) in
        let tok0 := tok 0%nat in
        let tok1 := tok 1%nat in
        let tok2 := tok 2%nat in
        let tok3 := tok 3%nat in
        if is_tok tok0 "checkpoint" then rlift (checkpoint_command st)
        else if is_tok tok0 "restore" then let+ r := rlift (restore_command tok1 st) in rret (r, st)
        else if is_tok tok0 "migrate" then
          let+ (r, d) := rlift (migrate_command ci_park tok1 tok2 (sh_dist st)) in rret (r, set_sh_dist d st)
        else if is_tok tok0 "history" then history_command (dispatch depth') tok1 st
        else if is_tok tok0 "trace" then trace_command (dispatch depth') line st
        else if is_tok tok0 "watch" then watch_command (dispatch depth') fuel fuel (wd_key W) line count tokens st
        else if is_tok tok0 "smp" then rlift (smp_arm tok1 st)
        else let+ r := plain_arm line tok0 tok1 tok2 tok3 in rret (r, st)
  end.
End dispatch.

(** ** Commands that look *)

(** The [i]th word of a line. *)
Definition word (line : list N) (i : nat) : list N := default [] (lex 3 line !! i).

(** The commands that act, by their first word or their first two. *)
Definition acting_words : list string := ["checkpoint"; "restore"; "migrate"; "history"; "trace"; "watch"]%string.
Definition acting : list (string * list string) :=
  [("cap", ["grant"; "revoke"; "seal"]); ("sched", ["timeslice"; "preempt-race"; "preempt-user"]); ("fault", ["spawn"; "cascade"]);
   ("ipc", ["send"; "typed"; "stress"]); ("service", ["restart"]); ("kv", ["set"; "get"; "grant"; "revoke"]);
   ("fs", ["mkdir"; "write"; "read"; "ls"; "delete"; "stat"]); ("dev", ["read"; "write"]);
   ("bench", ["ipc"; "sched"; "cap"; "fs"; "contend"; "all"]); ("smp", ["ping"]); ("sync", ["create"; "acquire"; "release"; "demo"]);
   ("log", ["publish"; "read"; "grant"; "revoke"; "tail"])]%string.

(** Every other line: a command that only reports, an unknown command or an unknown
    subcommand. *)
Definition looks (tok0 tok1 : list N) : bool :=
  negb (existsb (is_tok tok0) acting_words || existsb (fun '(g, subs) => is_tok tok0 g && existsb (is_tok tok1) subs) acting).

(** A run of the cache simulator whose addresses cannot be made. *)
Definition sim_fatal (tr : TraceRing) (tok0 tok1 tok2 tok3 : list N) : bool :=
  is_tok tok0 "arch" && is_tok tok1 "cache-sim" && cache_overflows tr tok2 tok3.

Lemma filled_word toks i : default [] (mjoin (filled toks !! i)) = default [] (toks !! i).
Proof.
  unfold filled. destruct (decide (i < length toks)%nat) as [Hi|Hi].
  - rewrite lookup_app_l by (by rewrite length_fmap). rewrite list_lookup_fmap. by destruct (toks !! i).
  - rewrite lookup_app_r, (lookup_ge_None_2 toks) by (rewrite ?length_fmap; lia).
    destruct (replicate _ _ !! _) as [o|] eqn:Ho; [|done]. by apply lookup_replicate in Ho as [-> _].
Qed.

(** Decide the tests on the first words. *)
Ltac tokens :=
  repeat match goal with |- context [is_tok (as_bytes ?a) ?b] => let v := eval vm_compute in (is_tok (as_bytes a) b) in change (is_tok (as_bytes a) b) with v end;
  cbn [andb orb].

(** No command that acts has these words. *)
Ltac not_acting :=
  match goal with Hlook : looks _ _ = true |- _ =>
    exfalso;
    repeat match goal with He : _ && _ = true |- _ => apply andb_prop in He as [? ?] end;
    repeat match goal with He : is_tok ?a _ = true |- _ => apply bool_decide_eq_true in He; subst a end;
    vm_compute in Hlook; discriminate Hlook
  end.

Section looking.
Context `{L : Layout} `{B : Blobs} `{CI : ConsoleImage} `{LapicDevice D} (W : World) (fuel : nat) (k : Kernel) (t : Task).
Context (Hk : kernel_wf k) (Ht : task_slot (k_sched k) SHELL = Some t) (Htr : lenN (tr_buffer (am_trace (k_amb k))) = TRACE_BUFFER_SIZE).
Implicit Types (st : ShellState (D := D)).

(** A line, with its words. *)
Lemma dispatch_words depth line st : lenN line < u64_limit ->
  dispatch W fuel (S depth) line st k =
    if lenN (lex 3 line) =? 0 then Ret (Done (said [], st), k)
    else
      let tok0 := word line 0 in let tok1 := word line 1 in let tok2 := word line 2 in let tok3 := word line 3 in
      (if is_tok tok0 "checkpoint" then rlift (checkpoint_command st)
       else if is_tok tok0 "restore" then let+ r := rlift (restore_command tok1 st) in rret (r, st)
       else if is_tok tok0 "migrate" then
         let+ (r, d) := rlift (migrate_command ci_park tok1 tok2 (sh_dist st)) in rret (r, set_sh_dist d st)
       else if is_tok tok0 "history" then history_command (dispatch W fuel depth) tok1 st
       else if is_tok tok0 "trace" then trace_command (dispatch W fuel depth) line st
       else if is_tok tok0 "watch" then watch_command (dispatch W fuel depth) fuel fuel (wd_key W) line (lenN (lex 3 line)) (filled (lex 3 line)) st
       else if is_tok tok0 "smp" then rlift (smp_arm W fuel tok1 st)
       else let+ r := plain_arm W fuel line tok0 tok1 tok2 tok3 in rret (r, st)) k.
Proof.
  intros Hlen. cbn [dispatch]. rewrite (rbind_rlift _ _ k (lenN (lex 3 line), filled (lex 3 line)) k) by (unfold klift; by rewrite tokenize_lex).
  cbv zeta. rewrite !filled_word. by case_match.
Qed.

(** The reply of an arm that only looks. *)
Definition replies (m : R Reply) : Prop := exists reply, m k = Ret (Done reply, k).

Lemma replies_ret r : replies (rret r).
Proof. by eexists. Qed.

Lemma replies_listing tok2 c : c ∈ listings tok2 -> replies (rlift c).
Proof. intros Hc. destruct (listings_only_look k t Hk Ht Htr tok2 c Hc) as [reply Hr]. exists reply. unfold rlift. by rewrite Hr. Qed.

Lemma plain_looks line tok0 tok1 tok2 tok3 :
  looks tok0 tok1 = true -> is_tok tok0 "smp" = false -> lenN tok3 < u64_limit ->
  if sim_fatal (am_trace (k_amb k)) tok0 tok1 tok2 tok3 then plain_arm W fuel line tok0 tok1 tok2 tok3 k = Panic
  else replies (plain_arm W fuel line tok0 tok1 tok2 tok3).
Proof.
  intros Hlook Hsmp Hl. unfold sim_fatal. destruct (is_tok tok0 "arch") eqn:Harch; cbn [andb].
  { apply bool_decide_eq_true in Harch. subst tok0. unfold plain_arm, arch_arm. cbv zeta. tokens.
    destruct (is_tok tok1 "cache-sim"); cbn [andb].
    - pose proof (cache_sim_exact k Htr tok2 tok3 Hl) as Hc. destruct (cache_overflows _ tok2 tok3); [unfold rlift; by rewrite Hc|].
      destruct Hc as [reply Hr]. exists reply. unfold rlift. by rewrite Hr.
    - destruct (is_tok tok1 "pipeline-sim"); [apply (replies_listing tok2); set_solver|by eexists]. }
  unfold plain_arm. cbv zeta. rewrite Harch.
  repeat match goal with
  | |- replies (if ?b then _ else _) => destruct b eqn:?
  | |- replies (rret _) => apply replies_ret
  | |- replies (rbind (rret _) _) => by eexists
  | |- replies (rbind (if ?b then _ else _) _) => destruct b eqn:?
  | |- replies (rlift _) => apply (replies_listing tok2); set_solver
  | |- _ => not_acting
  | |- _ => progress unfold kv_arm, fs_arm, dev_arm, sync_arm, log_arm, bench_command
  end.
Qed.

Lemma word_fits line i : lenN line < u64_limit -> lenN (word line i) < u64_limit.
Proof.
  intros Hl. apply N.le_lt_trans with (lenN line); [|done]. unfold word. destruct (lex 3 line !! i) as [w|] eqn:Hw; [|apply N.le_0_l].
  pose proof (lexes_words_le 3 line _ (proj2 (lexes_lex 3 line _) eq_refl)) as Hall. exact (Forall_lookup_1 _ _ _ _ Hall Hw).
Qed.

Lemma looks_spec depth line st :
  lenN line < u64_limit -> looks (word line 0) (word line 1) = true ->
  if sim_fatal (am_trace (k_amb k)) (word line 0) (word line 1) (word line 2) (word line 3)
  then dispatch W fuel (S depth) line st k = Panic
  else exists reply, dispatch W fuel (S depth) line st k = Ret (Done (reply, st), k).
Proof.
  intros Hlen Hlook. rewrite dispatch_words by done. destruct (lenN (lex 3 line) =? 0) eqn:H0.
  { assert (word line 0 = []) as ->; [|by eexists]. unfold word. bool_to_prop. destruct (lex 3 line); [done|]. rewrite lenN_cons in H0. lia. }
  cbv zeta.
  assert (forall s, s ∈ acting_words -> is_tok (word line 0) s = false) as Hno.
  { intros s Hs. destruct (is_tok (word line 0) s) eqn:He; [|done]. unfold looks in Hlook. apply negb_true_iff, orb_false_iff in Hlook as [Hw _].
    assert (existsb (is_tok (word line 0)) acting_words = true) as Hy; [|congruence]. apply existsb_exists. exists s. split; [by apply list_elem_of_In|done]. }
  unfold acting_words in Hno. rewrite !Hno by set_solver. destruct (is_tok (word line 0) "smp") eqn:Hsmp.
  - apply bool_decide_eq_true in Hsmp. rewrite Hsmp in Hlook |- *. unfold sim_fatal. tokens. unfold smp_arm.
    destruct (is_tok (word line 1) "info"); [by eexists|]. destruct (is_tok (word line 1) "ping") eqn:Hp; [|by eexists].
    apply bool_decide_eq_true in Hp. rewrite Hp in Hlook. vm_compute in Hlook. discriminate.
  - pose proof (plain_looks line (word line 0) (word line 1) (word line 2) (word line 3) Hlook Hsmp (word_fits line 3 Hlen)) as Hp.
    destruct (sim_fatal _ _ _ _ _); [unfold rbind; by rewrite Hp|]. destruct Hp as [reply Hr]. exists reply. unfold rbind. by rewrite Hr.
Qed.
End looking.

(** C39: The console's reports change nothing.  A line that is not one of the
    commands that act, so a command that reports (help, the capability and audit
    listings, the task, service, device and processor listings, statistics, sizes,
    the simulators), an unknown command or an unknown subcommand, is answered, and
    leaves the kernel and the statics of the console exactly as they were.  The one
    exception is exact: a well-formed run of the cache simulator on a trace name
    that matches no event and whose seed is within seven of [2^64] panics. *)
Theorem console_looks `{L : Layout} `{B : Blobs} `{CI : ConsoleImage} `{LapicDevice D} W fuel depth line (st : ShellState (D := D)) k t :
  kernel_wf k -> task_slot (k_sched k) SHELL = Some t -> lenN (tr_buffer (am_trace (k_amb k))) = TRACE_BUFFER_SIZE ->
  lenN line < u64_limit -> looks (word line 0) (word line 1) = true ->
  if sim_fatal (am_trace (k_amb k)) (word line 0) (word line 1) (word line 2) (word line 3)
  then dispatch W fuel (S depth) line st k = Panic
  else exists reply, dispatch W fuel (S depth) line st k = Ret (Done (reply, st), k).
Proof. intros Hk Ht Htr. exact (looks_spec W fuel k t Hk Ht Htr depth line st). Qed.

(** ** [watch] *)

(** The buffers of [watch] have their full length. *)
Definition watch_ok (w : WatchState) : Prop :=
  lenN (wt_cur w) = 1024 /\ lenN (wt_prev w) = 1024 /\ wt_len_cur w <= 1024 /\ wt_len_prev w <= 1024.

(** Whatever is printed, the capture stays within its buffer. *)
Lemma captures_within reports : forall b d, redirect_ok d -> rd_max_len d = 1024 ->
  exists b' d', for_each reports capture_step (b, d) = Ret (b', d') /\ redirect_ok d' /\ rd_max_len d' = 1024.
Proof.
  induction reports as [|r reports IH]; intros b d Hd Hm; [by eexists _, _|]. cbn [for_each].
  assert (exists b1 d1, capture_step r (b, d) = Ret (b1, d1) /\ redirect_ok d1 /\ rd_max_len d1 = 1024) as (b1 & d1 & -> & Hd1 & Hm1); [|by apply IH].
  assert (forall s, exists d1, RedirectWriter_write_str s d = Ret d1 /\ redirect_ok d1 /\ rd_max_len d1 = 1024) as Hw.
  { intros s. destruct (write_str_spec s d Hd) as (d1 & Hr & Hd1 & Hm1 & _). exists d1. split_and!; [done|done|congruence]. }
  destruct Hd as (Hb & Hwr & Hlim). unfold capture_step.
  destruct (rp_level r); try (destruct b; [destruct (Hw (report_text r)) as (d1 & -> & ?); by eexists _, _|by eexists _, _; split_and!; [reflexivity|split_and!|]]).
  - eexists _, _. split; [reflexivity|]. unfold redirect_ok. cbn [rd_buf rd_max_len rd_written]. split_and!; [congruence|lia|done|done].
  - by eexists _, _; split_and!; [reflexivity|split_and!|].
Qed.

Section watching.
Context `{L : Layout} {D : Type} (dispatch : list N -> ShellState (D := D) -> R (Reply * ShellState (D := D))).

(** A round on a command that only looks. *)
Lemma watch_round_spec sub_cmd interval st k :
  watch_ok (sh_watch st) -> (forall st', exists reply, dispatch sub_cmd st' k = Ret (Done (reply, st'), k)) ->
  exists reports st', watch_round dispatch sub_cmd interval st k = Ret (Done (reports, st'), k) /\ watch_ok (sh_watch st').
Proof.
  intros (Hc & Hp & Hlc & Hlp) Hd. unfold watch_round. set (w := sh_watch st) in *. set (st1 := set_sh_watch _ st).
  destruct (Hd st1) as [[reports res] Hrun]. unfold rbind at 1. rewrite Hrun. cbn [obind res_bind].
  destruct (captures_within reports true (mkRedirect (wt_cur w) 1024 0)) as (b & d & Hcap & (Hb & Hwr & _) & Hm); [done|done|].
  rewrite (rbind_rlift _ _ k (b, d) k) by (unfold klift; by rewrite Hcap). change (sh_watch st1) with (mkWatchState (wt_cur w) (wt_prev w) 0 (wt_len_prev w)).
  cbn [wt_prev wt_len_prev wt_cur wt_len_cur]. assert (rd_written d <= 1024 /\ lenN (rd_buf d) = 1024) as [Hw Hbd] by (rewrite <- Hm; done).
  set (w1 := mkWatchState _ _ _ _). rewrite (rbind_rlift _ _ k _ k) by (unfold klift; rewrite (watch_diff_exact w1) by (cbn; rewrite ?Hbd, ?Hp; done); reflexivity).
  assert (1024 < u64_limit) by done.
  erewrite (rbind_rlift _ _ k (take (N.to_nat (rd_written d)) (rd_buf d) ++ drop (N.to_nat (rd_written d)) (wt_prev w)) k).
  2: { unfold klift. cbn [wt_cur wt_len_cur w1]. rewrite slice_ok by lia. cbn [obind]. rewrite N.sub_0_r, drop_0. rewrite copy_at_ok.
    - replace (N.to_nat (0 + lenN (take (N.to_nat (rd_written d)) (rd_buf d)))) with (N.to_nat (rd_written d)); [done|]. unfold lenN in *. rewrite length_take. lia.
    - unfold lenN in *. rewrite length_take. lia. }
  eexists _, _. split; [reflexivity|]. unfold watch_ok. cbn [sh_watch set_sh_watch wt_cur wt_prev wt_len_cur wt_len_prev w1]. split_and!; [done| |done|done].
  unfold lenN in *. rewrite length_app, length_take, length_drop. lia.
Qed.

(** With an interval of zero the loop neither waits nor looks at the keyboard. *)
Lemma watch_zero rounds fuel key sub_cmd k : forall out st,
  watch_ok (sh_watch st) -> (forall st', exists reply, dispatch sub_cmd st' k = Ret (Done (reply, st'), k)) ->
  watch_loop dispatch rounds (S fuel) key sub_cmd 0 out st k = OutOfFuel.
Proof.
  induction rounds as [|rounds IH]; intros out st Hw Hd; [done|]. cbn [watch_loop].
  destruct (watch_round_spec sub_cmd 0 st k Hw Hd) as (reports & st' & Hr & Hw'). unfold rbind at 1. rewrite Hr. cbn [obind res_bind].
  rewrite (rbind_rlift ticks_now _ k _ k eq_refl). unfold rbind at 1. cbn [watch_wait]. rewrite (rbind_rlift ticks_now _ k _ k eq_refl).
  rewrite (proj2 (N.ltb_ge _ 0)) by apply N.le_0_l. cbn [rret obind res_bind]. by apply IH.
Qed.
End watching.

Section commands.
Context `{L : Layout} `{B : Blobs} `{CI : ConsoleImage} `{LapicDevice D} (W : World) (k : Kernel) (t : Task).
Context (Hk : kernel_wf k) (Ht : task_slot (k_sched k) SHELL = Some t) (Htr : lenN (tr_buffer (am_trace (k_amb k))) = TRACE_BUFFER_SIZE).
Implicit Types (st : ShellState (D := D)).

(** [watch help 0] never ends: it does not wait between its runs, so it never looks
    for the key that would stop it, and never gives up the processor. *)
Lemma watch_zero_forever fuel depth st : watch_ok (sh_watch st) ->
  dispatch W (S fuel) (S (S depth)) (as_bytes "watch help 0") st k = OutOfFuel.
Proof.
  intros Hw. rewrite dispatch_words by done. set (line := as_bytes "watch help 0"). change (lenN (lex 3 line) =? 0) with false. cbv zeta.
  change (word line 0) with (as_bytes "watch"). tokens. unfold watch_command.
  rewrite (rbind_rlift _ _ k (Some (as_bytes "help", as_bytes "0")) k) by (vm_compute; reflexivity).
  change (parse_usize (as_bytes "0")) with (@Ok unit N 0). apply watch_zero; [destruct Hw as (? & ? & ? & ?); by split_and!|].
  intros st'. by apply (looks_spec W (S fuel) k t Hk Ht Htr depth (as_bytes "help")).
Qed.

(** The seed of this trace name leaves no room for the pattern of the addresses. *)
Lemma cache_sim_panics fuel depth st : am_trace (k_amb k) = TraceRing_init ->
  dispatch W fuel (S depth) (as_bytes "arch cache-sim KUBSVMZZWTFDR 1 1") st k = Panic.
Proof.
  intros Hinit. pose proof (looks_spec W fuel k t Hk Ht Htr depth (as_bytes "arch cache-sim KUBSVMZZWTFDR 1 1") st eq_refl eq_refl) as Hp.
  rewrite Hinit in Hp. by replace (sim_fatal _ _ _ _ _) with true in Hp by (vm_compute; reflexivity).
Qed.

(** [history 0] typed first runs itself for ever. *)
Lemma history_zero_forever fuel depth snap dist watch (lapic : D) :
  dispatch W fuel depth history_zero (mkShellState only_entry snap dist watch lapic) k = OutOfFuel.
Proof.
  apply (history_runs_itself (dispatch W fuel)); [done|]. intros n st k'. rewrite dispatch_words by done.
  change (lenN (lex 3 history_zero) =? 0) with false. cbv zeta. change (word history_zero 0) with (as_bytes "history"). change (word history_zero 1) with (as_bytes "0"). by tokens.
Qed.
End commands.

(** ** An example *)

#[local] Instance example_console_image : ConsoleImage := {|
  ci_park := 0x2000; ci_echo_main := 0x2100; ci_kv_main := 0x2200; ci_log_main := 0x2300; ci_fs_main := 0x2400; ci_dev_main := 0x2500; ci_sync_main := 0x2600;
  ci_fault := 0x2700; ci_stress := 0x2800; ci_timeslice_a := 0x2900; ci_timeslice_b := 0x2a00; ci_bench_sched := 0x2b00; ci_bench_contend := 0x2c00;
  ci_guarded := 0x2d00; ci_unguarded := 0x2e00;
  STRESS_DELIVERIES := 0x3000; COUNTER_A := 0x3008; COUNTER_B := 0x3010; BENCH_SCHED_COUNTER := 0x3018; BENCH_CONTEND_OBJ := 0x3020; BENCH_SYNC_COUNTER := 0x3028;
  ci_sizes := mkSizes 2600 1800 1300 152
|}.
Definition example_world : World := mkWorld (fun _ => None) (fun _ => []) None (fun _ => 0) (fun _ => []) (fun _ => 0).

Definition example_shell : ShellState (D := Model.Unit_) :=
  mkShellState History_new SystemSnapshot_new Dist_init (mkWatchState (replicate 1024 0) (replicate 1024 0) 0 0) (Model.mkUnit [] 0 0 (fun _ => 0)).

Lemma console_looks_witness :
  (exists reply, dispatch (L := example_layout) (B := example_blobs) (H := Model.unit_device) example_world 5 1 (as_bytes " cap  list") example_shell console_system =
    Ret (Done (reply, example_shell), console_system)) /\
  (exists reply, dispatch (L := example_layout) (B := example_blobs) (H := Model.unit_device) example_world 5 1 (as_bytes "cap foo") example_shell console_system =
    Ret (Done (reply, example_shell), console_system)) /\
  dispatch (L := example_layout) (B := example_blobs) (H := Model.unit_device) example_world 5 1 (as_bytes "arch cache-sim KUBSVMZZWTFDR 1 1") example_shell console_system = Panic.
Proof.
  destruct console_system_ok as (t & Hk & Ht).
  assert (lenN (tr_buffer (am_trace (k_amb console_system))) = TRACE_BUFFER_SIZE) as Htr by (vm_compute; reflexivity).
  split; [|split].
  - exact (console_looks (L := example_layout) (B := example_blobs) (H := Model.unit_device) example_world 5 0 (as_bytes " cap  list") example_shell console_system t
      Hk Ht Htr eq_refl eq_refl).
  - exact (console_looks (L := example_layout) (B := example_blobs) (H := Model.unit_device) example_world 5 0 (as_bytes "cap foo") example_shell console_system t
      Hk Ht Htr eq_refl eq_refl).
  - pose proof (console_looks (L := example_layout) (B := example_blobs) (H := Model.unit_device) example_world 5 0
      (as_bytes "arch cache-sim KUBSVMZZWTFDR 1 1") example_shell console_system t Hk Ht Htr eq_refl eq_refl) as Hp.
    replace (sim_fatal _ _ _ _ _) with true in Hp by (vm_compute; reflexivity). exact Hp.
Defined.
