(* ===== verification/BootTasks.v ===== *)
(** * Long-running tasks

    The tasks of [kernel/boot/main.rs] that drive the persistence, distribution
    and preemption demonstrations, the busy tasks they start, the faulting and
    stress tasks of [kernel/shell/mod.rs], and the console's own loop,
    [shell_main].  [wait_bounded]: whatever the other tasks do, the driver of the
    preemption demonstration waits for the busy tasks for a bounded number of
    turns. *)

From S2P Require Import Prelude Ring Text Preempt Trace Capability AuditTrail Message Machine Frames.
From S2P Require Import Task Scheduler Kernel Switch Scheduling Spawn Contexts Timer Toctou Ipc Rendezvous Messaging.
From S2P Require Import Authority Propagation Delegation Paging AddressSpace UserMemory Userspace Syscall Snapshot Dist.
From S2P Require Import Requests Safety Serial Console CommandLine Service Clients Apic Boot Reports Commands Demos Dispatch.
Local Open Scope N_scope.

Section tasks.
Context `{L : Layout}.

(** ** Persistence and distribution *)

(** [snapshot] and [registry] are the statics when the demonstration starts. *)
Definition task_persistence_demo (snapshot : Kernel -> SystemSnapshot) : R (option (bool * bool) * SystemSnapshot * bool) :=
  let+ _ := yields 3 in
  let+ snap := rlift (kget snapshot) in
  let+ (r, snap) := rlift (snapshot_demo 2 snap) in
  let+ b := rlift terminate_current_task in
  rret (r, snap, b).

Definition dist_scratch_task : R bool := rlift terminate_current_task.

Definition task_dist_demo (registry : Kernel -> Dist) : R (option (bool * option bool) * Dist * bool) :=
  let+ _ := yields 6 in
  let+ d := rlift (kget registry) in
  let+ (r, d) := rlift (dist_demo 1 DIST_BACKING DIST_REPLICA d) in
  let+ b := rlift terminate_current_task in
  rret (r, d, b).

(** ** Preemption *)

Definition BUSY_TICK_BUDGET : N := 12.

(** The addresses of [GO_BUSY], [BUSY_A_COUNT] and [BUSY_B_COUNT]. *)
Variables GO_BUSY BUSY_A_COUNT BUSY_B_COUNT : N.

(** [while !GO_BUSY.load() { yield_cpu(); }]. *)
Fixpoint await_go (fuel : nat) : R unit :=
  match fuel with
  | O => fun _ => OutOfFuel
  | S fuel' =>
      let+ go := rlift (atomic_load GO_BUSY) in
      if go =? 0 then let+ _ := yield_cpu in await_go fuel' else rret tt
  end.

(** [task_busy_a] and [task_busy_b], with the turns of their loop. *)
Definition task_busy (fuel : nat) (turns : Kernel -> list Turn) (count : N) : R bool :=
  let+ _ := await_go fuel in
  let+ _ := rlift (kmod (on_machine (on_cpu sti))) in
  let+ start := rlift ticks_now in
  let+ evs := rlift (kget turns) in
  let+ _ := rlift (count_loop evs BUSY_TICK_BUDGET count start) in
  rlift terminate_current_task.

(** [task_is_terminated(a) && task_is_terminated(b)]: the second test is skipped
    when the first fails. *)
Definition busy_finished : K bool :=
  let* a := task_is_terminated PREEMPT_BUSY_A in
  if a : bool then task_is_terminated PREEMPT_BUSY_B else kret false.

(** The bounded wait; [n] bounds the turns from above. *)
Fixpoint await_busy (n : nat) (guard : N) : R unit :=
  match n with
  | O => fun _ => OutOfFuel
  | S n' =>
      let+ finished := rlift busy_finished in
      if finished : bool then rret tt
      else
        let+ guard := rlift (klift (add64 guard 1)) in
        if 2000000 <? guard then rret tt else let+ _ := yield_cpu in await_busy n' guard
  end.

(** Both halves of the experiment and the lines around them. *)
Definition task_preempt_demo (n : nat) (turns1 turns2 : Kernel -> list Turn) : R (list Report * (Race * Race) * list Report * bool) :=
  let+ _ := yields 40 in
  let+ pre := rlift read_stats in
  let+ _ := rlift (arm true) in
  let+ _ := rlift (atomic_store GO_BUSY 1) in
  let+ _ := await_busy n 0 in
  let+ a := rlift (atomic_load BUSY_A_COUNT) in
  let+ b := rlift (atomic_load BUSY_B_COUNT) in
  let+ st := rlift read_stats in
  let before := [
    println "[preempt] preemptive scheduling." [];
    println "[preempt] timer mechanism live: {} ticks counted while unarmed (ISR runs, no switching)." [Num (st_ticks pre)];
    println "[preempt] arming involuntary preemption; launching two compute tasks that never yield..." [];
    if (0 <? a) && (0 <? b) && (0 <? st_preemptions st) then
      println "[preempt] PASS: both compute tasks progressed under the timer alone (A={}, B={}); {} involuntary switches. Cooperative scheduling could never have run B."
        [Num a; Num b; Num (st_preemptions st)]
    else println "[preempt] FAIL: time-slicing (A={}, B={}, preemptions={})." [Num a; Num b; Num (st_preemptions st)]] in
  let+ evs1 := rlift (kget turns1) in
  let+ evs2 := rlift (kget turns2) in
  let+ races := rlift (ipc_toctou_experiment evs1 evs2) in
  let+ _ := rlift (arm false) in
  let+ fin := rlift read_stats in
  let after := [
    println "[preempt] disarmed. totals: {} ticks, {} involuntary switches, {} deferred (non-preemptible/lock-held)."
      [Num (st_ticks fin); Num (st_preemptions fin); Num (st_deferred fin)]] in
  let+ switched := rlift terminate_current_task in
  rret (before, races, after, switched).

(** ** Tasks of the console *)

Definition fault_task_entry (fuel : nat) (frame : ExceptionFrame) : R bool :=
  let+ r := rlift (volatile_read frame 0x12345678) in
  match r with Some b => rret b | None => yield_forever fuel end.

Definition PING : list N := as_bytes "ping".

(** [sys_send_typed(0, Raw, 1, b"ping")], its result ignored. *)
Definition stress_send (fuel : nat) : R unit :=
  let+ _ := sys_send_typed fuel 0 (IpcTag_as_u16 Raw) 1 PING in rret tt.

(** [stress_worker_entry] before its loop, and one turn of the loop;
    [deliveries] is the address of [STRESS_DELIVERIES]. *)
Definition stress_start (fuel : nat) : R unit :=
  let+ o := rlift (peek_sched s_current_task_id) in
  let+ my_id := rlift (klift (match o with Some i => Ret i | None => Panic end)) in
  let+ _ := rlift (kmod (on_machine (on_cpu sti))) in
  if my_id mod 2 =? 1 then stress_send fuel else rret tt.

Definition stress_round (fuel : nat) (deliveries : N) : R unit :=
  let+ r := sys_receive_typed fuel in
  match r with
  | Ok _ => let+ _ := rlift (fetch_add deliveries 1) in stress_send fuel
  | Err _ => yield_cpu
  end.
End tasks.

(** ** The console *)

Section console.
Context `{L : Layout} `{B : Blobs} `{CI : ConsoleImage} `{LapicDevice D}.

(** The polls of the keyboard that found nothing; each gives the processor away. *)
Definition idle_polls (l : list (option N)) : nat := length (List.filter is_none l).

(** One turn of [shell_main]: the line read from [polls], what is printed after the
    prompt, and the state of the console; [line_buf] is the buffer of the turn
    before. *)
Definition shell_turn (W : World) (fuel depth : nat) (polls : list (option N)) (line_buf : list N) (st : ShellState (D := D))
  : R (list Report * list (option N) * list N * ShellState (D := D)) :=
  let+ o := rlift (klift (shell_command fuel (sh_history st) line_buf polls)) in
  match o with
  | None => fun _ => OutOfFuel
  | Some (line, hist, e, rest) =>
      let+ _ := yields (idle_polls (take (length polls - length rest) polls)) in
      if lenN line =? 0 then rret ([], rest, ed_buf e, st)
      else
        let typed := if utf8_valid line then [print_cmd "{}" [Str line]] else [] in
        let+ (reports, result, st) := dispatch W fuel depth line (set_sh_history hist st) in
        let failed := if is_ok result then [] else [print_fail "unrecoverable internal error" []] in
        rret (typed ++ reports ++ failed, rest, ed_buf e, st)
  end.
End console.

(** ** The wait is bounded *)

Section bounded.
Context `{L : Layout} (h : N) (cur : TaskId).

(** A computation of task [cur] that always ends, after giving up the processor at
    most [n] times; while it is away the other tasks may do anything sound. *)
Inductive within {A} : nat -> outcome (Res A * Kernel) -> Prop :=
| within_done n a k : running h cur k -> within n (Ret (Done a, k))
| within_paused n resume k :
    sound k -> (forall k', running h cur k' -> within n (resume k')) -> within (S n) (Ret (Paused resume, k)).

Lemma within_res_bind {A B} (f : A -> R B) n' n o :
  within n o -> (forall a k, running h cur k -> within n' (f a k)) ->
  within (n + n') (match o with Ret (r, k) => res_bind r f k | Panic => Panic | Hang => Hang | OutOfFuel => OutOfFuel end).
Proof.
  intros Ho Hf. induction Ho as [n a k Hk|n resume k Hk _ IH].
  - cbn [res_bind]. specialize (Hf a k Hk). clear Hk. induction n as [|n IHn]; [done|]. cbn [Nat.add].
    clear Hf. induction IHn as [m b k' Hk'|m resume k' Hk' _ IH']; [by apply within_done|by apply within_paused].
  - cbn [res_bind Nat.add]. apply within_paused; [done|exact IH].
Qed.

Lemma yield_within k : running h cur k -> within 1 (yield_cpu k).
Proof.
  intros Hk. destruct (yield_switch_sound h cur k Hk) as (b & k1 & Hy & Hk1). unfold yield_cpu. rewrite Hy. cbn [obind]. destruct b; [|by apply within_done].
  apply within_paused; [done|]. intros k' Hk'. by apply within_done, running_restore.
Qed.

(** The driver waits at most two million turns. *)
Lemma wait_bounded m : forall guard k, running h cur k -> guard + N.of_nat m = 2000000 -> within m (await_busy (S m) guard k).
Proof.
  assert (forall k, running h cur k -> busy_finished k = Ret (is_dead (k_sched k) PREEMPT_BUSY_A && is_dead (k_sched k) PREEMPT_BUSY_B, k)) as Hbusy.
  { intros k Hk. pose proof (so_wf _ (rn_sound _ _ _ Hk)) as Hwf. unfold busy_finished, kbind. rewrite task_is_terminated_run by done. cbn [obind].
    destruct (is_dead _ _); [by apply task_is_terminated_run|done]. }
  induction m as [|m IH]; intros guard k Hk Hg; cbn [await_busy]; rewrite (rbind_rlift _ _ _ _ _ (Hbusy k Hk)); (case_match; [by apply within_done|]);
    rewrite (rbind_rlift _ _ k (guard + 1) k) by (unfold klift; rewrite add64_ok by (unfold u64_limit; lia); done).
  - rewrite (proj2 (N.ltb_lt _ _)) by lia. by apply within_done.
  - rewrite (proj2 (N.ltb_ge _ _)) by lia. apply (within_res_bind _ m 1 _ (yield_within k Hk)). intros _ k' Hk'. apply (IH (guard + 1)); [done|lia].
Qed.
End bounded.
