(* ===== verification/Startup.v ===== *)
(** * From power-on to the console

    [_start], [init_smp] and [ap_entry] of [kernel/boot/main.rs] with what they
    call of [drivers/serial.rs], [memory/mod.rs], [arch/x86_64/] and
    [interrupts/mod.rs]: the serial port, the frame allocator, the descriptor
    tables, the other processors, the interrupt controller and the timer.
    Once started, the other processors run [ap_entry] beside the boot processor.
    [kernel_boots] follows the boot processor from power-on into the console, for
    every interleaving with the others. *)

From S2P Require Import Prelude Ring Text Preempt Trace Capability AuditTrail Message Machine Frames.
From S2P Require Import Task Scheduler Kernel Switch Scheduling Spawn Contexts Ipc Rendezvous Messaging.
From S2P Require Import Authority Propagation Delegation Paging AddressSpace UserMemory Userspace Syscall.
From S2P Require Import Serial Descriptors Apic Clients Toctou Boot Reports Listings.
Local Open Scope N_scope.

(** ** The machine *)

(** What the bootloader answers: whether it supports the revision, the number of
    the usable memory type, the memory map and the processors. *)
Record Bootloader : Type := mkBootloader {
  bl_supported : bool; bl_usable : N; bl_memmap : option (list MemmapEntry); bl_mp : option MpResponse
}.

(** The addresses of the entry stubs, of [TSSS[i]] and of [KERNEL_STACKS[i]]. *)
Record Image : Type := mkImage { im_handlers : Handlers; im_tss : N -> N; im_kstack : N -> N }.

(** The operations of [ap_entry] on another processor, with [println!] as the raising
    of the region depth, the write under the lock of the port, and the lowering. *)
Inductive ApOp : Type := ApGdt | ApIdt | ApEnter | ApWrite (r : Report) | ApExit | ApLapic | ApSti.

(** Another processor: its number, what it has still to do, its registers and its
    local APIC. *)
Record Ap (D : Type) : Type := mkAp { ap_id : N; ap_rest : list ApOp; ap_cpu : Cpu; ap_lapic : D }.
Arguments mkAp {D}.
Arguments ap_id {D}.
Arguments ap_rest {D}.
Arguments ap_cpu {D}.
Arguments ap_lapic {D}.

(** The ports, the tables, the local APIC of the boot processor, the processors it
    has started, the state in which the bootloader keeps each of the others, and the
    kernel.  [sy_schedule] says how the processors interleave: before its next
    operation the boot processor lets the others named by the first entry, in that
    order, do one operation each. *)
Record System (P D : Type) : Type := mkSystem {
  sy_ports : P; sy_gdt : Gdt; sy_idt : list IdtEntry; sy_lapic : D; sy_aps : list (Ap D); sy_parked : N -> Cpu * D;
  sy_schedule : list (list nat); sy_kernel : Kernel
}.
Arguments mkSystem {P D}.
Arguments sy_ports {P D}.
Arguments sy_gdt {P D}.
Arguments sy_idt {P D}.
Arguments sy_lapic {P D}.
Arguments sy_aps {P D}.
Arguments sy_parked {P D}.
Arguments sy_schedule {P D}.
Arguments sy_kernel {P D}.

Section startup.
Context `{L : Layout} `{BI : BootImage} `{PD : PortDevice P} `{LD : LapicDevice D} (im : Image).
Implicit Types (s : System P D).

Definition set_sy_ports (p : P) s : System P D := mkSystem p (sy_gdt s) (sy_idt s) (sy_lapic s) (sy_aps s) (sy_parked s) (sy_schedule s) (sy_kernel s).
Definition set_sy_gdt (g : Gdt) s : System P D := mkSystem (sy_ports s) g (sy_idt s) (sy_lapic s) (sy_aps s) (sy_parked s) (sy_schedule s) (sy_kernel s).
Definition set_sy_idt (i : list IdtEntry) s : System P D := mkSystem (sy_ports s) (sy_gdt s) i (sy_lapic s) (sy_aps s) (sy_parked s) (sy_schedule s) (sy_kernel s).
Definition set_sy_lapic (d : D) s : System P D := mkSystem (sy_ports s) (sy_gdt s) (sy_idt s) d (sy_aps s) (sy_parked s) (sy_schedule s) (sy_kernel s).
Definition set_sy_aps (l : list (Ap D)) s : System P D := mkSystem (sy_ports s) (sy_gdt s) (sy_idt s) (sy_lapic s) l (sy_parked s) (sy_schedule s) (sy_kernel s).
Definition set_sy_schedule (l : list (list nat)) s : System P D := mkSystem (sy_ports s) (sy_gdt s) (sy_idt s) (sy_lapic s) (sy_aps s) (sy_parked s) l (sy_kernel s).
Definition set_sy_kernel (k : Kernel) s : System P D := mkSystem (sy_ports s) (sy_gdt s) (sy_idt s) (sy_lapic s) (sy_aps s) (sy_parked s) (sy_schedule s) k.

Definition on_depth (f : PreemptState -> PreemptState) s : System P D := set_sy_kernel (on_preempt f (sy_kernel s)) s.

(** ** The other processors *)

(** The instructions at the end of [init_cpu]: the table, the data and code
    segments and the task register are loaded; the stack for entries from ring 3 is
    the one of the TSS. *)
Definition load_segments (rsp0 : N) (c : Cpu) : Cpu := set_tss_rsp0 rsp0 (set_r_ss KERNEL_DATA (set_r_cs KERNEL_CODE c)).

(** [init_cpu] but for its message. *)
Definition gdt_init_cpu (cpu_id : N) (g : Gdt) (c : Cpu) : outcome (Gdt * Cpu) :=
  let! g := init_cpu (im_tss im cpu_id) (im_kstack im cpu_id) cpu_id g in
  let! rsp0 := arr_get (gd_rsp0 g) cpu_id in
  Ret (g, load_segments rsp0 c).

Definition GDT_LINE : Report := println "GDT + TSS installed (kernel & user segments active)." [].
Definition IDT_LINE : Report := println "IDT installed: CPU exceptions are now caught." [].
Definition ap_line (cpu_id : N) : Report := println "[SMP] AP CPU {} successfully booted and waiting for IPIs." [Num cpu_id].

(** [ap_entry], until the processor waits for interrupts for ever. *)
Definition ap_println (r : Report) : list ApOp := [ApEnter; ApWrite r; ApExit].
Definition ap_entry (cpu_id : N) : list ApOp :=
  [ApGdt] ++ (if cpu_id =? 0 then ap_println GDT_LINE else []) ++
  [ApIdt] ++ ap_println IDT_LINE ++
  [ApLapic; ApSti] ++ ap_println (ap_line cpu_id).

Definition ap_do (op : ApOp) (ap : Ap D) s : outcome (Cpu * D * System P D) :=
  let c := ap_cpu ap in
  let d := ap_lapic ap in
  match op with
  | ApGdt => let! (g, c) := gdt_init_cpu (ap_id ap) (sy_gdt s) c in Ret (c, d, set_sy_gdt g s)
  | ApIdt => let! idt := init_idt (im_handlers im) (r_cs c) (sy_idt s) in Ret (c, d, set_sy_idt idt s)
  | ApEnter => Ret (c, d, on_depth enter_critical s)
  | ApWrite r => Ret (c, d, set_sy_ports (write_string SERIAL1 (report_text r) (sy_ports s)) s)
  | ApExit => Ret (c, d, on_depth exit_critical s)
  | ApLapic => Ret (c, enable_lapic d, s)
  | ApSti => Ret (sti c, d, s)
  end.

(** The next operation of processor [i] of those started; one that has done them all
    waits. *)
Definition ap_step (i : nat) s : outcome (System P D) :=
  match sy_aps s !! i with
  | Some ap =>
      match ap_rest ap with
      | op :: rest =>
          let! (c, d, s) := ap_do op ap s in
          Ret (set_sy_aps (<[i := mkAp (ap_id ap) rest c d]> (sy_aps s)) s)
      | [] => Ret s
      end
  | None => Ret s
  end.

(** What the others do before the next operation of the boot processor.  A message is
    one operation, as the lock of the port makes it; what else the boot processor does
    between two messages touches nothing the others use. *)
Definition meanwhile s : outcome (System P D) :=
  match sy_schedule s with
  | now :: later => for_each now ap_step (set_sy_schedule later s)
  | [] => Ret s
  end.

(** ** The boot processor *)

(** [println!]; nothing is redirected while the kernel boots. *)
Definition say (r : Report) s : outcome (System P D) :=
  let! s := meanwhile s in
  let! c := print_args [report_text r] (mkConsole (sy_ports s) None (am_preempt (k_amb (sy_kernel s)))) in
  Ret (set_sy_kernel (on_preempt (fun _ => co_preempt c) (sy_kernel s)) (set_sy_ports (co_device c) s)).

(** The port writes of the interrupt controller and the timer. *)
Definition outs (l : list (N * N)) s : System P D :=
  set_sy_ports (foldl (fun d w => outb w.1 w.2 d) (sy_ports s) l) s.

(** ** Memory *)

Definition memmap_line (e : MemmapEntry) : Report :=
  println "  Base: {:#x}, Length: {:#x}, Type: {}" [Num (mm_base e); Num (mm_length e); Num (mm_type e)].
Definition frames_line (fa : FrameAllocator) : Report :=
  println "Frame Allocator initialized. Usable start: {:#x}, end: {:#x}" [Num (next_free_paddr fa); Num (usable_end fa)].

Definition frames_entry (usable : N) (e : MemmapEntry) s : outcome (System P D) :=
  let! s := say (memmap_line e) s in
  let! fa := FrameAllocator_consider usable e (k_frames (sy_kernel s)) in
  Ret (set_sy_kernel (set_k_frames fa (sy_kernel s)) s).

(** [FRAME_ALLOCATOR.init()]. *)
Definition frames_init (bl : Bootloader) s : outcome (System P D) :=
  match bl_memmap bl with
  | Some entries =>
      let! s := say (println "Memory Map Entries:" []) s in
      let! s := for_each entries (frames_entry (bl_usable bl)) s in
      say (frames_line (k_frames (sy_kernel s))) s
  | None => say (println "ERROR: Memory map request failed!" []) s
  end.

(** ** Tables *)

(** [gdt::init()]. *)
Definition gdt_init s : outcome (System P D) :=
  let! (g, c) := gdt_init_cpu 0 (sy_gdt s) (k_cpu (sy_kernel s)) in
  say GDT_LINE (set_sy_kernel (on_machine (on_cpu (fun _ => c)) (sy_kernel s)) (set_sy_gdt g s)).

(** [init_idt()] on a processor whose code segment is [cs]. *)
Definition idt_init (cs : N) s : outcome (System P D) :=
  let! idt := init_idt (im_handlers im) cs (sy_idt s) in
  say IDT_LINE (set_sy_idt idt s).

(** ** Processors *)

Definition bsp_line (cpu : Processor) : Report :=
  println "[SMP] CPU {} is BSP (LAPIC ID {})." [Num (mp_processor_id cpu); Num (mp_lapic_id cpu)].
Definition booting_line (cpu : Processor) : Report :=
  println "[SMP] Booting CPU {} (LAPIC ID {})..." [Num (mp_processor_id cpu); Num (mp_lapic_id cpu)].
Definition detected_line (cpus : list Processor) : Report := println "[SMP] Detected {} CPU(s)." [Num (lenN cpus)].

(** [cpu.bootstrap(ap_entry, id)]: the processor leaves the bootloader for
    [ap_entry]. *)
Definition bootstrap (id : N) s : System P D :=
  let '(c, d) := sy_parked s id in set_sy_aps (sy_aps s ++ [mkAp id (ap_entry id) c d]) s.

Definition smp_cpu (cpu : Processor) s : outcome (System P D) :=
  let '(id, d) := lapic_id (sy_lapic s) in
  let s := set_sy_lapic d s in
  if mp_lapic_id cpu =? id then say (bsp_line cpu) s
  else
    let! s := say (booting_line cpu) s in
    Ret (bootstrap (mp_processor_id cpu) s).

Definition init_smp (bl : Bootloader) s : outcome (System P D) :=
  let s := set_sy_lapic (enable_lapic (sy_lapic s)) s in
  match bl_mp bl with
  | Some r =>
      let! s := say (detected_line (mp_cpus r)) s in
      for_each (mp_cpus r) smp_cpu s
  | None => say (println "[SMP] Warning: No MP response from Limine." []) s
  end.

(** ** [_start] *)

Definition SHELL_MODE : bool := true.

(** The boot processor halts for ever, or leaves for another task and, if it ever
    comes back, halts. *)
Inductive Booted : Type := Halted | Launched (r : Res unit).

Definition in_kernel (m : K unit) s : outcome (System P D) :=
  let! s := meanwhile s in
  let! (_, k) := m (sy_kernel s) in Ret (set_sy_kernel k s).

(** [sti] and the first [yield_cpu]. *)
Definition launch : R unit :=
  let+ _ := rlift (kmod (on_machine (on_cpu sti))) in yield_cpu.
Definition launched s : outcome (Booted * System P D) :=
  let! s := meanwhile s in
  let! (r, k) := launch (sy_kernel s) in Ret (Launched r, set_sy_kernel k s).

Definition start_timer s : outcome (System P D) :=
  let! s := meanwhile s in
  let s := outs init_pic s in
  let! w := init_pit 100 in
  Ret (outs w s).

Definition _start `{BL : Blobs} (bl : Bootloader) s : outcome (Booted * System P D) :=
  let! p := SerialPort_init SERIAL1 (sy_ports s) in
  let! s := say (println "RunixOS kernel initialized." []) (set_sy_ports p s) in
  if negb (bl_supported bl) then
    let! s := say (println "FATAL: Limine base revision not acknowledged. Halting." []) s in
    Ret (Halted, s)
  else
    let! s := frames_init bl s in
    let! s := gdt_init s in
    let! s := idt_init (r_cs (k_cpu (sy_kernel s))) s in
    let! s := init_smp bl s in
    if SHELL_MODE then
      let! s := start_timer s in
      let! s := in_kernel (do* kmod (on_preempt (set_armed false)) in load shell_main) s in
      let! s := say (println "SHELL MODE active. Launching scheduler..." []) s in
      launched s
    else
      let! s := in_kernel (
        let* cap_table_init := kcaps_new [minted Serial false true true] in
        let* init_task := spawn_init_task 1 cap_table_init in
        do* lock_sched in
        do* kmod (on_sched (put_slot 1 (Some init_task))) in
        do* unlock_sched in
        do* load_harness_demo in
        do* load_security_demo in
        do* load_watchdog_demo in
        do* load_persistence_demo in
        load_distribution_demo) s in
      let! s := start_timer s in
      let! s := in_kernel load_preemption_demo s in
      let! s := say (println "Microkernel tasks loaded. Launching scheduler..." []) s in
      launched s.
End startup.

(** ** Devices *)

(** A 16550 answers to its eight ports only. *)
Class OtherPorts (P : Type) `{Uart16550 P base} : Prop :=
  other_port p v (d : P) : p < base \/ base + 8 <= p -> same_lines d (outb p v d) /\ same_control d (outb p v d).

(** The identity of a local APIC does not change. *)
Class LapicIdent (D : Type) `{LapicDevice D} : Type := {
  lapic_ident : D -> N;
  ident_read d v d' : lapic_read 0x20 d = (v, d') -> N.shiftr v 24 = lapic_ident d /\ lapic_ident d' = lapic_ident d;
  ident_svr_read d v d' : lapic_read 0xF0 d = (v, d') -> lapic_ident d' = lapic_ident d;
  ident_svr_write v d : lapic_ident (lapic_write 0xF0 v d) = lapic_ident d
}.

(** ** What is printed *)

Definition texts (l : list Report) : list N := mjoin (report_text <$> l).

Definition cpu_line (ident : N) (cpu : Processor) : Report := if mp_lapic_id cpu =? ident then bsp_line cpu else booting_line cpu.
Definition smp_log (ident : N) (r : option MpResponse) : list Report :=
  match r with
  | Some r => detected_line (mp_cpus r) :: (cpu_line ident <$> mp_cpus r)
  | None => [println "[SMP] Warning: No MP response from Limine." []]
  end.

(** The processors the boot processor starts, and what they print. *)
Definition others_of (ident : N) (cpus : list Processor) : list N :=
  mp_processor_id <$> List.filter (fun cpu => negb (mp_lapic_id cpu =? ident)) cpus.
Definition others (ident : N) (r : option MpResponse) : list N := match r with Some r => others_of ident (mp_cpus r) | None => [] end.
Definition ap_log (ids : list N) : list Report := mjoin ((fun id => [IDT_LINE; ap_line id]) <$> ids).

(** What the boot processor prints. *)
Definition boot_log (entries : list MemmapEntry) (fa : FrameAllocator) (ident : N) (r : option MpResponse) : list Report :=
  [println "RunixOS kernel initialized." []; println "Memory Map Entries:" []] ++ (memmap_line <$> entries) ++
  [frames_line fa; GDT_LINE; IDT_LINE] ++ smp_log ident r ++ [println "SHELL MODE active. Launching scheduler..." []].


(** The messages still to come from another processor. *)
Definition writes (ops : list ApOp) : list Report := omap (fun op => match op with ApWrite r => Some r | _ => None end) ops.

(** The loading of the table, and [sti], are behind. *)
Definition past_gdt (ops : list ApOp) : bool := forallb (fun op => match op with ApGdt => false | _ => true end) ops.
Definition past_sti (ops : list ApOp) : bool := forallb (fun op => match op with ApSti => false | _ => true end) ops.

(** Of a log of messages with the processor that printed each ([None] is the boot
    processor), those of one processor. *)
Definition printed_by (who : option nat) (l : list (option nat * Report)) : list Report := (filter (fun x => x.1 = who) l).*2.

Lemma printed_by_app who l l' : printed_by who (l ++ l') = printed_by who l ++ printed_by who l'.
Proof. unfold printed_by. by rewrite filter_app, fmap_app. Qed.

Lemma printed_by_one who who' r : printed_by who [(who', r)] = if decide (who' = who) then [r] else [].
Proof. unfold printed_by. rewrite filter_cons, filter_nil. cbn [fst]. by case_decide. Qed.

Lemma texts_app l l' : texts (l ++ l') = texts l ++ texts l'.
Proof. unfold texts. by rewrite fmap_app, join_app. Qed.

(** Bytes on the line. *)
Definition bytes (l : list Report) : N := lenN (crlf (texts l)).

Lemma bytes_app l l' : bytes (l ++ l') = bytes l + bytes l'.
Proof. unfold bytes. by rewrite texts_app, crlf_app, lenN_app. Qed.

Lemma bytes_cons r l : bytes (r :: l) = bytes [r] + bytes l.
Proof. apply (bytes_app [r]). Qed.

(** The segments of a processor's table, and its TSS. *)
Definition row_ok (tss_base : N) (row : list N) : Prop :=
  segment_view <$> idx row (N.shiftr KERNEL_CODE 3) = Some (mkSegmentView true 0 true 0xa true) /\
  segment_view <$> idx row (N.shiftr KERNEL_DATA 3) = Some (mkSegmentView true 0 true 0x2 false) /\
  segment_view <$> idx row (N.shiftr USER_CODE 3) = Some (mkSegmentView true 3 true 0xa true) /\
  segment_view <$> idx row (N.shiftr USER_DATA 3) = Some (mkSegmentView true 3 true 0x2 false) /\
  exists lo hi, idx row (N.shiftr TSS_SELECTOR 3) = Some lo /\ idx row (N.shiftr TSS_SELECTOR 3 + 1) = Some hi /\
    tss_view_base lo hi = tss_base /\ tss_view_limit lo = TSS_SIZE - 1.

Definition image_ok (im : Image) : Prop := forall i, i < 4 -> im_tss im i < 2 ^ 64 /\ im_kstack im i + KSTACK_SIZE < u64_limit.
Definition stack_of (im : Image) (cpu : N) : N := N.ldiff (im_kstack im cpu + KSTACK_SIZE) 0xf.

(** A processor builds its own row and loads it. *)
Lemma gdt_init_cpu_spec im cpu g c :
  image_ok im -> gdt_ok g -> cpu < 4 ->
  exists g' row, gdt_init_cpu im cpu g c = Ret (g', load_segments (stack_of im cpu) c) /\ gdt_ok g' /\
    (forall i, idx (gd_tables g') i = if decide (cpu = i) then Some row else idx (gd_tables g) i) /\ row_ok (im_tss im cpu) row.
Proof.
  intros Him Hg Hcpu. destruct (Him cpu Hcpu) as [Ht Hk]. destruct (init_cpu_spec _ _ cpu g Hg Ht Hk Hcpu) as (g' & row & Hrun & Hg' & Hrows & Hrsp & Hrow).
  exists g', row. split; [|done]. unfold gdt_init_cpu. rewrite Hrun. cbn [obind]. rewrite (proj2 (arr_get_Ret _ _ _) Hrsp). done.
Qed.

(** The gate table with the handlers [h], for code segment [cs]. *)
Definition gates_of (h : Handlers) (cs : N) (idt : list IdtEntry) : Prop :=
  lenN idt = 256 /\
  forall v, v < 256 -> idx idt v = Some (match handler_of h v with
    | Some addr => IdtEntry_new addr cs (if v =? 0x80 then 3 else 0)
    | None => IdtEntry_empty
    end).

(** Installing the gates again changes nothing. *)
Lemma init_idt_again h cs idt : gates_of h cs idt -> init_idt h cs idt = Ret idt.
Proof.
  intros [Hl Hv].
  assert (forall v addr dpl, v < 256 -> handler_of h v = Some addr -> dpl = (if v =? 0x80 then 3 else 0) -> arr_set idt v (IdtEntry_new addr cs dpl) = Ret idt) as Hsame.
  { intros v addr dpl Hlt Ha ->. specialize (Hv v Hlt). rewrite Ha, idx_lookup in Hv. rewrite arr_set_ok by (by rewrite Hl).
    unfold upd. rewrite Hl, (proj2 (N.ltb_lt _ _) Hlt). by rewrite list_insert_id. }
  unfold init_idt, set_handler, set_handler_dpl. do 8 (rewrite Hsame by done; cbn [obind]). by apply Hsame.
Qed.


(** ** All processors *)

Section processors.
Context `{PD : PortDevice P} `{LD : LapicDevice D} `{U : !Uart16550 P 0x3F8} `{UL : !Uart16550Laws P} `{OP : !OtherPorts P}.
Context (im : Image) (Him : image_ok im) (d0 : P) (Hd0 : uart_dlab 0x3F8 d0 = false).
Implicit Types (s : System P D) (ap : Ap D).

(** The gates, and the table of the boot processor. *)
Definition tables_ok s : Prop :=
  gates_of (im_handlers im) KERNEL_CODE (sy_idt s) /\
  exists row, idx (gd_tables (sy_gdt s)) 0 = Some row /\ row_ok (im_tss im 0) row.

(** Processor [i] of those started is somewhere in [ap_entry]: it has printed what it
    had to so far; once past the loading of its table it runs in the kernel's code
    segment, with its own stack for entries from ring 3 and its own row of segments;
    once past [sti] its interrupts are enabled. *)
Record ap_ok (g : Gdt) (l : list (option nat * Report)) (i : nat) ap : Prop := {
  ao_id : 0 < ap_id ap < 4;
  ao_rest : ap_rest ap `suffix_of` ap_entry (ap_id ap);
  ao_lines : printed_by (Some i) l ++ writes (ap_rest ap) = [IDT_LINE; ap_line (ap_id ap)];
  ao_loaded : past_gdt (ap_rest ap) = true -> r_cs (ap_cpu ap) = KERNEL_CODE /\ tss_rsp0 (ap_cpu ap) = stack_of im (ap_id ap) /\
    exists row, idx (gd_tables g) (ap_id ap) = Some row /\ row_ok (im_tss im (ap_id ap)) row;
  ao_enabled : past_sti (ap_rest ap) = true -> interrupts_enabled (ap_cpu ap) = true
}.

Definition pending s : N := foldr (fun ap n => bytes (writes (ap_rest ap)) + n) 0 (sy_aps s).

(** The log [l] has been printed since the port was [d0], there is room for what the
    others have still to print and [n] bytes more, and the others are well. *)
Record alive (l : list (option nat * Report)) (n : N) s : Prop := {
  al_sent : transmits 0x3F8 (crlf (texts l.*2)) d0 (sy_ports s);
  al_room : bytes l.*2 + pending s + n <= uart_room 0x3F8 d0;
  al_count : ps_preempt_count (am_preempt (k_amb (sy_kernel s))) < u64_limit;
  al_who : forall i r, (Some i, r) ∈ l -> (i < length (sy_aps s))%nat;
  al_gdt : gdt_ok (sy_gdt s);
  al_tables : sy_aps s = [] \/ tables_ok s;
  al_aps : forall i ap, sy_aps s !! i = Some ap -> ap_ok (sy_gdt s) l i ap
}.

(** What the others may change while the boot processor is between two operations. *)
Record drifts s s' : Prop := {
  dr_lapic : sy_lapic s' = sy_lapic s;
  dr_parked : sy_parked s' = sy_parked s;
  dr_kernel : exists p, sy_kernel s' = on_preempt (fun _ => p) (sy_kernel s);
  dr_ids : ap_id <$> sy_aps s' = ap_id <$> sy_aps s;
  dr_tables : tables_ok s -> tables_ok s';
  dr_alone : sy_aps s = [] -> sy_gdt s' = sy_gdt s /\ sy_idt s' = sy_idt s
}.

Lemma on_preempt_same k : on_preempt (fun _ => am_preempt (k_amb k)) k = k.
Proof. by destruct k as [? ? [] ? ? ? ? ? ? ? ? ? ?]. Qed.

#[export] Instance drifts_preorder : PreOrder drifts.
Proof.
  split.
  - intros s. split; try done. exists (am_preempt (k_amb (sy_kernel s))). by rewrite on_preempt_same.
  - intros s1 s2 s3 [H1 H2 [p H3] H4 H5 H6] [H1' H2' [p' H3'] H4' H5' H6']. split; try congruence; [|auto|].
    + exists p'. rewrite H3', H3. done.
    + intros He. destruct (H6 He) as [<- <-]. apply H6'. rewrite He in H4. by destruct (sy_aps s2).
Qed.

Lemma pending_insert s i ap ap' :
  sy_aps s !! i = Some ap ->
  pending (set_sy_aps (<[i := ap']> (sy_aps s)) s) + bytes (writes (ap_rest ap)) = pending s + bytes (writes (ap_rest ap')).
Proof.
  unfold pending. cbn [sy_aps set_sy_aps]. revert i. induction (sy_aps s) as [|x l IH]; intros [|i]; cbn [lookup list_lookup]; try done.
  - intros [= ->]. cbn [insert list_insert foldr]. lia.
  - intros Hi. change (<[S i := ap']> (x :: l)) with (x :: <[i := ap']> l). cbn [foldr]. specialize (IH i Hi). lia.
Qed.

Lemma ids_insert (l : list (Ap D)) i ap rest c d : l !! i = Some ap -> ap_id <$> <[i := mkAp (ap_id ap) rest c d]> l = ap_id <$> l.
Proof. intros Hi. rewrite list_fmap_insert. cbn [ap_id]. apply list_insert_id. by rewrite list_lookup_fmap, Hi. Qed.

(** The log of an operation. *)
Definition op_log (i : nat) (op : ApOp) : list (option nat * Report) := match op with ApWrite r => [(Some i, r)] | _ => [] end.

Lemma writes_cons op rest : writes (op :: rest) = match op with ApWrite r => r :: writes rest | _ => writes rest end.
Proof. by destruct op. Qed.

(** The table is loaded first. *)
Lemma ap_entry_order id op rest : op :: rest `suffix_of` ap_entry id -> id <> 0 ->
  past_gdt rest = true /\ (past_gdt (op :: rest) = true \/ op = ApGdt).
Proof.
  intros [pre Hpre] Hid. unfold ap_entry, ap_println in Hpre. rewrite (proj2 (N.eqb_neq _ _) Hid) in Hpre. cbn [app] in Hpre.
  do 10 (destruct pre as [|? pre]; [injection Hpre as <- <-; split; [reflexivity|by (left; reflexivity) || right]|injection Hpre as _ Hpre; cbn [app] in Hpre]);
    by destruct pre.
Qed.

(** Rows of segments that were right stay right. *)
Definition rows_kept (g g' : Gdt) : Prop :=
  forall id, (exists row, idx (gd_tables g) id = Some row /\ row_ok (im_tss im id) row) ->
             exists row, idx (gd_tables g') id = Some row /\ row_ok (im_tss im id) row.

Lemma alive_tables l n s i ap : alive l n s -> sy_aps s !! i = Some ap -> tables_ok s.
Proof. intros Ha Hi. destruct (al_tables _ _ _ Ha) as [He|]; [|done]. by rewrite He in Hi. Qed.

(** A state in which one operation of another processor left the registers [c], as
    far as the rest of the system sees it. *)
Record op_done (i : nat) (id : N) (op : ApOp) (rest : list ApOp) s s1 (c : Cpu) : Prop := {
  od_aps : sy_aps s1 = sy_aps s;
  od_lapic : sy_lapic s1 = sy_lapic s;
  od_parked : sy_parked s1 = sy_parked s;
  od_kernel : exists p, sy_kernel s1 = on_preempt (fun _ => p) (sy_kernel s) /\ ps_preempt_count p < u64_limit;
  od_gdt : gdt_ok (sy_gdt s1);
  od_idt : sy_idt s1 = sy_idt s;
  od_rows : rows_kept (sy_gdt s) (sy_gdt s1);
  od_sent : transmits 0x3F8 (crlf (texts (op_log i op).*2)) (sy_ports s) (sy_ports s1);
  od_loaded : past_gdt rest = true -> r_cs c = KERNEL_CODE /\ tss_rsp0 c = stack_of im id /\
    exists row, idx (gd_tables (sy_gdt s1)) id = Some row /\ row_ok (im_tss im id) row;
  od_enabled : past_sti rest = true -> interrupts_enabled c = true
}.

Lemma sti_enables c : interrupts_enabled (sti c) = true.
Proof.
  unfold interrupts_enabled, sti. cbn [r_rflags set_r_rflags]. change IF_FLAG with (N.shiftl 1 9). rewrite land_bit, negb_involutive, N.lor_spec.
  apply orb_true_r.
Qed.

Lemma ap_do_spec l n s i ap op rest :
  alive l n s -> sy_aps s !! i = Some ap -> ap_rest ap = op :: rest ->
  exists c d s1, ap_do im op ap s = Ret (c, d, s1) /\ op_done i (ap_id ap) op rest s s1 c.
Proof.
  intros Ha Hi Hrest. pose proof (alive_tables _ _ _ _ _ Ha Hi) as [Hgates Hrow0]. pose proof Ha as [Hsent Hroom Hcount Hwho Hgdt _ Haps].
  destruct (Haps i ap Hi) as [[Hid0 Hid] Hsuf Hlines Hload Hsti]. rewrite Hrest in *.
  destruct (ap_entry_order _ _ _ Hsuf ltac:(lia)) as [Hpast Hop].
  assert (exists p, sy_kernel s = on_preempt (fun _ => p) (sy_kernel s) /\ ps_preempt_count p < u64_limit) as Hk.
  { exists (am_preempt (k_amb (sy_kernel s))). by rewrite on_preempt_same. }
  assert (forall s1, sy_gdt s1 = sy_gdt s -> rows_kept (sy_gdt s) (sy_gdt s1)) as Hkept by (intros s1 -> id H; exact H).
  assert (transmits 0x3F8 [] (sy_ports s) (sy_ports s)) as Hnil by apply transmits_nil.
  assert (forall m, wadd64 m 1 < u64_limit /\ wsub64 m 1 < u64_limit) as Hw by (intros m; split; by apply N.mod_lt).
  destruct op as [| | |r| | |]; cbn [ap_do].
  - destruct (gdt_init_cpu_spec im (ap_id ap) (sy_gdt s) (ap_cpu ap) Him Hgdt Hid) as (g & row & -> & Hg & Hrows & Hrow). cbn [obind].
    eexists _, _, _. split; [reflexivity|]. split; try done.
    + intros id (row' & Hr' & Hok'). cbn [sy_gdt set_sy_gdt]. setoid_rewrite Hrows. destruct (decide (ap_id ap = id)) as [<-|]; eauto.
    + intros _. split; [done|]. split; [done|]. exists row. cbn [sy_gdt set_sy_gdt]. by rewrite Hrows, decide_True.
  - destruct Hop as [Hop|]; [|done]. destruct (Hload Hop) as (Hcs & Hrest'). rewrite Hcs, (init_idt_again _ _ _ Hgates). cbn [obind].
    eexists _, _, _. split; [reflexivity|]. split; try done; try (by auto).
  - destruct Hop as [Hop|]; [|done]. eexists _, _, _. split; [reflexivity|]. split; try done; try (by auto).
    eexists. split; [reflexivity|]. apply Hw.
  - destruct Hop as [Hop|]; [|done]. eexists _, _, _. split; [reflexivity|]. split; try done; try (by auto).
    cbn [op_log fmap list_fmap snd sy_ports set_sy_ports]. unfold texts. cbn [fmap list_fmap mjoin list_join]. rewrite app_nil_r.
    apply (write_string_spec 0x3F8); [by rewrite (transmits_dlab _ _ _ _ Hsent)|]. apply (transmits_room _ (crlf (texts l.*2)) _ d0); [done|].
    pose proof (pending_insert s i ap (mkAp (ap_id ap) rest (ap_cpu ap) (ap_lapic ap)) Hi) as Hpi. rewrite Hrest in Hpi. cbn [ap_rest] in Hpi.
    rewrite writes_cons, bytes_cons in Hpi. unfold bytes in Hpi, Hroom. unfold texts in Hpi at 1. cbn [fmap list_fmap mjoin list_join] in Hpi.
    rewrite app_nil_r in Hpi. rewrite lenN_app. lia.
  - destruct Hop as [Hop|]; [|done]. eexists _, _, _. split; [reflexivity|]. split; try done; try (by auto).
    eexists. split; [reflexivity|]. apply Hw.
  - destruct Hop as [Hop|]; [|done]. eexists _, _, _. split; [reflexivity|]. split; try done; try (by auto).
  - destruct Hop as [Hop|]; [|done]. eexists _, _, _. split; [reflexivity|]. split; try done; try (by auto). intros _. apply sti_enables.
Qed.

(** One step of another processor, whichever and wherever it is. *)
Lemma ap_step_spec l n s i :
  alive l n s -> exists s' l', ap_step im i s = Ret s' /\ alive (l ++ l') n s' /\ printed_by None l' = [] /\ drifts s s'.
Proof.
  intros Ha. unfold ap_step. assert (exists s' l', Ret s = Ret s' /\ alive (l ++ l') n s' /\ printed_by None l' = [] /\ drifts s s') as Hstay.
  { exists s, []. by rewrite app_nil_r. }
  destruct (sy_aps s !! i) as [ap|] eqn:Hi; [|done]. destruct (ap_rest ap) as [|op rest] eqn:Hrest; [done|]. clear Hstay.
  destruct (ap_do_spec l n s i ap op rest Ha Hi Hrest) as (c & d & s1 & -> & [Haps Hlapic Hpark [p [Hker Hp]] Hg Hidt Hrows Hsent Hload Hsti]). cbn [obind].
  pose proof (alive_tables _ _ _ _ _ Ha Hi) as [Hgates Hrow0]. pose proof Ha as [Hs Hroom _ Hwho _ _ Hok].
  rewrite Haps. set (ap' := mkAp (ap_id ap) rest c d). set (s' := set_sy_aps _ s1).
  assert (tables_ok s') as Htab by (split; [cbn; by rewrite Hidt|exact (Hrows 0 Hrow0)]).
  assert (printed_by None (op_log i op) = []) as Hnone by (destruct op; try done; unfold op_log; by rewrite printed_by_one).
  exists s', (op_log i op). split; [done|]. split; [|split; [done|]].
  - split.
    + rewrite fmap_app, texts_app, crlf_app. by eapply transmits_trans.
    + rewrite fmap_app, bytes_app. pose proof (pending_insert s i ap ap' Hi) as Hpi. rewrite Hrest, writes_cons in Hpi. cbn [ap_rest ap'] in Hpi.
      change (pending s') with (pending (set_sy_aps (<[i := ap']> (sy_aps s)) s)).
      destruct op as [| | |r| | |]; cbn [op_log fmap list_fmap snd]; [| | |rewrite bytes_cons in Hpi| | |]; change (bytes []) with 0; lia.
    + cbn [sy_kernel set_sy_aps s']. rewrite Hker. exact Hp.
    + intros j r. cbn [sy_aps set_sy_aps s']. rewrite length_insert. intros [Hin|Hin]%elem_of_app; [by eapply Hwho|].
      destruct op; try (by apply elem_of_nil in Hin). apply list_elem_of_singleton in Hin. simplify_eq. by apply lookup_lt_is_Some_1.
    + done.
    + by right.
    + intros j ap2. cbn [sy_aps set_sy_aps s' sy_gdt]. intros Hj. destruct (decide (i = j)) as [<-|Hne].
      * rewrite list_lookup_insert_eq in Hj by (by apply lookup_lt_is_Some_1). injection Hj as <-.
        destruct (Hok i ap Hi) as [Hid Hsuf Hlines _ _]. rewrite Hrest in *. split; cbn [ap_id ap_rest ap_cpu ap']; try done.
        -- eapply suffix_cons_l. exact Hsuf.
        -- rewrite <- Hlines, printed_by_app, writes_cons, <- app_assoc. f_equal. destruct op; try done. unfold op_log. by rewrite printed_by_one, decide_True.
      * rewrite list_lookup_insert_ne in Hj by done. destruct (Hok j ap2 Hj) as [Hid Hsuf Hlines Hld Hst]. split; try done.
        -- rewrite <- Hlines, printed_by_app. f_equal. destruct op; try (by rewrite app_nil_r). unfold op_log. rewrite printed_by_one, decide_False by congruence.
           by rewrite app_nil_r.
        -- intros Hpast. destruct (Hld Hpast) as (H1 & H2 & H3). split; [done|]. split; [done|]. by apply Hrows.
  - split; cbn [sy_lapic sy_parked sy_kernel sy_aps sy_gdt sy_idt set_sy_aps s']; try done; [by exists p|by apply ids_insert|].
    intros He. by rewrite He in Hi.
Qed.

Lemma ap_steps_spec idxs : forall l n s,
  alive l n s -> exists s' l', for_each idxs (ap_step im) s = Ret s' /\ alive (l ++ l') n s' /\ printed_by None l' = [] /\ drifts s s'.
Proof.
  induction idxs as [|i idxs IH]; intros l n s Ha; cbn [for_each]; [exists s, []; by rewrite app_nil_r|].
  destruct (ap_step_spec l n s i Ha) as (s1 & l1 & -> & Ha1 & Hl1 & Hd1). cbn [obind]. destruct (IH _ _ _ Ha1) as (s2 & l2 & -> & Ha2 & Hl2 & Hd2).
  exists s2, (l1 ++ l2). rewrite app_assoc. split; [done|]. split; [done|]. split; [by rewrite printed_by_app, Hl1, Hl2|by etransitivity].
Qed.

(** The boot processor has printed [rs]. *)
Definition booted (rs : list Report) (n : N) s : Prop := exists l, printed_by None l = rs /\ alive l n s.

Lemma meanwhile_spec rs n s : booted rs n s -> exists s', meanwhile im s = Ret s' /\ booted rs n s' /\ drifts s s'.
Proof.
  intros (l & Hl & Ha). unfold meanwhile. destruct (sy_schedule s) as [|now later]; [exists s; split; [done|]; split; [by exists l|done]|].
  destruct (ap_steps_spec now l n (set_sy_schedule later s)) as (s' & l' & -> & Ha' & Hl' & [H1 H2 H3 H4 H5 H6]); [by destruct Ha|].
  exists s'. split; [done|]. split; [exists (l ++ l'); by rewrite printed_by_app, Hl', app_nil_r|by split].
Qed.

Lemma say_spec r rs n s : booted rs (bytes [r] + n) s ->
  exists s', say im r s = Ret s' /\ booted (rs ++ [r]) n s' /\ drifts s s'.
Proof.
  intros Hb. unfold say. destruct (meanwhile_spec rs _ s Hb) as (s1 & -> & (l & Hl & [Hs Hroom Hc Hwho Hg Ht Hok]) & Hd). cbn [obind].
  unfold print_args. cbn [co_redirect co_device co_preempt obind]. rewrite exit_enter_critical, on_preempt_same by done. cbn [foldl].
  eexists. split; [reflexivity|]. split; [|etransitivity; [exact Hd|]; split; try done; exists (am_preempt (k_amb (sy_kernel s1))); by rewrite on_preempt_same].
  exists (l ++ [(None, r)]). split; [by rewrite printed_by_app, Hl, printed_by_one, decide_True|].
  assert (bytes [r] = lenN (crlf (report_text r))) as Hr by (unfold bytes, texts; cbn [fmap list_fmap mjoin list_join]; by rewrite app_nil_r).
  split; cbn [sy_ports sy_aps sy_gdt sy_kernel set_sy_kernel set_sy_ports]; try done.
  - rewrite fmap_app, texts_app, crlf_app. eapply transmits_trans; [done|]. cbn [fmap list_fmap snd]. unfold texts. cbn [fmap list_fmap mjoin list_join]. rewrite app_nil_r.
    apply (write_string_spec 0x3F8); [by rewrite (transmits_dlab _ _ _ _ Hs)|]. eapply transmits_room; [done|]. rewrite lenN_app. unfold bytes in Hroom at 1. lia.
  - rewrite fmap_app, bytes_app. cbn [fmap list_fmap snd]. change (pending (set_sy_kernel _ _)) with (pending s1). lia.
  - intros i r' [Hin|Hin]%elem_of_app; [by eapply Hwho|]. by apply list_elem_of_singleton in Hin.
  - intros i ap Hi. destruct (Hok i ap Hi) as [H1 H2 H3 H4 H5]. split; try done. rewrite printed_by_app, printed_by_one, decide_False by done.
    by rewrite app_nil_r.
Qed.

(** *** Changes the boot processor makes *)

Lemma booted_kernel rs n s k : booted rs n s -> ps_preempt_count (am_preempt (k_amb k)) < u64_limit -> booted rs n (set_sy_kernel k s).
Proof. intros (l & Hl & []) Hk. exists l. split; [done|by split]. Qed.

Lemma booted_lapic rs n s d : booted rs n s -> booted rs n (set_sy_lapic d s).
Proof. intros (l & Hl & []). exists l. split; [done|by split]. Qed.

Lemma booted_gdt rs n s g : booted rs n s -> sy_aps s = [] -> gdt_ok g -> booted rs n (set_sy_gdt g s).
Proof. intros (l & Hl & []) He Hg. exists l. split; [done|]. split; try done; [by left|]. intros i ap. cbn. by rewrite He. Qed.

Lemma booted_idt rs n s i : booted rs n s -> sy_aps s = [] -> booted rs n (set_sy_idt i s).
Proof. intros (l & Hl & []) He. exists l. split; [done|]. split; try done. by left. Qed.

Lemma booted_count rs n s : booted rs n s -> ps_preempt_count (am_preempt (k_amb (sy_kernel s))) < u64_limit.
Proof. intros (l & _ & []). done. Qed.

Lemma outs_spec ws rs n s : booted rs n s -> Forall (fun w => w.1 < 0x3F8 \/ 0x3F8 + 8 <= w.1) ws -> booted rs n (outs ws s).
Proof.
  intros (l & Hl & [Hs ? ? ? ? ? ?]) Hws. exists l. split; [done|]. split; try done. unfold outs. cbn [sy_ports set_sy_ports]. revert Hs. generalize (sy_ports s) as d.
  induction Hws as [|[p v] ws Hp _ IH]; intros d Hs; [done|]. apply IH.
  destruct (other_port p v d Hp) as [(Ht & Hx & Hr) (H1 & H2 & H3)], Hs as [Ht0 Hr0 Hx0 (H4 & H5 & H6)]. cbn [fst snd].
  split; [congruence|lia|congruence|repeat split; congruence].
Qed.

Lemma start_timer_spec rs n s : booted rs n s -> exists s' p, start_timer im s = Ret (set_sy_ports p s') /\ booted rs n (set_sy_ports p s') /\ drifts s s'.
Proof.
  intros Hb. unfold start_timer. destruct (meanwhile_spec rs n s Hb) as (s1 & -> & Hb1 & Hd). cbn [obind]. rewrite init_pit_100. cbn [obind].
  eexists s1, _. split; [reflexivity|]. split; [|exact Hd].
  apply (outs_spec _ _ _ (outs init_pic s1)); [apply outs_spec; [done|]|]; repeat constructor; cbn; lia.
Qed.

(** Before other processors run, the tables are the boot processor's. *)
Lemma drifts_alone s s' : drifts s s' -> sy_aps s = [] ->
  sy_aps s' = [] /\ sy_gdt s' = sy_gdt s /\ sy_idt s' = sy_idt s /\ sy_lapic s' = sy_lapic s.
Proof. intros [H1 _ _ H4 _ H6] He. rewrite He in H4. destruct (H6 He). destruct (sy_aps s'); [done|discriminate]. Qed.

(** *** Starting a processor *)

Lemma writes_entry id : 0 < id -> writes (ap_entry id) = [IDT_LINE; ap_line id].
Proof. intros Hid. unfold ap_entry. by rewrite (proj2 (N.eqb_neq _ _)) by lia. Qed.

Lemma bootstrap_spec id rs n s :
  booted rs (bytes [IDT_LINE; ap_line id] + n) s -> tables_ok s -> 0 < id < 4 ->
  booted rs n (bootstrap id s) /\ ap_id <$> sy_aps (bootstrap id s) = (ap_id <$> sy_aps s) ++ [id].
Proof.
  intros (l & Hl & [Hs Hroom Hc Hwho Hg _ Hok]) Ht Hid. unfold bootstrap. destruct (sy_parked s id) as [c d].
  split; [|cbn [sy_aps set_sy_aps]; by rewrite fmap_app]. exists l. split; [done|].
  assert (pending (set_sy_aps (sy_aps s ++ [mkAp id (ap_entry id) c d]) s) = pending s + bytes [IDT_LINE; ap_line id]) as Hp.
  { unfold pending. cbn [sy_aps set_sy_aps]. clear -Hid. induction (sy_aps s) as [|x aps IH]; cbn [app foldr]; [cbn [ap_rest]; rewrite writes_entry by lia; lia|].
    rewrite IH. lia. }
  split; cbn [sy_ports sy_aps sy_gdt sy_kernel set_sy_aps]; try done.
  - rewrite Hp. lia.
  - intros i r Hin. rewrite length_app. apply Hwho in Hin. lia.
  - by right.
  - intros i ap [Hi|[Hlen Hi]]%lookup_app_Some; [by apply Hok|]. apply list_lookup_singleton_Some in Hi as [Hz <-].
    assert (printed_by (Some i) l = []) as Hno.
    { unfold printed_by. destruct (filter _ l) as [|[who r] f] eqn:Hf; [done|exfalso].
      assert ((who, r) ∈ filter (fun x => x.1 = Some i) l) as [Hw Hin]%list_elem_of_filter by (rewrite Hf; by left).
      cbn in Hw. subst who. apply Hwho in Hin. lia. }
    split; cbn [ap_id ap_rest ap_cpu]; try done; [by rewrite Hno, writes_entry by lia|unfold ap_entry..]; by rewrite (proj2 (N.eqb_neq _ _)) by lia.
Qed.

(** ** The steps of the boot processor *)

Context `{L : Layout} `{BI : BootImage} `{LI : !LapicIdent D}.

(** The kernel before there are tasks: nothing has happened since [k0] but the choice
    of the frames. *)
Record early (k0 : Kernel) (fa : FrameAllocator) (k : Kernel) : Prop := {
  ea_wf : kernel_wf k;
  ea_stack : on_boot_stack k;
  ea_idle : s_current_task_id (k_sched k) = None;
  ea_empty : forall j, task_slot (k_sched k) j = None;
  ea_frames : k_frames k = fa;
  ea_next : am_next_cap_id (k_amb k) = am_next_cap_id (k_amb k0)
}.

Lemma early_preempt k0 fa k f : early k0 fa k -> early k0 fa (on_preempt f k).
Proof. intros [[] ? ? ? ? ?]. by split. Qed.

Lemma early_drifts k0 fa s s' : drifts s s' -> early k0 fa (sy_kernel s) -> early k0 fa (sy_kernel s').
Proof. intros [_ _ [p ->] _ _ _]. apply early_preempt. Qed.

Lemma frames_loop k0 usable fa entries : forall rs n s fa0,
  early k0 fa0 (sy_kernel s) -> for_each entries (FrameAllocator_consider usable) fa0 = Ret fa ->
  booted rs (bytes (memmap_line <$> entries) + n) s -> sy_aps s = [] ->
  exists s', for_each entries (frames_entry im usable) s = Ret s' /\ booted (rs ++ (memmap_line <$> entries)) n s' /\ early k0 fa (sy_kernel s') /\
    sy_aps s' = [] /\ sy_gdt s' = sy_gdt s /\ sy_idt s' = sy_idt s /\ sy_lapic s' = sy_lapic s.
Proof.
  induction entries as [|e entries IH]; intros rs n s fa0 He Hf Hb Halone.
  - injection Hf as <-. exists s. rewrite app_nil_r. split; [done|]. split; [exact Hb|]. done.
  - cbn [for_each fmap list_fmap] in *. rewrite bytes_cons, <- N.add_assoc in Hb.
    destruct (say_spec _ _ _ s Hb) as (s1 & Hsay & Hb1 & Hd1). pose proof (early_drifts _ _ _ _ Hd1 He) as He1. destruct (drifts_alone _ _ Hd1 Halone) as (Ha1 & Hg1 & Hi1 & Hl1).
    destruct (FrameAllocator_consider usable e fa0) as [fa1| | |] eqn:Hc; try done. cbn [obind] in Hf.
    unfold frames_entry at 1. rewrite Hsay. cbn [obind]. rewrite (ea_frames _ _ _ He1), Hc. cbn [obind]. set (s2 := set_sy_kernel _ s1).
    destruct (IH (rs ++ [memmap_line e]) n s2 fa1) as (s' & Hrun & Hb' & He' & Ha' & Hg' & Hi' & Hl').
    + destruct He1 as [[] ? ? ? ? ?]. by split.
    + done.
    + apply booted_kernel; [done|]. exact (booted_count _ _ _ Hb1).
    + done.
    + exists s'. rewrite <- app_assoc in Hb'. split; [exact Hrun|]. split; [exact Hb'|]. split; [done|]. split; [done|].
      split; [by rewrite Hg'|]. split; [by rewrite Hi'|by rewrite Hl'].
Qed.

Lemma lapic_id_spec (d : D) : exists d', lapic_id d = (lapic_ident d, d') /\ lapic_ident d' = lapic_ident d.
Proof.
  unfold lapic_id. destruct (lapic_read 0x20 d) as [v d'] eqn:Hr. destruct (ident_read _ _ _ Hr) as [<- Hd]. by exists d'.
Qed.

Lemma enable_lapic_ident (d : D) : lapic_ident (enable_lapic d) = lapic_ident d.
Proof. unfold enable_lapic. destruct (lapic_read 0xF0 d) as [v d'] eqn:Hr. rewrite ident_svr_write. by eapply ident_svr_read. Qed.

(** The bring-up so far: the tables are right, the kernel is as it was, and exactly
    the processors [ids] have been started. *)
Record brought_up (k0 : Kernel) (fa : FrameAllocator) (ident : N) (ids : list N) s : Prop := {
  bu_tables : tables_ok s;
  bu_early : early k0 fa (sy_kernel s);
  bu_ident : lapic_ident (sy_lapic s) = ident;
  bu_ids : ap_id <$> sy_aps s = ids
}.

Lemma brought_up_drifts k0 fa ident ids s s' : drifts s s' -> brought_up k0 fa ident ids s -> brought_up k0 fa ident ids s'.
Proof.
  intros Hd [Ht He Hi Ha]. pose proof (early_drifts _ _ _ _ Hd He) as He'. destruct Hd as [Hl _ _ Hids Htab _]. split; [auto|done|by rewrite Hl|by rewrite Hids].
Qed.

Lemma smp_loop k0 fa ident cpus : forall rs n ids s,
  booted rs (bytes (cpu_line ident <$> cpus) + bytes (ap_log (others_of ident cpus)) + n) s -> brought_up k0 fa ident ids s ->
  Forall (fun id => 0 < id < 4) (others_of ident cpus) ->
  exists s', for_each cpus (smp_cpu im) s = Ret s' /\ booted (rs ++ (cpu_line ident <$> cpus)) n s' /\
    brought_up k0 fa ident (ids ++ others_of ident cpus) s'.
Proof.
  induction cpus as [|cpu cpus IH]; intros rs n ids s Hb Hu Hids.
  - exists s. rewrite !app_nil_r. split; [done|]. split; [exact Hb|done].
  - cbn [for_each fmap list_fmap] in *. rewrite bytes_cons in Hb. unfold smp_cpu at 1. pose proof Hu as [Ht He Hi Ha].
    destruct (lapic_id_spec (sy_lapic s)) as (d & -> & Hd). rewrite Hi in *. set (s0 := set_sy_lapic d s).
    assert (booted rs (bytes [cpu_line ident cpu] + (bytes (cpu_line ident <$> cpus) + bytes (ap_log (others_of ident (cpu :: cpus))) + n)) s0) as Hb0.
    { apply booted_lapic. by rewrite !N.add_assoc in *. }
    assert (brought_up k0 fa ident ids s0) as Hu0 by by split.
    destruct (say_spec _ _ _ s0 Hb0) as (s1 & Hsay & Hb1 & Hd1). pose proof (brought_up_drifts _ _ _ _ _ _ Hd1 Hu0) as Hu1.
    unfold cpu_line at 1 in Hsay. unfold others_of, ap_log in Hb1, Hids |- *. cbn [List.filter] in *. destruct (mp_lapic_id cpu =? ident) eqn:Hcpu; cbn [negb fmap list_fmap] in *.
    + rewrite Hsay. cbn [obind]. destruct (IH _ _ _ s1 Hb1 Hu1 Hids) as (s' & Hrun & Hb' & Hu'). exists s'. rewrite <- app_assoc in Hb'. done.
    + rewrite Hsay. cbn [obind]. apply Forall_cons in Hids as [Hid Hids]. cbn [mjoin list_join] in Hb1. rewrite bytes_app in Hb1.
      set (id := mp_processor_id cpu) in *. set (m := bytes (cpu_line ident <$> cpus) + bytes (ap_log (others_of ident cpus)) + n).
      destruct (bootstrap_spec id (rs ++ [cpu_line ident cpu]) m s1) as [Hb2 Hids2]; [|apply Hu1|done|].
      { replace (bytes [IDT_LINE; ap_line id] + m) with
          (bytes (cpu_line ident <$> cpus) + (bytes [IDT_LINE; ap_line id] + bytes (ap_log (others_of ident cpus))) + n) by (unfold m; lia). exact Hb1. }
      assert (brought_up k0 fa ident (ids ++ [id]) (bootstrap id s1)) as Hu2.
      { destruct Hu1 as [Ht1 He1 Hi1 Ha1]. rewrite Ha1 in Hids2. unfold bootstrap in *. destruct (sy_parked s1 id). by split. }
      destruct (IH _ _ _ _ Hb2 Hu2 Hids) as (s' & Hrun & Hb' & Hu'). exists s'. rewrite <- !app_assoc in Hb', Hu'. done.
Qed.

Lemma init_smp_spec bl k0 fa ident rs n s :
  booted rs (bytes (smp_log ident (bl_mp bl)) + bytes (ap_log (others ident (bl_mp bl))) + n) s -> brought_up k0 fa ident [] s ->
  Forall (fun id => 0 < id < 4) (others ident (bl_mp bl)) ->
  exists s', init_smp im bl s = Ret s' /\ booted (rs ++ smp_log ident (bl_mp bl)) n s' /\ brought_up k0 fa ident (others ident (bl_mp bl)) s'.
Proof.
  intros Hb Hu Hids. unfold init_smp. set (s1 := set_sy_lapic _ s).
  assert (brought_up k0 fa ident [] s1) as Hu1 by (destruct Hu as [? ? <- ?]; split; [done..|apply enable_lapic_ident|done]).
  destruct (bl_mp bl) as [r|]; cbn [smp_log others] in *.
  - rewrite bytes_cons, <- !N.add_assoc in Hb. destruct (say_spec _ _ _ s1 (booted_lapic _ _ _ _ Hb)) as (s2 & -> & Hb2 & Hd2). cbn [obind].
    rewrite N.add_assoc in Hb2. destruct (smp_loop _ _ _ _ _ _ _ _ Hb2 (brought_up_drifts _ _ _ _ _ _ Hd2 Hu1) Hids) as (s' & Hrun & Hb' & Hu').
    exists s'. rewrite <- app_assoc in Hb'. done.
  - rewrite <- N.add_assoc in Hb. destruct (say_spec _ _ _ s1 (booted_lapic _ _ _ _ Hb)) as (s2 & -> & Hb2 & Hd2). exists s2. split; [done|].
    split; [exact Hb2|by eapply brought_up_drifts].
Qed.

(** *** Memory and tables *)

Lemma frames_init_spec bl entries fa k0 rs n s :
  early k0 FrameAllocator_new (sy_kernel s) -> bl_memmap bl = Some entries ->
  FrameAllocator_init (bl_usable bl) FrameAllocator_new (Some entries) = Ret fa ->
  booted rs (bytes [println "Memory Map Entries:" []] + (bytes (memmap_line <$> entries) + (bytes [frames_line fa] + n))) s -> sy_aps s = [] ->
  exists s', frames_init im bl s = Ret s' /\
    booted (((rs ++ [println "Memory Map Entries:" []]) ++ (memmap_line <$> entries)) ++ [frames_line fa]) n s' /\ early k0 fa (sy_kernel s') /\
    sy_aps s' = [] /\ sy_gdt s' = sy_gdt s /\ sy_idt s' = sy_idt s /\ sy_lapic s' = sy_lapic s.
Proof.
  intros He Hmm Hfa Hb Ha. unfold frames_init. rewrite Hmm. destruct (say_spec _ _ _ _ Hb) as (s2 & -> & Hb2 & Hd2). cbn [obind].
  destruct (drifts_alone _ _ Hd2 Ha) as (Ha2 & Hg2 & Hi2 & Hl2). pose proof (early_drifts _ _ _ _ Hd2 He) as He2.
  destruct (frames_loop _ (bl_usable bl) fa entries _ _ _ _ He2 Hfa Hb2 Ha2) as (s3 & -> & Hb3 & He3 & Ha3 & Hg3 & Hi3 & Hl3). cbn [obind].
  rewrite (ea_frames _ _ _ He3). destruct (say_spec _ _ _ _ Hb3) as (s4 & -> & Hb4 & Hd4).
  destruct (drifts_alone _ _ Hd4 Ha3) as (Ha4 & Hg4 & Hi4 & Hl4). pose proof (early_drifts _ _ _ _ Hd4 He3) as He4.
  exists s4. split; [done|]. split; [done|]. split; [done|]. split; [done|]. split; [congruence|]. split; congruence.
Qed.

Lemma tables_init_spec k0 fa ident rs n s :
  early k0 fa (sy_kernel s) -> booted rs (bytes [GDT_LINE] + (bytes [IDT_LINE] + n)) s ->
  sy_aps s = [] -> sy_gdt s = Gdt_init -> sy_idt s = IDT_new -> lapic_ident (sy_lapic s) = ident ->
  exists s1 s', gdt_init im s = Ret s1 /\ idt_init im (r_cs (k_cpu (sy_kernel s1))) s1 = Ret s' /\
    booted ((rs ++ [GDT_LINE]) ++ [IDT_LINE]) n s' /\ brought_up k0 fa ident [] s'.
Proof.
  intros He Hb Ha Hg Hi Hl. unfold gdt_init. rewrite Hg.
  destruct (gdt_init_cpu_spec im 0 Gdt_init (k_cpu (sy_kernel s)) Him Gdt_init_ok) as (g & row & -> & Hgok & Hrows & Hrow); [done|]. cbn [obind].
  set (k4 := on_machine _ (sy_kernel s)). assert (early k0 fa k4) as He5 by (destruct He as [[] [] ? ? ? ?]; by split; [split|split|..]).
  pose proof (booted_kernel _ _ _ k4 (booted_gdt _ _ _ g Hb Ha Hgok) (booted_count _ _ _ Hb)) as Hb5. set (s5 := set_sy_kernel k4 _) in *.
  destruct (say_spec _ _ _ _ Hb5) as (s6 & -> & Hb6 & Hd6). destruct (drifts_alone _ _ Hd6 Ha) as (Ha6 & Hg6 & Hi6 & Hl6).
  pose proof (early_drifts _ _ _ _ Hd6 He5) as He6. assert (r_cs (k_cpu (sy_kernel s6)) = KERNEL_CODE) as Hcs by by destruct Hd6 as [_ _ [p ->] _ _ _].
  exists s6. rewrite Hcs. unfold idt_init. rewrite Hi6. change (sy_idt s5) with (sy_idt s). rewrite Hi.
  destruct (init_idt_gates (im_handlers im) KERNEL_CODE) as (idt & -> & Hgates). cbn [obind].
  pose proof (booted_idt _ _ _ idt Hb6 Ha6) as Hb7. set (s7 := set_sy_idt idt s6) in *.
  assert (brought_up k0 fa ident [] s7) as Hu7.
  { split; [split; [done|]; exists row; cbn [sy_gdt s7 set_sy_idt]; rewrite Hg6; cbn; by rewrite Hrows|done| |by cbn [sy_aps s7 set_sy_idt]; rewrite Ha6].
    cbn [sy_lapic s7 set_sy_idt]. by rewrite Hl6. }
  destruct (say_spec _ _ _ _ Hb7) as (s8 & -> & Hb8 & Hd8). exists s8. split; [done|]. split; [done|]. split; [done|by eapply brought_up_drifts].
Qed.

(** The console is loaded: the only task, ready, with its first frame on its stack. *)
Record console_loaded (k0 : Kernel) (fa : FrameAllocator) (k : Kernel) : Prop := {
  cl_wf : kernel_wf k;
  cl_idle : s_current_task_id (k_sched k) = None;
  cl_stack : on_boot_stack k;
  cl_frames : k_frames k = fa;
  cl_task : exists ka, let t := fresh_task SHELL (front (root_table (am_next_cap_id (k_amb k0)))) ka in
    forall j, task_slot (k_sched k) j = if decide (SHELL = j) then Some t else None;
  cl_frame : exists c, holds_words (k_mem k) (stack_hi SHELL - 72) (frame_words (fresh_cpu shell_main c) kernel_task_trampoline)
}.

(** The console is the only task; it runs, with the root capabilities, about to
    enter [shell_main] on its own stack with interrupts enabled. *)
Definition console_runs (k k' : Kernel) : Prop :=
  exists t, s_current_task_id (k_sched k') = Some SHELL /\
    (forall j, task_slot (k_sched k') j = if decide (SHELL = j) then Some t else None) /\
    t_state t = Running /\ t_cap_table t = front (root_table (am_next_cap_id (k_amb k))) /\
    r_rip (k_cpu k') = kernel_task_trampoline /\
    let c := mc_cpu (run_trampoline (k_machine k')) in
    r_rip c = shell_main /\ interrupts_enabled c = true /\ r_rsp c = t_kstack_top t - 8.

Lemma load_loads k0 fa k :
  early k0 fa k -> stacks_fit ->
  exists k1, (do* kmod (on_preempt (set_armed false)) in load shell_main) k = Ret (tt, k1) /\
    ps_preempt_count (am_preempt (k_amb k1)) = ps_preempt_count (am_preempt (k_amb k)) /\ console_loaded k0 fa k1.
Proof.
  intros [Hk Hst Hid Hem Hfr Hnx] Hfit. unfold kbind, kmod. cbn [obind]. set (k2 := on_preempt (set_armed false) k).
  assert (kernel_wf k2) as Hk2 by by destruct Hk. destruct (load_spec shell_main k2 Hk2 Hfit) as (a & Ha & Hload).
  eexists. split; [exact Hload|]. set (ct := front _) in *. set (ka := set_k_amb a k2) in *. assert (kernel_wf ka) as Hka by by destruct Hk2.
  split; [change (k_amb (placed SHELL shell_main ct ka)) with a; by rewrite Ha|]. split; try done.
  - apply placed_wf; [done|by apply front_wf; simpl; lia|done].
  - exists ka. cbv zeta. rewrite <- Hnx. intros j. rewrite placed_slot by (done || apply Hka). case_decide; [done|]. apply Hem.
  - exists (k_cpu k). apply kernel_frame_words.
Qed.

Lemma console_loaded_drifts k0 fa s s' : drifts s s' -> console_loaded k0 fa (sy_kernel s) -> console_loaded k0 fa (sy_kernel s').
Proof. intros [_ _ [p ->] _ _ _] [[] ? ? ? ? ?]. by split. Qed.

Lemma launch_runs k0 fa k :
  console_loaded k0 fa k -> stacks_fit ->
  exists resume k', launch k = Ret (Paused resume, k') /\ kernel_wf k' /\ k_frames k' = fa /\ console_runs k0 k'.
Proof.
  intros [Hk Hid Hst Hfr [ka Hslot] [c Hw]] Hfit. unfold launch. rewrite (rbind_rlift (kmod _) _ _ _ _ eq_refl). set (k2 := on_machine (on_cpu sti) k).
  cbv zeta in Hslot. set (t := fresh_task SHELL _ ka) in *. assert (kernel_wf k2) as Hk2 by by apply cli_kernel_wf.
  destruct (first_switch k2 SHELL t c shell_main Hk2 Hfit eq_refl Hid Hslot eq_refl eq_refl Hst Hw) as (f & k1 & Hy & Hs & Hl & Hau & Hfr1 & Hres).
  exists f, k1. split; [done|]. split; [split; [rewrite Hs; apply handoff_wf; [done|apply Hk2]|done|rewrite Hau; apply Hk2]|]. split; [by rewrite Hfr1|].
  destruct (trampoline_enters _ _ _ _ Hres) as (H1 & H2 & H3). exists (set_t_state Running t). split; [by rewrite Hs|].
  split; [|split_and!; try done; apply Hres]. intros j. rewrite Hs, handoff_slot by done. change (k_sched k2) with (k_sched k). rewrite Hslot. repeat case_decide; done.
Qed.
End processors.

(** ** Boot *)

Section boot.
Context `{L : Layout} `{BI : BootImage} `{BL : Blobs} `{PD : PortDevice P} `{LD : LapicDevice D}.
Context `{U : !Uart16550 P 0x3F8} `{UL : !Uart16550Laws P} `{OP : !OtherPorts P} `{LI : !LapicIdent D}.

(** The machine when [_start] is entered: empty tables, no task, the boot stack, the
    other processors in the bootloader.  Nothing is said of the schedule. *)
Record power_on (s : System P D) : Prop := {
  po_gdt : sy_gdt s = Gdt_init;
  po_idt : sy_idt s = IDT_new;
  po_aps : sy_aps s = [];
  po_frames : k_frames (sy_kernel s) = FrameAllocator_new;
  po_count : ps_preempt_count (am_preempt (k_amb (sy_kernel s))) < u64_limit;
  po_kernel : kernel_wf (sy_kernel s);
  po_stack : on_boot_stack (sy_kernel s);
  po_idle : s_current_task_id (k_sched (sy_kernel s)) = None;
  po_empty : forall j, task_slot (k_sched (sy_kernel s)) j = None
}.

(** The transmitter has room for [log] once the port is initialised. *)
Definition room_for (log : list Report) (s : System P D) : Prop :=
  forall p, SerialPort_init SERIAL1 (sy_ports s) = Ret p -> bytes log <= uart_room 0x3F8 p.

Lemma boot_log_bytes entries fa ident r :
  bytes (boot_log entries fa ident r ++ ap_log (others ident r)) =
  bytes [println "RunixOS kernel initialized." []] + (bytes [println "Memory Map Entries:" []] + (bytes (memmap_line <$> entries) +
  (bytes [frames_line fa] + (bytes [GDT_LINE] + (bytes [IDT_LINE] +
  (bytes (smp_log ident r) + bytes (ap_log (others ident r)) + (bytes [println "SHELL MODE active. Launching scheduler..." []] + 0))))))).
Proof.
  unfold boot_log. rewrite !bytes_app. rewrite (bytes_cons (println "RunixOS kernel initialized." [])), (bytes_cons (frames_line fa)), (bytes_cons GDT_LINE). lia.
Qed.


(** Nobody else runs before processors are started. *)
Lemma meanwhile_alone im (s : System P D) : sy_aps s = [] -> meanwhile im s = Ret (set_sy_schedule (tail (sy_schedule s)) s).
Proof.
  intros Ha. unfold meanwhile. destruct (sy_schedule s) as [|now later] eqn:Hs; [destruct s; cbn in *; by subst|]. cbn [tail].
  set (s1 := set_sy_schedule later s). assert (sy_aps s1 = []) as Ha1 by done. clearbody s1. clear Hs. induction now as [|i now IH]; [done|].
  cbn [for_each]. unfold ap_step at 1. rewrite Ha1, lookup_nil. cbn [obind]. exact IH.
Qed.

(** A bootloader that does not support the revision: nothing is set up but the
    serial port, which reports it. *)
Lemma unsupported_halts bl im s :
  bl_supported bl = false -> ps_preempt_count (am_preempt (k_amb (sy_kernel s))) < u64_limit -> sy_aps s = [] ->
  exists p later, _start im bl s = Ret (Halted, set_sy_schedule later (set_sy_ports p s)).
Proof.
  intros Hb Hc Ha. destruct (SerialPort_init_spec 0x3F8 (sy_ports s)) as (d0 & Hinit & _); [done|]. unfold _start. change SERIAL1 with (mkSerialPort 0x3F8).
  rewrite Hinit. cbn [obind].
  assert (forall r p later, exists p' later', say im r (set_sy_schedule later (set_sy_ports p s)) = Ret (set_sy_schedule later' (set_sy_ports p' s))) as Hsay.
  { intros r p later. unfold say. rewrite meanwhile_alone by done. cbn [obind]. unfold print_args. cbn [co_redirect co_device co_preempt obind].
    rewrite exit_enter_critical, on_preempt_same by done. eexists _, _. f_equal. }
  destruct (Hsay (println "RunixOS kernel initialized." []) d0 (sy_schedule s)) as (p1 & l1 & Hs1).
  change (set_sy_schedule (sy_schedule s) (set_sy_ports d0 s)) with (set_sy_ports d0 s) in Hs1. rewrite Hs1. cbn [obind]. rewrite Hb. cbn [negb].
  destruct (Hsay (println "FATAL: Limine base revision not acknowledged. Halting." []) p1 l1) as (p2 & l2 & ->). by exists p2, l2.
Qed.
End boot.

(** ** An example *)

Import Model.

#[export] Instance Chip_OtherPorts : OtherPorts Chip.
Proof.
  intros p v d Hp. assert (outb p v d = d) as ->; [|by repeat split]. simpl.
  rewrite !(proj2 (N.eqb_neq _ _)) by lia. done.
Qed.

#[export, refine] Instance unit_ident : LapicIdent Unit_ := { lapic_ident d := N.shiftr (un_regs d 0x20) 24 }.
Proof.
  - intros d v d' [= <- <-]. done.
  - intros d v d' [= _ <-]. done.
  - done.
Defined.

(** Four processors with the APIC numbers 0, 2, 4 and 6; the first boots.  The others
    get ahead by turns before each operation of the boot processor. *)
Definition example_bootloader : Bootloader :=
  mkBootloader true 0 (Some [mkMemmapEntry 0 0x9f000 0; mkMemmapEntry 0x9f000 0x61000 1; mkMemmapEntry 0x100000 0x7ef0000 0])
    (Some (mkMpResponse 0 ((fun i => mkProcessor i (2 * i)) <$> rangeN 0 4))).
Definition example_im : Image :=
  mkImage (mkHandlers 1 2 3 4 5 6 7 8 0xffffffff80001234) (fun i => 0xffffffff80200000 + 104 * i) (fun i => 0xffffffff80300000 + KSTACK_SIZE * i).
Definition example_unit (id : N) : Unit_ := mkUnit [] 0 0 (fun r => if r =? 0x20 then N.shiftl id 24 else 0).
Definition example_system : System Chip Unit_ :=
  mkSystem (mkChip [65] [] 0 (0, 0) 0 4096) Gdt_init IDT_new (example_unit 0) [] (fun i => (k_cpu booting, example_unit (2 * i)))
    (replicate 16 [0; 2; 0; 1; 0; 0]%nat) booting.

Lemma example_power_on : power_on (L := example_layout) example_system.
Proof.
  split; try done; [apply cli_kernel_wf, Kernel_init_wf|split; [done|by left]|]. intros j. unfold example_system, booting. cbn [sy_kernel]. ksimp. unfold task_slot. cbn [k_sched Kernel_init Scheduler_init s_tasks].
  destruct (idx _ j) as [o|] eqn:Ho; [|done]. rewrite idx_lookup in Ho. apply lookup_replicate in Ho as [-> _]. done.
Qed.

